(* ===== verification/_CoqProject ===== *)
-Q . S2P
Prelude.v
RustStd.v
Text.v
Core.v
Sqlite.v
Storage.v
Queue.v
Dispatch.v
Json.v
DeviceApi.v
JournalData.v
JournalCard.v
Journal.v
DeviceTasks.v
StorageTheory.v
QueueTheory.v
DispatchTheory.v
JournalTheory.v
DeviceSystem.v
DeviceTheory.v
TestExecutor.v
Floats.v
Label.v
IppCodec.v
RasterMerge.v
PdfPages.v
PrintBackend.v
Ghostscript.v
DirectIpp.v
Receiver.v
LabelTheory.v
DirectIppTheory.v
PortosPayload.v
Portos.v
PortosTheory.v
TimCard.v
TimSession.v
TimExec.v
TimTheory.v
TimCharge.v
OdooPrint.v
PrinterStatus.v
OdooLedger.v
OdooSource.v
OdooTheory.v
OdooPoll.v
Config.v
Spooler.v
SpoolerRaw.v
Startup.v
Files.v
TimLogs.v
ConfigFile.v
LanCert.v
LanCertTheory.v
LanApi.v
AcmeOrder.v
AcmeTheory.v
ServerCert.v
ServerCertTheory.v
Capture.v
Dashboard.v
Tray.v
Reconciler.v
FrontTheory.v
FrontOutcomes.v
ServerProps.v
DeviceProps.v
PrintProps.v
SpoolerProps.v
DocumentProps.v
OdooProps.v
PortosProps.v
TimSlips.v
TimProps.v
StartupProps.v
LanCertProps.v
LanProps.v
ServerCertProps.v
FrontProps.v
