(* ===== verification/Prelude.v ===== *)
(** * DevBridge: a verification library for the print bridge and the device-job bridge

    DevBridge (the Rust workspace under [src/crates]) carries two kinds of work.
    A print server captures print jobs, stores them in SQLite, routes them to
    the PCs that own the printers and follows them to their end; the client on
    such a PC downloads a job, renders it and drives the printer.  On a store's
    PC the client also pulls work from Odoo itself: label batches, printed on
    the PC's label printer, and device jobs - fiscal receipts and card
    payments - run exactly once through a durable journal.  This library models
    the core of all of these, with the configuration, the certificates and the
    dashboard they run on, and proves what they promise.

    ** The parts of the program and their files

    Shared:
    - [Prelude]: the state-and-error monad [M St E A] every handler is written
      in, [respects] (what every run of a computation keeps, compositional for
      a preorder) and [hoare] (total correctness), with the tactics
      [solve_respects] / [respects_step] and the hint database [respects].
    - [RustStd]: the parts of Rust's standard library and of SQL the sources
      use: integer casts, UTF-8 characters, trimming and splitting, the SQL
      statement forms, [ORDER BY]; decoding UTF-8 undoes encoding.  [Text]:
      text routines on characters, parsed integers, bytes, big-endian words,
      UTF-8 validation.  [Floats]: [f64] as the standard library's binary64.
    - [Core] ([devbridge-core/src]: job.rs, job_event.rs,
      client_registration.rs, virtual_printer.rs): job states and metadata,
      audit events, pairing, driver names, slugs.  chrono's dates are the
      interface [Chrono] with laws [ChronoLaws]; [TickChrono] is an instance.
    - [Sqlite]: a connection as its tables, the schedule of the engine's
      failures and the clock; statements, queries, transactions.  The server's
      store, the device journal and the Odoo ledger are instances.  A failed
      statement changes nothing; a transaction that does not commit is rolled
      back.
    - [Json]: serde_json values (text is the interface [JsonText], with the
      round trip of serde_json on [plain] values as [JsonTextLaws]; [BitsJson]
      is an instance) and the reading of Odoo's answers (odoo_rpc.rs).

    The server:
    - [Storage] ([devbridge-server/src/storage.rs]): every statement of the
      server's store.  [Queue] (queue.rs): the job queue, its channels and
      routing.  [Dispatch] (dispatch.rs, and the reaper and the client queue
      of [devbridge-service/src/runtime.rs]): the service's handlers, the
      delivery loop turn by turn, retries and the reaper.  [StorageTheory],
      [QueueTheory], [DispatchTheory]: the lemmas about them.
    - [Capture] (ipp_service.rs, [format_size] of ipp_printer.rs): a document
      that arrives over IPP, from the spool file to the queue.  [Dashboard]
      (devbridge-dashboard: state.rs and the handlers of api/): the job
      actions, clients, printers, status and configuration.  [Reconciler]
      (printer_reconciler.rs): the Windows printers kept in step with the
      virtual ones, and what the reconciler is told over the steps of the
      server.
    - [FrontTheory]: the server with its captures and its dashboard as
      one transition system ([front_step]); an order every handler of the
      store and the queue respects is stated once, by the classes [QueueOrder]
      and [ServiceOrder].  [FrontOutcomes]: how a capture, a reprint and an
      approval end.

    The server's certificate ([devbridge-server/src/cert]):
    - [AcmeOrder] (dns.rs, acme.rs): the TXT records of a challenge and the
      order at the authority; the DNS service, the authority and the resolvers
      are the interface [AcmeWorld].  [ServerCert] (mod.rs, and
      [request_certificate] of dispatch.rs): the checks of a signing request,
      the account and the rate limit; the parser of the request is the
      interface [Csr].  [AcmeTheory], [ServerCertTheory]: their lemmas.

    The client's configuration, files and LAN door ([devbridge-client/src],
    [devbridge-core/src]):
    - [Config] (config.rs, config/): the fields of both configurations with
      their defaults.  [Startup] (startup_validation.rs): what is refused
      before the client runs.  [ConfigFile]: reading and saving; the TOML text
      is the interface [Toml] with the round trip [TomlLaws].
    - [Files] (file_acl.rs): a disk with its files and their rights, private
      and durable writes, and a process that may stop between any two
      operations, with a logic of runs that may be cut.  [LanCert]
      (lan_api/cert.rs): the key and certificate of the LAN listener, renewal
      and install.  [LanCertTheory]: their lemmas.
    - [LanApi] (lan_api: auth.rs, mod.rs, requests.rs): keys, the throttle,
      the parsing and checks of a request; the hash is the interface [Sha256].

    The client's printing ([devbridge-client/src]):
    - [PrintBackend] (print_backend.rs, inflight.rs): outcomes and reports, the
      trait of a back end, the registry of live prints.  A back end works in a
      [World]: the time, the events, the token, files, requests and processes;
      what the outside answers is the interface [Outside].
    - [Ghostscript] (ghostscript.rs), [PdfPages] (pdf_pages.rs, gs_plan.rs),
      [RasterMerge] (raster_merge.rs): the render of a document, child by
      child; the reading of PDFINFO and the runs of pages; the merge.
    - [IppCodec] (ipp_codec.rs), [DirectIpp] (backend_direct_ipp.rs): the
      requests and answers of the printer, the send and the polls of every
      page.  [DirectIppTheory]: the protocol [pages_run] it refines.
    - [Spooler] (printer.rs and the back ends of the Windows spooler, CUPS, the
      print proxy and raw sockets), [SpoolerRaw] (backend_windows_spooler_raw/):
      printing through programs, winspool and sockets.  The interfaces are
      [RawSocket], [StampText] and [Winspool]; what winspool and a socket take is
      logged in the world's [requests].  [SpoolerRaw] ends with the lemmas on the
      polling loop and the RAW document.
    - [Receiver] (receiver.rs, print_lock.rs): one job of the server from
      record to report, with the print lock and the outer timeout.

    The client's label printing for Odoo ([devbridge-client/src/odoo_source]):
    - [Label] (tspl.rs, layout.rs): bitmaps, the threshold, the placement on
      the roll, the TSPL document.  The base64 and PNG decoders are the
      interface [ImageCodecs].  [LabelTheory]: its lemmas, dot by dot.
    - [OdooPrint] (rpc.rs, label_size.rs): the messages and the roll of a batch.
    - [OdooLedger] (ledger.rs): the table of the printed lines.
    - [OdooSource] (mod.rs): the poll, the batch, the spooling, the acks, the
      start.  Odoo is the interface [OdooServer]: its answer to a call may
      depend on every call before; what was handed to the spooler is logged in
      [documents].
    - [PrinterStatus] (printer_status.rs): the printer's state in the heartbeat.
    - [OdooTheory]: the invariant and the source as a transition system
      ([reachable]).  [OdooPoll]: a poll while the ledger works, and the
      reference [printed_lines] of what a batch prints.

    The device jobs ([devbridge-client/src/device_jobs]):
    - [DeviceApi] (api.rs, executor.rs, report_offline.rs): jobs, acks, the
      parsing of answers, device kinds, the executor registry and the checks
      before a device is asked.
    - [JournalData], [JournalCard], [Journal] (journal.rs, journal_lan.rs,
      journal_card.rs, journal_card_balance.rs): the four tables of the
      journal, the one state machine both job tables share (the record
      [Table], as the source's struct), and every operation on them.
    - [DeviceTasks] (mod.rs, tasks.rs, lan.rs): the control loop, the device
      workers, the reconciler, the ack sender, the LAN reporter, the door of
      the LAN API and the start of the process.
    - [JournalTheory], [DeviceTheory]: the lemmas about them; [JournalTheory]
      states what a table promises the state machine as the class [TableLaws],
      which both job tables discharge.
    - [DeviceSystem]: the device-job source as a transition system
      ([step], [reachable]) with crashes and restarts, and its invariants.
    - [PortosPayload] (portos/payload.rs): what a fiscal job must say and the
      requests it becomes; the hash and the dates of a receipt are the interface
      [ReceiptKeys].  [Portos] (portos/mod.rs, outcome.rs, status.rs, the
      answers of http.rs): the executor of the fiscal printers - registration,
      controls, reconcile, check, probe - and the reading of their answers.  The
      Portos servers are the interface [PortosServer].  [PortosTheory]: which calls register,
      what precedes them, and which answers mean that nothing was registered
      ([PortosStore], the documented refusals).  That a lookup finds every
      receipt Portos holds is not documented and not assumed.

    - [TimCard] (tim/card.rs, reports.rs): what the terminal's codes mean for
      the money, the results, the slips.  [TimSession] (purchase.rs, the
      sessions of mod.rs, ops.rs, jobs.rs): the held session of a payment, call
      by call, with its clock and its settle requests.  [TimExec] (jobs.rs,
      ops.rs, safety.rs, mod.rs): the card executor.  The TIM library is the
      interface [TimLibrary], the delays and what the other tasks do meanwhile
      [TimWorld], the receipt printer [SlipPrinter].  [TimTheory]: the protocol
      [purchase_session] and the terminal's [books].  [TimCharge]: the calls
      that move money, over every step ([tim_step]).  [TimLogs] (tim/logs.rs):
      the daily log files of the library, archived and pruned on a disk that may
      stop.
    - [TestExecutor] (test_executor.rs): the device that stands in for a real
      one.

    The user's session ([devbridge-app/src]): [Tray] (job_tracker.rs, tray.rs):
    the events a session sees, its jobs and its menu, and that it shows no other
    user's jobs.

    [ServerProps], [DeviceProps], [PrintProps], [SpoolerProps], [DocumentProps],
    [OdooProps], [PortosProps], [TimSlips], [TimProps], [StartupProps],
    [LanCertProps], [LanProps], [ServerCertProps], [FrontProps]: the
    properties, each with an instance on a concrete state.

    ** How state and operations correspond to the code

    A function that works on a connection or a shared structure is a
    computation [St → result E A * St]: [?] is the monad's bind, [let _ = m] is
    [ignore], a looked-at [Result] is [attempt], a loop is [for_each] or, with
    loop variables, [fold_m].  SQL tables are lists of rows
    in rowid order; a row's nullable column is an [option].  Error texts are
    kept.  Names are the source's, with a record's prefix on its fields
    ([o_job_id] is the column [job_id] of [device_jobs]) and [admit_lan] for
    [LanJobs::admit].  Integers are [Z] with their wrap-around written out
    where the code casts them.

    Failures: every call into the SQLite engine consumes one entry of the
    schedule [faults]; theorems quantify over it.  A stop of the process in
    the middle of an operation is the same as an engine that fails from there
    on.  Interleaving: each handler, or the part of it between two awaits, is
    one step; steps of all tasks and streams interleave freely ([server_step],
    [DeviceSystem.step], [OdooTheory.reachable]).  The server's handlers hold no
    lock over their
    several statements; at the granularity chosen here another handler does
    not run in between them, so a property of a single row's statement holds
    under any interleaving (it is proved statement by statement), while a
    read followed by a send inside one handler is taken as one step.

    A print: the back end runs to its end, whether or not somebody still waits
    for it; its effects are in the world at once and the clock tells when they
    happen, so that a caller whose timeout fires sees the events up to then.
    The blocking task of a print and the spooler's child processes are the only
    work that outlives its caller.

    ** What the theorems show

    The front of the server ([FrontProps]): over every interleaving of the
    service, the captures and the dashboard, and every failure, a finished job
    is never resent and a captured document is never lost; a capture that
    succeeds is stored, queued and routed by its printer's pairing - without a
    target only when the printer has none or a call into the store failed, which
    [push] takes for no pairing; a reprint copies a recent job or changes nothing;
    an approved printer is stored, paired and (unless its description fails)
    registered, and while it stands prints at its client under the same condition;
    the reconciler, told of changes, misses no printer.

    The server ([ServerProps]): the same two over the service
    alone; where a pushed, requeued or drawn job goes; the exact effect of
    completion and status reports; the all-or-nothing startup recovery; the
    download is the payload; reconnects, rejected clients and the stream
    count; the upsert, the round trip and the listings of the store; accepted
    driver names and slugs.

    Printing ([PrintProps]): sending refines the protocol of the printer's
    side, one request per page up to the first that is not printed; a plain
    failure - the only outcome the server retries - left the printer nothing
    while the client for the polls can be built, and over direct IPP a second
    print is scheduled for no other reason than that, a timeout before an
    acceptance was recorded, an earlier attempt still running, or that client
    failing; the audit events agree with the outcome; a child process obeys the
    cancellation.  A RAW label print ([SpoolerProps]) leaves one whole document,
    an aborted one or none, and succeeds only when the print service has counted
    its bytes; a raw socket gets whole copies up to the first that fails.
    Documents ([DocumentProps]): the merged runs are the one
    document, counted only when every run counted its pages; requests parse
    back; a placed label reads as its picture, in the middle and moved by the
    offsets, and its layout line tells the ink; PDFINFO pages are well formed.

    The Odoo source ([OdooProps]): over any polls, restarts, failures and
    answers, a line is spooled at most once since its row was pruned, and an
    ack of printed labels is true of the bytes that were spooled (its quantity
    capped at what a document can ask for); while the ledger works, a poll leaves every
    offered line with a verdict that Odoo has heard, and a batch prints exactly
    what the reference selects, on a checked roll; the printer's state drops no
    status bit and its reads never pile up.

    Fiscal receipts ([PortosProps]): over any jobs, reconciles and failures of
    the journal, a register request leaves only right after Portos, asked by its
    key, said that it has no such receipt, and for a job whose contact is
    journaled (that Portos' answer is complete is not claimed); a job said not
    executed was never sent, a failed one registered nothing, a done one carries
    the answer to its own receipt; what passed the check of a text is printed as it stands.

    The device jobs ([DeviceProps]): an executor is called for a job at most
    once since its row was last pruned, for a LAN job at most once ever, in
    every reachable state; the first final outcome stays, across restarts too;
    recovery is all or nothing and makes the received and the executing rows,
    and only them, indeterminate; an accepted job is queued or refused; a till's
    operation has one row and is never queued again; "not received" is said
    only of unknown jobs; the owed acks are exact, carry the device's result,
    and are all settled by one round when Odoo answers; a card terminal is
    asked at most once, after its contact was journaled; pruning drops only
    settled rows; [next] waits for [pending]; codes, texts, ids and delays
    are bounded.

    Card payments ([TimProps], [TimSlips]): a payment follows the protocol of a
    held session - after an unknown end it frees the terminal before the logout,
    or waits out the terminal's commit timeout - and its outcome agrees with the
    terminal's books; a held authorisation is decided in time, by a commit only
    when one was asked for; over any jobs, reconciles and restarts a job is
    charged at most once; a reversal never doubles one that stands, and goes to
    the terminal its payload names; a
    reconcile ends only by proof; a card number shows its last four digits and
    a slip passes the printer's check.

    Configuration and start ([StartupProps]): a configuration that starts the
    client decides an authorisation before the terminal reverses it (its answer
    and each later step late by a third of the five seconds of margin at most),
    a commit only because Odoo asked, and gives
    every till its own terminal; the answers of the check tell no secret.

    The LAN door ([LanCertProps], [LanProps]): a replacement of the key and the
    certificate is recovered after any crash, and the private key is never in a
    file others can read; an installed certificate is the PC's own; a call acts
    for the till of its key only.

    The server's certificate ([ServerCertProps]): it is ordered only by the
    approved client it names, for the store's own name; two of a name are an
    hour apart; an order ends in time and cleans up its records.

    ** Bounds and fuel

    [dec_digits] takes the number of binary digits as fuel, which bounds the
    decimal ones; [hex_digits] the eight digits of a [u32].  The loops of the
    sources are structural recursions on their lists; the chunk loop of
    [download_payload] takes the payload's length, the parser of an IPP answer
    its number of bytes.  The polls of a printer and the loops of the spooler
    take the ticks of their timeout (more fuel changes nothing:
    [poll_until_more]), the wait for a child process the ticks until it ends or
    is cancelled, the collection of page files the number of files; none of them
    runs out ([DirectIppTheory], [SpoolerRaw], [Ghostscript]).  [json_depth] is serde_json's
    limit of nesting.  The wait of a held card payment takes the half seconds of
    its deadline, the release of a terminal the retries of its window
    ([TimTheory]).

    ** Not modelled

    The schema migrations of [Storage::new], [Journal::init] and
    [Ledger::init] (tables have the final columns); wake-ups ([Notify],
    [watch]) and sleeps between rounds, which only decide when a task runs
    next; logging; the tonic, HTTP and serial transports, the receiver's
    subscription and heartbeat streams among them; the search for a
    Ghostscript installation; the winspool calls behind the printer's
    state; the HTTP client of [portos] and the library binding of [tim]; the
    end of a card session whose thread panics (its executor is built with a
    journal); the executors' answers are arguments of the steps of
    [DeviceSystem].

    Of the server: the IPP protocol itself (ippper) and its HTTP listeners,
    the serial bridge, the WebSocket, the log and the static files of the
    dashboard; the clearing of the jobs is a dashboard step but not one of
    [front_step], whose theorems are about the jobs it would delete; the lock
    that serialises the calls of an ACME account.  Of the client: the TLS
    listener of the LAN API (its handlers are modelled), the run loop and the
    serial bridge, the script that sets file rights.  The windows and menus of the
    desktop app, the web interface, the service wrapper and the end-to-end tests drive
    the parts modelled here or show them, and keep no state of the program's
    contract. *)

From Stdlib Require Import ZArith.
From stdpp Require Export base list strings.
From stdpp Require Import fin_maps gmap.

#[export] Set Default Goal Selector "!".

(** ** Results and the state-and-error monad

    A Rust function that works on a connection or a shared structure becomes a
    computation [M St E A]: it reads and writes a state [St] and returns a
    [result E A].  An [Err] keeps the state reached so far, as an early return
    through [?] does. *)

Inductive result (E A : Type) : Type :=
| Ok (a : A)
| Err (e : E).
Arguments Ok {E A} a.
Arguments Err {E A} e.

Definition M (St E A : Type) : Type := St → result E A * St.

#[export] Instance M_ret {St E} : MRet (M St E) := λ A a s, (Ok a, s).
#[export] Instance M_bind {St E} : MBind (M St E) := λ A B f m s,
  match m s with
  | (Ok a, s') => f a s'
  | (Err e, s') => (Err e, s')
  end.

Definition throw {St E A} (e : E) : M St E A := λ s, (Err e, s).
Definition gets {St E A} (f : St → A) : M St E A := λ s, (Ok (f s), s).
Definition modify {St E} (f : St → St) : M St E unit := λ s, (Ok tt, f s).

(** [attempt m]: the caller looks at the [Result] instead of using [?]. *)
Definition attempt {St E E' A} (m : M St E A) : M St E' (result E A) :=
  λ s, let '(r, s') := m s in (Ok r, s').
(** [let _ = m;] *)
Definition ignore {St E E' A} (m : M St E A) : M St E' unit :=
  λ s, (Ok tt, snd (m s)).
(** [m.map_err(f)?] *)
Definition map_err {St E E' A} (f : E → E') (m : M St E A) : M St E' A :=
  λ s, match m s with
       | (Ok a, s') => (Ok a, s')
       | (Err e, s') => (Err (f e), s')
       end.
(** [m.ok().flatten()] of a [Result<Option<_>>] *)
Definition ok_flatten {E A} (r : result E (option A)) : option A :=
  match r with Ok o => o | Err _ => None end.
Definition is_ok {E A} (r : result E A) : bool :=
  match r with Ok _ => true | Err _ => false end.

(** A computation on a part [T] of the state [St]. *)
Definition zoom {St T E A} (get : St → T) (put : T → St → St) (m : M T E A) : M St E A :=
  λ s, let '(r, t) := m (get s) in (r, put t s).

(** [for x in l { f(x)? }] *)
Fixpoint for_each {St E A} (l : list A) (f : A → M St E unit) : M St E unit :=
  match l with
  | [] => mret tt
  | x :: l' => _ ← f x; for_each l' f
  end.

(** The same with a loop-carried value. *)
Fixpoint fold_m {St E A B} (l : list A) (f : A → B → M St E B) (b : B) : M St E B :=
  match l with
  | [] => mret b
  | x :: l' => b' ← f x b; fold_m l' f b'
  end.

(** ** Reasoning principle: what every run of a computation respects

    [respects R m]: every run of [m] - whatever it returns - relates the state
    before to the state after by [R].  For a preorder [R] the property is
    compositional, so that a handler respects [R] as soon as the statements it
    is made of do. *)

Definition respects {St E A} (R : relation St) (m : M St E A) : Prop :=
  ∀ s, R s (snd (m s)).

Create HintDb respects.

Lemma respects_weaken {St E A} (R R' : relation St) (m : M St E A) :
  (∀ s s', R s s' → R' s s') → respects R m → respects R' m.
Proof. intros HR Hm s. by apply HR. Qed.

Section respects.
Context {St : Type} (R : relation St) `{!PreOrder R}.

Lemma respects_ret {E A} (a : A) : respects R (mret a : M St E A).
Proof. intros s. reflexivity. Qed.

Lemma respects_throw {E A} (e : E) : respects R (throw e : M St E A).
Proof. intros s. reflexivity. Qed.

Lemma respects_gets {E A} (f : St → A) : respects R (gets f : M St E A).
Proof. intros s. reflexivity. Qed.

Lemma respects_modify {E} (f : St → St) :
  (∀ s, R s (f s)) → respects R (modify f : M St E unit).
Proof. intros H s. apply H. Qed.

Lemma respects_bind {E A B} (m : M St E A) (f : A → M St E B) :
  respects R m → (∀ a, respects R (f a)) → respects R (m ≫= f).
Proof.
  intros Hm Hf s. unfold mbind, M_bind. specialize (Hm s).
  destruct (m s) as [[a|e] s']; simpl in *; [|done].
  etrans; [apply Hm|apply Hf].
Qed.

Lemma respects_attempt {E E' A} (m : M St E A) :
  respects R m → respects R (attempt m : M St E' _).
Proof. intros Hm s. unfold attempt. specialize (Hm s). by destruct (m s). Qed.

Lemma respects_ignore {E E' A} (m : M St E A) :
  respects R m → respects R (ignore m : M St E' _).
Proof. intros Hm s. apply Hm. Qed.

Lemma respects_map_err {E E' A} (f : E → E') (m : M St E A) :
  respects R m → respects R (map_err f m).
Proof. intros Hm s. unfold map_err. specialize (Hm s). by destruct (m s) as [[]]. Qed.

Lemma respects_zoom {T E A} get put (m : M T E A) (Q : relation T) :
  (∀ s t, Q (get s) t → R s (put t s)) → respects Q m → respects R (zoom get put m).
Proof.
  intros H Hm s. unfold zoom. specialize (Hm (get s)).
  destruct (m (get s)); simpl in *. by apply H.
Qed.

Lemma respects_for_each {E A} (l : list A) (f : A → M St E unit) :
  (∀ a, respects R (f a)) → respects R (for_each l f).
Proof.
  intros Hf. induction l as [|a l IH]; simpl; [apply respects_ret|].
  apply respects_bind; auto.
Qed.

Lemma respects_fold_m {E A B} (l : list A) (f : A → B → M St E B) b :
  (∀ a b, respects R (f a b)) → respects R (fold_m l f b).
Proof.
  intros Hf. revert b. induction l as [|a l IH]; intros b; simpl; [apply respects_ret|].
  apply respects_bind; auto.
Qed.
End respects.

(** A run of a computation that respects a preorder of the form "the invariant
    is kept" keeps the invariant. *)
Definition keeps {St} (P : St → Prop) : relation St := λ s s', P s → P s'.
#[export] Instance keeps_preorder {St} (P : St → Prop) : PreOrder (keeps P).
Proof. split; unfold keeps; repeat intro; auto. Qed.

#[export] Hint Resolve respects_ret respects_throw respects_gets respects_attempt
  respects_ignore respects_map_err respects_for_each : respects.

(** [respects]: decompose a computation into its statements and use the hint
    database for each. *)
Ltac respects_step :=
  lazymatch goal with
  | |- respects _ (mbind _ _) => apply respects_bind; [try apply _| |intros ?]
  | |- respects _ (match ?x with _ => _ end) => destruct x eqn:?
  | |- respects _ (let '_ := ?x in _) => destruct x eqn:?
  | |- respects _ (attempt _) => apply respects_attempt
  | |- respects _ (ignore _) => apply respects_ignore
  | |- respects _ (map_err _ _) => apply respects_map_err
  | |- respects _ (for_each _ _) => apply respects_for_each; [try apply _|intros ?]
  | |- respects _ (fold_m _ _ _) => apply respects_fold_m; [try apply _|intros ? ?]
  | |- respects _ (mret _) => apply respects_ret; try apply _
  | |- respects _ (throw _) => apply respects_throw; try apply _
  | |- respects _ (gets _) => apply respects_gets; try apply _
  end.
(** Components extend this with their own lifting lemmas. *)
Ltac respects_hook := fail.
Ltac solve_respects :=
  repeat first [ solve [eauto with respects typeclass_instances] | respects_step | respects_hook ].

Lemma run_bind {St E A B} (m : M St E A) (f : A → M St E B) s a s' :
  m s = (Ok a, s') → (m ≫= f) s = f a s'.
Proof. unfold mbind, M_bind. by intros ->. Qed.

Lemma bind_ok {St E A B} (m : M St E A) (f : A → M St E B) s b s' :
  (m ≫= f) s = (Ok b, s') → ∃ a s1, m s = (Ok a, s1) ∧ f a s1 = (Ok b, s').
Proof. unfold mbind, M_bind. destruct (m s) as [[a|e] s1]; [|done]. eauto. Qed.

Lemma bind_ext {St E A B} (m : M St E A) (f g : A → M St E B) s :
  (∀ a s', m s = (Ok a, s') → f a s' = g a s') → (m ≫= f) s = (m ≫= g) s.
Proof. unfold mbind, M_bind. destruct (m s) as [[a|e] s']; eauto. Qed.

(** ** Total correctness: [hoare P m Q]

    From every state in [P] the computation succeeds and its result and final
    state satisfy [Q]. *)
Definition hoare {St E A} (P : St → Prop) (m : M St E A) (Q : A → St → Prop) : Prop :=
  ∀ s, P s → ∃ a s', m s = (Ok a, s') ∧ Q a s'.

Section hoare.
Context {St : Type}.
Implicit Types P : St → Prop.

Lemma hoare_bind {E A B} P (m : M St E A) (f : A → M St E B) Q R :
  hoare P m Q → (∀ a, hoare (Q a) (f a) R) → hoare P (m ≫= f) R.
Proof.
  intros Hm Hf s Hs. destruct (Hm s Hs) as (a & s1 & E1 & HQ).
  destruct (Hf a s1 HQ) as (b & s2 & E2 & HR). exists b, s2.
  unfold mbind, M_bind. by rewrite E1.
Qed.

Lemma hoare_ret {E A} (a : A) P (Q : A → St → Prop) :
  (∀ s, P s → Q a s) → hoare P (mret a : M St E A) Q.
Proof. intros H s Hs. exists a, s. eauto. Qed.

Lemma hoare_gets {E A} (f : St → A) P (Q : A → St → Prop) :
  (∀ s, P s → Q (f s) s) → hoare P (gets f : M St E A) Q.
Proof. intros H s Hs. exists (f s), s. eauto. Qed.

Lemma hoare_modify {E} (f : St → St) P (Q : unit → St → Prop) :
  (∀ s, P s → Q tt (f s)) → hoare P (modify f : M St E unit) Q.
Proof. intros H s Hs. exists tt, (f s). eauto. Qed.

Lemma hoare_attempt {E E' A} (m : M St E A) P Q :
  hoare P m Q →
  hoare P (attempt m : M St E' _) (λ r s, match r with Ok a => Q a s | Err _ => False end).
Proof.
  intros Hm s Hs. destruct (Hm s Hs) as (a & s1 & E1 & HQ).
  exists (Ok a), s1. unfold attempt. by rewrite E1.
Qed.

Lemma hoare_ignore {E E' A} (m : M St E A) P (Q : St → Prop) :
  hoare P m (λ _, Q) → hoare P (ignore m : M St E' unit) (λ _, Q).
Proof.
  intros Hm s Hs. destruct (Hm s Hs) as (a & s1 & E1 & HQ).
  exists tt, s1. unfold ignore. by rewrite E1.
Qed.

Lemma hoare_map_err {E E' A} (f : E → E') (m : M St E A) P Q :
  hoare P m Q → hoare P (map_err f m) Q.
Proof.
  intros Hm s Hs. destruct (Hm s Hs) as (a & s1 & E1 & HQ).
  exists a, s1. unfold map_err. by rewrite E1.
Qed.

Lemma hoare_conseq {E A} (m : M St E A) P P' (Q Q' : A → St → Prop) :
  hoare P' m Q' → (∀ s, P s → P' s) → (∀ a s, Q' a s → Q a s) → hoare P m Q.
Proof.
  intros Hm HP HQ s Hs. destruct (Hm s (HP s Hs)) as (a & s1 & E1 & H1). eauto.
Qed.

Lemma hoare_pure {E A} (X : Prop) P (m : M St E A) Q :
  (X → hoare P m Q) → hoare (λ s, X ∧ P s) m Q.
Proof. intros H s [HX Hs]. by apply H. Qed.

(** A computation on a part [get s] of the state; [F] is what the rest keeps. *)
Lemma hoare_zoom {T E A} get put (m : M T E A) (P : T → Prop) (F : St → Prop) Q :
  (∀ s t, F s → F (put t s)) → (∀ s t, get (put t s) = t) →
  hoare P m Q →
  hoare (λ s, P (get s) ∧ F s) (zoom get put m) (λ a s, Q a (get s) ∧ F s).
Proof.
  intros HF Hgp Hm s [Hs HFs]. destruct (Hm _ Hs) as (a & t & E1 & HQ).
  exists a, (put t s). unfold zoom. rewrite E1, Hgp. auto.
Qed.
End hoare.

(** ** Outcomes: [ends m s Q]

    The run of [m] from [s] ends in [Q], whatever it returns. *)
Definition ends {St E A} (m : M St E A) (s : St) (Q : result E A → St → Prop) : Prop := Q (fst (m s)) (snd (m s)).
Lemma ends_bind {St E A B} (m : M St E A) (k : A → M St E B) s Q :
  ends m s (λ r s', match r with Ok a => ends (k a) s' Q | Err e => Q (Err e) s' end) → ends (m ≫= k) s Q.
Proof. unfold ends, mbind, M_bind. by destruct (m s) as [[a|e] s']. Qed.
Lemma ends_mono {St E A} (m : M St E A) s (Q Q' : result E A → St → Prop) :
  ends m s Q → (∀ r s', Q r s' → Q' r s') → ends m s Q'.
Proof. unfold ends. auto. Qed.

Lemma ends_attempt {St E E' A} (m : M St E A) s (Q : result E' (result E A) → St → Prop) :
  ends m s (λ r, Q (Ok r)) → ends (attempt m) s Q.
Proof. unfold ends, attempt. by destruct (m s). Qed.
Lemma ends_run {St E A} (m : M St E A) s r s' (Q : result E A → St → Prop) : m s = (r, s') → Q r s' → ends m s Q.
Proof. unfold ends. by intros ->. Qed.
