(* ===== verification/RustStd.v ===== *)
(** * The parts of Rust's standard library and of SQL the sources use

    Machine integers with their wrap-around, strings as UTF-8 bytes with the
    character operations the sources call, text comparison as SQLite's BINARY
    collation, and the effect of the SQL statement forms ([UPDATE .. WHERE],
    [DELETE .. WHERE], [SELECT .. WHERE .. ORDER BY]) on a table given as the
    list of its rows in rowid order. *)

From Stdlib Require Import ZArith Ascii String Sorting.Sorted Sorting.Permutation.
From S2P Require Import Prelude.
#[local] Open Scope Z_scope.

(** ** Integer casts ([as u32], [as u64], [as i64]) *)

Definition as_u32 (z : Z) : Z := z mod 2 ^ 32.
Definition as_u64 (z : Z) : Z := z mod 2 ^ 64.
Definition as_i64 (z : Z) : Z :=
  let m := z mod 2 ^ 64 in if m <? 2 ^ 63 then m else m - 2 ^ 64.
Definition u64_max : Z := 2 ^ 64 - 1.
(** [u64::saturating_mul] *)
Definition saturating_mul_u64 (a b : Z) : Z := Z.min (a * b) u64_max.

Lemma as_u64_as_i64 z : 0 ≤ z < 2 ^ 64 → as_u64 (as_i64 z) = z.
Proof.
  intros Hz. unfold as_u64, as_i64. rewrite (Z.mod_small z) by lia.
  destruct (Z.ltb_spec z (2 ^ 63)); [by rewrite Z.mod_small by lia|].
  replace (z - 2 ^ 64) with (z + (-1) * 2 ^ 64) by lia.
  rewrite Z.mod_add by lia. by rewrite Z.mod_small by lia.
Qed.

Lemma as_u32_id z : 0 ≤ z < 2 ^ 32 → as_u32 z = z.
Proof. intros. unfold as_u32. by rewrite Z.mod_small by lia. Qed.

(** ** Text: equality, comparison, prefixes *)

Declare Scope rust_scope.
Delimit Scope rust_scope with rust.
Infix "=t?" := String.eqb (at level 70) : rust_scope.
Infix "<t?" := String.ltb (at level 70) : rust_scope.
#[global] Open Scope rust_scope.

(** [Option<String> == Option<String>] and SQL's [IS]. *)
Definition opt_text_eqb (a b : option string) : bool :=
  match a, b with
  | Some x, Some y => x =t? y
  | None, None => true
  | _, _ => false
  end.
(** SQL's [=] on a nullable column: [NULL] is never equal. *)
Definition null_eq (a : option string) (b : string) : bool :=
  match a with Some x => x =t? b | None => false end.

(** [s.starts_with(p)] *)
Definition starts_with (p s : string) : bool := String.prefix p s.

(** [state IN ('a', 'b', ..)] *)
Definition text_in (s : string) (l : list string) : bool := existsb (String.eqb s) l.
#[global] Arguments text_in : simpl never.

Lemma text_in_spec s l : text_in s l = true ↔ In s l.
Proof.
  unfold text_in. rewrite existsb_exists. split.
  - intros [x [Hin Heq]]. apply String.eqb_eq in Heq. by subst.
  - intros Hin. exists s. by rewrite String.eqb_refl.
Qed.

Lemma string_compare_refl s : String.compare s s = Eq.
Proof. induction s as [|c s IH]; [done|]. simpl. unfold Ascii.compare. by rewrite N.compare_refl. Qed.

Lemma string_compare_trans a b c :
  String.compare a b ≠ Gt → String.compare b c ≠ Gt → String.compare a c ≠ Gt.
Proof.
  revert b c. induction a as [|x a IH]; intros [|y b] [|z c]; simpl; try done.
  unfold Ascii.compare.
  destruct (N.compare_spec (N_of_ascii x) (N_of_ascii y)) as [Exy|Lxy|Gxy]; try done;
  destruct (N.compare_spec (N_of_ascii y) (N_of_ascii z)) as [Eyz|Lyz|Gyz]; try done;
  destruct (N.compare_spec (N_of_ascii x) (N_of_ascii z)) as [Exz|Lxz|Gxz]; try done; try lia.
  intros. eapply IH; eauto.
Qed.

Lemma text_leb_trans a b c :
  String.leb a b = true → String.leb b c = true → String.leb a c = true.
Proof.
  unfold String.leb. intros H1 H2. pose proof (string_compare_trans a b c) as H.
  destruct (String.compare a b), (String.compare b c), (String.compare a c); try done;
    exfalso; apply H; done.
Qed.

(** ** Rows: the SQL statement forms *)

Section sql.
Context {Row : Type}.
Implicit Types (p : Row → bool) (f : Row → Row) (t : list Row).

(** [UPDATE .. SET f WHERE p]: the new rows and the number of changed rows. *)
Definition sql_update p f t : list Row * Z :=
  (map (λ r, if p r then f r else r) t, Z.of_nat (List.length (List.filter p t))).
(** [DELETE .. WHERE p] *)
Definition sql_delete p t : list Row * Z :=
  (List.filter (λ r, negb (p r)) t, Z.of_nat (List.length (List.filter p t))).
(** Rows in the order of [leb], ties in the given order. *)
Fixpoint ordered_insert (leb : Row → Row → bool) (r : Row) t : list Row :=
  match t with
  | [] => [r]
  | r' :: t' => if leb r r' then r :: t else r' :: ordered_insert leb r t'
  end.
Definition sort_rows (leb : Row → Row → bool) t : list Row := foldr (ordered_insert leb) [] t.

Definition text_leb (key : Row → string) (a b : Row) : bool := String.leb (key a) (key b).
Definition id_leb (key : Row → Z) (a b : Row) : bool := key a <=? key b.
(** [ORDER BY key ASC] *)
Definition order_by (key : Row → string) t : list Row := sort_rows (text_leb key) t.
Definition order_by_id (key : Row → Z) t : list Row := sort_rows (id_leb key) t.
(** [ORDER BY key DESC] *)
Definition order_by_desc (key : Row → string) t : list Row := rev (order_by key t).

Lemma ordered_insert_perm leb r t : Permutation (ordered_insert leb r t) (r :: t).
Proof.
  induction t as [|r' t IH]; simpl; [done|].
  destruct (leb _ _); [done|]. rewrite IH. apply perm_swap.
Qed.

Lemma sort_rows_perm leb t : Permutation (sort_rows leb t) t.
Proof.
  induction t as [|r t IH]; simpl; [done|]. rewrite ordered_insert_perm. by rewrite IH.
Qed.

Section sorted.
Context (leb : Row → Row → bool)
  (leb_trans : ∀ a b c, leb a b = true → leb b c = true → leb a c = true)
  (leb_total : ∀ a b, leb a b = true ∨ leb b a = true).

Lemma ordered_insert_sorted r t :
  StronglySorted (λ a b, leb a b = true) t →
  StronglySorted (λ a b, leb a b = true) (ordered_insert leb r t).
Proof.
  induction 1 as [|r' t Hs IH Hf]; simpl; [repeat constructor|].
  destruct (leb r r') eqn:E.
  - constructor; [by constructor|]. constructor; [done|].
    eapply Forall_impl; [exact Hf|]. intros x Hx. by eapply leb_trans.
  - constructor; [done|].
    eapply Permutation_Forall; [symmetry; apply ordered_insert_perm|].
    constructor; [|done]. destruct (leb_total r' r); [done|congruence].
Qed.

Lemma sort_rows_sorted t : StronglySorted (λ a b, leb a b = true) (sort_rows leb t).
Proof. induction t; simpl; [constructor|by apply ordered_insert_sorted]. Qed.
End sorted.

Lemma order_by_perm key t : Permutation (order_by key t) t.
Proof. apply sort_rows_perm. Qed.
Lemma order_by_id_perm key t : Permutation (order_by_id key t) t.
Proof. apply sort_rows_perm. Qed.

Definition key_le (key : Row → string) (a b : Row) : Prop := String.leb (key a) (key b) = true.

Lemma order_by_sorted key t : StronglySorted (key_le key) (order_by key t).
Proof.
  apply sort_rows_sorted; unfold text_leb.
  - intros a b c. apply text_leb_trans.
  - intros a b. destruct (String.leb_total (key a) (key b)); auto.
Qed.

Lemma order_by_id_sorted key t : StronglySorted (λ a b, key a ≤ key b) (order_by_id key t).
Proof.
  assert (StronglySorted (λ a b, id_leb key a b = true) (order_by_id key t)) as Hs.
  { apply sort_rows_sorted; unfold id_leb.
    - intros a b c. rewrite !Z.leb_le. lia.
    - intros a b. rewrite !Z.leb_le. lia. }
  induction Hs as [|r l Hs IH Hf]; constructor; [done|].
  eapply Forall_impl; [exact Hf|]. intros x Hx. by apply Z.leb_le.
Qed.

Lemma in_order_by key t r : In r (order_by key t) ↔ In r t.
Proof.
  split; apply Permutation_in; [apply order_by_perm|symmetry; apply order_by_perm].
Qed.
Lemma in_order_by_id key t r : In r (order_by_id key t) ↔ In r t.
Proof.
  split; apply Permutation_in; [apply order_by_id_perm|symmetry; apply order_by_id_perm].
Qed.

Lemma in_filter p t r : In r (List.filter p t) ↔ In r t ∧ p r = true.
Proof. apply filter_In. Qed.

(** The statements keep a key column that they do not set. *)
Lemma sql_update_key {K} (key : Row → K) p f t :
  (∀ r, key (f r) = key r) → map key (fst (sql_update p f t)) = map key t.
Proof.
  intros Hf. simpl. rewrite map_map. apply map_ext. intros r. destruct (p r); auto.
Qed.

Lemma sql_update_none p f t :
  List.filter p t = [] → fst (sql_update p f t) = t.
Proof.
  simpl. induction t as [|r t IH]; simpl; [done|].
  destruct (p r); [done|]. intros H. by rewrite IH.
Qed.

Lemma filter_key_at_most_one {K} (key : Row → K) p t :
  NoDup (map key t) → (∀ r r', In r t → In r' t → p r = true → p r' = true → key r = key r') →
  (List.length (List.filter p t) ≤ 1)%nat.
Proof.
  induction t as [|r t IH]; simpl; intros Hnd Hk; [lia|].
  apply NoDup_cons in Hnd as [Hnin Hnd].
  destruct (p r) eqn:Hp; [|apply IH; eauto].
  simpl. destruct (List.filter p t) as [|r' l] eqn:E; simpl; [lia|].
  exfalso. apply Hnin. assert (In r' t ∧ p r' = true) as [Hin Hp'].
  { apply filter_In. rewrite E. by left. }
  rewrite (Hk r r'); eauto. apply list_elem_of_In. by apply in_map.
Qed.
End sql.

Lemma filter_empty_existsb {A} (p : A → bool) l :
  List.filter p l = [] ↔ existsb p l = false.
Proof.
  induction l as [|a l IH]; simpl; [done|]. destruct (p a); simpl; [done|]. apply IH.
Qed.

(** ** How many rows there are of a kind *)

Definition count {A} (p : A → bool) (l : list A) : nat := List.length (List.filter p l).

Lemma count_app {A} (p : A → bool) l l' : count p (l ++ l') = (count p l + count p l')%nat.
Proof. unfold count. by rewrite List.filter_app, length_app. Qed.
Lemma count_filter_le {A} (p q : A → bool) l : (count p (List.filter q l) ≤ count p l)%nat.
Proof.
  unfold count. induction l as [|a l IH]; simpl; [lia|].
  destruct (q a), (p a) eqn:E; simpl; rewrite ?E; simpl; lia.
Qed.
Lemma count_le {A} (p q : A → bool) l : (∀ a, p a = true → q a = true) → (count p l ≤ count q l)%nat.
Proof.
  intros Hpq. unfold count. induction l as [|a l IH]; simpl; [lia|].
  destruct (p a) eqn:E; [rewrite (Hpq a E); simpl; lia|]. destruct (q a); simpl; lia.
Qed.
Lemma count_none {A} (p : A → bool) l : existsb p l = false → count p l = 0%nat.
Proof. intros Hl. unfold count. by apply filter_empty_existsb in Hl as ->. Qed.
Lemma count_one {A} (p : A → bool) a : count p [a] = if p a then 1%nat else 0%nat.
Proof. unfold count. simpl. by destruct (p a). Qed.

(** ** UTF-8 strings as sequences of characters *)

Definition byte_of (c : ascii) : Z := Z.of_N (N_of_ascii c).
Definition ascii_of (z : Z) : ascii := ascii_of_N (Z.to_N z).

Definition is_cont (b : Z) : bool := (128 <=? b) && (b <? 192).
Definition cont_bits (b : Z) : Z := Z.land b 63.

(** [str::chars]: the Unicode scalar values of a UTF-8 text.  (Rust strings are
    valid UTF-8; a byte sequence that is not reads as U+FFFD.) *)
Fixpoint chars (s : string) : list Z :=
  match s with
  | EmptyString => []
  | String c1 s1 =>
    let b1 := byte_of c1 in
    if b1 <? 128 then b1 :: chars s1
    else if b1 <? 224 then
      match s1 with
      | String c2 s2 =>
        Z.lor (Z.shiftl (Z.land b1 31) 6) (cont_bits (byte_of c2)) :: chars s2
      | _ => [65533]
      end
    else if b1 <? 240 then
      match s1 with
      | String c2 (String c3 s3) =>
        Z.lor (Z.shiftl (Z.land b1 15) 12)
          (Z.lor (Z.shiftl (cont_bits (byte_of c2)) 6) (cont_bits (byte_of c3))) :: chars s3
      | _ => [65533]
      end
    else
      match s1 with
      | String c2 (String c3 (String c4 s4)) =>
        Z.lor (Z.shiftl (Z.land b1 7) 18)
          (Z.lor (Z.shiftl (cont_bits (byte_of c2)) 12)
            (Z.lor (Z.shiftl (cont_bits (byte_of c3)) 6) (cont_bits (byte_of c4)))) :: chars s4
      | _ => [65533]
      end
  end.

(** [char::encode_utf8] *)
Definition encode_char (c : Z) : string :=
  if c <? 128 then String (ascii_of c) ""
  else if c <? 2048 then
    String (ascii_of (192 + Z.shiftr c 6)) (String (ascii_of (128 + Z.land c 63)) "")
  else if c <? 65536 then
    String (ascii_of (224 + Z.shiftr c 12))
      (String (ascii_of (128 + Z.land (Z.shiftr c 6) 63))
        (String (ascii_of (128 + Z.land c 63)) ""))
  else
    String (ascii_of (240 + Z.shiftr c 18))
      (String (ascii_of (128 + Z.land (Z.shiftr c 12) 63))
        (String (ascii_of (128 + Z.land (Z.shiftr c 6) 63))
          (String (ascii_of (128 + Z.land c 63)) ""))).
(** [iter.collect::<String>()] *)
Definition of_chars (cs : list Z) : string := String.concat "" (map encode_char cs).

(** [char::is_whitespace]: the Unicode White_Space property. *)
Definition is_whitespace (c : Z) : bool :=
  (9 <=? c) && (c <=? 13) || (c =? 32) || (c =? 133) || (c =? 160) || (c =? 5760)
  || (8192 <=? c) && (c <=? 8202) || (c =? 8232) || (c =? 8233) || (c =? 8239)
  || (c =? 8287) || (c =? 12288).
(** [char::is_control]: the Unicode category Cc. *)
Definition is_control (c : Z) : bool :=
  (0 <=? c) && (c <=? 31) || (127 <=? c) && (c <=? 159).

Fixpoint trim_start (cs : list Z) : list Z :=
  match cs with
  | c :: cs' => if is_whitespace c then trim_start cs' else cs
  | [] => []
  end.
(** [str::trim] *)
Definition trim (cs : list Z) : list Z := rev (trim_start (rev (trim_start cs))).

(** [char::to_ascii_lowercase] and [str::to_lowercase] on ASCII letters. *)
Definition to_ascii_lowercase (c : Z) : Z := if (65 <=? c) && (c <=? 90) then c + 32 else c.
Definition is_ascii_lowercase (c : Z) : bool := (97 <=? c) && (c <=? 122).
Definition is_ascii_digit (c : Z) : bool := (48 <=? c) && (c <=? 57).

(** [split('-')] *)
Fixpoint split_on (d : Z) (cs : list Z) : list (list Z) :=
  match cs with
  | [] => [[]]
  | c :: cs' =>
    if c =? d then [] :: split_on d cs'
    else match split_on d cs' with
         | w :: ws => (c :: w) :: ws
         | [] => [[c]]
         end
  end.
(** [join("-")] *)
Fixpoint join_with (d : Z) (ws : list (list Z)) : list Z :=
  match ws with
  | [] => []
  | [w] => w
  | w :: ws' => w ++ d :: join_with d ws'
  end.

(** Decimal rendering ([to_string] of an integer). *)
Definition digit (n : Z) : string := String (ascii_of (48 + n)) "".
Fixpoint dec_digits (fuel : nat) (n : Z) : string :=
  match fuel with
  | O => ""
  | S fuel' => if n <? 10 then digit n else dec_digits fuel' (n / 10) +:+ digit (n mod 10)
  end.
Definition z_to_string (n : Z) : string :=
  if n <? 0 then "-" +:+ dec_digits (S (Z.to_nat (Z.log2 (- n)))) (- n)
  else dec_digits (S (Z.to_nat (Z.log2 n))) n.

(** ** anyhow's [context]: a text in front of the error *)

Definition context {A} (c : string) (r : result string A) : result string A :=
  match r with Ok a => Ok a | Err e => Err (c +:+ ": " +:+ e) end.

(** ** UTF-8: decoding undoes encoding *)

Lemma byte_of_ascii_of z : 0 ≤ z < 256 → byte_of (ascii_of z) = z.
Proof.
  intros Hz. unfold byte_of, ascii_of. rewrite N_ascii_embedding by lia. by rewrite Z2N.id by lia.
Qed.

Lemma byte_of_range c : 0 ≤ byte_of c < 256.
Proof. unfold byte_of. pose proof (N_ascii_bounded c). lia. Qed.

Lemma land_low a n m : 0 ≤ n → m = 2 ^ n - 1 → Z.land a m = a mod 2 ^ n.
Proof. intros Hn ->. rewrite <- Z.land_ones by done. by rewrite Z.ones_equiv, Z.sub_1_r. Qed.

Lemma lor_shiftl a b n : 0 ≤ n → 0 ≤ b < 2 ^ n → Z.lor (Z.shiftl a n) b = a * 2 ^ n + b.
Proof.
  intros Hn Hb. rewrite Z.shiftl_mul_pow2 by done.
  assert (Z.land (a * 2 ^ n) b = 0) as Hl.
  { apply Z.bits_inj'. intros k Hk. rewrite Z.land_spec, Z.bits_0.
    destruct (Z.ltb_spec k n); [by rewrite Z.mul_pow2_bits_low by done|].
    destruct (Z.eqb_spec b 0) as [->|Hb0]; [by rewrite Z.bits_0, andb_false_r|].
    assert (Z.log2 b < n) by (apply Z.log2_lt_pow2; lia).
    rewrite (Z.bits_above_log2 b) by lia. by rewrite andb_false_r. }
  pose proof (Z.add_lor_land (a * 2 ^ n) b). lia.
Qed.

Lemma cont_byte x : 0 ≤ x < 64 → byte_of (ascii_of (128 + x)) = 128 + x ∧ cont_bits (128 + x) = x.
Proof.
  intros Hx. split; [apply byte_of_ascii_of; lia|]. unfold cont_bits.
  rewrite (land_low _ 6) by lia.
  rewrite <- (Z.mod_small x (2 ^ 6)) at 2 by lia.
  replace (128 + x) with (x + 2 * 2 ^ 6) by lia. by rewrite Z.mod_add.
Qed.

Lemma lead_byte base x n m :
  0 ≤ n → m = 2 ^ n - 1 → 0 ≤ x < 2 ^ n → base mod 2 ^ n = 0 → Z.land (base + x) m = x.
Proof.
  intros Hn Hm Hx Hb. rewrite (land_low _ n) by done. rewrite Z.add_mod, Hb, Z.add_0_l by lia.
  rewrite Z.mod_mod by lia. by apply Z.mod_small.
Qed.

Lemma shiftr_split c n : 0 ≤ n → Z.shiftr c n * 2 ^ n + c mod 2 ^ n = c.
Proof. intros Hn. rewrite Z.shiftr_div_pow2 by done. pose proof (Z.div_mod c (2 ^ n)). lia. Qed.

Lemma shiftr_range c n m : 0 ≤ n → 0 ≤ c < m * 2 ^ n → 0 ≤ Z.shiftr c n < m.
Proof.
  intros Hn Hc. rewrite Z.shiftr_div_pow2 by done.
  split; [apply Z.div_pos; lia|apply Z.div_lt_upper_bound; lia].
Qed.
Lemma shiftr_more c n k : 0 ≤ n → 0 ≤ k → Z.shiftr (Z.shiftr c n) k = Z.shiftr c (n + k).
Proof. intros. by rewrite Z.shiftr_shiftr. Qed.

Lemma append_cons a s s' : String a s +:+ s' = String a (s +:+ s').
Proof. done. Qed.
Lemma append_nil s : (EmptyString +:+ s)%string = s.
Proof. done. Qed.

Definition scalar (c : Z) : Prop := 0 ≤ c < 2 ^ 21.

Ltac byte_test :=
  match goal with
  | |- context [?a <? ?b] => first
      [rewrite (proj2 (Z.ltb_lt a b)) by lia | rewrite (proj2 (Z.ltb_ge a b)) by lia]
  end.

Lemma chars_encode c s : scalar c → chars (encode_char c +:+ s) = c :: chars s.
Proof.
  unfold scalar. intros Hc. unfold encode_char.
  pose proof (Z.mod_pos_bound c 64 ltac:(lia)) as B0.
  rewrite !(land_low _ 6 63) by lia. change (2 ^ 6) with 64.
  destruct (Z.ltb_spec c 128); [|destruct (Z.ltb_spec c 2048); [|destruct (Z.ltb_spec c 65536)]].
  - simpl. rewrite byte_of_ascii_of by lia. by byte_test.
  - pose proof (shiftr_split c 6 ltac:(lia)) as E.
    pose proof (shiftr_range c 6 32 ltac:(lia) ltac:(lia)) as R.
    rewrite !append_cons, append_nil. cbn [chars]. cbv zeta. rewrite byte_of_ascii_of by lia. repeat byte_test.
    destruct (cont_byte (c mod 64) B0) as [-> ->].
    rewrite (lead_byte 192 _ 5) by (try lia; done).
    f_equal. rewrite (lor_shiftl _ (c mod 64) 6) by lia. rewrite ?lor_shiftl by lia. change (2 ^ 6) with 64 in *. lia.
  - pose proof (shiftr_split c 6 ltac:(lia)) as E.
    pose proof (shiftr_split (Z.shiftr c 6) 6 ltac:(lia)) as E1.
    rewrite shiftr_more in E1 by lia. change (6 + 6) with 12 in E1.
    pose proof (shiftr_range c 12 16 ltac:(lia) ltac:(lia)) as R.
    pose proof (Z.mod_pos_bound (Z.shiftr c 6) 64 ltac:(lia)) as B1.
    rewrite !append_cons, append_nil. cbn [chars]. cbv zeta. rewrite byte_of_ascii_of by lia. repeat byte_test.
    destruct (cont_byte (c mod 64) B0) as [-> ->]. destruct (cont_byte _ B1) as [-> ->].
    rewrite (lead_byte 224 _ 4) by (try lia; done).
    f_equal. rewrite (lor_shiftl _ (c mod 64) 6) by lia. rewrite ?lor_shiftl by lia. change (2 ^ 6) with 64 in *. lia.
  - pose proof (shiftr_split c 6 ltac:(lia)) as E.
    pose proof (shiftr_split (Z.shiftr c 6) 6 ltac:(lia)) as E1.
    pose proof (shiftr_split (Z.shiftr c 12) 6 ltac:(lia)) as E2.
    rewrite shiftr_more in E1, E2 by lia. change (6 + 6) with 12 in E1. change (12 + 6) with 18 in E2.
    pose proof (shiftr_range c 18 8 ltac:(lia) ltac:(lia)) as R.
    pose proof (Z.mod_pos_bound (Z.shiftr c 6) 64 ltac:(lia)) as B1.
    pose proof (Z.mod_pos_bound (Z.shiftr c 12) 64 ltac:(lia)) as B2.
    rewrite !append_cons, append_nil. cbn [chars]. cbv zeta. rewrite byte_of_ascii_of by lia. repeat byte_test.
    destruct (cont_byte (c mod 64) B0) as [-> ->]. destruct (cont_byte _ B1) as [-> ->].
    destruct (cont_byte _ B2) as [-> ->].
    rewrite (lead_byte 240 _ 3) by (try lia; done).
    f_equal. rewrite (lor_shiftl _ (c mod 64) 6) by lia. rewrite (lor_shiftl _ (_ + _) 12) by lia. rewrite lor_shiftl by lia. change (2 ^ 6) with 64 in *. lia.
Qed.

Lemma concat_cons s l : String.concat "" (s :: l) = s +:+ String.concat "" l.
Proof.
  destruct l as [|s' l]; [|done]. cbn.
  induction s as [|c s IH]; [done|]. rewrite append_cons. by rewrite <- IH.
Qed.

Lemma chars_of_chars cs : Forall scalar cs → chars (of_chars cs) = cs.
Proof.
  unfold of_chars. induction 1 as [|c cs Hc _ IH]; [done|].
  rewrite map_cons, concat_cons, chars_encode by done. by rewrite IH.
Qed.

(** What [chars] reads of any text is in range. *)
Lemma cont_bits_range b : 0 ≤ cont_bits b < 64.
Proof. unfold cont_bits. rewrite (land_low _ 6) by lia. apply Z.mod_pos_bound. lia. Qed.
Lemma land_range b n m : 0 ≤ n → m = 2 ^ n - 1 → 0 ≤ Z.land b m < 2 ^ n.
Proof. intros Hn Hm. rewrite (land_low _ n) by done. apply Z.mod_pos_bound. lia. Qed.

Lemma chars_scalar s : Forall scalar (chars s).
Proof.
  remember (String.length s) as n eqn:Hn. assert (String.length s ≤ n)%nat as Hle by lia.
  clear Hn. revert s Hle. induction n as [|n IH]; intros [|c1 s1] Hle; try (constructor; fail);
    [simpl in Hle; lia|].
  simpl in Hle. pose proof (byte_of_range c1) as B1. cbn [chars]. cbv zeta.
  assert (Forall scalar [65533]) as Hbad by (repeat constructor; unfold scalar; lia).
  destruct (Z.ltb_spec (byte_of c1) 128).
  { constructor; [unfold scalar; lia|]. apply IH. lia. }
  destruct (Z.ltb_spec (byte_of c1) 224); [|destruct (Z.ltb_spec (byte_of c1) 240)].
  - destruct s1 as [|c2 s2]; [done|]. simpl in Hle. constructor; [|apply IH; lia].
    pose proof (land_range (byte_of c1) 5 31 ltac:(lia) eq_refl).
    pose proof (cont_bits_range (byte_of c2)). unfold scalar. rewrite lor_shiftl by lia. lia.
  - destruct s1 as [|c2 [|c3 s3]]; [done..|]. simpl in Hle. constructor; [|apply IH; lia].
    pose proof (land_range (byte_of c1) 4 15 ltac:(lia) eq_refl).
    pose proof (cont_bits_range (byte_of c2)). pose proof (cont_bits_range (byte_of c3)).
    unfold scalar. rewrite (lor_shiftl _ _ 6) by lia. rewrite lor_shiftl by lia. lia.
  - destruct s1 as [|c2 [|c3 [|c4 s4]]]; [done..|]. simpl in Hle. constructor; [|apply IH; lia].
    pose proof (land_range (byte_of c1) 3 7 ltac:(lia) eq_refl).
    pose proof (cont_bits_range (byte_of c2)). pose proof (cont_bits_range (byte_of c3)).
    pose proof (cont_bits_range (byte_of c4)).
    unfold scalar. rewrite (lor_shiftl _ _ 6) by lia. rewrite (lor_shiftl _ _ 12) by lia.
    rewrite lor_shiftl by lia. lia.
Qed.

(** A selection of the characters of a text, written back. *)
Lemma chars_of_selected (f : list Z → list Z) s :
  (∀ cs, Forall scalar cs → Forall scalar (f cs)) → chars (of_chars (f (chars s))) = f (chars s).
Proof. intros Hf. apply chars_of_chars, Hf, chars_scalar. Qed.
