(* ===== verification/Text.v ===== *)
(** * Text and bytes

    The operations on text and on byte buffers the printing sources call:
    lines and fields of a command's output, prefixes and splits, the parsing of
    integers, hexadecimal, big-endian machine words and UTF-8 validation.  Text
    is worked on as its characters ([RustStd.chars]), buffers are lists of
    bytes; the little-endian words of coqutil carry the big-endian ones. *)

From Stdlib Require Import ZArith Ascii String Strings.Byte.
From coqutil Require Import Byte Word.LittleEndianList.
From S2P Require Import Prelude RustStd.
#[local] Open Scope Z_scope.

(** ** Text *)

(** [str::lines] *)
Definition strip_cr (acc : list Z) : list Z :=
  match acc with c :: acc' => if c =? 13 then acc' else acc | [] => [] end.
Fixpoint lines_from (acc cs : list Z) : list (list Z) :=
  match cs with
  | [] => match acc with [] => [] | _ => [rev acc] end
  | c :: cs' => if c =? 10 then rev (strip_cr acc) :: lines_from [] cs' else lines_from (c :: acc) cs'
  end.
Definition lines (cs : list Z) : list (list Z) := lines_from [] cs.

(** [s.strip_prefix(p)] *)
Fixpoint strip_prefix (p cs : list Z) : option (list Z) :=
  match p, cs with
  | [], _ => Some cs
  | a :: p', c :: cs' => if a =? c then strip_prefix p' cs' else None
  | _ :: _, [] => None
  end.
(** [s.split_once(p)] *)
Fixpoint split_once (p cs : list Z) : option (list Z * list Z) :=
  match strip_prefix p cs with
  | Some rest => Some ([], rest)
  | None =>
    match cs with
    | [] => None
    | c :: cs' => match split_once p cs' with Some (a, b) => Some (c :: a, b) | None => None end
    end
  end.
(** [s.contains(p)] *)
Definition contains (p cs : list Z) : bool := match split_once p cs with Some _ => true | None => false end.

(** [s.split_whitespace()] *)
Fixpoint words_from (acc cs : list Z) : list (list Z) :=
  match cs with
  | [] => match acc with [] => [] | _ => [rev acc] end
  | c :: cs' =>
    if is_whitespace c
    then match acc with [] => words_from [] cs' | _ => rev acc :: words_from [] cs' end
    else words_from (c :: acc) cs'
  end.
Definition split_whitespace (cs : list Z) : list (list Z) := words_from [] cs.
Definition first_word (cs : list Z) : list Z :=
  match split_whitespace cs with w :: _ => w | [] => [] end.

(** Decimal digits as a number; [None] for anything else. *)
Fixpoint digits_from (acc : Z) (cs : list Z) : option Z :=
  match cs with
  | [] => Some acc
  | c :: cs' => if is_ascii_digit c then digits_from (acc * 10 + (c - 48)) cs' else None
  end.
Definition parse_digits (cs : list Z) : option Z := match cs with [] => None | _ => digits_from 0 cs end.
(** [str::parse] of an integer type with the texts of its error: the digits one
    by one, an invalid one before an overflow at the same place. *)
Definition EMPTY_INT : string := "cannot parse integer from empty string".
Definition INVALID_DIGIT : string := "invalid digit found in string".
Definition TOO_LARGE : string := "number too large to fit in target type".
Definition TOO_SMALL : string := "number too small to fit in target type".
Fixpoint int_from (overflow : string) (bound acc : Z) (cs : list Z) : result string Z :=
  match cs with
  | [] => Ok acc
  | c :: cs' =>
    if is_ascii_digit c then
      let n := acc * 10 + (c - 48) in
      if bound <? n then Err overflow else int_from overflow bound n cs'
    else Err INVALID_DIGIT
  end.
Definition parse_int (signed : bool) (max : Z) (cs : list Z) : result string Z :=
  match cs with
  | [] => Err EMPTY_INT
  | c :: cs' =>
    if c =? 43 then
      match cs' with [] => Err INVALID_DIGIT | _ => int_from TOO_LARGE max 0 cs' end
    else if signed && (c =? 45) then
      match cs' with
      | [] => Err INVALID_DIGIT
      | _ => match int_from TOO_SMALL (max + 1) 0 cs' with Ok n => Ok (- n) | Err e => Err e end
      end
    else int_from TOO_LARGE max 0 cs
  end.
Definition parse_u32 : list Z → result string Z := parse_int false (2 ^ 32 - 1).
Definition parse_u64 : list Z → result string Z := parse_int false (2 ^ 64 - 1).
Definition parse_u16 : list Z → result string Z := parse_int false (2 ^ 16 - 1).
Definition parse_i64 : list Z → result string Z := parse_int true (2 ^ 63 - 1).

(** [{:04x}] *)
Definition hex_digit (n : Z) : string :=
  String (ascii_of (if n <? 10 then 48 + n else 87 + n)) "".
Definition hex4 (n : Z) : string :=
  hex_digit (n / 4096 mod 16) +:+ hex_digit (n / 256 mod 16) +:+ hex_digit (n / 16 mod 16)
    +:+ hex_digit (n mod 16).

(** [s.chars().take(n).collect()] *)
Definition take_chars (n : nat) (s : string) : string := of_chars (take n (chars s)).
(** [s.trim().is_empty()] and [s.is_empty()] *)
Definition is_blank (s : string) : bool := match trim (chars s) with [] => true | _ => false end.
Definition trimmed (s : string) : string := of_chars (trim (chars s)).

(** [trim_end_matches('/')] after [trim] *)
Fixpoint drop_slashes (cs : list Z) : list Z :=
  match cs with c :: cs' => if c =? 47 then drop_slashes cs' else cs | [] => [] end.
Definition base_url (url : string) : string := of_chars (rev (drop_slashes (rev (trim (chars url))))).

(** [s.bytes()] and [s.len()] *)
Definition bytes_of (s : string) : list Z := map byte_of (list_ascii_of_string s).
Definition is_ascii_alphanumeric (b : Z) : bool :=
  is_ascii_digit b || is_ascii_lowercase b || ((65 <=? b) && (b <=? 90)).
Definition is_ascii_hexdigit (b : Z) : bool :=
  is_ascii_digit b || ((97 <=? b) && (b <=? 102)) || ((65 <=? b) && (b <=? 70)).
Definition byte_len (s : string) : Z := Z.of_nat (String.length s).

(** [{:?}] of a text: its escapes follow the standard library's Unicode tables. *)
Class DebugText : Type := { debug_str : list Z → string }.

Lemma strip_prefix_app p cs : strip_prefix p (p ++ cs) = Some cs.
Proof. induction p as [|a p IH]; simpl; [done|]. by rewrite Z.eqb_refl. Qed.

Lemma strip_prefix_Some p cs rest : strip_prefix p cs = Some rest → cs = p ++ rest.
Proof.
  revert cs. induction p as [|a p IH]; intros [|c cs]; simpl; try (intros; congruence).
  destruct (Z.eqb_spec a c) as [ -> |]; [|done]. intros H. by rewrite (IH _ H).
Qed.

Lemma split_once_Some p cs a b : split_once p cs = Some (a, b) → cs = a ++ p ++ b.
Proof.
  revert a. induction cs as [|c cs IH]; intros a; simpl.
  - destruct (strip_prefix p []) eqn:E; [|done]. intros [= <- <-]. by apply strip_prefix_Some in E.
  - destruct (strip_prefix p (c :: cs)) eqn:E.
    + intros [= <- <-]. by apply strip_prefix_Some in E.
    + destruct (split_once p cs) as [[a' b']|] eqn:E2; [|done]. intros [= <- <-].
      simpl. by rewrite (IH _ eq_refl).
Qed.

(** ** Bytes *)

Definition bytes : Type := list Byte.byte.
#[export] Instance byte_eq_decision : EqDecision Byte.byte := Byte.byte_eq_dec.
Definition u8 (b : Byte.byte) : Z := byte.unsigned b.
(** [as_bytes] *)
Definition as_bytes (s : string) : bytes := list_byte_of_string s.
(** [z as u8] *)
Definition as_u8 (z : Z) : Byte.byte := byte.of_Z z.

(** [to_be_bytes] of an [n]-byte word and [from_be_bytes]. *)
Definition to_be_bytes (n : nat) (z : Z) : bytes := rev (le_split n z).
Definition from_be_bytes (bs : bytes) : Z := le_combine (rev bs).
(** [i32::from_be_bytes] *)
Definition to_signed32 (z : Z) : Z := if z <? 2 ^ 31 then z else z - 2 ^ 32.

Lemma to_be_bytes_length n z : length (to_be_bytes n z) = n.
Proof. unfold to_be_bytes. by rewrite length_rev, length_le_split. Qed.

Lemma from_to_be_bytes n z : from_be_bytes (to_be_bytes n z) = z mod 2 ^ (Z.of_nat n * 8).
Proof. unfold from_be_bytes, to_be_bytes. by rewrite rev_involutive, le_combine_split. Qed.

Lemma to_from_be_bytes bs : to_be_bytes (length bs) (from_be_bytes bs) = bs.
Proof.
  unfold from_be_bytes, to_be_bytes. rewrite <- length_rev, split_le_combine. apply rev_involutive.
Qed.

Lemma from_be_bytes_range bs : 0 ≤ from_be_bytes bs < 2 ^ (8 * Z.of_nat (length bs)).
Proof. unfold from_be_bytes. rewrite <- (length_rev bs). apply le_combine_bound. Qed.

Lemma u8_range b : 0 ≤ u8 b < 256.
Proof. apply byte.unsigned_range. Qed.
Lemma u8_as_u8 z : 0 ≤ z < 256 → u8 (as_u8 z) = z.
Proof. intros. unfold u8, as_u8. rewrite byte.unsigned_of_Z. by apply Z.mod_small. Qed.
Lemma as_u8_u8 b : as_u8 (u8 b) = b.
Proof. apply byte.of_Z_unsigned. Qed.

(** [std::str::from_utf8] (Unicode's well-formed byte sequences). *)
Definition between (lo hi b : Z) : bool := (lo <=? b) && (b <=? hi).
Fixpoint valid_utf8 (bs : list Z) : bool :=
  match bs with
  | [] => true
  | b1 :: r1 =>
    if b1 <=? 127 then valid_utf8 r1
    else if between 194 223 b1 then
      match r1 with b2 :: r2 => is_cont b2 && valid_utf8 r2 | _ => false end
    else if between 224 239 b1 then
      match r1 with
      | b2 :: b3 :: r3 =>
        between (if b1 =? 224 then 160 else 128) (if b1 =? 237 then 159 else 191) b2
        && is_cont b3 && valid_utf8 r3
      | _ => false
      end
    else if between 240 244 b1 then
      match r1 with
      | b2 :: b3 :: b4 :: r4 =>
        between (if b1 =? 240 then 144 else 128) (if b1 =? 244 then 143 else 191) b2
        && is_cont b3 && is_cont b4 && valid_utf8 r4
      | _ => false
      end
    else false
  end.
Definition from_utf8 (bs : bytes) : option string :=
  if valid_utf8 (map u8 bs) then Some (string_of_list_byte bs) else None.

(** A Rust string: its bytes are UTF-8. *)
Definition is_text (s : string) : Prop := valid_utf8 (map u8 (as_bytes s)) = true.

Lemma from_utf8_as_bytes s : is_text s → from_utf8 (as_bytes s) = Some s.
Proof. unfold is_text, from_utf8. intros ->. by rewrite string_of_list_byte_of_string. Qed.

(** ** Trimming *)

Definition not_blank_at (o : option Z) : Prop := ∀ c, o = Some c → is_whitespace c = false.

Lemma trim_start_head cs : not_blank_at (head (trim_start cs)).
Proof.
  induction cs as [|c cs IH]; simpl; [done|]. destruct (is_whitespace c) eqn:E; [done|].
  intros c' [= <-]. done.
Qed.
Lemma trim_start_stable cs : not_blank_at (head cs) → trim_start cs = cs.
Proof. destruct cs as [|c cs]; [done|]. intros Hc. simpl. by rewrite (Hc c eq_refl). Qed.
Lemma trim_start_suffix cs : ∃ pre, cs = pre ++ trim_start cs.
Proof.
  induction cs as [|c cs [pre IH]]; simpl; [by exists []|]. destruct (is_whitespace c); [|by exists []].
  exists (c :: pre). simpl. by rewrite <- IH.
Qed.
Lemma trim_start_sub cs c : In c (trim_start cs) → In c cs.
Proof. destruct (trim_start_suffix cs) as [pre E]. intros Hc. rewrite E. apply in_or_app. auto. Qed.
