(* ===== verification/Core.v ===== *)
(** * [devbridge-core]: the shared types

    [src/crates/devbridge-core/src]: job states and metadata ([job.rs]), the
    audit events and the per-job emitter ([job_event.rs]), client registrations
    and pairing ([client_registration.rs]), virtual printers, driver-name
    validation and IPP slugs ([virtual_printer.rs]).

    The date type of the chrono crate is an interface ([Chrono]); the Unicode
    case tables used by [slugify] are another ([UnicodeTables]). *)

From Stdlib Require Import ZArith Ascii String.
From S2P Require Import Prelude RustStd Text.
#[local] Open Scope Z_scope.

(** ** The chrono crate

    [DateTime] is [DateTime<Utc>]; [parse_rfc3339] is [str::parse::<DateTime<Utc>>]
    with its [ok()].  [ChronoLaws] states what its documentation promises of the
    pair used to store dates as text. *)
Class Chrono : Type := {
  DateTime : Type;
  datetime_default : DateTime;
  datetime_leb : DateTime → DateTime → bool;
  minus_secs : DateTime → Z → DateTime;
  seconds_between : DateTime → DateTime → Z;
  timestamp : DateTime → Z;
  subsec_nanos : DateTime → Z;
  to_rfc3339 : DateTime → string;
  parse_rfc3339 : string → option DateTime;
}.

Class ChronoLaws `{Chrono} : Prop := {
  parse_to_rfc3339 : ∀ t, parse_rfc3339 (to_rfc3339 t) = Some t;
}.

(** [s.parse::<DateTime<Utc>>().unwrap_or_default()] *)
Definition parse_or_default `{Chrono} (s : string) : DateTime :=
  match parse_rfc3339 s with Some t => t | None => datetime_default end.

(** ** [job.rs] *)

Inductive JobState :=
| Queued | Downloading | Printing | Completed | Failed | Cancelled | Unconfirmed.

#[export] Instance JobState_eq_dec : EqDecision JobState.
Proof. solve_decision. Defined.

Inductive JobEvent :=
| Created (job_id document_name : string) (requesting_user : option string)
    (target_printer : string)
| StateChanged (job_id : string) (new_state : JobState) (requesting_user : option string).

Record JobMetadata `{Chrono} := mkJobMetadata {
  job_id : string;
  document_name : string;
  target_printer : string;
  target_client_id : option string;
  copies : Z;
  paper_size : string;
  duplex : bool;
  color : bool;
  payload_size : Z;
  payload_sha256 : string;
  state : JobState;
  retry_count : Z;
  error_detail : string;
  requesting_user : option string;
  created_at : DateTime;
  updated_at : DateTime;
}.

(** The ranges of the Rust integer fields. *)
Definition job_in_range `{Chrono} (j : JobMetadata) : Prop :=
  0 ≤ copies j < 2 ^ 32 ∧ 0 ≤ payload_size j < 2 ^ 64 ∧ 0 ≤ retry_count j < 2 ^ 32.

(** ** [job_event.rs] *)

Inductive PrintStage :=
| SReceived | SRouted | SDownloading | SDownloaded | SRendering | SRendered | SSending
| SSent | SVerified | SAcknowledged | SCompleted | SFailed | SRetrying | SUnconfirmed.

#[export] Instance PrintStage_eq_dec : EqDecision PrintStage.
Proof. solve_decision. Defined.

Record PrintJobEvent `{Chrono} := mkPrintJobEvent {
  ev_job_id : string;
  ev_requesting_user : option string;
  ev_stage : PrintStage;
  ev_success : bool;
  ev_detail : string;
  ev_verification_method : string;
  ev_verification_evidence : string;
  ev_timestamp : DateTime;
}.

(** serde's [rename_all = "snake_case"] names of the stages. *)
Definition stage_to_str (st : PrintStage) : string :=
  match st with
  | SReceived => "received" | SRouted => "routed" | SDownloading => "downloading"
  | SDownloaded => "downloaded" | SRendering => "rendering" | SRendered => "rendered"
  | SSending => "sending" | SSent => "sent" | SVerified => "verified"
  | SAcknowledged => "acknowledged" | SCompleted => "completed" | SFailed => "failed"
  | SRetrying => "retrying" | SUnconfirmed => "unconfirmed"
  end.
Definition all_stages : list PrintStage :=
  [SReceived; SRouted; SDownloading; SDownloaded; SRendering; SRendered; SSending; SSent;
   SVerified; SAcknowledged; SCompleted; SFailed; SRetrying; SUnconfirmed].
Definition stage_of_str (s : string) : option PrintStage :=
  List.find (λ st, stage_to_str st =t? s) all_stages.

(** [PrintJobEvent::new] / [ok] / [fail] / [verified], at the moment [now]. *)
Definition event_new `{Chrono} (now : DateTime) (job_id : string) (stage : PrintStage)
    (success : bool) (detail : string) : PrintJobEvent :=
  {| ev_job_id := job_id; ev_requesting_user := None; ev_stage := stage;
     ev_success := success; ev_detail := detail; ev_verification_method := "";
     ev_verification_evidence := ""; ev_timestamp := now |}.
Definition event_ok `{Chrono} now job_id stage detail := event_new now job_id stage true detail.
Definition event_fail `{Chrono} now job_id stage detail := event_new now job_id stage false detail.
Definition event_verified `{Chrono} (now : DateTime) (job_id method evidence : string)
    : PrintJobEvent :=
  {| ev_job_id := job_id; ev_requesting_user := None; ev_stage := SVerified;
     ev_success := true; ev_detail := evidence; ev_verification_method := method;
     ev_verification_evidence := evidence; ev_timestamp := now |}.

Module EventEmitter.
(** The state the clones of one emitter share: the broadcast channel (the
    events sent so far), the last verification and [printer_accepted]. *)
Record t `{Chrono} := mk {
  sender : list PrintJobEvent;
  verification : string * string;
  printer_accepted : bool;
}.
Definition new `{Chrono} : t := mk _ [] ("", "") false.

Definition emit `{Chrono} (event : PrintJobEvent) (em : t) : t :=
  {| sender := sender em ++ [event];
     verification :=
       if bool_decide (ev_stage event = SVerified)
          || negb (ev_verification_method event =t? "")
       then (ev_verification_method event, ev_verification_evidence event)
       else verification em;
     printer_accepted :=
       if bool_decide (ev_stage event = SAcknowledged) && ev_success event
       then true else printer_accepted em |}.
Definition emit_ok `{Chrono} now job_id stage detail em :=
  emit (event_ok now job_id stage detail) em.
Definition emit_fail `{Chrono} now job_id stage detail em :=
  emit (event_fail now job_id stage detail) em.
Definition emit_verified `{Chrono} now job_id method evidence em :=
  emit (event_verified now job_id method evidence) em.
Definition last_verification `{Chrono} (em : t) : string * string := verification em.

(** A whole run of the job's backend. *)
Definition emit_all `{Chrono} (events : list PrintJobEvent) (em : t) : t :=
  fold_left (λ em e, emit e em) events em.

Lemma emit_all_app `{Chrono} evs1 evs2 em :
  emit_all (evs1 ++ evs2) em = emit_all evs2 (emit_all evs1 em).
Proof. apply fold_left_app. Qed.

Lemma emit_all_accepted `{Chrono} events em :
  printer_accepted (emit_all events em)
  = printer_accepted em
    || existsb (λ e, bool_decide (ev_stage e = SAcknowledged) && ev_success e) events.
Proof.
  revert em. induction events as [|e events IH]; intros em; simpl.
  - by rewrite orb_false_r.
  - rewrite IH. simpl. destruct (bool_decide _ && ev_success e), (printer_accepted em); done.
Qed.

Lemma emit_all_sender `{Chrono} events em :
  sender (emit_all events em) = sender em ++ events.
Proof.
  revert em. induction events as [|e events IH]; intros em; simpl.
  - by rewrite app_nil_r.
  - rewrite IH. simpl. by rewrite <- app_assoc.
Qed.
End EventEmitter.

(** ** [client_registration.rs] *)

Inductive PairingState := Pending | Approved | Rejected.

#[export] Instance PairingState_eq_dec : EqDecision PairingState.
Proof. solve_decision. Defined.

(** [impl Display for PairingState] *)
Definition pairing_to_str (p : PairingState) : string :=
  match p with
  | Pending => "pending" | Approved => "approved" | Rejected => "rejected"
  end.

(** [str::to_lowercase] byte by byte.  No character outside ASCII lower-cases to
    a letter of the two names compared below, so the bytes decide. *)
Fixpoint ascii_lowercase (s : string) : string :=
  match s with
  | EmptyString => ""
  | String c s' => String (ascii_of (to_ascii_lowercase (byte_of c))) (ascii_lowercase s')
  end.

Definition pairing_from_str_lossy (s : string) : PairingState :=
  let l := ascii_lowercase s in
  if l =t? "approved" then Approved
  else if l =t? "rejected" then Rejected
  else Pending.

Record ClientRegistration `{Chrono} := mkClient {
  machine_id : string;
  hostname : string;
  printer_names : list string;
  client_version : string;
  last_seen : DateTime;
  is_online : bool;
  pairing_state : PairingState;
  virtual_printer_name : option string;
  virtual_printer_driver : option string;
}.

(** [driver.is_none_or(|d| d.trim().is_empty())] *)
Definition blank (s : string) : bool :=
  match trim (chars s) with [] => true | _ => false end.
Definition takes_default_queue `{Chrono} (c : ClientRegistration) : bool :=
  match virtual_printer_driver c with None => true | Some d => blank d end.

(** ** [virtual_printer.rs] *)

Definition DEFAULT_WINDOWS_DRIVER : string := "Microsoft IPP Class Driver".
Definition MAX_DRIVER_NAME_LEN : nat := 200.

Record VirtualPrinter `{Chrono} := mkVirtualPrinter {
  vp_id : string;
  display_name : string;
  ipp_name : string;
  paired_client_id : option string;
  driver : option string;
  vp_created_at : DateTime;
  vp_updated_at : DateTime;
}.

Definition effective_driver `{Chrono} (vp : VirtualPrinter) : string :=
  match driver vp with Some d => d | None => DEFAULT_WINDOWS_DRIVER end.

(** Why a driver name is refused (the text of the message is not modelled). *)
Inductive DriverNameError :=
| DriverNameTooLong
| DriverNameForbidden (bad : Z).

Definition forbidden_in_driver (c : Z) : bool := (c =? 34) || (c =? 92) || is_control c.

Definition normalize_driver_name (raw : option string)
    : result DriverNameError (option string) :=
  match raw with
  | None => Ok None
  | Some s =>
    match trim (chars s) with
    | [] => Ok None
    | name =>
      if (MAX_DRIVER_NAME_LEN <? length name)%nat then Err DriverNameTooLong
      else match List.find forbidden_in_driver name with
           | Some bad => Err (DriverNameForbidden bad)
           | None => Ok (Some (of_chars name))
           end
    end
  end.

(** [lib.rs]: a printer of the machine. *)
Record PrinterInfo := mkPrinterInfo {
  pi_name : string; pi_driver : string; pi_status : string; pi_jobs : Z; pi_is_target : bool }.

(** The Unicode tables of the standard library: [str::to_lowercase] and
    [char::is_alphanumeric]. *)
Class UnicodeTables : Type := {
  str_to_lowercase : list Z → list Z;
  is_alphanumeric : Z → bool;
}.

Definition slugify_chars `{UnicodeTables} (name : list Z) : list Z :=
  join_with 45
    (List.filter (λ w, match w with [] => false | _ => true end)
      (split_on 45
        (map (λ c, if is_alphanumeric c then c else 45) (str_to_lowercase name)))).
Definition slugify `{UnicodeTables} (name : string) : string :=
  of_chars (slugify_chars (chars name)).

(** ** A concrete clock

    Moments as numbers of seconds, written as that many strokes: an instance of
    [Chrono] that satisfies [ChronoLaws], on which definitions evaluate. *)
Module TickChrono.
Fixpoint strokes (n : nat) : string :=
  match n with O => "" | S n' => String "I" (strokes n') end.
Fixpoint count_strokes (s : string) : option nat :=
  match s with
  | EmptyString => Some O
  | String c s' => if Ascii.eqb c "I" then S <$> count_strokes s' else None
  end.

#[export] Instance tick_chrono : Chrono := {
  DateTime := nat;
  datetime_default := O;
  datetime_leb := Nat.leb;
  minus_secs := λ t n, (t - Z.to_nat n)%nat;
  seconds_between := λ a b, Z.of_nat a - Z.of_nat b;
  timestamp := Z.of_nat;
  subsec_nanos := λ _, 0;
  to_rfc3339 := strokes;
  parse_rfc3339 := count_strokes;
}.

#[export] Instance tick_chrono_laws : ChronoLaws.
Proof. split. intros t. simpl in t. induction t as [|t IH]; simpl in *; [done|]. by rewrite IH. Qed.
End TickChrono.

(** * Lemmas on the shared types *)

Lemma trim_sub cs c : In c (trim cs) → In c cs.
Proof. unfold trim. intros Hc%in_rev%trim_start_sub%in_rev%trim_start_sub. done. Qed.

Lemma rev_reverse {A} (l : list A) : rev l = reverse l.
Proof. apply rev_alt. Qed.

(** The first and the last character of a trimmed text are not blank. *)
Lemma trim_ends cs : not_blank_at (head (trim cs)) ∧ not_blank_at (last (trim cs)).
Proof.
  unfold trim. set (a := trim_start cs). split.
  - destruct (trim_start_suffix (rev a)) as [pre E].
    assert (a = rev (trim_start (rev a)) ++ rev pre) as Ea.
    { rewrite <- rev_app_distr, <- E. symmetry. apply rev_involutive. }
    intros c Hc. apply (trim_start_head cs c). fold a. rewrite Ea.
    by destruct (rev (trim_start (rev a))).
  - rewrite (rev_reverse (trim_start _)), last_reverse. apply trim_start_head.
Qed.

Lemma trim_stable cs :
  not_blank_at (head cs) → not_blank_at (last cs) → trim cs = cs.
Proof.
  intros Hh Hl. unfold trim. rewrite (trim_start_stable cs) by done.
  rewrite trim_start_stable; [apply rev_involutive|].
  by rewrite rev_reverse, head_reverse.
Qed.

Lemma trim_scalar cs : Forall scalar cs → Forall scalar (trim cs).
Proof.
  rewrite !Forall_forall. intros Hcs c Hc. apply Hcs.
  apply list_elem_of_In. apply list_elem_of_In in Hc. by apply trim_sub.
Qed.

(** ** Driver names *)

(** A driver name that was accepted is the text's characters without the
    blanks around them: it is not empty, at most [MAX_DRIVER_NAME_LEN]
    characters, holds no quote, backslash or control character, neither starts
    nor ends with a blank, and is accepted again as it is. *)
Theorem accepted_driver_name_is_safe raw name :
  normalize_driver_name (Some raw) = Ok (Some name) →
  chars name = trim (chars raw) ∧ chars name ≠ []
  ∧ (List.length (chars name) ≤ MAX_DRIVER_NAME_LEN)%nat
  ∧ Forall (λ c, c ≠ 34 ∧ c ≠ 92 ∧ is_control c = false) (chars name)
  ∧ not_blank_at (head (chars name)) ∧ not_blank_at (last (chars name))
  ∧ normalize_driver_name (Some name) = Ok (Some name).
Proof.
  unfold normalize_driver_name at 1. destruct (trim (chars raw)) as [|c0 cs] eqn:Et; [done|].
  destruct (Nat.ltb_spec MAX_DRIVER_NAME_LEN (List.length (c0 :: cs))) as [|Hlen]; [done|].
  destruct (List.find _ _) eqn:Ef; [done|]. intros [= <-].
  assert (chars (of_chars (c0 :: cs)) = c0 :: cs) as Ec.
  { rewrite <- Et. apply chars_of_chars, trim_scalar, chars_scalar. }
  destruct (trim_ends (chars raw)) as [Hh Hl]. rewrite Et in Hh, Hl.
  rewrite Ec. split; [done|]. split; [done|]. split; [done|]. split.
  - apply Forall_forall. intros c Hc. apply list_elem_of_In in Hc.
    pose proof (List.find_none _ _ Ef c Hc) as Hn. unfold forbidden_in_driver in Hn.
    apply orb_false_iff in Hn as [[H1%Z.eqb_neq H2%Z.eqb_neq]%orb_false_iff H3]. done.
  - split; [done|]. split; [done|]. unfold normalize_driver_name. rewrite Ec, trim_stable by done.
    destruct (Nat.ltb_spec MAX_DRIVER_NAME_LEN (List.length (c0 :: cs))); [lia|]. by rewrite Ef.
Qed.

(** [normalize_driver_name] on a name with blanks around it. *)
Lemma accepted_driver_name_is_safe_witness :
  normalize_driver_name (Some " HP 1 ") = Ok (Some "HP 1")
  ∧ chars "HP 1" ≠ [] ∧ normalize_driver_name (Some "HP 1") = Ok (Some "HP 1").
Proof.
  assert (normalize_driver_name (Some " HP 1 ") = Ok (Some "HP 1")) as E by reflexivity.
  destruct (accepted_driver_name_is_safe _ _ E) as (_ & H1 & _ & _ & _ & _ & H2). auto.
Defined.

(** ** Slugs *)

Lemma split_on_app d a b :
  d ∉ a → split_on d (a ++ d :: b) = a :: split_on d b.
Proof.
  induction a as [|c a IH]; intros Hd; simpl; [by rewrite Z.eqb_refl|].
  apply not_elem_of_cons in Hd as [Hc Hd]. destruct (Z.eqb_spec c d); [congruence|].
  by rewrite IH.
Qed.
Lemma split_on_none d a : d ∉ a → split_on d a = [a].
Proof.
  induction a as [|c a IH]; intros Hd; simpl; [done|].
  apply not_elem_of_cons in Hd as [Hc Hd]. destruct (Z.eqb_spec c d); [congruence|].
  by rewrite IH.
Qed.
Lemma split_join d ws :
  ws ≠ [] → Forall (λ w, d ∉ w) ws → split_on d (join_with d ws) = ws.
Proof.
  induction ws as [|w ws IH]; [done|]. intros _ [Hw Hws]%Forall_cons.
  destruct ws as [|w' ws]; [by apply split_on_none|].
  change (join_with d (w :: w' :: ws)) with (w ++ d :: join_with d (w' :: ws)).
  rewrite split_on_app by done. by rewrite IH.
Qed.
Lemma split_on_words d cs : Forall (λ w, (d ∉ w) ∧ ∀ c, c ∈ w → c ∈ cs) (split_on d cs).
Proof.
  induction cs as [|c cs IH]; simpl.
  - constructor; [|constructor]. split; [apply not_elem_of_nil|]. intros c Hc. exact Hc.
  - assert (Forall (λ w, (d ∉ w) ∧ ∀ c', c' ∈ w → c' ∈ c :: cs) (split_on d cs)) as IH'.
    { eapply Forall_impl; [exact IH|]. intros w [Hd Hw]. split; [done|]. intros c' Hc'.
      right. by apply Hw. }
    destruct (Z.eqb_spec c d) as [->|Hcd].
    + constructor; [|done]. split; [apply not_elem_of_nil|]. by intros c' Hc'%elem_of_nil.
    + destruct (split_on d cs) as [|w ws].
      * constructor; [|constructor]. split; [by apply not_elem_of_cons; split; [congruence|apply not_elem_of_nil]|].
        intros c' Hc'. apply list_elem_of_singleton in Hc' as ->. by left.
      * apply Forall_cons in IH' as [[Hd Hw] Hws]. constructor; [|done]. split.
        -- apply not_elem_of_cons. split; [congruence|done].
        -- intros c' [->|Hc']%elem_of_cons; [by left|by apply Hw].
Qed.

(** A slug is made of alphanumeric words joined by single hyphens: split
    at its hyphens it gives back its words, none of them empty (a name without
    an alphanumeric character has the empty slug). *)
Theorem slug_is_words_joined_by_hyphens `{UnicodeTables} name :
  slugify_chars name = [] ∨
  (Forall (λ w, w ≠ [] ∧ Forall (λ c, is_alphanumeric c = true) w)
     (split_on 45 (slugify_chars name))
   ∧ join_with 45 (split_on 45 (slugify_chars name)) = slugify_chars name).
Proof.
  unfold slugify_chars. set (cs := map _ _). set (ws := List.filter _ _).
  assert (Forall (λ w, ((45 ∉ w) ∧ w ≠ []) ∧ Forall (λ c, is_alphanumeric c = true) w) ws) as Hws.
  { apply Forall_forall. intros w Hw. apply list_elem_of_In, filter_In in Hw as [Hw Hne].
    pose proof (split_on_words 45 cs) as Hall. rewrite Forall_forall in Hall.
    destruct (Hall w ltac:(by apply list_elem_of_In)) as [Hd Hin].
    split; [split; [done|by destruct w]|]. apply Forall_forall. intros c Hc.
    specialize (Hin c Hc). subst cs. apply list_elem_of_In, in_map_iff in Hin as (c' & E & _).
    destruct (is_alphanumeric c') eqn:Ea; [by rewrite <- E|]. subst c. done. }
  destruct ws as [|w ws'] eqn:Ew; [by left|]. right.
  rewrite split_join; [|done|]; [|by eapply Forall_impl; [exact Hws|]; intros ? [[]]].
  split; [|done]. eapply Forall_impl; [exact Hws|]. by intros v [[] ].
Qed.
