(* ===== verification/Sqlite.v ===== *)
(** * The SQLite connection

    A database is its tables (any type), the schedule of the engine's failures
    (disk full, locked, I/O error: [faults], consumed one per call into the
    engine), and the clock ([Utc::now()] reads [clock] at [ticks]).  A failed
    statement changes nothing; a transaction that fails or is dropped without a
    commit rolls back.  The stores of the server and of the client's device
    journal are instances. *)

From Stdlib Require Import ZArith String.
From S2P Require Import Prelude RustStd Core.
#[local] Open Scope Z_scope.

Record Db `{Chrono} (Tables : Type) := mkDb {
  conn : Tables;
  faults : list bool;
  clock : nat → DateTime;
  ticks : nat;
}.
Arguments mkDb {_ _}.
Arguments conn {_ _}.
Arguments faults {_ _}.
Arguments clock {_ _}.
Arguments ticks {_ _}.

(** ** Statements on the connection *)

Definition SqlM `{Chrono} (Tables A : Type) : Type := M (Db Tables) string A.

Section engine.
Context `{Chrono} {Tables : Type}.
Abbreviation Storage := (Db Tables).
Abbreviation SM := (SqlM Tables).

Definition with_conn (s : Storage) (t : Tables) : Storage :=
  {| conn := t; faults := faults s; clock := clock s; ticks := ticks s |}.

(** One call into the engine: it fails with [ctx] when the schedule says so. *)
Definition engine (ctx : string) : SM unit := λ s,
  match faults s with
  | true :: fs =>
    (Err ctx, {| conn := conn s; faults := fs; clock := clock s; ticks := ticks s |})
  | false :: fs =>
    (Ok tt, {| conn := conn s; faults := fs; clock := clock s; ticks := ticks s |})
  | [] => (Ok tt, s)
  end.

(** [conn.execute(..)]: the statement's effect and its changed-row count, or
    the engine's failure.  [None] is a violated constraint. *)
Definition execute_checked (ctx : string) (stmt : Tables → option (Tables * Z)) : SM Z :=
  _ ← engine ctx;
  t ← gets conn;
  match stmt t with
  | Some (t', n) => _ ← modify (λ s, with_conn s t'); mret n
  | None => throw ctx
  end.
Definition execute (ctx : string) (stmt : Tables → Tables * Z) : SM Z :=
  execute_checked ctx (λ t, Some (stmt t)).

(** [conn.prepare(..).query_map(..)] and [query_row] *)
Definition query {A} (ctx : string) (q : Tables → A) : SM A :=
  _ ← engine ctx; gets (λ s, q (conn s)).

Definition utc_now : SM DateTime := λ s,
  (Ok (clock s (ticks s)),
   {| conn := conn s; faults := faults s; clock := clock s; ticks := S (ticks s) |}).

(** [tx.commit()] *)
Definition commit (ctx : string) : SM unit := engine ctx.

(** A transaction: the body says whether it committed; a failure on the way,
    or a return without commit, rolls the tables back when it is dropped. *)
Definition in_transaction {A} (body : SM (bool * A)) : SM A := λ s,
  match body s with
  | (Ok (true, a), s') => (Ok a, s')
  | (Ok (false, a), s') => (Ok a, with_conn s' (conn s))
  | (Err e, s') => (Err e, with_conn s' (conn s))
  end.
Definition transaction {A} (begin_ctx : string) (body : SM (bool * A)) : SM A :=
  _ ← engine begin_ctx; in_transaction body.
End engine.

(** * What a call into the engine does under any schedule of failures *)

(** ** Engine steps *)

Section engine_facts.
Context `{Chrono} {Tables : Type}.
Implicit Types s : Db Tables.

Lemma engine_conn ctx s : conn (snd (engine ctx s)) = conn s.
Proof. unfold engine. by destruct (faults s) as [|[] fs]. Qed.

Lemma engine_cases ctx s :
  (∃ s', engine ctx s = (Ok tt, s') ∧ conn s' = conn s ∧ clock s' = clock s ∧ ticks s' = ticks s)
  ∨ (∃ s', engine ctx s = (Err ctx, s') ∧ conn s' = conn s).
Proof.
  unfold engine. destruct (faults s) as [|[] fs]; [left|right|left]; eexists; split; simpl; eauto.
Qed.

(** No failure is scheduled. *)
Definition quiet (s : Db Tables) : Prop := faults s = [].

Lemma engine_quiet ctx s : quiet s → engine ctx s = (Ok tt, s).
Proof. unfold quiet, engine. by intros ->. Qed.

Lemma utc_now_run s : utc_now s = (Ok (clock s (ticks s)),
  {| conn := conn s; faults := faults s; clock := clock s; ticks := S (ticks s) |}).
Proof. done. Qed.
End engine_facts.

(** ** Which calls a run made, and whether one of them failed *)

Section spending.
Context `{Chrono} {Tables : Type}.
Implicit Types s : Db Tables.

(** From [s] to [s'] the calls of a part of the schedule were made. *)
Definition spends : relation (Db Tables) := λ s s', ∃ used, faults s = used ++ faults s'.
(** One of the calls made from [s] to [s'] failed. *)
Definition failed_between : relation (Db Tables) := λ s s', ∃ used, faults s = used ++ faults s' ∧ In true used.

#[export] Instance spends_preorder : PreOrder spends.
Proof.
  split; [by intros s; exists []|]. intros a b c [u Hu] [v Hv]. exists (u ++ v). by rewrite Hu, Hv, app_assoc.
Qed.
Lemma failed_spends s s' : failed_between s s' → spends s s'.
Proof. intros (u & Hu & _). by exists u. Qed.
Lemma failed_later a b c : failed_between a b → spends b c → failed_between a c.
Proof.
  intros (u & Hu & Hin) [v Hv]. exists (u ++ v). split; [by rewrite Hu, Hv, app_assoc|]. apply in_or_app. by left.
Qed.
Lemma failed_earlier a b c : spends a b → failed_between b c → failed_between a c.
Proof.
  intros [u Hu] (v & Hv & Hin). exists (u ++ v). split; [by rewrite Hu, Hv, app_assoc|]. apply in_or_app. by right.
Qed.
Lemma failed_not_quiet s s' : failed_between s s' → ¬ quiet s.
Proof. intros (u & Hu & Hin) Hq. rewrite Hq in Hu. destruct u; [destruct Hin|done]. Qed.

Lemma engine_outcome ctx s :
  conn (snd (engine ctx s)) = conn s ∧ spends s (snd (engine ctx s))
  ∧ (fst (engine ctx s) = Ok tt ∨ fst (engine ctx s) = Err ctx ∧ failed_between s (snd (engine ctx s))).
Proof.
  unfold engine, spends, failed_between. destruct (faults s) as [|[] fs] eqn:E; simpl; (split; [done|]).
  - rewrite E. split; [by exists []|by left].
  - split; [by exists [true]|]. right. split; [done|]. exists [true]. split; [done|by left].
  - split; [by exists [false]|by left].
Qed.
Lemma spends_engine ctx : respects spends (engine ctx).
Proof. intros s. apply engine_outcome. Qed.
Lemma spends_now : respects spends utc_now.
Proof. intros s. by exists []. Qed.
Lemma spends_query {A} ctx (q : Tables → A) : respects spends (query ctx q).
Proof. unfold query. apply respects_bind; [apply _|apply spends_engine|intros _]. apply respects_gets, _. Qed.
Lemma spends_execute ctx stmt : respects spends (execute ctx stmt).
Proof.
  intros s. unfold execute, execute_checked, mbind, M_bind. destruct (engine_outcome ctx s) as (_ & Hs & _).
  destruct (engine ctx s) as [[[]|e] s1]; [|done]. simpl. by destruct (stmt (conn s1)).
Qed.

(** A read with its preparation returns what the tables say, or a call failed. *)
Lemma prepared_query_outcome {A} c1 c2 (g : Tables → A) s :
  let '(r, s') := (_ ← engine c1; query c2 g) s in
  conn s' = conn s ∧ spends s s' ∧ (r = Ok (g (conn s)) ∨ (∃ e, r = Err e) ∧ failed_between s s').
Proof.
  unfold query, mbind, M_bind, gets. destruct (engine_outcome c1 s) as (Hc & Hs & Hr).
  destruct (engine c1 s) as [r1 s1]; simpl in *. destruct Hr as [->|[-> Hf]].
  2: { split; [done|]. split; [done|]. right. split; [by eexists|done]. }
  destruct (engine_outcome c2 s1) as (Hc2 & Hs2 & Hr2). destruct (engine c2 s1) as [r2 s2]; simpl in *.
  assert (spends s s2) as H12 by (etrans; [exact Hs|exact Hs2]).
  destruct Hr2 as [->|[-> Hf2]]; (split; [congruence|]; split; [done|]).
  - left. congruence.
  - right. split; [by eexists|]. exact (failed_earlier _ _ _ Hs Hf2).
Qed.
End spending.
#[export] Hint Resolve spends_engine spends_now spends_query spends_execute : respects.

(** A relation on tables seen on the storage. *)
Definition on_conn `{Chrono} {Tables} (R : relation Tables) : relation (Db Tables) :=
  λ s s', R (conn s) (conn s').
#[export] Instance on_conn_preorder `{Chrono} {Tables} (R : relation Tables) `{!PreOrder R} :
  PreOrder (on_conn R).
Proof.
  split; [intros s; unfold on_conn; reflexivity|].
  intros a b c Hab Hbc. unfold on_conn in *. by etrans.
Qed.

Section respects_engine.
Context `{Chrono} {Tables : Type} (R : relation Tables) `{!PreOrder R}.
Abbreviation SM := (SqlM Tables).

Lemma respects_engine ctx : respects (on_conn R) (engine ctx).
Proof. intros s. unfold on_conn. by rewrite engine_conn. Qed.

Lemma respects_query {A} ctx (q : Tables → A) : respects (on_conn R) (query ctx q).
Proof.
  unfold query. apply respects_bind; [apply _|apply respects_engine|].
  intros _. apply respects_gets. apply _.
Qed.

Lemma respects_utc_now : respects (on_conn R) utc_now.
Proof. intros s. unfold on_conn. simpl. reflexivity. Qed.

Lemma respects_execute_checked ctx stmt :
  (∀ t t' n, stmt t = Some (t', n) → R t t') → respects (on_conn R) (execute_checked ctx stmt).
Proof.
  intros Hs s. unfold on_conn, execute_checked, mbind, M_bind.
  destruct (engine_cases ctx s) as [(s1 & -> & Hc & _)|(s1 & -> & Hc)]; simpl; rewrite <- Hc.
  - destruct (stmt (conn s1)) as [[t' n]|] eqn:E; simpl; [by eapply Hs|reflexivity].
  - reflexivity.
Qed.

Lemma respects_execute ctx stmt :
  (∀ t, R t (fst (stmt t))) → respects (on_conn R) (execute ctx stmt).
Proof.
  intros Hs. apply respects_execute_checked. intros t t' n [= E].
  specialize (Hs t). by rewrite E in Hs.
Qed.

Lemma respects_in_transaction {A} (body : SM (bool * A)) :
  respects (on_conn R) body → respects (on_conn R) (in_transaction body).
Proof.
  intros Hb s. unfold in_transaction, on_conn. specialize (Hb s). unfold on_conn in Hb.
  destruct (body s) as [[[[] a]|e] s']; simpl in *; try done; reflexivity.
Qed.

Lemma respects_transaction {A} ctx (body : SM (bool * A)) :
  respects (on_conn R) body → respects (on_conn R) (transaction ctx body).
Proof.
  intros Hb. unfold transaction. apply respects_bind; [apply _|apply respects_engine|].
  intros _. by apply respects_in_transaction.
Qed.
End respects_engine.
#[export] Hint Resolve respects_engine respects_query respects_utc_now : respects.

(** ** What the statements return *)

Section outcomes.
Context `{Chrono} {Tables : Type}.
Abbreviation SM := (SqlM Tables).
Implicit Types s : Db Tables.

Lemma execute_cases ctx stmt s :
  (∃ s', execute ctx stmt s = (Ok (snd (stmt (conn s))), s') ∧ conn s' = fst (stmt (conn s)))
  ∨ (∃ s', execute ctx stmt s = (Err ctx, s') ∧ conn s' = conn s).
Proof.
  unfold execute, execute_checked, mbind, M_bind.
  destruct (engine_cases ctx s) as [(s1 & -> & Hc & _)|(s1 & -> & Hc)]; simpl;
    [left|right; eauto].
  rewrite Hc. destruct (stmt (conn s)) as [t' n]. simpl. eauto.
Qed.

Lemma execute_quiet ctx stmt s :
  quiet s → execute ctx stmt s = (Ok (snd (stmt (conn s))), with_conn s (fst (stmt (conn s)))).
Proof.
  intros Hq. unfold execute, execute_checked, mbind, M_bind. rewrite engine_quiet by done.
  simpl. by destruct (stmt (conn s)).
Qed.

Lemma query_cases {A} ctx (q : Tables → A) s :
  (∃ s', query ctx q s = (Ok (q (conn s)), s') ∧ conn s' = conn s)
  ∨ (∃ s', query ctx q s = (Err ctx, s') ∧ conn s' = conn s).
Proof.
  unfold query, mbind, M_bind, gets.
  destruct (engine_cases ctx s) as [(s1 & -> & Hc & _)|(s1 & -> & Hc)]; [left|right];
    exists s1; by rewrite ?Hc.
Qed.

Lemma query_quiet {A} ctx (q : Tables → A) s :
  quiet s → query ctx q s = (Ok (q (conn s)), s).
Proof. intros Hq. unfold query, mbind, M_bind. by rewrite engine_quiet. Qed.


Lemma prepared_query_ok {A} c1 c2 (q : Tables → A) s a s' :
  (_ ← engine c1; query c2 q) s = (Ok a, s') → a = q (conn s) ∧ conn s' = conn s.
Proof.
  unfold mbind, M_bind.
  destruct (engine_cases c1 s) as [(s1 & -> & Hc & _)|(s1 & -> & Hc)]; [|done].
  destruct (query_cases c2 q s1) as [(s2 & -> & Hc2)|(s2 & -> & Hc2)]; [|done].
  intros [= <- <-]. by rewrite Hc2, Hc.
Qed.

Lemma prepared_query_conn {A} c1 c2 (q : Tables → A) s :
  conn (snd ((_ ← engine c1; query c2 q) s)) = conn s.
Proof.
  unfold mbind, M_bind.
  destruct (engine_cases c1 s) as [(s1 & -> & Hc & _)|(s1 & -> & Hc)]; [|done].
  destruct (query_cases c2 q s1) as [(s2 & -> & Hc2)|(s2 & -> & Hc2)]; simpl; by rewrite Hc2.
Qed.

End outcomes.

(** ** Inversion: what a run that succeeded did *)

Section inversion.
Context `{Chrono} {Tables : Type}.
Abbreviation SM := (SqlM Tables).
Implicit Types s : Db Tables.

Lemma engine_ok ctx s u s' :
  engine ctx s = (Ok u, s') → conn s' = conn s ∧ clock s' = clock s ∧ ticks s' = ticks s.
Proof.
  destruct (engine_cases ctx s) as [(s1 & -> & E)|(s1 & -> & E)]; by intros [= _ <-].
Qed.

Lemma execute_checked_ok ctx stmt s n s' :
  execute_checked ctx stmt s = (Ok n, s') → stmt (conn s) = Some (conn s', n).
Proof.
  unfold execute_checked, mbind, M_bind.
  destruct (engine_cases ctx s) as [(s1 & -> & Hc & _)|(s1 & -> & Hc)]; simpl; [|done].
  rewrite Hc. destruct (stmt (conn s)) as [[t m]|]; [|done]. by intros [= <- <-].
Qed.
Lemma execute_ok ctx stmt s n s' :
  execute ctx stmt s = (Ok n, s') → stmt (conn s) = (conn s', n).
Proof. intros Hr%execute_checked_ok. congruence. Qed.

Lemma query_ok {A} ctx (q : Tables → A) s a s' :
  query ctx q s = (Ok a, s') → a = q (conn s) ∧ conn s' = conn s.
Proof.
  destruct (query_cases ctx q s) as [(s1 & -> & E)|(s1 & -> & E)]; [|done]. by intros [= <- <-].
Qed.

Lemma transaction_ok {A} ctx (body : SM (bool * A)) s a s' :
  transaction ctx body s = (Ok a, s') →
  ∃ s0, conn s0 = conn s ∧ clock s0 = clock s ∧ ticks s0 = ticks s ∧
    (body s0 = (Ok (true, a), s') ∨
     ∃ s1, body s0 = (Ok (false, a), s1) ∧ conn s' = conn s).
Proof.
  unfold transaction, mbind, M_bind.
  destruct (engine_cases ctx s) as [(s0 & -> & E1 & E2 & E3)|(s0 & -> & E)]; [|done].
  unfold in_transaction. intros Hb. exists s0. split; [done|split; [done|split; [done|]]].
  destruct (body s0) as [[[[] b]|e] s1]; simplify_eq; [by left|right].
  exists s1. by rewrite <- E1.
Qed.
Lemma transaction_err {A} ctx (body : SM (bool * A)) s e s' :
  transaction ctx body s = (Err e, s') → conn s' = conn s.
Proof.
  unfold transaction, mbind, M_bind.
  destruct (engine_cases ctx s) as [(s0 & -> & E1 & _)|(s0 & -> & E)]; [|by intros [= _ <-]].
  unfold in_transaction. destruct (body s0) as [[[[] b]|e'] s1]; try done.
  intros [= _ <-]. done.
Qed.
End inversion.

(** [ok_step]: the first statement of a run that succeeded. *)
Ltac ok_step H :=
  let a := fresh "a" in let s := fresh "s" in let E := fresh "E" in
  apply bind_ok in H as (a & s & E & H).

(** ** Total correctness while the engine works *)

Section total.
Context `{Chrono} {Tables : Type}.
Abbreviation SM := (SqlM Tables).
Implicit Types φ : Tables → Prop.

Definition good φ (s : Db Tables) : Prop := quiet s ∧ φ (conn s).

Lemma hoare_engine ctx φ : hoare (good φ) (engine (Tables := Tables) ctx) (λ _, good φ).
Proof. intros s [Hq Hφ]. exists tt, s. by rewrite engine_quiet. Qed.

Lemma hoare_utc_now φ : hoare (good φ) utc_now (λ _, good φ).
Proof. intros s [Hq Hφ]. eexists _, _. split; [apply utc_now_run|]. done. Qed.

Lemma hoare_execute ctx stmt φ (ψ : Z → Tables → Prop) :
  (∀ t, φ t → ψ (snd (stmt t)) (fst (stmt t))) →
  hoare (good φ) (execute ctx stmt) (λ n, good (ψ n)).
Proof.
  intros H1 s [Hq Hφ]. rewrite execute_quiet by done. eexists _, _. split; [done|].
  split; [done|]. by apply H1.
Qed.

Lemma hoare_query {A} ctx (q : Tables → A) φ (ψ : A → Tables → Prop) :
  (∀ t, φ t → ψ (q t) t) → hoare (good φ) (query ctx q) (λ a, good (ψ a)).
Proof.
  intros H1 s [Hq Hφ]. rewrite query_quiet by done. eexists _, _. split; [done|].
  split; [done|]. by apply H1.
Qed.

Lemma hoare_prepared {A} c1 c2 (q : Tables → A) φ (ψ : A → Tables → Prop) :
  (∀ t, φ t → ψ (q t) t) →
  hoare (good φ) (_ ← engine c1; query c2 q) (λ a, good (ψ a)).
Proof. intros H1. eapply hoare_bind; [apply hoare_engine|]. intros a. by apply hoare_query. Qed.

End total.
