(* ===== verification/Storage.v ===== *)
(** * [devbridge-server/src/storage.rs]: the SQLite-backed store

    The tables are the lists of their rows in rowid order; a statement is the
    function its SQL text denotes.  The database engine may fail any statement
    (disk full, locked, I/O error): [faults] is the schedule of these failures
    - a failed statement changes nothing - and every theorem below holds for
    every schedule.  [clock] and [ticks] are [Utc::now()]. *)

From Stdlib Require Import ZArith String Sorting.Sorted Sorting.Permutation.
From stdpp Require Import gmap.
From S2P Require Import Prelude RustStd Core Sqlite.
#[local] Open Scope Z_scope.

(** ** Rows and tables *)

Section rows.
Context `{Chrono}.

Record JobRow := mkJobRow {
  r_job_id : string;
  r_document_name : string;
  r_target_printer : string;
  r_target_client_id : option string;
  r_copies : Z;
  r_paper_size : string;
  r_duplex : Z;
  r_color : Z;
  r_payload_size : Z;
  r_payload_sha256 : string;
  r_state : string;
  r_retry_count : Z;
  r_error_detail : string;
  r_requesting_user : option string;
  r_spool_path : string;
  r_created_at : string;
  r_updated_at : string;
}.

Record VpRow := mkVpRow {
  v_id : string;
  v_display_name : string;
  v_ipp_name : string;
  v_paired_client_id : option string;
  v_driver : option string;
  v_created_at : string;
  v_updated_at : string;
}.

(** [printer_names] is JSON text in the database; the list is kept as such. *)
Record ClientRow := mkClientRow {
  c_machine_id : string;
  c_hostname : string;
  c_printer_names : list string;
  c_client_version : string;
  c_last_seen : string;
  c_is_online : Z;
  c_pairing_state : string;
  c_virtual_printer_name : option string;
  c_virtual_printer_driver : option string;
}.

Record EventRow := mkEventRow {
  e_job_id : string;
  e_stage : string;
  e_success : Z;
  e_detail : string;
  e_verification_method : string;
  e_verification_evidence : string;
  e_timestamp : string;
}.

Record Tables := mkTables {
  jobs : list JobRow;
  virtual_printers : list VpRow;
  clients : list ClientRow;
  job_events : list EventRow;   (* in [id] order *)
}.
End rows.

Section columns.
Context `{Chrono}.

(** The SET clauses. *)
Definition set_jobs (f : list JobRow → list JobRow) (t : Tables) : Tables :=
  {| jobs := f (jobs t); virtual_printers := virtual_printers t;
     clients := clients t; job_events := job_events t |}.
Definition set_vps (f : list VpRow → list VpRow) (t : Tables) : Tables :=
  {| jobs := jobs t; virtual_printers := f (virtual_printers t);
     clients := clients t; job_events := job_events t |}.
Definition set_clients (f : list ClientRow → list ClientRow) (t : Tables) : Tables :=
  {| jobs := jobs t; virtual_printers := virtual_printers t;
     clients := f (clients t); job_events := job_events t |}.
Definition set_events (f : list EventRow → list EventRow) (t : Tables) : Tables :=
  {| jobs := jobs t; virtual_printers := virtual_printers t;
     clients := clients t; job_events := f (job_events t) |}.

(** [SET state = .., retry_count = .., error_detail = .., updated_at = ..] *)
Definition job_set (state : string) (retry : Z) (detail upd : string) (r : JobRow) : JobRow :=
  {| r_job_id := r_job_id r; r_document_name := r_document_name r;
     r_target_printer := r_target_printer r; r_target_client_id := r_target_client_id r;
     r_copies := r_copies r; r_paper_size := r_paper_size r; r_duplex := r_duplex r;
     r_color := r_color r; r_payload_size := r_payload_size r;
     r_payload_sha256 := r_payload_sha256 r; r_state := state; r_retry_count := retry;
     r_error_detail := detail; r_requesting_user := r_requesting_user r;
     r_spool_path := r_spool_path r; r_created_at := r_created_at r; r_updated_at := upd |}.
Definition set_state (state upd : string) (r : JobRow) : JobRow :=
  job_set state (r_retry_count r) (r_error_detail r) upd r.
Definition set_target (client : string) (r : JobRow) : JobRow :=
  {| r_job_id := r_job_id r; r_document_name := r_document_name r;
     r_target_printer := r_target_printer r; r_target_client_id := Some client;
     r_copies := r_copies r; r_paper_size := r_paper_size r; r_duplex := r_duplex r;
     r_color := r_color r; r_payload_size := r_payload_size r;
     r_payload_sha256 := r_payload_sha256 r; r_state := r_state r;
     r_retry_count := r_retry_count r; r_error_detail := r_error_detail r;
     r_requesting_user := r_requesting_user r; r_spool_path := r_spool_path r;
     r_created_at := r_created_at r; r_updated_at := r_updated_at r |}.
End columns.

(** ** Statements on the connection *)

Definition Storage `{Chrono} : Type := Db Tables.
Definition SM `{Chrono} (A : Type) : Type := SqlM Tables A.

(** ** Text of the states *)

Definition state_to_str (s : JobState) : string :=
  match s with
  | Queued => "queued"
  | Downloading => "downloading"
  | Printing => "printing"
  | Completed => "completed"
  | Failed => "failed"
  | Cancelled => "cancelled"
  | Unconfirmed => "unconfirmed"
  end.

Definition str_to_state (s : string) : JobState :=
  if s =t? "queued" then Queued
  else if s =t? "downloading" then Downloading
  else if s =t? "printing" then Printing
  else if s =t? "completed" then Completed
  else if s =t? "failed" then Failed
  else if s =t? "cancelled" then Cancelled
  else if s =t? "unconfirmed" then Unconfirmed
  else Unconfirmed.

Definition b2i (b : bool) : Z := if b then 1 else 0.

Section rows_to_values.
Context `{Chrono}.

Definition row_to_job (r : JobRow) : JobMetadata :=
  {| job_id := r_job_id r; document_name := r_document_name r;
     target_printer := r_target_printer r; target_client_id := r_target_client_id r;
     copies := r_copies r; paper_size := r_paper_size r;
     duplex := negb (r_duplex r =? 0); color := negb (r_color r =? 0);
     payload_size := as_u64 (r_payload_size r); payload_sha256 := r_payload_sha256 r;
     state := str_to_state (r_state r); retry_count := as_u32 (r_retry_count r);
     error_detail := r_error_detail r; requesting_user := r_requesting_user r;
     created_at := parse_or_default (r_created_at r);
     updated_at := parse_or_default (r_updated_at r) |}.

Definition job_to_row (meta : JobMetadata) (spool_path : string) : JobRow :=
  {| r_job_id := job_id meta; r_document_name := document_name meta;
     r_target_printer := target_printer meta; r_target_client_id := target_client_id meta;
     r_copies := copies meta; r_paper_size := paper_size meta;
     r_duplex := b2i (duplex meta); r_color := b2i (color meta);
     r_payload_size := as_i64 (payload_size meta); r_payload_sha256 := payload_sha256 meta;
     r_state := state_to_str (state meta); r_retry_count := retry_count meta;
     r_error_detail := error_detail meta; r_requesting_user := requesting_user meta;
     r_spool_path := spool_path; r_created_at := to_rfc3339 (created_at meta);
     r_updated_at := to_rfc3339 (updated_at meta) |}.

Definition row_to_virtual_printer (r : VpRow) : VirtualPrinter :=
  {| vp_id := v_id r; display_name := v_display_name r; ipp_name := v_ipp_name r;
     paired_client_id := v_paired_client_id r; driver := v_driver r;
     vp_created_at := parse_or_default (v_created_at r);
     vp_updated_at := parse_or_default (v_updated_at r) |}.

Definition row_to_client (r : ClientRow) : ClientRegistration :=
  {| machine_id := c_machine_id r; hostname := c_hostname r;
     printer_names := c_printer_names r; client_version := c_client_version r;
     last_seen := parse_or_default (c_last_seen r);
     is_online := negb (c_is_online r =? 0);
     pairing_state := pairing_from_str_lossy (c_pairing_state r);
     virtual_printer_name := c_virtual_printer_name r;
     virtual_printer_driver := c_virtual_printer_driver r |}.

(** [now] is the fallback for a timestamp that does not parse. *)
Definition row_to_event (now : DateTime) (r : EventRow) : PrintJobEvent :=
  {| ev_job_id := e_job_id r; ev_requesting_user := None;
     ev_stage := match stage_of_str (e_stage r) with Some st => st | None => SFailed end;
     ev_success := negb (e_success r =? 0); ev_detail := e_detail r;
     ev_verification_method := e_verification_method r;
     ev_verification_evidence := e_verification_evidence r;
     ev_timestamp := match parse_rfc3339 (e_timestamp r) with
                     | Some t => t | None => now end |}.
End rows_to_values.

(** ** Jobs *)

Definition OPEN_STATES : list string := ["queued"; "downloading"; "printing"; "failed"].
Definition IN_FLIGHT : list string := ["downloading"; "printing"].
Definition REQUEUEABLE : list string := ["failed"; "downloading"; "printing"].

Section jobs_table.
Context `{Chrono}.

Definition by_id (job_id : string) (r : JobRow) : bool := r_job_id r =t? job_id.

(** [UPDATE jobs SET f WHERE p] *)
Definition update_jobs (p : JobRow → bool) (f : JobRow → JobRow) (t : Tables) : Tables * Z :=
  let '(rows, n) := sql_update p f (jobs t) in (set_jobs (λ _, rows) t, n).

(** [ON CONFLICT(job_id) DO UPDATE SET state, retry_count, error_detail, updated_at] *)
Definition upsert_job_row (new : JobRow) (rows : list JobRow) : list JobRow :=
  if existsb (by_id (r_job_id new)) rows
  then fst (sql_update (by_id (r_job_id new))
         (job_set (r_state new) (r_retry_count new) (r_error_detail new) (r_updated_at new))
         rows)
  else rows ++ [new].

Definition insert_job (meta : JobMetadata) (spool_path : string) : SM unit :=
  _ ← execute ("failed to insert job " +:+ job_id meta)
        (λ t, (set_jobs (upsert_job_row (job_to_row meta spool_path)) t, 1));
  mret tt.

Definition update_job_state (job_id : string) (state : JobState) : SM unit :=
  now ← utc_now;
  rows ← execute ("failed to update job " +:+ job_id)
           (update_jobs (by_id job_id) (set_state (state_to_str state) (to_rfc3339 now)));
  if rows =? 0 then throw ("job " +:+ job_id +:+ " not found") else mret tt.

(** The stored [state] text; an error when there is no such job. *)
Definition existing_state_text (job_id : string) : SM string :=
  o ← query ("failed to read the state of job " +:+ job_id)
        (λ t, List.find (by_id job_id) (jobs t));
  match o with
  | Some r => mret (r_state r)
  | None => throw ("job " +:+ job_id +:+ " not found")
  end.

Definition update_job_state_unless_terminal (job_id : string) (state : JobState) : SM bool :=
  now ← utc_now;
  rows ← execute ("failed to update job " +:+ job_id)
           (update_jobs (λ r, by_id job_id r && text_in (r_state r) OPEN_STATES)
              (set_state (state_to_str state) (to_rfc3339 now)));
  if rows =? 0 then _ ← existing_state_text job_id; mret false
  else mret true.

Definition unconfirm_completed_job (job_id : string) : SM bool :=
  now ← utc_now;
  rows ← execute ("failed to mark completed job " +:+ job_id +:+ " unconfirmed")
           (update_jobs (λ r, by_id job_id r && (r_state r =t? "completed"))
              (set_state "unconfirmed" (to_rfc3339 now)));
  mret (0 <? rows).

Definition requeue_job (job_id : string) (error_detail : string) : SM bool :=
  now ← utc_now;
  rows ← execute ("failed to requeue job " +:+ job_id)
           (update_jobs (λ r, by_id job_id r && text_in (r_state r) REQUEUEABLE)
              (λ r, job_set "queued" (r_retry_count r + 1) error_detail (to_rfc3339 now) r));
  if rows =? 0 then _ ← existing_state_text job_id; mret false
  else mret true.

Definition get_retriable_jobs (max_retries : Z) : SM (list JobMetadata) :=
  _ ← engine "failed to prepare retriable-jobs query";
  query "failed to read retriable jobs" (λ t,
    map row_to_job (order_by r_updated_at
      (List.filter (λ r, (r_state r =t? "failed") && (r_retry_count r <? max_retries)) (jobs t)))).

Definition is_stale (cutoff : string) (r : JobRow) : bool :=
  text_in (r_state r) IN_FLIGHT && (r_updated_at r <t? cutoff).
Definition get_stale_jobs (older_than : DateTime) : SM (list JobMetadata) :=
  _ ← engine "failed to prepare stale-jobs query";
  query "failed to read stale jobs" (λ t,
    map row_to_job (order_by r_updated_at
      (List.filter (is_stale (to_rfc3339 older_than)) (jobs t)))).

Definition set_job_target_client (job_id client_id : string) : SM unit :=
  _ ← execute ("failed to set target client for job " +:+ job_id)
        (update_jobs (by_id job_id) (set_target client_id));
  mret tt.

Definition get_pending_jobs : SM (list JobMetadata) :=
  _ ← engine "failed to prepare pending-jobs query";
  query "failed to read pending jobs" (λ t,
    map row_to_job (order_by r_created_at
      (List.filter (λ r, r_state r =t? "queued") (jobs t)))).

Definition get_job (job_id : string) : SM (option JobMetadata) :=
  _ ← engine "failed to prepare get-job query";
  query "failed to query job" (λ t, row_to_job <$> List.find (by_id job_id) (jobs t)).

Definition get_all_jobs : SM (list JobMetadata) :=
  _ ← engine "failed to prepare all-jobs query";
  query "failed to read jobs" (λ t, map row_to_job (order_by_desc r_created_at (jobs t))).

Definition get_queued_jobs_for_client (client_id : string) : SM (list JobMetadata) :=
  _ ← engine "failed to prepare client-jobs query";
  query "failed to read client jobs" (λ t,
    map row_to_job (order_by r_created_at
      (List.filter (λ r, null_eq (r_target_client_id r) client_id
                         && (r_state r =t? "queued")) (jobs t)))).

Definition count_active_jobs : SM Z :=
  query "failed to count active jobs" (λ t,
    as_u64 (Z.of_nat (List.length
      (List.filter (λ r, text_in (r_state r) IN_FLIGHT) (jobs t))))).

(** [date(created_at) = date('now')]: SQLite's date of an RFC 3339 UTC text is
    its first ten characters. *)
Definition sql_date (ts : string) : string := String.substring 0 10 ts.
Definition count_jobs_today : SM Z :=
  now ← utc_now;
  query "failed to count today's jobs" (λ t,
    as_u64 (Z.of_nat (List.length
      (List.filter (λ r, sql_date (r_created_at r) =t? sql_date (to_rfc3339 now)) (jobs t))))).

Definition get_spool_path (job_id : string) : SM (option string) :=
  _ ← engine "failed to prepare spool-path query";
  query "failed to query spool path" (λ t,
    r_spool_path <$> List.find (by_id job_id) (jobs t)).

Definition clear_jobs : SM unit :=
  _ ← execute "failed to clear jobs" (λ t, (set_events (λ _, []) t, 0));
  _ ← execute "failed to clear jobs" (λ t, (set_jobs (λ _, []) t, 0));
  mret tt.
End jobs_table.

(** ** Audit events *)

Section events_table.
Context `{Chrono}.

Definition event_to_row (e : PrintJobEvent) : EventRow :=
  {| e_job_id := ev_job_id e; e_stage := stage_to_str (ev_stage e);
     e_success := b2i (ev_success e); e_detail := ev_detail e;
     e_verification_method := ev_verification_method e;
     e_verification_evidence := ev_verification_evidence e;
     e_timestamp := to_rfc3339 (ev_timestamp e) |}.

Definition insert_job_event (event : PrintJobEvent) : SM unit :=
  _ ← execute "insert into job_events" (λ t, (set_events (λ es, es ++ [event_to_row event]) t, 1));
  mret tt.

Definition get_job_events (job_id : string) : SM (list PrintJobEvent) :=
  _ ← engine "prepare job_events query";
  now ← utc_now;
  query "read job_events" (λ t,
    map (row_to_event now) (List.filter (λ r, e_job_id r =t? job_id) (job_events t))).

(** [map.entry(job_id).or_default().push(event)], for the events in order *)
Definition by_job (events : list PrintJobEvent) : gmap string (list PrintJobEvent) :=
  foldl (λ m e, <[ev_job_id e := default [] (m !! ev_job_id e) ++ [e]]> m) ∅ events.
Definition get_all_job_events : SM (gmap string (list PrintJobEvent)) :=
  _ ← engine "prepare job_events query";
  now ← utc_now;
  query "read job_events" (λ t, by_job (map (row_to_event now) (job_events t))).

Definition fail_interrupted_jobs (reason : string) : SM Z :=
  transaction "failed to begin interrupted-jobs transaction"
    (_ ← engine "failed to prepare interrupted-jobs query";
     job_ids ← query "failed to read interrupted jobs" (λ t,
       map r_job_id (order_by r_created_at
         (List.filter (λ r, text_in (r_state r) IN_FLIGHT) (jobs t))));
     match job_ids with
     | [] => mret (false, 0)
     | _ =>
       now ← utc_now;
       rows ← execute "failed to mark interrupted jobs as failed"
         (update_jobs (λ r, text_in (r_state r) IN_FLIGHT)
            (λ r, job_set "failed" (r_retry_count r) reason (to_rfc3339 now) r));
       _ ← for_each job_ids (λ job_id,
             at_ ← utc_now;
             map_err (λ _, "failed to record interrupted-job event for " +:+ job_id)
               (insert_job_event (event_new at_ job_id SFailed false reason)));
       _ ← commit "failed to commit interrupted-jobs transaction";
       mret (true, rows)
     end).
End events_table.

(** ** Virtual printers *)

Section vps_table.
Context `{Chrono}.

Definition vp_by_id (id : string) (r : VpRow) : bool := v_id r =t? id.
Definition vp_by_ipp (ipp : string) (r : VpRow) : bool := v_ipp_name r =t? ipp.

Definition vp_to_row (vp : VirtualPrinter) : VpRow :=
  {| v_id := vp_id vp; v_display_name := display_name vp; v_ipp_name := ipp_name vp;
     v_paired_client_id := paired_client_id vp; v_driver := driver vp;
     v_created_at := to_rfc3339 (vp_created_at vp);
     v_updated_at := to_rfc3339 (vp_updated_at vp) |}.

(** [INSERT]: refused by PRIMARY KEY (id) or UNIQUE (ipp_name). *)
Definition insert_virtual_printer (vp : VirtualPrinter) : SM unit :=
  _ ← execute_checked ("failed to insert virtual printer " +:+ vp_id vp) (λ t,
        if existsb (λ r, vp_by_id (vp_id vp) r || vp_by_ipp (ipp_name vp) r)
             (virtual_printers t)
        then None
        else Some (set_vps (λ rows, rows ++ [vp_to_row vp]) t, 1));
  mret tt.

Definition get_virtual_printer (id : string) : SM (option VirtualPrinter) :=
  _ ← engine "failed to prepare get-vp query";
  query "failed to query virtual printer" (λ t,
    row_to_virtual_printer <$> List.find (vp_by_id id) (virtual_printers t)).

Definition get_virtual_printer_by_ipp_name (ipp : string) : SM (option VirtualPrinter) :=
  _ ← engine "failed to prepare get-vp-by-ipp query";
  query "failed to query virtual printer by ipp_name" (λ t,
    row_to_virtual_printer <$> List.find (vp_by_ipp ipp) (virtual_printers t)).

Definition list_virtual_printers : SM (list VirtualPrinter) :=
  _ ← engine "failed to prepare list-vp query";
  query "failed to read virtual printers" (λ t,
    map row_to_virtual_printer (order_by v_created_at (virtual_printers t))).

Definition vp_set (vp : VirtualPrinter) (upd : string) (r : VpRow) : VpRow :=
  {| v_id := v_id r; v_display_name := display_name vp; v_ipp_name := ipp_name vp;
     v_paired_client_id := paired_client_id vp; v_driver := driver vp;
     v_created_at := v_created_at r; v_updated_at := upd |}.

(** [UPDATE]: refused when another row already has that [ipp_name]. *)
Definition update_virtual_printer (vp : VirtualPrinter) : SM unit :=
  now ← utc_now;
  rows ← execute_checked ("failed to update virtual printer " +:+ vp_id vp) (λ t,
    if existsb (vp_by_id (vp_id vp)) (virtual_printers t)
       && existsb (λ r, negb (vp_by_id (vp_id vp) r) && vp_by_ipp (ipp_name vp) r)
            (virtual_printers t)
    then None
    else let '(rows, n) := sql_update (vp_by_id (vp_id vp)) (vp_set vp (to_rfc3339 now))
                             (virtual_printers t) in
         Some (set_vps (λ _, rows) t, n));
  if rows =? 0 then throw ("virtual printer " +:+ vp_id vp +:+ " not found") else mret tt.

Definition delete_virtual_printer (id : string) : SM unit :=
  rows ← execute ("failed to delete virtual printer " +:+ id) (λ t,
    let '(rows, n) := sql_delete (vp_by_id id) (virtual_printers t) in
    (set_vps (λ _, rows) t, n));
  if rows =? 0 then throw ("virtual printer " +:+ id +:+ " not found") else mret tt.
End vps_table.

(** ** Clients *)

Section clients_table.
Context `{Chrono}.

Definition client_by_id (id : string) (r : ClientRow) : bool := c_machine_id r =t? id.
Definition update_clients (p : ClientRow → bool) (f : ClientRow → ClientRow) (t : Tables)
    : Tables * Z :=
  let '(rows, n) := sql_update p f (clients t) in (set_clients (λ _, rows) t, n).

Definition coalesce {A} (a b : option A) : option A :=
  match a with Some _ => a | None => b end.

Definition client_to_row (reg : ClientRegistration) : ClientRow :=
  {| c_machine_id := machine_id reg; c_hostname := hostname reg;
     c_printer_names := printer_names reg; c_client_version := client_version reg;
     c_last_seen := to_rfc3339 (last_seen reg); c_is_online := b2i (is_online reg);
     c_pairing_state := pairing_to_str (pairing_state reg);
     c_virtual_printer_name := virtual_printer_name reg;
     c_virtual_printer_driver := virtual_printer_driver reg |}.

(** [ON CONFLICT(machine_id) DO UPDATE SET ..]: [pairing_state] is kept. *)
Definition client_conflict_set (new old : ClientRow) : ClientRow :=
  {| c_machine_id := c_machine_id old; c_hostname := c_hostname new;
     c_printer_names := c_printer_names new; c_client_version := c_client_version new;
     c_last_seen := c_last_seen new; c_is_online := c_is_online new;
     c_pairing_state := c_pairing_state old;
     c_virtual_printer_name :=
       coalesce (c_virtual_printer_name new) (c_virtual_printer_name old);
     c_virtual_printer_driver :=
       coalesce (c_virtual_printer_driver new) (c_virtual_printer_driver old) |}.
Definition upsert_client_row (new : ClientRow) (rows : list ClientRow) : list ClientRow :=
  if existsb (client_by_id (c_machine_id new)) rows
  then fst (sql_update (client_by_id (c_machine_id new)) (client_conflict_set new) rows)
  else rows ++ [new].

Definition upsert_client (reg : ClientRegistration) : SM unit :=
  _ ← execute ("failed to upsert client " +:+ machine_id reg)
        (λ t, (set_clients (upsert_client_row (client_to_row reg)) t, 1));
  mret tt.

Definition list_clients : SM (list ClientRegistration) :=
  _ ← engine "failed to prepare list-clients query";
  query "failed to read clients" (λ t,
    map row_to_client (order_by_desc c_last_seen (clients t))).

Definition client_seen (online : Z) (seen : string) (r : ClientRow) : ClientRow :=
  {| c_machine_id := c_machine_id r; c_hostname := c_hostname r;
     c_printer_names := c_printer_names r; c_client_version := c_client_version r;
     c_last_seen := seen; c_is_online := online; c_pairing_state := c_pairing_state r;
     c_virtual_printer_name := c_virtual_printer_name r;
     c_virtual_printer_driver := c_virtual_printer_driver r |}.

Definition set_client_online (machine_id : string) (online : bool) : SM unit :=
  now ← utc_now;
  _ ← execute ("failed to set client " +:+ machine_id +:+ " online")
        (update_clients (client_by_id machine_id) (client_seen (b2i online) (to_rfc3339 now)));
  mret tt.

Definition touch_client (machine_id : string) : SM unit :=
  now ← utc_now;
  _ ← execute ("failed to touch client " +:+ machine_id)
        (update_clients (client_by_id machine_id) (client_seen 1 (to_rfc3339 now)));
  mret tt.

Definition set_all_clients_offline : SM unit :=
  _ ← execute "failed to set all clients offline"
        (update_clients (λ _, true) (λ r, client_seen 0 (c_last_seen r) r));
  mret tt.

Definition get_client (machine_id : string) : SM (option ClientRegistration) :=
  _ ← engine "failed to prepare get-client query";
  query "failed to query client" (λ t,
    row_to_client <$> List.find (client_by_id machine_id) (clients t)).

Definition client_paired (state : string) (r : ClientRow) : ClientRow :=
  {| c_machine_id := c_machine_id r; c_hostname := c_hostname r;
     c_printer_names := c_printer_names r; c_client_version := c_client_version r;
     c_last_seen := c_last_seen r; c_is_online := c_is_online r; c_pairing_state := state;
     c_virtual_printer_name := c_virtual_printer_name r;
     c_virtual_printer_driver := c_virtual_printer_driver r |}.

Definition update_pairing_state (machine_id : string) (state : PairingState) : SM unit :=
  rows ← execute ("failed to update pairing state for client " +:+ machine_id)
           (update_clients (client_by_id machine_id) (client_paired (pairing_to_str state)));
  if rows =? 0 then throw ("client " +:+ machine_id +:+ " not found") else mret tt.
End clients_table.
