(* ===== verification/Queue.v ===== *)
(** * [devbridge-server/src/queue.rs]: the in-memory job queue over the store

    [JobQueue] routes a job either to the channel of the client its virtual
    printer is paired to or to the default queue.  An unbounded mpsc channel is
    an entry of [channels] (its pending messages) that exists while its
    receiver does; [client_channels] maps a machine to (connection id, channel):
    a newer registration replaces the entry, the older channel keeps living
    with its receiver. *)

From Stdlib Require Import ZArith String.
From stdpp Require Import gmap.
From S2P Require Import Prelude RustStd Core Sqlite Storage.
#[local] Open Scope Z_scope.

Record JobQueue `{Chrono} := mkJobQueue {
  storage : Storage;
  client_channels : gmap string (string * nat);
  channels : gmap nat (list string);
  next_channel : nat;
  default_pending : list string;
  job_events_tx : option (list JobEvent);
  (** the reconciler's bounded channel: (messages waiting, capacity) *)
  reconciler_signal : option (nat * nat);
}.

Definition QM `{Chrono} (A : Type) : Type := M JobQueue string A.

Section queue_state.
Context `{Chrono}.

Definition set_storage (st : Storage) (q : JobQueue) : JobQueue :=
  {| storage := st; client_channels := client_channels q; channels := channels q;
     next_channel := next_channel q; default_pending := default_pending q;
     job_events_tx := job_events_tx q; reconciler_signal := reconciler_signal q |}.
Definition set_client_channels (m : gmap string (string * nat)) (q : JobQueue) : JobQueue :=
  {| storage := storage q; client_channels := m; channels := channels q;
     next_channel := next_channel q; default_pending := default_pending q;
     job_events_tx := job_events_tx q; reconciler_signal := reconciler_signal q |}.
Definition set_channels (m : gmap nat (list string)) (n : nat) (q : JobQueue) : JobQueue :=
  {| storage := storage q; client_channels := client_channels q; channels := m;
     next_channel := n; default_pending := default_pending q;
     job_events_tx := job_events_tx q; reconciler_signal := reconciler_signal q |}.
Definition set_default_pending (l : list string) (q : JobQueue) : JobQueue :=
  {| storage := storage q; client_channels := client_channels q; channels := channels q;
     next_channel := next_channel q; default_pending := l;
     job_events_tx := job_events_tx q; reconciler_signal := reconciler_signal q |}.
Definition set_job_events_tx (o : option (list JobEvent)) (q : JobQueue) : JobQueue :=
  {| storage := storage q; client_channels := client_channels q; channels := channels q;
     next_channel := next_channel q; default_pending := default_pending q;
     job_events_tx := o; reconciler_signal := reconciler_signal q |}.
Definition set_signal (o : option (nat * nat)) (q : JobQueue) : JobQueue :=
  {| storage := storage q; client_channels := client_channels q; channels := channels q;
     next_channel := next_channel q; default_pending := default_pending q;
     job_events_tx := job_events_tx q; reconciler_signal := o |}.

(** [self.storage.lock()]: run on the store. *)
Definition on_storage {A} (m : SM A) : QM A := zoom storage set_storage m.

(** [tx.send(x)] with its error ignored: lost when the receiver is gone. *)
Definition channel_send (ch : nat) (x : string) (q : JobQueue) : JobQueue :=
  match channels q !! ch with
  | Some msgs => set_channels (<[ch := msgs ++ [x]]> (channels q)) (next_channel q) q
  | None => q
  end.
(** [rx.try_recv()] *)
Definition channel_try_recv (ch : nat) : QM (option string) := λ q,
  match channels q !! ch with
  | Some (x :: msgs) =>
    (Ok (Some x), set_channels (<[ch := msgs]> (channels q)) (next_channel q) q)
  | _ => (Ok None, q)
  end.
(** The receiver is dropped. *)
Definition channel_drop (ch : nat) (q : JobQueue) : JobQueue :=
  set_channels (delete ch (channels q)) (next_channel q) q.
End queue_state.

Section queue_ops.
Context `{Chrono}.

(** [JobQueue::new]: only unpaired queued jobs enter the default queue. *)
Definition unpaired (j : JobMetadata) : bool :=
  match target_client_id j with Some _ => false | None => true end.
Definition new (st : Storage) : result string JobQueue * Storage :=
  match get_pending_jobs st with
  | (Ok pending_jobs, st') =>
    (Ok {| storage := st'; client_channels := ∅; channels := ∅; next_channel := 0;
           default_pending := map job_id (List.filter unpaired pending_jobs);
           job_events_tx := None; reconciler_signal := None |}, st')
  | (Err e, st') => (Err e, st')
  end.

Definition set_job_events (q : JobQueue) : JobQueue := set_job_events_tx (Some []) q.
Definition set_reconciler_signal (capacity : nat) (q : JobQueue) : JobQueue :=
  set_signal (Some (0%nat, capacity)) q.

Definition emit_event (event : JobEvent) : QM unit :=
  modify (λ q, set_job_events_tx ((λ log, log ++ [event]) <$> job_events_tx q) q).

(** [tx.try_send(())]: dropped when the channel is full. *)
Definition signal_reconciler : QM unit :=
  modify (λ q, set_signal
    ((λ '(n, cap), if (n <? cap)%nat then (S n, cap) else (n, cap)) <$> reconciler_signal q) q).

Definition register_client (machine_id connection_id : string) : QM nat := λ q,
  let ch := next_channel q in
  (Ok ch,
   set_channels (<[ch := []]> (channels q)) (S ch)
     (set_client_channels (<[machine_id := (connection_id, ch)]> (client_channels q)) q)).

Definition unregister_client (machine_id connection_id : string) : QM unit :=
  modify (λ q,
    match client_channels q !! machine_id with
    | Some (stored_id, _) =>
      if stored_id =t? connection_id
      then set_client_channels (delete machine_id (client_channels q)) q
      else q
    | None => q
    end).

Definition is_active_connection (machine_id connection_id : string) : QM bool :=
  gets (λ q, match client_channels q !! machine_id with
             | Some (stored_id, _) => stored_id =t? connection_id
             | None => false
             end).

Definition insert_job_event (event : PrintJobEvent) : QM unit :=
  on_storage (Storage.insert_job_event event).

Definition with_target (target : option string) (m : JobMetadata) : JobMetadata :=
  {| job_id := job_id m; document_name := document_name m; target_printer := target_printer m;
     target_client_id := target; copies := copies m; paper_size := paper_size m;
     duplex := duplex m; color := color m; payload_size := payload_size m;
     payload_sha256 := payload_sha256 m; state := state m; retry_count := retry_count m;
     error_detail := error_detail m; requesting_user := requesting_user m;
     created_at := created_at m; updated_at := updated_at m |}.

(** Send to the client's channel when it is connected; otherwise the job is
    held in the store until [drain_pending_for_client]. *)
Definition route_to_client (client job_id : string) : QM unit :=
  modify (λ q,
    match client_channels q !! client with
    | Some (_, ch) => channel_send ch job_id q
    | None => q
    end).
Definition push_default (job_id : string) : QM unit :=
  modify (λ q, set_default_pending (default_pending q ++ [job_id]) q).

(** The pairing of the job's printer overrides its target. *)
Definition resolve_target (meta : JobMetadata) : SM JobMetadata :=
  if target_printer meta =t? "" then mret meta
  else
    r ← attempt (get_virtual_printer_by_ipp_name (target_printer meta));
    match ok_flatten r with
    | Some vp =>
      match paired_client_id vp with
      | Some client => mret (with_target (Some client) meta)
      | None => mret meta
      end
    | None => mret meta
    end.

Definition push (meta0 : JobMetadata) (spool_path : string) : QM unit :=
  meta ← on_storage (meta ← resolve_target meta0; _ ← insert_job meta spool_path; mret meta);
  _ ← emit_event (Created (job_id meta) (document_name meta) (requesting_user meta)
                   (target_printer meta));
  now ← on_storage utc_now;
  let route_detail :=
    match target_client_id meta with
    | Some client_id => target_printer meta +:+ " → " +:+ client_id
    | None => target_printer meta +:+ " → default queue"
    end in
  _ ← ignore (E := string) (insert_job_event (event_ok now (job_id meta) SRouted route_detail));
  match target_client_id meta with
  | Some target_client => route_to_client target_client (job_id meta)
  | None => push_default (job_id meta)
  end.

Definition next_job : QM (option string) := λ q,
  match default_pending q with
  | j :: rest => (Ok (Some j), set_default_pending rest q)
  | [] => (Ok None, q)
  end.

Definition drain_pending_for_client (client_id : string) : QM unit :=
  r ← attempt (on_storage (get_queued_jobs_for_client client_id));
  match r with
  | Err _ => mret tt
  | Ok jobs => for_each jobs (λ job, route_to_client client_id (job_id job))
  end.

(** [storage.get_job(id).ok().flatten().and_then(|j| j.requesting_user)] *)
Definition requesting_user_of (job_id : string) : QM (option string) :=
  r ← attempt (on_storage (get_job job_id));
  mret (match ok_flatten r with Some j => requesting_user j | None => None end).

Definition update_state (job_id : string) (state : JobState) : QM unit :=
  _ ← on_storage (Storage.update_job_state job_id state);
  user ← requesting_user_of job_id;
  emit_event (StateChanged job_id state user).

Definition update_state_unless_terminal (job_id : string) (state : JobState) : QM bool :=
  changed ← on_storage (update_job_state_unless_terminal job_id state);
  if changed : bool then
    user ← requesting_user_of job_id;
    _ ← emit_event (StateChanged job_id state user);
    mret true
  else mret false.

Definition unconfirm_completed (job_id : string) : QM bool :=
  changed ← on_storage (unconfirm_completed_job job_id);
  if changed : bool then
    user ← requesting_user_of job_id;
    _ ← emit_event (StateChanged job_id Unconfirmed user);
    mret true
  else mret false.

Definition requeue_job (job_id error_detail : string) : QM bool :=
  requeued ← on_storage (Storage.requeue_job job_id error_detail);
  if requeued : bool then
    r ← attempt (on_storage (get_job job_id));
    let target := match ok_flatten r with Some j => target_client_id j | None => None end in
    _ ← match target with
        | Some client_id => route_to_client client_id job_id
        | None => push_default job_id
        end;
    mret true
  else mret false.

Definition get_stale_jobs (stale_timeout_secs : Z) : QM (list JobMetadata) :=
  now ← on_storage utc_now;
  on_storage (Storage.get_stale_jobs (minus_secs now (as_i64 stale_timeout_secs))).

(** Recorded on the client: stored, not routed. *)
Definition record_job (meta : JobMetadata) (spool_path : string) : QM unit :=
  on_storage (insert_job meta spool_path).
Definition update_job_state (job_id : string) (state : JobState) : QM unit :=
  update_state job_id state.

Definition insert_virtual_printer (vp : VirtualPrinter) : QM unit :=
  _ ← on_storage (Storage.insert_virtual_printer vp); signal_reconciler.
Definition update_virtual_printer (vp : VirtualPrinter) : QM unit :=
  _ ← on_storage (Storage.update_virtual_printer vp); signal_reconciler.
(** No reconciler signal on a deletion. *)
Definition delete_virtual_printer (id : string) : QM unit :=
  on_storage (Storage.delete_virtual_printer id).

Definition upsert_client (reg : ClientRegistration) : QM unit :=
  on_storage (Storage.upsert_client reg).
Definition set_client_online (machine_id : string) (online : bool) : QM unit :=
  on_storage (Storage.set_client_online machine_id online).
Definition touch_client (machine_id : string) : QM unit :=
  on_storage (Storage.touch_client machine_id).
Definition get_client (machine_id : string) : QM (option ClientRegistration) :=
  on_storage (Storage.get_client machine_id).
Definition update_pairing_state (machine_id : string) (state : PairingState) : QM unit :=
  on_storage (Storage.update_pairing_state machine_id state).
Definition fail_interrupted_jobs (reason : string) : QM Z :=
  on_storage (Storage.fail_interrupted_jobs reason).
Definition clear_jobs : QM unit := on_storage Storage.clear_jobs.
End queue_ops.

(** ** What the dashboard reads *)

Module Reads.
Section reads.
Context `{Chrono}.
Definition get_job (job_id : string) : QM (option JobMetadata) := on_storage (Storage.get_job job_id).
Definition get_all_jobs : QM (list JobMetadata) := on_storage Storage.get_all_jobs.
Definition count_jobs_today : QM Z := on_storage Storage.count_jobs_today.
Definition count_active_jobs : QM Z := on_storage Storage.count_active_jobs.
Definition get_spool_path (job_id : string) : QM (option string) := on_storage (Storage.get_spool_path job_id).
Definition get_virtual_printer (id : string) : QM (option VirtualPrinter) :=
  on_storage (Storage.get_virtual_printer id).
Definition get_virtual_printer_by_ipp_name (ipp_name : string) : QM (option VirtualPrinter) :=
  on_storage (Storage.get_virtual_printer_by_ipp_name ipp_name).
Definition list_virtual_printers : QM (list VirtualPrinter) := on_storage Storage.list_virtual_printers.
Definition list_clients : QM (list ClientRegistration) := on_storage Storage.list_clients.
Definition set_all_clients_offline : QM unit := on_storage Storage.set_all_clients_offline.
Definition get_job_events (job_id : string) : QM (list PrintJobEvent) :=
  on_storage (Storage.get_job_events job_id).
Definition get_all_job_events : QM (gmap string (list PrintJobEvent)) := on_storage Storage.get_all_job_events.
End reads.
End Reads.
