(* ===== verification/Dispatch.v ===== *)
(** * [devbridge-server/src/dispatch.rs]: the gRPC service, and the stale-job
    reaper of [devbridge-service/src/runtime.rs]

    [Service] is the shared state of the handlers: the queue, the counter of
    connected clients, the peer address of every live job stream, the open job
    streams with what was sent on them, and the retries whose backoff is
    running ([tokio::spawn] + [sleep]). *)

From Stdlib Require Import ZArith String.
From stdpp Require Import gmap.
From S2P Require Import Prelude RustStd Core Sqlite Storage Queue.
#[local] Open Scope Z_scope.

Definition CHUNK_SIZE : nat := 64 * 1024.

(** ** Messages (proto/devbridge.proto) *)

Inductive ProtoJobState :=
| PUnspecified | PQueued | PDownloading | PPrinting | PCompleted | PFailed | PCancelled
| PRendering | PSending.

Record PrintJob := mkPrintJob {
  pj_job_id : string; pj_target_printer : string; pj_document_name : string; pj_copies : Z;
  pj_paper_size : string; pj_duplex : bool; pj_color : bool; pj_payload_size : Z;
  pj_payload_sha256 : string; pj_created_at : Z * Z; pj_retry_count : Z;
}.

Record JobStatusUpdate := mkStatusUpdate {
  su_job_id : string; su_state : ProtoJobState; su_message : string;
}.

Record JobCompletion := mkCompletion {
  jc_job_id : string; jc_success : bool; jc_error_detail : string;
  jc_verification_method : string; jc_verification_evidence : string;
  jc_client_id : string; jc_unconfirmed : bool;
}.

Record ClientIdentity := mkIdentity {
  ci_machine_id : string; ci_hostname : string; ci_printer_names : list string;
  ci_client_version : string; ci_virtual_printer_name : string;
  ci_virtual_printer_driver : string;
}.

Record PayloadChunk := mkChunk {
  pc_job_id : string; pc_offset : nat; pc_data : list Byte.byte; pc_is_last : bool;
}.

(** [tonic::Status]: its code and message. *)
Inductive Status :=
| Internal (msg : string)
| NotFound (msg : string)
| PermissionDenied (msg : string).

(** [serde_json::from_str::<PrintJobEvent>] with its [ok()]. *)
Class EventJson `{Chrono} : Type := { event_from_json : string → option PrintJobEvent }.

(** ** [StreamPeers] *)

Module StreamPeers.
Section peers.
Context {Ip : Type}.
Definition t : Type := gmap string (string * option Ip).
Definition connected (machine_id connection_id : string) (peer : option Ip) (m : t) : t :=
  <[machine_id := (connection_id, peer)]> m.
Definition disconnected (machine_id connection_id : string) (m : t) : t :=
  match m !! machine_id with
  | Some (live, _) => if live =t? connection_id then delete machine_id m else m
  | None => m
  end.
Definition peer_of (machine_id : string) (m : t) : option Ip :=
  match m !! machine_id with Some (_, peer) => peer | None => None end.
End peers.
End StreamPeers.

(** ** State of the service *)

(** A retry whose backoff is running. *)
Record ScheduledRetry := mkRetry {
  sr_delay : Z; sr_job_id : string; sr_error_detail : string;
}.

(** One [SubscribeJobs] stream: its task's variables and what it sent. *)
Record Stream := mkStream {
  st_machine_id : string;
  st_connection_id : string;
  st_rx : nat;
  st_sent : list PrintJob;
  st_client_gone : bool;
}.

Record Service `{Chrono} := mkService {
  queue : JobQueue;
  connected_clients : Z;
  stream_peers : StreamPeers.t (Ip := string);
  streams : gmap string Stream;
  scheduled : list ScheduledRetry;
  max_retries : Z;
  retry_delay_secs : Z;
}.

Definition DM `{Chrono} (A : Type) : Type := M Service Status A.

Section service_state.
Context `{Chrono}.

Definition set_queue (q : JobQueue) (s : Service) : Service :=
  {| queue := q; connected_clients := connected_clients s; stream_peers := stream_peers s;
     streams := streams s; scheduled := scheduled s; max_retries := max_retries s;
     retry_delay_secs := retry_delay_secs s |}.
Definition set_connected (n : Z) (s : Service) : Service :=
  {| queue := queue s; connected_clients := as_u64 n; stream_peers := stream_peers s;
     streams := streams s; scheduled := scheduled s; max_retries := max_retries s;
     retry_delay_secs := retry_delay_secs s |}.
Definition set_peers (p : StreamPeers.t) (s : Service) : Service :=
  {| queue := queue s; connected_clients := connected_clients s; stream_peers := p;
     streams := streams s; scheduled := scheduled s; max_retries := max_retries s;
     retry_delay_secs := retry_delay_secs s |}.
Definition set_streams (m : gmap string Stream) (s : Service) : Service :=
  {| queue := queue s; connected_clients := connected_clients s; stream_peers := stream_peers s;
     streams := m; scheduled := scheduled s; max_retries := max_retries s;
     retry_delay_secs := retry_delay_secs s |}.
Definition set_scheduled (l : list ScheduledRetry) (s : Service) : Service :=
  {| queue := queue s; connected_clients := connected_clients s; stream_peers := stream_peers s;
     streams := streams s; scheduled := l; max_retries := max_retries s;
     retry_delay_secs := retry_delay_secs s |}.

(** A queue call whose anyhow error becomes a [Status]. *)
Definition on_queue {A} (to_status : string → Status) (m : QM A) : DM A :=
  zoom queue set_queue (map_err to_status m).
Definition try_queue {A} (m : QM A) : DM (result string A) :=
  attempt (zoom queue set_queue m).
Definition ignore_queue {A} (m : QM A) : DM unit := ignore (zoom queue set_queue m).
Definition now_ : DM DateTime := zoom queue set_queue (map_err Internal (on_storage utc_now)).

Definition internal_with (what : string) (e : string) : Status := Internal (what +:+ e).
End service_state.

(** ** Sending a job *)

Section send.
Context `{Chrono}.

Definition to_print_job (meta : JobMetadata) : PrintJob :=
  {| pj_job_id := job_id meta; pj_target_printer := target_printer meta;
     pj_document_name := document_name meta; pj_copies := copies meta;
     pj_paper_size := paper_size meta; pj_duplex := duplex meta; pj_color := color meta;
     pj_payload_size := payload_size meta; pj_payload_sha256 := payload_sha256 meta;
     pj_created_at := (timestamp (created_at meta), subsec_nanos (created_at meta));
     pj_retry_count := retry_count meta |}.

(** [tx.send(Ok(print_job)).await]: fails when the client is gone. *)
Definition stream_send (cid : string) (job : PrintJob) : DM bool := λ s,
  match streams s !! cid with
  | Some st =>
    if st_client_gone st then (Ok false, s)
    else (Ok true,
          set_streams (<[cid := {| st_machine_id := st_machine_id st;
                                   st_connection_id := st_connection_id st;
                                   st_rx := st_rx st; st_sent := st_sent st ++ [job];
                                   st_client_gone := false |}]> (streams s)) s)
  | None => (Ok false, s)
  end.

(** [send_job]: [false] = the client disconnected ([Err(())]). *)
Definition send_job (cid job_id : string) : DM bool :=
  r ← try_queue (on_storage (get_job job_id));
  match r with
  | Ok (Some meta) =>
    if negb (bool_decide (state meta = Queued)) then mret true
    else stream_send cid (to_print_job meta)
  | Ok None => mret true
  | Err _ => mret true
  end.
End send.

(** ** [subscribe_jobs] *)

Section subscribe.
Context `{Chrono}.

Definition none_if_empty (s : string) : option string := if s =t? "" then None else Some s.

(** The handler up to the spawned task; [connection_id] is the fresh UUID,
    [peer] the caller's address.  Returns the connection id. *)
Definition subscribe_jobs (connection_id : string) (peer : option string)
    (identity : ClientIdentity) : DM string :=
  now ← now_;
  let machine_id := ci_machine_id identity in
  let reg := {| machine_id := machine_id; hostname := ci_hostname identity;
                printer_names := ci_printer_names identity;
                client_version := ci_client_version identity; last_seen := now;
                is_online := true; pairing_state := Pending;
                virtual_printer_name := none_if_empty (ci_virtual_printer_name identity);
                virtual_printer_driver :=
                  none_if_empty (ci_virtual_printer_driver identity) |} in
  _ ← ignore_queue (upsert_client reg);
  stored ← try_queue (get_client machine_id);
  match ok_flatten stored with
  | Some c =>
    match pairing_state c with
    | Rejected => throw (PermissionDenied "client has been rejected")
    | Pending | Approved => mret tt
    end
  | None => mret tt
  end;;
  client_rx ← on_queue Internal (register_client machine_id connection_id);
  _ ← modify (λ s, set_peers (StreamPeers.connected machine_id connection_id peer
                                (stream_peers s)) s);
  _ ← ignore_queue (set_client_online machine_id true);
  _ ← modify (λ s, set_connected (connected_clients s + 1) s);
  _ ← ignore_queue (drain_pending_for_client machine_id);
  _ ← modify (λ s, set_streams (<[connection_id :=
        {| st_machine_id := machine_id; st_connection_id := connection_id;
           st_rx := client_rx; st_sent := []; st_client_gone := false |}]> (streams s)) s);
  mret connection_id.

(** How one iteration of the delivery loop ends. *)
Inductive Turn :=
| WaitPairing      (* [pairing_notified().await] *)
| Again            (* [continue] *)
| WaitJob          (* [select!] on the client's channel and the default queue *)
| Disconnected.    (* [break] *)

Definition after_send (ok : bool) : Turn := if ok then Again else Disconnected.

(** One iteration of the task's loop, up to its [select!]. *)
Definition delivery_turn (st : Stream) : DM Turn :=
  r ← try_queue (get_client (st_machine_id st));
  let registration := ok_flatten r in
  let is_approved := match registration with
                     | Some c => bool_decide (pairing_state c = Approved)
                     | None => false
                     end in
  let takes_default := match registration with
                       | Some c => takes_default_queue c
                       | None => true
                       end in
  if negb is_approved then mret WaitPairing
  else
    own ← on_queue Internal (channel_try_recv (st_rx st));
    match own with
    | Some job_id => ok ← send_job (st_connection_id st) job_id; mret (after_send ok)
    | None =>
      if negb takes_default then mret WaitJob
      else
        d ← on_queue Internal next_job;
        match d with
        | Some job_id => ok ← send_job (st_connection_id st) job_id; mret (after_send ok)
        | None => mret WaitJob
        end
    end.

(** The [select!] arm [Some(job_id) = client_rx.recv()]. *)
Definition delivery_select_recv (st : Stream) : DM Turn :=
  own ← on_queue Internal (channel_try_recv (st_rx st));
  match own with
  | Some job_id => ok ← send_job (st_connection_id st) job_id; mret (after_send ok)
  | None => mret WaitJob
  end.

(** Cleanup once the loop ended; the receiver is dropped with the task. *)
Definition disconnect (st : Stream) : DM unit :=
  let mid := st_machine_id st in
  let cid := st_connection_id st in
  _ ← modify (λ s, set_connected (connected_clients s - 1) s);
  _ ← modify (λ s, set_peers (StreamPeers.disconnected mid cid (stream_peers s)) s);
  active ← on_queue Internal (is_active_connection mid cid);
  _ ← (if active : bool then
         _ ← on_queue Internal (unregister_client mid cid);
         ignore_queue (set_client_online mid false)
       else mret tt);
  _ ← modify (λ s, set_queue (channel_drop (st_rx st) (queue s)) s);
  modify (λ s, set_streams (delete cid (streams s)) s).
End subscribe.

(** ** [download_payload] *)

(** The chunk loop from [offset]; [fuel] bounds the iterations. *)
Fixpoint payload_chunks (fuel : nat) (job_id : string) (data : list Byte.byte) (offset : nat)
    : list PayloadChunk :=
  match fuel with
  | O => []
  | S fuel' =>
    if (offset <? length data)%nat then
      let end_ := Nat.min (offset + CHUNK_SIZE) (length data) in
      {| pc_job_id := job_id; pc_offset := offset;
         pc_data := take (end_ - offset) (drop offset data);
         pc_is_last := (length data <=? end_)%nat |}
      :: payload_chunks fuel' job_id data end_
    else []
  end.

Section download.
Context `{Chrono}.
(** [tokio::fs::read] of the spool directory: the content or an I/O error. *)
Variable fs_read : string → result string (list Byte.byte).

Definition download_payload (job_id : string) (start_offset : nat) : DM (list PayloadChunk) :=
  path ← on_queue (internal_with "storage error: ") (on_storage (get_spool_path job_id));
  match path with
  | None => throw (NotFound ("job " +:+ job_id +:+ " not found"))
  | Some p =>
    match fs_read p with
    | Err e => throw (internal_with "failed to read spool file: " e)
    | Ok data => mret (payload_chunks (S (length data)) job_id data start_offset)
    end
  end.
End download.

(** ** [report_status] *)

Definition proto_state_to_core (s : ProtoJobState) : JobState :=
  match s with
  | PUnspecified => Queued
  | PQueued => Queued
  | PDownloading => Downloading
  | PPrinting => Printing
  | PCompleted => Completed
  | PFailed => Failed
  | PCancelled => Cancelled
  | PRendering => Printing
  | PSending => Printing
  end.

Definition status_update_state (wire : JobState) (stage : option PrintStage) : JobState :=
  if bool_decide (stage = Some SUnconfirmed) then Unconfirmed else wire.

Section status.
Context `{EventJson}.

Definition update_event (update : JobStatusUpdate) : option PrintJobEvent :=
  if su_message update =t? "" then None else event_from_json (su_message update).

Definition apply_status_update (update : JobStatusUpdate) : QM unit :=
  let event := update_event update in
  let state := status_update_state (proto_state_to_core (su_state update))
                 (ev_stage <$> event) in
  _ ← update_state_unless_terminal (su_job_id update) state;
  match event with
  | Some e => ignore (E := string) (insert_job_event e)
  | None => mret tt
  end.

(** The stream of updates until it ends. *)
Definition report_status (updates : list JobStatusUpdate) : DM unit :=
  for_each updates (λ u,
    on_queue (internal_with "failed to update state: ") (apply_status_update u)).
End status.

(** ** [complete_job] *)

Section complete.
Context `{Chrono}.

Definition completion_event (now : DateTime) (c : JobCompletion) (stage : PrintStage)
    (success : bool) (detail : string) : PrintJobEvent :=
  {| ev_job_id := jc_job_id c; ev_requesting_user := None; ev_stage := stage;
     ev_success := success; ev_detail := detail;
     ev_verification_method := jc_verification_method c;
     ev_verification_evidence := jc_verification_evidence c; ev_timestamp := now |}.

(** The warning of a job completed by another client than it was routed to. *)
Definition record_mismatch (c : JobCompletion) : DM unit :=
  r ← try_queue (on_storage (get_job (jc_job_id c)));
  match ok_flatten r with
  | Some job =>
    match target_client_id job with
    | Some expected =>
      if negb (jc_client_id c =t? "") && negb (jc_client_id c =t? expected) then
        now ← now_;
        ignore_queue (insert_job_event
          {| ev_job_id := jc_job_id c; ev_requesting_user := None; ev_stage := SCompleted;
             ev_success := true;
             ev_detail := "Completed by " +:+ jc_client_id c +:+ " (originally routed to "
                            +:+ expected +:+ ")";
             ev_verification_method := "client_mismatch";
             ev_verification_evidence := "expected=" +:+ expected +:+ ", actual="
                                           +:+ jc_client_id c;
             ev_timestamp := now |})
      else mret tt
    | None => mret tt
    end
  | None => mret tt
  end.

(** [retry_delay_secs.saturating_mul(1u64 << current_retry.min(6))] *)
Definition backoff_delay (retry_delay_secs current_retry : Z) : Z :=
  saturating_mul_u64 retry_delay_secs (2 ^ Z.min current_retry 6).

Definition schedule_retry (r : ScheduledRetry) : DM unit :=
  modify (λ s, set_scheduled (scheduled s ++ [r]) s).

Definition complete_success (c : JobCompletion) : DM unit :=
  now ← now_;
  let method := if jc_verification_method c =t? "" then "no verification"
                else jc_verification_method c in
  _ ← ignore_queue (insert_job_event
        (completion_event now c SCompleted true ("Completed (" +:+ method +:+ ")")));
  on_queue (internal_with "failed to complete job: ") (update_state (jc_job_id c) Completed).

Definition complete_unconfirmed (c : JobCompletion) : DM unit :=
  now ← now_;
  _ ← ignore_queue (insert_job_event
        (completion_event now c SUnconfirmed false (jc_error_detail c)));
  on_queue (internal_with "failed to mark job unconfirmed: ")
    (update_state (jc_job_id c) Unconfirmed).

(** A failure of a job that was already finished. *)
Definition late_failure (c : JobCompletion) : DM unit :=
  unconfirmed ← on_queue (internal_with "failed to mark job unconfirmed: ")
                  (unconfirm_completed (jc_job_id c));
  if unconfirmed : bool then
    now ← now_;
    ignore_queue (insert_job_event (event_fail now (jc_job_id c) SUnconfirmed
      ("failed after it was reported completed - maybe partly printed, not resent: "
         +:+ jc_error_detail c)))
  else mret tt.

Definition retry_or_give_up (c : JobCompletion) : DM unit :=
  r ← try_queue (on_storage (get_job (jc_job_id c)));
  let existing_job := ok_flatten r in
  max ← gets max_retries;
  base ← gets retry_delay_secs;
  let should_retry := match existing_job with
                      | Some job => retry_count job <? max | None => false end in
  if should_retry then
    let current_retry := match existing_job with Some j => retry_count j | None => 0 end in
    schedule_retry {| sr_delay := backoff_delay base current_retry;
                      sr_job_id := jc_job_id c; sr_error_detail := jc_error_detail c |}
  else mret tt.

Definition complete_failed (c : JobCompletion) : DM unit :=
  now ← now_;
  _ ← ignore_queue (insert_job_event
        (completion_event now c SFailed false (jc_error_detail c)));
  marked_failed ← on_queue (internal_with "failed to mark job failed: ")
                    (update_state_unless_terminal (jc_job_id c) Failed);
  if negb marked_failed then late_failure c else retry_or_give_up c.

Definition complete_job (c : JobCompletion) : DM unit :=
  _ ← record_mismatch c;
  if jc_success c then complete_success c
  else if jc_unconfirmed c then complete_unconfirmed c
  else complete_failed c.

(** The spawned retry task once its [sleep] is over: the [n]th one fires. *)
Definition fire_retry (n : nat) : DM unit :=
  l ← gets scheduled;
  match l !! n with
  | Some r =>
    _ ← modify (λ s, set_scheduled (take n (scheduled s) ++ drop (S n) (scheduled s)) s);
    ignore_queue (requeue_job (sr_job_id r) (sr_error_detail r))
  | None => mret tt
  end.
End complete.

(** ** The stale-job reaper ([runtime.rs]) and the client's startup recovery *)

Section reaper.
Context `{Chrono}.

(** One tick of [requeue_task]. *)
Definition reaper_tick (stale_timeout_secs : Z) : DM unit :=
  r ← try_queue (get_stale_jobs stale_timeout_secs);
  match r with
  | Err _ => mret tt
  | Ok stale =>
    for_each stale (λ job,
      max ← gets max_retries;
      if retry_count job <? max
      then ignore_queue (requeue_job (job_id job) "stale: stuck in progress")
      else mret tt)
  end.

Definition INTERRUPTED_CLIENT_JOB_REASON : string := "interrupted: client service restarted".

(** [open_client_queue]: the queue over the opened store, then the recovery. *)
Definition open_client_queue (st : Storage) : result string JobQueue :=
  match Queue.new st with
  | (Ok q, _) =>
    match fail_interrupted_jobs INTERRUPTED_CLIENT_JOB_REASON q with
    | (Ok _, q') => Ok q'
    | (Err e, _) => Err e
    end
  | (Err e, _) => Err e
  end.
End reaper.

(** ** [heartbeat] *)

Section heartbeat.
Context `{Chrono}.
(** One ping: (machine id, timestamp) in, the pong's timestamp out. *)
Definition heartbeat_ping (machine_id : string) (ts : Z * Z) : DM (Z * Z) :=
  _ ← (if machine_id =t? "" then mret tt else ignore_queue (touch_client machine_id));
  mret ts.
End heartbeat.
