(* ===== verification/Json.v ===== *)
(** * JSON values and the Odoo transport's answers

    [serde_json::Value] with the accessors the sources call, and
    [src/crates/devbridge-client/src/odoo_rpc.rs]: the error type and the
    reading of an answer's envelope.  An object is the list of its entries (a
    key is looked up at its first entry; [serde_json] keeps one per key).  A
    float is [mantissa * 2^exponent]: JSON has no infinities.

    The rendering and the parsing of JSON text are an interface ([JsonText]);
    [JsonTextLaws] is what serde_json documents of the pair. *)

From Stdlib Require Import ZArith Ascii String.
From stdpp Require Import countable.
From S2P Require Import Prelude RustStd.
#[local] Open Scope Z_scope.
#[local] Set Warnings "-register-all".

Inductive Number :=
| NInt (z : Z)
| NFloat (mantissa exponent : Z).

Inductive Value :=
| VNull
| VBool (b : bool)
| VNumber (n : Number)
| VString (s : string)
| VArray (l : list Value)
| VObject (entries : list (string * Value)).

(** [v.get(key)] *)
Definition get_field (key : string) (v : Value) : option Value :=
  match v with
  | VObject entries => snd <$> List.find (λ e, fst e =t? key) entries
  | _ => None
  end.
Definition as_i64_value (v : Value) : option Z :=
  match v with
  | VNumber (NInt z) => if (- 2 ^ 63 <=? z) && (z <? 2 ^ 63) then Some z else None
  | _ => None
  end.
Definition as_u64_value (v : Value) : option Z :=
  match v with
  | VNumber (NInt z) => if (0 <=? z) && (z <? 2 ^ 64) then Some z else None
  | _ => None
  end.
Definition as_str (v : Value) : option string := match v with VString s => Some s | _ => None end.
Definition as_bool (v : Value) : option bool := match v with VBool b => Some b | _ => None end.
Definition as_array (v : Value) : option (list Value) :=
  match v with VArray l => Some l | _ => None end.
Definition is_object (v : Value) : bool := match v with VObject _ => true | _ => false end.
Definition is_null (v : Value) : bool := match v with VNull => true | _ => false end.
(** [v.as_f64().is_some_and(|a| a.is_finite() && a > 0.0)] *)
Definition positive_amount (v : Value) : bool :=
  match v with
  | VNumber (NInt z) => 0 <? z
  | VNumber (NFloat m _) => 0 <? m
  | _ => false
  end.

Class JsonText : Type := {
  json_to_string : Value → string;
  json_from_str : string → option Value;
  number_to_string : Number → string;
}.

(** Values that serde_json writes and reads back unchanged with its default
    features: integers of 64 bits, no floats (their last bit may change), the
    keys of an object distinct and in order, and nested less than [depth]. *)
Fixpoint keys_sorted (ks : list string) : bool :=
  match ks with
  | k :: (k' :: _) as ks' => (k <t? k') && keys_sorted ks'
  | _ => true
  end.
Fixpoint plain (depth : nat) (v : Value) : bool :=
  match v with
  | VNull | VBool _ | VString _ => true
  | VNumber (NInt z) => (- 2 ^ 63 <=? z) && (z <? 2 ^ 64)
  | VNumber (NFloat _ _) => false
  | VArray l =>
    match depth with
    | O => false
    | S d => forallb (plain d) l
    end
  | VObject es =>
    match depth with
    | O => false
    | S d => keys_sorted (map fst es) && forallb (λ e, plain d (snd e)) es
    end
  end.
Definition json_depth : nat := 127.

Class JsonTextLaws `{JsonText} : Prop := {
  json_from_to : ∀ v, plain json_depth v = true → json_from_str (json_to_string v) = Some v;
}.

(** ** [odoo_rpc.rs] *)

Inductive RpcError :=
| Transport (m : string)
| Rpc (m : string)
| Business (m : string)
| Refused (code message : string)
| Protocol (m : string).

Definition is_retryable (e : RpcError) : bool :=
  match e with Business _ | Refused _ _ => false | _ => true end.
Definition refusal_code (e : RpcError) : option string :=
  match e with Refused code _ => Some code | _ => None end.
Definition rpc_error_to_string (e : RpcError) : string :=
  match e with
  | Transport m => "transport error: " +:+ m
  | Rpc m => "JSON-RPC error: " +:+ m
  | Business m => "Odoo refused: " +:+ m
  | Refused code m => "Odoo refused (" +:+ code +:+ "): " +:+ m
  | Protocol m => "unexpected response: " +:+ m
  end.

Definition value_shape (v : Value) : string :=
  match v with
  | VObject o => "object {" +:+ String.concat ", " (map fst o) +:+ "}"
  | VArray a => "array of " +:+ z_to_string (Z.of_nat (length a))
  | VString _ => "string"
  | VNumber _ => "number"
  | VBool _ => "bool"
  | VNull => "null"
  end.

Definition envelope (params : Value) : Value :=
  VObject [("jsonrpc", VString "2.0"); ("method", VString "call"); ("params", params)].

Definition BODY_EXCERPT_CHARS : nat := 300.
Inductive BodyExcerpt := Text | SizeOnly.
Definition excerpt (body : string) : string :=
  of_chars (take BODY_EXCERPT_CHARS (chars body))
  +:+ (if (BODY_EXCERPT_CHARS <? length (chars body))%nat then of_chars [8230] else "").
Definition body_excerpt (body : string) (mode : BodyExcerpt) : string :=
  match mode with
  | Text => excerpt body
  | SizeOnly => "<" +:+ z_to_string (Z.of_nat (String.length body)) +:+ " bytes, not logged>"
  end.

(** A name between double quotes. *)
Definition quoted (name : string) : string :=
  let q := of_chars [34] in q +:+ name +:+ q.

Section odoo.
Context `{JsonText}.

(** Odoo's empty texts read as absent. *)
Definition odoo_text (v : Value) : option string :=
  match v with
  | VString s => match trim (chars s) with [] => None | _ => Some s end
  | VNumber n => Some (number_to_string n)
  | _ => None
  end.

Definition rpc_error_text (err : Value) : string :=
  let message := default "" (get_field "message" err ≫= as_str) in
  let data := default "" ((get_field "data" err ≫= get_field "message") ≫= as_str) in
  let code := default "" (json_to_string <$> get_field "code" err) in
  match message =t? "", data =t? "" with
  | false, false => message +:+ ": " +:+ data +:+ " (code " +:+ code +:+ ")"
  | false, true => message +:+ " (code " +:+ code +:+ ")"
  | true, false => data +:+ " (code " +:+ code +:+ ")"
  | true, true => json_to_string err
  end.

(** [parse_error] stands for serde_json's message. *)
Definition parse_envelope_with (parse_error body : string) (mode : BodyExcerpt)
    : result RpcError Value :=
  match json_from_str body with
  | None => Err (Protocol ("not JSON (" +:+ parse_error +:+ "): " +:+ body_excerpt body mode))
  | Some v =>
    let err := match get_field "error" v with
               | Some e => if is_null e then None else Some e
               | None => None
               end in
    match err with
    | Some err => Err (Rpc (rpc_error_text err))
    | None =>
      match get_field "result" v with
      | None => Err (Protocol ("no " +:+ quoted "result" +:+ ": " +:+ body_excerpt body mode))
      | Some res =>
        match get_field "error" res ≫= odoo_text with
        | Some text => Err (Business text)
        | None => Ok res
        end
      end
    end
  end.

Definition require_ok (res : Value) : result RpcError Value :=
  match get_field "ok" res ≫= as_bool with
  | Some true => Ok res
  | Some false =>
    let err := get_field "error" res in
    let field name := default "" ((err ≫= get_field name) ≫= odoo_text) in
    let code := field "code" in
    Err (Refused (if code =t? "" then "unknown" else code) (field "message"))
  | None => Err (Protocol ("result without a boolean " +:+ quoted "ok" +:+ ": " +:+ value_shape res))
  end.
End odoo.

(** ** A concrete rendering

    The bits of the number of the value's tree: an instance of [JsonText] that
    satisfies [JsonTextLaws], on which definitions evaluate. *)
Module BitsJson.

Abbreviation leaf := (bool + Z + (Z * Z) + string)%type.

Fixpoint to_tree (v : Value) : gen_tree leaf :=
  match v with
  | VNull => GenNode 0 []
  | VBool b => GenLeaf (inl (inl (inl b)))
  | VNumber (NInt z) => GenLeaf (inl (inl (inr z)))
  | VNumber (NFloat m e) => GenLeaf (inl (inr (m, e)))
  | VString s => GenLeaf (inr s)
  | VArray l => GenNode 1 (map to_tree l)
  | VObject es => GenNode 2 (map (λ e, GenNode 3 [GenLeaf (inr (fst e)); to_tree (snd e)]) es)
  end.

Fixpoint of_tree (t : gen_tree leaf) : option Value :=
  match t with
  | GenNode 0 [] => Some VNull
  | GenLeaf (inl (inl (inl b))) => Some (VBool b)
  | GenLeaf (inl (inl (inr z))) => Some (VNumber (NInt z))
  | GenLeaf (inl (inr (m, e))) => Some (VNumber (NFloat m e))
  | GenLeaf (inr s) => Some (VString s)
  | GenNode 1 l => VArray <$> mapM of_tree l
  | GenNode 2 l =>
    VObject <$> mapM (λ t, match t with
                           | GenNode 3 [GenLeaf (inr k); v] => pair k <$> of_tree v
                           | _ => None
                           end) l
  | _ => None
  end.

Fixpoint bits_of (p : positive) : string :=
  match p with
  | xH => ""
  | xO p' => String "0"%char (bits_of p')
  | xI p' => String "1"%char (bits_of p')
  end.
Fixpoint of_bits (s : string) : option positive :=
  match s with
  | EmptyString => Some xH
  | String c s' =>
    if Ascii.eqb c "0"%char then xO <$> of_bits s'
    else if Ascii.eqb c "1"%char then xI <$> of_bits s'
    else None
  end.

#[export] Instance bits_json : JsonText := {
  json_to_string := λ v, bits_of (encode (to_tree v));
  json_from_str := λ s, (of_bits s ≫= decode) ≫= of_tree;
  number_to_string := λ n, match n with NInt z => z_to_string z | NFloat m e => z_to_string m end;
}.

Lemma of_bits_of p : of_bits (bits_of p) = Some p.
Proof. induction p as [p IH|p IH|]; simpl; rewrite ?IH; done. Qed.

Lemma of_to_tree v : of_tree (to_tree v) = Some v.
Proof.
  revert v. fix IH 1. intros [|b|[z|m e]|s|l|es]; try reflexivity; simpl.
  - assert (mapM of_tree (map to_tree l) = Some l) as ->; [|reflexivity].
    induction l as [|v l IHl]; simpl; [reflexivity|]. rewrite IH. simpl. rewrite IHl; reflexivity.
  - match goal with |- _ <$> ?x = _ => assert (x = Some es) as ->; [|reflexivity] end.
    induction es as [|[k v] es IHl]; simpl; [reflexivity|]. rewrite IH. simpl. rewrite IHl; reflexivity.
Qed.

#[export] Instance bits_json_laws : JsonTextLaws.
Proof.
  split. intros v _. simpl. rewrite of_bits_of. simpl. rewrite decode_encode. simpl.
  apply of_to_tree.
Qed.
End BitsJson.

(** [serde_json::Value ==] *)
#[export] Instance Value_eq_dec : EqDecision Value.
Proof.
  intros a b. destruct (decide (BitsJson.to_tree a = BitsJson.to_tree b)) as [E|E].
  - left. assert (Some a = Some b) as [= ->]; [|done].
    by rewrite <- (BitsJson.of_to_tree a), <- (BitsJson.of_to_tree b), E.
  - right. by intros ->.
Defined.
