(* ===== verification/DeviceApi.v ===== *)
(** * The device-job contract: jobs, acks, executors

    [src/crates/devbridge-client/src/device_jobs/]: [api.rs] (the jobs Odoo
    hands out, the acks it is sent, the reading of its answers),
    [executor.rs] (device kinds, outcomes, the registry and the checks before
    any device contact) and [report_offline.rs] (the report of a LAN job, whose
    parameters are built in [Journal.v] from the journal's row). *)

From Stdlib Require Import ZArith String.
From S2P Require Import Prelude RustStd Core Json.
#[local] Open Scope Z_scope.

(** ** [api.rs]: constants and jobs *)

Definition MAX_ACK_ERROR_CHARS : nat := 2000.
Definition MAX_ERROR_CODE_CHARS : nat := 64.
Definition CODE_INDETERMINATE : string := "indeterminate".
Definition CODE_NOT_RECEIVED : string := "not_received".
Definition REFUSED_TOO_EARLY : string := "too_early".
Definition REFUSED_AFTER_INDETERMINATE : string := "after_indeterminate".
Definition NOT_RECEIVED_TEXT : string :=
  "devbridge never received this job (the next response was lost) - nothing ran".
Definition PHASE_AUTHORIZED : string := "authorized".

Record DeviceJob := mkDeviceJob {
  dj_id : Z;
  dj_job_type : string;
  dj_client_uuid : string;
  dj_kasa_id : option Z;
  dj_kasa_name : string;
  dj_pos_order : Value;
  dj_payload : Value;
  dj_created_at : string;
  dj_claimed_at : string;
}.

Record Kasa := mkKasa { kasa_id : Z; kasa_name : string }.
Record NextReply := mkNextReply {
  nr_job : option DeviceJob; nr_wait_s : Z; nr_kasy : list Kasa;
}.
Record PendingJob := mkPendingJob {
  pd_id : Z; pd_job_type : string; pd_state : string; pd_client_uuid : string;
  pd_claimed_at : string;
}.
Record AckReply := mkAckReply { ar_duplicate : bool; ar_state : string }.

Inductive AckRequest :=
| AckDone (job_id : Z) (result : Value)
| AckFailed (job_id : Z) (code text : string)
| AckIndeterminate (job_id : Z) (reason : string)
| AckNotReceived (job_id : Z)
| AckAuthorized (job_id : Z) (result : Value).

Definition ack_job_id (a : AckRequest) : Z :=
  match a with
  | AckDone j _ | AckFailed j _ _ | AckIndeterminate j _ | AckNotReceived j
  | AckAuthorized j _ => j
  end.
Definition ack_kind (a : AckRequest) : string :=
  match a with
  | AckDone _ _ => "done"
  | AckFailed _ _ _ => "failed"
  | AckIndeterminate _ _ => CODE_INDETERMINATE
  | AckNotReceived _ => CODE_NOT_RECEIVED
  | AckAuthorized _ _ => PHASE_AUTHORIZED
  end.

(** ** [api.rs]: what an ack says *)

Definition result_object (res : Value) : Value :=
  if is_object res then res else VObject [("value", res)].

(** On the characters of the text. *)
Definition truncate_chars (cs : list Z) : list Z :=
  take MAX_ACK_ERROR_CHARS (List.filter (λ c, negb (c =? 0)) cs).
Definition truncate_error (text : string) : string := of_chars (truncate_chars (chars text)).

Definition code_char (c0 : Z) : Z :=
  let c := to_ascii_lowercase c0 in
  if is_ascii_lowercase c || is_ascii_digit c || (c =? 95) || (c =? 46) || (c =? 45)
  then c else 95.
Definition cleaned_code (code : string) : list Z :=
  map code_char (take MAX_ERROR_CODE_CHARS (trim (chars code))).
Definition sanitize_error_code (code : string) : string :=
  let cleaned := of_chars (cleaned_code code) in
  if cleaned =t? "" then "bridge_error"
  else if (cleaned =t? CODE_INDETERMINATE) || (cleaned =t? CODE_NOT_RECEIVED)
  then "device_" +:+ cleaned
  else cleaned.

Definition ack_params (a : AckRequest) : Value :=
  let id j := ("job_id", VNumber (NInt j)) in
  match a with
  | AckDone j res => VObject [id j; ("result", result_object res)]
  | AckFailed j code text =>
    VObject [id j; ("error", VString (truncate_error text));
             ("error_code", VString (sanitize_error_code code))]
  | AckIndeterminate j reason =>
    VObject [id j; ("error", VString (truncate_error reason));
             ("error_code", VString CODE_INDETERMINATE)]
  | AckNotReceived j =>
    VObject [id j; ("error", VString NOT_RECEIVED_TEXT);
             ("error_code", VString CODE_NOT_RECEIVED)]
  | AckAuthorized j res =>
    VObject [id j; ("phase", VString PHASE_AUTHORIZED); ("result", result_object res)]
  end.

(** ** [api.rs]: reading Odoo's answers *)

Definition positive_id (v : option Value) : option Z :=
  match v ≫= as_i64_value with
  | Some id => if 0 <? id then Some id else None
  | None => None
  end.

Section reading.
Context `{JsonText}.

Definition text_of (v : option Value) : string :=
  match v with
  | Some (VString s) => s
  | Some (VNumber n) => number_to_string n
  | _ => ""
  end.

Definition only_object (v : option Value) : option Value :=
  match v with Some o => if is_object o then Some o else None | None => None end.

Definition parse_job (v : Value) : result RpcError DeviceJob :=
  if negb (is_object v) then
    Err (Protocol ("next: job is not an object (" +:+ value_shape v +:+ ")"))
  else
    match positive_id (get_field "id" v) with
    | None => Err (Protocol ("next: job without a positive id (" +:+ value_shape v +:+ ")"))
    | Some id =>
      let kasa := only_object (get_field "kasa" v) in
      Ok {| dj_id := id;
            dj_job_type := text_of (get_field "type" v);
            dj_client_uuid := text_of (get_field "client_uuid" v);
            dj_kasa_id := positive_id (kasa ≫= get_field "id");
            dj_kasa_name := text_of (kasa ≫= get_field "name");
            dj_pos_order := default VNull (only_object (get_field "pos_order" v));
            dj_payload := default (VObject []) (get_field "payload" v);
            dj_created_at := text_of (get_field "created_at" v);
            dj_claimed_at := text_of (get_field "claimed_at" v) |}
    end.

Definition parse_kasy (v : option Value) : list Kasa :=
  match v ≫= as_array with
  | Some l =>
    omap (λ k, match positive_id (get_field "id" k) with
               | Some id => Some {| kasa_id := id; kasa_name := text_of (get_field "name" k) |}
               | None => None
               end) l
  | None => []
  end.

Definition parse_next (res : Value) : result RpcError NextReply :=
  match require_ok res with
  | Err e => Err e
  | Ok res =>
    let reply job :=
      {| nr_job := job; nr_wait_s := default 0 (get_field "wait_s" res ≫= as_u64_value);
         nr_kasy := parse_kasy (get_field "kasy" res) |} in
    match get_field "job" res with
    | None | Some VNull => Ok (reply None)
    | Some j => match parse_job j with Ok d => Ok (reply (Some d)) | Err e => Err e end
    end
  end.

(** The jobs, and the entries that cannot be answered. *)
Fixpoint parse_pending_list (l : list Value) : list PendingJob * list Value :=
  match l with
  | [] => ([], [])
  | j :: l' =>
    let '(jobs, skipped) := parse_pending_list l' in
    match positive_id (get_field "id" j) with
    | Some id =>
      ({| pd_id := id; pd_job_type := text_of (get_field "type" j);
          pd_state := text_of (get_field "state" j);
          pd_client_uuid := text_of (get_field "client_uuid" j);
          pd_claimed_at := text_of (get_field "claimed_at" j) |} :: jobs, skipped)
    | None => (jobs, j :: skipped)
    end
  end.
Definition parse_pending (res : Value) : result RpcError (list PendingJob * list Value) :=
  match require_ok res with
  | Err e => Err e
  | Ok res =>
    match get_field "jobs" res ≫= as_array with
    | None => Err (Protocol ("pending: no " +:+ quoted "jobs" +:+ " list (" +:+ value_shape res +:+ ")"))
    | Some l => Ok (parse_pending_list l)
    end
  end.

Definition parse_ack_reply (res : Value) : result RpcError AckReply :=
  match require_ok res with
  | Err e => Err e
  | Ok res =>
    Ok {| ar_duplicate := bool_decide ((get_field "duplicate" res ≫= as_bool) = Some true);
          ar_state := text_of (get_field "job" res ≫= get_field "state") |}
  end.

(** ** [report_offline.rs]: the reply *)

Record ReportReply := mkReportReply { rr_job_id : option Z; rr_created : bool }.

Definition parse_report_reply (res : Value) : result RpcError ReportReply :=
  let accepted :=
    match get_field "ok" res with
    | Some _ => require_ok res
    | None =>
      match positive_id (get_field "job_id" res) with
      | Some _ => Ok res
      | None => Err (Protocol ("report_offline result without " +:+ quoted "ok"
                  +:+ " and without a job_id: " +:+ value_shape res))
      end
    end in
  match accepted with
  | Err e => Err e
  | Ok res =>
    Ok {| rr_job_id := positive_id (get_field "job_id" res);
          rr_created := bool_decide ((get_field "created" res ≫= as_bool) = Some true) |}
  end.
End reading.

(** ** [executor.rs] *)

Inductive DeviceKind := Fiscal | Card.
#[export] Instance DeviceKind_eq_dec : EqDecision DeviceKind.
Proof. solve_decision. Defined.
Definition DeviceKind_ALL : list DeviceKind := [Fiscal; Card].

Definition for_job_type (job_type : string) : option DeviceKind :=
  if starts_with "fiscal." job_type then Some Fiscal
  else if starts_with "card." job_type then Some Card
  else None.
Definition kind_as_str (k : DeviceKind) : string :=
  match k with Fiscal => "fiscal" | Card => "card" end.
Definition status_key (k : DeviceKind) : string :=
  match k with Fiscal => "portos" | Card => "terminal" end.

Record DeviceQueue := mkDeviceQueue { dq_kind : DeviceKind; dq_endpoint : string }.
#[export] Instance DeviceQueue_eq_dec : EqDecision DeviceQueue.
Proof. solve_decision. Defined.
Definition queue_to_string (q : DeviceQueue) : string :=
  if dq_endpoint q =t? "" then kind_as_str (dq_kind q)
  else kind_as_str (dq_kind q) +:+ "@" +:+ dq_endpoint q.

Inductive Outcome :=
| Done (res : Value)
| OFailed (code text : string)
| Indeterminate (reason : string).
Definition outcome_label (o : Outcome) : string :=
  match o with
  | Done _ => "done" | OFailed _ _ => "failed" | Indeterminate _ => "indeterminate"
  end.

Inductive Reconciliation :=
| RDone (res : Value)
| RFailed (code text : string)
| StillUnknown (reason : string).

Definition CODE_UNSUPPORTED : string := "unsupported".
Definition CODE_BAD_AMOUNT : string := "bad_amount".
Definition CODE_EXPIRED_LOCAL : string := "expired_local".

Record Rejection := mkRejection { rj_code : string; rj_text : string }.

(** What the source asks of an executor without driving its device. *)
Record DeviceExecutor := mkExecutor {
  ex_name : string;
  ex_check : DeviceJob → option Rejection;
  ex_endpoints : list string;
  ex_endpoint : DeviceJob → string;
  ex_status : string;
}.
Definition ExecutorRegistry : Type := DeviceKind → option DeviceExecutor.

Definition register (kind : DeviceKind) (ex : DeviceExecutor) (reg : ExecutorRegistry)
    : result string ExecutorRegistry :=
  match reg kind with
  | Some existing => Err ("two executors for the " +:+ kind_as_str kind +:+ " device: "
                            +:+ ex_name existing +:+ " and " +:+ ex_name ex)
  | None => Ok (λ k, if bool_decide (k = kind) then Some ex else reg k)
  end.

Definition registry_queues (reg : ExecutorRegistry) : list DeviceQueue :=
  k ← DeviceKind_ALL;
  match reg k with
  | Some ex => mkDeviceQueue k <$> ex_endpoints ex
  | None => []
  end.
Definition queue_of (reg : ExecutorRegistry) (job : DeviceJob) : option DeviceQueue :=
  kind ← for_job_type (dj_job_type job);
  ex ← reg kind;
  Some (mkDeviceQueue kind (ex_endpoint ex job)).

Definition device_status (reg : ExecutorRegistry) : string :=
  String.concat "; " (map (λ k,
    status_key k +:+ "=" +:+ match reg k with Some ex => ex_status ex | None => "none" end)
    DeviceKind_ALL).

Definition bad_amount : Rejection :=
  {| rj_code := CODE_BAD_AMOUNT;
     rj_text := "card.purchase amount must be a finite number > 0 - the terminal was not contacted, nothing ran" |}.
Definition unsupported (job_type : string) : Rejection :=
  {| rj_code := CODE_UNSUPPORTED;
     rj_text := "devbridge has no executor for job type '" +:+ job_type
                  +:+ "' - no device was contacted, nothing ran" |}.

Definition validate (job : DeviceJob) (reg : ExecutorRegistry) : result Rejection DeviceKind :=
  let amount_ok := match get_field "amount" (dj_payload job) with
                   | Some a => positive_amount a | None => false end in
  if (dj_job_type job =t? "card.purchase") && negb amount_ok then Err bad_amount
  else
    match (k ← for_job_type (dj_job_type job); ex ← reg k; Some (k, ex)) with
    | Some (kind, ex) =>
      match ex_check ex job with
      | None => Ok kind
      | Some rejection => Err rejection
      end
    | None => Err (unsupported (dj_job_type job))
    end.
