(* ===== verification/JournalData.v ===== *)
(** * The device-job journal: tables and entries

    [journal.rs], [journal_lan.rs], [journal_card.rs], [journal_card_balance.rs]
    of [src/crates/devbridge-client/src/device_jobs]: the four tables of
    [device-journal.db], the states, and the [Table] record through which the
    state machine serves the Odoo jobs and the LAN jobs with the same code - as
    the source's [struct Table] does.  The columns both job tables share are a
    [Progress]. *)

From Stdlib Require Import ZArith String.
From S2P Require Import Prelude RustStd Core Sqlite Json DeviceApi.
#[local] Open Scope Z_scope.

Definition PRUNE_AFTER_DAYS : Z := 400.

Definition lan_job_id (row_id : Z) : Z := - row_id.
Definition is_lan_job (job_id : Z) : bool := job_id <? 0.

(** ** States *)

Inductive JState := Received | Executing | SDone | JFailed | SIndeterminate.
#[export] Instance JState_eq_dec : EqDecision JState.
Proof. solve_decision. Defined.

Definition jstate_as_str (s : JState) : string :=
  match s with
  | Received => "received" | Executing => "executing" | SDone => "done"
  | JFailed => "failed" | SIndeterminate => "indeterminate"
  end.
Definition jstate_parse (s : string) : option JState :=
  if s =t? "received" then Some Received
  else if s =t? "executing" then Some Executing
  else if s =t? "done" then Some SDone
  else if s =t? "failed" then Some JFailed
  else if s =t? "indeterminate" then Some SIndeterminate
  else None.
Definition is_final (s : JState) : bool :=
  match s with SDone | JFailed => true | _ => false end.

Inductive Report := RNone | ROwed | RSent.
#[export] Instance Report_eq_dec : EqDecision Report.
Proof. solve_decision. Defined.
Definition report_code (r : Report) : Z := match r with RNone => 0 | ROwed => 1 | RSent => 2 end.
Definition report_from_code (c : Z) : Report :=
  if c =? 1 then ROwed else if c =? 2 then RSent else RNone.

(** ** Rows *)

Record Progress := mkProgress {
  p_state : string;
  p_result : option string;
  p_error_code : option string;
  p_error_text : option string;
  p_attempts : Z;
  p_received_at : string;
  p_updated_at : string;
  p_contact_at : option string;
}.

Record OdooRow := mkOdooRow {
  o_job_id : Z;
  o_job_type : string;
  o_client_uuid : string;
  o_kasa_id : option Z;
  o_kasa_name : string;
  o_pos_order : string;
  o_payload : string;
  o_created_at : string;
  o_claimed_at : string;
  o_progress : Progress;
  o_acked : Z;
  o_ack_note : option string;
  o_report : Z;
}.

Record LanRow := mkLanRow {
  l_id : Z;
  l_kasa_id : Z;
  l_client_uuid : string;
  l_job_type : string;
  l_pos_order : string;
  l_payload : string;
  l_progress : Progress;
  l_reported : Z;
  l_report_note : option string;
  l_odoo_job_id : option Z;
}.

Record CardRow := mkCardRow {
  c_job_id : Z;
  c_terminal_ip : string;
  c_amount_minor : Z;
  c_baseline_seq : option Z;
  c_contact_at : string;
  c_authorized_at : option string;
  c_trans_seq : option Z;
  c_auth_result : option string;
  c_auth_ack : Z;
  c_auth_ack_note : option string;
  c_ended_at : option string;
  c_person_reason : option string;
  c_tx_type : Z;
  c_target_seq : option Z;
}.

Record BalanceRow := mkBalanceRow {
  b_id : Z;
  b_terminal_ip : string;
  b_local_date : string;
  b_source : string;
  b_job_id : option Z;
  b_contact_at : string;
  b_outcome : option string;
  b_result : option string;
}.

(** The database: the rows of each table, and the highest id AUTOINCREMENT
    handed out in the two tables that use it. *)
Record JTables := mkJTables {
  device_jobs : list OdooRow;
  lan_jobs : list LanRow;
  lan_seq : Z;
  card_payments : list CardRow;
  card_balances : list BalanceRow;
  balance_seq : Z;
}.

Definition Journal `{Chrono} : Type := Db JTables.
Definition JM `{Chrono} (A : Type) : Type := SqlM JTables A.

Definition put_device_jobs (rows : list OdooRow) (d : JTables) : JTables :=
  {| device_jobs := rows; lan_jobs := lan_jobs d; lan_seq := lan_seq d;
     card_payments := card_payments d; card_balances := card_balances d;
     balance_seq := balance_seq d |}.
Definition put_lan_jobs (rows : list LanRow) (d : JTables) : JTables :=
  {| device_jobs := device_jobs d; lan_jobs := rows; lan_seq := lan_seq d;
     card_payments := card_payments d; card_balances := card_balances d;
     balance_seq := balance_seq d |}.
Definition put_lan_seq (n : Z) (d : JTables) : JTables :=
  {| device_jobs := device_jobs d; lan_jobs := lan_jobs d; lan_seq := n;
     card_payments := card_payments d; card_balances := card_balances d;
     balance_seq := balance_seq d |}.
Definition put_cards (rows : list CardRow) (d : JTables) : JTables :=
  {| device_jobs := device_jobs d; lan_jobs := lan_jobs d; lan_seq := lan_seq d;
     card_payments := rows; card_balances := card_balances d; balance_seq := balance_seq d |}.
Definition put_balances (rows : list BalanceRow) (n : Z) (d : JTables) : JTables :=
  {| device_jobs := device_jobs d; lan_jobs := lan_jobs d; lan_seq := lan_seq d;
     card_payments := card_payments d; card_balances := rows; balance_seq := n |}.

Definition set_odoo (p : Progress) (acked : Z) (note : option string) (report : Z) (r : OdooRow)
    : OdooRow :=
  {| o_job_id := o_job_id r; o_job_type := o_job_type r; o_client_uuid := o_client_uuid r;
     o_kasa_id := o_kasa_id r; o_kasa_name := o_kasa_name r; o_pos_order := o_pos_order r;
     o_payload := o_payload r; o_created_at := o_created_at r; o_claimed_at := o_claimed_at r;
     o_progress := p; o_acked := acked; o_ack_note := note; o_report := report |}.
Definition set_lan (p : Progress) (reported : Z) (note : option string) (odoo : option Z)
    (r : LanRow) : LanRow :=
  {| l_id := l_id r; l_kasa_id := l_kasa_id r; l_client_uuid := l_client_uuid r;
     l_job_type := l_job_type r; l_pos_order := l_pos_order r; l_payload := l_payload r;
     l_progress := p; l_reported := reported; l_report_note := note; l_odoo_job_id := odoo |}.

(** ** [struct Table]: one journal table of the shared state machine *)

Record Table := mkTable {
  t_row : Type;
  t_name : string;
  t_rows : JTables → list t_row;
  t_put : list t_row → JTables → JTables;
  t_id : t_row → Z;
  t_progress : t_row → Progress;
  t_set : Progress → t_row → t_row;
  t_owe_outcome : t_row → t_row;
  t_owe_unknown : t_row → t_row;
}.

Definition ODOO_TABLE : Table := {|
  t_name := "device_jobs";
  t_rows := device_jobs; t_put := put_device_jobs; t_id := o_job_id; t_progress := o_progress;
  t_set := λ p r, set_odoo p (o_acked r) (o_ack_note r) (o_report r) r;
  (* acked = 0, ack_note = NULL *)
  t_owe_outcome := λ r, set_odoo (o_progress r) 0 None (o_report r) r;
  (* report = CASE WHEN report = 2 THEN 2 ELSE 1 END *)
  t_owe_unknown := λ r, set_odoo (o_progress r) (o_acked r) (o_ack_note r)
                          (if o_report r =? 2 then 2 else 1) r;
|}.
Definition LAN_TABLE : Table := {|
  t_name := "lan_jobs";
  t_rows := lan_jobs; t_put := put_lan_jobs; t_id := l_id; t_progress := l_progress;
  t_set := λ p r, set_lan p (l_reported r) (l_report_note r) (l_odoo_job_id r) r;
  (* reported = 0, report_note = NULL *)
  t_owe_outcome := λ r, set_lan (l_progress r) 0 None (l_odoo_job_id r) r;
  t_owe_unknown := λ r, r;
|}.

Definition locate (job_id : Z) : Table * Z :=
  if is_lan_job job_id then (LAN_TABLE, - job_id) else (ODOO_TABLE, job_id).

(** [UPDATE <table> SET f WHERE p] *)
Definition update_table (t : Table) (p : t_row t → bool) (f : t_row t → t_row t) (d : JTables)
    : JTables * Z :=
  let '(rows, n) := sql_update p f (t_rows t d) in (t_put t rows d, n).

(** ** Entries *)

Record JournalEntry := mkEntry {
  je_job : DeviceJob;
  je_state : JState;
  je_result : option Value;
  je_error_code : option string;
  je_error_text : option string;
  je_acked : bool;
  je_ack_note : option string;
  je_report : Report;
  je_attempts : Z;
  je_received_at : string;
  je_updated_at : string;
  je_contact_at : option string;
}.

Record LanJob := mkLanJob {
  lj_entry : JournalEntry;
  lj_reported : bool;
  lj_report_note : option string;
  lj_odoo_job_id : option Z;
}.
Definition lj_job_id (j : LanJob) : Z := dj_id (je_job (lj_entry j)).
Definition lj_state (j : LanJob) : JState := je_state (lj_entry j).
Definition report_owed (j : LanJob) : bool := is_final (lj_state j) && negb (lj_reported j).

Record CardPayment := mkCardPayment {
  cp_job_id : Z;
  cp_terminal_ip : string;
  cp_amount_minor : Z;
  cp_baseline_seq : option Z;
  cp_contact_at : string;
  cp_authorized_at : option string;
  cp_trans_seq : option Z;
  cp_auth_result : option Value;
  cp_auth_refused : bool;
  cp_ended_at : option string;
  cp_person_reason : option string;
  cp_tx_type : Z;
  cp_target_seq : option Z;
}.

Record CardBalance := mkCardBalance {
  cb_id : Z;
  cb_terminal_ip : string;
  cb_local_date : string;
  cb_source : string;
  cb_job_id : option Z;
  cb_contact_at : string;
  cb_outcome : option string;
  cb_result : option Value;
}.

Section entries.
Context `{JsonText}.

(** [Option<String>] of JSON text: the inner [None] is text that does not parse. *)
Definition optional_json (t : option string) : option (option Value) :=
  match t with
  | Some text => match json_from_str text with Some v => Some (Some v) | None => None end
  | None => Some None
  end.

(** [None]: an unknown state or text that is not JSON fails the whole read. *)
Definition row_to_entry (r : OdooRow) : option JournalEntry :=
  let p := o_progress r in
  st ← jstate_parse (p_state p);
  res ← optional_json (p_result p);
  pos_order ← json_from_str (o_pos_order r);
  payload ← json_from_str (o_payload r);
  Some {| je_job := {| dj_id := o_job_id r; dj_job_type := o_job_type r;
                       dj_client_uuid := o_client_uuid r; dj_kasa_id := o_kasa_id r;
                       dj_kasa_name := o_kasa_name r; dj_pos_order := pos_order;
                       dj_payload := payload; dj_created_at := o_created_at r;
                       dj_claimed_at := o_claimed_at r |};
          je_state := st; je_result := res; je_error_code := p_error_code p;
          je_error_text := p_error_text p; je_acked := negb (o_acked r =? 0);
          je_ack_note := o_ack_note r; je_report := report_from_code (o_report r);
          je_attempts := p_attempts p; je_received_at := p_received_at p;
          je_updated_at := p_updated_at p; je_contact_at := p_contact_at p |}.

Definition row_to_lan (r : LanRow) : option LanJob :=
  let p := l_progress r in
  st ← jstate_parse (p_state p);
  pos_order ← json_from_str (l_pos_order r);
  payload ← json_from_str (l_payload r);
  res ← optional_json (p_result p);
  Some {| lj_entry :=
            {| je_job := {| dj_id := lan_job_id (l_id r); dj_job_type := l_job_type r;
                            dj_client_uuid := l_client_uuid r; dj_kasa_id := Some (l_kasa_id r);
                            dj_kasa_name := ""; dj_pos_order := pos_order; dj_payload := payload;
                            dj_created_at := p_received_at p; dj_claimed_at := "" |};
               je_state := st; je_result := res; je_error_code := p_error_code p;
               je_error_text := p_error_text p; je_acked := negb (l_reported r =? 0);
               je_ack_note := l_report_note r; je_report := RNone; je_attempts := p_attempts p;
               je_received_at := p_received_at p; je_updated_at := p_updated_at p;
               je_contact_at := p_contact_at p |};
          lj_reported := negb (l_reported r =? 0); lj_report_note := l_report_note r;
          lj_odoo_job_id := l_odoo_job_id r |}.

Definition AUTH_OWED : Z := 1.
Definition AUTH_ACCEPTED : Z := 2.
Definition AUTH_REFUSED : Z := 3.

(** [auth_result] that does not parse reads as absent. *)
Definition row_to_card (r : CardRow) : CardPayment :=
  {| cp_job_id := c_job_id r; cp_terminal_ip := c_terminal_ip r;
     cp_amount_minor := c_amount_minor r; cp_baseline_seq := c_baseline_seq r;
     cp_contact_at := c_contact_at r; cp_authorized_at := c_authorized_at r;
     cp_trans_seq := c_trans_seq r; cp_auth_result := c_auth_result r ≫= json_from_str;
     cp_auth_refused := c_auth_ack r =? AUTH_REFUSED; cp_ended_at := c_ended_at r;
     cp_person_reason := c_person_reason r; cp_tx_type := c_tx_type r;
     cp_target_seq := c_target_seq r |}.

Definition row_to_balance (r : BalanceRow) : CardBalance :=
  {| cb_id := b_id r; cb_terminal_ip := b_terminal_ip r; cb_local_date := b_local_date r;
     cb_source := b_source r; cb_job_id := b_job_id r; cb_contact_at := b_contact_at r;
     cb_outcome := b_outcome r; cb_result := b_result r ≫= json_from_str |}.
End entries.

(** [JournalEntry::kind] *)
Definition entry_kind (e : JournalEntry) : option DeviceKind :=
  for_job_type (dj_job_type (je_job e)).

(** [JournalEntry::owed_ack] *)
Definition owed_ack (e : JournalEntry) : option AckRequest :=
  let job_id := dj_id (je_job e) in
  let text := default "" (je_error_text e) in
  match je_state e with
  | SDone => if je_acked e then None else Some (AckDone job_id (default VNull (je_result e)))
  | JFailed => if je_acked e then None
               else Some (AckFailed job_id (default "" (je_error_code e)) text)
  | SIndeterminate => if bool_decide (je_report e = ROwed)
                      then Some (AckIndeterminate job_id text) else None
  | Received | Executing => None
  end.
