(* ===== verification/JournalCard.v ===== *)
(** * Card payments and terminal balances of the journal

    [journal_card.rs] and [journal_card_balance.rs]: what is committed before
    and after a card terminal is asked, and the day closings. *)

From Stdlib Require Import ZArith String.
From S2P Require Import Prelude RustStd Core Sqlite Json DeviceApi JournalData.
#[local] Open Scope Z_scope.

Definition i64_max : Z := 2 ^ 63 - 1.

(** chrono's [DateTime::parse_from_rfc3339], with [with_timezone(&Utc)]. *)
Class Rfc3339 `{Chrono} : Type := {
  parse_from_rfc3339 : string → option DateTime;
}.

(** [query_row] / [query_map] whose row closure may fail. *)
Definition query_mapped `{Chrono} {T A} (ctx : string) (q : T → option A) : SqlM T A :=
  o ← query ctx q;
  match o with Some a => mret a | None => throw ctx end.

(** [SELECT MAX(..)] *)
Fixpoint max_z (l : list Z) : option Z :=
  match l with
  | [] => None
  | z :: l' => match max_z l' with Some m => Some (Z.max z m) | None => Some z end
  end.

(** [text LIKE 'prefix%']: ASCII letters compare case-insensitively. *)
Definition like_prefix (prefix text : string) : bool :=
  starts_with (ascii_lowercase prefix) (ascii_lowercase text).

Section cards.
Context `{Chrono} `{JsonText}.

Definition card_by_job (job_id : Z) (r : CardRow) : bool := c_job_id r =? job_id.
Definition odoo_by_id (job_id : Z) (r : OdooRow) : bool := o_job_id r =? job_id.

Definition update_cards (p : CardRow → bool) (f : CardRow → CardRow) (d : JTables)
    : JTables * Z :=
  let '(rows, n) := sql_update p f (card_payments d) in (put_cards rows d, n).

Definition set_card_auth (authorized : option string) (trans_seq : option Z)
    (result : option string) (ack : Z) (note : option string) (r : CardRow) : CardRow :=
  {| c_job_id := c_job_id r; c_terminal_ip := c_terminal_ip r;
     c_amount_minor := c_amount_minor r; c_baseline_seq := c_baseline_seq r;
     c_contact_at := c_contact_at r; c_authorized_at := authorized; c_trans_seq := trans_seq;
     c_auth_result := result; c_auth_ack := ack; c_auth_ack_note := note;
     c_ended_at := c_ended_at r; c_person_reason := c_person_reason r;
     c_tx_type := c_tx_type r; c_target_seq := c_target_seq r |}.
Definition set_card_end (ended person : option string) (r : CardRow) : CardRow :=
  {| c_job_id := c_job_id r; c_terminal_ip := c_terminal_ip r;
     c_amount_minor := c_amount_minor r; c_baseline_seq := c_baseline_seq r;
     c_contact_at := c_contact_at r; c_authorized_at := c_authorized_at r;
     c_trans_seq := c_trans_seq r; c_auth_result := c_auth_result r;
     c_auth_ack := c_auth_ack r; c_auth_ack_note := c_auth_ack_note r;
     c_ended_at := ended; c_person_reason := person;
     c_tx_type := c_tx_type r; c_target_seq := c_target_seq r |}.

(** The contact columns of the job row. *)
Definition set_contact (ts : string) (p : Progress) : Progress :=
  {| p_state := p_state p; p_result := p_result p; p_error_code := p_error_code p;
     p_error_text := p_error_text p; p_attempts := p_attempts p;
     p_received_at := p_received_at p; p_updated_at := ts; p_contact_at := Some ts |}.

Definition is_none {A} (o : option A) : bool := match o with None => true | Some _ => false end.

(** [card_contact_of]: both writes or none; [None] from the INSERT is the
    PRIMARY KEY. *)
Definition card_contact_of (job_id : Z) (terminal_ip : string) (amount_minor : Z)
    (baseline_seq : option Z) (tx_type : Z) (target_seq : option Z) : JM bool :=
  now ← utc_now;
  let ts := to_rfc3339 now in
  transaction "begin transaction"
    (marked ← execute "" (update_table ODOO_TABLE
       (λ r : OdooRow, odoo_by_id job_id r && is_none (p_contact_at (o_progress r))
                       && (p_state (o_progress r) =t? "executing"))
       (λ r : OdooRow, t_set ODOO_TABLE (set_contact ts (o_progress r)) r));
     if negb (marked =? 1) then mret (false, false)
     else
       _ ← execute_checked "" (λ d,
         if existsb (card_by_job job_id) (card_payments d) then None
         else Some (put_cards (card_payments d ++
           [{| c_job_id := job_id; c_terminal_ip := terminal_ip; c_amount_minor := amount_minor;
               c_baseline_seq := baseline_seq; c_contact_at := ts; c_authorized_at := None;
               c_trans_seq := None; c_auth_result := None; c_auth_ack := 0;
               c_auth_ack_note := None; c_ended_at := None; c_person_reason := None;
               c_tx_type := tx_type; c_target_seq := target_seq |}]) d, 1));
       _ ← commit ("journal: card contact of job " +:+ z_to_string job_id);
       mret (true, true)).
Definition card_contact (job_id : Z) (terminal_ip : string) (amount_minor : Z)
    (baseline_seq : option Z) : JM bool :=
  card_contact_of job_id terminal_ip amount_minor baseline_seq 1 None.

Definition card_authorized (job_id trans_seq : Z) (res : Value) : JM bool :=
  now ← utc_now;
  changed ← execute ("journal: card authorisation of job " +:+ z_to_string job_id)
    (update_cards (λ r, card_by_job job_id r && is_none (c_authorized_at r))
       (λ r, set_card_auth (Some (to_rfc3339 now)) (Some trans_seq) (Some (json_to_string res))
               AUTH_OWED (c_auth_ack_note r) r));
  mret (changed =? 1).

Definition card_transacted (job_id trans_seq : Z) : JM bool :=
  changed ← execute ("journal: card transaction of job " +:+ z_to_string job_id)
    (update_cards (λ r, card_by_job job_id r && is_none (c_trans_seq r))
       (λ r, set_card_auth (c_authorized_at r) (Some trans_seq) (c_auth_result r)
               (c_auth_ack r) (c_auth_ack_note r) r));
  mret (changed =? 1).

(** The state of the job row a card row joins with. *)
Definition joined_state (d : JTables) (c : CardRow) : option string :=
  p_state ∘ o_progress <$> List.find (odoo_by_id (c_job_id c)) (device_jobs d).

Definition other_reversal (terminal_ip : string) (target_seq job_id : Z) (d : JTables)
    (c : CardRow) : bool :=
  (c_terminal_ip c =t? terminal_ip) && (c_tx_type c =? 3)
  && bool_decide (c_target_seq c = Some target_seq) && negb (c_job_id c =? job_id)
  && match joined_state d c with Some st => negb (st =t? "failed") | None => false end.

Definition card_other_reversal (terminal_ip : string) (target_seq job_id : Z)
    : JM (option (Z * JState)) :=
  query "journal: other reversal of a trans_seq" (λ d,
    match order_by_id c_job_id
            (List.filter (other_reversal terminal_ip target_seq job_id d) (card_payments d)) with
    | c :: _ => Some (c_job_id c, default SIndeterminate (joined_state d c ≫= jstate_parse))
    | [] => None
    end).

Definition newest_payment (terminal_ip : string) (trans_seq : Z) (d : JTables) : option Z :=
  max_z (map c_job_id (List.filter (λ c, (c_terminal_ip c =t? terminal_ip)
    && bool_decide (c_trans_seq c = Some trans_seq)
    && ((c_tx_type c =? 1) || (c_tx_type c =? 2))) (card_payments d))).

Definition card_balance_since_payment (terminal_ip : string) (trans_seq : Z) : JM bool :=
  _ ← engine "";
  query "journal: balance since a payment" (λ d,
    match newest_payment terminal_ip trans_seq d with
    | None => false
    | Some j => existsb (λ p, card_by_job j p &&
        existsb (λ b, (b_terminal_ip b =t? c_terminal_ip p) && null_eq (b_outcome b) "done"
                      && String.leb (c_contact_at p) (b_contact_at b)) (card_balances d))
        (card_payments d)
    end).

Definition card_ended (job_id : Z) : JM bool :=
  now ← utc_now;
  changed ← execute ("journal: card end of job " +:+ z_to_string job_id)
    (update_cards (card_by_job job_id)
       (λ r, set_card_end (Some (to_rfc3339 now)) (c_person_reason r) r));
  mret (changed =? 1).

Definition card_for_person (job_id : Z) (reason : string) : JM bool :=
  changed ← execute ("journal: card job " +:+ z_to_string job_id +:+ " for a person")
    (update_cards (λ r, card_by_job job_id r && is_none (c_person_reason r))
       (λ r, set_card_end (c_ended_at r) (Some reason) r));
  mret (changed =? 1).

Definition card_payment (job_id : Z) : JM (option CardPayment) :=
  query ("journal: read card job " +:+ z_to_string job_id) (λ d,
    row_to_card <$> List.find (card_by_job job_id) (card_payments d)).

Definition card_last_seq (terminal_ip : string) : JM (option Z) :=
  query "journal: last card trans_seq" (λ d,
    max_z (omap c_trans_seq
      (List.filter (λ c, c_terminal_ip c =t? terminal_ip) (card_payments d)))).

(** Every pair (other payment's contact, own contact) on the terminal. *)
Definition contact_pairs (job_id : Z) (d : JTables) : list (string * string) :=
  own ← List.filter (card_by_job job_id) (card_payments d);
  other ← List.filter (λ o, (c_terminal_ip o =t? c_terminal_ip own)
                            && negb (c_job_id o =? c_job_id own)) (card_payments d);
  mret (c_contact_at other, c_contact_at own).
Definition card_later_on_terminal `{!Rfc3339} (job_id : Z) : JM bool :=
  _ ← engine "";
  pairs ← query ("journal: later payment than job " +:+ z_to_string job_id) (contact_pairs job_id);
  mret (existsb (λ '(other, own),
    match parse_from_rfc3339 other, parse_from_rfc3339 own with
    | Some o, Some c => datetime_leb c o
    | _, _ => true
    end) pairs).

Definition owed_card_auth (d : JTables) (c : CardRow) : bool :=
  (c_auth_ack c =? AUTH_OWED)
  && match joined_state d c with Some st => st =t? "executing" | None => false end
  && negb (is_none (c_auth_result c)).
Definition owed_card_auth_acks : JM (list AckRequest) :=
  _ ← engine "";
  query "" (λ d,
    map (λ c, AckAuthorized (c_job_id c)
                (default VNull (c_auth_result c ≫= json_from_str)))
      (order_by_id c_job_id (List.filter (owed_card_auth d) (card_payments d)))).

Definition mark_card_auth_acked (job_id : Z) (note : string) : JM bool :=
  let st := if starts_with "refused:" note then AUTH_REFUSED else AUTH_ACCEPTED in
  changed ← execute ("journal: card auth ack of job " +:+ z_to_string job_id)
    (update_cards (λ r, card_by_job job_id r && (c_auth_ack r =? AUTH_OWED))
       (λ r, set_card_auth (c_authorized_at r) (c_trans_seq r) (c_auth_result r) st (Some note) r));
  mret (changed =? 1).

Definition prune_card_payments : JM Z :=
  execute "" (λ d,
    let '(rows, n) := sql_delete
      (λ c, negb (existsb (odoo_by_id (c_job_id c)) (device_jobs d))) (card_payments d) in
    (put_cards rows d, n)).

(** ** Balances *)

Definition SOURCE_JOB : string := "job".
Definition SOURCE_SAFETY : string := "safety".

Definition balance_by_id (id : Z) (r : BalanceRow) : bool := b_id r =? id.

(** The partial UNIQUE index: one safety balance per terminal and day. *)
Definition same_safety (terminal_ip local_date : string) (r : BalanceRow) : bool :=
  (b_source r =t? SOURCE_SAFETY) && (b_terminal_ip r =t? terminal_ip)
  && (b_local_date r =t? local_date).

(** [INSERT OR IGNORE] and [last_insert_rowid] on the same locked connection. *)
Definition card_balance_contact (terminal_ip local_date source : string) (job_id : option Z)
    : JM (option Z) :=
  now ← utc_now;
  inserted ← execute_checked ("journal: balance contact of " +:+ terminal_ip) (λ d,
    if (source =t? SOURCE_SAFETY) && existsb (same_safety terminal_ip local_date) (card_balances d)
    then Some (d, 0)
    else if balance_seq d <? i64_max
    then Some (put_balances (card_balances d ++
           [{| b_id := balance_seq d + 1; b_terminal_ip := terminal_ip;
               b_local_date := local_date; b_source := source; b_job_id := job_id;
               b_contact_at := to_rfc3339 now; b_outcome := None; b_result := None |}])
           (balance_seq d + 1) d, 1)
    else None);
  last ← gets (λ s, balance_seq (conn s));
  mret (if inserted =? 1 then Some last else None).

Definition update_balances (p : BalanceRow → bool) (f : BalanceRow → BalanceRow) (d : JTables)
    : JTables * Z :=
  let '(rows, n) := sql_update p f (card_balances d) in (put_balances rows (balance_seq d) d, n).
Definition set_balance_outcome (outcome res : string) (r : BalanceRow) : BalanceRow :=
  {| b_id := b_id r; b_terminal_ip := b_terminal_ip r; b_local_date := b_local_date r;
     b_source := b_source r; b_job_id := b_job_id r; b_contact_at := b_contact_at r;
     b_outcome := Some outcome; b_result := Some res |}.

Definition card_balance_outcome (id : Z) (outcome : string) (res : Value) : JM bool :=
  changed ← execute ("journal: balance " +:+ z_to_string id +:+ " outcome")
    (update_balances (balance_by_id id) (set_balance_outcome outcome (json_to_string res)));
  mret (changed =? 1).

Definition card_balance_forget (id : Z) : JM bool :=
  changed ← execute ("journal: forget balance " +:+ z_to_string id) (λ d,
    let '(rows, n) := sql_delete (balance_by_id id) (card_balances d) in
    (put_balances rows (balance_seq d) d, n));
  mret (changed =? 1).

Definition settles_day (terminal_ip local_date : string) (r : BalanceRow) : bool :=
  (b_terminal_ip r =t? terminal_ip) && (b_local_date r =t? local_date)
  && ((b_source r =t? SOURCE_SAFETY) || null_eq (b_outcome r) "done").
Definition card_balance_ran (terminal_ip local_date : string) : JM bool :=
  _ ← engine "";
  query "journal: balance of the day" (λ d,
    existsb (settles_day terminal_ip local_date) (card_balances d)).

Definition card_balances_of (terminal_ip : string) : JM (list CardBalance) :=
  _ ← engine "";
  query "journal: balances" (λ d, map row_to_balance (order_by_id b_id
    (List.filter (λ r, b_terminal_ip r =t? terminal_ip) (card_balances d)))).

Definition card_balance_of_job (job_id : Z) : JM (option CardBalance) :=
  query "journal: balance of a job" (λ d,
    row_to_balance <$> List.find (λ r, bool_decide (b_job_id r = Some job_id)) (card_balances d)).

Definition card_later_shift_job (job_id : Z) (kasa : option Z) : JM bool :=
  _ ← engine "";
  query "journal: later shift job" (λ d,
    existsb (λ r, bool_decide (o_kasa_id r = kasa) && (job_id <? o_job_id r)
                  && text_in (o_job_type r) ["card.activate"; "card.deactivate"])
      (device_jobs d)).

Definition days_ago (now : DateTime) (days : Z) : DateTime := minus_secs now (days * 86400).

Definition prune_card_balances : JM Z :=
  now ← utc_now;
  execute "" (λ d,
    let '(rows, n) := sql_delete
      (λ b, b_contact_at b <t? to_rfc3339 (days_ago now PRUNE_AFTER_DAYS)) (card_balances d) in
    (put_balances rows (balance_seq d) d, n)).
End cards.
