(* ===== verification/Journal.v ===== *)
(** * The device-job journal: its operations

    [journal.rs] and [journal_lan.rs] of
    [src/crates/devbridge-client/src/device_jobs], with
    [Journal::card_job_by_uuid] of [journal_card.rs] and the report parameters
    of [report_offline.rs].  Each operation is the sequence of statements the
    source runs; a statement that fails changes nothing. *)

From Stdlib Require Import ZArith String.
From S2P Require Import Prelude RustStd Core Sqlite Json DeviceApi JournalData JournalCard.
#[local] Open Scope Z_scope.

(** ** Changes of a row *)

Definition OPEN_JOB_STATES : list string := ["received"; "executing"; "indeterminate"].
Definition FINAL_JOB_STATES : list string := ["done"; "failed"].
Definition IN_FLIGHT_JOB_STATES : list string := ["received"; "executing"].

Definition new_progress (st : string) (code text : option string) (ts : string) : Progress :=
  {| p_state := st; p_result := None; p_error_code := code; p_error_text := text;
     p_attempts := 0; p_received_at := ts; p_updated_at := ts; p_contact_at := None |}.
Definition set_outcome (st : string) (res code text : option string) (ts : string) (p : Progress)
    : Progress :=
  {| p_state := st; p_result := res; p_error_code := code; p_error_text := text;
     p_attempts := p_attempts p; p_received_at := p_received_at p; p_updated_at := ts;
     p_contact_at := p_contact_at p |}.
Definition set_attempts (n : Z) (text : option string) (ts : string) (p : Progress) : Progress :=
  {| p_state := p_state p; p_result := p_result p; p_error_code := p_error_code p;
     p_error_text := text; p_attempts := n; p_received_at := p_received_at p;
     p_updated_at := ts; p_contact_at := p_contact_at p |}.
Definition touch (ts : string) (p : Progress) : Progress :=
  set_outcome (p_state p) (p_result p) (p_error_code p) (p_error_text p) ts p.

(** [WHERE id = ?1 AND state IN (..)] *)
Definition row_in (t : Table) (row : Z) (states : list string) (r : t_row t) : bool :=
  (t_id t r =? row) && text_in (p_state (t_progress t r)) states.
Definition on_progress (t : Table) (f : Progress → Progress) (r : t_row t) : t_row t :=
  t_set t (f (t_progress t r)) r.

Inductive Inserted := New | Known (entry : JournalEntry).
Inductive LanInserted := LanNew (job_id : Z) | LanKnown (job : LanJob).

(** [Option<Row>] through a row closure that may fail. *)
Definition read_row {A B} (f : A → option B) (o : option A) : option (option B) :=
  match o with
  | None => Some None
  | Some r => match f r with Some b => Some (Some b) | None => None end
  end.

Section journal.
Context `{Chrono} `{JsonText}.

Definition now_text : JM string := now ← utc_now; mret (to_rfc3339 now).

(** ** Reading one job *)

Definition lan_job (kasa : Z) (uuid : string) : JM (option LanJob) :=
  query_mapped ("journal: read LAN job (till " +:+ z_to_string kasa +:+ ", " +:+ uuid +:+ ")")
    (λ d, read_row row_to_lan
       (List.find (λ r, (l_kasa_id r =? kasa) && (l_client_uuid r =t? uuid)) (lan_jobs d))).

Definition lan_job_by_id (job_id : Z) : JM (option LanJob) :=
  query_mapped ("journal: read LAN job " +:+ z_to_string job_id)
    (λ d, read_row row_to_lan (List.find (λ r, l_id r =? lan_job_id job_id) (lan_jobs d))).

Definition get (job_id : Z) : JM (option JournalEntry) :=
  if is_lan_job job_id then
    lan ← lan_job_by_id job_id;
    mret (lj_entry <$> lan)
  else
    query_mapped ("journal: read job " +:+ z_to_string job_id)
      (λ d, read_row row_to_entry (List.find (odoo_by_id job_id) (device_jobs d))).

(** ** Journaling a job *)

Definition job_to_row (job : DeviceJob) (p : Progress) : OdooRow :=
  {| o_job_id := dj_id job; o_job_type := dj_job_type job; o_client_uuid := dj_client_uuid job;
     o_kasa_id := dj_kasa_id job; o_kasa_name := dj_kasa_name job;
     o_pos_order := json_to_string (dj_pos_order job);
     o_payload := json_to_string (dj_payload job);
     o_created_at := dj_created_at job; o_claimed_at := dj_claimed_at job;
     o_progress := p; o_acked := 0; o_ack_note := None; o_report := 0 |}.

(** [INSERT OR IGNORE]: a row of that id stays as it is. *)
Definition insert_job_row (row : OdooRow) (d : JTables) : JTables * Z :=
  if existsb (odoo_by_id (o_job_id row)) (device_jobs d) then (d, 0)
  else (put_device_jobs (device_jobs d ++ [row]) d, 1).

Definition insert (job : DeviceJob) (refused : option (string * string)) : JM Inserted :=
  ts ← now_text;
  let p := match refused with
           | Some (code, text) => new_progress "failed" (Some code) (Some text) ts
           | None => new_progress "received" None None ts
           end in
  changed ← execute ("journal: insert job " +:+ z_to_string (dj_id job))
              (insert_job_row (job_to_row job p));
  if changed =? 1 then mret New
  else
    known ← get (dj_id job);
    match known with
    | Some entry => mret (Known entry)
    | None => throw ("journal: job " +:+ z_to_string (dj_id job)
                       +:+ " neither inserted nor present")
    end.
Definition insert_received (job : DeviceJob) : JM Inserted := insert job None.
Definition insert_refused (job : DeviceJob) (code text : string) : JM Inserted :=
  insert job (Some (code, text)).

Definition lan_row (id kasa : Z) (job : DeviceJob) (ts : string) : LanRow :=
  {| l_id := id; l_kasa_id := kasa; l_client_uuid := dj_client_uuid job;
     l_job_type := dj_job_type job; l_pos_order := json_to_string (dj_pos_order job);
     l_payload := json_to_string (dj_payload job);
     l_progress := new_progress "received" None None ts;
     l_reported := 0; l_report_note := None; l_odoo_job_id := None |}.
Definition same_key (kasa : Z) (uuid : string) (r : LanRow) : bool :=
  (l_kasa_id r =? kasa) && (l_client_uuid r =t? uuid).
(** [INSERT OR IGNORE] under [UNIQUE (kasa_id, client_uuid)]; the id is
    AUTOINCREMENT, which fails when no larger id is left. *)
Definition insert_lan_row (kasa : Z) (job : DeviceJob) (ts : string) (d : JTables)
    : option (JTables * Z) :=
  if existsb (same_key kasa (dj_client_uuid job)) (lan_jobs d) then Some (d, 0)
  else if lan_seq d <? i64_max then
    let id := lan_seq d + 1 in
    Some (put_lan_seq id (put_lan_jobs (lan_jobs d ++ [lan_row id kasa job ts]) d), 1)
  else None.

Definition insert_lan_received (job : DeviceJob) : JM LanInserted :=
  match dj_kasa_id job with
  | None => throw "journal: a LAN API job must name its till"
  | Some kasa =>
    ts ← now_text;
    changed ← execute_checked ("journal: insert LAN job (till " +:+ z_to_string kasa
                +:+ ", client_uuid " +:+ dj_client_uuid job +:+ ")") (insert_lan_row kasa job ts);
    (* last_insert_rowid, on the same locked connection *)
    rowid ← gets (λ s, lan_seq (conn s));
    if changed =? 1 then mret (LanNew (lan_job_id rowid))
    else
      known ← lan_job kasa (dj_client_uuid job);
      match known with
      | Some j => mret (LanKnown j)
      | None => throw ("journal: LAN job (till " +:+ z_to_string kasa +:+ ", client_uuid "
                         +:+ dj_client_uuid job +:+ ") neither inserted nor present")
      end
  end.

(** ** The state machine *)

(** [UPDATE .. WHERE id = ?1 AND state IN (..)]: [true] = the row changed. *)
Definition update_row (ctx : string) (t : Table) (row : Z) (states : list string)
    (f : t_row t → t_row t) : JM bool :=
  changed ← execute ctx (update_table t (row_in t row states) f);
  mret (changed =? 1).

Definition start_execution (job_id : Z) : JM bool :=
  let '(t, row) := locate job_id in
  ts ← now_text;
  update_row ("journal: start execution of job " +:+ z_to_string job_id) t row ["received"]
    (on_progress t (λ p,
       set_outcome "executing" (p_result p) (p_error_code p) (p_error_text p) ts p)).

Definition record_outcome (job_id : Z) (outcome : Outcome) : JM bool :=
  ts ← now_text;
  let '(t, row) := locate job_id in
  update_row ("journal: record " +:+ outcome_label outcome +:+ " for job " +:+ z_to_string job_id)
    t row OPEN_JOB_STATES
    (match outcome with
     | Done res => λ r, t_owe_outcome t
         (on_progress t (set_outcome "done" (Some (json_to_string res)) None None ts) r)
     | OFailed code text => λ r, t_owe_outcome t
         (on_progress t (set_outcome "failed" None (Some code) (Some text) ts) r)
     | Indeterminate reason => λ r, t_owe_unknown t
         (on_progress t (λ p,
            set_outcome "indeterminate" (p_result p) (p_error_code p) (Some reason) ts p) r)
     end).

Definition fail_unstarted (job_id : Z) (code text : string) : JM bool :=
  let '(t, row) := locate job_id in
  ts ← now_text;
  update_row ("journal: fail unstarted job " +:+ z_to_string job_id) t row ["received"]
    (λ r, t_owe_outcome t
       (on_progress t (λ p, set_outcome "failed" (p_result p) (Some code) (Some text) ts p) r)).

Definition mark_device_contact (job_id : Z) : JM bool :=
  ts ← now_text;
  let '(t, row) := locate job_id in
  changed ← execute ("journal: mark device contact of job " +:+ z_to_string job_id)
    (update_table t (λ r, (t_id t r =? row) && is_none (p_contact_at (t_progress t r)))
       (on_progress t (set_contact ts)));
  mret (changed =? 1).

Definition record_still_unknown (job_id : Z) (reason : string) : JM bool :=
  let '(t, row) := locate job_id in
  ts ← now_text;
  update_row ("journal: record still-unknown for job " +:+ z_to_string job_id) t row
    ["indeterminate"]
    (λ r, t_owe_unknown t
       (on_progress t (λ p, set_attempts (p_attempts p + 1) (Some reason) ts p) r)).

(** ** Startup recovery *)

Definition in_flight (t : Table) (r : t_row t) : bool :=
  text_in (p_state (t_progress t r)) IN_FLIGHT_JOB_STATES.
(** [error_text = '..' || state, state = 'indeterminate']: the expressions
    read the old row. *)
Definition recovered (ts : string) (p : Progress) : Progress :=
  set_outcome "indeterminate" (p_result p) (p_error_code p)
    (Some ("devbridge restarted while the job was " +:+ p_state p)) ts p.
Definition in_flight_of (t : Table) (lan : bool) (d : JTables) : list (Z * JState) :=
  map (λ r, (if lan then lan_job_id (t_id t r) else t_id t r,
             default Executing (jstate_parse (p_state (t_progress t r)))))
    (order_by_id (t_id t) (List.filter (in_flight t) (t_rows t d))).

(** One table of the recovery; the statement is prepared, run and read. *)
Definition recover_table (ts : string) (t : Table) (lan : bool) : JM (list (Z * JState)) :=
  _ ← engine "";
  rows ← query "" (in_flight_of t lan);
  _ ← execute "" (update_table t (in_flight t) (on_progress t (recovered ts)));
  mret rows.
Definition recover_after_restart : JM (list (Z * JState)) :=
  transaction ""
    (ts ← now_text;
     odoo ← recover_table ts ODOO_TABLE false;
     lan ← recover_table ts LAN_TABLE true;
     _ ← commit "journal: commit restart recovery";
     mret (true, odoo ++ lan)).

(** ** Acks and reports *)

Definition ack_owed_row (r : OdooRow) : bool :=
  (text_in (p_state (o_progress r)) FINAL_JOB_STATES && (o_acked r =? 0))
  || ((p_state (o_progress r) =t? "indeterminate") && (o_report r =? 1)).
Definition owed_acks : JM (list AckRequest) :=
  acks ← owed_card_auth_acks;
  _ ← engine "";
  rows ← query_mapped "" (λ d,
    mapM row_to_entry (order_by_id o_job_id (List.filter ack_owed_row (device_jobs d))));
  mret (acks ++ omap owed_ack rows).

Definition mark_acked (job_id : Z) (note : string) : JM bool :=
  ts ← now_text;
  update_row ("journal: mark job " +:+ z_to_string job_id +:+ " acked") ODOO_TABLE job_id
    FINAL_JOB_STATES (λ r : OdooRow, set_odoo (touch ts (o_progress r)) 1 (Some note) (o_report r) r).

Definition mark_reported (job_id : Z) : JM bool :=
  ts ← now_text;
  update_row ("journal: mark job " +:+ z_to_string job_id +:+ " reported") ODOO_TABLE job_id
    ["indeterminate"]
    (λ r : OdooRow, set_odoo (touch ts (o_progress r)) (o_acked r) (o_ack_note r) 2 r).

Definition reopen_ack (job_id : Z) : JM bool :=
  ts ← now_text;
  changed ← execute ("journal: reopen ack of job " +:+ z_to_string job_id)
    (update_table ODOO_TABLE
       (λ r : OdooRow, row_in ODOO_TABLE job_id FINAL_JOB_STATES r && (o_acked r =? 1))
       (λ r : OdooRow, set_odoo (touch ts (o_progress r)) 0 (o_ack_note r) (o_report r) r));
  mret (changed =? 1).

Definition lan_indeterminate : JM (list JournalEntry) :=
  _ ← engine "";
  rows ← query_mapped "" (λ d, mapM row_to_lan (order_by_id l_id
    (List.filter (λ r, p_state (l_progress r) =t? "indeterminate") (lan_jobs d))));
  mret (map lj_entry rows).

Definition indeterminate : JM (list JournalEntry) :=
  _ ← engine "";
  rows ← query_mapped "" (λ d, mapM row_to_entry (order_by_id o_job_id
    (List.filter (λ r, p_state (o_progress r) =t? "indeterminate") (device_jobs d))));
  lan ← lan_indeterminate;
  mret (rows ++ lan).

Definition unreported (r : LanRow) : bool :=
  text_in (p_state (l_progress r)) FINAL_JOB_STATES && (l_reported r =? 0).
Definition owed_lan_reports : JM (list LanJob) :=
  _ ← engine "";
  rows ← query_mapped "" (λ d,
    mapM row_to_lan (order_by_id l_id (List.filter unreported (lan_jobs d))));
  mret (List.filter report_owed rows).

Definition unreported_lan_jobs : JM Z :=
  query "journal: count unreported LAN jobs" (λ d,
    Z.of_nat (List.length (List.filter unreported (lan_jobs d)))).

(** [COALESCE(?2, odoo_job_id)] *)
Definition coalesce {A} (a b : option A) : option A := match a with Some _ => a | None => b end.
Definition mark_lan_reported (job_id : Z) (odoo_id : option Z) (note : string) : JM bool :=
  update_row ("journal: mark LAN job " +:+ z_to_string job_id +:+ " reported") LAN_TABLE
    (lan_job_id job_id) FINAL_JOB_STATES
    (λ r : LanRow, set_lan (l_progress r) 1 (Some note) (coalesce odoo_id (l_odoo_job_id r)) r).

(** ** Pruning *)

Definition not_refused (note : option string) : bool :=
  match note with Some n => negb (like_prefix "refused:" n) | None => true end.
Definition old_final (cutoff : string) (p : Progress) : bool :=
  text_in (p_state p) FINAL_JOB_STATES && (p_updated_at p <t? cutoff).
Definition prunable_odoo (cutoff : string) (r : OdooRow) : bool :=
  (o_acked r =? 1) && old_final cutoff (o_progress r) && not_refused (o_ack_note r).
Definition prunable_lan (cutoff : string) (r : LanRow) : bool :=
  (l_reported r =? 1) && old_final cutoff (l_progress r) && not_refused (l_report_note r).

Definition prune : JM Z :=
  now ← utc_now;
  let cutoff := to_rfc3339 (days_ago now PRUNE_AFTER_DAYS) in
  odoo ← execute "" (λ d,
    let '(rows, n) := sql_delete (prunable_odoo cutoff) (device_jobs d) in
    (put_device_jobs rows d, n));
  lan ← execute "" (λ d,
    let '(rows, n) := sql_delete (prunable_lan cutoff) (lan_jobs d) in (put_lan_jobs rows d, n));
  _ ← prune_card_payments;
  _ ← prune_card_balances;
  mret (odoo + lan).

(** ** [Journal::card_job_by_uuid] *)

Definition till_card_job (kasa : Z) (uuid : string) (r : OdooRow) : bool :=
  bool_decide (o_kasa_id r = Some kasa) && (o_client_uuid r =t? uuid)
  && like_prefix "card." (o_job_type r)
  && negb (text_in (o_job_type r)
             ["card.commit"; "card.rollback"; "card.activate"; "card.deactivate"]).
Definition card_job_by_uuid (kasa : Z) (uuid : string)
    : JM (option (JournalEntry * option CardPayment)) :=
  newest ← query ("journal: card job (till " +:+ z_to_string kasa +:+ ", " +:+ uuid +:+ ")")
    (λ d, max_z (map o_job_id (List.filter (till_card_job kasa uuid) (device_jobs d))));
  match newest with
  | None => mret None
  | Some job_id =>
    entry ← get job_id;
    match entry with
    | None => mret None
    | Some e => card ← card_payment job_id; mret (Some (e, card))
    end
  end.
End journal.

(** ** [report_offline.rs]: what is reported *)

(** chrono's [format("%Y-%m-%dT%H:%M:%SZ")]. *)
Class ReportTime `{Chrono} : Type := {
  format_seconds : DateTime → string;
}.

Section report.
Context `{Chrono} `{!Rfc3339} `{!ReportTime}.

Definition executed_at (journal_ts : string) : string :=
  match parse_from_rfc3339 journal_ts with
  | Some t => format_seconds t
  | None => journal_ts
  end.

Definition ORIGIN_LAN : string := "lan".
Definition opt_number (o : option Z) : Value :=
  match o with Some z => VNumber (NInt z) | None => VNull end.

Definition report_params (job : LanJob) : option Value :=
  let e := lj_entry job in
  let params st res err :=
    VObject [("client_uuid", VString (dj_client_uuid (je_job e)));
             ("kasa_id", opt_number (dj_kasa_id (je_job e)));
             ("job_type", VString (dj_job_type (je_job e)));
             ("pos_order_id",
                opt_number (get_field "id" (dj_pos_order (je_job e)) ≫= as_i64_value));
             ("payload", dj_payload (je_job e));
             ("state", VString st); ("result", res); ("error", err);
             ("executed_at", VString (executed_at (je_updated_at e)));
             ("origin", VString ORIGIN_LAN)] in
  match je_state e with
  | SDone => Some (params "done" (result_object (default VNull (je_result e))) VNull)
  | JFailed => Some (params "failed" VNull
      (VObject [("code", VString (sanitize_error_code (default "" (je_error_code e))));
                ("text", VString (truncate_error (default "" (je_error_text e))))]))
  | _ => None
  end.
End report.
