(* ===== verification/DeviceTasks.v ===== *)
(** * The device-job source: its tasks

    [mod.rs], [tasks.rs] and [lan.rs] of
    [src/crates/devbridge-client/src/device_jobs]: the control loop that talks
    [pending] and [next], the serial worker of each device queue, the
    reconciler, the ack sender, the LAN reporter and the door of the LAN API.

    A task is cut at its awaits: the call of an executor is the part before it
    ([execute_begin]), the guard that fires while it runs ([execute_guard]) and
    the part after it ([execute_finish]); what Odoo or a device answers is an
    argument.  [asked] is the trace of the calls of executors.  Instants and
    durations are nanoseconds.  The wake-ups ([acks_due], [reports_due],
    [outcomes]) only decide when a task runs next and are left out. *)

From Stdlib Require Import ZArith String.
From S2P Require Import Prelude RustStd Core Sqlite Json DeviceApi JournalData JournalCard Journal.
#[local] Open Scope Z_scope.

Abbreviation Instant := Z.
Abbreviation Duration := Z.
Definition from_millis (n : Z) : Duration := n * 1000000.
Definition from_secs (n : Z) : Duration := n * 1000000000.
Definition as_millis (d : Duration) : Z := d / 1000000.
Definition as_secs (d : Duration) : Z := d / 1000000000.
Definition saturating_duration_since (later earlier : Instant) : Duration :=
  Z.max 0 (later - earlier).

(** ** [mod.rs]: timing *)

Record Timing := mkTiming {
  short_poll_sleep : Duration;
  min_long_poll : Duration;
  next_timeout_margin : Duration;
  call_timeout : Duration;
  backoff_base : Duration;
  backoff_max : Duration;
  pending_retry : Duration;
  reconcile_interval : Duration;
  execute_guard_after : Duration;
  ack_idle_tick : Duration;
  status_check : Duration;
  status_refresh : Duration;
  max_queue_wait : Duration;
  lan_answer_wait : Duration;
}.
Definition Timing_default : Timing := {|
  short_poll_sleep := from_millis 1500; min_long_poll := from_secs 1;
  next_timeout_margin := from_secs 10; call_timeout := from_secs 30;
  backoff_base := from_secs 1; backoff_max := from_secs 30; pending_retry := from_secs 15;
  reconcile_interval := from_secs 30; execute_guard_after := from_secs 240;
  ack_idle_tick := from_secs 30; status_check := from_secs 1; status_refresh := from_secs 15;
  max_queue_wait := from_secs 120; lan_answer_wait := from_secs 90 |}.

Definition delay_after_next (reply : NextReply) (elapsed : Duration) (timing : Timing) : Duration :=
  if negb (is_none (nr_job reply)) then 0
  else if (nr_wait_s reply =? 0) || (elapsed <? min_long_poll timing)
  then short_poll_sleep timing
  else 0.
Definition pending_due_after (retry_later : bool) (now : Instant) (timing : Timing)
    : option Instant :=
  if retry_later then Some (now + pending_retry timing) else None.
Definition pending_round_due (pending_due : option Instant) (now : Instant) : bool :=
  match pending_due with Some due => due <=? now | None => false end.

(** ** [tasks.rs]: waiting *)

Inductive WorkItem :=
| WExecute (job_id : Z) (queued_at : Instant)
| WReconcile (job_id : Z).

Definition queue_wait_exceeded (queued_at now : Instant) (max : Duration) : bool :=
  max <? saturating_duration_since now queued_at.

Module Backoff.
Record t := mk { base : Duration; max : Duration; current : Duration }.
Definition new (base max : Duration) : t := mk base max base.
Definition next_delay (b : t) : Duration * t :=
  let now := Z.min (current b) (max b) in
  (now, mk (base b) (max b) (Z.min (now * 2) (max b))).
Definition reset (b : t) : t := mk (base b) (max b) (base b).
(** [n] delays in a row. *)
Fixpoint delays (n : nat) (b : t) : list Duration :=
  match n with
  | O => []
  | S n' => let '(d, b') := next_delay b in d :: delays n' b'
  end.
End Backoff.

Definition heartbeat_due (last : option (string * Instant)) (status : string)
    (interval : Duration) (now : Instant) : bool :=
  match last with
  | None => true
  | Some (sent, at_) => negb (sent =t? status) || (interval <=? saturating_duration_since now at_)
  end.

(** ** [Shared] *)

(** What a worker is doing: its executor runs a job, or is asked about one. *)
Inductive Call :=
| Executing_ (job : DeviceJob) (guard_fired : bool)
| Reconciling (entry : JournalEntry).

(** A call of an executor. *)
Inductive Asked := Executed (job : DeviceJob) | AskedAbout (entry : JournalEntry).

(** A device queue: its items, whether its worker still receives, and what the
    worker is doing. *)
Record Queue := mkQueue { q_items : list WorkItem; q_open : bool; q_call : option Call }.

Record Client `{Chrono} := mkClient {
  journal : Journal;
  queues : DeviceQueue → option Queue;
  reconciling : list Z;
  asked : list Asked;
}.
Definition CM `{Chrono} (A : Type) : Type := M Client string A.

Section source.
Context `{Chrono} `{JsonText} (registry : ExecutorRegistry) (timing : Timing).

Definition on_journal {A} (m : JM A) : CM A :=
  zoom journal (λ j c, mkClient _ j (queues c) (reconciling c) (asked c)) m.
Definition set_queue (q : DeviceQueue) (v : Queue) : CM unit :=
  modify (λ c, mkClient _ (journal c)
    (λ q', if bool_decide (q' = q) then Some v else queues c q') (reconciling c) (asked c)).
Definition set_reconciling (f : list Z → list Z) : CM unit :=
  modify (λ c, mkClient _ (journal c) (queues c) (f (reconciling c)) (asked c)).
Definition log_asked (a : Asked) : CM unit :=
  modify (λ c, mkClient _ (journal c) (queues c) (reconciling c) (asked c ++ [a])).

(** [queue.send(item).is_ok()] *)
Definition send (q : DeviceQueue) (item : WorkItem) : CM bool :=
  o ← gets (λ c, queues c q);
  match o with
  | Some v => if q_open v
              then _ ← set_queue q (mkQueue (q_items v ++ [item]) (q_open v) (q_call v)); mret true
              else mret false
  | None => mret false
  end.
Definition queue_for (job : DeviceJob) : CM (option DeviceQueue) :=
  gets (λ c, q ← queue_of registry job; v ← queues c q; Some q).
(** [queue_for(job).is_some_and(|queue| queue.send(item).is_ok())] *)
Definition send_for (job : DeviceJob) (item : WorkItem) : CM bool :=
  q ← queue_for job;
  match q with Some q => send q item | None => mret false end.

Definition start_reconcile (job_id : Z) : CM bool :=
  present ← gets (λ c, existsb (Z.eqb job_id) (reconciling c));
  if (present : bool) then mret false
  else _ ← set_reconciling (cons job_id); mret true.
Definition reconcile_done (job_id : Z) : CM unit :=
  set_reconciling (List.filter (λ j, negb (j =? job_id))).
Definition set_call (q : DeviceQueue) (call : option Call) : CM unit :=
  o ← gets (λ c, queues c q);
  match o with
  | Some v => set_queue q (mkQueue (q_items v) (q_open v) call)
  | None => mret tt
  end.

(** ** [execute_job] *)

Definition expired_text (q : DeviceQueue) (waited_ms : Z) : string :=
  "the job waited " +:+ z_to_string waited_ms +:+ " ms in the devbridge queue of "
  +:+ queue_to_string q +:+ " (max " +:+ z_to_string (as_millis (max_queue_wait timing))
  +:+ " ms) - the device was not contacted, nothing ran".

(** Up to the executor's call; [read_at] is the clock read for the text. *)
Definition execute_begin (q : DeviceQueue) (job_id : Z) (queued_at now read_at : Instant)
    : CM unit :=
  entry ← on_journal (get job_id);
  match entry with
  | None => mret tt
  | Some e =>
    if queue_wait_exceeded queued_at now (max_queue_wait timing) then
      let waited_ms := as_u64 (as_millis (saturating_duration_since read_at queued_at)) in
      _ ← on_journal (fail_unstarted job_id CODE_EXPIRED_LOCAL (expired_text q waited_ms));
      mret tt
    else
      mine ← on_journal (start_execution job_id);
      if negb mine then mret tt
      else _ ← log_asked (Executed (je_job e)); set_call q (Some (Executing_ (je_job e) false))
  end.

Definition guard_reason (q : DeviceQueue) : string :=
  "no answer from the " +:+ kind_as_str (dq_kind q) +:+ " device within "
  +:+ z_to_string (as_secs (execute_guard_after timing))
  +:+ " s - outcome unknown, reconciled with the device".
(** [timeout(guard, &mut task)] elapsed.  A failed write returns from
    [execute_job]: the worker is free while the call still runs. *)
Definition execute_guard (q : DeviceQueue) (job : DeviceJob) : CM unit :=
  r ← attempt (on_journal (record_outcome (dj_id job) (Indeterminate (guard_reason q))));
  match r with
  | Ok _ => set_call q (Some (Executing_ job true))
  | Err e => _ ← set_call q None; throw e
  end.

(** [outcome_of]: a task that panicked has an unknown outcome. *)
Definition outcome_of (joined : result string Outcome) : Outcome :=
  match joined with
  | Ok o => o
  | Err e => Indeterminate ("executor failed mid-job: " +:+ e)
  end.
Definition execute_finish (q : DeviceQueue) (job_id : Z) (joined : result string Outcome)
    : CM unit :=
  _ ← set_call q None;
  _ ← on_journal (record_outcome job_id (outcome_of joined));
  mret tt.

(** ** [reconcile_job], with the worker's [reconcile_done] after it *)

Definition is_indeterminate (e : JournalEntry) : bool :=
  bool_decide (je_state e = SIndeterminate).
Definition reconcile_begin (q : DeviceQueue) (job_id : Z) : CM unit :=
  r ← attempt (on_journal (get job_id));
  match r with
  | Ok (Some e) =>
    if is_indeterminate e then _ ← log_asked (AskedAbout e); set_call q (Some (Reconciling e))
    else reconcile_done job_id
  | Ok None => reconcile_done job_id
  | Err e => _ ← reconcile_done job_id; throw e
  end.

Definition record_answer (job_id : Z) (answer : Reconciliation) : JM bool :=
  match answer with
  | RDone res => record_outcome job_id (Done res)
  | RFailed code text => record_outcome job_id (OFailed code text)
  | StillUnknown reason => record_still_unknown job_id reason
  end.
Definition reconcile_finish (q : DeviceQueue) (job_id : Z) (joined : result string Reconciliation)
    : CM unit :=
  let answer := match joined with
                | Ok a => a
                | Err e => StillUnknown ("reconcile failed: " +:+ e)
                end in
  _ ← set_call q None;
  r ← attempt (on_journal (record_answer job_id answer));
  _ ← reconcile_done job_id;
  match r with Ok _ => mret tt | Err e => throw e end.

(** ** [device_worker]: an idle worker takes its next item *)

Definition worker_take (q : DeviceQueue) (now read_at : Instant) : CM unit :=
  o ← gets (λ c, queues c q);
  match o with
  | Some {| q_items := item :: items; q_open := true; q_call := None |} =>
    _ ← set_queue q (mkQueue items true None);
    match item with
    | WExecute job_id queued_at => execute_begin q job_id queued_at now read_at
    | WReconcile job_id => reconcile_begin q job_id
    end
  | _ => mret tt
  end.

(** ** [schedule_reconciles] *)

Definition unreconcilable_notice_due (e : JournalEntry) : bool :=
  if is_lan_job (dj_id (je_job e)) then je_attempts e =? 0
  else bool_decide (je_report e = RNone).
Definition NO_EXECUTOR_TEXT : string :=
  "no executor for this device is configured - reconcile it on the device by hand".
Definition schedule_one (e : JournalEntry) : CM unit :=
  let job_id := dj_id (je_job e) in
  q ← queue_for (je_job e);
  match q with
  | Some q =>
    fresh ← start_reconcile job_id;
    if (fresh : bool) then _ ← send q (WReconcile job_id); mret tt else mret tt
  | None =>
    if unreconcilable_notice_due e
    then _ ← on_journal (record_still_unknown job_id NO_EXECUTOR_TEXT); mret tt
    else mret tt
  end.
Definition schedule_reconciles : CM unit :=
  rows ← on_journal indeterminate;
  for_each rows schedule_one.

(** ** [flush_acks] *)

Definition mark_accepted (ack : AckRequest) (note : string) : CM unit :=
  _ ← on_journal (match ack with
                  | AckIndeterminate job_id _ => mark_reported job_id
                  | AckAuthorized job_id _ => mark_card_auth_acked job_id note
                  | other => mark_acked (ack_job_id other) note
                  end);
  mret tt.
Definition accepted_note (reply : AckReply) : string :=
  if ar_duplicate reply then "duplicate" else "ok".
Definition refused_note (e : RpcError) : string := "refused: " +:+ rpc_error_to_string e.

(** One call of a round: [answered] journals an answer, [None] = keep it owed.
    The first error that does not stop the round is returned at its end. *)
Definition flush_one {A} (reply : result RpcError A) (accepted : A → CM unit)
    (refused : RpcError → CM unit) (first_error : option RpcError) : CM (option RpcError) :=
  match reply with
  | Ok r => _ ← accepted r; mret first_error
  | Err e =>
    if negb (is_retryable e) then _ ← refused e; mret first_error
    else match e with
         | Transport _ => throw (rpc_error_to_string e)
         | _ => mret (coalesce first_error (Some e))
         end
  end.
Definition flush_end (first_error : option RpcError) : CM unit :=
  match first_error with Some e => throw (rpc_error_to_string e) | None => mret tt end.

Definition flush_ack (ack : AckRequest) (reply : result RpcError AckReply)
    (first_error : option RpcError) : CM (option RpcError) :=
  flush_one reply (λ r, mark_accepted ack (accepted_note r))
    (λ e, mark_accepted ack (refused_note e)) first_error.
Fixpoint flush_ack_loop (odoo : AckRequest → result RpcError AckReply) (acks : list AckRequest)
    (first_error : option RpcError) : CM unit :=
  match acks with
  | [] => flush_end first_error
  | ack :: acks' => first ← flush_ack ack (odoo ack) first_error; flush_ack_loop odoo acks' first
  end.
Definition flush_acks (odoo : AckRequest → result RpcError AckReply) : CM unit :=
  acks ← on_journal owed_acks;
  flush_ack_loop odoo acks None.

(** ** [flush_reports] *)

Definition report_note (reply : ReportReply) : string :=
  if rr_created reply then "created" else "existing".
Definition flush_report (job_id : Z) (reply : result RpcError ReportReply)
    (first_error : option RpcError) : CM (option RpcError) :=
  flush_one reply
    (λ r, _ ← on_journal (mark_lan_reported job_id (rr_job_id r) (report_note r)); mret tt)
    (λ e, _ ← on_journal (mark_lan_reported job_id None (refused_note e)); mret tt) first_error.
Fixpoint flush_report_loop `{!Rfc3339} `{!ReportTime} (odoo : Value → result RpcError ReportReply)
    (jobs : list LanJob) (first_error : option RpcError) : CM unit :=
  match jobs with
  | [] => flush_end first_error
  | job :: jobs' =>
    match report_params job with
    | None => flush_report_loop odoo jobs' first_error
    | Some params =>
      first ← flush_report (lj_job_id job) (odoo params) first_error;
      flush_report_loop odoo jobs' first
    end
  end.
Definition flush_reports `{!Rfc3339} `{!ReportTime} (odoo : Value → result RpcError ReportReply) : CM unit :=
  jobs ← on_journal owed_lan_reports;
  flush_report_loop odoo jobs None.

(** ** [accept_job] *)

Definition worker_gone (kind : DeviceKind) : Outcome :=
  OFailed "bridge_error" ("the devbridge " +:+ kind_as_str kind
                            +:+ " worker is not running - nothing ran").
Definition accept_job (job : DeviceJob) (now : Instant) : CM unit :=
  let verdict := validate job registry in
  inserted ← on_journal (match verdict with
                         | Ok _ => insert_received job
                         | Err rejection => insert_refused job (rj_code rejection) (rj_text rejection)
                         end);
  match inserted with
  | Known _ => _ ← on_journal (reopen_ack (dj_id job)); mret tt
  | New =>
    match verdict with
    | Ok kind =>
      queued ← send_for job (WExecute (dj_id job) now);
      if (queued : bool) then mret tt
      else _ ← on_journal (record_outcome (dj_id job) (worker_gone kind)); mret tt
    | Err _ => mret tt
    end
  end.

(** ** [pending_pass] *)

Definition ack_not_received (reply : result RpcError AckReply) : CM bool :=
  match reply with
  | Ok _ => mret false
  | Err e =>
    if bool_decide (refusal_code e = Some REFUSED_TOO_EARLY) then mret true
    else if negb (is_retryable e) then mret false
    else match e with
         | Transport _ => throw (rpc_error_to_string e)
         | _ => mret true
         end
  end.

(** The loop over the pending jobs, with the acks it sends. *)
Fixpoint pending_loop (odoo : AckRequest → result RpcError AckReply) (jobs : list PendingJob)
    (retry_later : bool) : CM bool :=
  match jobs with
  | [] => mret retry_later
  | p :: jobs' =>
    known ← on_journal (get (pd_id p));
    match known with
    | Some _ =>
      _ ← on_journal (reopen_ack (pd_id p));
      pending_loop odoo jobs' retry_later
    | None =>
      again ← ack_not_received (odoo (AckNotReceived (pd_id p)));
      pending_loop odoo jobs' (retry_later || again)
    end
  end.
Definition pending_pass (pending : result RpcError (list PendingJob * list Value))
    (odoo : AckRequest → result RpcError AckReply) : CM bool :=
  match pending with
  | Err e => throw (rpc_error_to_string e)
  | Ok (jobs, _) => pending_loop odoo jobs false
  end.

(** ** [control_loop]: one turn *)

Record Loop := mkLoop { lp_backoff : Backoff.t; lp_pending_due : option Instant }.
Definition loop_start (now : Instant) : Loop :=
  mkLoop (Backoff.new (backoff_base timing) (backoff_max timing)) (Some now).

(** The [pending] part: [Ok] = go on to [next]; [Err delay] = wait and start
    the turn again. *)
Definition pending_turn (l : Loop) (now done_at : Instant)
    (pending : result RpcError (list PendingJob * list Value))
    (odoo : AckRequest → result RpcError AckReply) : CM (result Duration Loop * Loop) :=
  if pending_round_due (lp_pending_due l) now then
    pass ← attempt (pending_pass pending odoo);
    match pass with
    | Ok retry_later =>
      let l' := mkLoop (Backoff.reset (lp_backoff l)) (pending_due_after retry_later done_at timing)
      in mret (Ok l', l')
    | Err _ =>
      let '(delay, b) := Backoff.next_delay (lp_backoff l) in
      mret (Err delay, mkLoop b (lp_pending_due l))
    end
  else mret (Ok l, l).

(** The [next] part: the new loop state and the delay before the next turn. *)
Definition next_turn (l : Loop) (reply : result RpcError NextReply) (now : Instant)
    (elapsed : Duration) : CM (Loop * Duration) :=
  match reply with
  | Ok reply =>
    let b := Backoff.reset (lp_backoff l) in
    accepted ← attempt (match nr_job reply with Some job => accept_job job now | None => mret tt end);
    let due := match accepted with Ok _ => lp_pending_due l | Err _ => Some now end in
    mret (mkLoop b due, delay_after_next reply elapsed timing)
  | Err _ =>
    let '(delay, b) := Backoff.next_delay (lp_backoff l) in
    mret (mkLoop b (Some now), delay)
  end.

(** ** [lan.rs]: the LAN API *)

Record LanRequest := mkLanRequest {
  lr_kasa_id : Z;
  lr_client_uuid : string;
  lr_job_type : string;
  lr_payload : Value;
  lr_pos_order_id : option Z;
}.
Definition to_job (r : LanRequest) : DeviceJob :=
  {| dj_id := 0; dj_job_type := lr_job_type r; dj_client_uuid := lr_client_uuid r;
     dj_kasa_id := Some (lr_kasa_id r); dj_kasa_name := "";
     dj_pos_order := match lr_pos_order_id r with
                     | Some id => VObject [("id", VNumber (NInt id))] | None => VNull end;
     dj_payload := lr_payload r; dj_created_at := ""; dj_claimed_at := "" |}.

Inductive LanAnswer :=
| LanAnswerJob (job : LanJob) (replay : bool)
| LanRefused (code text : string)
| LanConflict (job : LanJob)
| LanBridgeError (text : string)
| LanStateUnknown (text : string).
Inductive Admission := Answered (a : LanAnswer) | Journaled (job_id : Z) (replay : bool).

Definition PRINT_TEXT_JOB_TYPE : string := "fiscal.print_text".
Definition CODE_LAN_UNSUPPORTED : string := "unsupported".
Definition CODE_BRIDGE_ERROR : string := "bridge_error".

Definition same_operation (stored : DeviceJob) (r : LanRequest) : bool :=
  (dj_job_type stored =t? lr_job_type r) && bool_decide (dj_payload stored = lr_payload r).
Definition answer_now (st : JState) (now deadline : Instant) : bool :=
  is_final st || bool_decide (st = SIndeterminate) || (deadline <=? now).

Definition replayed (stored : LanJob) (r : LanRequest) : Admission :=
  if same_operation (je_job (lj_entry stored)) r then Journaled (lj_job_id stored) true
  else Answered (LanConflict stored).

Definition with_id (job : DeviceJob) (id : Z) : DeviceJob :=
  {| dj_id := id; dj_job_type := dj_job_type job; dj_client_uuid := dj_client_uuid job;
     dj_kasa_id := dj_kasa_id job; dj_kasa_name := dj_kasa_name job;
     dj_pos_order := dj_pos_order job; dj_payload := dj_payload job;
     dj_created_at := dj_created_at job; dj_claimed_at := dj_claimed_at job |}.
Definition fiscal_worker_gone : Outcome :=
  OFailed CODE_BRIDGE_ERROR "the devbridge fiscal worker is not running - nothing ran".

Definition admit_lan (r : LanRequest) (now : Instant) : CM Admission :=
  stored ← on_journal (lan_job (lr_kasa_id r) (lr_client_uuid r));
  match stored with
  | Some stored => mret (replayed stored r)
  | None =>
    let job := to_job r in
    if negb (bool_decide (for_job_type (dj_job_type job) = Some Fiscal)) then
      mret (Answered (LanRefused CODE_LAN_UNSUPPORTED
        ("the LAN API runs fiscal.* jobs only ('" +:+ dj_job_type job
           +:+ "' is not one; card payments need the bank online) - nothing ran")))
    else if dj_job_type job =t? PRINT_TEXT_JOB_TYPE then
      mret (Answered (LanRefused CODE_LAN_UNSUPPORTED
        ("the LAN API does not run " +:+ PRINT_TEXT_JOB_TYPE
           +:+ " (Odoo composes that text and sends it over the Odoo channel) - nothing ran")))
    else
      match validate job registry with
      | Err rejection => mret (Answered (LanRefused (rj_code rejection) (rj_text rejection)))
      | Ok _ =>
        inserted ← on_journal (insert_lan_received job);
        match inserted with
        | LanKnown stored => mret (replayed stored r)
        | LanNew job_id =>
          queued ← send_for (with_id job job_id) (WExecute job_id now);
          _ ← (if (queued : bool) then mret tt
               else ignore (on_journal (record_outcome job_id fiscal_worker_gone)));
          mret (Journaled job_id false)
        end
      end
  end.

(** One turn of [wait_settled]: [None] = wait for the next outcome. *)
Definition wait_settled_turn (job_id : Z) (now deadline : Instant) : CM (option LanJob) :=
  o ← on_journal (lan_job_by_id job_id);
  match o with
  | None => throw ("LAN job " +:+ z_to_string job_id +:+ " vanished from the journal")
  | Some job => mret (if answer_now (lj_state job) now deadline then Some job else None)
  end.

(** [submit] with the call answered at its first look after [settle]. *)
Definition submit_admitted (a : result string Admission) : result LanAnswer (Z * bool) :=
  match a with
  | Ok (Answered answer) => Err answer
  | Ok (Journaled job_id replay) => Ok (job_id, replay)
  | Err e => Err (LanBridgeError e)
  end.
Definition submit_settled (replay : bool) (r : result string LanJob) : LanAnswer :=
  match r with
  | Ok job => LanAnswerJob job replay
  | Err e => LanStateUnknown e
  end.

(** ** [DeviceJobSource::run]: the start of a process *)

Definition start_queues (q : DeviceQueue) : option Queue :=
  if existsb (λ q', bool_decide (q' = q)) (registry_queues registry)
  then Some (mkQueue [] true None) else None.
(** The previous process is gone with its queues and calls; the journal stays. *)
Definition restart : CM unit :=
  _ ← modify (λ c, mkClient _ (journal c) (λ _, None) [] (asked c));
  _ ← on_journal recover_after_restart;
  _ ← ignore (on_journal prune);
  modify (λ c, mkClient _ (journal c) start_queues (reconciling c) (asked c)).
End source.
