(* ===== verification/StorageTheory.v ===== *)
(** * Theory of the store

    The lookup of a job row and how each statement changes it; the relation
    [jobs_le] that every server statement respects; what every operation of
    [Storage.v] returns on each branch. *)

From Stdlib Require Import ZArith String Sorting.Sorted Sorting.Permutation.
From S2P Require Import Prelude RustStd Core Sqlite Storage.
#[local] Open Scope Z_scope.

(** ** The row of a job *)

Section lookup.
Context `{Chrono}.

Definition job_row (j : string) (t : Tables) : option JobRow :=
  List.find (by_id j) (jobs t).
(** The PRIMARY KEY of [jobs]. *)
Definition jobs_pk (t : Tables) : Prop := NoDup (map r_job_id (jobs t)).

(** A finished job: its state text is none of the open ones. *)
Definition finished_row (r : JobRow) : bool := negb (text_in (r_state r) OPEN_STATES).
Definition finished (j : string) (t : Tables) : Prop :=
  ∃ r, job_row j t = Some r ∧ finished_row r = true.

Lemma by_id_true j r : by_id j r = true ↔ r_job_id r = j.
Proof. apply String.eqb_eq. Qed.

Lemma job_row_id j t r : job_row j t = Some r → r_job_id r = j.
Proof. intros [_ Hb]%find_some. by apply by_id_true. Qed.

Lemma job_row_in j t r : job_row j t = Some r → In r (jobs t).
Proof. by intros [Hin _]%find_some. Qed.

Lemma job_row_none j t : job_row j t = None → ∀ r, In r (jobs t) → r_job_id r ≠ j.
Proof. intros Hf r Hin Hid. apply (find_none _ _ Hf) in Hin. by apply by_id_true in Hid; congruence. Qed.

(** [UPDATE jobs SET f WHERE p] seen through one job id. *)
Lemma find_map_id (f : JobRow → JobRow) j rows :
  (∀ r, r_job_id (f r) = r_job_id r) →
  List.find (by_id j) (map f rows) = f <$> List.find (by_id j) rows.
Proof.
  intros Hf. induction rows as [|r rows IH]; simpl; [done|].
  unfold by_id in *. rewrite Hf. by destruct (r_job_id r =t? j).
Qed.

Lemma job_row_update p f j t :
  (∀ r, r_job_id (f r) = r_job_id r) →
  job_row j (fst (update_jobs p f t)) = (λ r, if p r then f r else r) <$> job_row j t.
Proof.
  intros Hf. unfold job_row, update_jobs. simpl. apply find_map_id.
  intros r. destruct (p r); auto.
Qed.

Lemma update_jobs_pk p f t :
  (∀ r, r_job_id (f r) = r_job_id r) → jobs_pk t → jobs_pk (fst (update_jobs p f t)).
Proof.
  intros Hf Hpk. unfold jobs_pk, update_jobs. simpl. rewrite map_map.
  erewrite map_ext; [exact Hpk|]. intros r. simpl. destruct (p r); auto.
Qed.

Lemma pk_job_row t r : jobs_pk t → In r (jobs t) → job_row (r_job_id r) t = Some r.
Proof.
  unfold jobs_pk, job_row. generalize (jobs t) as rows. induction rows as [|r' rows IH]; [done|].
  simpl. intros [Hnin Hnd]%NoDup_cons [->|Hin].
  - unfold by_id. by rewrite String.eqb_refl.
  - destruct (by_id (r_job_id r) r') eqn:E; [|by apply IH].
    apply by_id_true in E. exfalso. apply Hnin. rewrite E.
    apply list_elem_of_In. by apply in_map.
Qed.

(** The changed-row count of [UPDATE .. WHERE job_id = j AND q]. *)
Lemma update_by_id_count q f j t :
  jobs_pk t →
  snd (update_jobs (λ r, by_id j r && q r) f t)
  = match job_row j t with Some r => if q r then 1 else 0 | None => 0 end.
Proof.
  intros Hpk. unfold update_jobs, job_row. simpl.
  unfold jobs_pk in Hpk. induction (jobs t) as [|r rows IH]; [done|]. simpl in *.
  apply NoDup_cons in Hpk as [Hnin Hnd]. destruct (by_id j r) eqn:E; simpl; [|by apply IH].
  assert (List.filter (λ r, by_id j r && q r) rows = []) as Hnil.
  { apply filter_empty_existsb, not_true_is_false. intros Hex. apply existsb_exists in Hex.
    destruct Hex as [r' [Hin Hb]]. apply andb_prop in Hb as [Hb _].
    apply by_id_true in E, Hb. apply Hnin. rewrite E, <- Hb.
    apply list_elem_of_In. by apply in_map. }
  rewrite Hnil. by destruct (q r).
Qed.

(** A WHERE clause that matches nothing changes nothing. *)
Lemma update_by_id_nothing q f j t :
  jobs_pk t → match job_row j t with Some r => q r = false | None => True end →
  fst (update_jobs (λ r, by_id j r && q r) f t) = t.
Proof.
  intros Hpk Hq. pose proof (update_by_id_count q f j t Hpk) as Hc.
  assert (snd (update_jobs (λ r, by_id j r && q r) f t) = 0) as Hz.
  { rewrite Hc. destruct (job_row j t) as [r|]; [by rewrite Hq|done]. }
  clear Hc. unfold update_jobs in *. simpl in *.
  assert (List.filter (λ r, by_id j r && q r) (jobs t) = []) as Hnil.
  { destruct (List.filter _ (jobs t)); [done|]. simpl in Hz. lia. }
  pose proof (sql_update_none _ f _ Hnil) as Hs. simpl in Hs. rewrite Hs. by destruct t.
Qed.
End lookup.

(** ** What the statements on [jobs] respect *)

Section jobs_le.
Context `{Chrono}.

(** Every job that exists still exists and its row moved by [Q]. *)
Definition jobs_le (Q : relation JobRow) : relation Tables := λ t t',
  ∀ j r, job_row j t = Some r → ∃ r', job_row j t' = Some r' ∧ Q r r'.

#[export] Instance jobs_le_preorder (Q : relation JobRow) `{!PreOrder Q} : PreOrder (jobs_le Q).
Proof.
  split.
  - intros t j r Hr. exists r. split; [done|reflexivity].
  - intros a b c Hab Hbc j r Hr. destruct (Hab j r Hr) as (r1 & Hr1 & HQ1).
    destruct (Hbc j r1 Hr1) as (r2 & Hr2 & HQ2). exists r2. split; [done|by etrans].
Qed.

(** A statement that leaves [jobs] alone. *)
Lemma jobs_le_same Q `{!PreOrder Q} t t' : jobs t' = jobs t → jobs_le Q t t'.
Proof. intros E j r Hr. exists r. unfold job_row in *. rewrite E. split; [done|reflexivity]. Qed.

Lemma jobs_le_update Q `{!PreOrder Q} p f t :
  (∀ r, r_job_id (f r) = r_job_id r) → (∀ r, p r = true → Q r (f r)) →
  jobs_le Q t (fst (update_jobs p f t)).
Proof.
  intros Hid HQ j r Hr. rewrite job_row_update by done. rewrite Hr. simpl.
  eexists; split; [done|]. destruct (p r) eqn:E; [by apply HQ|reflexivity].
Qed.

Lemma jobs_le_append Q `{!PreOrder Q} t new :
  jobs_le Q t (set_jobs (λ rows, rows ++ new) t).
Proof.
  intros j r Hr. exists r. split; [|reflexivity]. unfold job_row in *. simpl.
  revert Hr. induction (jobs t) as [|x rows IH]; simpl; [done|].
  by destruct (by_id j x).
Qed.

(** Columns no statement but the insert and [SET target_client_id] writes,
    and a retry counter that only grows. *)
Definition same_document (r r' : JobRow) : Prop :=
  r_job_id r' = r_job_id r ∧ r_document_name r' = r_document_name r ∧
  r_target_printer r' = r_target_printer r ∧ r_target_client_id r' = r_target_client_id r ∧
  r_copies r' = r_copies r ∧ r_paper_size r' = r_paper_size r ∧ r_duplex r' = r_duplex r ∧
  r_color r' = r_color r ∧ r_payload_size r' = r_payload_size r ∧
  r_payload_sha256 r' = r_payload_sha256 r ∧ r_requesting_user r' = r_requesting_user r ∧
  r_spool_path r' = r_spool_path r ∧ r_created_at r' = r_created_at r.

(** The rule of a job's life on the server. *)
Definition row_le (r r' : JobRow) : Prop :=
  same_document r r' ∧ r_retry_count r ≤ r_retry_count r' ∧
  (finished_row r = true → finished_row r' = true).

#[export] Instance row_le_preorder : PreOrder row_le.
Proof.
  split.
  - intros r. unfold row_le, same_document. repeat split; auto; lia.
  - intros a b c (Hd1 & Hr1 & Hf1) (Hd2 & Hr2 & Hf2).
    unfold row_le, same_document in *. destruct_and!. repeat split; try congruence; try lia; auto.
Qed.

Lemma row_le_job_set st n d u r :
  r_retry_count r ≤ n →
  (finished_row r = true → text_in st OPEN_STATES = false) →
  row_le r (job_set st n d u r).
Proof.
  intros Hn Hf. unfold row_le, same_document. simpl. repeat split; auto.
  intros Hfin. change (negb (text_in st OPEN_STATES) = true). by rewrite Hf.
Qed.
End jobs_le.

(** Close a goal [row_le r (job_set ..)] under the WHERE clause that selected [r]. *)
Ltac solve_row_le :=
  intros r Hp; apply row_le_job_set; [simpl; lia|];
  intros Hfin; unfold finished_row in Hfin; apply negb_true_iff in Hfin;
  try reflexivity;
  exfalso; revert Hfin Hp; unfold by_id, text_in, OPEN_STATES, REQUEUEABLE, IN_FLIGHT; simpl;
  repeat (match goal with |- context [?a =t? ?b] => destruct (String.eqb_spec a b) end;
          simpl; try done; try congruence).

Section jobs_ops.
Context `{Chrono}.
Abbreviation le := (on_conn (jobs_le row_le)).

Lemma update_state_le j st :
  text_in (state_to_str st) OPEN_STATES = false → respects le (update_job_state j st).
Proof.
  intros Hst. unfold update_job_state. solve_respects.
  apply respects_execute; [apply _|]. intros t. apply jobs_le_update; [apply _|done|].
  intros r Hp. unfold set_state. apply row_le_job_set; [lia|done].
Qed.

Lemma existing_state_text_le j : respects le (existing_state_text j).
Proof. unfold existing_state_text. solve_respects. Qed.
#[local] Hint Resolve existing_state_text_le : respects.

Lemma unless_terminal_le j st : respects le (update_job_state_unless_terminal j st).
Proof.
  unfold update_job_state_unless_terminal. solve_respects.
  apply respects_execute; [apply _|]. intros t. apply jobs_le_update; [apply _|done|].
  solve_row_le.
Qed.

Lemma unconfirm_le j : respects le (unconfirm_completed_job j).
Proof.
  unfold unconfirm_completed_job. solve_respects.
  apply respects_execute; [apply _|]. intros t. apply jobs_le_update; [apply _|done|].
  solve_row_le.
Qed.

Lemma requeue_le j d : respects le (requeue_job j d).
Proof.
  unfold requeue_job. solve_respects.
  apply respects_execute; [apply _|]. intros t. apply jobs_le_update; [apply _|done|].
  solve_row_le.
Qed.

Lemma insert_job_event_le e : respects le (insert_job_event e).
Proof.
  unfold insert_job_event. solve_respects.
  apply respects_execute; [apply _|]. intros t. by apply jobs_le_same; [apply _|].
Qed.

(** A job id that is not in the table yet. *)
Lemma upsert_fresh t (row : JobRow) :
  job_row (r_job_id row) t = None → upsert_job_row row (jobs t) = jobs t ++ [row].
Proof.
  intros Hn. unfold upsert_job_row.
  destruct (existsb _ _) eqn:E; [|done].
  apply existsb_exists in E as (r & Hin & Hb). apply by_id_true in Hb.
  by destruct (job_row_none _ _ Hn r Hin).
Qed.
End jobs_ops.
#[export] Hint Resolve existing_state_text_le unless_terminal_le unconfirm_le requeue_le
  insert_job_event_le : respects.

(** ** What the statements return *)

Section outcomes.
Context `{Chrono}.

Lemma existing_state_text_cases j s :
  conn (snd (existing_state_text j s)) = conn s ∧
  match fst (existing_state_text j s) with
  | Ok txt => ∃ r, job_row j (conn s) = Some r ∧ txt = r_state r
  | Err _ => quiet s → job_row j (conn s) = None
  end.
Proof.
  unfold existing_state_text, mbind, M_bind, job_row.
  destruct (engine_cases ("failed to read the state of job " +:+ j) s)
    as [(s1 & He & Hc & _)|(s1 & He & Hc)]; unfold query, mbind, M_bind; rewrite He; simpl.
  - rewrite Hc. destruct (List.find (by_id j) (jobs (conn s))) as [r|] eqn:E; simpl; eauto.
  - split; [done|]. intros Hq. by rewrite engine_quiet in He.
Qed.

(** A conditional UPDATE of one job and the reading of its state when nothing
    matched - the shape of [update_job_state_unless_terminal] and
    [requeue_job]. *)
Definition conditional_update (ctx j : string) (states : list string)
    (f : string → JobRow → JobRow) : SM bool :=
  now ← utc_now;
  rows ← execute ctx
    (update_jobs (λ r, by_id j r && text_in (r_state r) states) (f (to_rfc3339 now)));
  if rows =? 0 then _ ← existing_state_text j; mret false else mret true.

Definition one_job_changed (j : string) (row : JobRow) (t t' : Tables) : Prop :=
  job_row j t' = Some row ∧ ∀ j', j' ≠ j → job_row j' t' = job_row j' t.

Lemma one_job_update q f j t row :
  (∀ r, r_job_id (f r) = r_job_id r) → job_row j t = Some row → q row = true →
  one_job_changed j (f row) t (fst (update_jobs (λ r, by_id j r && q r) f t)).
Proof.
  intros Hf Hr Hq. pose proof (job_row_id _ _ _ Hr) as Hid.
  assert (by_id j row = true) as Hb by by apply by_id_true.
  split.
  - rewrite job_row_update by done. rewrite Hr. simpl. by rewrite Hb, Hq.
  - intros j' Hne. rewrite job_row_update by done.
    destruct (job_row j' t) as [r'|] eqn:E; [|done]. simpl.
    apply job_row_id in E. replace (by_id j r') with false; [done|].
    symmetry. apply not_true_is_false. rewrite by_id_true. congruence.
Qed.

Lemma conditional_update_outcome ctx j states f s :
  (∀ now r, r_job_id (f now r) = r_job_id r) → jobs_pk (conn s) →
  let now := to_rfc3339 (clock s (ticks s)) in
  let '(res, s') := conditional_update ctx j states f s in
  match res with
  | Ok true => ∃ row, job_row j (conn s) = Some row ∧ text_in (r_state row) states = true ∧
      one_job_changed j (f now row) (conn s) (conn s')
  | Ok false => ∃ row, job_row j (conn s) = Some row ∧ text_in (r_state row) states = false ∧
      conn s' = conn s
  | Err _ => conn s' = conn s ∧ (quiet s → job_row j (conn s) = None)
  end.
Proof.
  intros Hf Hpk now. unfold conditional_update, mbind, M_bind. rewrite utc_now_run.
  set (s1 := {| conn := conn s; faults := faults s; clock := clock s; ticks := S (ticks s) |}).
  fold now. set (stmt := update_jobs _ _).
  assert (snd (stmt (conn s)) = match job_row j (conn s) with
      Some r => if text_in (r_state r) states then 1 else 0 | None => 0 end) as Hcount
    by by apply update_by_id_count.
  assert (quiet s1 ↔ quiet s) as Hq by done.
  destruct (execute_cases ctx stmt s1) as [(s2 & E2 & Hc2)|(s2 & E2 & Hc2)]; rewrite E2.
  - change (conn s1) with (conn s) in *. rewrite Hcount.
    destruct (job_row j (conn s)) as [row|] eqn:Er.
    + destruct (text_in (r_state row) states) eqn:Et; simpl.
      * exists row. split; [done|]. split; [done|]. rewrite Hc2.
        by apply (one_job_update (λ r, text_in (r_state r) states) (f now)).
      * assert (conn s2 = conn s) as Hc3.
        { rewrite Hc2. apply update_by_id_nothing; [done|]. by rewrite Er. }
        pose proof (existing_state_text_cases j s2) as [Hc4 Hx].
        destruct (existing_state_text j s2) as [[txt|e] s3]; simpl in *.
        -- exists row. rewrite Hc4, Hc3. eauto.
        -- rewrite Hc4, Hc3. split; [done|]. intros Hqs.
           rewrite execute_quiet in E2 by done. injection E2 as <-.
           rewrite Hc3, Er in Hx. by apply Hx.
    + simpl. assert (conn s2 = conn s) as Hc3.
      { rewrite Hc2. apply update_by_id_nothing; [done|]. by rewrite Er. }
      pose proof (existing_state_text_cases j s2) as [Hc4 Hx].
      destruct (existing_state_text j s2) as [[txt|e] s3]; simpl in *.
      * destruct Hx as (r & Hr & _). by rewrite Hc3, Er in Hr.
      * by rewrite Hc4, Hc3.
  - split; [by rewrite Hc2|]. intros Hqs. by rewrite execute_quiet in E2.
Qed.
End outcomes.

(** ** Reading back what was written *)

Section roundtrip.
Context `{ChronoLaws}.

Lemma str_to_state_to_str st : str_to_state (state_to_str st) = st.
Proof. by destruct st. Qed.

Lemma job_roundtrip j path : job_in_range j → row_to_job (job_to_row j path) = j.
Proof.
  intros (Hc & Hp & Hr). destruct j. unfold row_to_job, job_to_row, parse_or_default; simpl in *.
  rewrite !parse_to_rfc3339, as_u64_as_i64, as_u32_id, str_to_state_to_str by done.
  destruct duplex, color; done.
Qed.
End roundtrip.

(** ** Selections *)

Section selections.
Context `{Chrono}.

(** [SELECT .. WHERE p ORDER BY key]: exactly the rows that satisfy [p], each
    as often as it is stored, in key order. *)
Definition selected (p : JobRow → bool) (key : JobRow → string) (t : Tables)
    (js : list JobMetadata) : Prop :=
  ∃ rows, js = map row_to_job rows ∧ Permutation rows (List.filter p (jobs t)) ∧
          StronglySorted (key_le key) rows.

Lemma selected_order_by p key t : selected p key t (map row_to_job (order_by key (List.filter p (jobs t)))).
Proof. eexists; split; [done|]. split; [apply order_by_perm|apply order_by_sorted]. Qed.

Lemma get_job_ok j s o s' :
  get_job j s = (Ok o, s') → o = row_to_job <$> job_row j (conn s) ∧ conn s' = conn s.
Proof. intros E. by apply prepared_query_ok in E. Qed.

Lemma get_job_conn j s : conn (snd (get_job j s)) = conn s.
Proof. apply prepared_query_conn. Qed.
End selections.

(** ** The startup recovery is all or nothing *)

Section recovery.
Context `{Chrono}.

Definition in_flight (r : JobRow) : bool := text_in (r_state r) IN_FLIGHT.

Lemma insert_events_run reason (ids : list string) s :
  let '(res, s') := for_each ids (λ job_id,
      at_ ← utc_now;
      map_err (λ _, "failed to record interrupted-job event for " +:+ job_id)
        (insert_job_event (event_new at_ job_id SFailed false reason))) s in
  match res with
  | Ok _ => jobs (conn s') = jobs (conn s) ∧
      ∃ new, job_events (conn s') = job_events (conn s) ++ new ∧ map e_job_id new = ids ∧
        Forall (λ e, e_stage e = "failed" ∧ e_success e = 0 ∧ e_detail e = reason) new
  | Err _ => True
  end.
Proof.
  revert s. induction ids as [|i ids IH]; intros s; simpl.
  - split; [done|]. exists []. by rewrite app_nil_r.
  - unfold mbind at 1, M_bind at 1, mbind at 1, M_bind at 1. rewrite utc_now_run.
    unfold map_err, insert_job_event, mbind at 1, M_bind at 1.
    set (s1 := {| conn := conn s; faults := faults s; clock := clock s; ticks := S (ticks s) |}).
    set (e := event_to_row _). set (stmt := λ t, _).
    destruct (execute_cases "insert into job_events" stmt s1) as [(s2 & -> & Hc)|(s2 & -> & Hc)]; [|done].
    simpl. specialize (IH s2). destruct (for_each ids _ s2) as [[u|err] s3]; [|done].
    destruct IH as [Hj (new & He & Hm & Hf)]. subst stmt. simpl in Hc.
    rewrite Hj, He, Hc. simpl. split; [done|]. exists (e :: new).
    rewrite <- app_assoc. simpl. rewrite Hm. split; [done|]. split; [done|].
    constructor; [|done]. done.
Qed.

Lemma fail_interrupted_outcome reason s :
  let '(res, s') := fail_interrupted_jobs reason s in
  match res with
  | Ok n =>
      n = Z.of_nat (List.length (List.filter in_flight (jobs (conn s)))) ∧
      List.filter in_flight (jobs (conn s')) = [] ∧
      (∃ upd, jobs (conn s') = map (λ r, if in_flight r
          then job_set "failed" (r_retry_count r) reason upd r else r) (jobs (conn s))) ∧
      ∃ new, job_events (conn s') = job_events (conn s) ++ new ∧
        Permutation (map e_job_id new) (map r_job_id (List.filter in_flight (jobs (conn s)))) ∧
        Forall (λ e, e_stage e = "failed" ∧ e_success e = 0 ∧ e_detail e = reason) new
  | Err _ => conn s' = conn s
  end.
Proof.
  unfold fail_interrupted_jobs, transaction. unfold mbind at 1, M_bind at 1.
  destruct (engine_cases "failed to begin interrupted-jobs transaction" s)
    as [(s1 & -> & Hc1 & _)|(s1 & -> & Hc1)]; [|done].
  rewrite <- Hc1. clear Hc1 s. rename s1 into s. unfold in_transaction, mbind, M_bind.
  destruct (engine_cases "failed to prepare interrupted-jobs query" s)
    as [(s1 & -> & Hc1 & _)|(s1 & -> & Hc1)]; [|done].
  set (sel := λ t : Tables, map r_job_id _).
  destruct (query_cases "failed to read interrupted jobs" sel s1)
    as [(s2 & -> & Hc2)|(s2 & -> & Hc2)]; [|done].
  rewrite Hc1 in *. change (sel (conn s)) with
    (map r_job_id (order_by r_created_at (List.filter in_flight (jobs (conn s))))).
  pose proof (order_by_perm r_created_at (List.filter in_flight (jobs (conn s)))) as Hperm.
  destruct (map r_job_id _) as [|i ids] eqn:Eids.
  - simpl. apply map_eq_nil in Eids. rewrite Eids in Hperm. apply Permutation_nil in Hperm.
    rewrite Hperm. simpl. split; [done|]. split; [done|]. split.
    + exists "". rewrite <- (map_id (jobs (conn s))) at 1. apply map_ext_in. intros r Hin.
      destruct (in_flight r) eqn:E; [|done]. exfalso.
      assert (In r (List.filter in_flight (jobs (conn s)))) as Hx by by apply filter_In.
      by rewrite Hperm in Hx.
    + exists []. rewrite app_nil_r. repeat split; constructor.
  - rewrite utc_now_run.
    set (s3 := {| conn := conn s2; faults := faults s2; clock := clock s2; ticks := S (ticks s2) |}).
    set (upd := to_rfc3339 _). set (stmt := update_jobs _ _).
    destruct (execute_cases "failed to mark interrupted jobs as failed" stmt s3)
      as [(s4 & -> & Hc4)|(s4 & -> & Hc4)]; [|done].
    pose proof (insert_events_run reason (i :: ids) s4) as Hev. unfold mbind, M_bind in Hev.
    destruct (for_each (i :: ids) _ s4) as [[u|err] s5]; [|done].
    unfold commit. destruct (engine_cases "failed to commit interrupted-jobs transaction" s5)
      as [(s6 & -> & Hc6 & _)|(s6 & -> & Hc6)]; [|done].
    simpl. destruct Hev as [Hj (new & He & Hm & Hf)].
    change (conn s3) with (conn s2) in *. rewrite Hc2 in *.
    rewrite Hc6, Hj, He, Hc4. subst stmt. simpl. split; [done|]. split; [|split].
    + apply filter_empty_existsb, not_true_is_false. intros Hex.
      apply existsb_exists in Hex as (r & Hin & Hb). apply in_map_iff in Hin as (r0 & <- & _).
      unfold in_flight in Hb. cbv beta in Hb.
      destruct (text_in (r_state r0) IN_FLIGHT) eqn:E; [done|congruence].
    + by exists upd.
    + exists new. split; [done|]. split; [|done]. rewrite Hm, <- Eids.
      by apply Permutation_map.
Qed.
End recovery.

(** ** Total correctness of the statements while the engine does not fail *)

Section total.
Context `{Chrono}.
(** The job [j]: its state text, retry counter and target. *)
Definition job_is (j st : string) (n : Z) (target : option string) (t : Tables) : Prop :=
  jobs_pk t ∧ ∃ r, job_row j t = Some r ∧ r_state r = st ∧ r_retry_count r = n ∧
                   r_target_client_id r = target.

Lemma hoare_insert_event e (φ : list JobRow → Prop) :
  hoare (good (λ t, φ (jobs t))) (insert_job_event e) (λ _, good (λ t, φ (jobs t))).
Proof.
  unfold insert_job_event. eapply hoare_bind.
  - apply (hoare_execute _ _ _ (λ _ t, φ (jobs t))). done.
  - intros n. by apply hoare_ret.
Qed.

Lemma hoare_get_job j st n target :
  hoare (good (job_is j st n target)) (get_job j)
    (λ o, good (λ t, job_is j st n target t ∧
       ∃ m, o = Some m ∧ state m = str_to_state st ∧ retry_count m = as_u32 n ∧
            target_client_id m = target)).
Proof.
  apply hoare_prepared. intros t (Hpk & r & Hr & Hs & Hn & Ht).
  split; [unfold job_is; eauto 10|]. unfold job_row in Hr. rewrite Hr. simpl.
  eexists. split; [done|]. simpl. by rewrite Hs, Hn.
Qed.

Lemma hoare_update_state j st n target st' :
  hoare (good (job_is j st n target)) (update_job_state j st')
    (λ _, good (job_is j (state_to_str st') n target)).
Proof.
  intros s [Hq (Hpk & r & Hr & Hs & Hn & Ht)].
  unfold update_job_state, mbind, M_bind. rewrite utc_now_run, execute_quiet by done.
  set (upd := to_rfc3339 _). simpl. change (conn {| conn := conn s; faults := _; clock := _; ticks := _ |}) with (conn s).
  pose proof (update_by_id_count (λ _, true) (set_state (state_to_str st') upd) j (conn s) Hpk) as Hc.
  rewrite Hr in Hc. unfold update_jobs in Hc. simpl in Hc.
  erewrite (filter_ext _ (λ r, by_id j r && true)) by (intros; by rewrite andb_true_r).
  rewrite Hc. simpl. eexists _, _. split; [done|]. split; [done|]. split.
  - by apply (update_jobs_pk (by_id j) (set_state (state_to_str st') upd) (conn s)).
  - pose proof (job_row_update (by_id j) (set_state (state_to_str st') upd) j (conn s)) as Hu.
    unfold update_jobs in Hu. simpl in *. rewrite Hu by done. rewrite Hr. simpl.
    rewrite (proj2 (by_id_true j r)) by by apply (job_row_id j (conn s)).
    eexists. split; [done|]. done.
Qed.

Lemma hoare_conditional ctx j states f st n target :
  (∀ now r, r_job_id (f now r) = r_job_id r) →
  hoare (good (job_is j st n target)) (conditional_update ctx j states f)
    (λ b, good (λ t, b = text_in st states ∧ jobs_pk t ∧ ∃ r, r_state r = st ∧
       r_retry_count r = n ∧ r_target_client_id r = target ∧
       ∃ now, job_row j t = Some (if b : bool then f now r else r))).
Proof.
  intros Hf s [Hq (Hpk & r & Hr & Hs & Hn & Ht)].
  pose proof (conditional_update_outcome ctx j states f s Hf Hpk) as Ho.
  assert (quiet (snd (conditional_update ctx j states f s)) ∧
          jobs_pk (conn (snd (conditional_update ctx j states f s)))) as [Hq' Hpk'].
  { unfold conditional_update, mbind, M_bind. rewrite utc_now_run, execute_quiet by done.
    destruct (_ =? 0); simpl.
    - unfold existing_state_text, mbind, M_bind. rewrite query_quiet by done.
      destruct (List.find _ _); simpl; (split; [done|]); by apply update_jobs_pk.
    - split; [done|]. by apply update_jobs_pk. }
  destruct (conditional_update ctx j states f s) as [[[]|e] s']; simpl in *.
  - destruct Ho as (row & Hrow & Htx & Hch & _). rewrite Hr in Hrow. injection Hrow as <-.
    eexists _, _. split; [done|]. split; [done|]. rewrite Hs in Htx.
    split; [done|]. split; [done|]. eauto 10.
  - destruct Ho as (row & Hrow & Htx & Hc). rewrite Hr in Hrow. injection Hrow as <-.
    eexists _, _. split; [done|]. split; [done|]. rewrite Hs in Htx.
    split; [done|]. split; [done|]. exists r. rewrite Hc.
    do 3 (split; [done|]). by exists "".
  - destruct Ho as [_ Hno]. by rewrite Hno in Hr.
Qed.

Lemma hoare_unless_terminal j st n target st' :
  hoare (good (job_is j st n target)) (update_job_state_unless_terminal j st')
    (λ b, good (λ t, b = text_in st OPEN_STATES ∧
            job_is j (if b : bool then state_to_str st' else st) n target t)).
Proof.
  eapply hoare_conseq.
  - by apply (hoare_conditional ("failed to update job " +:+ j) j OPEN_STATES
                (λ now, set_state (state_to_str st') now)).
  - done.
  - intros b s [Hq (Hb & Hpk & r & Hs & Hn & Ht & now & Hr)]. split; [done|].
    split; [done|]. split; [done|]. destruct b; eexists; (split; [exact Hr|]); done.
Qed.

Lemma hoare_requeue j st n target d :
  hoare (good (job_is j st n target)) (requeue_job j d)
    (λ b, good (λ t, b = text_in st REQUEUEABLE ∧
            job_is j (if b : bool then "queued" else st) (if b : bool then n + 1 else n) target t)).
Proof.
  eapply hoare_conseq.
  - by apply (hoare_conditional ("failed to requeue job " +:+ j) j REQUEUEABLE
                (λ now r, job_set "queued" (r_retry_count r + 1) d now r)).
  - done.
  - intros b s [Hq (Hb & Hpk & r & Hs & Hn & Ht & now & Hr)]. split; [done|].
    split; [done|]. split; [done|]. destruct b; eexists; (split; [exact Hr|]); simpl;
      rewrite ?Hn; done.
Qed.

Lemma hoare_unconfirm j st n target :
  hoare (good (job_is j st n target)) (unconfirm_completed_job j)
    (λ b, good (λ t, b = (st =t? "completed") ∧
            job_is j (if b : bool then "unconfirmed" else st) n target t)).
Proof.
  intros s [Hq (Hpk & r & Hr & Hs & Hn & Ht)].
  unfold unconfirm_completed_job, mbind, M_bind. rewrite utc_now_run, execute_quiet by done.
  set (f := set_state "unconfirmed" _).
  set (s1 := {| conn := conn s; faults := faults s; clock := clock s; ticks := S (ticks s) |}).
  change (conn s1) with (conn s).
  rewrite (update_by_id_count (λ r, r_state r =t? "completed") f j (conn s) Hpk), Hr, Hs.
  eexists _, _. split; [done|]. split; [done|].
  destruct (String.eqb_spec st "completed") as [->|Hne]; simpl; (split; [done|]); (split; [by apply update_jobs_pk|]).
  - destruct (one_job_update (λ r, r_state r =t? "completed") f j (conn s) r) as [Hone _];
      [done|done|by rewrite Hs|]. exists (f r). split; [exact Hone|]. done.
  - pose proof (update_by_id_nothing (λ r, r_state r =t? "completed") f j (conn s) Hpk) as Hn0.
    rewrite Hr, Hs in Hn0. exists r. split; [|done]. rewrite <- Hr. f_equal. apply Hn0.
    by apply String.eqb_neq.
Qed.
End total.
