(* ===== verification/QueueTheory.v ===== *)
(** * Theory of the queue

    Lifting of store relations to the queue; where a job id goes when it is
    pushed, requeued or drained. *)

From Stdlib Require Import ZArith String Sorting.Sorted Sorting.Permutation.
From stdpp Require Import gmap.
From S2P Require Import Prelude RustStd Core Sqlite Storage StorageTheory Queue.
#[local] Open Scope Z_scope.

Definition on_store `{Chrono} (R : relation Tables) : relation JobQueue :=
  λ q q', R (conn (storage q)) (conn (storage q')).
#[export] Instance on_store_preorder `{Chrono} (R : relation Tables) `{!PreOrder R} :
  PreOrder (on_store R).
Proof.
  split; [intros q; unfold on_store; reflexivity|].
  intros a b c Hab Hbc. unfold on_store in *. by etrans.
Qed.

Section lift.
Context `{Chrono} (R : relation Tables) `{!PreOrder R}.

Lemma respects_on_storage {A} (m : SM A) :
  respects (on_conn R) m → respects (on_store R) (on_storage m).
Proof. intros Hm. eapply respects_zoom; [|exact Hm]. done. Qed.

Lemma respects_modify_store {E} (f : JobQueue → JobQueue) :
  (∀ q, storage (f q) = storage q) → respects (on_store R) (modify f : M JobQueue E unit).
Proof. intros Hf q. unfold on_store. simpl. rewrite Hf. reflexivity. Qed.

Lemma channel_send_storage ch x (q : JobQueue) : storage (channel_send ch x q) = storage q.
Proof. unfold channel_send. by destruct (channels q !! ch). Qed.

Lemma respects_try_recv ch : respects (on_store R) (channel_try_recv ch).
Proof.
  intros q. unfold channel_try_recv, on_store.
  destruct (channels q !! ch) as [[|x l]|]; reflexivity.
Qed.

Lemma respects_emit_event e : respects (on_store R) (emit_event e).
Proof. by apply respects_modify_store. Qed.

Lemma respects_signal : respects (on_store R) signal_reconciler.
Proof. by apply respects_modify_store. Qed.

Lemma respects_register m c : respects (on_store R) (register_client m c).
Proof. intros q. unfold on_store. simpl. reflexivity. Qed.

Lemma respects_unregister m c : respects (on_store R) (unregister_client m c).
Proof.
  apply respects_modify_store. intros q.
  destruct (client_channels q !! m) as [[i ch]|]; [by destruct (i =t? c)|done].
Qed.

Lemma respects_route c j : respects (on_store R) (route_to_client c j).
Proof.
  apply respects_modify_store. intros q.
  destruct (client_channels q !! c) as [[i ch]|]; [apply channel_send_storage|done].
Qed.

Lemma respects_push_default j : respects (on_store R) (push_default j).
Proof. by apply respects_modify_store. Qed.

Lemma respects_next_job : respects (on_store R) next_job.
Proof. intros q. unfold next_job, on_store. destruct (default_pending q); reflexivity. Qed.

Lemma respects_is_active m c : respects (on_store R) (is_active_connection m c).
Proof. apply respects_gets. apply _. Qed.

Lemma respects_get_job j : respects (on_conn R) (get_job j).
Proof. unfold get_job. solve_respects. Qed.

Lemma respects_requesting_user j : respects (on_store R) (requesting_user_of j).
Proof.
  unfold requesting_user_of. solve_respects. apply respects_on_storage, respects_get_job.
Qed.

Lemma respects_drain c : respects (on_store R) (drain_pending_for_client c).
Proof.
  unfold drain_pending_for_client. solve_respects; [|apply respects_route].
  apply respects_on_storage. unfold get_queued_jobs_for_client. solve_respects.
Qed.
End lift.

(** A statement on another table than [jobs]. *)
Section other_tables.
Context `{Chrono} (Q : relation JobRow) `{!PreOrder Q}.
Abbreviation le := (on_conn (jobs_le Q)).

Lemma respects_other_checked ctx stmt :
  (∀ t t' n, stmt t = Some (t', n) → jobs t' = jobs t) → respects le (execute_checked ctx stmt).
Proof.
  intros Hs. apply respects_execute_checked; [apply _|].
  intros t t' n Ht. apply jobs_le_same; [apply _|eauto].
Qed.

Lemma respects_other ctx stmt :
  (∀ t, jobs (fst (stmt t)) = jobs t) → respects le (execute ctx stmt).
Proof. intros Hs. apply respects_execute; [apply _|]. intros t. by apply jobs_le_same; [apply _|]. Qed.

Lemma upsert_client_le r : respects le (Storage.upsert_client r).
Proof. unfold Storage.upsert_client. solve_respects. by apply respects_other. Qed.
Lemma set_client_online_le m b : respects le (Storage.set_client_online m b).
Proof. unfold Storage.set_client_online. solve_respects. by apply respects_other. Qed.
Lemma touch_client_le m : respects le (Storage.touch_client m).
Proof. unfold Storage.touch_client. solve_respects. by apply respects_other. Qed.
Lemma get_client_le m : respects le (Storage.get_client m).
Proof. unfold Storage.get_client. solve_respects. Qed.
Lemma update_pairing_le m p : respects le (Storage.update_pairing_state m p).
Proof. unfold Storage.update_pairing_state. solve_respects. by apply respects_other. Qed.
Lemma insert_event_other_le e : respects le (Storage.insert_job_event e).
Proof. unfold Storage.insert_job_event. solve_respects. by apply respects_other. Qed.
Lemma insert_vp_le v : respects le (Storage.insert_virtual_printer v).
Proof.
  unfold Storage.insert_virtual_printer. solve_respects. apply respects_other_checked.
  intros t t' n. destruct (existsb _ _); [done|]. by intros [= <- _].
Qed.
Lemma update_vp_le v : respects le (Storage.update_virtual_printer v).
Proof.
  unfold Storage.update_virtual_printer. solve_respects. apply respects_other_checked.
  intros t t' n. destruct (_ && _); [done|]. by intros [= <- _].
Qed.
Lemma delete_vp_le i : respects le (Storage.delete_virtual_printer i).
Proof. unfold Storage.delete_virtual_printer. solve_respects. by apply respects_other. Qed.
Lemma get_vp_by_ipp_le i : respects le (get_virtual_printer_by_ipp_name i).
Proof. unfold get_virtual_printer_by_ipp_name. solve_respects. Qed.
Lemma resolve_target_le m : respects le (resolve_target m).
Proof. unfold resolve_target. solve_respects. apply get_vp_by_ipp_le. Qed.
Lemma get_spool_path_le j : respects le (get_spool_path j).
Proof. unfold get_spool_path. solve_respects. Qed.
Lemma get_stale_le t : respects le (Storage.get_stale_jobs t).
Proof. unfold Storage.get_stale_jobs. solve_respects. Qed.
End other_tables.
#[export] Hint Resolve respects_emit_event respects_signal respects_register respects_unregister
  respects_route respects_push_default respects_next_job respects_is_active respects_get_job
  respects_requesting_user respects_drain respects_try_recv respects_on_storage
  upsert_client_le set_client_online_le touch_client_le get_client_le update_pairing_le
  insert_event_other_le insert_vp_le update_vp_le delete_vp_le resolve_target_le
  get_spool_path_le get_stale_le update_state_le : respects.

(** ** The queue's state changes respect a job's life *)

Section queue_le.
Context `{Chrono}.
Abbreviation qle := (on_store (jobs_le row_le)).

Lemma queue_update_state_le j st :
  text_in (state_to_str st) OPEN_STATES = false → respects qle (update_state j st).
Proof. intros Hst. unfold update_state. solve_respects. Qed.

Lemma queue_unless_terminal_le j st : respects qle (update_state_unless_terminal j st).
Proof. unfold update_state_unless_terminal. solve_respects. Qed.

Lemma queue_unconfirm_le j : respects qle (unconfirm_completed j).
Proof. unfold unconfirm_completed. solve_respects. Qed.

Lemma queue_requeue_le j d : respects qle (requeue_job j d).
Proof. unfold requeue_job. solve_respects. Qed.

Lemma queue_insert_event_le e : respects qle (insert_job_event e).
Proof. unfold insert_job_event. solve_respects. Qed.
End queue_le.
#[export] Hint Resolve queue_update_state_le queue_unless_terminal_le queue_unconfirm_le
  queue_requeue_le queue_insert_event_le : respects.

(** ** Capturing a new job *)

Section push.
Context `{Chrono}.
Abbreviation qle := (on_store (jobs_le row_le)).

(** Only queries: the tables do not change. *)
Lemma resolve_target_eq m : respects (on_conn eq) (resolve_target m).
Proof.
  unfold resolve_target. solve_respects. unfold get_virtual_printer_by_ipp_name. solve_respects.
Qed.

Lemma resolve_target_keeps m s m' s' :
  resolve_target m s = (Ok m', s') →
  conn s' = conn s ∧ ∃ target, m' = with_target target m.
Proof.
  intros Hr. pose proof (resolve_target_eq m s) as Hc. rewrite Hr in Hc.
  split; [by symmetry|]. revert Hr. unfold resolve_target, mret, M_ret, mbind, M_bind, attempt.
  destruct (target_printer m =t? ""); [intros [= <- _]; exists (target_client_id m); by destruct m|].
  destruct (get_virtual_printer_by_ipp_name (target_printer m) s) as [res s1].
  destruct (ok_flatten res) as [vp|]; [destruct (paired_client_id vp) as [c|]|];
    intros [= <- _]; [by exists (Some c)| |]; exists (target_client_id m); by destruct m.
Qed.

Definition store_new_job (meta : JobMetadata) (path : string) : SM JobMetadata :=
  m ← resolve_target meta; _ ← insert_job m path; mret m.

Lemma insert_job_fresh m path s :
  job_row (job_id m) (conn s) = None →
  let '(res, s') := insert_job m path s in
  match res with
  | Ok _ => conn s' = set_jobs (λ rows, rows ++ [job_to_row m path]) (conn s)
  | Err _ => conn s' = conn s
  end.
Proof.
  intros Hf. unfold insert_job, mbind, M_bind.
  set (stmt := λ t : Tables, _).
  destruct (execute_cases ("failed to insert job " +:+ job_id m) stmt s)
    as [(s1 & -> & Hc)|(s1 & -> & Hc)]; simpl; [|done].
  rewrite Hc. subst stmt. unfold set_jobs; simpl.
  rewrite upsert_fresh by done. done.
Qed.

Lemma store_new_job_le m path s :
  job_row (job_id m) (conn s) = None →
  jobs_le row_le (conn s) (conn (snd (store_new_job m path s))).
Proof.
  intros Hf. unfold store_new_job, mbind at 1, M_bind at 1.
  destruct (resolve_target m s) as [[m'|e] s1] eqn:Er.
  - apply resolve_target_keeps in Er as [Hc [target ->]].
    assert (job_row (job_id (with_target target m)) (conn s1) = None) as Hf1 by by rewrite Hc.
    pose proof (insert_job_fresh _ path _ Hf1) as Hi. unfold mbind, M_bind.
    destruct (insert_job (with_target target m) path s1) as [[u|e] s2]; simpl;
      rewrite Hi, Hc; [apply jobs_le_append; apply _|reflexivity].
  - pose proof (resolve_target_eq m s) as Hc. rewrite Er in Hc. simpl.
    unfold on_conn in Hc. simpl in Hc. rewrite <- Hc. reflexivity.
Qed.

Lemma push_le meta path q :
  job_row (job_id meta) (conn (storage q)) = None → qle q (snd (push meta path q)).
Proof.
  intros Hf. unfold push, mbind at 1, M_bind at 1.
  pose proof (store_new_job_le meta path (storage q) Hf) as Hs.
  unfold on_storage at 1, zoom at 1.
  change (m ← resolve_target meta; _ ← insert_job m path; mret m)
    with (store_new_job meta path).
  destruct (store_new_job meta path (storage q)) as [[m|e] s1]; simpl in *; [|done].
  assert (qle q (set_storage s1 q)) as Hq by done.
  etrans; [exact Hq|]. generalize (set_storage s1 q) as q1. clear.
  match goal with |- ∀ q1, qle q1 (snd (?f q1)) => change (respects qle f) end.
  solve_respects.
Qed.
End push.

(** ** The upsert of a job *)

Section upsert.
Context `{Chrono}.

(** The row an insert leads to: a stored job keeps everything but its state,
    its retries, its error and its update time. *)
Definition upserted (new : JobRow) (old : option JobRow) : JobRow :=
  match old with
  | Some r => job_set (r_state new) (r_retry_count new) (r_error_detail new) (r_updated_at new) r
  | None => new
  end.

Lemma upsert_one_changed new t :
  one_job_changed (r_job_id new) (upserted new (job_row (r_job_id new) t)) t
    (set_jobs (upsert_job_row new) t).
Proof.
  destruct (job_row (r_job_id new) t) as [r|] eqn:Er.
  - assert (set_jobs (upsert_job_row new) t = fst (update_jobs (by_id (r_job_id new))
      (job_set (r_state new) (r_retry_count new) (r_error_detail new) (r_updated_at new)) t)) as ->.
    { unfold upsert_job_row, update_jobs, set_jobs. simpl.
      assert (existsb (by_id (r_job_id new)) (jobs t) = true) as ->; [|done].
      apply existsb_exists. exists r. split; [by eapply job_row_in|].
      apply by_id_true. by eapply job_row_id. }
    split.
    + rewrite job_row_update, Er by done. simpl.
      by rewrite (proj2 (by_id_true _ r)) by by eapply job_row_id.
    + intros j' Hne. rewrite job_row_update by done.
      destruct (job_row j' t) as [r'|] eqn:E'; [|done]. simpl.
      destruct (by_id (r_job_id new) r') eqn:Eb; [|done].
      apply by_id_true in Eb. apply job_row_id in E'. congruence.
  - unfold set_jobs, one_job_changed, job_row. simpl. rewrite upsert_fresh by done.
    assert (∀ j l, List.find (by_id j) (l ++ [new]) = match List.find (by_id j) l with
      Some x => Some x | None => if by_id j new then Some new else None end) as Happ.
    { intros j l. induction l as [|x l IH]; simpl; [done|]. by destruct (by_id j x). }
    split; [|intros j' Hne]; rewrite Happ.
    + unfold job_row in Er. rewrite Er. simpl.
      by rewrite (proj2 (by_id_true _ _) eq_refl).
    + destruct (by_id j' new) eqn:Eb; [by apply by_id_true in Eb|].
      by destruct (List.find _ _).
Qed.

Lemma insert_job_outcome meta path s :
  let '(res, s') := insert_job meta path s in
  match res with
  | Ok _ => one_job_changed (job_id meta)
      (upserted (job_to_row meta path) (job_row (job_id meta) (conn s))) (conn s) (conn s')
  | Err _ => conn s' = conn s ∧ ¬ quiet s
  end.
Proof.
  unfold insert_job, mbind, M_bind. set (stmt := λ t : Tables, _).
  pose proof (execute_cases ("failed to insert job " +:+ job_id meta) stmt s) as Hx.
  pose proof (λ Hq, execute_quiet ("failed to insert job " +:+ job_id meta) stmt s Hq) as Hquiet.
  destruct (execute _ stmt s) as [[n|e] s1].
  - destruct Hx as [(s2 & E & Hc)|(s2 & E & _)]; [|done]. injection E as _ <-. simpl.
    rewrite Hc. apply (upsert_one_changed (job_to_row meta path) (conn s)).
  - destruct Hx as [(s2 & E & _)|(s2 & E & Hc)]; [done|]. injection E as _ <-. simpl.
    split; [done|]. intros Hq. by apply Hquiet in Hq.
Qed.
End upsert.

(** ** Total correctness on the queue *)

Section total.
Context `{Chrono}.

Definition qgood (φ : Tables → Prop) (q : JobQueue) : Prop := good φ (storage q).

Lemma hoare_on_storage {A} φ (m : SM A) (ψ : A → Tables → Prop) :
  hoare (good φ) m (λ a, good (ψ a)) → hoare (qgood φ) (on_storage m) (λ a, qgood (ψ a)).
Proof.
  intros Hm q Hq. destruct (Hm _ Hq) as (a & s1 & E & Hs).
  exists a, (set_storage s1 q). unfold on_storage, zoom. by rewrite E.
Qed.

Lemma hoare_modify_queue {E} φ (f : JobQueue → JobQueue) :
  (∀ q, storage (f q) = storage q) →
  hoare (qgood φ) (modify f : M JobQueue E unit) (λ _, qgood φ).
Proof. intros Hf. apply hoare_modify. intros q Hq. unfold qgood. by rewrite Hf. Qed.

Lemma hoare_requesting_user j st n target :
  hoare (qgood (job_is j st n target)) (requesting_user_of j)
    (λ _, qgood (job_is j st n target)).
Proof.
  unfold requesting_user_of. eapply hoare_bind.
  - apply hoare_attempt, hoare_on_storage, hoare_get_job.
  - intros [o|e]; [|by intros s Hs]. apply hoare_ret. intros s [Hq [Hj _]]. by split.
Qed.

Lemma hoare_queue_update_state j st n target st' :
  hoare (qgood (job_is j st n target)) (update_state j st')
    (λ _, qgood (job_is j (state_to_str st') n target)).
Proof.
  unfold update_state. eapply hoare_bind; [apply hoare_on_storage, hoare_update_state|].
  intros a. eapply hoare_bind; [apply hoare_requesting_user|].
  intros u. by apply hoare_modify_queue.
Qed.

(** The tail of [update_state_unless_terminal] and [unconfirm_completed]. *)
Definition announce (j : string) (st : JobState) (changed : bool) : QM bool :=
  if changed then
    user ← requesting_user_of j;
    _ ← emit_event (StateChanged j st user);
    mret true
  else mret false.

Lemma hoare_announce j st' b st n target :
  hoare (qgood (job_is j st n target)) (announce j st' b)
    (λ r q, r = b ∧ qgood (job_is j st n target) q).
Proof.
  unfold announce. destruct b; [|by apply hoare_ret].
  eapply hoare_bind; [apply hoare_requesting_user|]. intros u.
  eapply hoare_bind; [by apply hoare_modify_queue|]. intros u'. by apply hoare_ret.
Qed.

(** A conditional change of one job, then its announcement. *)
Lemma hoare_announced {j st'} (m : SM bool) (B : bool) φ (st : bool → string) n target :
  hoare (good φ) m (λ b, good (λ t, b = B ∧ job_is j (st b) n target t)) →
  hoare (qgood φ) (changed ← on_storage m; announce j st' changed)
    (λ b q, b = B ∧ qgood (job_is j (st B) n target) q).
Proof.
  intros Hm. eapply hoare_bind; [apply hoare_on_storage, Hm|]. intros b.
  apply hoare_conseq with (P' := λ q, b = B ∧ qgood (job_is j (st B) n target) q)
    (Q' := λ r q, r = B ∧ qgood (job_is j (st B) n target) q).
  - apply hoare_pure. intros ->. apply hoare_announce.
  - intros q [Hq [-> Hj]]. split; [done|]. by split.
  - by intros.
Qed.

Lemma hoare_queue_unless_terminal j st n target st' :
  hoare (qgood (job_is j st n target)) (update_state_unless_terminal j st')
    (λ b q, b = text_in st OPEN_STATES ∧
       qgood (job_is j (if text_in st OPEN_STATES then state_to_str st' else st) n target) q).
Proof.
  apply (hoare_announced _ _ _ (λ b : bool, if b then state_to_str st' else st)).
  apply hoare_unless_terminal.
Qed.

Lemma hoare_queue_unconfirm j st n target :
  hoare (qgood (job_is j st n target)) (unconfirm_completed j)
    (λ b q, b = (st =t? "completed") ∧
       qgood (job_is j (if st =t? "completed" then "unconfirmed" else st) n target) q).
Proof.
  apply (hoare_announced _ _ _ (λ b : bool, if b then "unconfirmed" else st)).
  apply hoare_unconfirm.
Qed.

Lemma hoare_queue_insert_event e (φ : list JobRow → Prop) :
  hoare (qgood (λ t, φ (jobs t))) (insert_job_event e) (λ _, qgood (λ t, φ (jobs t))).
Proof. apply hoare_on_storage, hoare_insert_event. Qed.
End total.

(** ** Where a job id goes *)

Section routing.
Context `{Chrono}.

(** The id is appended to the live channel of the client the job is paired
    to, or to the default queue when it is paired to none. *)
Definition delivered (target : option string) (j : string) (q q' : JobQueue) : Prop :=
  match target with
  | Some c =>
    default_pending q' = default_pending q ∧
    channels q' = match client_channels q !! c with
                  | Some (_, ch) => alter (λ msgs, msgs ++ [j]) ch (channels q)
                  | None => channels q
                  end
  | None => default_pending q' = default_pending q ++ [j] ∧ channels q' = channels q
  end.

Definition route (target : option string) (j : string) : QM unit :=
  match target with Some c => route_to_client c j | None => push_default j end.

Lemma channel_send_channels ch j q :
  channels (channel_send ch j q) = alter (λ msgs, msgs ++ [j]) ch (channels q).
Proof.
  unfold channel_send. destruct (channels q !! ch) as [msgs|] eqn:E.
  - simpl. apply map_eq. intros k. rewrite lookup_insert, lookup_alter.
    case_decide; [subst; by rewrite E|done].
  - apply map_eq. intros k. rewrite lookup_alter. case_decide; [subst; by rewrite E|done].
Qed.

Lemma channel_send_default ch j q : default_pending (channel_send ch j q) = default_pending q.
Proof. unfold channel_send. by destruct (channels q !! ch). Qed.

Lemma route_run target j q :
  ∃ q', route target j q = (Ok tt, q') ∧ delivered target j q q' ∧ storage q' = storage q.
Proof.
  destruct target as [c|]; simpl.
  - unfold route_to_client, modify. eexists; split; [done|].
    destruct (client_channels q !! c) as [[i ch]|] eqn:E; [|done].
    rewrite channel_send_default, channel_send_channels, channel_send_storage. done.
  - eexists; split; [done|]. done.
Qed.

(** [delivered] looks at the queues, not at the store or the event log. *)
Definition same_queues (q q' : JobQueue) : Prop :=
  default_pending q' = default_pending q ∧ channels q' = channels q ∧
  client_channels q' = client_channels q.

#[export] Instance same_queues_preorder : PreOrder same_queues.
Proof. split; [done|]. intros a b c (H1 & H2 & H3) (H4 & H5 & H6). repeat split; congruence. Qed.

Lemma delivered_same target j q0 q q' :
  same_queues q0 q → delivered target j q q' → delivered target j q0 q'.
Proof. intros (H1 & H2 & H3). unfold delivered. by rewrite H1, H2, H3. Qed.

Lemma same_queues_on_storage {A} (m : SM A) : respects same_queues (on_storage m).
Proof. intros q. unfold on_storage, zoom. by destruct (m (storage q)). Qed.

Lemma same_queues_emit e : respects same_queues (emit_event e).
Proof. intros q. unfold emit_event, modify. simpl. done. Qed.

(** The reference: the client a new job is for. *)
Definition paired_target (meta : JobMetadata) (t : Tables) : option string :=
  if target_printer meta =t? "" then target_client_id meta
  else match List.find (vp_by_ipp (target_printer meta)) (virtual_printers t) with
       | Some vp => match v_paired_client_id vp with
                    | Some c => Some c | None => target_client_id meta end
       | None => target_client_id meta
       end.

Lemma resolve_target_quiet meta s :
  quiet s → resolve_target meta s = (Ok (with_target (paired_target meta (conn s)) meta), s).
Proof.
  intros Hq. unfold resolve_target, paired_target.
  assert (with_target (target_client_id meta) meta = meta) as Hid by by destruct meta.
  destruct (target_printer meta =t? ""); [by rewrite Hid|].
  unfold attempt, get_virtual_printer_by_ipp_name, mbind, M_bind.
  rewrite engine_quiet, query_quiet by done. simpl.
  destruct (List.find _ _) as [vp|]; simpl; [|by rewrite Hid].
  destruct (v_paired_client_id vp) as [c|]; [done|by rewrite Hid].
Qed.

(** The target is the pairing's, unless a call of the lookup failed: then it is
    the job's own. *)
Definition target_of (meta : JobMetadata) (t : Tables) (failed : Prop) (target : option string) : Prop :=
  target = paired_target meta t ∨ target = target_client_id meta ∧ failed.

Lemma resolve_target_outcome meta s :
  ∃ target s', resolve_target meta s = (Ok (with_target target meta), s') ∧ conn s' = conn s ∧ spends s s'
               ∧ target_of meta (conn s) (failed_between s s') target.
Proof.
  unfold resolve_target, target_of, paired_target.
  assert (with_target (target_client_id meta) meta = meta) as Hid by by destruct meta.
  destruct (target_printer meta =t? "").
  { exists (target_client_id meta), s. rewrite Hid. split_and!; [done|done|reflexivity|by left]. }
  unfold attempt, get_virtual_printer_by_ipp_name. unfold mbind at 1, M_bind at 1.
  pose proof (prepared_query_outcome "failed to prepare get-vp-by-ipp query" "failed to query virtual printer by ipp_name"
    (λ t, row_to_virtual_printer <$> List.find (vp_by_ipp (target_printer meta)) (virtual_printers t)) s) as Hr.
  destruct ((_ ← engine _; query _ _) s) as [r s1]. destruct Hr as (Hc & Hs & [->|[[e ->] Hf]]); simpl.
  - destruct (List.find _ _) as [vp|]; simpl; [destruct (v_paired_client_id vp) as [c|]|].
    + exists (Some c), s1. split_and!; [done|done|done|auto].
    + exists (target_client_id meta), s1. rewrite Hid. split_and!; [done|done|done|auto].
    + exists (target_client_id meta), s1. rewrite Hid. split_and!; [done|done|done|auto].
  - exists (target_client_id meta), s1. rewrite Hid. split_and!; [done|done|done|auto].
Qed.

Lemma store_new_job_outcome meta path s :
  job_row (job_id meta) (conn s) = None →
  let '(res, s') := store_new_job meta path s in
  match res with
  | Ok m => ∃ target, m = with_target target meta ∧
      jobs (conn s') = jobs (conn s) ++ [job_to_row m path] ∧ spends s s' ∧
      target_of meta (conn s) (failed_between s s') target
  | Err _ => conn s' = conn s ∧ ¬ quiet s
  end.
Proof.
  intros Hf. unfold store_new_job, mbind at 1, M_bind at 1.
  destruct (resolve_target_outcome meta s) as (target & s1 & E & Hc & Hs & Ht). rewrite E.
  assert (job_row (job_id (with_target target meta)) (conn s1) = None) as Hf1 by by rewrite Hc.
  pose proof (insert_job_fresh _ path _ Hf1) as Hi. unfold mbind, M_bind.
  assert (spends s1 (snd (insert_job (with_target target meta) path s1))) as Hs1.
  { assert (respects spends (insert_job (with_target target meta) path)) as Hr by (unfold insert_job; solve_respects).
    apply Hr. }
  destruct (insert_job (with_target target meta) path s1) as [[u|e] s2] eqn:Ei; simpl in *.
  - exists target. split; [done|]. split; [by rewrite Hi, Hc|]. split; [by etrans|].
    destruct Ht as [->|[-> Hfail]]; [by left|]. right. split; [done|]. by eapply failed_later.
  - split; [congruence|]. intros Hq. rewrite resolve_target_quiet in E by done.
    injection E as _ <-. unfold insert_job, mbind, M_bind in Ei. by rewrite execute_quiet in Ei.
Qed.

Lemma insert_job_event_conn e s :
  jobs (conn (snd (Storage.insert_job_event e s))) = jobs (conn s).
Proof.
  unfold Storage.insert_job_event, mbind, M_bind. set (stmt := λ t : Tables, _).
  destruct (execute_cases "insert into job_events" stmt s) as [(s1 & -> & Hc)|(s1 & -> & Hc)];
    simpl; by rewrite Hc.
Qed.

Lemma spends_on_storage {A} (m : SM A) (q : JobQueue) :
  respects spends m → spends (storage q) (storage (snd (on_storage m q))).
Proof. intros Hm. specialize (Hm (storage q)). unfold on_storage, zoom. by destruct (m (storage q)). Qed.
Lemma spends_event e (q : JobQueue) : spends (storage q) (storage (snd (on_storage (Storage.insert_job_event e) q))).
Proof. apply spends_on_storage. unfold Storage.insert_job_event. solve_respects. Qed.

Lemma push_outcome meta path q :
  job_row (job_id meta) (conn (storage q)) = None →
  let '(res, q') := push meta path q in
  match res with
  | Ok _ => ∃ target,
      jobs (conn (storage q')) = jobs (conn (storage q))
        ++ [job_to_row (with_target target meta) path] ∧
      delivered target (job_id meta) q q' ∧ spends (storage q) (storage q') ∧
      target_of meta (conn (storage q)) (failed_between (storage q) (storage q')) target
  | Err _ => conn (storage q') = conn (storage q) ∧ same_queues q q' ∧ ¬ quiet (storage q)
  end.
Proof.
  intros Hf. unfold push, mbind at 1, M_bind at 1. unfold on_storage at 1, zoom at 1.
  change (m ← resolve_target meta; _ ← insert_job m path; mret m)
    with (store_new_job meta path).
  pose proof (store_new_job_outcome meta path (storage q) Hf) as Hs.
  destruct (store_new_job meta path (storage q)) as [[m|e] s1]; simpl in *;
    [|by destruct Hs].
  destruct Hs as (target & -> & Hj & Hsp & Ht). simpl.
  set (q1 := set_storage s1 q). unfold mbind, M_bind.
  set (e1 := Created _ _ _ _). pose proof (same_queues_emit e1 q1) as H1.
  set (q2 := snd (emit_event e1 q1)) in *.
  change (emit_event e1 q1) with (@Ok string _ tt, q2). cbv iota beta.
  pose proof (same_queues_on_storage utc_now q2) as H2.
  unfold on_storage at 1, zoom at 1. unfold on_storage, zoom in H2. rewrite utc_now_run in *.
  set (s3 := {| conn := conn (storage q2); faults := _; clock := _; ticks := _ |}) in *.
  set (q3 := set_storage s3 q2) in *. cbv iota beta.
  set (e2 := event_ok _ _ _ _).
  pose proof (same_queues_on_storage (Storage.insert_job_event e2) q3) as H4.
  unfold ignore, insert_job_event. set (q4 := snd (on_storage _ q3)) in *.
  destruct (route_run target (job_id meta) q4) as (q5 & E5 & Hd & Hst).
  unfold route in E5. rewrite E5. exists target.
  assert (spends s1 (storage q5)) as Hs5.
  { rewrite Hst. exact (spends_event e2 q3). }
  split; [|split; [|split]].
  - rewrite Hst. unfold q4, on_storage, zoom.
    pose proof (insert_job_event_conn e2 (storage q3)) as Hc.
    destruct (Storage.insert_job_event e2 (storage q3)) as [r s5]. simpl in *.
    by rewrite Hc.
  - eapply delivered_same; [|exact Hd]. etrans; [|exact H4]. etrans; [|exact H2].
    etrans; [|exact H1]. done.
  - by etrans.
  - destruct Ht as [->|[-> Hfail]]; [by left|]. right. split; [done|]. by eapply failed_later.
Qed.

(** The tail of [requeue_job]: the stored target decides. *)
Lemma requeue_job_outcome j d q row :
  quiet (storage q) → jobs_pk (conn (storage q)) → job_row j (conn (storage q)) = Some row →
  text_in (r_state row) REQUEUEABLE = true →
  ∃ q', requeue_job j d q = (Ok true, q') ∧ delivered (r_target_client_id row) j q q' ∧
    job_is j "queued" (r_retry_count row + 1) (r_target_client_id row) (conn (storage q')).
Proof.
  intros Hq Hpk Hr Ht. unfold requeue_job, mbind at 1, M_bind at 1.
  unfold on_storage at 1, zoom at 1.
  assert (good (job_is j (r_state row) (r_retry_count row) (r_target_client_id row)) (storage q))
    as Hg by (split; [done|]; split; [done|]; by exists row).
  destruct (hoare_requeue j _ _ _ d _ Hg) as (b & s1 & -> & Hq1 & -> & Hj1).
  rewrite Ht in *. unfold mbind at 1, M_bind at 1. unfold on_storage, zoom, attempt. simpl.
  destruct (hoare_get_job j _ _ _ _ (conj Hq1 Hj1)) as (o & s2 & E2 & Hq2 & Hj2 & m & -> & _ & _ & Htg).
  rewrite E2. simpl. rewrite Htg.
  set (q2 := set_storage s2 (set_storage s1 q)).
  destruct (route_run (r_target_client_id row) j q2) as (q3 & E3 & Hd & Hst).
  unfold route in E3. unfold mbind, M_bind.
  exists q3. destruct (r_target_client_id row); rewrite E3; (split; [done|]); rewrite Hst; done.
Qed.
End routing.
