(* ===== verification/DispatchTheory.v ===== *)
(** * Theory of the dispatch service

    The service as a transition system: every handler, every turn of a job
    stream's task, the retry tasks, the reaper and the administrator's actions
    are steps that may interleave in any order, over any schedule of database
    failures.  The safety theorems are inductions over these steps. *)

From Stdlib Require Import ZArith String Sorting.Sorted Sorting.Permutation.
From stdpp Require Import gmap relations.
From S2P Require Import Prelude RustStd Core Sqlite Storage StorageTheory Queue QueueTheory Dispatch.
#[local] Open Scope Z_scope.

Section states.
Context `{Chrono}.

Definition tables (s : Service) : Tables := conn (storage (queue s)).

(** What was sent on stream [cid] for job [j]. *)
Definition sends (j cid : string) (s : Service) : list PrintJob :=
  match streams s !! cid with
  | Some st => List.filter (λ p, pj_job_id p =t? j) (st_sent st)
  | None => []
  end.

Definition no_new_sends (j : string) (s s' : Service) : Prop :=
  ∀ cid, sends j cid s' = sends j cid s ∨ sends j cid s' = [].

(** What every step of the service respects. *)
Definition server_le (s s' : Service) : Prop :=
  jobs_le row_le (tables s) (tables s') ∧
  ∀ j, finished j (tables s) → no_new_sends j s s'.

Lemma jobs_le_finished j t t' : jobs_le row_le t t' → finished j t → finished j t'.
Proof.
  intros Hle (r & Hr & Hf). destruct (Hle j r Hr) as (r' & Hr' & _ & _ & Hfin).
  exists r'. auto.
Qed.

#[export] Instance server_le_preorder : PreOrder server_le.
Proof.
  split.
  - intros s. split; [reflexivity|]. intros j _ cid. by left.
  - intros a b c [Hj1 Hs1] [Hj2 Hs2]. split; [by etrans|].
    intros j Hf cid. pose proof (jobs_le_finished _ _ _ Hj1 Hf) as Hf2.
    destruct (Hs2 j Hf2 cid) as [->| ->]; [apply (Hs1 j Hf)|by right].
Qed.
End states.

Section lift.
Context `{Chrono}.
Abbreviation qle := (on_store (jobs_le row_le)).

Lemma set_queue_le (s : Service) q : qle (queue s) q → server_le s (set_queue q s).
Proof. intros Hq. split; [done|]. intros j _ cid. by left. Qed.

Lemma respects_zoom_queue {E A} (m : M JobQueue E A) :
  respects qle m → respects server_le (zoom queue set_queue m).
Proof. intros Hm. eapply respects_zoom; [|exact Hm]. intros. by apply set_queue_le. Qed.

Lemma respects_on_queue {A} f (m : QM A) :
  respects qle m → respects server_le (on_queue f m).
Proof. intros Hm. apply respects_zoom_queue. by apply respects_map_err. Qed.

Lemma respects_try_queue {A} (m : QM A) :
  respects qle m → respects server_le (try_queue m).
Proof. intros Hm. apply respects_attempt. by apply respects_zoom_queue. Qed.

Lemma respects_ignore_queue {A} (m : QM A) :
  respects qle m → respects server_le (ignore_queue m).
Proof. intros Hm. apply respects_ignore. by apply respects_zoom_queue. Qed.

Lemma respects_now : respects server_le now_.
Proof.
  apply respects_zoom_queue, respects_map_err. eauto with respects typeclass_instances.
Qed.

(** A change of the service that keeps the tables and the streams. *)
Lemma respects_modify_service {E} (f : Service → Service) :
  (∀ s, tables (f s) = tables s) → (∀ s, streams (f s) = streams s) →
  respects server_le (modify f : M Service E unit).
Proof.
  intros Ht Hst s. split; [simpl; rewrite Ht; reflexivity|].
  intros j _ cid. left. unfold sends. simpl. by rewrite Hst.
Qed.
End lift.
#[export] Hint Resolve respects_on_queue respects_try_queue respects_ignore_queue respects_now
  : respects.

Ltac respects_hook ::=
  first [ apply respects_try_queue | apply respects_on_queue | apply respects_ignore_queue ].

(** ** Handlers *)

Section handlers.
Context `{Chrono}.

(** Only a job whose row is [queued] is put on a stream. *)
Lemma send_job_le cid j : respects server_le (send_job cid j).
Proof.
  intros s. unfold send_job, mbind, M_bind, try_queue, attempt, zoom.
  pose proof (get_job_conn j (storage (queue s))) as Hc.
  unfold on_storage, zoom.
  destruct (get_job j (storage (queue s))) as [[o|e] st1] eqn:Eg; simpl in *;
    [|apply set_queue_le; red; simpl; rewrite Hc; reflexivity].
  set (s1 := set_queue (set_storage st1 (queue s)) s).
  assert (server_le s s1) as Hs1 by (apply set_queue_le; red; simpl; rewrite Hc; reflexivity).
  apply get_job_ok in Eg as [-> _].
  destruct (job_row j (conn (storage (queue s)))) as [row|] eqn:Er; [simpl|done].
  destruct (bool_decide_reflect (str_to_state (r_state row) = Queued)) as [Hq|Hq]; simpl; [|done].
  etrans; [exact Hs1|]. split.
  - unfold stream_send. destruct (streams s1 !! cid) as [st|]; [|reflexivity].
    destruct (st_client_gone st); reflexivity.
  - intros j' (r & Hr & Hfin) cid'. left. unfold sends, stream_send.
    destruct (streams s1 !! cid) as [st|] eqn:Est; [|done].
    destruct (st_client_gone st); [done|]. simpl.
    rewrite lookup_insert. case_decide as Hcid; [subst cid'|done].
    change (streams s !! cid) with (streams s1 !! cid). rewrite Est. simpl.
    rewrite List.filter_app. simpl.
    assert (r_job_id row ≠ j') as Hne.
    { intros Hid'. rewrite (job_row_id _ _ _ Er) in Hid'. subst j'.
      unfold s1, tables in Hr. simpl in Hr. rewrite Hc, Er in Hr. injection Hr as <-. unfold finished_row, text_in in Hfin.
      unfold str_to_state in Hq. destruct (String.eqb_spec (r_state row) "queued") as [E|E].
      - by rewrite E in Hfin.
      - repeat destruct (_ =t? _); done. }
    destruct (String.eqb_spec (r_job_id row) j'); [done|]. by rewrite app_nil_r.
Qed.
#[local] Hint Resolve send_job_le : respects.

Lemma delivery_turn_le st : respects server_le (delivery_turn st).
Proof. unfold delivery_turn, get_client. solve_respects. Qed.

Lemma delivery_select_le st : respects server_le (delivery_select_recv st).
Proof. unfold delivery_select_recv. solve_respects. Qed.

Lemma set_stream_le cid st (s : Service) :
  st_sent st = [] → server_le s (set_streams (<[cid := st]> (streams s)) s).
Proof.
  intros Hs. split; [reflexivity|]. intros j _ cid'. unfold sends. simpl.
  rewrite lookup_insert. case_decide; [rewrite Hs; by right|by left].
Qed.

Lemma delete_stream_le cid (s : Service) : server_le s (set_streams (delete cid (streams s)) s).
Proof.
  split; [reflexivity|]. intros j _ cid'. unfold sends. simpl.
  rewrite lookup_delete. case_decide; [by right|by left].
Qed.

Lemma subscribe_le cid peer ident : respects server_le (subscribe_jobs cid peer ident).
Proof.
  unfold subscribe_jobs, upsert_client, set_client_online, get_client. solve_respects.
  all: try by apply respects_modify_service.
  all: try (apply respects_modify; intros s; by apply set_stream_le).
Qed.

Lemma disconnect_le st : respects server_le (disconnect st).
Proof.
  unfold disconnect, set_client_online. solve_respects.
  all: try by apply respects_modify_service.
  apply respects_modify. intros s. apply delete_stream_le.
Qed.

Lemma retry_or_give_up_le c : respects server_le (retry_or_give_up c).
Proof.
  unfold retry_or_give_up, schedule_retry. solve_respects.
Qed.

Lemma complete_job_le c : respects server_le (complete_job c).
Proof.
  pose proof (retry_or_give_up_le c).
  unfold complete_job, record_mismatch, complete_success, complete_unconfirmed,
    complete_failed, late_failure. solve_respects.
Qed.

Lemma fire_retry_le n : respects server_le (fire_retry n).
Proof. unfold fire_retry. solve_respects. Qed.

Lemma reaper_tick_le t : respects server_le (reaper_tick t).
Proof. unfold reaper_tick, get_stale_jobs. solve_respects. Qed.

Lemma heartbeat_le m ts : respects server_le (heartbeat_ping m ts).
Proof. unfold heartbeat_ping, touch_client. solve_respects. Qed.

Lemma report_status_le `{!EventJson} us : respects server_le (report_status us).
Proof. unfold report_status, apply_status_update. solve_respects. Qed.
End handlers.

(** ** The transition system *)

Section system.
Context `{EventJson}.

Inductive server_step : Service → Service → Prop :=
(* an IPP capture or a reprint: a fresh job id *)
| step_capture meta path s :
    job_row (job_id meta) (tables s) = None →
    server_step s (snd (ignore_queue (push meta path) s))
(* the connection id is a fresh UUID *)
| step_subscribe cid peer ident s :
    streams s !! cid = None →
    server_step s (snd (subscribe_jobs cid peer ident s))
| step_turn cid st s :
    streams s !! cid = Some st → server_step s (snd (delivery_turn st s))
| step_select cid st s :
    streams s !! cid = Some st → server_step s (snd (delivery_select_recv st s))
| step_client_gone cid st s :
    streams s !! cid = Some st →
    server_step s (set_streams (<[cid := {| st_machine_id := st_machine_id st;
      st_connection_id := st_connection_id st; st_rx := st_rx st; st_sent := st_sent st;
      st_client_gone := true |}]> (streams s)) s)
| step_disconnect cid st s :
    streams s !! cid = Some st → server_step s (snd (disconnect st s))
| step_status updates s : server_step s (snd (report_status updates s))
| step_complete c s : server_step s (snd (complete_job c s))
| step_retry n s : server_step s (snd (fire_retry n s))
| step_reaper timeout s : server_step s (snd (reaper_tick timeout s))
| step_heartbeat m ts s : server_step s (snd (heartbeat_ping m ts s))
| step_pairing m p s : server_step s (snd (ignore_queue (update_pairing_state m p) s))
| step_printer_added vp s : server_step s (snd (ignore_queue (insert_virtual_printer vp) s))
| step_printer_changed vp s : server_step s (snd (ignore_queue (update_virtual_printer vp) s))
| step_printer_deleted i s : server_step s (snd (ignore_queue (delete_virtual_printer i) s)).

Lemma push_service_le meta path s :
  job_row (job_id meta) (tables s) = None →
  server_le s (snd (ignore_queue (push meta path) s)).
Proof.
  intros Hf. unfold ignore_queue, ignore, zoom. simpl.
  pose proof (push_le meta path (queue s) Hf) as Hp.
  destruct (push meta path (queue s)) as [r q]; simpl in *. by apply set_queue_le.
Qed.

Lemma client_gone_le cid st s :
  streams s !! cid = Some st →
  server_le s (set_streams (<[cid := {| st_machine_id := st_machine_id st;
    st_connection_id := st_connection_id st; st_rx := st_rx st; st_sent := st_sent st;
    st_client_gone := true |}]> (streams s)) s).
Proof.
  intros Hst. split; [reflexivity|]. intros j _ cid'. left. unfold sends. simpl.
  rewrite lookup_insert. case_decide; [subst; by rewrite Hst|done].
Qed.

Lemma server_step_le s s' : server_step s s' → server_le s s'.
Proof.
  destruct 1; [by apply push_service_le| | | |by apply client_gone_le|..].
  - apply subscribe_le.
  - apply delivery_turn_le.
  - apply delivery_select_le.
  - apply disconnect_le.
  - apply report_status_le.
  - apply complete_job_le.
  - apply fire_retry_le.
  - apply reaper_tick_le.
  - apply heartbeat_le.
  - apply respects_ignore_queue. unfold update_pairing_state. solve_respects.
  - apply respects_ignore_queue. unfold insert_virtual_printer. solve_respects.
  - apply respects_ignore_queue. unfold update_virtual_printer. solve_respects.
  - apply respects_ignore_queue. unfold delete_virtual_printer. solve_respects.
Qed.

Lemma server_steps_le s s' : rtc server_step s s' → server_le s s'.
Proof.
  induction 1 as [|a b c Hab _ IH]; [reflexivity|].
  etrans; [by apply server_step_le|done].
Qed.
End system.

(** ** What [complete_job] does on each branch, while the engine does not fail *)

Section completion.
Context `{Chrono}.

(** The reference: the state text a completion report leads to. *)
Definition completion_state (c : JobCompletion) (st : string) : string :=
  if jc_success c then "completed"
  else if jc_unconfirmed c then "unconfirmed"
  else if text_in st OPEN_STATES then "failed"
  else if st =t? "completed" then "unconfirmed"
  else st.

(** The retries it schedules for a job with [n] retries so far. *)
Definition completion_retries (c : JobCompletion) (st : string) (n max delay : Z)
    : list ScheduledRetry :=
  if negb (jc_success c) && negb (jc_unconfirmed c) && text_in st OPEN_STATES
     && (as_u32 n <? max)
  then [{| sr_delay := saturating_mul_u64 delay (2 ^ Z.min (as_u32 n) 6);
           sr_job_id := jc_job_id c; sr_error_detail := jc_error_detail c |}]
  else [].

(** The service around one job: its row, the running retries, the settings. *)
Definition sgood (φ : Tables → Prop) (l : list ScheduledRetry) (max delay : Z) (s : Service)
    : Prop :=
  qgood φ (queue s) ∧ scheduled s = l ∧ max_retries s = max ∧ retry_delay_secs s = delay.

Context (l : list ScheduledRetry) (max delay : Z).
Abbreviation sg φ := (sgood φ l max delay).

Lemma hoare_lift {E A} (m : M JobQueue E A) φ (X : A → Prop) (ψ : A → Tables → Prop) :
  hoare (qgood φ) m (λ a q, X a ∧ qgood (ψ a) q) →
  hoare (sg φ) (zoom queue set_queue m) (λ a s, X a ∧ sg (ψ a) s).
Proof.
  intros Hm s (Hq & Hl). destruct (Hm _ Hq) as (a & q1 & E1 & HX & HQ).
  exists a, (set_queue q1 s). unfold zoom. rewrite E1. done.
Qed.

Lemma hoare_now φ : hoare (sg φ) now_ (λ _, sg φ).
Proof.
  unfold now_. eapply hoare_conseq; [apply (hoare_lift _ φ (λ _, True) (λ _, φ))|done|by intros ? ? [_ ?]].
  apply hoare_map_err. eapply hoare_conseq;
    [apply (hoare_on_storage φ _ (λ _, φ)), hoare_utc_now|done|done].
Qed.

Lemma hoare_record e (φ : list JobRow → Prop) :
  hoare (sg (λ t, φ (jobs t))) (ignore_queue (insert_job_event e))
    (λ _, sg (λ t, φ (jobs t))).
Proof.
  apply hoare_ignore. eapply hoare_conseq;
    [apply (hoare_lift _ (λ t, φ (jobs t)) (λ _, True) (λ _ t, φ (jobs t)))|done|by intros ? ? [_ ?]].
  eapply hoare_conseq; [apply hoare_queue_insert_event|done|done].
Qed.

Lemma hoare_record_job e j st n target :
  hoare (sg (job_is j st n target)) (ignore_queue (insert_job_event e))
    (λ _, sg (job_is j st n target)).
Proof.
  apply (hoare_record e (λ rows, NoDup (map r_job_id rows) ∧ ∃ r,
    List.find (by_id j) rows = Some r ∧ r_state r = st ∧ r_retry_count r = n ∧
    r_target_client_id r = target)).
Qed.

Lemma hoare_read_job j st n target :
  hoare (sg (job_is j st n target)) (try_queue (on_storage (get_job j)))
    (λ r s, (∃ m, r = Ok (Some m) ∧ state m = str_to_state st ∧ retry_count m = as_u32 n ∧
                  target_client_id m = target) ∧ sg (job_is j st n target) s).
Proof.
  unfold try_queue. eapply hoare_conseq.
  - apply hoare_attempt.
    apply (hoare_lift (on_storage (get_job j)) (job_is j st n target)
      (λ o, ∃ m, o = Some m ∧ state m = str_to_state st ∧ retry_count m = as_u32 n ∧
                 target_client_id m = target) (λ _, job_is j st n target)).
    eapply hoare_conseq; [apply hoare_on_storage, hoare_get_job|done|].
    intros o q [Hq [Hj Hm]]. by split.
  - done.
  - intros [o|e] s Hs; [|done]. destruct Hs as [(m & -> & Hm) Hs]. eauto.
Qed.

Lemma hoare_mismatch c st n target :
  hoare (sg (job_is (jc_job_id c) st n target)) (record_mismatch c)
    (λ _, sg (job_is (jc_job_id c) st n target)).
Proof.
  unfold record_mismatch. eapply hoare_bind; [apply hoare_read_job|].
  intros r. apply hoare_pure. intros (m & -> & _ & _ & Ht). simpl. rewrite Ht.
  destruct target as [c0|]; [|by apply hoare_ret].
  destruct (_ && _); [|by apply hoare_ret].
  eapply hoare_bind; [apply hoare_now|]. intros now. apply hoare_record_job.
Qed.

Lemma hoare_set_state {f} c j st n target st' :
  j = jc_job_id c →
  hoare (sg (job_is j st n target)) (on_queue f (update_state j st'))
    (λ _, sg (job_is j (state_to_str st') n target)).
Proof.
  intros _. unfold on_queue. eapply hoare_conseq;
    [apply (hoare_lift _ (job_is j st n target) (λ _, True)
              (λ _, job_is j (state_to_str st') n target))|done|by intros ? ? [_ ?]].
  apply hoare_map_err. eapply hoare_conseq; [apply hoare_queue_update_state|done|done].
Qed.

Lemma hoare_late_failure c st n target :
  hoare (sg (job_is (jc_job_id c) st n target)) (late_failure c)
    (λ _, sg (job_is (jc_job_id c) (if st =t? "completed" then "unconfirmed" else st) n target)).
Proof.
  unfold late_failure. eapply hoare_bind.
  - unfold on_queue. apply (hoare_lift _ (job_is (jc_job_id c) st n target)
      (λ b, b = (st =t? "completed"))
      (λ _, job_is (jc_job_id c) (if st =t? "completed" then "unconfirmed" else st) n target)).
    apply hoare_map_err, hoare_queue_unconfirm.
  - intros b. apply hoare_pure. intros ->. destruct (st =t? "completed"); [|by apply hoare_ret].
    eapply hoare_bind; [apply hoare_now|]. intros now. apply hoare_record_job.
Qed.
End completion.

Section completion_table.
Context `{Chrono} (l : list ScheduledRetry) (max delay : Z).

Lemma hoare_retry_or_give_up c st n target :
  hoare (sgood (job_is (jc_job_id c) st n target) l max delay) (retry_or_give_up c)
    (λ _, sgood (job_is (jc_job_id c) st n target)
       (l ++ if as_u32 n <? max
             then [{| sr_delay := saturating_mul_u64 delay (2 ^ Z.min (as_u32 n) 6);
                      sr_job_id := jc_job_id c; sr_error_detail := jc_error_detail c |}]
             else []) max delay).
Proof.
  unfold retry_or_give_up. eapply hoare_bind; [apply hoare_read_job|].
  intros r. apply hoare_pure. intros (m & -> & _ & Hn & _). simpl. rewrite Hn.
  intros s (Hq & Hl & Hm & Hd). unfold mbind, M_bind, gets. rewrite Hm, Hd.
  destruct (as_u32 n <? max).
  - eexists _, _. split; [done|]. split; [done|]. simpl. by rewrite Hl.
  - eexists _, _. split; [done|]. split; [done|]. by rewrite app_nil_r.
Qed.

Lemma complete_job_total c st n target :
  hoare (sgood (job_is (jc_job_id c) st n target) l max delay) (complete_job c)
    (λ _, sgood (job_is (jc_job_id c) (completion_state c st) n target)
       (l ++ completion_retries c st n max delay) max delay).
Proof.
  unfold complete_job, completion_state, completion_retries.
  eapply hoare_bind; [apply hoare_mismatch|]. intros _u.
  destruct (jc_success c); [|destruct (jc_unconfirmed c)]; simpl; rewrite ?app_nil_r.
  - unfold complete_success. eapply hoare_bind; [apply hoare_now|]. intros now.
    eapply hoare_bind; [apply hoare_record_job|]. intros u.
    by apply (hoare_set_state _ _ _ c _ st n target Completed).
  - unfold complete_unconfirmed. eapply hoare_bind; [apply hoare_now|]. intros now.
    eapply hoare_bind; [apply hoare_record_job|]. intros u.
    by apply (hoare_set_state _ _ _ c _ st n target Unconfirmed).
  - unfold complete_failed. eapply hoare_bind; [apply hoare_now|]. intros now.
    eapply hoare_bind; [apply hoare_record_job|]. intros u.
    eapply hoare_bind.
    { unfold on_queue. apply (hoare_lift _ _ _ _ (job_is (jc_job_id c) st n target)
        (λ b, b = text_in st OPEN_STATES)
        (λ _, job_is (jc_job_id c)
           (if text_in st OPEN_STATES then state_to_str Failed else st) n target)).
      apply hoare_map_err, hoare_queue_unless_terminal. }
    intros b. apply hoare_pure. intros ->. destruct (text_in st OPEN_STATES); simpl.
    + apply hoare_retry_or_give_up.
    + rewrite app_nil_r. apply hoare_late_failure.
Qed.
End completion_table.

(** ** The parts of the service a queue call leaves alone *)

Section frame.
Context `{Chrono}.

(** The counter and the connection ids of the open streams. *)
Definition stream_ids (s : Service) : gmap string string := st_connection_id <$> streams s.
Definition same_streams (s s' : Service) : Prop :=
  connected_clients s' = connected_clients s ∧ stream_ids s' = stream_ids s.

Lemma stream_ids_none cid s : stream_ids s !! cid = None ↔ streams s !! cid = None.
Proof. unfold stream_ids. rewrite lookup_fmap. by destruct (streams s !! cid). Qed.
Lemma stream_ids_size s : size (stream_ids s) = size (streams s).
Proof. apply map_size_fmap. Qed.

#[export] Instance same_streams_preorder : PreOrder same_streams.
Proof.
  split; [done|]. intros a b c [H1 H2] [H3 H4]. split; congruence.
Qed.

Lemma same_streams_zoom {E A} (m : M JobQueue E A) :
  respects same_streams (zoom queue set_queue m).
Proof. intros s. unfold zoom. by destruct (m (queue s)). Qed.

Lemma same_streams_modify {E} (f : Service → Service) :
  (∀ s, connected_clients (f s) = connected_clients s) → (∀ s, streams (f s) = streams s) →
  respects same_streams (modify f : M Service E unit).
Proof. intros H1 H2 s. unfold same_streams, stream_ids. simpl. by rewrite H1, H2. Qed.

Lemma on_queue_run {A} f (m : QM A) (s : Service) :
  on_queue f m s = match m (queue s) with
                   | (Ok a, q) => (Ok a, set_queue q s)
                   | (Err e, q) => (Err (f e), set_queue q s)
                   end.
Proof. unfold on_queue, zoom, map_err. by destruct (m (queue s)) as [[]]. Qed.

Lemma same_streams_on_queue {A} f (m : QM A) : respects same_streams (on_queue f m).
Proof. apply same_streams_zoom. Qed.
Lemma same_streams_try_queue {A} (m : QM A) : respects same_streams (try_queue m).
Proof. apply respects_attempt, same_streams_zoom. Qed.
Lemma same_streams_ignore_queue {A} (m : QM A) : respects same_streams (ignore_queue m).
Proof. apply respects_ignore, same_streams_zoom. Qed.
Lemma same_streams_now : respects same_streams now_.
Proof. apply same_streams_zoom. Qed.

Lemma same_streams_send cid j : respects same_streams (stream_send cid j).
Proof.
  intros s. unfold stream_send, same_streams.
  destruct (streams s !! cid) as [st|] eqn:E; [|done]. destruct (st_client_gone st); [done|].
  simpl. split; [done|]. unfold stream_ids. simpl. rewrite fmap_insert. simpl.
  apply insert_id. by rewrite lookup_fmap, E.
Qed.
End frame.
#[export] Hint Resolve same_streams_on_queue same_streams_try_queue same_streams_ignore_queue
  same_streams_now same_streams_send : respects.

Section counter.
Context `{EventJson}.

(** [connected_clients] counts the open streams. *)
Definition counted (s : Service) : Prop :=
  connected_clients s = as_u64 (Z.of_nat (size (streams s))).

Lemma same_streams_counted s s' : same_streams s s' → counted s → counted s'.
Proof.
  intros [Hc Hd]. unfold counted. rewrite Hc. intros ->.
  by rewrite <- !stream_ids_size, Hd.
Qed.

Lemma send_job_streams cid j : respects same_streams (send_job cid j).
Proof. unfold send_job. solve_respects. Qed.
#[local] Hint Resolve send_job_streams : respects.

Lemma as_u64_succ n : as_u64 (as_u64 n + 1) = as_u64 (n + 1).
Proof. unfold as_u64. by rewrite Zplus_mod_idemp_l. Qed.
Lemma as_u64_pred n : as_u64 (as_u64 n - 1) = as_u64 (n - 1).
Proof. unfold as_u64. by rewrite Zminus_mod_idemp_l. Qed.

(** A step that opens, or closes, stream [cid]. *)
Definition opened (cid : string) (s s' : Service) : Prop :=
  connected_clients s' = as_u64 (connected_clients s + 1) ∧
  stream_ids s' = <[cid := cid]> (stream_ids s).
Definition closed (cid : string) (s s' : Service) : Prop :=
  connected_clients s' = as_u64 (connected_clients s - 1) ∧
  stream_ids s' = delete cid (stream_ids s).

(** [connected_clients] is exact and every stream is filed under its own id. *)
Definition streams_ok (s : Service) : Prop :=
  counted s ∧ ∀ cid i, stream_ids s !! cid = Some i → i = cid.

Lemma same_streams_ok s s' : same_streams s s' → streams_ok s → streams_ok s'.
Proof.
  intros Hs [Hc Hf]. split; [by eapply same_streams_counted|]. by rewrite (proj2 Hs).
Qed.

Lemma opened_ok cid s s' :
  streams s !! cid = None → opened cid s s' → streams_ok s → streams_ok s'.
Proof.
  intros Hn [Hc Hi] [Hcnt Hf]. apply stream_ids_none in Hn. split.
  - unfold counted in *. rewrite <- !stream_ids_size in *. rewrite Hc, Hi, Hcnt.
    rewrite map_size_insert_None by done. rewrite as_u64_succ. f_equal. lia.
  - intros c i. rewrite Hi, lookup_insert. case_decide; [by intros [= <-]|apply Hf].
Qed.

Lemma closed_ok cid s s' :
  is_Some (streams s !! cid) → closed cid s s' → streams_ok s → streams_ok s'.
Proof.
  intros [st Hs] [Hc Hi] [Hcnt Hf]. split.
  - unfold counted in *. rewrite <- !stream_ids_size in *. rewrite Hc, Hi, Hcnt.
    assert (stream_ids s !! cid = Some (st_connection_id st)) as Hl
      by (unfold stream_ids; by rewrite lookup_fmap, Hs).
    rewrite map_size_delete_Some by (by eexists). rewrite as_u64_pred. f_equal.
    assert (size (stream_ids s) ≠ 0%nat); [|lia].
    intros Hz. apply map_size_empty_inv in Hz. by rewrite Hz in Hl.
  - intros c i. rewrite Hi, lookup_delete. case_decide; [done|apply Hf].
Qed.

Lemma subscribe_outcome cid peer ident s :
  let s' := snd (subscribe_jobs cid peer ident s) in same_streams s s' ∨ opened cid s s'.
Proof.
  cbv zeta. unfold subscribe_jobs, mbind, M_bind.
  pose proof (same_streams_now s) as H1. destruct (now_ s) as [[now|e] s1]; [|by left].
  simpl in H1.
  match goal with |- context [ignore_queue ?m s1] =>
    pose proof (same_streams_ignore_queue m s1) as H2; destruct (ignore_queue m s1) as [[u|e] s2] end;
    [|left; by etrans].
  simpl in H2. match goal with |- context [try_queue ?m s2] =>
    pose proof (same_streams_try_queue m s2) as H3; destruct (try_queue m s2) as [[stored|e] s3] end;
    [|left; by do 2 (etrans; [done|])].
  simpl in H3. assert (same_streams s s3) as H03 by (by do 2 (etrans; [done|])).
  assert (∀ k : DM string, (∀ s', s' = s3 → opened cid s (snd (k s'))) →
    let s' := snd (((match ok_flatten stored with
      | Some c => match pairing_state c with
        | Rejected => throw (PermissionDenied "client has been rejected")
        | _ => mret tt end
      | None => mret tt end : DM unit) ≫= λ _, k) s3) in same_streams s s' ∨ opened cid s s') as Hgate.
  { intros k Hk. destruct (ok_flatten stored) as [c|]; [destruct (pairing_state c)|];
      unfold mbind, M_bind, mret, M_ret, throw; simpl; auto. }
  apply Hgate. clear Hgate. intros s4 ->.
  unfold on_queue, zoom, map_err, register_client, ignore_queue. simpl.
  match goal with |- context [zoom queue set_queue (set_client_online ?m ?b) ?x] =>
    pose proof (same_streams_zoom (set_client_online m b) x) as H5; set (s5 := x) in *;
    destruct (zoom queue set_queue (set_client_online m b) s5) as [r6 s6] end.
  match goal with |- context [zoom queue set_queue (drain_pending_for_client ?m) ?x] =>
    pose proof (same_streams_zoom (drain_pending_for_client m) x) as H7; set (s7 := x) in *;
    destruct (zoom queue set_queue (drain_pending_for_client m) s7) as [r8 s8] end.
  destruct H5 as [H5c H5d], H7 as [H7c H7d], H03 as [H0c H0d].
  change (stream_ids s7) with (stream_ids s6) in H7d.
  change (stream_ids s5) with (stream_ids s3) in H5d.
  change (connected_clients s7) with (as_u64 (connected_clients s6 + 1)) in H7c.
  change (connected_clients s5) with (connected_clients s3) in H5c.
  split.
  - simpl in *. by rewrite H7c, H5c, H0c.
  - unfold stream_ids. simpl. rewrite fmap_insert. simpl. simpl in *.
    change (st_connection_id <$> streams s8) with (stream_ids s8). by rewrite H7d, H5d, H0d.
Qed.
End counter.

(** ** The counter over all steps *)

Section counter_steps.
Context `{EventJson}.
#[local] Hint Resolve send_job_streams : respects.

Definition is_live (st : Stream) (q : JobQueue) : bool :=
  match client_channels q !! st_machine_id st with
  | Some (stored_id, _) => stored_id =t? st_connection_id st
  | None => false
  end.

Lemma disconnect_outcome st s :
  let '(res, s') := disconnect st s in
  res = Ok tt ∧ connected_clients s' = as_u64 (connected_clients s - 1) ∧
  streams s' = delete (st_connection_id st) (streams s) ∧
  stream_peers s' = StreamPeers.disconnected (st_machine_id st) (st_connection_id st) (stream_peers s) ∧
  channels (queue s') = delete (st_rx st) (channels (queue s)) ∧
  default_pending (queue s') = default_pending (queue s) ∧
  if is_live st (queue s)
  then client_channels (queue s') = delete (st_machine_id st) (client_channels (queue s)) ∧
       tables s' = conn (snd (Storage.set_client_online (st_machine_id st) false (storage (queue s))))
  else client_channels (queue s') = client_channels (queue s) ∧ tables s' = tables s.
Proof.
  unfold disconnect, modify, mbind, M_bind, gets, is_active_connection, unregister_client.
  rewrite on_queue_run. simpl. fold (is_live st (queue s)).
  destruct (is_live st (queue s)) eqn:El; [simpl|done]. unfold is_live in El.
  destruct (client_channels (queue s) !! st_machine_id st) as [[i ch]|]; [|done]. rewrite El.
  unfold zoom, set_client_online, on_storage, zoom. simpl.
  by destruct (Storage.set_client_online (st_machine_id st) false (storage (queue s))).
Qed.

Lemma disconnect_closed st s : closed (st_connection_id st) s (snd (disconnect st s)).
Proof.
  pose proof (disconnect_outcome st s) as Ho. destruct (disconnect st s) as [r s'].
  destruct Ho as (_ & Hn & Hs & _). split; [done|]. unfold stream_ids. simpl.
  by rewrite Hs, fmap_delete.
Qed.

(** Every other step leaves the streams and the counter alone. *)
Lemma server_step_streams s s' : server_step s s' → streams_ok s → streams_ok s'.
Proof.
  assert (∀ A (m : DM A) s0, respects same_streams m → streams_ok s0 → streams_ok (snd (m s0)))
    as Hkeep by (intros A m s0 Hm; apply same_streams_ok, Hm).
  destruct 1; intros Hok; try (apply Hkeep; [|done]; solve_respects; fail).
  - destruct (subscribe_outcome cid peer ident s) as [Hs|Ho];
      [by eapply same_streams_ok|by eapply opened_ok].
  - apply Hkeep; [|done]. unfold delivery_turn. solve_respects.
  - apply Hkeep; [|done]. unfold delivery_select_recv. solve_respects.
  - eapply same_streams_ok; [|done]. split; [done|]. unfold stream_ids. simpl.
    rewrite fmap_insert. apply insert_id. by rewrite lookup_fmap, H1.
  - eapply closed_ok; [|apply disconnect_closed|done].
    assert (stream_ids s !! cid = Some (st_connection_id st)) as Hi
      by (unfold stream_ids; by rewrite lookup_fmap, H1).
    rewrite (proj2 Hok _ _ Hi). by eexists.
  - apply Hkeep; [|done]. unfold complete_job, record_mismatch, complete_success,
      complete_unconfirmed, complete_failed, late_failure, retry_or_give_up, schedule_retry.
    solve_respects; by apply same_streams_modify.
  - apply Hkeep; [|done]. unfold fire_retry. solve_respects; by apply same_streams_modify.
  - apply Hkeep; [|done]. unfold reaper_tick. solve_respects.
  - apply Hkeep; [|done]. unfold heartbeat_ping. solve_respects.
Qed.
End counter_steps.

(** ** One turn of a job stream *)

Section turn.
Context `{Chrono}.

Definition client_row (m : string) (t : Tables) : option ClientRow :=
  List.find (client_by_id m) (clients t).
Definition row_approved (r : ClientRow) : bool :=
  bool_decide (pairing_from_str_lossy (c_pairing_state r) = Approved).
Definition row_takes_default (r : ClientRow) : bool :=
  match c_virtual_printer_driver r with None => true | Some d => blank d end.

Lemma try_get_client m s :
  let '(r, s') := try_queue (get_client m) s in
  (∃ r0, r = Ok r0 ∧ (ok_flatten r0 = None ∨ ok_flatten r0 = row_to_client <$> client_row m (tables s))) ∧
  tables s' = tables s ∧ same_queues (queue s) (queue s') ∧ streams s' = streams s ∧
  connected_clients s' = connected_clients s ∧ stream_peers s' = stream_peers s.
Proof.
  unfold try_queue, attempt, zoom, get_client, on_storage, zoom.
  destruct (Storage.get_client m (storage (queue s))) as [r st'] eqn:E. unfold tables. simpl.
  pose proof (prepared_query_conn "failed to prepare get-client query" "failed to query client"
    (λ t, row_to_client <$> List.find (client_by_id m) (clients t)) (storage (queue s))) as Hc.
  fold (Storage.get_client m) in Hc. rewrite E in Hc. simpl in Hc.
  split; [|done]. exists r. split; [done|]. destruct r as [o|e]; [|by left].
  apply prepared_query_ok in E as [-> _]. by right.
Qed.

(** A turn that does not reach the channels. *)
Lemma delivery_turn_waits st s :
  (∀ r, client_row (st_machine_id st) (tables s) = Some r → row_approved r = false) →
  let '(res, s') := delivery_turn st s in
  res = Ok WaitPairing ∧ tables s' = tables s ∧ streams s' = streams s ∧
  same_queues (queue s) (queue s').
Proof.
  intros Hno. unfold delivery_turn, mbind at 1, M_bind at 1.
  pose proof (try_get_client (st_machine_id st) s) as Hg.
  destruct (try_queue (get_client (st_machine_id st)) s) as [r s1].
  destruct Hg as ((r0 & -> & Ho) & Ht & Hq & Hs & _).
  assert (match ok_flatten r0 with Some c => bool_decide (pairing_state c = Approved)
          | None => false end = false) as ->; [|by simpl].
  destruct Ho as [->| ->]; [done|].
  destruct (client_row _ _) as [row|]; [|done]. by apply Hno.
Qed.

(** What a send may do: nothing, or one more job on the stream. *)
Definition one_send (cid : string) (s s' : Service) : Prop :=
  streams s' = streams s ∨
  ∃ st0 row, streams s !! cid = Some st0 ∧ st_client_gone st0 = false ∧
    job_row (r_job_id row) (tables s) = Some row ∧ r_state row = "queued" ∧
    streams s' = <[cid := {| st_machine_id := st_machine_id st0;
      st_connection_id := st_connection_id st0; st_rx := st_rx st0;
      st_sent := st_sent st0 ++ [to_print_job (row_to_job row)];
      st_client_gone := false |}]> (streams s).

Lemma str_to_state_queued t : str_to_state t = Queued → t = "queued".
Proof.
  unfold str_to_state. destruct (String.eqb_spec t "queued"); [done|].
  repeat destruct (_ =t? _); done.
Qed.

Lemma send_job_outcome cid j s :
  let '(_, s') := send_job cid j s in
  tables s' = tables s ∧ same_queues (queue s) (queue s') ∧ one_send cid s s'.
Proof.
  unfold send_job, mbind, M_bind, try_queue, attempt, zoom, on_storage, zoom.
  pose proof (get_job_conn j (storage (queue s))) as Hc.
  destruct (get_job j (storage (queue s))) as [[o|e] st1] eqn:Eg; simpl in *.
  2: { split; [by unfold tables; simpl; rewrite Hc|]. split; [done|by left]. }
  set (s1 := set_queue (set_storage st1 (queue s)) s).
  assert (tables s1 = tables s ∧ same_queues (queue s) (queue s1) ∧ streams s1 = streams s)
    as (Ht & Hq & Hs) by (by unfold tables; simpl; rewrite Hc).
  apply get_job_ok in Eg as [-> _].
  destruct (job_row j (conn (storage (queue s)))) as [row|] eqn:Er; simpl;
    [|by repeat split; [..|left]].
  destruct (bool_decide_reflect (str_to_state (r_state row) = Queued)) as [Hst|]; simpl;
    [|by repeat split; [..|left]].
  unfold stream_send. destruct (streams s1 !! cid) as [st0|] eqn:Est;
    [|by repeat split; [..|left]].
  destruct (st_client_gone st0) eqn:Eg; [by repeat split; [..|left]|].
  split; [done|]. split; [done|]. right. exists st0, row. simpl. rewrite <- Hs.
  split; [done|]. split; [done|]. apply str_to_state_queued in Hst.
  rewrite (job_row_id _ _ _ Er). done.
Qed.

Lemma one_send_frame cid s s1 s' :
  tables s1 = tables s → streams s1 = streams s → one_send cid s1 s' → one_send cid s s'.
Proof. intros Ht Hs. unfold one_send. by rewrite Ht, Hs. Qed.

Lemma try_recv_default ch q : default_pending (snd (channel_try_recv ch q)) = default_pending q
  ∧ conn (storage (snd (channel_try_recv ch q))) = conn (storage q).
Proof. unfold channel_try_recv. destruct (channels q !! ch) as [[|x l]|]; done. Qed.

(** One turn, on any schedule of failures: at most one job is sent, and the
    default queue is only read for a client that takes it. *)
Lemma delivery_turn_outcome st s :
  let '(res, s') := delivery_turn st s in
  tables s' = tables s ∧ one_send (st_connection_id st) s s' ∧
  (default_pending (queue s') ≠ default_pending (queue s) →
   ∃ r, client_row (st_machine_id st) (tables s) = Some r ∧ row_approved r = true ∧
        row_takes_default r = true).
Proof.
  unfold delivery_turn, mbind at 1, M_bind at 1.
  pose proof (try_get_client (st_machine_id st) s) as Hg.
  destruct (try_queue (get_client (st_machine_id st)) s) as [r s1].
  destruct Hg as ((r0 & -> & Ho) & Ht & (Hd & Hch & Hcl) & Hs & _).
  destruct Ho as [->|Ho]; [by simpl; repeat split; [|left|]|]. rewrite Ho.
  destruct (client_row (st_machine_id st) (tables s)) as [row|] eqn:Erow;
    [simpl|by simpl; repeat split; [|left|]].
  destruct (bool_decide (pairing_from_str_lossy (c_pairing_state row) = Approved)) eqn:Eapp;
    [|by simpl; repeat split; [|left|]]. simpl.
  unfold mbind at 1, M_bind at 1. rewrite on_queue_run.
  pose proof (try_recv_default (st_rx st) (queue s1)) as [Hd2 Hc2].
  destruct (channel_try_recv (st_rx st) (queue s1)) as [[own|e] q2] eqn:Er; simpl in *.
  2: { split; [by unfold tables in *; simpl; rewrite Hc2|]. split; [by left|]. congruence. }
  set (s2 := set_queue q2 s1).
  assert (tables s2 = tables s) as Ht2 by (unfold tables in *; simpl; by rewrite Hc2).
  assert (streams s2 = streams s) as Hs2 by done.
  assert (default_pending (queue s2) = default_pending (queue s)) as Hd3 by (simpl; congruence).
  destruct own as [j|].
  { unfold mbind, M_bind. pose proof (send_job_outcome (st_connection_id st) j s2) as Hsend.
    destruct (send_job (st_connection_id st) j s2) as [[ok|e] s3];
      destruct Hsend as (Ht3 & (Hd4 & _) & Hone); simpl;
      (split; [congruence|]); (split; [by eapply one_send_frame|congruence]). }
  fold (row_takes_default row).
  change (takes_default_queue (row_to_client row)) with (row_takes_default row).
  destruct (row_takes_default row) eqn:Edef; simpl.
  2: { split; [done|]. split; [by left|done]. }
  assert (∀ P : Prop, P → ∃ r, Some row = Some r ∧ row_approved r = true ∧ row_takes_default r = true)
    as Hyes by (intros; exists row; done).
  unfold mbind at 1, M_bind at 1. rewrite on_queue_run. unfold next_job.
  destruct (default_pending (queue s2)) as [|j rest] eqn:Edp; simpl.
  - split; [done|]. split; [by left|]. apply Hyes.
  - set (s3 := set_queue (set_default_pending rest q2) s2).
    unfold mbind, M_bind. pose proof (send_job_outcome (st_connection_id st) j s3) as Hsend.
    destruct (send_job (st_connection_id st) j s3) as [[ok|e] s4];
      destruct Hsend as (Ht3 & _ & Hone); simpl;
      (split; [by rewrite Ht3|]); (split; [by eapply one_send_frame|apply Hyes]).
Qed.
End turn.

(** ** Registration *)

Section registration.
Context `{Chrono}.

Lemma find_update {A} (p : A → bool) f rows :
  (∀ r, p r = true → p (f r) = true) →
  List.find p (map (λ r, if p r then f r else r) rows) = f <$> List.find p rows.
Proof.
  intros Hf. induction rows as [|r rows IH]; simpl; [done|].
  destruct (p r) eqn:E; [by rewrite Hf|by rewrite E].
Qed.

(** The row a registration leads to: a known client keeps its pairing. *)
Definition registered (new : ClientRow) (old : option ClientRow) : ClientRow :=
  match old with Some r => client_conflict_set new r | None => new end.

Lemma client_row_upsert new t :
  client_row (c_machine_id new) (set_clients (upsert_client_row new) t)
  = Some (registered new (client_row (c_machine_id new) t)).
Proof.
  unfold client_row, upsert_client_row. simpl.
  assert (client_by_id (c_machine_id new) new = true) as Hid by apply String.eqb_refl.
  destruct (existsb _ _) eqn:E.
  - apply existsb_exists in E as (r & Hin & Hb). simpl. rewrite find_update.
    2: { intros r' Hr'. done. }
    destruct (List.find _ (clients t)) as [r'|] eqn:Ef; [done|].
    by rewrite (find_none _ _ Ef r Hin) in Hb.
  - induction (clients t) as [|r rows IH]; simpl in *; [by rewrite Hid|].
    apply orb_false_elim in E as [E1 E2]. rewrite E1. by apply IH.
Qed.

Lemma upsert_client_run reg (s : Service) :
  quiet (storage (queue s)) →
  ∃ s', ignore_queue (upsert_client reg) s = (Ok tt, s') ∧ quiet (storage (queue s')) ∧
    tables s' = set_clients (upsert_client_row (client_to_row reg)) (tables s) ∧
    streams s' = streams s ∧ stream_peers s' = stream_peers s ∧
    connected_clients s' = connected_clients s ∧ same_queues (queue s) (queue s').
Proof.
  intros Hq. unfold ignore_queue, ignore, zoom, upsert_client, on_storage, zoom,
    Storage.upsert_client, mbind, M_bind. rewrite execute_quiet by done.
  eexists; split; [done|]. done.
Qed.

Lemma now_run (s : Service) :
  ∃ now s', now_ s = (Ok now, s') ∧ faults (storage (queue s')) = faults (storage (queue s)) ∧
    tables s' = tables s ∧ streams s' = streams s ∧ stream_peers s' = stream_peers s ∧
    connected_clients s' = connected_clients s ∧ same_queues (queue s) (queue s').
Proof. eexists _, _. split; [done|]. done. Qed.

Lemma try_get_client_quiet m (s : Service) :
  quiet (storage (queue s)) →
  try_queue (get_client m) s = (Ok (Ok (row_to_client <$> client_row m (tables s))), s).
Proof.
  intros Hq. unfold try_queue, attempt, zoom, get_client, on_storage, zoom, Storage.get_client,
    mbind, M_bind. rewrite engine_quiet, query_quiet by done. by destruct s as [[] ? ? ? ? ? ?].
Qed.

(** A rejected client's subscription stops at the gate. *)
Lemma subscribe_rejected cid peer ident s row :
  quiet (storage (queue s)) → client_row (ci_machine_id ident) (tables s) = Some row →
  pairing_from_str_lossy (c_pairing_state row) = Rejected →
  let '(res, s') := subscribe_jobs cid peer ident s in
  res = Err (PermissionDenied "client has been rejected") ∧
  streams s' = streams s ∧ stream_peers s' = stream_peers s ∧
  connected_clients s' = connected_clients s ∧ same_queues (queue s) (queue s') ∧
  (c_pairing_state <$> client_row (ci_machine_id ident) (tables s')) = Some (c_pairing_state row).
Proof.
  intros Hq Hrow Hrej. unfold subscribe_jobs, mbind, M_bind.
  destruct (now_run s) as (now & s1 & -> & Hf1 & Ht1 & Hs1 & Hp1 & Hc1 & Hq1).
  assert (quiet (storage (queue s1))) as Hqu by (unfold quiet in *; congruence).
  match goal with |- context [upsert_client ?r] => set (reg := r) end.
  destruct (upsert_client_run reg s1 Hqu) as (s2 & -> & Hqu2 & Ht2 & Hs2 & Hp2 & Hc2 & Hq2).
  rewrite try_get_client_quiet by done.
  pose proof (client_row_upsert (client_to_row reg) (tables s1)) as Hup.
  rewrite <- Ht2, Ht1 in Hup. change (c_machine_id (client_to_row reg)) with (ci_machine_id ident) in Hup.
  rewrite Hrow in Hup. rewrite Hup. simpl. rewrite Hrej. simpl.
  split; [done|]. split; [congruence|]. split; [congruence|]. split; [congruence|].
  split; [by etrans|]. by rewrite Hup.
Qed.
End registration.

(** ** Payload chunks *)

Section chunks.
Context (job_id : string) (data : list Byte.byte).

Lemma chunk_size_pos : (0 < CHUNK_SIZE)%nat.
Proof. unfold CHUNK_SIZE. lia. Qed.
#[local] Opaque CHUNK_SIZE.

(** The [i]th chunk from [offset]. *)
Definition chunk_at (offset : nat) (c : PayloadChunk) : Prop :=
  pc_job_id c = job_id ∧ pc_offset c = offset ∧
  pc_data c = take CHUNK_SIZE (drop offset data) ∧ pc_data c ≠ [] ∧
  (pc_is_last c = true ↔ (length data ≤ offset + CHUNK_SIZE)%nat).

Lemma payload_chunks_spec fuel offset :
  (length data - offset < fuel)%nat →
  let cs := payload_chunks fuel job_id data offset in
  concat (map pc_data cs) = drop offset data ∧
  (∀ i c, cs !! i = Some c → chunk_at (offset + i * CHUNK_SIZE) c) ∧
  (∀ i c, cs !! i = Some c → pc_is_last c = true ↔ S i = length cs).
Proof.
  pose proof chunk_size_pos as Hpos.
  revert offset. induction fuel as [|fuel IH]; intros offset Hfuel; [lia|]. simpl.
  destruct (Nat.ltb_spec offset (length data)) as [Hlt|Hge].
  2: { simpl. rewrite drop_ge by lia. split; [done|]. split; intros i c Hi; by rewrite lookup_nil in Hi. }
  set (end_ := Nat.min (offset + CHUNK_SIZE) (length data)).
  assert (length data - end_ < fuel)%nat as Hf by lia.
  destruct (IH end_ Hf) as (Hcat & Hat & Hlast). clear IH.
  set (cs := payload_chunks fuel job_id data end_) in *.
  assert (take (end_ - offset) (drop offset data) = take CHUNK_SIZE (drop offset data)) as Htake.
  { subst end_. destruct (Nat.le_gt_cases (offset + CHUNK_SIZE) (length data)).
    - f_equal. lia.
    - rewrite !take_ge by (rewrite length_drop; lia). done. }
  assert (cs = [] ↔ (length data ≤ offset + CHUNK_SIZE)%nat) as Hnil.
  { split; intros Hn.
    - rewrite Hn in Hcat. simpl in Hcat. symmetry in Hcat.
      assert (length (drop end_ data) = 0%nat) as Hl by by rewrite Hcat.
      rewrite length_drop in Hl. lia.
    - destruct cs as [|c cs'] eqn:Ec; [done|]. exfalso.
      destruct (Hat 0%nat c eq_refl) as (_ & _ & Hd & Hne & _). apply Hne. rewrite Hd.
      rewrite drop_ge by lia. by rewrite take_nil. }
  simpl. split; [|split].
  - rewrite Hcat. rewrite <- (take_drop (end_ - offset) (drop offset data)) at 2.
    f_equal. rewrite drop_drop. f_equal. lia.
  - intros [|i] c Hc; simpl in Hc.
    + injection Hc as <-. rewrite Nat.add_0_r. unfold chunk_at. simpl. rewrite Htake.
      split; [done|]. split; [done|]. split; [done|]. split.
      * intros Hn. apply (f_equal length) in Hn. rewrite length_take, length_drop in Hn.
        simpl in Hn. lia.
      * rewrite Nat.leb_le. lia.
    + assert ((offset + CHUNK_SIZE)%nat = end_) as He.
      { subst end_. destruct (decide (length data ≤ offset + CHUNK_SIZE)%nat) as [Hle|]; [|lia].
        apply Hnil in Hle. by rewrite Hle, lookup_nil in Hc. }
      replace (offset + S i * CHUNK_SIZE)%nat with (end_ + i * CHUNK_SIZE)%nat by (simpl; lia).
      by apply Hat.
  - intros [|i] c Hc; simpl in Hc.
    + injection Hc as <-. simpl. rewrite Nat.leb_le. split.
      * intros Hle. rewrite (proj2 Hnil); [done|]. lia.
      * intros Hl. destruct cs; [|done]. pose proof (proj1 Hnil eq_refl). lia.
    + rewrite (Hlast i c Hc). lia.
Qed.
End chunks.
