(* ===== verification/JournalTheory.v ===== *)
(** * Theory of the device-job journal

    What a statement may do to a job's row ([progress_evolves]), which
    operations respect it, and the accounting of rows ([accounts]) on which
    the at-most-once theorem rests. *)

From Stdlib Require Import ZArith String.
From S2P Require Import Prelude RustStd Core Sqlite Json DeviceApi JournalData JournalCard Journal.
#[local] Open Scope Z_scope.

(** ** Laws of a table *)

Class TableLaws (t : Table) : Type := {
  t_same : relation (t_row t);
  t_same_preorder : PreOrder t_same;
  t_put_rows : ∀ rows d, t_rows t (t_put t rows d) = rows;
  t_id_set : ∀ p r, t_id t (t_set t p r) = t_id t r;
  t_progress_set : ∀ p r, t_progress t (t_set t p r) = p;
  t_same_set : ∀ p r, t_same r (t_set t p r);
  t_id_owe_outcome : ∀ r, t_id t (t_owe_outcome t r) = t_id t r;
  t_progress_owe_outcome : ∀ r, t_progress t (t_owe_outcome t r) = t_progress t r;
  t_same_owe_outcome : ∀ r, t_same r (t_owe_outcome t r);
  t_id_owe_unknown : ∀ r, t_id t (t_owe_unknown t r) = t_id t r;
  t_progress_owe_unknown : ∀ r, t_progress t (t_owe_unknown t r) = t_progress t r;
  t_same_owe_unknown : ∀ r, t_same r (t_owe_unknown t r);
}.

(** The columns that say which job a row is. *)
Definition odoo_job (r : OdooRow) :=
  (o_job_type r, o_client_uuid r, o_kasa_id r, o_kasa_name r, o_pos_order r, o_payload r,
   o_created_at r, o_claimed_at r).
Definition lan_job_of (r : LanRow) :=
  (l_kasa_id r, l_client_uuid r, l_job_type r, l_pos_order r, l_payload r).

#[export] Instance odoo_laws : TableLaws ODOO_TABLE.
Proof.
  refine {| t_same := (λ r r' : OdooRow, odoo_job r = odoo_job r') : relation (t_row ODOO_TABLE) |};
    try done.
  split; repeat intro; congruence.
Defined.
#[export] Instance lan_laws : TableLaws LAN_TABLE.
Proof.
  refine {| t_same := (λ r r' : LanRow, lan_job_of r = lan_job_of r') : relation (t_row LAN_TABLE) |};
    try done.
  split; repeat intro; congruence.
Defined.
#[export] Instance locate_laws (job_id : Z) : TableLaws (fst (locate job_id)).
Proof. unfold locate. destruct (is_lan_job job_id); apply _. Defined.

(** ** What a statement may do to the progress of a job *)

Definition final_state (p : Progress) : bool := text_in (p_state p) FINAL_JOB_STATES.
Definition outcome_cols (p : Progress) :=
  (p_state p, p_result p, p_error_code p, p_error_text p).

Record progress_evolves (p p' : Progress) : Prop := {
  pe_final : final_state p = true → outcome_cols p' = outcome_cols p;
  pe_received : p_state p' = "received" → p_state p = "received";
  pe_executing : p_state p' = "executing" → p_state p = "received" ∨ p_state p = "executing";
  pe_contact : ∀ ts, p_contact_at p = Some ts → p_contact_at p' = Some ts;
  pe_since : p_received_at p' = p_received_at p;
  pe_attempts : p_attempts p ≤ p_attempts p';
}.

Lemma final_state_spec p : final_state p = true ↔ p_state p = "done" ∨ p_state p = "failed".
Proof.
  unfold final_state. rewrite text_in_spec. simpl. intuition congruence.
Qed.

#[export] Instance progress_evolves_preorder : PreOrder progress_evolves.
Proof.
  split; [by intros p; split; auto; lia|].
  intros p q r [F1 R1 E1 C1 S1 A1] [F2 R2 E2 C2 S2 A2]. split; auto; try congruence; try lia.
  - intros Hf. rewrite <- (F1 Hf). apply F2.
    apply final_state_spec. apply final_state_spec in Hf.
    specialize (F1 ltac:(by apply final_state_spec)). unfold outcome_cols in F1.
    injection F1 as -> _ _ _. done.
  - intros He. destruct (E2 He); auto.
Qed.

Section table.
Context (t : Table) `{L : !TableLaws t}.

Record row_evolves (r r' : t_row t) : Prop := {
  re_id : t_id t r' = t_id t r;
  re_same : t_same r r';
  re_progress : progress_evolves (t_progress t r) (t_progress t r');
}.
#[export] Instance row_evolves_preorder : PreOrder row_evolves.
Proof.
  pose proof t_same_preorder as HP.
  split; [intros r; by split; auto; reflexivity|].
  intros a b c [I1 S1 P1] [I2 S2 P2]. split; [congruence|by etrans|by etrans].
Qed.

Lemma row_evolves_set f r :
  progress_evolves (t_progress t r) (f (t_progress t r)) → row_evolves r (on_progress t f r).
Proof.
  intros Hp. unfold on_progress. split; [apply t_id_set|apply t_same_set|by rewrite t_progress_set].
Qed.
Lemma row_evolves_owe_outcome r r' : row_evolves r r' → row_evolves r (t_owe_outcome t r').
Proof.
  intros Hr. etrans; [done|]. split.
  - apply t_id_owe_outcome.
  - apply t_same_owe_outcome.
  - rewrite t_progress_owe_outcome. reflexivity.
Qed.
Lemma row_evolves_owe_unknown r r' : row_evolves r r' → row_evolves r (t_owe_unknown t r').
Proof.
  intros Hr. etrans; [done|]. split.
  - apply t_id_owe_unknown.
  - apply t_same_owe_unknown.
  - rewrite t_progress_owe_unknown. reflexivity.
Qed.

Lemma sql_update_evolves (p : t_row t → bool) f rows :
  (∀ r, p r = true → row_evolves r (f r)) → Forall2 row_evolves rows (fst (sql_update p f rows)).
Proof.
  intros Hf. simpl. induction rows as [|r rows IH]; simpl; constructor; auto.
  destruct (p r) eqn:Hp; [auto|reflexivity].
Qed.
End table.

Lemma rows_evolve_refl (t : Table) `{!TableLaws t} rows : Forall2 (row_evolves t) rows rows.
Proof. reflexivity. Qed.

(** ** What a statement may do to the tables, inserts and deletes apart *)

Definition evolves (d d' : JTables) : Prop :=
  Forall2 (row_evolves ODOO_TABLE) (device_jobs d) (device_jobs d')
  ∧ Forall2 (row_evolves LAN_TABLE) (lan_jobs d) (lan_jobs d')
  ∧ lan_seq d' = lan_seq d.

#[export] Instance evolves_preorder : PreOrder evolves.
Proof.
  split.
  - intros d. split; [|split]; [| |done]; reflexivity.
  - intros a b c (A1 & B1 & C1) (A2 & B2 & C2). split; [|split]; [| |congruence].
    + by etrans.
    + by etrans.
Qed.

Lemma evolves_cards d d' :
  device_jobs d' = device_jobs d → lan_jobs d' = lan_jobs d → lan_seq d' = lan_seq d →
  evolves d d'.
Proof.
  intros E1 E2 E3. unfold evolves. rewrite E1, E2, E3.
  split; [|split]; [| |done]; reflexivity.
Qed.

Lemma evolves_update_odoo p f d :
  (∀ r, p r = true → row_evolves ODOO_TABLE r (f r)) →
  evolves d (fst (update_table ODOO_TABLE p f d)).
Proof.
  intros Hf. split; [|split]; simpl; [exact (sql_update_evolves ODOO_TABLE p f _ Hf)|exact (rows_evolve_refl LAN_TABLE _)|done].
Qed.
Lemma evolves_update_lan p f d :
  (∀ r, p r = true → row_evolves LAN_TABLE r (f r)) →
  evolves d (fst (update_table LAN_TABLE p f d)).
Proof.
  intros Hf. split; [|split]; simpl; [exact (rows_evolve_refl ODOO_TABLE _)|exact (sql_update_evolves LAN_TABLE p f _ Hf)|done].
Qed.
Lemma evolves_update j p f d :
  (∀ r, p r = true → row_evolves (fst (locate j)) r (f r)) →
  evolves d (fst (update_table (fst (locate j)) p f d)).
Proof.
  revert p f. unfold locate, locate_laws. destruct (is_lan_job j); simpl; intros p f.
  - apply evolves_update_lan.
  - apply evolves_update_odoo.
Qed.

(** ** The changes the operations make *)

Lemma evolves_outcome st res code text ts p :
  final_state p = false → st ≠ "received" → (st = "executing" → p_state p = "received") →
  progress_evolves p (set_outcome st res code text ts p).
Proof.
  intros Hf Hr He. split; simpl; try done; try lia; try congruence. auto.
Qed.

Lemma evolves_touch ts p : progress_evolves p (touch ts p).
Proof. split; simpl; try done; try lia. auto. Qed.

Lemma evolves_contact ts p : p_contact_at p = None → progress_evolves p (set_contact ts p).
Proof. intros Hc. split; simpl; try done; try lia; auto. congruence. Qed.

Lemma evolves_attempts n text ts p :
  final_state p = false → p_attempts p ≤ n → progress_evolves p (set_attempts n text ts p).
Proof. intros Hf Hn. split; simpl; try done; auto. congruence. Qed.

Lemma text_in_not_final p states :
  text_in (p_state p) states = true → (∀ s, In s states → text_in s FINAL_JOB_STATES = false) →
  final_state p = false.
Proof. rewrite text_in_spec. unfold final_state. auto. Qed.

Ltac state_in H :=
  apply text_in_spec in H; simpl in H;
  repeat match type of H with
         | _ ∨ _ => destruct H as [H|H]
         | False => destruct H
         end.

Lemma row_in_states t row states r :
  row_in t row states r = true → text_in (p_state (t_progress t r)) states = true.
Proof. unfold row_in. by intros [_ Hs]%andb_true_iff. Qed.

Lemma not_final_of p s : s = p_state p → text_in s FINAL_JOB_STATES = false → final_state p = false.
Proof. by intros ->. Qed.

(** The next goal of an update: the row is in one of the states asked for. *)
Ltac from_state Hr :=
  apply row_in_states in Hr; state_in Hr.
Ltac outcome_goal Hr :=
  apply row_evolves_set; apply evolves_outcome;
  [by eapply not_final_of; [exact Hr|]|done|try done; try (by intros _)].

Section respects.
Context `{Chrono} `{JsonText}.

Lemma respects_now_text R `{!PreOrder R} : respects (on_conn R) now_text.
Proof. unfold now_text. solve_respects. Qed.

Lemma respects_query_mapped R `{!PreOrder R} {A} ctx (q : JTables → option A) :
  respects (on_conn R) (query_mapped ctx q).
Proof. unfold query_mapped. solve_respects. Qed.
#[local] Hint Resolve respects_now_text respects_query_mapped : respects.

Lemma respects_update_row ctx j row states f :
  (∀ r, row_in (fst (locate j)) row states r = true → row_evolves (fst (locate j)) r (f r)) →
  respects (on_conn evolves) (update_row ctx (fst (locate j)) row states f).
Proof.
  intros Hf. unfold update_row. apply respects_bind; [apply _| |intros n; apply respects_ret, _].
  apply respects_execute; [apply _|]. intros d. by apply evolves_update.
Qed.

Lemma respects_update_odoo ctx p f :
  (∀ r, p r = true → row_evolves ODOO_TABLE r (f r)) →
  respects (on_conn evolves) (execute ctx (update_table ODOO_TABLE p f)).
Proof. intros Hf. apply respects_execute; [apply _|]. intros d. by apply evolves_update_odoo. Qed.

Lemma respects_update_lan ctx p f :
  (∀ r, p r = true → row_evolves LAN_TABLE r (f r)) →
  respects (on_conn evolves) (execute ctx (update_table LAN_TABLE p f)).
Proof. intros Hf. apply respects_execute; [apply _|]. intros d. by apply evolves_update_lan. Qed.

Lemma respects_cards ctx stmt :
  (∀ d d' n, stmt d = Some (d', n) → device_jobs d' = device_jobs d ∧ lan_jobs d' = lan_jobs d
             ∧ lan_seq d' = lan_seq d) →
  respects (on_conn evolves) (execute_checked (Tables := JTables) ctx stmt).
Proof.
  intros Hs. apply respects_execute_checked; [apply _|]. intros d d' n Hd.
  destruct (Hs _ _ _ Hd) as (E1 & E2 & E3). by apply evolves_cards.
Qed.

Lemma start_execution_evolves j : respects (on_conn evolves) (start_execution j).
Proof.
  unfold start_execution. rewrite (surjective_pairing (locate j)).
  apply respects_bind; [apply _|auto with respects typeclass_instances|]. intros ts.
  apply respects_update_row. intros r Hr. from_state Hr. outcome_goal Hr.
Qed.

Lemma record_outcome_evolves j o : respects (on_conn evolves) (record_outcome j o).
Proof.
  unfold record_outcome. rewrite (surjective_pairing (locate j)).
  apply respects_bind; [apply _|auto with respects typeclass_instances|]. intros ts.
  apply respects_update_row. intros r Hr.
  destruct o; [apply row_evolves_owe_outcome|apply row_evolves_owe_outcome|apply row_evolves_owe_unknown];
    from_state Hr; outcome_goal Hr.
Qed.

Lemma fail_unstarted_evolves j code text : respects (on_conn evolves) (fail_unstarted j code text).
Proof.
  unfold fail_unstarted. rewrite (surjective_pairing (locate j)).
  apply respects_bind; [apply _|auto with respects typeclass_instances|]. intros ts.
  apply respects_update_row. intros r Hr. apply row_evolves_owe_outcome. from_state Hr. outcome_goal Hr.
Qed.

Lemma mark_device_contact_evolves j : respects (on_conn evolves) (mark_device_contact j).
Proof.
  unfold mark_device_contact. rewrite (surjective_pairing (locate j)).
  apply respects_bind; [apply _|auto with respects typeclass_instances|]. intros ts.
  apply respects_bind; [apply _| |intros n; apply respects_ret, _].
  apply respects_execute; [apply _|]. intros d. apply evolves_update. intros r Hr.
  apply row_evolves_set, evolves_contact. apply andb_true_iff in Hr as [_ Hc].
  by destruct (p_contact_at _).
Qed.

Lemma record_still_unknown_evolves j reason : respects (on_conn evolves) (record_still_unknown j reason).
Proof.
  unfold record_still_unknown. rewrite (surjective_pairing (locate j)).
  apply respects_bind; [apply _|auto with respects typeclass_instances|]. intros ts.
  apply respects_update_row. intros r Hr. apply row_evolves_owe_unknown. from_state Hr.
  apply row_evolves_set, evolves_attempts; [by eapply not_final_of; [exact Hr|]|lia].
Qed.
End respects.
#[export] Hint Resolve respects_now_text respects_query_mapped start_execution_evolves
  record_outcome_evolves fail_unstarted_evolves mark_device_contact_evolves
  record_still_unknown_evolves : respects.

Section respects_more.
Context `{Chrono} `{JsonText}.

Lemma row_evolves_odoo p acked note report (r : OdooRow) :
  progress_evolves (o_progress r) p → row_evolves ODOO_TABLE r (set_odoo p acked note report r).
Proof. by intros Hp; split. Qed.
Lemma row_evolves_lan p reported note odoo (r : LanRow) :
  progress_evolves (l_progress r) p → row_evolves LAN_TABLE r (set_lan p reported note odoo r).
Proof. by intros Hp; split. Qed.

Ltac odoo_touch :=
  apply respects_bind; [apply _|auto with respects typeclass_instances|]; intros ts;
  apply respects_bind; [apply _| |intros n; apply respects_ret, _];
  apply respects_update_odoo; intros r _; apply row_evolves_odoo, evolves_touch.

Lemma mark_acked_evolves j note : respects (on_conn evolves) (mark_acked j note).
Proof. unfold mark_acked, update_row. odoo_touch. Qed.
Lemma mark_reported_evolves j : respects (on_conn evolves) (mark_reported j).
Proof. unfold mark_reported, update_row. odoo_touch. Qed.
Lemma reopen_ack_evolves j : respects (on_conn evolves) (reopen_ack j).
Proof. unfold reopen_ack. odoo_touch. Qed.

Lemma mark_lan_reported_evolves j odoo note :
  respects (on_conn evolves) (mark_lan_reported j odoo note).
Proof.
  unfold mark_lan_reported, update_row.
  apply respects_bind; [apply _| |intros n; apply respects_ret, _].
  apply respects_update_lan. intros r _. apply row_evolves_lan. reflexivity.
Qed.

Lemma recover_table_evolves ts j lan :
  respects (on_conn evolves) (recover_table ts (fst (locate j)) lan).
Proof.
  unfold recover_table. solve_respects.
  apply respects_execute; [apply _|]. intros d. apply evolves_update. intros r Hr.
  unfold in_flight in Hr. state_in Hr; outcome_goal Hr.
Qed.

Lemma recover_after_restart_evolves : respects (on_conn evolves) recover_after_restart.
Proof.
  unfold recover_after_restart. apply respects_transaction; [apply _|].
  apply respects_bind; [apply _|auto with respects typeclass_instances|]. intros ts.
  apply respects_bind; [apply _|exact (recover_table_evolves ts 0 false)|]. intros odoo.
  apply respects_bind; [apply _|exact (recover_table_evolves ts (-1) true)|]. intros lan.
  solve_respects.
Qed.

(** Reads. *)
Lemma lan_job_evolves R `{!PreOrder R} k u : respects (on_conn R) (lan_job k u).
Proof. unfold lan_job. solve_respects. Qed.
Lemma lan_job_by_id_evolves R `{!PreOrder R} j : respects (on_conn R) (lan_job_by_id j).
Proof. unfold lan_job_by_id. solve_respects. Qed.
Lemma get_evolves R `{!PreOrder R} j : respects (on_conn R) (get j).
Proof.
  unfold get. destruct (is_lan_job j); [|solve_respects].
  apply respects_bind; [apply _|by apply lan_job_by_id_evolves|solve_respects].
Qed.
Lemma owed_acks_evolves R `{!PreOrder R} : respects (on_conn R) owed_acks.
Proof. unfold owed_acks, owed_card_auth_acks. solve_respects. Qed.
Lemma indeterminate_evolves R `{!PreOrder R} : respects (on_conn R) indeterminate.
Proof. unfold indeterminate, lan_indeterminate. solve_respects. Qed.
Lemma owed_lan_reports_evolves R `{!PreOrder R} : respects (on_conn R) owed_lan_reports.
Proof. unfold owed_lan_reports. solve_respects. Qed.

(** ** The card operations *)

Lemma respects_cards' ctx stmt :
  (∀ d, device_jobs (fst (stmt d)) = device_jobs d ∧ lan_jobs (fst (stmt d)) = lan_jobs d
        ∧ lan_seq (fst (stmt d)) = lan_seq d) →
  respects (on_conn evolves) (execute (Tables := JTables) ctx stmt).
Proof.
  intros Hs. apply respects_cards. intros d d' n [= Hd]. specialize (Hs d). by rewrite Hd in Hs.
Qed.

Ltac card_op :=
  solve_respects; first [apply respects_cards'; intros d; done
                        |apply respects_cards; intros d d' n; simpl; intros; repeat case_match; simplify_eq; done].

Lemma card_authorized_evolves j s v : respects (on_conn evolves) (card_authorized j s v).
Proof. unfold card_authorized. card_op. Qed.
Lemma card_transacted_evolves j s : respects (on_conn evolves) (card_transacted j s).
Proof. unfold card_transacted. card_op. Qed.
Lemma card_ended_evolves j : respects (on_conn evolves) (card_ended j).
Proof. unfold card_ended. card_op. Qed.
Lemma card_for_person_evolves j r : respects (on_conn evolves) (card_for_person j r).
Proof. unfold card_for_person. card_op. Qed.
Lemma mark_card_auth_acked_evolves j n : respects (on_conn evolves) (mark_card_auth_acked j n).
Proof. unfold mark_card_auth_acked. card_op. Qed.
Lemma card_balance_contact_evolves ip day src j :
  respects (on_conn evolves) (card_balance_contact ip day src j).
Proof. unfold card_balance_contact. card_op. Qed.
Lemma card_balance_outcome_evolves id o v : respects (on_conn evolves) (card_balance_outcome id o v).
Proof. unfold card_balance_outcome. card_op. Qed.
Lemma card_balance_forget_evolves id : respects (on_conn evolves) (card_balance_forget id).
Proof. unfold card_balance_forget. card_op. Qed.
Lemma prune_card_payments_evolves : respects (on_conn evolves) prune_card_payments.
Proof. unfold prune_card_payments. card_op. Qed.
Lemma prune_card_balances_evolves : respects (on_conn evolves) prune_card_balances.
Proof. unfold prune_card_balances. card_op. Qed.

Lemma card_contact_of_evolves j ip amount baseline tx target :
  respects (on_conn evolves) (card_contact_of j ip amount baseline tx target).
Proof.
  unfold card_contact_of. apply respects_bind; [apply _|auto with respects typeclass_instances|].
  intros now. apply respects_transaction; [apply _|].
  apply respects_bind; [apply _| |intros marked].
  - apply respects_update_odoo. intros r Hr. apply (row_evolves_set ODOO_TABLE (set_contact _)).
    apply evolves_contact. apply andb_true_iff in Hr as [[_ Hc]%andb_true_iff _].
    simpl. by destruct (p_contact_at _).
  - destruct (negb _); [apply respects_ret, _|]. solve_respects.
    apply respects_cards. intros d d' n. case_match; [done|]. by intros [= <- <-].
Qed.
End respects_more.
#[export] Hint Resolve mark_acked_evolves mark_reported_evolves reopen_ack_evolves
  mark_lan_reported_evolves recover_after_restart_evolves lan_job_evolves lan_job_by_id_evolves
  get_evolves owed_acks_evolves indeterminate_evolves owed_lan_reports_evolves
  card_authorized_evolves card_transacted_evolves card_ended_evolves card_for_person_evolves
  mark_card_auth_acked_evolves card_balance_contact_evolves card_balance_outcome_evolves
  card_balance_forget_evolves card_contact_of_evolves prune_card_payments_evolves
  prune_card_balances_evolves : respects.

(** ** Accounting: rows of a job, and rows still waiting for their execution *)

Definition job_rows (j : Z) (d : JTables) := t_rows (fst (locate j)) d.
Definition of_job (j : Z) (r : t_row (fst (locate j))) : bool :=
  t_id (fst (locate j)) r =? snd (locate j).
(** Rows of the job in the journal. *)
Definition present (j : Z) (d : JTables) : nat := count (of_job j) (job_rows j d).
(** Those in the state [received]. *)
Definition waiting (j : Z) (d : JTables) : nat :=
  count (row_in (fst (locate j)) (snd (locate j)) ["received"]) (job_rows j d).
(** LAN ids handed out so far. *)
Definition handed_out (j : Z) (d : JTables) : nat := if - j <=? lan_seq d then 1 else 0.

(** No job gains a waiting row without gaining a row, no job has two rows, and
    a LAN id is a row's at most once. *)
Definition accounts (d d' : JTables) : Prop :=
  (∀ j, (waiting j d' + present j d ≤ waiting j d + present j d')%nat
        ∧ (present j d ≤ present j d')%nat
        ∧ (present j d' ≤ Nat.max 1 (present j d))%nat
        ∧ (is_lan_job j = true →
           (present j d' + handed_out j d ≤ present j d + handed_out j d')%nat))
  ∧ lan_seq d ≤ lan_seq d'.

#[export] Instance accounts_preorder : PreOrder accounts.
Proof.
  split; [intros d; split; [intros j|]; repeat split; try lia|].
  intros a b c [A1 A2] [B1 B2]. split; [|lia]. intros j.
  specialize (A1 j) as (? & ? & ? & HA). specialize (B1 j) as (? & ? & ? & HB).
  repeat split; try lia. intros Hl. specialize (HA Hl). specialize (HB Hl). lia.
Qed.

Lemma waiting_evolves (t : Table) `{!TableLaws t} row r r' :
  row_evolves t r r' → row_in t row ["received"] r' = true → row_in t row ["received"] r = true.
Proof.
  unfold row_in. intros [Hid _ Hp]. rewrite Hid. intros [-> Hw]%andb_true_iff. simpl.
  state_in Hw. apply text_in_spec. left. symmetry. by apply (pe_received _ _ Hp).
Qed.

Lemma evolves_counts (t : Table) `{!TableLaws t} row rows rows' :
  Forall2 (row_evolves t) rows rows' →
  count (λ r, t_id t r =? row) rows' = count (λ r, t_id t r =? row) rows
  ∧ (count (row_in t row ["received"]) rows' ≤ count (row_in t row ["received"]) rows)%nat.
Proof.
  unfold count. induction 1 as [|r r' rows rows' Hr _ [IH1 IH2]]; simpl; [done|].
  rewrite (re_id _ _ _ Hr). pose proof (waiting_evolves t row _ _ Hr) as Hw.
  destruct (t_id t r =? row); simpl; (split; [lia|]);
    destruct (row_in t row _ r'); simpl; try rewrite (Hw eq_refl); simpl;
    destruct (row_in t row _ r); simpl; lia.
Qed.

Lemma evolves_job_rows j d d' :
  evolves d d' → Forall2 (row_evolves (fst (locate j))) (job_rows j d) (job_rows j d').
Proof.
  intros (Ho & Hl & _). unfold job_rows, locate_laws, locate. by destruct (is_lan_job j).
Qed.

Lemma evolves_job_counts j d d' :
  evolves d d' → present j d' = present j d ∧ (waiting j d' ≤ waiting j d)%nat.
Proof.
  intros Hev. exact (evolves_counts (fst (locate j)) (snd (locate j)) _ _ (evolves_job_rows j _ _ Hev)).
Qed.

Lemma evolves_accounts d d' : evolves d d' → accounts d d'.
Proof.
  intros Hev. split; [|destruct Hev as (_ & _ & ->); lia]. intros j.
  destruct (evolves_job_counts j _ _ Hev) as [Hp Hw]. unfold handed_out. destruct Hev as (_ & _ & ->).
  repeat split; lia.
Qed.

(** An insertion of one row: [count] over the table it goes to. *)
Lemma present_odoo j d : is_lan_job j = false → present j d = count (odoo_by_id j) (device_jobs d).
Proof. intros Hj. unfold present, of_job, job_rows, locate. by rewrite Hj. Qed.
Lemma present_lan j d :
  is_lan_job j = true → present j d = count (λ r, l_id r =? - j) (lan_jobs d).
Proof. intros Hj. unfold present, of_job, job_rows, locate. by rewrite Hj. Qed.
Lemma waiting_odoo j d :
  is_lan_job j = false → waiting j d = count (row_in ODOO_TABLE j ["received"]) (device_jobs d).
Proof. intros Hj. unfold waiting, job_rows, locate. by rewrite Hj. Qed.
Lemma waiting_lan j d :
  is_lan_job j = true → waiting j d = count (row_in LAN_TABLE (- j) ["received"]) (lan_jobs d).
Proof. intros Hj. unfold waiting, job_rows, locate. by rewrite Hj. Qed.

Lemma insert_job_row_accounts row d : accounts d (fst (insert_job_row row d)).
Proof.
  unfold insert_job_row. destruct (existsb _ _) eqn:E; simpl; [reflexivity|].
  split; [|simpl; lia]. intros j. destruct (is_lan_job j) eqn:Hj.
  - rewrite !waiting_lan, !present_lan by done. unfold handed_out. simpl. repeat split; lia.
  - rewrite !waiting_odoo, !present_odoo by done. simpl. rewrite !count_app, !count_one.
    assert (row_in ODOO_TABLE j ["received"] row = true → odoo_by_id j row = true) as Hi.
    { unfold row_in. by intros [Hi _]%andb_true_iff. }
    assert (odoo_by_id j row = true → count (odoo_by_id j) (device_jobs d) = 0%nat) as Hz.
    { intros Hr%Z.eqb_eq. rewrite Hr in E. by apply count_none. }
    destruct (row_in ODOO_TABLE j _ row), (odoo_by_id j row);
      try (specialize (Hi eq_refl); discriminate); try specialize (Hz eq_refl);
      repeat split; try lia; congruence.
Qed.

(** LAN row ids never exceed [lan_seq]. *)
Definition lan_ids_bounded (d : JTables) : Prop := Forall (λ r, l_id r ≤ lan_seq d) (lan_jobs d).

Lemma lan_ids_bounded_evolves d d' : evolves d d' → lan_ids_bounded d → lan_ids_bounded d'.
Proof.
  intros (_ & Hl & Hs). unfold lan_ids_bounded. rewrite Hs. generalize (lan_seq d). intros m.
  induction Hl as [|r r' l l' Hr _ IH]; [done|]. intros [Hb1 Hb2]%Forall_cons.
  constructor; [|by apply IH]. destruct Hr as [Hid _ _]. simpl in Hid. lia.
Qed.

(** A till's operation: one row. *)
Definition lan_key (r : LanRow) : Z * string := (l_kasa_id r, l_client_uuid r).
Definition lan_wf (d : JTables) : Prop := lan_ids_bounded d ∧ NoDup (map lan_key (lan_jobs d)).

Lemma lan_wf_evolves d d' : evolves d d' → lan_wf d → lan_wf d'.
Proof.
  intros Hev [Hb Hn]. split; [by eapply lan_ids_bounded_evolves|].
  assert (map lan_key (lan_jobs d') = map lan_key (lan_jobs d)) as ->; [|done].
  destruct Hev as (_ & Hl & _). clear Hb Hn.
  induction Hl as [|r r' l l' Hr _ IH]; [done|]. simpl. f_equal; [|exact IH].
  destruct Hr as [_ Hsame _]. simpl in Hsame. unfold lan_job_of in Hsame. unfold lan_key.
  congruence.
Qed.

Lemma insert_lan_row_keyed `{JsonText} kasa job ts d d' n :
  NoDup (map lan_key (lan_jobs d)) → insert_lan_row kasa job ts d = Some (d', n) →
  NoDup (map lan_key (lan_jobs d')).
Proof.
  intros Hn. unfold insert_lan_row. destruct (existsb _ _) eqn:Ex; [by intros [= <- <-]|].
  destruct (lan_seq d <? i64_max); [|done]. intros [= <- <-]. simpl. rewrite map_app. simpl.
  apply NoDup_app. split; [done|]. split; [|apply NoDup_singleton].
  intros k Hk Hk'. apply list_elem_of_singleton in Hk' as ->.
  apply list_elem_of_In, in_map_iff in Hk as (r & Hr & Hin).
  apply not_true_iff_false in Ex. apply Ex. apply existsb_exists. exists r. split; [done|].
  unfold lan_key in Hr. simpl in Hr. injection Hr as E1 E2. unfold same_key.
  by rewrite E1, E2, Z.eqb_refl, String.eqb_refl.
Qed.

Lemma insert_lan_row_accounts `{JsonText} kasa job ts d d' n :
  lan_ids_bounded d → insert_lan_row kasa job ts d = Some (d', n) →
  accounts d d' ∧ lan_ids_bounded d'.
Proof.
  intros Hb. unfold insert_lan_row. destruct (existsb _ _); [by intros [= <- <-]|].
  destruct (lan_seq d <? i64_max); [|done]. intros [= <- <-]. split.
  - split; [|simpl; lia]. intros j. destruct (is_lan_job j) eqn:Hj.
    + rewrite !waiting_lan, !present_lan by done. simpl. rewrite !count_app, !count_one.
      unfold handed_out. simpl. unfold row_in at 2. simpl.
      destruct (Z.eqb_spec (lan_seq d + 1) (- j)) as [E|E]; simpl.
      * assert (count (λ r, l_id r =? - j) (lan_jobs d) = 0%nat) as ->.
        { apply count_none. apply not_true_is_false. intros [r [Hin Hid]]%existsb_exists.
          apply Z.eqb_eq in Hid. unfold lan_ids_bounded in Hb. rewrite Forall_forall in Hb.
          specialize (Hb r ltac:(by apply list_elem_of_In)). lia. }
        assert ((- j <=? lan_seq d) = false) as -> by (apply Z.leb_gt; lia).
        assert ((- j <=? lan_seq d + 1) = true) as -> by (apply Z.leb_le; lia).
        repeat split; lia.
      * assert ((- j <=? lan_seq d + 1) = (- j <=? lan_seq d)) as ->.
        { destruct (Z.leb_spec (- j) (lan_seq d + 1)), (Z.leb_spec (- j) (lan_seq d)); lia. }
        repeat split; lia.
    + rewrite !waiting_odoo, !present_odoo by done. simpl. repeat split; try lia; congruence.
  - unfold lan_ids_bounded in *. simpl. apply Forall_app. split.
    + eapply Forall_impl; [exact Hb|]. simpl. lia.
    + constructor; [simpl; lia|constructor].
Qed.

(** [accounts] under the bound on the LAN ids, which every operation keeps. *)
Definition booked (d d' : JTables) : Prop :=
  lan_wf d → accounts d d' ∧ lan_wf d'.
#[export] Instance booked_preorder : PreOrder booked.
Proof.
  split; [by split|]. intros a b c Hab Hbc Ha. destruct (Hab Ha) as [? Hb].
  destruct (Hbc Hb) as [? Hc]. split; [by etrans|done].
Qed.
Lemma evolves_booked d d' : evolves d d' → booked d d'.
Proof.
  intros Hev Hb. split; [by apply evolves_accounts|by eapply lan_wf_evolves].
Qed.

(** [prune] takes rows away and changes none. *)
Definition shrinks (d d' : JTables) : Prop :=
  ∃ p q, device_jobs d' = List.filter p (device_jobs d) ∧ lan_jobs d' = List.filter q (lan_jobs d)
         ∧ lan_seq d' = lan_seq d.
Lemma filter_filter {A} (p q : A → bool) l :
  List.filter q (List.filter p l) = List.filter (λ a, p a && q a) l.
Proof.
  induction l as [|a l IH]; simpl; [done|].
  destruct (p a); simpl; rewrite IH; [|done]. by destruct (q a).
Qed.
Lemma filter_true {A} (l : list A) : List.filter (λ _, true) l = l.
Proof. induction l as [|a l IH]; simpl; by rewrite ?IH. Qed.
#[export] Instance shrinks_preorder : PreOrder shrinks.
Proof.
  split.
  - intros d. exists (λ _, true), (λ _, true). by rewrite !filter_true.
  - intros a b c (p & q & E1 & E2 & E3) (p' & q' & F1 & F2 & F3).
    exists (λ r, p r && p' r), (λ r, q r && q' r).
    by rewrite F1, F2, F3, E1, E2, E3, !filter_filter.
Qed.

Lemma shrinks_counts j d d' :
  shrinks d d' → (present j d' ≤ present j d)%nat ∧ (waiting j d' ≤ waiting j d)%nat
                 ∧ handed_out j d' = handed_out j d.
Proof.
  intros (p & q & E1 & E2 & E3). unfold handed_out. rewrite E3.
  destruct (is_lan_job j) eqn:Hj.
  - rewrite !present_lan, !waiting_lan, E2 by done. repeat split; apply count_filter_le.
  - rewrite !present_odoo, !waiting_odoo, E1 by done. repeat split; apply count_filter_le.
Qed.
Lemma shrinks_lan_wf d d' : shrinks d d' → lan_wf d → lan_wf d'.
Proof.
  intros (p & q & _ & E2 & E3) [Hb Hn]. split.
  - unfold lan_ids_bounded in *. rewrite E2, E3, Forall_forall in *.
    intros r Hin. apply list_elem_of_In, filter_In in Hin as [Hin _].
    apply Hb. by apply list_elem_of_In.
  - rewrite E2. clear Hb E2. induction (lan_jobs d) as [|r l IH]; [done|]. simpl in *.
    apply NoDup_cons in Hn as [Hr Hn]. destruct (q r); [|by apply IH]. simpl.
    apply NoDup_cons. split; [|by apply IH]. intros Hin. apply Hr.
    apply list_elem_of_In. apply list_elem_of_In, in_map_iff in Hin as (r' & <- & Hin).
    apply filter_In in Hin as [Hin _]. by apply in_map.
Qed.

Section operations.
Context `{Chrono} `{JsonText}.

Lemma respects_booked {A} (m : JM A) : respects (on_conn evolves) m → respects (on_conn booked) m.
Proof. apply respects_weaken. intros s s'. apply evolves_booked. Qed.

Lemma insert_booked job refused : respects (on_conn booked) (insert job refused).
Proof.
  unfold insert. solve_respects.
  apply respects_execute; [apply _|]. intros d Hb.
  split; [apply insert_job_row_accounts|]. unfold insert_job_row. by destruct (existsb _ _).
Qed.
Lemma insert_lan_received_booked job : respects (on_conn booked) (insert_lan_received job).
Proof.
  unfold insert_lan_received. destruct (dj_kasa_id job); [|solve_respects]. solve_respects.
  apply respects_execute_checked; [apply _|]. intros d d' n Hd Hb.
  destruct Hb as [Hb Hn]. destruct (insert_lan_row_accounts _ _ _ _ _ _ Hb Hd).
  split; [done|]. split; [done|by eapply insert_lan_row_keyed].
Qed.

Lemma prune_shrinks : respects (on_conn shrinks) prune.
Proof.
  unfold prune, prune_card_payments, prune_card_balances. solve_respects;
    (apply respects_execute; [apply _|]); intros d; simpl.
  - exists (λ r, negb (prunable_odoo (to_rfc3339 (days_ago a PRUNE_AFTER_DAYS)) r)), (λ _, true).
    by rewrite filter_true.
  - exists (λ _, true), (λ r, negb (prunable_lan (to_rfc3339 (days_ago a PRUNE_AFTER_DAYS)) r)).
    by rewrite filter_true.
  - exists (λ _, true), (λ _, true). by rewrite !filter_true.
  - exists (λ _, true), (λ _, true). by rewrite !filter_true.
Qed.

(** [start_execution] says [true] exactly to the caller that takes the job out
    of [received]. *)
Lemma start_execution_takes j s s' :
  start_execution j s = (Ok true, s') → (waiting j (conn s') < waiting j (conn s))%nat.
Proof.
  unfold start_execution. rewrite (surjective_pairing (locate j)).
  set (t := fst (locate j)). set (row := snd (locate j)).
  unfold now_text, update_row, mbind, M_bind. rewrite utc_now_run. simpl.
  set (s1 := mkDb _ _ _ _).
  match goal with |- context [execute ?c ?st s1] =>
    destruct (execute_cases c st s1) as [(s2 & -> & Hc)|(s2 & -> & Hc)] end; [|done].
  simpl. intros [= Hn <-]. rewrite Hc. clear Hc s2. subst s1. simpl.
  unfold update_table in *. simpl in *. apply Z.eqb_eq in Hn.
  unfold waiting, job_rows. fold t row. rewrite t_put_rows.
  fold (count (row_in t row ["received"]) (t_rows t (conn s))) in Hn.
  assert (count (row_in t row ["received"]) (map (λ r, if row_in t row ["received"] r
    then on_progress t (λ p, set_outcome "executing" (p_result p) (p_error_code p)
      (p_error_text p) (to_rfc3339 (clock s (ticks s))) p) r else r) (t_rows t (conn s))) = 0%nat)
    as E; [|lia].
  apply count_none. apply not_true_is_false. intros [r [Hin Hr]]%existsb_exists.
  apply in_map_iff in Hin as [r0 [<- _]].
  destruct (row_in t row ["received"] r0) eqn:E; [|congruence].
  unfold row_in, on_progress in Hr. rewrite t_progress_set in Hr. simpl in Hr.
  by rewrite andb_false_r in Hr.
Qed.
End operations.
#[export] Hint Resolve insert_booked insert_lan_received_booked prune_shrinks : respects.

(** ** Reading rows *)

Section reading.
Context `{Chrono} `{JsonText}.

Lemma row_to_lan_id r l : row_to_lan r = Some l → lj_job_id l = lan_job_id (l_id r).
Proof.
  unfold row_to_lan, mbind, option_bind. intros Hr. repeat case_match; by simplify_eq/=.
Qed.
Lemma row_to_entry_id r e : row_to_entry r = Some e → dj_id (je_job e) = o_job_id r.
Proof.
  unfold row_to_entry, mbind, option_bind. intros Hr. repeat case_match; by simplify_eq/=.
Qed.

Lemma query_mapped_ok {A} ctx (q : JTables → option A) s a s' :
  query_mapped ctx q s = (Ok a, s') → q (conn s) = Some a ∧ conn s' = conn s.
Proof.
  unfold query_mapped, mbind, M_bind.
  destruct (query_cases ctx q s) as [(s1 & -> & Hc)|(s1 & -> & Hc)]; [|done].
  destruct (q (conn s)); [|done]. by intros [= <- <-].
Qed.
Lemma read_row_some {A B} (f : A → option B) o b :
  read_row f o = Some (Some b) → ∃ a, o = Some a ∧ f a = Some b.
Proof. destruct o as [a|]; simpl; [|done]. destruct (f a) eqn:E; [|done]. intros [= <-]. eauto. Qed.

Lemma get_job_id j s e s' : get j s = (Ok (Some e), s') → dj_id (je_job e) = j ∧ conn s' = conn s.
Proof.
  unfold get. destruct (is_lan_job j) eqn:Hj.
  - unfold mbind, M_bind. destruct (lan_job_by_id j s) as [[[l|]|?] s1] eqn:E; try done.
    intros [= <- <-]. apply query_mapped_ok in E as [E Hc]. split; [|done].
    apply read_row_some in E as (r & Hf & Hr). apply row_to_lan_id in Hr.
    apply List.find_some in Hf as [_ Hid%Z.eqb_eq]. unfold lj_job_id, lan_job_id in *. lia.
  - intros [E Hc]%query_mapped_ok. split; [|done]. apply read_row_some in E as (r & Hf & Hr).
    apply row_to_entry_id in Hr. apply List.find_some in Hf as [_ Hid%Z.eqb_eq]. congruence.
Qed.

Lemma count_find {A} (p : A → bool) l : List.find p l = None → count p l = 0%nat.
Proof.
  intros Hf. apply count_none, not_true_is_false. intros [a [Hin Ha]]%existsb_exists.
  by rewrite (List.find_none _ _ Hf a Hin) in Ha.
Qed.

(** A job that is not found has no row. *)
Lemma get_none_present j s s' : get j s = (Ok None, s') → present j (conn s) = 0%nat.
Proof.
  unfold get. destruct (is_lan_job j) eqn:Hj.
  - unfold mbind, M_bind. destruct (lan_job_by_id j s) as [[[l|]|?] s1] eqn:E; try done.
    intros _. apply query_mapped_ok in E as [E _]. rewrite present_lan by done.
    apply count_find. unfold read_row in E. destruct (List.find _ _) as [r|] eqn:Ef; [|done].
    by destruct (row_to_lan r).
  - intros [E _]%query_mapped_ok. rewrite present_odoo by done.
    apply count_find. unfold read_row in E. destruct (List.find _ _) as [r|] eqn:Ef; [|done].
    by destruct (row_to_entry r).
Qed.
End reading.
