(* ===== verification/DeviceSystem.v ===== *)
(** * The device-job source as a transition system

    Every task's turn is a step from any state: the tasks interleave freely,
    calls of Odoo and of the devices answer anything, the engine fails as its
    schedule says, and the process may stop and start again between any two
    steps ([R_restart]; a process that stops inside an operation is one whose
    engine fails from there on).  [pruned] counts the rows of each job that the
    pruning at a start took away. *)

From Stdlib Require Import ZArith String.
From S2P Require Import Prelude RustStd Core Sqlite Json DeviceApi JournalData JournalCard Journal.
From S2P Require Import DeviceTasks JournalTheory.
#[local] Open Scope Z_scope.

(** What an executor writes to the journal while it drives its device. *)
Inductive ExecutorWrite :=
| WContact (job_id : Z)
| WCardContact (job_id : Z) (terminal_ip : string) (amount_minor : Z) (baseline : option Z)
    (tx_type : Z) (target : option Z)
| WCardAuthorized (job_id trans_seq : Z) (res : Value)
| WCardTransacted (job_id trans_seq : Z)
| WCardEnded (job_id : Z)
| WCardForPerson (job_id : Z) (reason : string)
| WBalanceContact (terminal_ip day source : string) (job_id : option Z)
| WBalanceOutcome (id : Z) (outcome : string) (res : Value)
| WBalanceForget (id : Z).

Section system.
Context `{Chrono} `{JsonText} (registry : ExecutorRegistry) (timing : Timing).

Definition executor_write (w : ExecutorWrite) : JM unit :=
  match w with
  | WContact j => _ ← mark_device_contact j; mret tt
  | WCardContact j ip amount baseline tx target =>
    _ ← card_contact_of j ip amount baseline tx target; mret tt
  | WCardAuthorized j s res => _ ← card_authorized j s res; mret tt
  | WCardTransacted j s => _ ← card_transacted j s; mret tt
  | WCardEnded j => _ ← card_ended j; mret tt
  | WCardForPerson j reason => _ ← card_for_person j reason; mret tt
  | WBalanceContact ip day source j => _ ← card_balance_contact ip day source j; mret tt
  | WBalanceOutcome id outcome res => _ ← card_balance_outcome id outcome res; mret tt
  | WBalanceForget id => _ ← card_balance_forget id; mret tt
  end.

Definition call_of (c : Client) (q : DeviceQueue) : option Call := queues c q ≫= q_call.

Inductive step : Client → Client → Prop :=
| S_accept job now c : step c (snd (accept_job registry job now c))
| S_pending pending odoo c : step c (snd (pending_pass pending odoo c))
| S_worker q now read_at c : step c (snd (worker_take timing q now read_at c))
| S_guard q job c :
    call_of c q = Some (Executing_ job false) → step c (snd (execute_guard timing q job c))
| S_finish q job fired joined c :
    call_of c q = Some (Executing_ job fired) →
    step c (snd (execute_finish q (dj_id job) joined c))
| S_reconciled q entry joined c :
    call_of c q = Some (Reconciling entry) →
    step c (snd (reconcile_finish q (dj_id (je_job entry)) joined c))
| S_schedule c : step c (snd (schedule_reconciles registry c))
| S_flush_ack ack reply first_error c : step c (snd (flush_ack ack reply first_error c))
| S_flush_report job_id reply first_error c :
    step c (snd (flush_report job_id reply first_error c))
| S_admit r now c : step c (snd (admit_lan registry r now c))
| S_executor w c : step c (snd (on_journal (executor_write w) c)).

Definition tables (c : Client) : JTables := conn (journal c).
Definition empty_tables : JTables :=
  {| device_jobs := []; lan_jobs := []; lan_seq := 0; card_payments := []; card_balances := [];
     balance_seq := 0 |}.
Definition first_start (c : Client) : Prop := tables c = empty_tables ∧ asked c = [].

Inductive reachable : Client → (Z → nat) → Prop :=
| R_first c : first_start c → reachable c (λ _, 0%nat)
| R_step c c' pruned : reachable c pruned → step c c' → reachable c' pruned
| R_restart c pruned :
    reachable c pruned →
    let c' := snd (restart registry c) in
    reachable c' (λ j, (pruned j + (present j (tables c) - present j (tables c')))%nat).

(** How often the executor of its device was called to run job [j]. *)
Definition runs_job (j : Z) (a : Asked) : bool :=
  match a with Executed job => dj_id job =? j | AskedAbout _ => false end.
Definition executions (j : Z) (c : Client) : nat := count (runs_job j) (asked c).

(** ** What the handlers respect *)

(** [R] on the journal's tables; no execution is started. *)
Definition lifted (R : relation JTables) (c c' : Client) : Prop :=
  R (tables c) (tables c') ∧ ∀ j, executions j c' = executions j c.
#[export] Instance lifted_preorder (R : relation JTables) `{!PreOrder R} : PreOrder (lifted R).
Proof.
  split; [split; [reflexivity|done]|].
  intros a b c [R1 E1] [R2 E2]. split; [by etrans|]. intros j. by rewrite E2.
Qed.

Section handlers.
Context (R : relation JTables) `{!PreOrder R}.

Lemma respects_on_journal {A} (m : JM A) :
  respects (on_conn R) m → respects (lifted R) (on_journal m).
Proof.
  intros Hm. apply respects_zoom with (Q := on_conn R); [|done]. intros c j Hj. by split.
Qed.
Lemma respects_log_about e : respects (lifted R) (log_asked (AskedAbout e)).
Proof.
  apply respects_modify. intros c. split; [reflexivity|]. intros j. unfold executions. simpl.
  rewrite count_app, count_one. simpl. lia.
Qed.
Lemma respects_set_queue q v : respects (lifted R) (set_queue q v).
Proof. apply respects_modify. intros c. split; [reflexivity|done]. Qed.
Lemma respects_set_reconciling f : respects (lifted R) (set_reconciling f).
Proof. apply respects_modify. intros c. split; [reflexivity|done]. Qed.
#[local] Hint Resolve respects_on_journal respects_log_about respects_set_queue
  respects_set_reconciling : respects.

Lemma respects_send q item : respects (lifted R) (send q item).
Proof. unfold send. solve_respects. Qed.
Lemma respects_queue_for job : respects (lifted R) (queue_for registry job).
Proof. unfold queue_for. solve_respects. Qed.
#[local] Hint Resolve respects_send respects_queue_for : respects.
Lemma respects_send_for job item : respects (lifted R) (send_for registry job item).
Proof. unfold send_for. solve_respects. Qed.
Lemma respects_start_reconcile j : respects (lifted R) (start_reconcile j).
Proof. unfold start_reconcile. solve_respects. Qed.
Lemma respects_reconcile_done j : respects (lifted R) (reconcile_done j).
Proof. unfold reconcile_done. solve_respects. Qed.
Lemma respects_set_call q call : respects (lifted R) (set_call q call).
Proof. unfold set_call. solve_respects. Qed.
End handlers.
End system.
#[export] Hint Resolve respects_log_about respects_set_queue respects_set_reconciling
  respects_send respects_queue_for respects_send_for respects_start_reconcile
  respects_reconcile_done respects_set_call : respects.

Ltac respects_hook ::=
  lazymatch goal with
  | |- respects (lifted _) (on_journal _) => apply respects_on_journal; [try apply _]
  end.

(** ** Each handler *)

Section each_handler.
Context `{Chrono} `{JsonText} (registry : ExecutorRegistry) (timing : Timing).

Lemma executor_write_evolves w : respects (on_conn evolves) (executor_write w).
Proof. destruct w; simpl; solve_respects. Qed.

Lemma pending_loop_evolves odoo jobs b : respects (lifted evolves) (pending_loop odoo jobs b).
Proof.
  revert b. induction jobs as [|p jobs IH]; intros b; simpl; [solve_respects|].
  unfold ack_not_received. solve_respects.
Qed.
Lemma pending_pass_evolves pending odoo : respects (lifted evolves) (pending_pass pending odoo).
Proof.
  unfold pending_pass. destruct pending as [[jobs skipped]|e]; [|solve_respects].
  apply pending_loop_evolves.
Qed.
Lemma execute_guard_evolves q job : respects (lifted evolves) (execute_guard timing q job).
Proof. unfold execute_guard. solve_respects. Qed.
Lemma execute_finish_evolves q j joined : respects (lifted evolves) (execute_finish q j joined).
Proof. unfold execute_finish. solve_respects. Qed.
Lemma reconcile_finish_evolves q j joined : respects (lifted evolves) (reconcile_finish q j joined).
Proof. unfold reconcile_finish, record_answer. solve_respects. Qed.
Lemma reconcile_begin_evolves q j : respects (lifted evolves) (reconcile_begin q j).
Proof. unfold reconcile_begin. solve_respects. Qed.
Lemma schedule_reconciles_evolves : respects (lifted evolves) (schedule_reconciles registry).
Proof. unfold schedule_reconciles, schedule_one. solve_respects. Qed.
Lemma flush_ack_evolves ack reply first : respects (lifted evolves) (flush_ack ack reply first).
Proof. unfold flush_ack, flush_one, mark_accepted. solve_respects. Qed.
Lemma flush_report_evolves j reply first : respects (lifted evolves) (flush_report j reply first).
Proof. unfold flush_report, flush_one. solve_respects. Qed.

(** The handlers that insert, for a relation that holds of every evolution and
    of both insertions. *)
Section inserting.
Context (R : relation JTables) `{!PreOrder R} (HR : ∀ d d', evolves d d' → R d d')
  (Hins : ∀ job refused, respects (on_conn R) (insert job refused))
  (Hlan : ∀ job, respects (on_conn R) (insert_lan_received job)).

Lemma respects_on_conn_weaken {A} (m : JM A) :
  respects (on_conn evolves) m → respects (on_conn R) m.
Proof. apply respects_weaken. intros s s'. apply HR. Qed.
Lemma accept_job_respects job now : respects (lifted R) (accept_job registry job now).
Proof.
  unfold accept_job. apply respects_bind; [apply _| |].
  - apply respects_on_journal. destruct (validate job registry); apply Hins.
  - intros inserted. solve_respects; apply respects_on_conn_weaken; auto with respects.
Qed.
Lemma admit_respects r now : respects (lifted R) (admit_lan registry r now).
Proof.
  unfold admit_lan. solve_respects; first [apply Hlan|apply respects_on_conn_weaken; auto with respects
    |auto with respects typeclass_instances].
Qed.
End inserting.

Lemma accept_job_booked job now : respects (lifted booked) (accept_job registry job now).
Proof. apply accept_job_respects; [apply _|exact evolves_booked|exact insert_booked]. Qed.
Lemma admit_booked r now : respects (lifted booked) (admit_lan registry r now).
Proof. apply admit_respects; [apply _|exact evolves_booked|exact insert_lan_received_booked]. Qed.

(** ** The invariant *)

Definition at_most_once (c : Client) (pruned : Z → nat) : Prop :=
  lan_wf (tables c) ∧
  ∀ j, (executions j c + waiting j (tables c) ≤ pruned j + present j (tables c))%nat
       ∧ (present j (tables c) ≤ 1)%nat
       ∧ (is_lan_job j = true →
          (pruned j + present j (tables c) ≤ handed_out j (tables c))%nat).

Lemma at_most_once_booked c c' pruned :
  lifted booked c c' → at_most_once c pruned → at_most_once c' pruned.
Proof.
  intros [Hbk Hx] [Hb Hj]. destruct (Hbk Hb) as [[Hacc _] Hb']. split; [done|].
  intros j. rewrite Hx. specialize (Hj j) as (H1 & H2 & H3).
  specialize (Hacc j) as (A1 & A2 & A3 & A4). repeat split; [lia..|].
  intros Hl. specialize (A4 Hl). specialize (H3 Hl). lia.
Qed.

Lemma at_most_once_evolves c c' pruned :
  lifted evolves c c' → at_most_once c pruned → at_most_once c' pruned.
Proof.
  intros [He Hx]. apply at_most_once_booked. split; [by apply evolves_booked|done].
Qed.

(** The entry read for a job id is that job's. *)
End each_handler.

(** ** The system *)

Section system_facts.
Context `{Chrono} `{JsonText} (registry : ExecutorRegistry) (timing : Timing).

Lemma on_journal_run {A} (m : JM A) c :
  on_journal m c = (fst (m (journal c)),
    mkClient _ (snd (m (journal c))) (queues c) (reconciling c) (asked c)).
Proof. unfold on_journal, zoom. by destruct (m (journal c)). Qed.

(** The only caller of an executor: it took the job out of [received]. *)
Definition takes_job (j : Z) (c c' : Client) : Prop :=
  evolves (tables c) (tables c')
  ∧ (waiting j (tables c') < waiting j (tables c))%nat
  ∧ ∀ j', executions j' c' = (executions j' c + (if (j =? j')%Z then 1 else 0))%nat.

Lemma set_call_lifted q call c : lifted evolves c (snd (set_call q call c)).
Proof. exact (respects_set_call evolves q call c). Qed.

Lemma execute_begin_cases q j queued_at now read_at c r c' :
  execute_begin timing q j queued_at now read_at c = (r, c') →
  lifted evolves c c' ∨ takes_job j c c'.
Proof.
  unfold execute_begin. unfold mbind at 1, M_bind at 1. rewrite on_journal_run.
  pose proof (get_evolves evolves j (journal c)) as Hg.
  destruct (get j (journal c)) as [[[e|]|err] s1] eqn:Eg; simpl in *;
    [|intros [= _ <-]; left; by split..].
  apply get_job_id in Eg as [Hid _].
  set (c1 := mkClient _ s1 _ _ _). assert (lifted evolves c c1) as Hc1 by done.
  destruct (queue_wait_exceeded _ _ _).
  { intros Hr. left. etrans; [exact Hc1|].
    assert (respects (lifted evolves) (_ ← on_journal (fail_unstarted j CODE_EXPIRED_LOCAL
      (expired_text timing q (as_u64 (as_millis (saturating_duration_since read_at queued_at)))));
      mret () : CM unit)) as Hx by solve_respects. specialize (Hx c1). by rewrite Hr in Hx. }
  unfold mbind at 1, M_bind at 1. rewrite on_journal_run.
  pose proof (start_execution_evolves j (journal c1)) as Hs.
  destruct (start_execution j (journal c1)) as [[[]|err] s2] eqn:Es; simpl in *;
    [|intros [= _ <-]; left; etrans; [exact Hc1|by split]..].
  apply start_execution_takes in Es. unfold mbind, M_bind. simpl.
  match goal with |- set_call ?q ?call ?c2 = _ → _ =>
    pose proof (set_call_lifted q call c2) as [H1 H2] end.
  intros Hr. rewrite Hr in H1, H2. simpl in *. right. unfold on_conn in *. split; [|split].
  - etrans; [exact Hg|]. etrans; [exact Hs|]. exact H1.
  - apply (evolves_job_counts j) in Hg as [_ Hg], H1 as [_ H1].
    unfold tables in *. simpl in *. lia.
  - intros j'. rewrite H2. unfold executions. simpl. rewrite count_app, count_one. simpl.
    by rewrite Hid.
Qed.

Lemma worker_take_cases q now read_at c r c' :
  worker_take timing q now read_at c = (r, c') →
  lifted evolves c c' ∨ ∃ j, takes_job j c c'.
Proof.
  unfold worker_take. unfold mbind at 1, M_bind at 1. simpl.
  destruct (queues c q) as [[[|item items] [] [call|]]|]; try (intros [= _ <-]; left; reflexivity).
  unfold mbind, M_bind. simpl. set (c1 := mkClient _ _ _ _ _). destruct item as [j at_|j].
  - intros [Hl|Ht]%execute_begin_cases; [left; by destruct Hl|right; exists j; by destruct Ht].
  - intros Hr. left. pose proof (reconcile_begin_evolves q j c1) as Hx. rewrite Hr in Hx.
    by destruct Hx.
Qed.

Lemma at_most_once_takes j c c' pruned :
  takes_job j c c' → at_most_once c pruned → at_most_once c' pruned.
Proof.
  intros (Hev & Hw & Hx) [Hb Hj]. split; [by eapply lan_wf_evolves|].
  intros j'. rewrite Hx. specialize (Hj j') as (H1 & H2 & H3).
  destruct (evolves_job_counts j' _ _ Hev) as [Hp Hw']. rewrite Hp.
  assert (handed_out j' (tables c') = handed_out j' (tables c)) as ->.
  { unfold handed_out. by destruct Hev as (_ & _ & ->). }
  destruct (Z.eqb_spec j j') as [<-|]; repeat split; auto; lia.
Qed.

Lemma step_at_most_once c c' pruned :
  step registry timing c c' → at_most_once c pruned → at_most_once c' pruned.
Proof.
  destruct 1 as [job now c|pending odoo c|q now read_at c|q job c _|q job fired joined c _
    |q entry joined c _|c|ack reply first c|j reply first c|r now c|w c].
  - apply at_most_once_booked, accept_job_booked.
  - apply at_most_once_evolves, pending_pass_evolves.
  - destruct (worker_take timing q now read_at c) as [r c'] eqn:E. simpl.
    apply worker_take_cases in E as [Hl|[j Ht]];
      [by apply at_most_once_evolves|by eapply at_most_once_takes].
  - apply at_most_once_evolves, execute_guard_evolves.
  - apply at_most_once_evolves, execute_finish_evolves.
  - apply at_most_once_evolves, reconcile_finish_evolves.
  - apply at_most_once_evolves, schedule_reconciles_evolves.
  - apply at_most_once_evolves, flush_ack_evolves.
  - apply at_most_once_evolves, flush_report_evolves.
  - apply at_most_once_booked, admit_booked.
  - apply at_most_once_evolves. apply respects_on_journal. apply executor_write_evolves.
Qed.

(** A start recovers (rows evolve) and prunes (rows go away). *)
Definition restarts (c c' : Client) : Prop :=
  ∃ d, evolves (tables c) d ∧ shrinks d (tables c') ∧ ∀ j, executions j c' = executions j c.

Lemma restart_restarts c : restarts c (snd (restart registry c)).
Proof.
  unfold restart, mbind, M_bind, modify. rewrite on_journal_run. simpl.
  pose proof (recover_after_restart_evolves (journal c)) as Hr.
  destruct (recover_after_restart (journal c)) as [[rows|err] s1]; simpl in *.
  - unfold ignore. rewrite on_journal_run. simpl. pose proof (prune_shrinks s1) as Hp.
    exists (conn s1). split; [exact Hr|split; [exact Hp|done]].
  - exists (conn s1). split; [exact Hr|]. split; [|done]. change (tables _) with (conn s1). reflexivity.
Qed.

Lemma restart_at_most_once c c' pruned :
  restarts c c' → at_most_once c pruned →
  at_most_once c' (λ j, (pruned j + (present j (tables c) - present j (tables c')))%nat).
Proof.
  intros (d & Hev & Hs & Hx) [Hb Hj]. split.
  { eapply shrinks_lan_wf; [exact Hs|]. by eapply lan_wf_evolves. }
  intros j. rewrite Hx. specialize (Hj j) as (H1 & H2 & H3).
  destruct (evolves_job_counts j _ _ Hev) as [Hp Hw].
  destruct (shrinks_counts j _ _ Hs) as (Hp' & Hw' & Hh). rewrite Hh.
  assert (handed_out j d = handed_out j (tables c)) as ->.
  { unfold handed_out. by destruct Hev as (_ & _ & ->). }
  repeat split; [lia..|]. intros Hl. specialize (H3 Hl). lia.
Qed.

Lemma reachable_at_most_once c pruned :
  reachable registry timing c pruned → at_most_once c pruned.
Proof.
  induction 1 as [c [Ht Ha]|c c' pruned _ IH Hs|c pruned _ IH c'].
  - unfold at_most_once. rewrite Ht. split; [split; constructor|]. intros j.
    unfold executions. rewrite Ha. destruct (is_lan_job j) eqn:Hj.
    + rewrite present_lan, waiting_lan by done. unfold count. simpl. repeat split; lia.
    + rewrite present_odoo, waiting_odoo by done. unfold count. simpl.
      repeat split; try lia; congruence.
  - by eapply step_at_most_once.
  - apply restart_at_most_once; [apply restart_restarts|done].
Qed.
End system_facts.

(** ** What every step keeps of the tables *)

Section every_step.
Context `{Chrono} `{JsonText} (registry : ExecutorRegistry) (timing : Timing).
Context (R : relation JTables) `{!PreOrder R} (HR : ∀ d d', evolves d d' → R d d')
  (Hins : ∀ job refused, respects (on_conn R) (insert job refused))
  (Hlan : ∀ job, respects (on_conn R) (insert_lan_received job)).

Lemma step_tables c c' : step registry timing c c' → R (tables c) (tables c').
Proof.
  assert (∀ A (m : CM A) c, respects (lifted evolves) m → R (tables c) (tables (snd (m c)))) as He.
  { intros A m c1 Hm. by apply HR, Hm. }
  destruct 1 as [job now c|pending odoo c|q now read_at c|q job c _|q job fired joined c _
    |q entry joined c _|c|ack reply first c|j reply first c|r now c|w c].
  - by apply (accept_job_respects registry R HR Hins).
  - apply He, pending_pass_evolves.
  - destruct (worker_take timing q now read_at c) as [r c'] eqn:E. simpl.
    by apply worker_take_cases in E as [[Hl _]|[j [Ht _]]]; apply HR.
  - apply He, execute_guard_evolves.
  - apply He, execute_finish_evolves.
  - apply He, reconcile_finish_evolves.
  - apply He, schedule_reconciles_evolves.
  - apply He, flush_ack_evolves.
  - apply He, flush_report_evolves.
  - by apply (admit_respects registry R HR Hlan).
  - apply He, respects_on_journal, executor_write_evolves.
Qed.
End every_step.

(** A row with a final outcome keeps its job and its outcome. *)
Definition outcome_kept (d d' : JTables) : Prop :=
  (∀ r, In r (device_jobs d) → final_state (o_progress r) = true → ∃ r', In r' (device_jobs d')
     ∧ o_job_id r' = o_job_id r ∧ odoo_job r' = odoo_job r
     ∧ outcome_cols (o_progress r') = outcome_cols (o_progress r))
  ∧ (∀ r, In r (lan_jobs d) → final_state (l_progress r) = true → ∃ r', In r' (lan_jobs d')
     ∧ l_id r' = l_id r ∧ lan_job_of r' = lan_job_of r
     ∧ outcome_cols (l_progress r') = outcome_cols (l_progress r)).

Lemma outcome_cols_final p p' :
  outcome_cols p' = outcome_cols p → final_state p = true → final_state p' = true.
Proof. unfold outcome_cols, final_state. by intros [= -> _ _ _]. Qed.

#[export] Instance outcome_kept_preorder : PreOrder outcome_kept.
Proof.
  split.
  - intros d. split; intros r Hr _; exists r; auto.
  - intros a b c [Ao Al] [Bo Bl]. split; intros r Hr Hf.
    + destruct (Ao r Hr Hf) as (r1 & H1 & I1 & J1 & O1).
      destruct (Bo r1 H1) as (r2 & H2 & I2 & J2 & O2); [by eapply outcome_cols_final|].
      exists r2. split; [done|split; [|split]]; congruence.
    + destruct (Al r Hr Hf) as (r1 & H1 & I1 & J1 & O1).
      destruct (Bl r1 H1) as (r2 & H2 & I2 & J2 & O2); [by eapply outcome_cols_final|].
      exists r2. split; [done|split; [|split]]; congruence.
Qed.

Lemma Forall2_in {A B} (P : A → B → Prop) l l' a :
  Forall2 P l l' → In a l → ∃ b, In b l' ∧ P a b.
Proof.
  induction 1 as [|x y l l' Hxy _ IH]; [done|]. intros [<-|Ha]; [exists y; simpl; auto|].
  destruct (IH Ha) as (b & Hb & Hp). exists b. simpl. auto.
Qed.

Lemma evolves_outcome_kept d d' : evolves d d' → outcome_kept d d'.
Proof.
  intros (Ho & Hl & _). split; intros r Hr Hf.
  - destruct (Forall2_in _ _ _ _ Ho Hr) as (r' & Hr' & [Hid Hs Hp]). exists r'.
    split; [done|split; [done|split; [symmetry; exact Hs|]]]. by apply (pe_final _ _ Hp).
  - destruct (Forall2_in _ _ _ _ Hl Hr) as (r' & Hr' & [Hid Hs Hp]). exists r'.
    split; [done|split; [done|split; [symmetry; exact Hs|]]]. by apply (pe_final _ _ Hp).
Qed.

Section kept.
Context `{Chrono} `{JsonText}.

Lemma outcome_kept_more d d' :
  (∀ r, In r (device_jobs d) → In r (device_jobs d')) →
  (∀ r, In r (lan_jobs d) → In r (lan_jobs d')) → outcome_kept d d'.
Proof. intros Ho Hl. split; intros r Hr _; exists r; auto. Qed.

Lemma insert_outcome_kept job refused : respects (on_conn outcome_kept) (insert job refused).
Proof.
  unfold insert. solve_respects.
  apply respects_execute; [apply _|]. intros d. unfold insert_job_row.
  destruct (existsb _ _); simpl; [reflexivity|].
  apply outcome_kept_more; simpl; [|done]. intros r Hr. apply in_or_app. auto.
Qed.
Lemma insert_lan_outcome_kept job : respects (on_conn outcome_kept) (insert_lan_received job).
Proof.
  unfold insert_lan_received. destruct (dj_kasa_id job); [|solve_respects]. solve_respects.
  apply respects_execute_checked; [apply _|]. intros d d' n. unfold insert_lan_row.
  destruct (existsb _ _); [by intros [= <- _]|]. destruct (lan_seq d <? i64_max); [|done].
  intros [= <- _]. apply outcome_kept_more; simpl; [done|]. intros r Hr. apply in_or_app. auto.
Qed.
End kept.
