(* ===== verification/DeviceTheory.v ===== *)
(** * Theory of the device-job contract

    The texts and codes of acks, the delays of the retry loops, and what the
    journal's transactions and pages of rows do when the engine works or fails. *)

From Stdlib Require Import ZArith String Sorting.Sorted.
From S2P Require Import Prelude RustStd Core Sqlite Json DeviceApi JournalData JournalCard.
From S2P Require Import Journal DeviceTasks JournalTheory.
#[local] Open Scope Z_scope.

(** ** Error codes and texts *)

(** [[a-z0-9_.-]] *)
Definition plain_code_char (c : Z) : bool :=
  is_ascii_lowercase c || is_ascii_digit c || (c =? 95) || (c =? 46) || (c =? 45).

Lemma code_char_plain c : plain_code_char (code_char c) = true.
Proof.
  unfold code_char. destruct (_ || _) eqn:E at 1; [exact E|]. done.
Qed.
Lemma plain_code_char_scalar c : plain_code_char c = true → scalar c.
Proof.
  unfold plain_code_char, is_ascii_lowercase, is_ascii_digit, scalar.
  rewrite !orb_true_iff, !andb_true_iff, !Z.leb_le, !Z.eqb_eq. lia.
Qed.

Lemma cleaned_code_facts code :
  Forall (λ c, plain_code_char c = true) (cleaned_code code)
  ∧ (List.length (cleaned_code code) ≤ MAX_ERROR_CODE_CHARS)%nat
  ∧ chars (of_chars (cleaned_code code)) = cleaned_code code.
Proof.
  unfold cleaned_code. set (l := take _ _).
  assert (Forall (λ c, plain_code_char c = true) (map code_char l)) as Hp.
  { apply Forall_forall. intros c Hc. apply list_elem_of_In, in_map_iff in Hc as (c' & <- & _).
    apply code_char_plain. }
  split; [done|]. split.
  - rewrite length_map. subst l. rewrite length_take. lia.
  - apply chars_of_chars. eapply Forall_impl; [exact Hp|]. apply plain_code_char_scalar.
Qed.

Lemma truncate_error_chars text : chars (truncate_error text) = truncate_chars (chars text).
Proof.
  apply chars_of_selected. intros cs Hcs. unfold truncate_chars. apply Forall_take.
  rewrite Forall_forall in *. intros c Hc. apply Hcs. apply list_elem_of_In.
  by apply list_elem_of_In, filter_In in Hc as [Hc _].
Qed.

(** ** Delays *)

Lemma next_delay_nth n b :
  0 ≤ Backoff.current b → 0 ≤ Backoff.max b →
  Backoff.delays n b =
  map (λ i, Z.min (Backoff.current b * 2 ^ Z.of_nat i) (Backoff.max b)) (seq 0 n).
Proof.
  revert b. induction n as [|n IH]; intros b Hc Hm; [done|].
  cbn [Backoff.delays seq map]. unfold Backoff.next_delay. rewrite IH; simpl; [|lia..].
  f_equal; [by rewrite Z.mul_1_r|]. rewrite <- seq_shift, map_map. apply map_ext. intros i.
  rewrite Nat2Z.inj_succ, Z.pow_succ_r by lia.
  assert (0 < 2 ^ Z.of_nat i) by (apply Z.pow_pos_nonneg; lia). nia.
Qed.

(** ** Startup recovery *)

Section recovery.
Context `{Chrono} `{JsonText}.

(** What a row is after a recovery at [ts]. *)
Definition after_restart (ts : string) (t : Table) (r : t_row t) : t_row t :=
  if in_flight t r then on_progress t (recovered ts) r else r.

Lemma now_text_ok s ts s' :
  now_text s = (Ok ts, s') → ts = to_rfc3339 (clock s (ticks s)) ∧ conn s' = conn s.
Proof. unfold now_text, mbind, M_bind. rewrite utc_now_run. by intros [= <- <-]. Qed.

Lemma recover_table_ok ts t lan s rows s' :
  recover_table ts t lan s = (Ok rows, s') →
  rows = in_flight_of t lan (conn s)
  ∧ conn s' = t_put t (map (after_restart ts t) (t_rows t (conn s))) (conn s).
Proof.
  unfold recover_table. intros Hr. ok_step Hr. ok_step Hr. ok_step Hr.
  apply engine_ok in E as (E & _). apply query_ok in E0 as [-> E0]. apply execute_ok in E1.
  injection Hr as <- <-. rewrite E0, E in E1. rewrite E. split; [done|].
  by injection E1 as <- _.
Qed.

Lemma recover_after_restart_ok s rows s' :
  recover_after_restart s = (Ok rows, s') →
  let ts := to_rfc3339 (clock s (ticks s)) in
  rows = in_flight_of ODOO_TABLE false (conn s) ++ in_flight_of LAN_TABLE true (conn s)
  ∧ conn s' = put_lan_jobs (map (after_restart ts LAN_TABLE) (lan_jobs (conn s)))
                (put_device_jobs (map (after_restart ts ODOO_TABLE) (device_jobs (conn s))) (conn s)).
Proof.
  unfold recover_after_restart.
  intros (s0 & Ec & Ek & Et & [Hb|(s1 & Hb & _)])%transaction_ok; cbv zeta; rewrite <- Ec, <- Ek, <- Et.
  - ok_step Hb. apply now_text_ok in E as [-> E]. ok_step Hb. ok_step Hb. ok_step Hb.
    apply recover_table_ok in E0 as [-> E0], E1 as [-> E1]. apply engine_ok in E2 as (E2 & _).
    injection Hb as <- <-. rewrite E2, E1, E0, E. split; [done|]. done.
  - ok_step Hb. ok_step Hb. ok_step Hb. by ok_step Hb.
Qed.

Lemma recover_after_restart_err s e s' :
  recover_after_restart s = (Err e, s') → conn s' = conn s.
Proof. apply transaction_err. Qed.

Lemma after_restart_not_in_flight ts t `{!TableLaws t} r :
  in_flight t (after_restart ts t r) = false.
Proof.
  unfold after_restart. destruct (in_flight t r) eqn:E; [|done].
  unfold in_flight, on_progress. by rewrite t_progress_set.
Qed.
End recovery.

(** ** Pages of rows and the acks they owe *)

Lemma mapM_in {A B} (f : A → option B) l l' :
  mapM f l = Some l' → ∀ b, In b l' ↔ ∃ a, In a l ∧ f a = Some b.
Proof.
  intros Hm%mapM_Some b. induction Hm as [|x y l l' Hxy _ IH]; simpl.
  - split; [done|]. by intros (a & [] & _).
  - rewrite IH. split.
    + intros [<-|(a & Ha & Hf)]; eauto.
    + intros (a & [<-|Ha] & Hf); [left; congruence|right; eauto].
Qed.

Lemma mapM_total {A B} (f : A → option B) l l' a :
  mapM f l = Some l' → In a l → ∃ b, f a = Some b.
Proof.
  intros Hm%mapM_Some. induction Hm as [|x y l l' Hxy _ IH]; [done|].
  intros [<-|Ha]; eauto.
Qed.

Lemma in_omap {A B} (f : A → option B) l b : In b (omap f l) ↔ ∃ a, In a l ∧ f a = Some b.
Proof.
  rewrite <- list_elem_of_In, list_elem_of_omap. split; intros (a & Ha & Hf); exists a;
    by rewrite ?list_elem_of_In in *.
Qed.

Lemma jstate_parse_inv s st : jstate_parse s = Some st → s = jstate_as_str st.
Proof.
  unfold jstate_parse.
  repeat match goal with |- (if (?a =t? ?b) then _ else _) = _ → _ =>
    destruct (String.eqb_spec a b) as [->|]; [by intros [= <-]|] end.
  done.
Qed.
Lemma jstate_parse_as_str st : jstate_parse (jstate_as_str st) = Some st.
Proof. by destruct st. Qed.

Section acks.
Context `{Chrono} `{JsonText}.

Record entry_reads (r : OdooRow) (e : JournalEntry) : Prop := {
  er_id : dj_id (je_job e) = o_job_id r;
  er_type : dj_job_type (je_job e) = o_job_type r;
  er_state : p_state (o_progress r) = jstate_as_str (je_state e);
  er_result : optional_json (p_result (o_progress r)) = Some (je_result e);
  er_code : je_error_code e = p_error_code (o_progress r);
  er_text : je_error_text e = p_error_text (o_progress r);
  er_acked : je_acked e = negb (o_acked r =? 0);
  er_report : je_report e = report_from_code (o_report r);
}.
Lemma row_to_entry_reads r e : row_to_entry r = Some e → entry_reads r e.
Proof.
  unfold row_to_entry, mbind, option_bind. intros Hr. repeat case_match; simplify_eq/=.
  split; simpl; try done. by apply jstate_parse_inv.
Qed.

Lemma report_owed_code c : bool_decide (report_from_code c = ROwed) = (c =? 1).
Proof. unfold report_from_code. destruct (c =? 1); [done|]. by destruct (c =? 2). Qed.

(** The SQL filter and [owed_ack] agree. *)
Lemma owed_ack_row r e :
  row_to_entry r = Some e → (is_Some (owed_ack e) ↔ ack_owed_row r = true).
Proof.
  intros [_ _ Hst _ _ _ Ha Hrep]%row_to_entry_reads. unfold owed_ack, ack_owed_row.
  rewrite Hst, Ha, Hrep, report_owed_code.
  destruct (je_state e), (o_acked r =? 0), (o_report r =? 1); simpl; split; try done; by intros [? [=]].
Qed.

Lemma in_sorted_page {A} (key : A → Z) p l a :
  In a (order_by_id key (List.filter p l)) ↔ In a l ∧ p a = true.
Proof. by rewrite in_order_by_id, filter_In. Qed.

Lemma owed_acks_ok s acks s' :
  owed_acks s = (Ok acks, s') →
  conn s' = conn s ∧ ∃ entries,
    mapM row_to_entry (order_by_id o_job_id (List.filter ack_owed_row (device_jobs (conn s))))
      = Some entries
    ∧ acks = map (λ c, AckAuthorized (c_job_id c) (default VNull (c_auth_result c ≫= json_from_str)))
               (order_by_id c_job_id (List.filter (owed_card_auth (conn s)) (card_payments (conn s))))
             ++ omap owed_ack entries.
Proof.
  unfold owed_acks, owed_card_auth_acks. intros Hr. ok_step Hr. ok_step E. ok_step Hr. ok_step Hr.
  apply engine_ok in E0 as (E0 & _), E1 as (E1 & _). apply query_ok in E as [-> E].
  apply query_mapped_ok in E2 as [Hm E2]. injection Hr as <- <-.
  assert (conn s1 = conn s) as Es1 by congruence.
  split; [congruence|]. rewrite E1, E, E0 in Hm. rewrite E0. eauto.
Qed.

Lemma omap_sorted {A B} (f : A → option B) (ka : A → Z) (kb : B → Z) l :
  (∀ a b, f a = Some b → kb b = ka a) →
  StronglySorted (λ a b, ka a ≤ ka b) l → StronglySorted (λ a b, kb a ≤ kb b) (omap f l).
Proof.
  intros Hk. induction 1 as [|a l Hs IH Hf]; simpl; [constructor|].
  destruct (f a) as [b|] eqn:E; [|done]. constructor; [done|].
  apply Forall_forall. intros b' Hb'. apply list_elem_of_In, in_omap in Hb' as (a' & Ha' & Hf').
  rewrite (Hk _ _ E), (Hk _ _ Hf'). rewrite Forall_forall in Hf. apply Hf. by apply list_elem_of_In.
Qed.
Lemma mapM_sorted {A B} (f : A → option B) (ka : A → Z) (kb : B → Z) l l' :
  (∀ a b, f a = Some b → kb b = ka a) → mapM f l = Some l' →
  StronglySorted (λ a b, ka a ≤ ka b) l → StronglySorted (λ a b, kb a ≤ kb b) l'.
Proof.
  intros Hk Hm%mapM_Some. induction Hm as [|a b l l' Hab Hm IH]; [constructor|].
  intros [Hs Hf]%StronglySorted_inv. constructor; [auto|].
  apply Forall_forall. intros b' Hb'. rewrite (Hk _ _ Hab).
  apply list_elem_of_lookup in Hb' as [i Hi].
  destruct (Forall2_lookup_r _ _ _ _ _ Hm Hi) as (a' & Ha' & Hf'). rewrite (Hk _ _ Hf').
  rewrite Forall_forall in Hf. apply Hf. by eapply list_elem_of_lookup_2.
Qed.
Lemma owed_ack_id e a : owed_ack e = Some a → ack_job_id a = dj_id (je_job e).
Proof. unfold owed_ack. repeat case_match; intros; simplify_eq/=; done. Qed.
End acks.

(** ** A round of acks *)

Section round.
Context `{Chrono} `{JsonText}.

(** The statement [mark_accepted] runs. *)
Definition accept_tables (ts : string) (ack : AckRequest) (note : string) (d : JTables) : JTables :=
  match ack with
  | AckIndeterminate j _ => fst (update_table ODOO_TABLE (row_in ODOO_TABLE j ["indeterminate"])
      (λ r : OdooRow, set_odoo (touch ts (o_progress r)) (o_acked r) (o_ack_note r) 2 r) d)
  | AckAuthorized j _ =>
    let st := if starts_with "refused:" note then AUTH_REFUSED else AUTH_ACCEPTED in
    fst (update_cards (λ r, card_by_job j r && (c_auth_ack r =? AUTH_OWED))
      (λ r, set_card_auth (c_authorized_at r) (c_trans_seq r) (c_auth_result r) st (Some note) r) d)
  | other => fst (update_table ODOO_TABLE (row_in ODOO_TABLE (ack_job_id other) FINAL_JOB_STATES)
      (λ r : OdooRow, set_odoo (touch ts (o_progress r)) 1 (Some note) (o_report r) r) d)
  end.

Lemma update_row_quiet ctx t row states f s :
  quiet s → ∃ b, update_row ctx t row states f s
                 = (Ok b, with_conn s (fst (update_table t (row_in t row states) f (conn s)))).
Proof.
  intros Hq. unfold update_row, mbind, M_bind. rewrite execute_quiet by done. simpl. eauto.
Qed.

Lemma mark_accepted_quiet ack note c :
  quiet (journal c) →
  ∃ ts c', mark_accepted ack note c = (Ok tt, c') ∧ quiet (journal c')
    ∧ conn (journal c') = accept_tables ts ack note (conn (journal c)).
Proof.
  intros Hq. unfold mark_accepted.
  destruct ack as [j v|j code text|j reason|j|j v];
    first [exists (to_rfc3339 (clock (journal c) (ticks (journal c)))) | exists ""];
    unfold mbind at 1, M_bind at 1, on_journal at 1, zoom at 1;
    try unfold mark_acked, mark_reported, now_text, mbind, M_bind; rewrite ?utc_now_run; simpl.
  1,2,3,4: match goal with |- context [update_row ?ctx ?t ?row ?states ?f ?s] =>
    destruct (update_row_quiet ctx t row states f s) as [b ->]; [done|] end; simpl; eauto.
  unfold mark_card_auth_acked, mbind, M_bind. rewrite execute_quiet by done. simpl. eauto.
Qed.

(** Every owed row has its ack among those still to be answered. *)
Definition outstanding (d : JTables) (acks : list AckRequest) : Prop :=
  (∀ r, In r (device_jobs d) → ack_owed_row r = true → ∃ a, In a acks ∧ ack_job_id a = o_job_id r ∧
     match a with
     | AckIndeterminate _ _ => p_state (o_progress r) = "indeterminate"
     | AckAuthorized _ _ => False
     | _ => final_state (o_progress r) = true
     end)
  ∧ (∀ c, In c (card_payments d) → owed_card_auth d c = true →
     ∃ v, In (AckAuthorized (c_job_id c) v) acks).

Lemma find_map_same {A} (p : A → bool) (f : A → A) l :
  (∀ a, p (f a) = p a) → List.find p (map f l) = f <$> List.find p l.
Proof.
  intros Hp. induction l as [|a l IH]; simpl; [done|]. rewrite Hp. by destruct (p a).
Qed.

Lemma joined_state_map (f : OdooRow → OdooRow) d c :
  (∀ r, o_job_id (f r) = o_job_id r) →
  (∀ r, p_state (o_progress (f r)) = p_state (o_progress r)) →
  joined_state (put_device_jobs (map f (device_jobs d)) d) c = joined_state d c.
Proof.
  intros Hid Hst. unfold joined_state. simpl. rewrite find_map_same.
  - destruct (List.find _ _) as [r|]; simpl; [|done]. by rewrite Hst.
  - intros r. unfold odoo_by_id. by rewrite Hid.
Qed.

Lemma final_owed r : final_state (o_progress r) = true → ack_owed_row r = (o_acked r =? 0).
Proof.
  intros Hf. unfold ack_owed_row. fold (final_state (o_progress r)). rewrite Hf. simpl.
  apply final_state_spec in Hf as [ -> | -> ]; simpl; by rewrite orb_false_r.
Qed.
Lemma indeterminate_owed r :
  p_state (o_progress r) = "indeterminate" → ack_owed_row r = (o_report r =? 1).
Proof. intros Hs. unfold ack_owed_row. by rewrite Hs. Qed.

(** An update of the job rows that settles those of one ack. *)
Lemma outstanding_rows ack acks (p : OdooRow → bool) (f : OdooRow → OdooRow) d :
  (∀ r, o_job_id (f r) = o_job_id r) →
  (∀ r, p_state (o_progress (f r)) = p_state (o_progress r)) →
  (∀ r, p r = true → ack_owed_row (f r) = false) →
  (∀ r, ack_job_id ack = o_job_id r →
     match ack with
     | AckIndeterminate _ _ => p_state (o_progress r) = "indeterminate"
     | AckAuthorized _ _ => False
     | _ => final_state (o_progress r) = true
     end → p r = true) →
  (∀ j v, ack ≠ AckAuthorized j v) →
  outstanding d (ack :: acks) →
  outstanding (fst (update_table ODOO_TABLE p f d)) acks.
Proof.
  intros Hid Hst Hset Hhit Hna [Ho Hc]. split.
  - simpl. intros r' Hr'. apply in_map_iff in Hr' as [r [<- Hin]]. destruct (p r) eqn:Hp.
    + intros Hr. by rewrite Hset in Hr.
    + intros Hr. destruct (Ho r Hin Hr) as (a & [<-|Ha] & Hi & Hk); [|by eauto].
      by rewrite (Hhit r Hi Hk) in Hp.
  - simpl. intros c Hin Hcd. assert (owed_card_auth d c = true) as Hd.
    { rewrite <- Hcd. unfold owed_card_auth. f_equal. f_equal.
      rewrite (joined_state_map (λ r, if p r then f r else r)); [done|..];
        intros r; destruct (p r); auto. }
    destruct (Hc c Hin Hd) as [v [Heq|Hv]]; [by destruct (Hna _ _ Heq)|by eauto].
Qed.

Lemma outstanding_step ts ack acks note d :
  outstanding d (ack :: acks) → outstanding (accept_tables ts ack note d) acks.
Proof.
  intros Hout. destruct ack as [j v|j code text|j reason|j|j v]; cbn [accept_tables].
  1,2,4: refine (outstanding_rows _ acks _ _ d _ _ _ _ _ Hout); try done;
    [intros r Hr; rewrite final_owed; [done|]; by apply row_in_states in Hr
    |simpl; intros r -> Hf; unfold row_in; simpl; rewrite Z.eqb_refl; exact Hf].
  - refine (outstanding_rows _ acks _ _ d _ _ _ _ _ Hout); try done.
    + intros r Hr. rewrite indeterminate_owed; [done|]. apply row_in_states in Hr.
      state_in Hr. done.
    + simpl. intros r -> Hs. unfold row_in. simpl. by rewrite Z.eqb_refl, Hs.
  - destruct Hout as [Ho Hc]. split.
    + simpl. intros r Hin Hr. destruct (Ho r Hin Hr) as (a & [<-|Ha] & Hi & Hk); [done|eauto].
    + simpl. intros c' Hc'. apply in_map_iff in Hc' as [c [<- Hin]]. destruct (card_by_job j c && _) eqn:Hp.
      * unfold owed_card_auth. simpl. by destruct (starts_with _ _).
      * intros Hcd. destruct (Hc c Hin Hcd) as [v' [Heq|Hv]]; [|eauto].
        injection Heq as Hj _. unfold owed_card_auth in Hcd. unfold card_by_job in Hp.
        apply andb_true_iff in Hcd as [[Hcd _]%andb_true_iff _]. rewrite Hcd in Hp.
        by rewrite <- Hj, Z.eqb_refl in Hp.
Qed.

(** Odoo accepted the ack, or refused it for good. *)
Definition settled {A} (reply : result RpcError A) : Prop :=
  match reply with Ok _ => True | Err e => is_retryable e = false end.

Lemma flush_ack_settled ack reply c :
  quiet (journal c) → settled reply →
  ∃ ts note c', flush_ack ack reply None c = (Ok None, c') ∧ quiet (journal c')
    ∧ conn (journal c') = accept_tables ts ack note (conn (journal c)).
Proof.
  intros Hq Hs. unfold flush_ack, flush_one. destruct reply as [r|e].
  - destruct (mark_accepted_quiet ack (accepted_note r) c Hq) as (ts & c' & E & Hq' & Hc).
    exists ts, (accepted_note r), c'. unfold mbind, M_bind. by rewrite E.
  - simpl in Hs. rewrite Hs. simpl.
    destruct (mark_accepted_quiet ack (refused_note e) c Hq) as (ts & c' & E & Hq' & Hc).
    exists ts, (refused_note e), c'. unfold mbind, M_bind. by rewrite E.
Qed.

Lemma flush_ack_loop_settled odoo acks c :
  quiet (journal c) → (∀ a, settled (odoo a)) → outstanding (conn (journal c)) acks →
  ∃ c', flush_ack_loop odoo acks None c = (Ok tt, c') ∧ quiet (journal c')
    ∧ outstanding (conn (journal c')) [].
Proof.
  intros Hq Hodoo. revert c Hq. induction acks as [|ack acks IH]; intros c Hq Hout; [by exists c|].
  destruct (flush_ack_settled ack (odoo ack) c Hq (Hodoo ack)) as (ts & note & c1 & E & Hq1 & Hc1).
  cbn [flush_ack_loop]. unfold mbind, M_bind. rewrite E. apply IH; [done|].
  rewrite Hc1. by apply outstanding_step.
Qed.

Lemma owed_acks_outstanding s acks s' :
  owed_acks s = (Ok acks, s') → outstanding (conn s) acks.
Proof.
  intros (_ & entries & Hm & ->)%owed_acks_ok. split.
  - intros r Hin Hr. assert (In r (order_by_id o_job_id (List.filter ack_owed_row (device_jobs (conn s)))))
      as Hp by (by apply in_sorted_page).
    destruct (mapM_total _ _ _ _ Hm Hp) as [e He].
    destruct (proj2 (owed_ack_row r e He) Hr) as [a Ha].
    exists a. split; [|split].
    + apply in_or_app. right. apply in_omap. exists e. split; [|done].
      apply (mapM_in _ _ _ Hm). eauto.
    + rewrite (owed_ack_id _ _ Ha). by destruct (row_to_entry_reads _ _ He).
    + destruct (row_to_entry_reads _ _ He) as [_ _ Hst _ _ _ _ _].
      unfold final_state. rewrite Hst. unfold owed_ack in Ha.
      destruct (je_state e); repeat case_match; by simplify_eq/=.
  - intros c Hin Hc. eexists. apply in_or_app. left. apply in_map_iff. exists c. split; [done|].
    by apply in_sorted_page.
Qed.

Lemma outstanding_none s :
  quiet s → outstanding (conn s) [] → fst (owed_acks s) = Ok [].
Proof.
  intros Hq [Ho Hc]. unfold owed_acks, owed_card_auth_acks, query_mapped, mbind, M_bind.
  rewrite engine_quiet by done. rewrite query_quiet by done. rewrite engine_quiet by done.
  rewrite query_quiet by done.
  assert (List.filter ack_owed_row (device_jobs (conn s)) = []) as ->.
  { apply filter_empty_existsb, not_true_is_false. intros [r [Hin Hr]]%existsb_exists.
    by destruct (Ho r Hin Hr) as (a & [] & _). }
  assert (List.filter (owed_card_auth (conn s)) (card_payments (conn s)) = []) as ->.
  { apply filter_empty_existsb, not_true_is_false. intros [c [Hin Hr]]%existsb_exists.
    by destruct (Hc c Hin Hr) as (v & []). }
  done.
Qed.
End round.

(** ** Pruning and card contacts *)

Section rows.
Context `{Chrono} `{JsonText}.

Lemma prune_ok s n s' :
  prune s = (Ok n, s') →
  let cutoff := to_rfc3339 (days_ago (clock s (ticks s)) PRUNE_AFTER_DAYS) in
  device_jobs (conn s') = List.filter (λ r, negb (prunable_odoo cutoff r)) (device_jobs (conn s))
  ∧ lan_jobs (conn s') = List.filter (λ r, negb (prunable_lan cutoff r)) (lan_jobs (conn s))
  ∧ card_payments (conn s')
    = List.filter (λ c, existsb (odoo_by_id (c_job_id c)) (device_jobs (conn s')))
        (card_payments (conn s))
  ∧ n = Z.of_nat (count (prunable_odoo cutoff) (device_jobs (conn s))
                  + count (prunable_lan cutoff) (lan_jobs (conn s))).
Proof.
  unfold prune, prune_card_payments, prune_card_balances. intros Hp. ok_step Hp.
  rewrite utc_now_run in E. injection E as <- <-. ok_step Hp. ok_step Hp. ok_step Hp. ok_step Hp.
  ok_step E2. rewrite utc_now_run in E3. injection E3 as <- <-.
  apply execute_ok in E, E0, E1, E2. simpl in *. injection Hp as <- <-.
  injection E as Es0 <-. injection E0 as Es1 <-. injection E1 as Es2 <-. injection E2 as <- <-.
  rewrite <- Es2. simpl. rewrite <- Es1. simpl. rewrite <- Es0. simpl. split; [done|].
  split; [done|]. split; [|unfold count; lia].
  apply List.filter_ext. intros c. by rewrite negb_involutive.
Qed.

Lemma card_contact_of_ok j ip amount baseline tx target s b s' :
  card_contact_of j ip amount baseline tx target s = (Ok b, s') →
  let ts := to_rfc3339 (clock s (ticks s)) in
  if b then
    count (λ r, odoo_by_id j r && is_none (p_contact_at (o_progress r))
                && (p_state (o_progress r) =t? "executing")) (device_jobs (conn s)) = 1%nat
    ∧ existsb (card_by_job j) (card_payments (conn s)) = false
    ∧ device_jobs (conn s') =
      map (λ r, if odoo_by_id j r && is_none (p_contact_at (o_progress r))
                   && (p_state (o_progress r) =t? "executing")
                then on_progress ODOO_TABLE (set_contact ts) r else r) (device_jobs (conn s))
    ∧ ∃ c, card_payments (conn s') = card_payments (conn s) ++ [c] ∧ c_job_id c = j
           ∧ c_terminal_ip c = ip ∧ c_amount_minor c = amount
  else conn s' = conn s.
Proof.
  unfold card_contact_of. intros Hr. ok_step Hr. rewrite utc_now_run in E. injection E as <- <-.
  apply transaction_ok in Hr as (s0 & Ec & _ & _ & [Hb|(s1 & Hb & Hs1)]); simpl in Ec.
  - ok_step Hb. apply execute_ok in E. destruct (Z.eqb_spec a 1) as [->|]; [|done]. simpl in Hb.
    ok_step Hb. ok_step Hb. injection Hb as <- <-. apply engine_ok in E1 as (E1 & _).
    apply execute_checked_ok in E0. simpl in E. injection E as Es Hn. rewrite <- Es in E0.
    simpl in E0. destruct (existsb _ _) eqn:Ex; [done|]. injection E0 as Es1 _.
    rewrite E1, <- Es1. simpl. rewrite Ec in *. split; [unfold count; lia|]. split; [done|].
    split; [done|]. eexists. done.
  - ok_step Hb. destruct (negb (a =? 1)); [by injection Hb as <- _|].
    ok_step Hb. by ok_step Hb.
Qed.
Lemma card_contact_of_err j ip amount baseline tx target s e s' :
  card_contact_of j ip amount baseline tx target s = (Err e, s') → conn s' = conn s.
Proof.
  unfold card_contact_of, mbind at 1, M_bind at 1. rewrite utc_now_run. intros Hr.
  by apply transaction_err in Hr.
Qed.
End rows.

(** ** Accepting a job while the engine works *)

Section accepting.
Context `{Chrono} `{JsonText}.

Lemma query_mapped_quiet {A} ctx (q : JTables → option A) s :
  quiet s → snd (query_mapped ctx q s) = s.
Proof.
  intros Hq. unfold query_mapped, mbind, M_bind. rewrite query_quiet by done.
  by destruct (q (conn s)).
Qed.
Lemma get_quiet j s : quiet s → snd (get j s) = s.
Proof.
  intros Hq. unfold get. destruct (is_lan_job j); [|by apply query_mapped_quiet].
  unfold mbind, M_bind, lan_job_by_id.
  match goal with |- context [query_mapped ?c ?q s] =>
    pose proof (query_mapped_quiet c q s Hq) as E; destruct (query_mapped c q s) as [[o|e] s1] end;
    exact E.
Qed.

Lemma start_execution_quiet j s :
  quiet s → let ts := to_rfc3339 (clock s (ticks s)) in
  ∃ s', start_execution j s = (Ok (waiting j (conn s) =? 1)%nat, s') ∧ quiet s'
    ∧ conn s' = fst (update_table (fst (locate j))
        (row_in (fst (locate j)) (snd (locate j)) ["received"])
        (on_progress (fst (locate j)) (λ p,
           set_outcome "executing" (p_result p) (p_error_code p) (p_error_text p) ts p)) (conn s)).
Proof.
  intros Hq ts. unfold start_execution. rewrite (surjective_pairing (locate j)).
  unfold now_text, update_row, mbind, M_bind. rewrite utc_now_run. simpl.
  rewrite execute_quiet by done. simpl.
  assert ((Z.of_nat (List.length (List.filter (row_in (fst (locate j)) (snd (locate j)) ["received"])
    (t_rows (fst (locate j)) (conn s)))) =? 1) = (waiting j (conn s) =? 1)%nat) as ->.
  { unfold waiting, count, job_rows.
    match goal with |- context [List.length ?l] => destruct (Nat.eqb_spec (List.length l) 1) as [->|] end;
      [done|]. apply Z.eqb_neq. lia. }
  eexists. split; [reflexivity|]. split; [done|reflexivity].
Qed.

(** The row [insert] writes. *)
Definition inserted_row (job : DeviceJob) (refused : option (string * string)) (ts : string)
    : OdooRow :=
  job_to_row job match refused with
                 | Some (code, text) => new_progress "failed" (Some code) (Some text) ts
                 | None => new_progress "received" None None ts
                 end.

Lemma insert_quiet job refused s :
  quiet s → existsb (odoo_by_id (dj_id job)) (device_jobs (conn s)) = false →
  ∃ s' ts, insert job refused s = (Ok New, s') ∧ quiet s'
    ∧ conn s' = put_device_jobs (device_jobs (conn s) ++ [inserted_row job refused ts]) (conn s).
Proof.
  intros Hq Hnew. eexists _, (to_rfc3339 (clock s (ticks s))).
  unfold insert, now_text, mbind, M_bind. rewrite utc_now_run. simpl.
  rewrite execute_quiet by done. unfold insert_job_row. simpl. rewrite Hnew. simpl.
  split; [reflexivity|]. by split.
Qed.

(** What [record_outcome] writes to an open row of the job. *)
Definition outcome_row (t : Table) (outcome : Outcome) (ts : string) (r : t_row t) : t_row t :=
  match outcome with
  | Done res => t_owe_outcome t
      (on_progress t (set_outcome "done" (Some (json_to_string res)) None None ts) r)
  | OFailed code text => t_owe_outcome t
      (on_progress t (set_outcome "failed" None (Some code) (Some text) ts) r)
  | Indeterminate reason => t_owe_unknown t
      (on_progress t (λ p,
         set_outcome "indeterminate" (p_result p) (p_error_code p) (Some reason) ts p) r)
  end.

Lemma record_outcome_run j outcome s :
  record_outcome j outcome s =
  update_row ("journal: record " +:+ outcome_label outcome +:+ " for job " +:+ z_to_string j)
    (fst (locate j)) (snd (locate j)) OPEN_JOB_STATES
    (outcome_row (fst (locate j)) outcome (to_rfc3339 (clock s (ticks s))))
    {| conn := conn s; faults := faults s; clock := clock s; ticks := S (ticks s) |}.
Proof.
  unfold record_outcome. rewrite (surjective_pairing (locate j)).
  unfold now_text, mbind at 1, M_bind at 1, mbind at 1, M_bind at 1. rewrite utc_now_run. simpl.
  by destruct outcome.
Qed.

Lemma record_outcome_quiet j outcome s :
  quiet s → let ts := to_rfc3339 (clock s (ticks s)) in
  ∃ b s', record_outcome j outcome s = (Ok b, s') ∧ quiet s'
    ∧ conn s' = fst (update_table (fst (locate j))
        (row_in (fst (locate j)) (snd (locate j)) OPEN_JOB_STATES)
        (outcome_row (fst (locate j)) outcome ts) (conn s)).
Proof.
  intros Hq ts. rewrite record_outcome_run.
  set (s1 := mkDb _ _ _ _). assert (quiet s1) as Hq1 by done.
  match goal with |- context [update_row ?ctx ?t ?row ?states ?f s1] =>
    destruct (update_row_quiet ctx t row states f s1 Hq1) as [b ->] end.
  eexists _, _. by split.
Qed.

Lemma record_outcome_ok j outcome s b s' :
  record_outcome j outcome s = (Ok b, s') →
  let ts := to_rfc3339 (clock s (ticks s)) in
  let t := fst (locate j) in
  let mine := row_in t (snd (locate j)) OPEN_JOB_STATES in
  conn s' = fst (update_table t mine (outcome_row t outcome ts) (conn s))
  ∧ b = (Z.of_nat (count mine (t_rows t (conn s))) =? 1).
Proof.
  rewrite record_outcome_run. cbv zeta. unfold update_row. intros Hr. ok_step Hr.
  apply execute_ok in E. simpl in E. injection Hr as <- <-.
  unfold update_table in *. simpl in *. injection E as <- <-. done.
Qed.

Lemma update_only_last {A} (p : A → bool) (f : A → A) l a :
  existsb p l = false → p a = true → fst (sql_update p f (l ++ [a])) = l ++ [f a].
Proof.
  intros Hl Ha. simpl. rewrite map_app. simpl. rewrite Ha. f_equal.
  assert (List.filter p l = []) as Hf by (by apply filter_empty_existsb).
  exact (sql_update_none p f l Hf).
Qed.

Lemma row_in_subset t row states l :
  existsb (λ r, t_id t r =? row) l = false → existsb (row_in t row states) l = false.
Proof.
  intros Hl. apply not_true_is_false. intros [r [Hin Hr]]%existsb_exists.
  apply not_true_iff_false in Hl. apply Hl. apply existsb_exists. exists r. split; [done|].
  by apply andb_true_iff in Hr as [Hr _].
Qed.
End accepting.

(** ** Rows that pruning takes *)

Lemma not_refused_spec note :
  not_refused note = true ↔ ∀ n, note = Some n → like_prefix "refused:" n = false.
Proof.
  destruct note as [n|]; simpl; [|by split; intros].
  rewrite negb_true_iff. split; [by intros ? n' [= <-]|auto].
Qed.

Lemma count_negb {A} (p : A → bool) l :
  (count p l + List.length (List.filter (λ a, negb (p a)) l) = List.length l)%nat.
Proof. unfold count. induction l as [|a l IH]; simpl; [done|]. destruct (p a); simpl; lia. Qed.

(** A row of [d] is in [d'], or it was settled and not refused. *)
Definition only_settled_leave (d d' : JTables) : Prop :=
  (∀ r, In r (device_jobs d) →
     In r (device_jobs d') ∨ (o_acked r = 1 ∧ not_refused (o_ack_note r) = true))
  ∧ (∀ r, In r (lan_jobs d) →
     In r (lan_jobs d') ∨ (l_reported r = 1 ∧ not_refused (l_report_note r) = true)).
#[export] Instance only_settled_leave_preorder : PreOrder only_settled_leave.
Proof.
  split; [by split; auto|]. intros a b c [Ao Al] [Bo Bl]. split; intros r Hr.
  - destruct (Ao r Hr); auto.
  - destruct (Al r Hr); auto.
Qed.

Section pruning.
Context `{Chrono} `{JsonText}.

Lemma prune_only_settled s : only_settled_leave (conn s) (conn (snd (prune s))).
Proof.
  assert (respects (on_conn only_settled_leave) prune) as Hp; [|exact (Hp s)].
  unfold prune, prune_card_payments, prune_card_balances. solve_respects;
    (apply respects_execute; [apply _|]); intros d; (split; intros r Hr; simpl; [..]); auto.
  - destruct (prunable_odoo (to_rfc3339 (days_ago a PRUNE_AFTER_DAYS)) r) eqn:E.
    + right. unfold prunable_odoo in E. rewrite !andb_true_iff, Z.eqb_eq in E. tauto.
    + left. apply filter_In. by rewrite E.
  - destruct (prunable_lan (to_rfc3339 (days_ago a PRUNE_AFTER_DAYS)) r) eqn:E.
    + right. unfold prunable_lan in E. rewrite !andb_true_iff, Z.eqb_eq in E. tauto.
    + left. apply filter_In. by rewrite E.
Qed.

Lemma after_restart_final ts t r : final_state (t_progress t r) = true → after_restart ts t r = r.
Proof.
  unfold after_restart, in_flight. intros Hf%final_state_spec.
  destruct (text_in _ _) eqn:E; [|done]. apply text_in_spec in E. simpl in E.
  intuition congruence.
Qed.
End pruning.
