(* ===== verification/TestExecutor.v ===== *)
(** * The test executor

    [src/crates/devbridge-client/src/device_jobs/test_executor.rs]: the device
    that stands in for a fiscal printer or a terminal, with its own durable log
    of what it ran, and the executor that drives it by the script of a job.  A
    crash of the process is an execution without an outcome. *)

From Stdlib Require Import ZArith String.
From S2P Require Import Prelude RustStd Core Sqlite Json DeviceApi JournalData.
#[local] Open Scope Z_scope.

Definition SCRIPT_KEY : string := "devbridge_test".
Definition CRASH_EXIT_CODE : Z := 75.
Definition TEST_STATUS : string := "test".

(** A row of [test_device_runs]. *)
Record TestRun := mkTestRun { tr_job_id : Z; tr_job_type : string; tr_executions : Z; tr_last_run : string }.
Definition TestRuns : Type := list TestRun.
Definition of_job (job_id : Z) (r : TestRun) : bool := tr_job_id r =? job_id.
Definition executions_of (job_id : Z) (t : TestRuns) : option Z := tr_executions <$> List.find (of_job job_id) t.

(** ** The script of a payload *)

Inductive Script := SDone (delay_ms : Z) | SFailedScript | SIndeterminate | SCrash.
Definition script_outcome (script : Value) : string :=
  default "" (get_field "outcome" script ≫= as_str).
Definition script_of (payload : Value) : result string Script :=
  match get_field SCRIPT_KEY payload with
  | None => Err ("the test executor runs only jobs with a '" +:+ SCRIPT_KEY
                   +:+ "' script - no device was contacted, nothing ran")
  | Some script =>
    let outcome := script_outcome script in
    if outcome =t? "done" then Ok (SDone (default 0 (get_field "delay_ms" script ≫= as_u64_value)))
    else if outcome =t? "failed" then Ok SFailedScript
    else if outcome =t? "indeterminate" then Ok SIndeterminate
    else if outcome =t? "crash" then Ok SCrash
    else Err ("unknown " +:+ SCRIPT_KEY +:+ " outcome '" +:+ outcome +:+ "' - nothing ran")
  end.
(** Whether the device runs a job of this payload. *)
Definition script_runs (payload : Value) : bool :=
  match script_of payload with Ok (SDone _ | SIndeterminate | SCrash) => true | _ => false end.

Definition run_result (job_id executions : Z) (via : string) : Value :=
  VObject [("device", VString "test"); ("executions", VNumber (NInt executions));
           ("job_id", VNumber (NInt job_id)); ("via", VString via)].

Section device.
Context `{Chrono}.
Definition TestDevice : Type := Db TestRuns.
Definition TestM (A : Type) : Type := SqlM TestRuns A.

Definition ran_again (now : string) (r : TestRun) : TestRun :=
  mkTestRun (tr_job_id r) (tr_job_type r) (tr_executions r + 1) now.
Definition upsert_run (job_id : Z) (job_type now : string) (t : TestRuns) : TestRuns * Z :=
  if existsb (of_job job_id) t then sql_update (of_job job_id) (ran_again now) t
  else (t ++ [mkTestRun job_id job_type 1 now], 1).
Definition READ_RUNS : string := "test device: read run count".
Definition record_run (job_id : Z) (job_type : string) : TestM Z :=
  now ← utc_now;
  _ ← execute ("test device: record run of job " +:+ z_to_string job_id)
        (upsert_run job_id job_type (to_rfc3339 now));
  n ← query READ_RUNS (executions_of job_id);
  match n with Some n => mret n | None => throw READ_RUNS end.
Definition runs (job_id : Z) : TestM Z :=
  n ← query READ_RUNS (executions_of job_id); mret (default 0 n).

(** ** The executor *)

Definition record (job : DeviceJob) : TestM Z :=
  map_err (λ e, "test device log: " +:+ e) (record_run (dj_id job) (dj_job_type job)).
(** An error of the log is the outcome. *)
Definition or_indeterminate {A} (f : A → option Outcome) (r : result string A) : option Outcome :=
  match r with Ok a => f a | Err e => Some (Indeterminate e) end.
Definition execute_test (job : DeviceJob) : M TestDevice string (option Outcome) :=
  match script_of (dj_payload job) with
  | Err text => mret (Some (OFailed "test_executor" text))
  | Ok SFailedScript => mret (Some (OFailed "declined" "test device declined the job - nothing ran"))
  | Ok (SDone _) =>
    n ← attempt (record job);
    mret (or_indeterminate (λ n, Some (Done (run_result (dj_id job) n "execute"))) n)
  | Ok SIndeterminate =>
    n ← attempt (record job);
    mret (or_indeterminate (λ _, Some (Indeterminate "test device: no answer after the job was sent")) n)
  | Ok SCrash => n ← attempt (record job); mret (or_indeterminate (λ _, None) n)
  end.
Definition reconcile_test (entry : JournalEntry) : M TestDevice string Reconciliation :=
  let id := dj_id (je_job entry) in
  n ← attempt (runs id);
  mret (match n with
        | Ok 0 => RFailed "not_executed" "test device has no record of this job - nothing ran"
        | Ok n => RDone (run_result id n "reconcile")
        | Err e => StillUnknown ("test device log: " +:+ e)
        end).

(** ** The log counts every run *)

Lemma upsert_counts job_id job_type now t k :
  executions_of k (fst (upsert_run job_id job_type now t))
  = if k =? job_id then Some (default 0 (executions_of job_id t) + 1) else executions_of k t.
Proof.
  unfold upsert_run, executions_of. induction t as [|r t IH].
  { simpl. unfold of_job. simpl. rewrite (Z.eqb_sym job_id k). by destruct (k =? job_id). }
  simpl. unfold of_job in *. destruct (Z.eqb_spec (tr_job_id r) job_id) as [E|E]; simpl.
  - unfold sql_update. simpl. rewrite E, Z.eqb_refl. simpl. rewrite E, (Z.eqb_sym job_id k).
    destruct (Z.eqb_spec k job_id) as [Hk|Hk]; [done|]. clear IH. induction t as [|r' t IH]; [done|]. simpl.
    destruct (Z.eqb_spec (tr_job_id r') job_id) as [E'|E']; simpl; destruct (tr_job_id r' =? k) eqn:Ek; try done.
    lia.
  - pose proof (proj2 (Z.eqb_neq _ _) E) as En.
    destruct (existsb _ t); unfold sql_update in *; cbn [fst map List.find fmap option_fmap option_map app] in *; rewrite ?En;
      (destruct (Z.eqb_spec (tr_job_id r) k) as [Ek|]; [|exact IH]); by rewrite <- Ek, En.
Qed.

Definition counted (job_id : Z) (ran : bool) (t t' : TestRuns) : Prop :=
  ∀ k, default 0 (executions_of k t')
       = default 0 (executions_of k t) + (if ran && (k =? job_id) then 1 else 0).

(** While the log works: a run is recorded exactly when the script runs the
    device; a refusal or a failure ran nothing. *)
Lemma execute_counts job d : quiet d →
  ∃ o d', execute_test job d = (Ok o, d') ∧ quiet d'
    ∧ counted (dj_id job) (script_runs (dj_payload job)) (conn d) (conn d')
    ∧ (∀ code text, o = Some (OFailed code text) → script_runs (dj_payload job) = false).
Proof.
  intros Hq.
  assert (∃ n d', record job d = (Ok n, d') ∧ quiet d' ∧ counted (dj_id job) true (conn d) (conn d')) as (n & d' & E & Hq' & Hc).
  { unfold record, map_err, record_run, mbind, M_bind. unfold utc_now at 1. cbn [fst snd].
    set (d1 := {| conn := conn d; faults := faults d; clock := clock d; ticks := S (ticks d) |}).
    assert (quiet d1) as Hq1 by done. rewrite execute_quiet by done.
    rewrite query_quiet by done. cbn [conn with_conn fst snd]. rewrite upsert_counts, Z.eqb_refl.
    eexists _, _. split; [done|]. split; [done|]. intros k. cbn [conn with_conn]. rewrite upsert_counts.
    destruct (Z.eqb_spec k (dj_id job)) as [->|]; simpl; lia. }
  assert (∀ t, counted (dj_id job) false t t) as Hn by (intros t k; simpl; lia).
  unfold execute_test, script_runs. destruct (script_of (dj_payload job)) as [[]|e].
  all: unfold attempt, mbind, M_bind; rewrite ?E; eexists _, _; split; [reflexivity|]; split_and!; try done; by intros ? ? [=].
Qed.

(** What a reconcile says is what the log holds. *)
Lemma test_reconcile_reads entry d : quiet d →
  ∃ r d', reconcile_test entry d = (Ok r, d') ∧ conn d' = conn d
    ∧ (∀ code text, r = RFailed code text → default 0 (executions_of (dj_id (je_job entry)) (conn d)) = 0)
    ∧ ((∃ v, r = RDone v) → default 0 (executions_of (dj_id (je_job entry)) (conn d)) ≠ 0).
Proof.
  intros Hq. unfold reconcile_test, attempt, runs, mbind, M_bind. rewrite query_quiet by done. cbn [mret M_ret].
  destruct (default 0 (executions_of _ (conn d))) eqn:En; eexists _, _;
    (split; [reflexivity|]); (split; [done|]); split; naive_solver.
Qed.
End device.
