(* ===== verification/Floats.v ===== *)
(** * [f64]

    Rust's [f64] is IEEE 754 binary64: the Standard Library's [spec_float] at
    precision 53 and exponent bound 1024, whose operations round to nearest
    even.  On it: the conversions the sources use, decimal parsing (correctly
    rounded), [Display] (the shortest decimal that reads back, the nearest of
    those) and [{:.1}] (the exact value rounded half to even). *)

From Stdlib Require Import ZArith Ascii String Floats.SpecFloat.
From S2P Require Import Prelude RustStd Text Json.
#[local] Open Scope Z_scope.

Definition f64 : Type := spec_float.

Definition f64_zero : f64 := S754_zero false.
Definition f64_add : f64 → f64 → f64 := SFadd 53 1024.
Definition f64_sub : f64 → f64 → f64 := SFsub 53 1024.
Definition f64_mul : f64 → f64 → f64 := SFmul 53 1024.
Definition f64_div : f64 → f64 → f64 := SFdiv 53 1024.
Definition f64_abs : f64 → f64 := SFabs.
Definition f64_ltb : f64 → f64 → bool := SFltb.
Definition f64_leb : f64 → f64 → bool := SFleb.
Definition f64_eqb : f64 → f64 → bool := SFeqb.
Definition is_finite (x : f64) : bool :=
  match x with S754_finite _ _ _ | S754_zero _ => true | _ => false end.

(** [m * 2^e], rounded: [f64::from(n)] and [n as f64] at [e = 0]. *)
Definition f64_of (m e : Z) : f64 := binary_normalize 53 1024 m e false.
Definition f64_of_Z (n : Z) : f64 := f64_of n 0.
(** [Value::as_f64] *)
Definition as_f64 (v : Value) : option f64 :=
  match v with
  | VNumber (NInt z) => Some (f64_of_Z z)
  | VNumber (NFloat m e) => Some (f64_of m e)
  | _ => None
  end.

(** [± n * 10^e], rounded once. *)
Definition f64_of_decimal (neg : bool) (n e : Z) : f64 :=
  match n with
  | Z0 => S754_zero neg
  | _ =>
    if 0 <=? e then binary_round_aux 53 1024 neg (n * 10 ^ e) 0 loc_Exact
    else let '(q, ez, l) := SFdiv_core_binary 53 1024 n 0 (10 ^ (- e)) 0 in
         binary_round_aux 53 1024 neg q ez l
  end.

(** ** [str::parse::<f64>] *)

(** The leading digits: their value, how many, and what follows. *)
Fixpoint take_digits (acc n : Z) (cs : list Z) : Z * Z * list Z :=
  match cs with
  | c :: cs' => if is_ascii_digit c then take_digits (acc * 10 + (c - 48)) (n + 1) cs'
                else (acc, n, cs)
  | [] => (acc, n, [])
  end.
Definition parse_exponent (cs : list Z) : option Z :=
  match cs with
  | [] => Some 0
  | c :: r =>
    if (c =? 101) || (c =? 69) then
      let '(neg, ds) := match r with
                        | s :: r' => if s =? 45 then (true, r') else if s =? 43 then (false, r')
                                     else (false, r)
                        | [] => (false, [])
                        end in
      match parse_digits ds with
      | Some n => Some (if neg : bool then - n else n)
      | None => None
      end
    else None
  end.
Definition parse_number (neg : bool) (cs : list Z) : option f64 :=
  let '(a, na, r) := take_digits 0 0 cs in
  let '(b, nb, r) := match r with
                     | c :: r' => if c =? 46 then take_digits a 0 r' else (a, 0, r)
                     | [] => (a, 0, [])
                     end in
  if na + nb =? 0 then None
  else match parse_exponent r with
       | Some e => Some (f64_of_decimal neg b (e - nb))
       | None => None
       end.
Definition chars_of (s : string) : list Z := chars s.
Definition parse_inf_nan (neg : bool) (cs : list Z) : option f64 :=
  let w := map to_ascii_lowercase cs in
  if bool_decide (w = chars_of "inf") || bool_decide (w = chars_of "infinity")
  then Some (S754_infinity neg)
  else if bool_decide (w = chars_of "nan") then Some S754_nan else None.
Definition parse_f64 (cs : list Z) : option f64 :=
  let '(neg, r) := match cs with
                   | c :: r => if c =? 45 then (true, r) else if c =? 43 then (false, r)
                               else (false, cs)
                   | [] => (false, [])
                   end in
  match parse_number neg r with Some x => Some x | None => parse_inf_nan neg r end.

(** ** Printing *)

(** The exact value [m * 2^e * 10^k] as a fraction. *)
Definition scaled (m e k : Z) : Z * Z :=
  let num := m * 2 ^ Z.max 0 e * 10 ^ Z.max 0 k in
  let den := 2 ^ Z.max 0 (- e) * 10 ^ Z.max 0 (- k) in
  (num, den).
(** The decimal exponent: the least [k] in reach with [m * 2^e < 10^k]; the search
    starts at an estimate from the binary one, at most four below. *)
Fixpoint decimal_exponent (fuel : nat) (m e k : Z) : Z :=
  match fuel with
  | O => k
  | S f => let '(num, den) := scaled m e (- k) in
           if num <? den then k else decimal_exponent f m e (k + 1)
  end.
(** The digits of the shortest decimal that reads back as [m * 2^e], and the
    power of ten they count. *)
Fixpoint shortest (fuel : nat) (m e k n : Z) : Z * Z :=
  let '(num, den) := scaled m e (n - k) in
  let lo := num / den in
  let reads d := f64_eqb (f64_of_decimal false d (k - n)) (S754_finite false (Z.to_pos m) e) in
  let nearer_hi := den <? 2 * (num - lo * den) in
  match fuel with
  | O => (lo, k - n)
  | S f =>
    if nearer_hi && reads (lo + 1) then (lo + 1, k - n)
    else if reads lo then (lo, k - n)
    else if reads (lo + 1) then (lo + 1, k - n)
    else shortest f m e k (n + 1)
  end.
Fixpoint zeros (n : nat) : string := match n with O => "" | S n' => "0" +:+ zeros n' end.
Fixpoint strip_zeros (fuel : nat) (d x : Z) : Z * Z :=
  match fuel with
  | O => (d, x)
  | S f => if (d mod 10 =? 0) && negb (d =? 0) then strip_zeros f (d / 10) (x + 1) else (d, x)
  end.
(** [d * 10^x] without an exponent. *)
Definition plain_decimal (d x : Z) : string :=
  if 0 <=? x then z_to_string d +:+ zeros (Z.to_nat x)
  else
    let ds := z_to_string d in
    let pad := zeros (Z.to_nat (1 - x - Z.of_nat (String.length ds))) in
    let all := pad +:+ ds in
    let cut := (String.length all - Z.to_nat (- x))%nat in
    String.substring 0 cut all +:+ "." +:+ String.substring cut (Z.to_nat (- x)) all.

(** [impl Display for f64] *)
Definition f64_to_string (x : f64) : string :=
  match x with
  | S754_nan => "NaN"
  | S754_infinity s => if s then "-inf" else "inf"
  | S754_zero s => if s then "-0" else "0"
  | S754_finite s m e =>
    let k := decimal_exponent 4 (Zpos m) e ((Z.log2 (Zpos m) + e) * 30103 / 100000 - 1) in
    let '(d, x) := shortest 17 (Zpos m) e k 1 in
    let '(d, x) := strip_zeros 20 d x in
    (if s then "-" else "") +:+ plain_decimal d x
  end.

(** [{:.1}] of a finite number. *)
Definition round_half_even (num den : Z) : Z :=
  let q := num / den in
  match Z.compare (2 * (num - q * den)) den with
  | Lt => q
  | Gt => q + 1
  | Eq => if Z.even q then q else q + 1
  end.
Definition fixed1 (x : f64) : string :=
  match x with
  | S754_finite s m e =>
    let '(num, den) := scaled (Zpos m) e 1 in
    let d := round_half_even num den in
    (if s then "-" else "") +:+ z_to_string (d / 10) +:+ "." +:+ z_to_string (d mod 10)
  | S754_zero s => (if s then "-" else "") +:+ "0.0"
  | S754_infinity s => if s then "-inf" else "inf"
  | S754_nan => "NaN"
  end.

(** ** [f64::round] (half away from zero) and [as u32] (saturating) *)

Definition round_half_away (num den : Z) : Z := (2 * num + den) / (2 * den).
Definition f64_round (x : f64) : f64 :=
  match x with
  | S754_finite s m e =>
    let '(num, den) := scaled (Zpos m) e 0 in
    match round_half_away num den with
    | Z0 => S754_zero s
    | n => f64_of (if s then - n else n) 0
    end
  | _ => x
  end.
(** The integer part. *)
Definition f64_trunc (x : f64) : Z :=
  match x with
  | S754_finite s m e =>
    let '(num, den) := scaled (Zpos m) e 0 in if s then - (num / den) else num / den
  | _ => 0
  end.
Definition saturate (lo hi : Z) (x : f64) : Z :=
  match x with
  | S754_infinity s => if s then lo else hi
  | S754_nan => 0
  | _ => Z.max lo (Z.min hi (f64_trunc x))
  end.
Definition f64_as_u32 : f64 → Z := saturate 0 (2 ^ 32 - 1).
Definition f64_as_i64 : f64 → Z := saturate (- 2 ^ 63) (2 ^ 63 - 1).
(** [x.max(0.0)] (a NaN gives the other operand). *)
Definition f64_max_zero (x : f64) : f64 :=
  match x with
  | S754_nan => f64_zero
  | _ => if f64_ltb x f64_zero then f64_zero else x
  end.
(** [f.fract() == 0.0] *)
Definition is_whole (x : f64) : bool :=
  match x with
  | S754_finite s m e => let '(num, den) := scaled (Zpos m) e 0 in num mod den =? 0
  | S754_zero _ => true
  | _ => false
  end.

(** A decimal literal of the sources. *)
Definition lit (n e : Z) : f64 := f64_of_decimal false n e.

Lemma f64_as_u32_range x : 0 ≤ f64_as_u32 x < 2 ^ 32.
Proof. unfold f64_as_u32, saturate. destruct x as [| [] | |]; lia. Qed.

Example print_72_7 : f64_to_string (lit 727 (-1)) = "72.7".
Proof. vm_compute. reflexivity. Qed.
Example print_110 : f64_to_string (lit 1100 (-1)) = "110".
Proof. vm_compute. reflexivity. Qed.
Example print_595_32 : (f64_to_string <$> parse_f64 (chars "595.320007")) = Some "595.320007".
Proof. vm_compute. reflexivity. Qed.
Example print_small : (f64_to_string <$> parse_f64 (chars "-1e-7")) = Some "-0.0000001".
Proof. vm_compute. reflexivity. Qed.
Example print_third : f64_to_string (f64_div (f64_of_Z 1) (f64_of_Z 3)) = "0.3333333333333333".
Proof. vm_compute. reflexivity. Qed.
Example fixed_half_even : (fixed1 (lit 25 (-2)), fixed1 (lit 35 (-2)), fixed1 (lit 1999 (-2)))
  = ("0.2", "0.3", "20.0").
Proof. vm_compute. reflexivity. Qed.
