(* ===== verification/Label.v ===== *)
(** * Odoo labels as TSPL bitmaps

    [src/crates/devbridge-client/src/odoo_source]: the encoder ([tspl.rs]) and
    the placement of a label on its roll ([layout.rs]).  A bitmap is one bit per
    dot, rows top to bottom, the most significant bit leftmost, 1 = white.  The
    base64 and PNG decoders are other crates: parameters.  An index outside a
    buffer is a panic in the code; [LabelTheory.dot_in_range] shows that the
    dots read and written lie inside. *)

From Stdlib Require Import ZArith Ascii String.
From S2P Require Import Prelude RustStd Text Floats.
#[local] Open Scope Z_scope.

(** ** [tspl.rs]: geometry and bitmaps *)

Record LabelGeometry := mkGeometry {
  width_mm : f64;
  height_mm : f64;
  dpi : Z;
  rotate_180 : bool;
  x_offset_dots : Z;
  y_offset_dots : Z;
}.

Definition mm_to_dots (mm : f64) (dpi : Z) : Z :=
  f64_as_u32 (f64_max_zero (f64_round (f64_div (f64_mul mm (f64_of_Z dpi)) (lit 254 (-1))))).
Definition max_dots (g : LabelGeometry) : Z * Z :=
  (mm_to_dots (width_mm g) (dpi g), mm_to_dots (height_mm g) (dpi g)).

Record MonoBitmap := mkBitmap {
  width : Z;
  height : Z;
  width_bytes : Z;
  data : bytes;
}.

Inductive LabelError :=
| LEmpty
| LBase64 (e : string)
| LPng (e : string)
| LSize (w h max_width max_height : Z).

Definition ack_text (e : LabelError) : string :=
  match e with
  | LEmpty => "empty png"
  | LSize _ _ _ _ => "size"
  | LBase64 e => "invalid png base64: " +:+ e
  | LPng e => "invalid png: " +:+ e
  end.
Definition label_error_to_string (e : LabelError) : string :=
  match e with
  | LSize w h mw mh =>
    "size: PNG " +:+ z_to_string w +:+ "x" +:+ z_to_string h +:+ " px exceeds the label "
      +:+ z_to_string mw +:+ "x" +:+ z_to_string mh +:+ " dots"
  | _ => ack_text e
  end.

(** ** [layout.rs] *)

Record Margins := mkMargins { m_left : Z; m_top : Z; m_right : Z; m_bottom : Z }.
Definition BARTENDER_SAFE_MARGINS : Margins := mkMargins 13 47 13 17.
Definition BARTENDER_CANVAS : Z * Z := (581, 880).

Record DotRect := mkRect { x0 : Z; y0 : Z; x1 : Z; y1 : Z }.
#[export] Instance DotRect_eq_dec : EqDecision DotRect.
Proof. solve_decision. Defined.
Definition rect_contains (a b : DotRect) : bool :=
  (x0 a <=? x0 b) && (y0 a <=? y0 b) && (x1 b <=? x1 a) && (y1 b <=? y1 a).
Definition rect_to_string (r : DotRect) : string :=
  "(" +:+ z_to_string (x0 r) +:+ "," +:+ z_to_string (y0 r) +:+ ")-(" +:+ z_to_string (x1 r)
    +:+ "," +:+ z_to_string (y1 r) +:+ ")".

(** [w.div_ceil(8)] *)
Definition div_ceil8 (w : Z) : Z := (w + 7) / 8.

Definition blank (w h : Z) : MonoBitmap :=
  {| width := w; height := h; width_bytes := div_ceil8 w;
     data := replicate (Z.to_nat (div_ceil8 w * h)) Byte.xff |}.

Definition byte_and_mask (b : MonoBitmap) (x y : Z) : nat * Z :=
  (Z.to_nat (y * width_bytes b + x / 8), Z.shiftr 128 (x mod 8)).
Definition is_black (b : MonoBitmap) (x y : Z) : bool :=
  let '(i, mask) := byte_and_mask b x y in
  Z.land (u8 (nth i (data b) Byte.xff)) mask =? 0.
Definition set_black (b : MonoBitmap) (x y : Z) : MonoBitmap :=
  let '(i, mask) := byte_and_mask b x y in
  {| width := width b; height := height b; width_bytes := width_bytes b;
     data := <[i := as_u8 (Z.land (u8 (nth i (data b) Byte.xff)) (Z.lxor 255 mask))]> (data b) |}.

(** [for y in y0..y1 { for x in x0..x1 { .. } }] *)
Definition dots (r : DotRect) : list (Z * Z) :=
  y ← seqZ (y0 r) (y1 r - y0 r); (λ x, (x, y)) <$> seqZ (x0 r) (x1 r - x0 r).
Definition whole_of (b : MonoBitmap) : DotRect := mkRect 0 0 (width b) (height b).

Definition rotated_180 (b : MonoBitmap) : MonoBitmap :=
  fold_left (λ out p,
      if is_black b (fst p) (snd p)
      then set_black out (width b - 1 - fst p) (height b - 1 - snd p) else out)
    (dots (whole_of b)) (blank (width b) (height b)).

Definition crop (b : MonoBitmap) (r : DotRect) : MonoBitmap :=
  fold_left (λ out p,
      if is_black b (fst p) (snd p) then set_black out (fst p - x0 r) (snd p - y0 r) else out)
    (dots r) (blank (x1 r - x0 r) (y1 r - y0 r)).

Definition bbox_add (bbox : option DotRect) (p : Z * Z) : option DotRect :=
  let '(x, y) := p in
  Some match bbox with
       | None => mkRect x y (x + 1) (y + 1)
       | Some r => mkRect (Z.min (x0 r) x) (Z.min (y0 r) y) (Z.max (x1 r) (x + 1)) (Z.max (y1 r) (y + 1))
       end.
Definition ink_bbox (b : MonoBitmap) : option DotRect :=
  fold_left (λ bbox p, if is_black b (fst p) (snd p) then bbox_add bbox p else bbox)
    (dots (whole_of b)) None.

Record LabelLayout := mkLayout {
  png : Z * Z;
  canvas : Z * Z;
  rotated : bool;
  bitmap_at : Z * Z;
  ink : option DotRect;
  ink_cropped : bool;
}.

Definition ink_margins (l : LabelLayout) : option Margins :=
  let '(w, h) := canvas l in
  (λ i, mkMargins (x0 i) (y0 i) (as_u32 (w - x1 i)) (as_u32 (h - y1 i))) <$> ink l.

Definition margin_warning (side : string) (got min : Z) : list string :=
  if got <? min then
    ["ink " +:+ z_to_string got +:+ " dots from the " +:+ side +:+ " edge, BarTender keeps >= "
       +:+ z_to_string min]
  else [].
Definition warnings (l : LabelLayout) : list string :=
  let cut := if ink_cropped l
             then ["ink cut off at the label edge by x_offset_dots / y_offset_dots"] else [] in
  if negb (bool_decide (canvas l = BARTENDER_CANVAS)) then cut
  else match ink_margins l with
       | Some m =>
         let safe := BARTENDER_SAFE_MARGINS in
         cut ++ margin_warning "left" (m_left m) (m_left safe)
             ++ margin_warning "top" (m_top m) (m_top safe)
             ++ margin_warning "right" (m_right m) (m_right safe)
             ++ margin_warning "bottom" (m_bottom m) (m_bottom safe)
       | None => cut
       end.

Definition layout_to_string (l : LabelLayout) : string :=
  let '(pw, ph) := png l in
  let '(x, y) := bitmap_at l in
  "png " +:+ z_to_string pw +:+ "x" +:+ z_to_string ph +:+ " -> BITMAP " +:+ z_to_string x +:+ ","
    +:+ z_to_string y +:+ (if rotated l then " rotated 180" else "")
    +:+ match ink l, ink_margins l with
        | Some i, Some m =>
          ", ink " +:+ rect_to_string i +:+ " as read, margins L" +:+ z_to_string (m_left m) +:+ " T"
            +:+ z_to_string (m_top m) +:+ " R" +:+ z_to_string (m_right m) +:+ " B"
            +:+ z_to_string (m_bottom m)
        | _, _ => ", no ink"
        end.

Record PlacedLabel := mkPlaced { bitmap : MonoBitmap; layout : LabelLayout }.

(** [v.clamp(0, max) as u32] *)
Definition clamp_dots (v max : Z) : Z := Z.max 0 (Z.min v max).

(** The corner of the PNG on the canvas as the label is read. *)
Definition reading_corner (canvas size offset : Z) (rotate : bool) : Z :=
  let centre := Z.quot (Z.max (canvas - size) 0) 2 in
  (if rotate then canvas - size - centre else centre) + offset.

Definition place_label (b : MonoBitmap) (g : LabelGeometry) : PlacedLabel :=
  let '(cw, ch) := max_dots g in
  let rx := reading_corner cw (width b) (x_offset_dots g) (rotate_180 g) in
  let ry := reading_corner ch (height b) (y_offset_dots g) (rotate_180 g) in
  let visible := mkRect (clamp_dots (- rx) (width b)) (clamp_dots (- ry) (height b))
                        (clamp_dots (cw - rx) (width b)) (clamp_dots (ch - ry) (height b)) in
  let whole := whole_of b in
  let shown := if bool_decide (visible = whole) then b else crop b visible in
  let cropped := negb (bool_decide (visible = whole))
                 && match ink_bbox b with
                    | Some i => negb (rect_contains visible i)
                    | None => false
                    end in
  let sx := clamp_dots rx cw in
  let sy := clamp_dots ry ch in
  {| bitmap := if rotate_180 g then rotated_180 shown else shown;
     layout :=
       {| png := (width b, height b); canvas := (cw, ch); rotated := rotate_180 g;
          bitmap_at := if rotate_180 g
                       then (as_u32 (cw - sx - width shown), as_u32 (ch - sy - height shown))
                       else (sx, sy);
          ink := (λ i, mkRect (x0 i + sx) (y0 i + sy) (x1 i + sx) (y1 i + sy)) <$> ink_bbox shown;
          ink_cropped := cropped |} |}.

(** ** [tspl.rs]: decoding *)

(** ITU-R BT.601 luma and the 50 % threshold over white. *)
Definition luminance (r g b : Z) : Z := (299 * r + 587 * g + 114 * b) / 1000.
Definition pixel_is_black (px : list Z) : bool :=
  match
    match px with
    | [g] => Some (g, 255)
    | [g; a] => Some (g, a)
    | [r; g; b] => Some (luminance r g b, 255)
    | [r; g; b; a] => Some (luminance r g b, a)
    | _ => None
    end
  with
  | Some (luma, alpha) => luma * alpha + 255 * (255 - alpha) <? 128 * 255
  | None => false
  end.

Inductive ColorType := Grayscale | GrayscaleAlpha | Rgb | Rgba | Indexed.
(** A decoded frame: what [next_frame] fills in and returns. *)
Record Frame := mkFrame {
  color_type : ColorType;
  eight_bit : bool;
  bit_depth_text : string;
  line_size : Z;
  buf : bytes;
}.
Definition channels (c : ColorType) : option Z :=
  match c with
  | Grayscale => Some 1 | GrayscaleAlpha => Some 2 | Rgb => Some 3 | Rgba => Some 4
  | Indexed => None
  end.
Definition slice (l : bytes) (from to : Z) : bytes :=
  take (Z.to_nat (to - from)) (drop (Z.to_nat from) l).

(** The base64 and png crates; the normalising transformations are the
    decoder's, its errors are their texts. *)
Class ImageCodecs : Type := {
  base64_decode : string → result string bytes;
  png_read_info : bytes → result string (Z * Z);
  png_next_frame : bytes → result string Frame;
}.

Section decode.
Context `{ImageCodecs}.

(** The pixel loop. *)
Definition threshold (w h line ch : Z) (pixels : bytes) : MonoBitmap :=
  fold_left (λ out p,
      let '(x, y) := p in
      let row := slice pixels (y * line) (y * line + w * ch) in
      if pixel_is_black (map u8 (slice row (x * ch) ((x + 1) * ch))) then set_black out x y else out)
    (dots (mkRect 0 0 w h)) (blank w h).

Definition decode_png (file : bytes) (max_size : Z * Z) : result LabelError MonoBitmap :=
  let '(max_width, max_height) := max_size in
  match png_read_info file with
  | Err e => Err (LPng e)
  | Ok (w, h) =>
    if (max_width <? w) || (max_height <? h) then Err (LSize w h max_width max_height)
    else
      match png_next_frame file with
      | Err e => Err (LPng e)
      | Ok frame =>
        match channels (color_type frame) with
        | None => Err (LPng "indexed PNG was not expanded to RGB")
        | Some ch =>
          if negb (eight_bit frame) then
            Err (LPng ("unexpected bit depth " +:+ bit_depth_text frame +:+ " after normalization"))
          else Ok (threshold w h (line_size frame) ch (buf frame))
        end
      end
  end.

Definition decode_label (png_base64 : string) (g : LabelGeometry) : result LabelError PlacedLabel :=
  let t := trimmed png_base64 in
  if t =t? "" then Err LEmpty
  else
    match base64_decode t with
    | Err e => Err (LBase64 e)
    | Ok file =>
      match decode_png file (max_dots g) with
      | Err e => Err e
      | Ok b => Ok (place_label b g)
      end
    end.
End decode.

(** ** [tspl.rs]: the document *)

Definition crlf : string := of_chars [13; 10].
Definition format_mm (mm : f64) : string := f64_to_string mm.

Definition document_header (g : LabelGeometry) : bytes :=
  as_bytes ("SIZE " +:+ format_mm (width_mm g) +:+ " mm, " +:+ format_mm (height_mm g) +:+ " mm"
    +:+ crlf +:+ "DIRECTION 0,0" +:+ crlf +:+ "REFERENCE 0,0" +:+ crlf +:+ "OFFSET 0 mm" +:+ crlf
    +:+ "SET TEAR ON" +:+ crlf).

Definition label_commands (b : MonoBitmap) (at_ : Z * Z) (copies : Z) : bytes :=
  as_bytes ("CLS" +:+ crlf)
  ++ (if (0 <? width b) && (0 <? height b) then
        as_bytes ("BITMAP " +:+ z_to_string (fst at_) +:+ "," +:+ z_to_string (snd at_) +:+ ","
                  +:+ z_to_string (width_bytes b) +:+ "," +:+ z_to_string (height b) +:+ ",0,")
        ++ data b ++ as_bytes crlf
      else [])
  ++ as_bytes ("PRINT 1," +:+ z_to_string copies +:+ crlf).

Definition build_document (g : LabelGeometry) (labels : list (PlacedLabel * Z)) : bytes :=
  document_header g
  ++ concat (map (λ lc, label_commands (bitmap (fst lc)) (bitmap_at (layout (fst lc))) (snd lc)) labels).
