(* ===== verification/IppCodec.v ===== *)
(** * The IPP codec

    [src/crates/devbridge-client/src/ipp_codec.rs]: the builders of the
    Print-Job and Get-Job-Attributes requests and the parser of a response
    (RFC 8010).  The parser's position in the buffer is the rest of the buffer
    after it. *)

From Stdlib Require Import ZArith Ascii String.
From S2P Require Import Prelude RustStd Text.
#[local] Open Scope Z_scope.

Definition IPP_VERSION_MAJOR : Z := 1.
Definition IPP_VERSION_MINOR : Z := 1.
Definition PRINT_JOB : Z := 2.
Definition GET_JOB_ATTRIBUTES : Z := 9.
Definition CLIENT_ERROR_NOT_FOUND : Z := 1030.

Definition OPERATION_ATTRIBUTES_TAG : Z := 1.
Definition JOB_ATTRIBUTES_TAG : Z := 2.
Definition END_OF_ATTRIBUTES_TAG : Z := 3.
Definition CHARSET_TAG : Z := 71.
Definition NATURAL_LANGUAGE_TAG : Z := 72.
Definition URI_TAG : Z := 69.
Definition MIME_MEDIA_TYPE_TAG : Z := 73.
Definition NAME_WITHOUT_LANGUAGE_TAG : Z := 66.
Definition INTEGER_TAG : Z := 33.

Record IppAttribute := mkAttribute {
  attr_name : string;
  attr_tag : Z;
  attr_value : bytes;
}.
(** [IppAttribute::as_str], [as_i32] *)
Definition as_str (a : IppAttribute) : option string := from_utf8 (attr_value a).
Definition as_i32 (a : IppAttribute) : option Z :=
  if (length (attr_value a) =? 4)%nat then Some (to_signed32 (from_be_bytes (attr_value a))) else None.

Record IppResponse := mkResponse {
  status_code : Z;
  request_id : Z;
  attributes : list IppAttribute;
}.
(** [IppResponse::get], [is_success] *)
Definition get (r : IppResponse) (name : string) : option IppAttribute :=
  List.find (λ a, attr_name a =t? name) (attributes r).
Definition is_success (r : IppResponse) : bool := status_code r <=? 255.

(** ** Encoding *)

Definition write_attribute (buf : bytes) (tag : Z) (name : string) (value : bytes) : bytes :=
  let name_bytes := as_bytes name in
  buf ++ [as_u8 tag]
      ++ to_be_bytes 2 (Z.of_nat (length name_bytes) mod 2 ^ 16) ++ name_bytes
      ++ to_be_bytes 2 (Z.of_nat (length value) mod 2 ^ 16) ++ value.
Definition write_integer_attribute (buf : bytes) (tag : Z) (name : string) (value : Z) : bytes :=
  write_attribute buf tag name (to_be_bytes 4 value).

Definition ipp_header (operation request_id : Z) : bytes :=
  [as_u8 IPP_VERSION_MAJOR; as_u8 IPP_VERSION_MINOR] ++ to_be_bytes 2 operation
    ++ to_be_bytes 4 request_id.

Definition build_print_job_request (printer_uri document_format job_name : string)
    (request_id copies : Z) : bytes :=
  let buf := ipp_header PRINT_JOB request_id ++ [as_u8 OPERATION_ATTRIBUTES_TAG] in
  let buf := write_attribute buf CHARSET_TAG "attributes-charset" (as_bytes "utf-8") in
  let buf := write_attribute buf NATURAL_LANGUAGE_TAG "attributes-natural-language"
               (as_bytes "en-us") in
  let buf := write_attribute buf URI_TAG "printer-uri" (as_bytes printer_uri) in
  let buf := write_attribute buf MIME_MEDIA_TYPE_TAG "document-format" (as_bytes document_format) in
  let buf := write_attribute buf NAME_WITHOUT_LANGUAGE_TAG "job-name" (as_bytes job_name) in
  let effective_copies := Z.max copies 1 in
  let buf := if 1 <? effective_copies
             then write_integer_attribute (buf ++ [as_u8 JOB_ATTRIBUTES_TAG]) INTEGER_TAG "copies"
                    effective_copies
             else buf in
  buf ++ [as_u8 END_OF_ATTRIBUTES_TAG].

Definition build_get_job_attributes_request (printer_uri : string) (job_id request_id : Z) : bytes :=
  let buf := ipp_header GET_JOB_ATTRIBUTES request_id ++ [as_u8 OPERATION_ATTRIBUTES_TAG] in
  let buf := write_attribute buf CHARSET_TAG "attributes-charset" (as_bytes "utf-8") in
  let buf := write_attribute buf NATURAL_LANGUAGE_TAG "attributes-natural-language"
               (as_bytes "en-us") in
  let buf := write_attribute buf URI_TAG "printer-uri" (as_bytes printer_uri) in
  let buf := write_integer_attribute buf INTEGER_TAG "job-id" job_id in
  buf ++ [as_u8 END_OF_ATTRIBUTES_TAG].

(** ** Parsing *)

(** The error text that carries the decoder's own message. *)
Definition utf8_error : string := "Invalid UTF-8 in attribute name".

(** [u16::from_be_bytes(data[pos..pos + 2])] and the rest, or too short. *)
Definition read_u16 (rest : bytes) : option (nat * bytes) :=
  if (length rest <? 2)%nat then None
  else Some (Z.to_nat (from_be_bytes (take 2 rest)), drop 2 rest).
(** [data[pos..pos + n]] and the rest, or too short. *)
Definition read_bytes (n : nat) (rest : bytes) : option (bytes * bytes) :=
  if (length rest <? n)%nat then None else Some (take n rest, drop n rest).

(** One value attribute after its tag. *)
Definition parse_attribute (tag : Z) (last_name : string) (rest : bytes)
    : result string (IppAttribute * bytes) :=
  match read_u16 rest with
  | None => Err "IPP response truncated at name-length"
  | Some (name_len, rest) =>
    match
      (if (name_len =? 0)%nat then Ok (last_name, rest)
       else
         match read_bytes name_len rest with
         | None => Err "IPP response truncated at name"
         | Some (n, rest) =>
           match from_utf8 n with
           | None => Err utf8_error
           | Some n => Ok (n, rest)
           end
         end)
    with
    | Err e => Err e
    | Ok (name, rest) =>
      match read_u16 rest with
      | None => Err "IPP response truncated at value-length"
      | Some (value_len, rest) =>
        match read_bytes value_len rest with
        | None => Err "IPP response truncated at value"
        | Some (value, rest) =>
          Ok ({| attr_name := name; attr_tag := tag; attr_value := value |}, rest)
        end
      end
    end
  end.

(** The loop; each turn takes a byte at least, so [length rest] turns do. *)
Fixpoint parse_loop (fuel : nat) (last_name : string) (acc : list IppAttribute) (rest : bytes)
    : result string (list IppAttribute) :=
  match fuel, rest with
  | O, _ | _, [] => Ok acc
  | S fuel', b :: rest' =>
    let tag := u8 b in
    if tag <=? 15 then
      if tag =? END_OF_ATTRIBUTES_TAG then Ok acc else parse_loop fuel' last_name acc rest'
    else
      match parse_attribute tag last_name rest' with
      | Err e => Err e
      | Ok (a, rest'') => parse_loop fuel' (attr_name a) (acc ++ [a]) rest''
      end
  end.

Definition parse_response (data : bytes) : result string IppResponse :=
  if (length data <? 8)%nat then
    Err ("IPP response too short: " +:+ z_to_string (Z.of_nat (length data)) +:+ " bytes")
  else
    match parse_loop (length data) "" [] (drop 8 data) with
    | Err e => Err e
    | Ok attributes =>
      Ok {| status_code := from_be_bytes (take 2 (drop 2 data));
            request_id := from_be_bytes (take 4 (drop 4 data));
            attributes := attributes |}
    end.

(** ** What a response means: attributes in groups *)

(** The wire form of a list of groups, each a delimiter and its attributes. *)
Definition encode_attribute (a : IppAttribute) : bytes :=
  write_attribute [] (attr_tag a) (attr_name a) (attr_value a).
Definition encode_group (g : Z * list IppAttribute) : bytes :=
  as_u8 (fst g) :: concat (map encode_attribute (snd g)).
Definition encode_message (code request_id : Z) (groups : list (Z * list IppAttribute)) : bytes :=
  ipp_header code request_id ++ concat (map encode_group groups) ++ [as_u8 END_OF_ATTRIBUTES_TAG].

(** A length that its two bytes hold, a name that is text, a value tag. *)
Definition short (n : nat) : Prop := Z.of_nat n < 2 ^ 16.
Definition encodable (a : IppAttribute) : Prop :=
  15 < attr_tag a < 256 ∧ attr_name a ≠ "" ∧ is_text (attr_name a)
  ∧ short (length (as_bytes (attr_name a))) ∧ short (length (attr_value a)).
Definition group_ok (g : Z * list IppAttribute) : Prop :=
  0 ≤ fst g ≤ 15 ∧ fst g ≠ END_OF_ATTRIBUTES_TAG ∧ Forall encodable (snd g).

Lemma write_attribute_app buf tag name value :
  write_attribute buf tag name value = buf ++ write_attribute [] tag name value.
Proof. done. Qed.

Lemma take_be n z rest : take n (to_be_bytes n z ++ rest) = to_be_bytes n z.
Proof. apply take_app_length'. symmetry. apply to_be_bytes_length. Qed.
Lemma drop_be n z rest : drop n (to_be_bytes n z ++ rest) = rest.
Proof. apply drop_app_length'. symmetry. apply to_be_bytes_length. Qed.

Lemma read_u16_be n rest :
  short n → read_u16 (to_be_bytes 2 (Z.of_nat n mod 2 ^ 16) ++ rest) = Some (n, rest).
Proof.
  unfold short, read_u16. intros Hn. rewrite length_app, to_be_bytes_length.
  rewrite (proj2 (Nat.ltb_ge _ _)) by lia.
  rewrite take_be, drop_be, from_to_be_bytes. change (Z.of_nat 2 * 8) with 16.
  rewrite Z.mod_mod by lia.
  rewrite Z.mod_small by lia. by rewrite Nat2Z.id.
Qed.

Lemma read_bytes_app l rest : read_bytes (length l) (l ++ rest) = Some (l, rest).
Proof.
  unfold read_bytes. rewrite length_app, (proj2 (Nat.ltb_ge _ _)) by lia.
  by rewrite take_app_length, drop_app_length.
Qed.

Lemma as_bytes_nonempty s : s ≠ "" → length (as_bytes s) ≠ 0%nat.
Proof. by destruct s. Qed.

Lemma parse_encoded_attribute a last rest :
  encodable a →
  parse_attribute (attr_tag a) last (drop 1 (encode_attribute a) ++ rest) = Ok (a, rest).
Proof.
  intros (Ht & Hn & Hu & Hln & Hlv). change (drop 1 (encode_attribute a)) with
    (to_be_bytes 2 (Z.of_nat (length (as_bytes (attr_name a))) mod 2 ^ 16) ++ as_bytes (attr_name a)
     ++ to_be_bytes 2 (Z.of_nat (length (attr_value a)) mod 2 ^ 16) ++ attr_value a).
  unfold parse_attribute. rewrite <- !app_assoc, read_u16_be by done.
  rewrite (proj2 (Nat.eqb_neq _ _)) by (by apply as_bytes_nonempty).
  rewrite read_bytes_app, from_utf8_as_bytes by done.
  rewrite <- ?app_assoc, read_u16_be by done. rewrite read_bytes_app. by destruct a.
Qed.

Lemma encode_attribute_cons a : encode_attribute a = as_u8 (attr_tag a) :: drop 1 (encode_attribute a).
Proof. done. Qed.

Lemma parse_attributes l fuel last acc rest :
  Forall encodable l → (length (concat (map encode_attribute l) ++ rest) ≤ fuel)%nat →
  ∃ fuel' last', (length rest ≤ fuel')%nat ∧
    parse_loop fuel last acc (concat (map encode_attribute l) ++ rest)
    = parse_loop fuel' last' (acc ++ l) rest.
Proof.
  revert fuel last acc. induction l as [|a l IH]; intros fuel last acc Hl Hf; cbn [map concat] in *.
  - exists fuel, last. by rewrite app_nil_r.
  - apply Forall_cons in Hl as [Ha Hl].
    rewrite <- app_assoc in Hf |- *. rewrite encode_attribute_cons in Hf |- *. cbn [app length] in Hf |- *.
    destruct fuel as [|fuel]; [lia|].
    destruct (IH fuel (attr_name a) (acc ++ [a]) Hl) as (fuel' & last' & Hf' & E).
    { rewrite length_app in Hf. lia. }
    exists fuel', last'. split; [done|]. rewrite <- app_assoc in E. cbn [app] in E. rewrite <- E.
    cbn [parse_loop]. destruct (Ha) as (Ht & _). rewrite u8_as_u8 by lia.
    rewrite (proj2 (Z.leb_gt _ _)) by lia. by rewrite parse_encoded_attribute.
Qed.

Lemma parse_groups gs fuel last acc tail :
  Forall group_ok gs →
  (length (concat (map encode_group gs) ++ as_u8 END_OF_ATTRIBUTES_TAG :: tail) ≤ fuel)%nat →
  parse_loop fuel last acc (concat (map encode_group gs) ++ as_u8 END_OF_ATTRIBUTES_TAG :: tail)
  = Ok (acc ++ concat (map snd gs)).
Proof.
  revert fuel last acc. induction gs as [|g gs IH]; intros fuel last acc Hg Hf.
  - rewrite app_nil_r. by destruct fuel.
  - apply Forall_cons in Hg as [(Ht & Hne & Ha) Hg]. cbn [map concat] in *.
    unfold encode_group at 1. unfold encode_group at 1 in Hf. rewrite <- app_assoc in Hf |- *.
    cbn [app length] in Hf |- *. destruct fuel as [|fuel]; [lia|]. cbn [parse_loop].
    rewrite u8_as_u8 by lia. rewrite (proj2 (Z.leb_le _ _)) by lia.
    rewrite (proj2 (Z.eqb_neq _ _)) by done.
    destruct (parse_attributes (snd g) fuel last acc
      (concat (map encode_group gs) ++ as_u8 END_OF_ATTRIBUTES_TAG :: tail) Ha) as (f' & l' & Hf' & ->);
      [lia|].
    rewrite IH by done. by rewrite <- app_assoc.
Qed.

(** Parsing a message gives its code, its request id and its attributes back,
    whatever follows the end tag. *)
Lemma parse_encode_message code rid gs tail :
  0 ≤ code < 2 ^ 16 → 0 ≤ rid < 2 ^ 32 → Forall group_ok gs →
  parse_response (encode_message code rid gs ++ tail)
  = Ok {| status_code := code; request_id := rid; attributes := concat (map snd gs) |}.
Proof.
  intros Hc Hr Hg. unfold encode_message, ipp_header. rewrite <- !app_assoc.
  set (rest := concat (map encode_group gs) ++ [as_u8 END_OF_ATTRIBUTES_TAG] ++ tail).
  set (data := [as_u8 IPP_VERSION_MAJOR; as_u8 IPP_VERSION_MINOR] ++ to_be_bytes 2 code
                 ++ to_be_bytes 4 rid ++ rest).
  assert (length data = 8 + length rest)%nat as Hl.
  { unfold data. rewrite !length_app, !to_be_bytes_length. simpl. lia. }
  unfold parse_response. rewrite Hl, (proj2 (Nat.ltb_ge _ _)) by lia.
  assert (drop 2 data = to_be_bytes 2 code ++ to_be_bytes 4 rid ++ rest) as D2 by done.
  assert (drop 4 data = to_be_bytes 4 rid ++ rest) as D4.
  { change (drop 4 data) with (drop 2 (drop 2 data)). rewrite D2. apply drop_be. }
  assert (drop 8 data = rest) as D8.
  { replace (drop 8 data) with (drop 4 (drop 4 data)) by (rewrite drop_drop; done).
    rewrite D4. apply drop_be. }
  assert (parse_loop (8 + length rest) "" [] rest = Ok (concat (map snd gs))) as Hp.
  { apply (parse_groups gs _ "" [] tail Hg). change (length rest ≤ 8 + length rest)%nat. lia. }
  rewrite D8, Hp, D4, D2, !take_be, !from_to_be_bytes.
  change (Z.of_nat 2 * 8) with 16. change (Z.of_nat 4 * 8) with 32.
  by rewrite !Z.mod_small by lia.
Qed.

(** The fuel bounds nothing: any larger amount gives the same answer. *)
Lemma read_u16_length rest n rest' : read_u16 rest = Some (n, rest') → (length rest' ≤ length rest)%nat.
Proof. unfold read_u16. destruct (_ <? _)%nat; [done|]. intros [= _ <-]. rewrite length_drop. lia. Qed.
Lemma read_bytes_length k rest n rest' :
  read_bytes k rest = Some (n, rest') → (length rest' ≤ length rest)%nat.
Proof. unfold read_bytes. destruct (_ <? _)%nat; [done|]. intros [= _ <-]. rewrite length_drop. lia. Qed.
Lemma parse_attribute_length tag last rest a rest' :
  parse_attribute tag last rest = Ok (a, rest') → (length rest' ≤ length rest)%nat.
Proof.
  unfold parse_attribute. destruct (read_u16 rest) as [[nl r1]|] eqn:E1; [|done].
  apply read_u16_length in E1.
  destruct (nl =? 0)%nat.
  - destruct (read_u16 r1) as [[vl r2]|] eqn:E2; [|done]. apply read_u16_length in E2.
    destruct (read_bytes vl r2) as [[v r3]|] eqn:E3; [|done]. apply read_bytes_length in E3.
    intros [= _ <-]. lia.
  - destruct (read_bytes nl r1) as [[n r2]|] eqn:E2; [|done]. apply read_bytes_length in E2.
    destruct (from_utf8 n); [|done].
    destruct (read_u16 r2) as [[vl r3]|] eqn:E3; [|done]. apply read_u16_length in E3.
    destruct (read_bytes vl r3) as [[v r4]|] eqn:E4; [|done]. apply read_bytes_length in E4.
    intros [= _ <-]. lia.
Qed.
Lemma parse_loop_fuel n m last acc rest :
  (length rest ≤ n)%nat → (length rest ≤ m)%nat → parse_loop n last acc rest = parse_loop m last acc rest.
Proof.
  revert m last acc rest. induction n as [|n IH]; intros [|m] last acc [|b rest] Hn Hm; simpl in *;
    try done; try lia.
  destruct (u8 b <=? 15); [destruct (_ =? _); [done|apply IH; lia]|].
  destruct (parse_attribute _ _ _) as [[a r]|] eqn:E; [|done].
  apply parse_attribute_length in E. apply IH; lia.
Qed.

(** [write_integer_attribute] and [as_i32]. *)
Lemma integer_round_trip name tag v :
  - 2 ^ 31 ≤ v < 2 ^ 31 → as_i32 (mkAttribute name tag (to_be_bytes 4 v)) = Some v.
Proof.
  intros Hv. unfold as_i32. simpl attr_value. rewrite to_be_bytes_length. cbn [Nat.eqb].
  rewrite from_to_be_bytes. change (Z.of_nat 4 * 8) with 32. unfold to_signed32. f_equal.
  destruct (Z.lt_ge_cases v 0).
  - replace (v mod 2 ^ 32) with (v + 2 ^ 32)
      by (symmetry; rewrite <- (Z.mod_small (v + 2 ^ 32) (2 ^ 32)) by lia;
          replace (v + 2 ^ 32) with (v + 1 * 2 ^ 32) by lia; by rewrite Z.mod_add).
    destruct (Z.ltb_spec (v + 2 ^ 32) (2 ^ 31)); lia.
  - rewrite Z.mod_small by lia. destruct (Z.ltb_spec v (2 ^ 31)); lia.
Qed.
