(* ===== verification/RasterMerge.v ===== *)
(** * Merging raster documents

    [src/crates/devbridge-client/src/raster_merge.rs]: the URF or PWG documents
    of several Ghostscript runs become one: one header, then the page records
    of each in order.  A reader is what it has left to give. *)

From Stdlib Require Import ZArith Ascii String.
From S2P Require Import Prelude RustStd Text.
#[local] Open Scope Z_scope.

Definition URF_MAGIC : bytes := as_bytes "UNIRAST" ++ [as_u8 0].
Definition PWG_SYNC : bytes := as_bytes "RaS2".

Inductive RasterKind := Urf | Pwg.
#[export] Instance RasterKind_eq_dec : EqDecision RasterKind.
Proof. solve_decision. Defined.

Definition for_device (device : string) : option RasterKind :=
  if text_in device ["urfgray"; "urfrgb"; "urfcmyk"] then Some Urf
  else if device =t? "pwgraster" then Some Pwg
  else None.
Definition magic (k : RasterKind) : bytes := match k with Urf => URF_MAGIC | Pwg => PWG_SYNC end.
Definition header_len (k : RasterKind) : nat :=
  match k with Urf => length URF_MAGIC + 4 | Pwg => length PWG_SYNC end.
Definition kind_debug (k : RasterKind) : string := match k with Urf => "Urf" | Pwg => "Pwg" end.

(** [{:02x?}] of a slice *)
Definition hex2 (b : Byte.byte) : string := hex_digit (u8 b / 16) +:+ hex_digit (u8 b mod 16).
Definition hex_list (bs : bytes) : string := "[" +:+ String.concat ", " (map hex2 bs) +:+ "]".

Definition starts_with_bytes (p l : bytes) : bool := bool_decide (take (length p) l = p).

(** The first loop: each reader's header, checked; the page counts of URF and
    what the readers have left. *)
Fixpoint read_headers (k : RasterKind) (i : Z) (inputs : list bytes) (counts : list Z)
    (rests : list bytes) : result (list string) (list Z * list bytes) :=
  match inputs with
  | [] => Ok (counts, rests)
  | input :: inputs' =>
    if (length input <? header_len k)%nat then
      Err ["raster document " +:+ z_to_string (i + 1) +:+ " is shorter than its " +:+ kind_debug k
             +:+ " header"; "failed to fill whole buffer"]
    else
      let header := take (header_len k) input in
      if negb (starts_with_bytes (magic k) header) then
        Err ["raster document " +:+ z_to_string (i + 1) +:+ " is not a " +:+ kind_debug k
               +:+ " document (starts with " +:+ hex_list (take (length (magic k)) header) +:+ ")"]
      else
        let counts := match k with
                      | Urf => counts ++ [from_be_bytes (drop (length (magic k)) header)]
                      | Pwg => counts
                      end in
        read_headers k (i + 1) inputs' counts (rests ++ [drop (header_len k) input])
  end.

Fixpoint checked_sum (sum : Z) (counts : list Z) : option Z :=
  match counts with
  | [] => Some sum
  | c :: counts' => if sum + c <? 2 ^ 32 then checked_sum (sum + c) counts' else None
  end.
Definition merged_page_count (counts : list Z) : option Z :=
  if existsb (Z.eqb 0) counts then Some 0 else checked_sum 0 counts.

(** What is written to [out]; the byte count is its length. *)
Definition merge (k : RasterKind) (inputs : list bytes) : result (list string) bytes :=
  match inputs with
  | [] => Err ["no raster document to merge"]
  | _ =>
    match read_headers k 0 inputs [] [] with
    | Err e => Err e
    | Ok (counts, rests) =>
      match k with
      | Urf =>
        match merged_page_count counts with
        | None => Err ["URF page count overflows u32"]
        | Some count => Ok (magic k ++ to_be_bytes 4 count ++ concat rests)
        end
      | Pwg => Ok (magic k ++ concat rests)
      end
    end
  end.

(** ** What a document is: a header and page records *)

Definition header (k : RasterKind) (count : Z) : bytes :=
  match k with Urf => magic k ++ to_be_bytes 4 count | Pwg => magic k end.
(** A document of [k]: its page count ([0]: not counted) and its page records. *)
Definition document (k : RasterKind) (d : Z * bytes) : bytes := header k (fst d) ++ snd d.
Definition counted (k : RasterKind) (ds : list (Z * bytes)) : option Z :=
  match k with Urf => merged_page_count (map fst ds) | Pwg => Some 0 end.

Lemma header_length k c : length (header k c) = header_len k.
Proof. destruct k; [|done]. unfold header. by rewrite length_app, to_be_bytes_length. Qed.
Lemma header_magic k c : take (length (magic k)) (header k c) = magic k.
Proof. by destruct k. Qed.

Lemma read_header_step k i d inputs counts rests :
  0 ≤ fst d < 2 ^ 32 →
  read_headers k i (document k d :: inputs) counts rests
  = read_headers k (i + 1) inputs (match k with Urf => counts ++ [fst d] | Pwg => counts end)
      (rests ++ [snd d]).
Proof.
  intros Hd. cbn [read_headers]. unfold document.
  assert (header_len k ≤ length (header k (fst d) ++ snd d))%nat
    by (rewrite length_app, header_length; lia).
  rewrite (proj2 (Nat.ltb_ge _ _)) by done.
  rewrite take_app_length' by (symmetry; apply header_length).
  rewrite drop_app_length' by (symmetry; apply header_length).
  unfold starts_with_bytes. rewrite header_magic, bool_decide_true by done. cbn [negb].
  destruct k; [|done]. f_equal. f_equal.
  change (drop (length (magic Urf)) (header Urf (fst d))) with (to_be_bytes 4 (fst d)).
  rewrite from_to_be_bytes. change (Z.of_nat 4 * 8) with 32. by rewrite Z.mod_small by lia.
Qed.

Lemma read_headers_documents k i ds counts rests :
  Forall (λ d, 0 ≤ fst d < 2 ^ 32) ds →
  read_headers k i (map (document k) ds) counts rests
  = Ok (match k with Urf => counts ++ map fst ds | Pwg => counts end, rests ++ map snd ds).
Proof.
  intros Hds. revert i counts rests. induction Hds as [|d ds Hd Hds IH]; intros i counts rests.
  - simpl. rewrite !app_nil_r. by destruct k.
  - cbn [map]. rewrite read_header_step by done. rewrite IH.
    destruct k; by rewrite <- !app_assoc.
Qed.

(** The merge of documents is the document of their records, its count the sum
    (or "not counted"). *)
Lemma merge_documents k ds :
  ds ≠ [] → Forall (λ d, 0 ≤ fst d < 2 ^ 32) ds →
  merge k (map (document k) ds)
  = match counted k ds with
    | Some n => Ok (document k (n, concat (map snd ds)))
    | None => Err ["URF page count overflows u32"]
    end.
Proof.
  intros Hne Hds. unfold merge. destruct (map (document k) ds) as [|x l] eqn:E.
  { by destruct ds. }
  rewrite <- E, read_headers_documents by done. simpl.
  destruct k; simpl; [|done]. destruct (merged_page_count (map fst ds)); [|done].
  unfold document, header. cbn [fst snd]. by rewrite <- app_assoc.
Qed.

(** The sum of the counts, exactly when it fits. *)
Lemma checked_sum_spec sum counts :
  0 ≤ sum < 2 ^ 32 → Forall (λ c, 0 ≤ c) counts →
  checked_sum sum counts
  = (let total := sum + foldr Z.add 0 counts in if total <? 2 ^ 32 then Some total else None).
Proof.
  intros Hs Hc. revert sum Hs. induction Hc as [|c counts Hc Hcs IH]; intros sum Hs; simpl.
  - rewrite Z.add_0_r. by rewrite (proj2 (Z.ltb_lt _ _)) by lia.
  - assert (0 ≤ foldr Z.add 0 counts) by (clear IH; induction Hcs; simpl; lia).
    destruct (Z.ltb_spec (sum + c) (2 ^ 32)).
    + rewrite IH by lia. by rewrite Z.add_assoc.
    + by rewrite (proj2 (Z.ltb_ge _ _)) by lia.
Qed.

(** Counts that are all there are added up. *)
Lemma merged_page_count_counted counts :
  Forall (λ c, 0 < c) counts → merged_page_count counts = checked_sum 0 counts.
Proof.
  intros Hc. unfold merged_page_count.
  assert (existsb (Z.eqb 0) counts = false) as ->; [|done].
  induction Hc as [|c counts Hc _ IH]; [done|]. simpl. rewrite IH, orb_false_r. by destruct c.
Qed.
