(* ===== verification/PdfPages.v ===== *)
(** * The pages of a PDF and the Ghostscript runs that render them

    [src/crates/devbridge-client/src]: [pdf_pages.rs] (the page geometry that
    [gs -dPDFINFO] prints and the render runs) and [gs_plan.rs] (the decisions
    of one render).  An error is its chain of messages, outermost first. *)

From Stdlib Require Import ZArith Ascii String.
From S2P Require Import Prelude RustStd Text Floats RasterMerge.
#[local] Open Scope Z_scope.

Definition SAME_SIZE_TOLERANCE_PT : f64 := lit 5 (-1).

Record PageGeometry := mkPageGeometry {
  pg_number : Z;
  media_width : f64;
  media_height : f64;
  pg_rotate : Z;
}.
Definition rendered_size (p : PageGeometry) : f64 * f64 :=
  if pg_rotate p mod 180 =? 90 then (media_height p, media_width p)
  else (media_width p, media_height p).
Definition is_landscape (p : PageGeometry) : bool :=
  let '(w, h) := rendered_size p in f64_ltb h w.

Inductive RunMedia :=
| AsIs
| Portrait (w h : f64).
Definition for_page (p : PageGeometry) : RunMedia :=
  if is_landscape p then let '(w, h) := rendered_size p in Portrait h w else AsIs.
Definition shares_run_with (a b : RunMedia) : bool :=
  match a, b with
  | AsIs, AsIs => true
  | Portrait w h, Portrait w' h' =>
    f64_ltb (f64_abs (f64_sub w w')) SAME_SIZE_TOLERANCE_PT
    && f64_ltb (f64_abs (f64_sub h h')) SAME_SIZE_TOLERANCE_PT
  | _, _ => false
  end.

Record RenderRun := mkRenderRun { first_page : Z; last_page : Z; media : RunMedia }.
Record OrientationSummary := mkSummary { sum_portrait : Z; sum_landscape : Z }.
Definition summary_to_string (s : OrientationSummary) : string :=
  "orientation: " +:+ z_to_string (sum_portrait s) +:+ " portrait, " +:+ z_to_string (sum_landscape s)
    +:+ " landscape" +:+ (if 0 <? sum_landscape s then " (rotated 90°)" else "").

(** ** Reading [gs -dPDFINFO] *)

Section pdfinfo.
Context `{DebugText}.

Definition parse_rotate (tail : list Z) : result (list string) Z :=
  match split_once (chars "Rotate =") tail with
  | None => Ok 0
  | Some (_, value) =>
    let value := first_word value in
    match parse_i64 value with
    | Err e => Err ["Rotate value " +:+ debug_str value; e]
    | Ok degrees =>
      if negb (Z.rem degrees 90 =? 0) then
        Err ["Rotate " +:+ z_to_string degrees +:+ " is not a multiple of 90"]
      else Ok (as_u32 (degrees mod 360))
    end
  end.

Fixpoint parse_values (ws : list (list Z)) : result (list string) (list f64) :=
  match ws with
  | [] => Ok []
  | v :: ws' =>
    match parse_f64 v with
    | None => Err ["MediaBox value " +:+ debug_str v; "invalid float literal"]
    | Some x => match parse_values ws' with Ok xs => Ok (x :: xs) | Err e => Err e end
    end
  end.

Definition parse_page_line (number after : list Z) : result (list string) PageGeometry :=
  match parse_u32 (trim number) with
  | Err e => Err ["page number"; e]
  | Ok number =>
    match split_once [93] after with
    | None => Err ["unterminated MediaBox"]
    | Some (media_box, tail) =>
      match parse_values (split_whitespace media_box) with
      | Err e => Err e
      | Ok values =>
        match values with
        | [a; b; c; d] =>
          let w := f64_abs (f64_sub c a) in
          let h := f64_abs (f64_sub d b) in
          if is_finite w && is_finite h && f64_ltb f64_zero w && f64_ltb f64_zero h then
            match parse_rotate tail with
            | Err e => Err e
            | Ok r => Ok {| pg_number := number; media_width := w; media_height := h; pg_rotate := r |}
            end
          else Err ["MediaBox has no area: " +:+ f64_to_string w +:+ " x " +:+ f64_to_string h]
        | _ => Err ["MediaBox has " +:+ z_to_string (Z.of_nat (length values)) +:+ " values, expected 4"]
        end
      end
    end
  end.

(** The loop over the lines; [pages] in order so far. *)
Fixpoint parse_lines (ls : list (list Z)) (pages : list PageGeometry) (declared : option Z)
    : result (list string) (list PageGeometry * option Z) :=
  match ls with
  | [] => Ok (pages, declared)
  | l :: ls' =>
    let line := trim l in
    match strip_prefix (chars "File has ") line with
    | Some rest =>
      match parse_u32 (first_word rest) with
      | Err e => Err ["PDFINFO page count in " +:+ debug_str line; e]
      | Ok n => parse_lines ls' pages (Some n)
      end
    | None =>
      match strip_prefix (chars "Page ") line with
      | None => parse_lines ls' pages declared
      | Some rest =>
        match split_once (chars " MediaBox: [") rest with
        | None => parse_lines ls' pages declared
        | Some (number, after) =>
          match parse_page_line number after with
          | Err e => Err (("PDFINFO " +:+ debug_str line) :: e)
          | Ok page =>
            let expected := as_u32 (Z.of_nat (length pages)) + 1 in
            if pg_number page =? expected then parse_lines ls' (pages ++ [page]) declared
            else Err ["PDFINFO lists page " +:+ z_to_string (pg_number page) +:+ " where page "
                        +:+ z_to_string expected +:+ " was expected"]
          end
        end
      end
    end
  end.

Definition parse_pdfinfo (output : list Z) : result (list string) (list PageGeometry) :=
  match parse_lines (lines output) [] None with
  | Err e => Err e
  | Ok (pages, declared) =>
    match pages with
    | [] => Err ["PDFINFO output lists no page"]
    | _ =>
      match declared with
      | Some count =>
        if count =? as_u32 (Z.of_nat (length pages)) then Ok pages
        else Err ["PDFINFO says the file has " +:+ z_to_string count +:+ " pages but lists "
                    +:+ z_to_string (Z.of_nat (length pages))]
      | None => Ok pages
      end
    end
  end.
End pdfinfo.

(** ** The runs *)

(** One page of [plan_runs]; the runs so far, the last one first. *)
Definition plan_page (runs : list RenderRun) (page : PageGeometry) : list RenderRun :=
  let m := for_page page in
  let fresh := {| first_page := pg_number page; last_page := pg_number page; media := m |} in
  match runs with
  | run :: runs' =>
    if shares_run_with (media run) m
    then {| first_page := first_page run; last_page := pg_number page; media := media run |} :: runs'
    else fresh :: runs
  | [] => [fresh]
  end.
Definition plan_runs (pages : list PageGeometry) : list RenderRun :=
  rev (fold_left plan_page pages []).

Definition run_args (run : RenderRun) (single_run : bool) : list string :=
  (if single_run then []
   else ["-dFirstPage=" +:+ z_to_string (first_page run); "-dLastPage=" +:+ z_to_string (last_page run)])
  ++ match media run with
     | Portrait w h =>
       ["-dDEVICEWIDTHPOINTS=" +:+ f64_to_string w; "-dDEVICEHEIGHTPOINTS=" +:+ f64_to_string h;
        "-dFIXEDMEDIA"; "-dPDFFitPage"]
     | AsIs => []
     end.

Definition summarize (pages : list PageGeometry) : OrientationSummary :=
  let landscape := as_u32 (Z.of_nat (length (List.filter is_landscape pages))) in
  {| sum_portrait := as_u32 (as_u32 (Z.of_nat (length pages)) - landscape); sum_landscape := landscape |}.

(** ** [gs_plan.rs] *)

Definition parse_page_count (output : list Z) : Z :=
  as_u32 (Z.of_nat (length
    (List.filter (λ l, match strip_prefix (chars "Page ") l with Some _ => true | None => false end)
      (lines output)))).
(** [u32] addition, wrapping as a release build does. *)
Definition page_lines (stdout stderr : list Z) : Z :=
  as_u32 (parse_page_count stdout + parse_page_count stderr).

Definition last_line (s : list Z) : option (list Z) :=
  List.find (λ l, match l with [] => false | _ => true end) (map trim (rev (lines s))).
Definition last_message (stderr stdout : list Z) : list Z :=
  match last_line stderr with
  | Some l => l
  | None => match last_line stdout with Some l => l | None => chars "unknown error" end
  end.

Definition is_single_page_device (device : string) : bool :=
  text_in device ["jpeg"; "jpeggray"; "jpegcmyk"; "png16m"; "pnggray"; "pngmono"; "pngalpha"].
Definition page_file_ext (device : string) : string :=
  if text_in device ["jpeg"; "jpeggray"; "jpegcmyk"] then "jpg" else "png".

Inductive Orientation :=
| NotApplicable
| Unknown (reason : string)
| Planned (kind : RasterKind) (runs : list RenderRun) (summary : OrientationSummary).

Inductive GsCalls :=
| Single (args : list string)
| Runs (kind : RasterKind) (runs : list RenderRun).

Section plan.
Context `{DebugText}.

Definition from_pdfinfo (kind : RasterKind) (success : bool) (exit_code : option Z)
    (stdout stderr : string) : Orientation :=
  if negb success then
    Unknown ("gs -dPDFINFO exit code " +:+ z_to_string (default (-1) exit_code) +:+ ": "
               +:+ of_chars (last_message (chars stderr) (chars stdout)))
  else
    match parse_pdfinfo (chars stdout ++ [10] ++ chars stderr) with
    | Ok pages => Planned kind (plan_runs pages) (summarize pages)
    | Err e => Unknown (String.concat ": " e)
    end.
End plan.

Definition calls (o : Orientation) : GsCalls :=
  match o with
  | Planned kind runs _ =>
    if (1 <? length runs)%nat then Runs kind runs
    else Single (match runs with run :: _ => run_args run true | [] => [] end)
  | _ => Single []
  end.

Definition page_count (o : Orientation) (page_lines : Z) (page_files : nat) : Z :=
  match o with
  | Planned _ _ s => as_u32 (sum_portrait s + sum_landscape s)
  | _ => if 0 <? page_lines then page_lines else as_u32 (Z.of_nat page_files)
  end.

Definition event_suffix (o : Orientation) : string :=
  match o with
  | NotApplicable => ""
  | Unknown reason => ", orientation: unknown (" +:+ take_chars 160 reason +:+ "), rendered as-is"
  | Planned _ _ s => ", " +:+ summary_to_string s
  end.

(** ** What the runs cover *)

(** A group of pages: its first page and the others. *)
Definition Group : Type := PageGeometry * list PageGeometry.
Definition group_pages (g : Group) : list PageGeometry := fst g :: snd g.
Definition run_of (g : Group) : RenderRun :=
  {| first_page := pg_number (fst g); last_page := pg_number (List.last (snd g) (fst g));
     media := for_page (fst g) |}.
(** The medium of a group's first page serves its other pages. *)
Definition alike (g : Group) : Prop :=
  Forall (λ p, shares_run_with (for_page (fst g)) (for_page p) = true) (snd g).
(** The next group begins where that medium does not serve. *)
Fixpoint breaks (gs : list Group) : Prop :=
  match gs with
  | g :: (g' :: _) as gs' => shares_run_with (for_page (fst g)) (for_page (fst g')) = false ∧ breaks gs'
  | _ => True
  end.
(** The groups of a document: all its pages in order, each group as long as its
    medium serves. *)
Definition grouping (pages : list PageGeometry) (gs : list Group) : Prop :=
  concat (map group_pages gs) = pages ∧ Forall alike gs ∧ breaks gs.

Lemma list_last_snoc {A} (l : list A) x d : List.last (l ++ [x]) d = x.
Proof. induction l as [|a [|b l] IH]; simpl in *; done. Qed.

Lemma breaks_snoc gs g g' :
  breaks (gs ++ [g]) → shares_run_with (for_page (fst g)) (for_page (fst g')) = false →
  breaks (gs ++ [g; g']).
Proof. induction gs as [|a [|b gs] IH]; simpl in *; intros Hb Hs; [tauto|tauto|]. destruct Hb as [? Hb]. split; [done|exact (IH Hb Hs)]. Qed.
Lemma breaks_extend gs p rest q : breaks (gs ++ [(p, rest)]) → breaks (gs ++ [(p, rest ++ [q])]).
Proof. induction gs as [|a [|b gs] IH]; simpl in *; intros Hb; [tauto|tauto|]. destruct Hb as [? Hb]. split; [done|exact (IH Hb)]. Qed.

Lemma plan_page_grouping pages gs p :
  grouping pages gs →
  ∃ gs', plan_page (rev (map run_of gs)) p = rev (map run_of gs') ∧ grouping (pages ++ [p]) gs'.
Proof.
  intros (Hc & Ha & Hb). destruct gs as [|[q rest] gs _] using rev_ind.
  - simpl in Hc. subst. exists [(p, [])]. split; [done|]. split; [done|]. repeat constructor.
  - rewrite map_app, rev_app_distr. unfold plan_page. cbn [map rev app]. cbn [run_of media fst].
    apply Forall_app in Ha as [Ha [Hg _]%Forall_cons].
    rewrite map_app, concat_app in Hc. cbn [map concat] in Hc. rewrite app_nil_r in Hc.
    destruct (shares_run_with (for_page q) (for_page p)) eqn:E.
    + exists (gs ++ [(q, rest ++ [p])]). rewrite map_app, rev_app_distr. split; [|split; [|split]].
      * simpl. unfold run_of. simpl. by rewrite list_last_snoc.
      * rewrite map_app, concat_app. cbn [map concat]. rewrite app_nil_r, <- Hc, <- app_assoc. done.
      * apply Forall_app. split; [done|]. apply Forall_singleton. unfold alike. cbn [fst snd].
        apply Forall_app. split; [exact Hg|]. by apply Forall_singleton.
      * by apply breaks_extend.
    + exists (gs ++ [(q, rest); (p, [])]). rewrite map_app, rev_app_distr. split; [|split; [|split]].
      * done.
      * rewrite map_app, concat_app. cbn [map concat]. rewrite <- Hc, <- app_assoc. done.
      * apply Forall_app. split; [done|]. repeat constructor. done.
      * by apply breaks_snoc.
Qed.

Lemma plan_runs_grouping pages :
  ∃ gs, plan_runs pages = map run_of gs ∧ grouping pages gs.
Proof.
  assert (∃ gs, fold_left plan_page pages [] = rev (map run_of gs) ∧ grouping pages gs)
    as (gs & E & Hg).
  { induction pages as [|p pages (gs & E & Hg)] using rev_ind.
    - exists []. done.
    - rewrite fold_left_app. cbn [fold_left]. rewrite E. by apply plan_page_grouping. }
  exists gs. split; [|done]. unfold plan_runs. by rewrite E, rev_involutive.
Qed.

(** The grouping is the only one. *)
Lemma grouping_unique pages gs gs' : grouping pages gs → grouping pages gs' → gs = gs'.
Proof.
  revert gs gs'. assert (∀ n gs gs', (length (concat (map group_pages gs)) ≤ n)%nat →
    concat (map group_pages gs) = concat (map group_pages gs') → Forall alike gs → Forall alike gs' →
    breaks gs → breaks gs' → gs = gs') as Hu.
  { induction n as [|n IH]; intros [|[p r] gs] [|[p' r'] gs'] Hl Hc Ha Ha' Hb Hb';
      try done; [simpl in Hl; lia|].
    injection Hc as <- Hc. fold group_pages in Hc.
    apply Forall_cons in Ha as [Hr Ha], Ha' as [Hr' Ha']. unfold alike in Hr, Hr'. simpl in Hr, Hr'.
    assert (r = r' ∧ concat (map group_pages gs) = concat (map group_pages gs')) as [<- Hc'].
    { assert (∀ g l, gs = g :: l → shares_run_with (for_page p) (for_page (fst g)) = false) as Hf
        by (intros g l ->; by destruct Hb).
      assert (∀ g l, gs' = g :: l → shares_run_with (for_page p) (for_page (fst g)) = false) as Hf'
        by (intros g l ->; by destruct Hb').
      clear IH Hl Ha Ha' Hb Hb'. revert r' Hc Hr'. induction Hr as [|a r Hsa Hr IHr]; intros [|a' r'] Hc Hr'.
      - done.
      - destruct gs as [|[g0 g1] gs]; [done|]. simpl in Hc. injection Hc as -> _.
        apply Forall_cons in Hr' as [Hs _]. specialize (Hf _ _ eq_refl). simpl in Hf. congruence.
      - destruct gs' as [|[g0 g1] gs']; [done|]. simpl in Hc. injection Hc as -> _.
        specialize (Hf' _ _ eq_refl). simpl in Hf'. congruence.
      - simpl in Hc. injection Hc as <- Hc. apply Forall_cons in Hr' as [_ Hr'].
        by destruct (IHr r' Hc Hr') as [<- ?]. }
    f_equal. apply IH; try done.
    - simpl in Hl. rewrite length_app in Hl. lia.
    - destruct gs; [done|]. by destruct Hb.
    - destruct gs'; [done|]. by destruct Hb'. }
  intros gs gs' (Hc & Ha & Hb) (Hc' & Ha' & Hb'). apply (Hu (length (concat (map group_pages gs)))); congruence || done.
Qed.

(** The medium each page is rendered on. *)
Definition page_media (gs : list Group) : list RunMedia :=
  concat (map (λ g, map (λ _, for_page (fst g)) (group_pages g)) gs).
Definition serves (m : RunMedia) (p : PageGeometry) : Prop :=
  m = for_page p ∨ shares_run_with m (for_page p) = true.

Lemma page_media_serves gs :
  Forall alike gs → Forall2 serves (page_media gs) (concat (map group_pages gs)).
Proof.
  unfold page_media. induction 1 as [|g gs Hg _ IH]; [constructor|]. cbn [map concat].
  apply Forall2_app; [|done]. unfold group_pages. constructor; [by left|].
  unfold alike in Hg. induction Hg; simpl; constructor; [by right|done].
Qed.

Lemma zip_with_page_media {B} (f : RunMedia → PageGeometry → list B) gs :
  concat (map (λ g, concat (map (f (for_page (fst g))) (group_pages g))) gs)
  = concat (zip_with f (page_media gs) (concat (map group_pages gs))).
Proof.
  unfold page_media. induction gs as [|g gs IH]; [done|]. cbn [map concat].
  rewrite zip_with_app by (by rewrite length_map). rewrite concat_app, IH. f_equal. f_equal.
  induction (group_pages g) as [|p l IHl]; simpl; [done|]. by rewrite IHl.
Qed.

(** ** What the reading promises *)

Record page_ok (p : PageGeometry) : Prop := {
  ok_width : is_finite (media_width p) = true ∧ f64_ltb f64_zero (media_width p) = true;
  ok_height : is_finite (media_height p) = true ∧ f64_ltb f64_zero (media_height p) = true;
  ok_rotate : In (pg_rotate p) [0; 90; 180; 270];
}.
Definition numbered (pages : list PageGeometry) : Prop :=
  map pg_number pages = seqZ 1 (Z.of_nat (length pages)).

Lemma quarter_turns d : Z.rem d 90 = 0 → In (as_u32 (d mod 360)) [0; 90; 180; 270].
Proof.
  intros Hd. pose proof (Z.mod_pos_bound d 360 ltac:(lia)) as Hb.
  assert ((d mod 360) mod 90 = 0) as Hm.
  { apply Z.rem_divide in Hd; [|lia]. apply Z.mod_divide; [lia|].
    pose proof (Z.div_mod d 360 ltac:(lia)) as E. replace (d mod 360) with (d - 360 * (d / 360)) by lia.
    apply Z.divide_sub_r; [done|]. exists (4 * (d / 360)). lia. }
  rewrite as_u32_id by lia. remember (d mod 360) as r.
  pose proof (Z.div_mod r 90 ltac:(lia)) as E. rewrite Hm in E.
  assert (r / 90 = 0 ∨ r / 90 = 1 ∨ r / 90 = 2 ∨ r / 90 = 3) by (pose proof (Z.div_pos r 90); pose proof (Z.div_lt_upper_bound r 90 4); lia).
  simpl. lia.
Qed.

Section reading.
Context `{DebugText}.

Lemma parse_rotate_ok tail r : parse_rotate tail = Ok r → In r [0; 90; 180; 270].
Proof.
  unfold parse_rotate. destruct (split_once _ _) as [[a b]|]; [|intros [= <-]; by left].
  destruct (parse_i64 _) as [d|]; [|done].
  destruct (Z.eqb_spec (Z.rem d 90) 0) as [Hd|]; [|done]. intros [= <-]. by apply quarter_turns.
Qed.

Lemma parse_page_line_ok number after p : parse_page_line number after = Ok p → page_ok p.
Proof.
  unfold parse_page_line. destruct (parse_u32 _) as [n|]; [|done].
  destruct (split_once _ _) as [[mb tail]|]; [|done].
  destruct (parse_values _) as [[|a [|b [|c [|d [|e l]]]]]|]; try done.
  set (w := f64_abs _). set (h := f64_abs _).
  destruct (_ && _) eqn:E; [|done]. destruct (parse_rotate tail) as [r|] eqn:Er; [|done].
  intros [= <-]. apply parse_rotate_ok in Er.
  apply andb_true_iff in E as [E E4]. apply andb_true_iff in E as [E E3].
  apply andb_true_iff in E as [E1 E2]. by split.
Qed.

Lemma parse_lines_grows ls pages d pages' d' :
  parse_lines ls pages d = Ok (pages', d') → (length pages ≤ length pages')%nat.
Proof.
  revert pages d. induction ls as [|l ls IH]; intros pages d; cbn [parse_lines].
  { by intros [= -> _]. }
  destruct (strip_prefix (chars "File has ") _) as [rest|].
  { destruct (parse_u32 _); [apply IH|done]. }
  destruct (strip_prefix (chars "Page ") _) as [rest|]; [|apply IH].
  destruct (split_once _ _) as [[number after]|]; [|apply IH].
  destruct (parse_page_line _ _) as [p|]; [|done].
  destruct (_ =? _); [|done]. intros Hr. apply IH in Hr. rewrite length_app in Hr. lia.
Qed.

Lemma parse_lines_ok ls pages d pages' d' :
  parse_lines ls pages d = Ok (pages', d') → numbered pages → Forall page_ok pages →
  Z.of_nat (length pages') < 2 ^ 32 →
  (length pages ≤ length pages')%nat ∧ numbered pages' ∧ Forall page_ok pages'.
Proof.
  revert pages d. induction ls as [|l ls IH]; intros pages d; cbn [parse_lines].
  { by intros [= -> _]. }
  destruct (strip_prefix (chars "File has ") _) as [rest|].
  { destruct (parse_u32 _); [|done]. intros Hr Hn Hp Hl. by eapply IH. }
  destruct (strip_prefix (chars "Page ") _) as [rest|]; [|apply IH].
  destruct (split_once _ _) as [[number after]|]; [|apply IH].
  destruct (parse_page_line _ _) as [p|] eqn:E; [|done]. apply parse_page_line_ok in E.
  destruct (Z.eqb_spec (pg_number p) (as_u32 (Z.of_nat (length pages)) + 1)) as [Hp|]; [|done].
  intros Hr Hn Hok Hl.
  pose proof (parse_lines_grows _ _ _ _ _ Hr) as Hlen. rewrite length_app in Hlen. simpl in Hlen.
  destruct (IH _ _ Hr) as (H1 & H2 & H3).
  - unfold numbered in *. rewrite map_app, Hn, length_app. cbn [map length].
    rewrite Hp, as_u32_id by lia. rewrite Nat2Z.inj_add, seqZ_app by lia. f_equal.
    rewrite seqZ_cons by done. cbn. f_equal. lia.
  - apply Forall_app. split; [done|]. by constructor.
  - done.
  - split; [lia|done].
Qed.

Lemma parse_pdfinfo_ok out pages :
  parse_pdfinfo out = Ok pages → Z.of_nat (length pages) < 2 ^ 32 →
  pages ≠ [] ∧ numbered pages ∧ Forall page_ok pages.
Proof.
  unfold parse_pdfinfo. destruct (parse_lines _ _ _) as [[ps d]|] eqn:E; [|done].
  intros Hr Hl. assert (ps ≠ [] ∧ pages = ps) as [Hne ->].
  { destruct ps; [done|]. destruct d; [case_match; [|done]|]; by injection Hr as <-. }
  destruct (parse_lines_ok _ _ _ _ _ E) as (_ & H2 & H3); try done.
Qed.
End reading.

(** The run of a group of numbered pages spans exactly their numbers. *)
Lemma numbered_app a b : numbered (a ++ b) → map pg_number b = seqZ (1 + Z.of_nat (length a)) (Z.of_nat (length b)).
Proof.
  unfold numbered. rewrite map_app, length_app, Nat2Z.inj_add, seqZ_app by lia.
  intros E. apply app_inj_1 in E as [_ E]; [done|]. rewrite length_map, length_seqZ. lia.
Qed.

(** ** The runs merged are the document *)

(** The pages Ghostscript renders for [-dFirstPage] and [-dLastPage] of a run. *)
Definition run_pages (pages : list PageGeometry) (run : RenderRun) : list PageGeometry :=
  List.filter (λ p, (first_page run <=? pg_number p) && (pg_number p <=? last_page run)) pages.

Lemma filter_all {A} (f : A → bool) l : (∀ x, In x l → f x = true) → List.filter f l = l.
Proof. induction l as [|a l IH]; simpl; intros Hf; [done|]. rewrite (Hf a) by auto. f_equal. auto. Qed.
Lemma filter_none {A} (f : A → bool) l : (∀ x, In x l → f x = false) → List.filter f l = [].
Proof. induction l as [|a l IH]; simpl; intros Hf; [done|]. rewrite (Hf a) by auto. auto. Qed.

Lemma numbers_in s n l x : map pg_number l = seqZ s n → In x l → s ≤ pg_number x < s + n.
Proof. intros E Hx. apply elem_of_seqZ. rewrite <- E. apply list_elem_of_In. by apply in_map. Qed.

Lemma list_last_cons {A} (l : list A) x d : List.last (x :: l) d = List.last l x.
Proof.
  revert x d. induction l as [|a l IH]; intros x d; [done|].
  change (List.last (a :: l) d = List.last (a :: l) x). by rewrite !IH.
Qed.
Lemma last_number p rest s :
  map pg_number (p :: rest) = seqZ s (Z.of_nat (length (p :: rest))) →
  pg_number p = s ∧ pg_number (List.last rest p) = s + Z.of_nat (length rest).
Proof.
  revert p s. induction rest as [|q rest IH]; intros p s E.
  - simpl in E. rewrite seqZ_cons in E by lia. injection E as E. simpl. lia.
  - cbn [map length] in E. rewrite seqZ_cons in E by lia. injection E as E1 E2. split; [done|].
    replace (Z.pred (Z.of_nat (S (S (length rest))))) with (Z.of_nat (length (q :: rest))) in E2 by (simpl; lia).
    assert (map pg_number (q :: rest) = seqZ (Z.succ s) (Z.of_nat (length (q :: rest)))) as E3
      by (cbn [map]; exact E2).
    destruct (IH q (Z.succ s) E3) as [_ Hl].
    assert (List.last (q :: rest) p = List.last rest q) as -> by apply list_last_cons.
    rewrite Hl. simpl. lia.
Qed.

Lemma run_pages_group before g after :
  numbered (before ++ group_pages g ++ after) →
  run_pages (before ++ group_pages g ++ after) (run_of g) = group_pages g.
Proof.
  intros Hn. set (a := Z.of_nat (length before)). set (n := Z.of_nat (length (group_pages g))).
  assert (map pg_number before = seqZ 1 a ∧ map pg_number (group_pages g) = seqZ (1 + a) n
          ∧ map pg_number after = seqZ (1 + a + n) (Z.of_nat (length after))) as (Hb & Hg & Ha).
  { unfold numbered in Hn. rewrite !map_app, !length_app, !Nat2Z.inj_add, !seqZ_app in Hn by lia.
    apply app_inj_1 in Hn as [Hb Hn]; [|rewrite length_map, length_seqZ; lia].
    apply app_inj_1 in Hn as [Hg Hn]; [|rewrite length_map, length_seqZ; lia]. done. }
  destruct (last_number (fst g) (snd g) (1 + a) Hg) as [H1 H2].
  unfold run_pages, run_of. cbn [first_page last_page]. rewrite H1, H2, !List.filter_app.
  assert (n = 1 + Z.of_nat (length (snd g))) as Hlen by (unfold n, group_pages; simpl; lia).
  rewrite (filter_none _ before), (filter_none _ after), filter_all.
  - by rewrite app_nil_r.
  - intros x Hx. apply (numbers_in _ _ _ _ Hg) in Hx. apply andb_true_iff. split; apply Z.leb_le; lia.
  - intros x Hx. apply (numbers_in _ _ _ _ Ha) in Hx. apply andb_false_iff. right. apply Z.leb_gt. lia.
  - intros x Hx. apply (numbers_in _ _ _ _ Hb) in Hx. apply andb_false_iff. left. apply Z.leb_gt. lia.
Qed.

Lemma run_pages_groups gs pages before after :
  pages = before ++ concat (map group_pages gs) ++ after → numbered pages →
  map (run_pages pages) (map run_of gs) = map group_pages gs.
Proof.
  intros Hp Hn. revert before Hp. induction gs as [|g gs IH]; intros before Hp; [done|].
  cbn [map concat] in Hp |- *. f_equal.
  - rewrite Hp. rewrite <- !app_assoc in Hp |- *. apply run_pages_group. by rewrite <- Hp.
  - apply (IH (before ++ group_pages g)). by rewrite Hp, <- !app_assoc.
Qed.
