(* ===== verification/PrintBackend.v ===== *)
(** * Print back ends: outcomes, reports and the print task

    [src/crates/devbridge-client/src]: [print_backend.rs] (pages, the
    unconfirmed outcome, the report of a finished print, the choice of a back
    end) and [inflight.rs] (the registry of running prints and the outer
    timeout).  A back end is a computation on a [World]: the time, the events
    emitted so far with their times, the token's moment of cancellation, the
    files, and a log of what was sent out.  What the outside answers - HTTP,
    Ghostscript's processes, the file system's failures - is the interface
    [Outside]. *)

From Stdlib Require Import ZArith Ascii String.
From stdpp Require Import gmap.
From S2P Require Import Prelude RustStd Text Core.
#[local] Open Scope Z_scope.

(** ** [anyhow::Error] and [Unconfirmed] *)

Module Unconfirmed.
Record t := mk { detail : string }.

Definition after_acceptance (printer_job_id : Z) (why : string) : t :=
  mk ("printer accepted job-id=" +:+ z_to_string printer_job_id
        +:+ ", completion not confirmed (" +:+ why +:+ ") — not resent").
(** [cause] is [{cause:#}]. *)
Definition after_accepted_pages (failed_index pages : Z) (cause : string) : t :=
  let printed := if failed_index =? 1 then "page 1"
                 else "pages 1-" +:+ z_to_string failed_index in
  mk ("page " +:+ z_to_string (failed_index + 1) +:+ " of " +:+ z_to_string pages
        +:+ " failed after " +:+ printed +:+ " printed: " +:+ cause).
Definition after_outer_timeout (timeout_secs : Z) : t :=
  mk ("printer accepted the job, completion not confirmed (print task timed out after "
        +:+ z_to_string timeout_secs +:+ "s) — not resent").
End Unconfirmed.

(** An error is its chain of messages, outermost first; [marker] is the typed
    error behind it when that is an [Unconfirmed]. *)
Record AnyError := mkError { chain : list string; marker : option Unconfirmed.t }.
(** [anyhow!(..)], [Error::new(outcome)], [e.context(..)], [{e:#}] *)
Definition anyhow (msg : string) : AnyError := mkError [msg] None.
Definition error_new (u : Unconfirmed.t) : AnyError := mkError [Unconfirmed.detail u] (Some u).
Definition with_context (ctx : string) (e : AnyError) : AnyError := mkError (ctx :: chain e) (marker e).
Definition full_text (e : AnyError) : string := String.concat ": " (chain e).

(** [is_unconfirmed]: [downcast_ref] looks behind every context. *)
Definition is_unconfirmed {A} (r : result AnyError A) : bool :=
  match r with
  | Err e => match marker e with Some _ => true | None => false end
  | Ok _ => false
  end.

Record PrintReport := mkReport {
  pr_success : bool;
  pr_unconfirmed : bool;
  pr_error_detail : string;
  pr_printer_status : string;
  pr_local_state : JobState;
}.
Definition report_of (r : result AnyError unit) : PrintReport :=
  match r with
  | Ok _ =>
    {| pr_success := true; pr_unconfirmed := false; pr_error_detail := "";
       pr_printer_status := "delivered"; pr_local_state := Completed |}
  | Err e =>
    let unconfirmed := is_unconfirmed r in
    {| pr_success := false; pr_unconfirmed := unconfirmed; pr_error_detail := full_text e;
       pr_printer_status := if unconfirmed then "unconfirmed" else "error";
       pr_local_state := if unconfirmed then Unconfirmed else Failed |}
  end.

Definition print_timeout_error (timeout_secs : Z) (printer_accepted : bool) : AnyError :=
  if printer_accepted then error_new (Unconfirmed.after_outer_timeout timeout_secs)
  else anyhow ("print task timed out after " +:+ z_to_string timeout_secs
                 +:+ "s — backend or spooler hung").

(** ** Pages *)

Record PageOfJob := mkPage { page_index : Z; page_pages : Z }.
Definition failure_is_the_jobs (p : PageOfJob) : bool := page_index p =? 0.
Definition is_last (p : PageOfJob) : bool := page_index p + 1 =? page_pages p.
Definition printed_stage (p : PageOfJob) : PrintStage := if is_last p then SCompleted else SSent.
Definition printed_detail (p : PageOfJob) (display : string) : string :=
  if is_last p then display +:+ " confirmed printed"
  else display +:+ " confirmed page " +:+ z_to_string (page_index p + 1) +:+ " of "
         +:+ z_to_string (page_pages p) +:+ " printed".
Definition cancel_point (p : PageOfJob) : string :=
  if failure_is_the_jobs p then "before the first IPP page send" else "between IPP page sends".

Record PrintJobInfo := mkJobInfo {
  ji_job_id : string;
  ji_document_name : string;
  ji_copies : Z;
  ji_duplex : bool;
  ji_color : bool;
  ji_printer_name : string;
  ji_printer_display_name : option string;
}.
Definition display_of (j : PrintJobInfo) : string :=
  match ji_printer_display_name j with Some d => d | None => ji_printer_name j end.

(** ** The world a back end works in *)

(** One HTTP exchange: how long it took and the body, or the error's chain. *)
Record HttpAnswer := mkAnswer { latency : Z; answer : result (list string) bytes }.
(** One finished process. *)
Record ProcessOutput := mkOutput {
  p_success : bool;
  p_code : option Z;
  p_stdout : string;
  p_stderr : string;
  p_files : gmap string bytes → gmap string bytes;   (* run to its end *)
  p_killed : gmap string bytes → gmap string bytes;  (* killed before it *)
}.
(** Starting a program: refused, or how long it runs and what it does. *)
Definition ProcessRun : Type := result string (Z * ProcessOutput).

Class Outside `{Chrono} : Type := {
  utc : Z → DateTime;
  http : nat → HttpAnswer;
  http_client : nat → result (list string) unit;
  ghostscript : option string;   (* the executable [find_ghostscript] finds *)
  run_program : list string → nat → ProcessRun;
  fs_read_error : string → string;
  fs_create_error : string → option string;
}.

Record World `{Chrono} := mkWorld {
  now : Z;                                 (* milliseconds *)
  emitted : list (Z * PrintJobEvent);
  cancelled_at : option Z;
  files : gmap string bytes;
  requests : list (string * bytes);        (* POSTs sent, in order *)
  clients_built : nat;
  programs : list (list string);           (* processes started, in order *)
}.

Definition PM `{Chrono} (A : Type) : Type := M World AnyError A.

Section world.
Context `{Outside}.

Definition set_now (t : Z) (w : World) : World :=
  mkWorld _ t (emitted w) (cancelled_at w) (files w) (requests w) (clients_built w) (programs w).
Definition set_emitted (l : list (Z * PrintJobEvent)) (w : World) : World :=
  mkWorld _ (now w) l (cancelled_at w) (files w) (requests w) (clients_built w) (programs w).
Definition set_files (f : gmap string bytes) (w : World) : World :=
  mkWorld _ (now w) (emitted w) (cancelled_at w) f (requests w) (clients_built w) (programs w).
Definition set_requests (l : list (string * bytes)) (w : World) : World :=
  mkWorld _ (now w) (emitted w) (cancelled_at w) (files w) l (clients_built w) (programs w).
Definition set_clients (n : nat) (w : World) : World :=
  mkWorld _ (now w) (emitted w) (cancelled_at w) (files w) (requests w) n (programs w).
Definition set_programs (l : list (list string)) (w : World) : World :=
  mkWorld _ (now w) (emitted w) (cancelled_at w) (files w) (requests w) (clients_built w) l.
Definition set_cancelled (c : option Z) (w : World) : World :=
  mkWorld _ (now w) (emitted w) c (files w) (requests w) (clients_built w) (programs w).

(** The emitter all clones share: what it holds after the events so far. *)
Definition events_until (t : Z) (w : World) : list PrintJobEvent :=
  map snd (List.filter (λ e, fst e <=? t) (emitted w)).
Definition emitter_of (evs : list PrintJobEvent) : EventEmitter.t :=
  EventEmitter.emit_all evs EventEmitter.new.

Definition emit (e : PrintJobEvent) : PM unit :=
  modify (λ w, set_emitted (emitted w ++ [(now w, e)]) w).
Definition emit_ok (job_id : string) (stage : PrintStage) (detail : string) : PM unit :=
  t ← gets now; emit (event_ok (utc t) job_id stage detail).
Definition emit_fail (job_id : string) (stage : PrintStage) (detail : string) : PM unit :=
  t ← gets now; emit (event_fail (utc t) job_id stage detail).
Definition emit_verified (job_id method evidence : string) : PM unit :=
  t ← gets now; emit (event_verified (utc t) job_id method evidence).
(** A [fail] event that carries its verification. *)
Definition verified_failure (t : Z) (job_id : string) (stage : PrintStage) (detail method evidence : string)
    : PrintJobEvent :=
  let e := event_fail (utc t) job_id stage detail in
  {| ev_job_id := ev_job_id e; ev_requesting_user := ev_requesting_user e; ev_stage := ev_stage e;
     ev_success := ev_success e; ev_detail := ev_detail e; ev_verification_method := method;
     ev_verification_evidence := evidence; ev_timestamp := ev_timestamp e |}.

Definition is_cancelled : PM bool :=
  gets (λ w, match cancelled_at w with Some t => t <=? now w | None => false end).
Definition bail {A} (msg : string) : PM A := throw (anyhow msg).
Definition sleep (ms : Z) : PM unit := modify (λ w, set_now (now w + ms) w).

Definition bail_if_cancelled (job_id at_ : string) : PM unit :=
  c ← is_cancelled;
  if c : bool then
    let msg := "print cancelled by outer timeout (at: " +:+ at_ +:+ ")" in
    _ ← emit_fail job_id SFailed msg; bail msg
  else mret tt.

(** [std::fs::read], [remove_file] with its result ignored. *)
Definition fs_read (path : string) : PM bytes :=
  f ← gets files;
  match f !! path with
  | Some data => mret data
  | None => bail (fs_read_error path)
  end.
Definition fs_remove (path : string) : PM unit := modify (λ w, set_files (delete path (files w)) w).
Definition fs_create (path : string) (data : bytes) : PM unit :=
  modify (λ w, set_files (<[path := data]> (files w)) w).
(** [path.exists()], and the length [metadata] gives (0 on an error). *)
Definition fs_exists (path : string) : PM bool :=
  gets (λ w, match files w !! path with Some _ => true | None => false end).
Definition fs_len (path : string) : PM Z :=
  gets (λ w, match files w !! path with Some d => Z.of_nat (length d) | None => 0 end).
End world.

(** [trait PrintBackend] *)
Record Backend `{Chrono} := mkBackend {
  backend_name : string;
  print : PrintJobInfo → string → PM unit;
}.

(** ** [create_backend]: the choice *)

Inductive BackendChoice :=
| ChooseDirectIpp (address gs_device : string) (gs_resolution : Z) (tls : bool)
| ChooseDirectRaw (address gs_device : string) (gs_resolution : Z)
| ChoosePrintProxy (url : string)
| ChooseCups (target_printer : string)
| ChooseWindowsSpooler (target_printer : string)
| ChooseWindowsSpoolerRaw (target_printer : string).
Definition BACKEND_NAME : string := "windows_spooler_raw".

Definition create_backend (backend_type : string) (printer_address : option string)
    (ghostscript_device : string) (ghostscript_resolution : Z) (target_printer : string)
    (printer_tls : bool) (print_proxy_url : option string) : result AnyError BackendChoice :=
  if backend_type =t? "direct_ipp" then
    match printer_address with
    | Some a => Ok (ChooseDirectIpp a ghostscript_device ghostscript_resolution printer_tls)
    | None => Err (anyhow "direct_ipp requires printer_address")
    end
  else if backend_type =t? "direct_raw" then
    match printer_address with
    | Some a => Ok (ChooseDirectRaw a ghostscript_device ghostscript_resolution)
    | None => Err (anyhow "direct_raw requires printer_address")
    end
  else if backend_type =t? "print_proxy" then
    match print_proxy_url with
    | Some u => Ok (ChoosePrintProxy u)
    | None => Err (anyhow "print_proxy requires print_proxy_url")
    end
  else if backend_type =t? "cups" then Ok (ChooseCups target_printer)
  else if (backend_type =t? "windows_spooler") || (backend_type =t? "") then
    Ok (ChooseWindowsSpooler target_printer)
  else if backend_type =t? BACKEND_NAME then Ok (ChooseWindowsSpoolerRaw target_printer)
  else Err (anyhow ("unknown print_backend: " +:+ backend_type)).

(** ** [inflight.rs] *)

Module InFlightJobs.
(** The registry: the ids of the live print tasks. *)
Definition t : Type := gset string.
Definition contains (job_id : string) (s : t) : bool := bool_decide (job_id ∈ s).
(** [try_begin]: the set with the id, or [None] when it is there already. *)
Definition try_begin (job_id : string) (s : t) : option t :=
  if contains job_id s then None else Some ({[job_id]} ∪ s).
End InFlightJobs.

Inductive PrintDispatch :=
| DispatchCompleted (r : result AnyError unit)
| TimedOut
| DuplicateSuppressed.

Section task.
Context `{Outside}.

(** The blocking task: it runs to its end, whether or not somebody waits. *)
Record TaskRun := mkRun { run_result : result AnyError unit; run_world : World }.
Definition run_task (make_print : PM unit) (cancel_at : option Z) (w : World) : TaskRun :=
  let '(r, w') := make_print (set_cancelled cancel_at w) in {| run_result := r; run_world := w' |}.

End task.
