(* ===== verification/Ghostscript.v ===== *)
(** * The Ghostscript render

    [src/crates/devbridge-client/src/ghostscript.rs]: the child processes of
    one render, killed when the print's token is cancelled, the runs merged
    into one raster document, the page files collected.  A child is what
    [Outside] says of it: refused, or a running time and what it prints and
    writes.  [try_wait] and [kill] of our own child succeed. *)

From Stdlib Require Import ZArith Ascii String.
From stdpp Require Import gmap.
From S2P Require Import Prelude RustStd Text Floats Core RasterMerge PdfPages.
From S2P Require Import PrintBackend.
#[local] Open Scope Z_scope.

(** ** [std::path] on the paths of a spool directory *)

(** The directory with its separator, and the file name. *)
Fixpoint split_path (dir name : list Z) (cs : list Z) : list Z * list Z :=
  match cs with
  | [] => (dir, name)
  | c :: cs' => if c =? 47 then split_path (dir ++ name ++ [c]) [] cs' else split_path dir (name ++ [c]) cs'
  end.
(** [Path::file_stem]: up to the last dot that is not the first character. *)
Definition stem_of (name : list Z) : list Z :=
  match split_once [46] (rev name) with
  | Some (_, []) | None => name
  | Some (_, rev_stem) => rev rev_stem
  end.
Definition file_stem (path : string) : string := of_chars (stem_of (snd (split_path [] [] (chars path)))).
Definition parent_join (path name : string) : string :=
  of_chars (fst (split_path [] [] (chars path))) +:+ name.
Definition with_extension (path ext : string) : string :=
  parent_join path (file_stem path +:+ "." +:+ ext).

(** [{:03}] *)
Definition pad3 (n : Z) : string :=
  (if n <? 10 then "00" else if n <? 100 then "0" else "") +:+ z_to_string n.

Record RenderResult := mkRenderResult {
  rr_output_path : string;
  page_files : list string;
  pages : Z;
  output_size : Z;
  duration_ms : Z;
  device : string;
}.

Record GsCall := mkGsCall { gs_path : string; gs_job_id : string; gs_call_device : string }.
Record GsOutput := mkGsOutput { gs_success : bool; gs_code : option Z; gs_stdout : string; gs_stderr : string }.
Definition out_page_lines (out : GsOutput) : Z := page_lines (chars (gs_stdout out)) (chars (gs_stderr out)).

(** [finally m f]: what a destructor does however [m] ends. *)
Definition finally {St E A} (m : M St E A) (f : St → St) : M St E A :=
  λ s, let '(r, s') := m s in (r, f s').

Section render.
Context `{Outside} `{DebugText}.

Definition GS_CANCELLED : string := "Ghostscript render cancelled by outer print timeout".

(** Polling the child every 50 ms; [ends] is when it exits on its own. *)
Fixpoint wait_child (fuel : nat) (call : GsCall) (ends : Z) (out : ProcessOutput) : PM GsOutput :=
  match fuel with
  | O => bail "unreachable"
  | S fuel' =>
    c ← is_cancelled;
    if c : bool then
      _ ← modify (λ w, set_files (p_killed out (files w)) w);
      _ ← emit_fail (gs_job_id call) SFailed GS_CANCELLED;
      bail GS_CANCELLED
    else
      t ← gets now;
      if ends <=? t then
        _ ← modify (λ w, set_files (p_files out (files w)) w);
        mret {| gs_success := p_success out; gs_code := p_code out;
                gs_stdout := p_stdout out; gs_stderr := p_stderr out |}
      else _ ← sleep 50; wait_child fuel' call ends out
  end.
Definition wait_fuel (d : Z) : nat := Z.to_nat (d / 50 + 2).

Definition run_gs (call : GsCall) (args : list string) (input : string) : PM GsOutput :=
  w ← gets id;
  let command := gs_path call :: args ++ [input] in
  match run_program command (length (programs w)) with
  | Err e => bail e
  | Ok (d, out) =>
    _ ← modify (λ w, set_programs (programs w ++ [command]) w);
    wait_child (wait_fuel d) call (now w + d) out
  end.

Definition fail_unless_success (call : GsCall) (out : GsOutput) : PM unit :=
  if gs_success out then mret tt
  else
    let detail := "Ghostscript exit code " +:+ z_to_string (default (-1) (gs_code out)) +:+ ": "
                    +:+ of_chars (last_message (chars (gs_stderr out)) (chars (gs_stdout out))) in
    _ ← emit_fail (gs_job_id call) SFailed detail; bail detail.

Definition PDFINFO_ARGS : list string :=
  ["-dNODISPLAY"; "-dNOPAUSE"; "-dBATCH"; "-dSAFER"; "-q"; "-dPDFINFO"].
Definition read_orientation (call : GsCall) (pdf_path : string) (kind : RasterKind) : PM Orientation :=
  r ← attempt (run_gs call PDFINFO_ARGS pdf_path);
  match r with
  | Ok out => mret (from_pdfinfo kind (gs_success out) (gs_code out) (gs_stdout out) (gs_stderr out))
  | Err e =>
    c ← is_cancelled;
    if c : bool then throw e else mret (Unknown ("gs -dPDFINFO: " +:+ full_text e))
  end.

(** [merge_files]: the inputs opened, the output created, [merge].  What a
    failed merge has written by then: URF's magic when the counts overflow. *)
Fixpoint open_all (paths : list string) (f : gmap string bytes) : result AnyError (list bytes) :=
  match paths with
  | [] => Ok []
  | p :: paths' =>
    match f !! p with
    | None => Err (with_context ("open " +:+ p) (anyhow (fs_read_error p)))
    | Some d => match open_all paths' f with Ok l => Ok (d :: l) | Err e => Err e end
    end
  end.
Definition merge_leftover (kind : RasterKind) (inputs : list bytes) : bytes :=
  match inputs, read_headers kind 0 inputs [] [] with
  | _ :: _, Ok _ => magic kind
  | _, _ => []
  end.
Definition merge_files (kind : RasterKind) (paths : list string) (output_path : string) : PM Z :=
  f ← gets files;
  match open_all paths f with
  | Err e => throw e
  | Ok inputs =>
    match fs_create_error output_path with
    | Some e => throw (with_context ("create " +:+ output_path) (anyhow e))
    | None =>
      match merge kind inputs with
      | Ok data => _ ← fs_create output_path data; mret (Z.of_nat (length data))
      | Err e => _ ← fs_create output_path (merge_leftover kind inputs); throw (mkError e None)
      end
    end
  end.

Definition run_file (output_path : string) (k : nat) : string :=
  with_extension output_path ("run" +:+ z_to_string (Z.of_nat k)).

Fixpoint render_each (call : GsCall) (base_args : list string) (pdf_path : string)
    (runs : list (RenderRun * string)) (lines_so_far : Z) : PM Z :=
  match runs with
  | [] => mret lines_so_far
  | (run, file) :: runs' =>
    out ← run_gs call (base_args ++ run_args run false ++ ["-sOutputFile=" +:+ file]) pdf_path;
    _ ← fail_unless_success call out;
    render_each call base_args pdf_path runs' (as_u32 (lines_so_far + out_page_lines out))
  end.

Definition render_runs (call : GsCall) (base_args : list string) (pdf_path output_path : string)
    (kind : RasterKind) (runs : list RenderRun) : PM Z :=
  let run_files := map (run_file output_path) (seq 1 (length runs)) in
  finally
    (lines ← render_each call base_args pdf_path (zip runs run_files) 0;
     merged ← attempt (merge_files kind run_files output_path);
     match merged with
     | Ok _ => mret lines
     | Err e =>
       let detail := "merging the " +:+ z_to_string (Z.of_nat (length runs))
                       +:+ " Ghostscript runs failed: " +:+ full_text e in
       _ ← emit_fail (gs_job_id call) SFailed detail; bail detail
     end)
    (λ w, set_files (foldl (λ f p, delete p f) (files w) run_files) w).

(** The page files [stem-001.ext], ... as far as they exist; no more of them
    than there are files. *)
Fixpoint collect_pages (fuel : nat) (path_of : Z → string) (page_num : Z) (f : gmap string bytes)
    : list string * Z :=
  match fuel with
  | O => ([], 0)
  | S fuel' =>
    match f !! path_of page_num with
    | Some d =>
      let '(l, size) := collect_pages fuel' path_of (page_num + 1) f in
      (path_of page_num :: l, Z.of_nat (length d) + size)
    | None => ([], 0)
    end
  end.

(** [duration_ms as f64 / 1000.0], [output_size as f64 / (1024.0 * 1024.0)] *)
Definition rendered_detail (pages size ms : Z) (device suffix : string) : string :=
  z_to_string pages +:+ " pages, " +:+ fixed1 (f64_div (f64_of_Z size) (f64_of_Z (1024 * 1024)))
    +:+ "MB, " +:+ fixed1 (f64_div (f64_of_Z ms) (f64_of_Z 1000)) +:+ "s, device=" +:+ device +:+ suffix.

Definition NO_GHOSTSCRIPT : string :=
  "Ghostscript not found — install to C:\Program Files\DevBridge\ghostscript\bin\gswin64c.exe or add to PATH".

Definition render (pdf_path output_path device : string) (resolution : Z) (job_id : string)
    : PM RenderResult :=
  match ghostscript with
  | None => bail NO_GHOSTSCRIPT
  | Some gs_path =>
    let call := {| gs_path := gs_path; gs_job_id := job_id; gs_call_device := device |} in
    _ ← emit_ok job_id SRendering ("Ghostscript " +:+ device +:+ " " +:+ z_to_string resolution +:+ "dpi started");
    start ← gets now;
    let single_page_device := is_single_page_device device in
    let stem := file_stem output_path in
    let output_file_arg :=
      if single_page_device then parent_join output_path (stem +:+ "-%03d." +:+ page_file_ext device)
      else output_path in
    orientation ← match for_device device with
                  | Some kind => read_orientation call pdf_path kind
                  | None => mret NotApplicable
                  end;
    let base_args := ["-dNOPAUSE"; "-dBATCH"; "-dSAFER"; "-sDEVICE=" +:+ device;
                      "-r" +:+ z_to_string resolution] in
    lines ← match calls orientation with
            | Runs kind runs => render_runs call base_args pdf_path output_path kind runs
            | Single extra_args =>
              out ← run_gs call (base_args ++ extra_args ++ ["-sOutputFile=" +:+ output_file_arg]) pdf_path;
              _ ← fail_unless_success call out;
              mret (out_page_lines out)
            end;
    f ← gets files;
    collected ←
      (if single_page_device then
         let path_of n := parent_join output_path (stem +:+ "-" +:+ pad3 n +:+ "." +:+ page_file_ext device) in
         match collect_pages (size f) path_of 1 f with
         | ([], _) =>
           let detail := "Ghostscript produced no output pages" in
           _ ← emit_fail job_id SFailed detail; bail detail
         | found => mret found
         end
       else
         size ← fs_len output_path;
         if size =? 0 then
           let detail := "Ghostscript produced empty output file" in
           _ ← emit_fail job_id SFailed detail; bail detail
         else mret ([output_path], size));
    let '(page_files, output_size) := collected in
    let pages := page_count orientation lines (length page_files) in
    t ← gets now;
    let duration_ms := t - start in
    _ ← emit_ok job_id SRendered
          (rendered_detail pages output_size duration_ms device (event_suffix orientation));
    mret {| rr_output_path := List.hd output_path page_files; page_files := page_files; pages := pages;
            output_size := output_size; duration_ms := duration_ms; device := device |}
  end.

(** ** A child ends, or is killed within a tick of the cancellation *)

Definition cancelled_by (t : Z) (w : World) : bool :=
  match cancelled_at w with Some c => c <=? t | None => false end.
(** The first tick at which the waiting may end. *)
Definition first_tick (start ends t : Z) (w : World) : Prop :=
  start ≤ t ∧ (cancelled_by t w = true ∨ ends ≤ t) ∧
  (t = start ∨ (t - 50 < ends ∧ cancelled_by (t - 50) w = false)).
Definition child_result (t : Z) (out : ProcessOutput) (w : World) : result AnyError GsOutput :=
  if cancelled_by t w then Err (anyhow GS_CANCELLED)
  else Ok {| gs_success := p_success out; gs_code := p_code out;
             gs_stdout := p_stdout out; gs_stderr := p_stderr out |}.

Lemma wait_child_run fuel call ends out w r w' :
  ends - now w ≤ 50 * Z.of_nat fuel → wait_child (S fuel) call ends out w = (r, w') →
  first_tick (now w) ends (now w') w ∧ r = child_result (now w') out w ∧
  files w' = (if cancelled_by (now w') w then p_killed out else p_files out) (files w) ∧
  requests w' = requests w.
Proof.
  revert w. induction fuel as [|fuel IH]; intros w Hf E.
  all: cbn [wait_child] in E; unfold is_cancelled in E; cbv [mbind M_bind gets] in E.
  all: unfold first_tick, child_result, cancelled_by.
  all: destruct (match cancelled_at w with Some _ => _ | None => false end) eqn:Ec;
    [injection E as <- <-; simpl; rewrite !Ec; repeat split; try lia; by left|].
  all: destruct (Z.leb_spec ends (now w)) as [He|He];
    [injection E as <- <-; simpl; rewrite !Ec; repeat split; try lia; by right|].
  - exfalso. lia.
  - set (w1 := set_now (now w + 50) w).
    destruct (IH w1 ltac:(simpl; lia) E) as ((Ht & Hc & Hf') & Hr & Hfi & Hq).
    unfold cancelled_by in Hc, Hf', Hfi. simpl in Ht, Hc, Hf', Hfi, Hq.
    split; [|done]. split; [lia|]. split; [done|]. right. destruct Hf' as [-> |?]; [|done].
    replace (now w + 50 - 50) with (now w) by lia. split; [lia|done].
Qed.

(** [run_gs]: the child of [command] that runs for [d]. *)
Lemma run_gs_run call args input w d out r w' :
  run_program (gs_path call :: args ++ [input]) (length (programs w)) = Ok (d, out) → 0 ≤ d →
  run_gs call args input w = (r, w') →
  first_tick (now w) (now w + d) (now w') w ∧ r = child_result (now w') out w ∧
  files w' = (if cancelled_by (now w') w then p_killed out else p_files out) (files w).
Proof.
  intros Hrun Hd E. unfold run_gs in E. cbv [mbind M_bind gets modify] in E. simpl in E. rewrite Hrun in E.
  pose proof (Z.div_pos d 50). pose proof (Z.mod_pos_bound d 50). pose proof (Z.div_mod d 50).
  assert (wait_fuel d = S (Z.to_nat (d / 50 + 1))) as Hf.
  { unfold wait_fuel. rewrite <- Z2Nat.inj_succ by lia. f_equal. lia. }
  rewrite Hf in E. apply wait_child_run in E as (Ht & Hr & Hf' & _); [done|]. simpl. lia.
Qed.
End render.

Example with_extension_replaces : with_extension "/spool/job-1.pdf" "pwg" = "/spool/job-1.pwg".
Proof. reflexivity. Qed.
Example with_extension_appends : with_extension "/sp.ool/.job" "run12" = "/sp.ool/.job.run12".
Proof. reflexivity. Qed.
