(* ===== verification/DirectIpp.v ===== *)
(** * The direct IPP back end

    [src/crates/devbridge-client/src/backend_direct_ipp.rs]: render, send every
    page file as one Print-Job, poll each accepted job to its final state.
    Every HTTP exchange takes the time [Outside] gives it; the clients'
    timeouts bound that time and are part of it. *)

From Stdlib Require Import ZArith Ascii String.
From stdpp Require Import gmap.
From S2P Require Import Prelude RustStd Text Floats Core RasterMerge PdfPages.
From S2P Require Import IppCodec PrintBackend Ghostscript.
#[local] Open Scope Z_scope.

Definition POLL_TIMEOUT : Z := 60000.

Definition gs_device_to_ipp_mime (gs_device : string) : string :=
  if text_in gs_device ["urfrgb"; "urfcmyk"; "urfgray"] then "image/urf"
  else if text_in gs_device ["pclm"; "pclm8"] then "application/PCLm"
  else if text_in gs_device ["jpeg"; "jpeggray"; "jpegcmyk"] then "image/jpeg"
  else if text_in gs_device ["png16m"; "pnggray"; "pngmono"; "pngalpha"] then "image/png"
  else if text_in gs_device ["tiffg3"; "tiffg4"; "tiff24nc"; "tiff32nc"; "tiffgray"] then "image/tiff"
  else if text_in gs_device ["bmp256"; "bmp16m"; "bmpmono"; "bmpgray"] then "image/bmp"
  else if gs_device =t? "pdfwrite" then "application/pdf"
  else if text_in gs_device ["ps2write"; "pswrite"] then "application/postscript"
  else if text_in gs_device ["pxlmono"; "pxlcolor"] then "application/vnd.hp-PCLXL"
  else if text_in gs_device ["ljet4"; "ljet4d"; "ljet2p"; "laserjet"; "cljet5"; "cljet5c"; "cljet5pr";
                             "pcl5e"; "pcl5c"] then "application/vnd.hp-PCL"
  else "image/pwg-raster".

Record DirectIpp := mkDirectIpp {
  address : string;
  gs_device : string;
  gs_resolution : Z;
  use_tls : bool;
  poll_timeout : Z;
}.
Definition DirectIpp_new (address gs_device : string) (gs_resolution : Z) (use_tls : bool) : DirectIpp :=
  {| address := address; gs_device := gs_device; gs_resolution := gs_resolution; use_tls := use_tls;
     poll_timeout := POLL_TIMEOUT |}.

Definition has_char (c : Z) (s : string) : bool := existsb (Z.eqb c) (chars s).
Definition normalized_address (d : DirectIpp) : string :=
  if has_char 58 (address d) || has_char 47 (address d) then address d
  else address d +:+ ":631".
Definition address_uri (scheme : string) (d : DirectIpp) : string :=
  let addr := normalized_address d in
  if has_char 47 addr then scheme +:+ "://" +:+ addr else scheme +:+ "://" +:+ addr +:+ "/ipp/print".
Definition ipp_url (d : DirectIpp) : string := address_uri (if use_tls d then "https" else "http") d.
Definition printer_uri (d : DirectIpp) : string := address_uri (if use_tls d then "ipps" else "ipp") d.

(** [as_i32().unwrap_or(0)] of an attribute, [as_str().unwrap_or("none")] *)
Definition int_attribute (r : IppResponse) (name : string) : Z :=
  match get r name with Some a => default 0 (as_i32 a) | None => 0 end.
Definition text_attribute (r : IppResponse) (name : string) : string :=
  match get r name with Some a => default "none" (as_str a) | None => "none" end.

Section backend.
Context `{Outside} `{DebugText}.

(** [PageEvents]: the page's failure events are the job's only on page 0. *)
Definition failure (page : PageOfJob) (event : PrintJobEvent) : PM unit :=
  if failure_is_the_jobs page then emit event else mret tt.

(** [http_client]: building one, never sending. *)
Definition build_client : PM unit :=
  n ← gets clients_built;
  _ ← modify (set_clients (S n));
  match http_client n with
  | Ok _ => mret tt
  | Err e => throw (mkError e None)
  end.

Definition post_ipp (url : string) (body : bytes) : PM bytes :=
  n ← gets (λ w, length (requests w));
  _ ← modify (λ w, set_requests (requests w ++ [(url, body)]) w);
  _ ← sleep (latency (http n));
  match answer (http n) with
  | Ok data => mret data
  | Err e => throw (mkError e None)
  end.

(** [fail_with_cause], [unconfirmed_event], [unconfirmed], as the closures
    [fail] and [lost] use them: the event, then the error. *)
Definition fail_with_cause {A} (page : PageOfJob) (job_id address what : string) (err : AnyError) : PM A :=
  t ← gets now;
  _ ← failure page (event_fail (utc t) job_id SFailed
        (what +:+ " (" +:+ address +:+ "): " +:+ full_text err));
  throw (with_context (what +:+ " (" +:+ address +:+ ")") err).
Definition unconfirmed_event (t : Z) (job_id : string) (outcome : Unconfirmed.t) : PrintJobEvent :=
  verified_failure t job_id SUnconfirmed (Unconfirmed.detail outcome) "ipp_job_state"
    (Unconfirmed.detail outcome).
Definition unconfirmed {A} (page : PageOfJob) (job_id : string) (printer_job_id : Z) (why : string) : PM A :=
  let outcome := Unconfirmed.after_acceptance printer_job_id why in
  t ← gets now;
  _ ← failure page (unconfirmed_event t job_id outcome);
  throw (error_new outcome).

(** The tick of [poll_job_completion] once the printer's answer is read: the
    end of the loop, or go on. *)
Definition poll_verdict (d : DirectIpp) (printer_job_id : Z) (job_id display : string)
    (page : PageOfJob) (deadline : Z) (ipp_resp : IppResponse) (go_on : Z → PM unit) : PM unit :=
  let lost why := unconfirmed page job_id printer_job_id why in
  if status_code ipp_resp =? CLIENT_ERROR_NOT_FOUND then
    lost ("the printer no longer knows job-id " +:+ z_to_string printer_job_id)
  else
    let job_state := int_attribute ipp_resp "job-state" in
    let state_reasons := text_attribute ipp_resp "job-state-reasons" in
    if job_state =? 9 then
      let evidence := "IPP job-state=9 (completed), job-id=" +:+ z_to_string printer_job_id in
      _ ← emit_verified job_id "ipp_job_state" evidence;
      emit_ok job_id (printed_stage page) (printed_detail page display)
    else if (job_state =? 7) || (job_state =? 8) then
      let state_name := if job_state =? 7 then "canceled" else "aborted" in
      let evidence := "IPP job-state=" +:+ z_to_string job_state +:+ " (" +:+ state_name
                        +:+ "), job-id=" +:+ z_to_string printer_job_id +:+ ", reasons=" +:+ state_reasons in
      t ← gets now;
      _ ← failure page (verified_failure t job_id SFailed evidence "ipp_job_state" evidence);
      bail evidence
    else
      t ← gets now;
      if deadline <? t then
        lost ("no final job-state within " +:+ z_to_string (poll_timeout d / 1000) +:+ "s, last state="
                +:+ z_to_string job_state)
      else _ ← sleep 2000; go_on job_state.

Fixpoint poll_loop (fuel : nat) (d : DirectIpp) (printer_job_id : Z) (job_id display : string)
    (page : PageOfJob) (deadline request_id last_state : Z) : PM unit :=
  match fuel with
  | O => bail "unreachable"
  | S fuel' =>
    let lost {A} why : PM A := unconfirmed page job_id printer_job_id why in
    c ← is_cancelled;
    if c : bool then
      lost ("print cancelled by the outer timeout while polling, last state=" +:+ z_to_string last_state)
    else
      let request_id := as_u32 (request_id + 1) in
      body ← attempt (post_ipp (ipp_url d)
               (build_get_job_attributes_request (printer_uri d) (to_signed32 printer_job_id) request_id));
      match body with
      | Err e => lost ("Get-Job-Attributes poll failed: " +:+ full_text e)
      | Ok body =>
        match parse_response body with
        | Err e => lost ("Get-Job-Attributes response unreadable: " +:+ e)
        | Ok ipp_resp =>
          poll_verdict d printer_job_id job_id display page deadline ipp_resp
            (poll_loop fuel' d printer_job_id job_id display page deadline request_id)
        end
      end
  end.
(** A tick that goes on sleeps 2 s. *)
Definition poll_fuel (d : DirectIpp) : nat := Z.to_nat (poll_timeout d / 2000 + 2).

Definition poll_job_completion (d : DirectIpp) (printer_job_id accepted_state : Z)
    (job_id display : string) (page : PageOfJob) : PM unit :=
  _ ← build_client;
  t ← gets now;
  poll_loop (poll_fuel d) d printer_job_id job_id display page (t + poll_timeout d) 100 accepted_state.

(** The body of the Print-Job of one page. *)
Definition print_job_body (d : DirectIpp) (job : PrintJobInfo) (raster_data : bytes) : bytes :=
  build_print_job_request (printer_uri d) (gs_device_to_ipp_mime (gs_device d)) (ji_document_name job) 1
    (ji_copies job) ++ raster_data.

Definition send_ipp_job (d : DirectIpp) (job : PrintJobInfo) (output_path display : string)
    (page : PageOfJob) : PM unit :=
  raster_data ← fs_read output_path;
  _ ← emit_ok (ji_job_id job) SSending ("IPP Print-Job → " +:+ display +:+ " (" +:+ address d +:+ ")");
  _ ← build_client;
  resp_bytes ← attempt (post_ipp (ipp_url d) (print_job_body d job raster_data));
  match resp_bytes with
  | Err e => fail_with_cause page (ji_job_id job) (address d) "IPP Print-Job send failed" e
  | Ok resp_bytes =>
    match parse_response resp_bytes with
    | Err e =>
      fail_with_cause page (ji_job_id job) (address d) "IPP Print-Job response unreadable" (anyhow e)
    | Ok ipp_resp =>
      if negb (is_success ipp_resp) then
        let detail := "IPP error status: 0x" +:+ hex4 (status_code ipp_resp) in
        t ← gets now;
        _ ← failure page (event_fail (utc t) (ji_job_id job) SFailed detail);
        bail detail
      else
        let printer_job_id := as_u32 (int_attribute ipp_resp "job-id") in
        let job_state := int_attribute ipp_resp "job-state" in
        _ ← emit_ok (ji_job_id job) SAcknowledged
              (display +:+ " accepted job-id=" +:+ z_to_string printer_job_id +:+ ", processing");
        poll_job_completion d printer_job_id job_state (ji_job_id job) display page
    end
  end.

(** [send_pages]: the pages left, from index [i] of [pages]. *)
Definition page_cancelled (job_id : string) (page : PageOfJob) : PM unit :=
  if failure_is_the_jobs page then bail_if_cancelled job_id (cancel_point page)
  else
    c ← is_cancelled;
    if c : bool then bail ("print cancelled by outer timeout (at: " +:+ cancel_point page +:+ ")")
    else mret tt.
Fixpoint send_from (d : DirectIpp) (job : PrintJobInfo) (display : string) (pages i : Z)
    (page_files : list string) : PM unit :=
  match page_files with
  | [] => mret tt
  | page_file :: page_files' =>
    let page := {| page_index := i; page_pages := pages |} in
    sent ← attempt (_ ← page_cancelled (ji_job_id job) page; send_ipp_job d job page_file display page);
    match sent with
    | Ok _ => send_from d job display pages (i + 1) page_files'
    | Err e =>
      if failure_is_the_jobs page then throw e
      else
        let outcome := Unconfirmed.after_accepted_pages i pages (full_text e) in
        t ← gets now;
        _ ← emit (unconfirmed_event t (ji_job_id job) outcome);
        throw (error_new outcome)
    end
  end.
Definition send_pages (d : DirectIpp) (job : PrintJobInfo) (page_files : list string) (display : string)
    : PM unit :=
  send_from d job display (Z.of_nat (length page_files)) 0 page_files.

(** [DirectIpp::print] *)
Definition print_ipp (d : DirectIpp) (job : PrintJobInfo) (pdf_path : string) : PM unit :=
  let display := display_of job in
  let output_path := with_extension pdf_path "pwg" in
  render_result ← render pdf_path output_path (gs_device d) (gs_resolution d) (ji_job_id job);
  sent ← attempt (send_pages d job (page_files render_result) display);
  _ ← for_each (page_files render_result) fs_remove;
  _ ← fs_remove output_path;
  match sent with Ok _ => mret tt | Err e => throw e end.

Definition direct_ipp (d : DirectIpp) : Backend :=
  {| backend_name := "direct_ipp"; print := print_ipp d |}.
End backend.
