(* ===== verification/Receiver.v ===== *)
(** * The client's receiver: one job from the server

    [src/crates/devbridge-client/src/receiver.rs] (and [print_lock.rs],
    [format_size] of [devbridge-core/src/lib.rs]): record, download, print
    under the outer timeout, report.  The world is shared by all jobs of the
    client; a print task that outlived its timeout keeps the printer until its
    own end ([lock_free]) and its id stays registered ([tasks]).  Its effects
    are in the world at once; the clock tells when they happen. *)

From Stdlib Require Import ZArith Ascii String.
From stdpp Require Import gmap.
From S2P Require Import Prelude RustStd Text Floats Core Storage Queue.
From S2P Require Import Dispatch PrintBackend.
#[local] Open Scope Z_scope.

(** [format_size] of [devbridge_core] *)
Definition format_size (n : Z) : string :=
  if n <? 1024 then z_to_string n +:+ "B"
  else if n <? 1024 * 1024 then fixed1 (f64_div (f64_of_Z n) (f64_of_Z 1024)) +:+ "KB"
  else fixed1 (f64_div (f64_of_Z n) (f64_of_Z (1024 * 1024))) +:+ "MB".

(** [print_stage_to_proto_state], by the constructors of the wire enum. *)
Definition print_stage_to_proto_state (stage : PrintStage) : ProtoJobState :=
  match stage with
  | SReceived | SRouted => PQueued
  | SDownloading | SDownloaded => PDownloading
  | SRendering | SRendered => PRendering
  | SSending | SSent | SAcknowledged | SVerified => PSending
  | SCompleted => PCompleted
  | SFailed => PFailed
  | SUnconfirmed => PFailed
  | SRetrying => PQueued
  end.

(** The wire message [JobCompletion]: what the server reads of it and the rest. *)
Record Completion := mkClientCompletion {
  cp_body : JobCompletion;
  cp_pages_printed : Z;
  cp_printer_status : string;
  cp_spooler_status : string;
}.

(** The server, the hash and the JSON text as the receiver meets them. *)
Class Link `{Chrono} : Type := {
  fetch : string → Z → list bytes * option (list string);
  sha256_hex : bytes → string;
  from_timestamp : Z → Z → option DateTime;
  event_to_json : PrintJobEvent → string;
}.

Record Client `{Chrono} := mkReceiverState {
  world : World;
  lock_free : Z;                      (* when the print lock is free *)
  tasks : list (string * Z);          (* every print task and its end *)
  local_queue : option JobQueue;
  updates : list JobStatusUpdate;     (* handed to the status stream *)
  completions : list Completion;      (* sent to the server *)
}.
Definition CM `{Chrono} (A : Type) : Type := M Client AnyError A.

Record Receiver := mkReceiver {
  machine_id : string;
  print_backend : string;
  printer_address : option string;
  ghostscript_device : string;
  ghostscript_resolution : Z;
  printer_tls : bool;
  printer_display_name : option string;
  print_proxy_url : option string;
  print_timeout_secs : Z;
}.

Section receiver.
Context `{Outside} `{!Link}.

Definition set_world (w : World) (c : Client) : Client :=
  mkReceiverState _ w (lock_free c) (tasks c) (local_queue c) (updates c) (completions c).
Definition set_lock_free (t : Z) (c : Client) : Client :=
  mkReceiverState _ (world c) t (tasks c) (local_queue c) (updates c) (completions c).
Definition set_tasks (l : list (string * Z)) (c : Client) : Client :=
  mkReceiverState _ (world c) (lock_free c) l (local_queue c) (updates c) (completions c).
Definition set_local_queue (q : option JobQueue) (c : Client) : Client :=
  mkReceiverState _ (world c) (lock_free c) (tasks c) q (updates c) (completions c).
Definition set_updates (l : list JobStatusUpdate) (c : Client) : Client :=
  mkReceiverState _ (world c) (lock_free c) (tasks c) (local_queue c) l (completions c).
Definition set_completions (l : list Completion) (c : Client) : Client :=
  mkReceiverState _ (world c) (lock_free c) (tasks c) (local_queue c) (updates c) l.

Definition on_world {A} (m : PM A) : CM A := zoom world set_world m.
(** [if let Some(q) = queue { let _ = q.op(); }] *)
Definition with_queue {A} (m : QM A) : CM unit :=
  modify (λ c, match local_queue c with
               | Some q => set_local_queue (Some (snd (m q))) c
               | None => c
               end).

(** The in-flight registry at time [t]: a guard is dropped when its task ends. *)
Definition registry (t : Z) (ts : list (string * Z)) : InFlightJobs.t :=
  list_to_set (map fst (List.filter (λ p, t <? snd p) ts)).

(** One event of the persist task: stored, and streamed unless the server has
    its own. *)
Definition status_update (e : PrintJobEvent) : option JobStatusUpdate :=
  if bool_decide (ev_stage e = SReceived) || bool_decide (ev_stage e = SRouted) then None
  else Some {| su_job_id := ev_job_id e; su_state := print_stage_to_proto_state (ev_stage e);
               su_message := event_to_json e |}.
Definition persist_event (e : PrintJobEvent) : CM unit :=
  _ ← with_queue (insert_job_event e);
  match status_update e with
  | Some u => modify (λ c, set_updates (updates c ++ [u]) c)
  | None => mret tt
  end.
(** The persist task still runs when its 5 s are over: the emitter of the job
    holds a sender of the channel, so the channel is open until the job ends. *)
Definition wait_persist_task : CM unit := on_world (sleep 5000).

Definition job_to_metadata (now : DateTime) (job : PrintJob) (target_printer : string) : JobMetadata :=
  {| job_id := Dispatch.pj_job_id job; document_name := Dispatch.pj_document_name job;
     target_printer := target_printer; target_client_id := None;
     copies := Dispatch.pj_copies job; paper_size := pj_paper_size job; duplex := Dispatch.pj_duplex job;
     color := Dispatch.pj_color job; payload_size := pj_payload_size job;
     payload_sha256 := pj_payload_sha256 job; state := Downloading; retry_count := pj_retry_count job;
     error_detail := ""; requesting_user := None;
     created_at := default now (from_timestamp (fst (pj_created_at job)) (snd (pj_created_at job)));
     updated_at := now |}.

(** ** [download_payload] *)

Definition append_file (path : string) (data : bytes) : PM unit :=
  modify (λ w, set_files (<[path := default [] (files w !! path) ++ data]> (files w)) w).
Definition download_payload (job_id expected_sha256 dest : string) : PM unit :=
  existing_size ← fs_len dest;
  f ← gets files;
  let existing := if 0 <? existing_size then default [] (f !! dest) else [] in
  _ ← (if 0 <? existing_size then mret tt else fs_create dest []);
  let '(chunks, ended) := fetch job_id existing_size in
  _ ← for_each chunks (append_file dest);
  match ended with
  | Some e => throw (mkError e None)
  | None =>
    let actual_sha256 := sha256_hex (existing ++ concat chunks) in
    if actual_sha256 =t? expected_sha256 then mret tt
    else
      _ ← fs_remove dest;
      bail ("SHA256 mismatch: expected " +:+ expected_sha256 +:+ ", got " +:+ actual_sha256)
  end.

(** ** The print task of a job *)

Section job.
(** The trait objects [create_backend] makes, by its choice. *)
Variable backends : BackendChoice → Backend.

Definition job_info (r : Receiver) (job : PrintJob) (printer : string) : PrintJobInfo :=
  {| ji_job_id := Dispatch.pj_job_id job; ji_document_name := Dispatch.pj_document_name job;
     ji_copies := Dispatch.pj_copies job; ji_duplex := false; ji_color := true;
     ji_printer_name := printer; ji_printer_display_name := printer_display_name r |}.
Definition make_print (r : Receiver) (job : PrintJob) (printer dest : string) : PM unit :=
  match create_backend (print_backend r) (printer_address r) (ghostscript_device r)
          (ghostscript_resolution r) printer (printer_tls r) (print_proxy_url r) with
  | Err e => throw e
  | Ok choice => print (backends choice) (job_info r job printer) dest
  end.

Definition DUPLICATE : string :=
  "duplicate print suppressed — prior task for this job_id still in flight".

(** [run_print_task_with_timeout] and the match on what it gives.  The task
    waits for the print lock; when the timeout fires first, the token is
    cancelled and the task goes on without us. *)
Definition run_print_task_with_timeout (timeout : Z) (job_id : string) (m : PM unit) : CM PrintDispatch :=
  c ← gets id;
  let start := now (world c) in
  match InFlightJobs.try_begin job_id (registry start (tasks c)) with
  | None => mret DuplicateSuppressed
  | Some _ =>
    let fires := start + timeout in
    let run := run_task m (Some fires) (set_now (Z.max start (lock_free c)) (world c)) in
    let ends := now (run_world run) in
    _ ← modify (λ c, set_tasks (tasks c ++ [(job_id, ends)]) (set_lock_free ends c));
    let seen := if ends <=? fires then DispatchCompleted (run_result run) else TimedOut in
    _ ← modify (set_world (set_now (Z.min ends fires) (run_world run)));
    mret seen
  end.
Definition print_result (timeout_secs : Z) (w : World) (seen : PrintDispatch) : result AnyError unit :=
  match seen with
  | DispatchCompleted r => r
  | TimedOut =>
    Err (print_timeout_error timeout_secs
           (EventEmitter.printer_accepted (emitter_of (events_until (now w) w))))
  | DuplicateSuppressed => Err (anyhow DUPLICATE)
  end.

(** ** The reports *)

Definition completion_of (r : Receiver) (job : PrintJob) (report : PrintReport)
    (verification : string * string) : Completion :=
  {| cp_body := {| jc_job_id := Dispatch.pj_job_id job; jc_success := pr_success report;
                   jc_error_detail := pr_error_detail report;
                   jc_verification_method := fst verification;
                   jc_verification_evidence := snd verification;
                   jc_client_id := machine_id r; jc_unconfirmed := pr_unconfirmed report |};
     cp_pages_printed := if pr_success report then Dispatch.pj_copies job else 0;
     cp_printer_status := pr_printer_status report; cp_spooler_status := print_backend r |}.
Definition download_failed (r : Receiver) (job : PrintJob) (e : AnyError) : Completion :=
  {| cp_body := {| jc_job_id := Dispatch.pj_job_id job; jc_success := false;
                   jc_error_detail := full_text e; jc_verification_method := "";
                   jc_verification_evidence := ""; jc_client_id := machine_id r;
                   jc_unconfirmed := false |};
     cp_pages_printed := 0; cp_printer_status := ""; cp_spooler_status := "download_failed" |}.
(** [client.complete_job(..)]: its own failure is only logged. *)
Definition send_completion (cp : Completion) : CM unit :=
  modify (λ c, set_completions (completions c ++ [cp]) c).

(** ** One turn of the job loop *)

Definition print_and_report (r : Receiver) (job : PrintJob) (printer dest : string) : CM unit :=
  let id := Dispatch.pj_job_id job in
  file_size ← on_world (fs_len dest);
  _ ← on_world (emit_ok id SDownloaded ("SHA256 verified (" +:+ format_size file_size +:+ ")"));
  _ ← with_queue (Queue.update_job_state id Printing);
  seen ← run_print_task_with_timeout (print_timeout_secs r * 1000) id (make_print r job printer dest);
  w ← gets world;
  let printed := print_result (print_timeout_secs r) w seen in
  _ ← wait_persist_task;
  let report := report_of printed in
  _ ← with_queue (Queue.update_job_state id (pr_local_state report));
  w ← gets world;
  let verification := EventEmitter.last_verification (emitter_of (events_until (now w) w)) in
  send_completion (completion_of r job report verification).

Definition handle_job (r : Receiver) (spool_path : string → string) (printer : string) (job : PrintJob)
    : CM unit :=
  let id := Dispatch.pj_job_id job in
  let dest := spool_path id in
  t ← gets (λ c, now (world c));
  _ ← with_queue (record_job (job_to_metadata (utc t) job printer) dest);
  _ ← on_world (modify (set_emitted []));
  _ ← on_world (emit_ok id SReceived ("Print job received (" +:+ format_size (pj_payload_size job) +:+ ")"));
  _ ← on_world (emit_ok id SRouted (Dispatch.pj_target_printer job +:+ " → " +:+ machine_id r));
  _ ← on_world (emit_ok id SDownloading "Client started payload download");
  downloaded ← attempt (on_world (download_payload id (pj_payload_sha256 job) dest));
  _ ← match downloaded with
      | Ok _ => print_and_report r job printer dest
      | Err e =>
        _ ← on_world (emit_fail id SFailed ("Download failed: " +:+ full_text e));
        _ ← wait_persist_task;
        _ ← with_queue (Queue.update_job_state id Failed);
        send_completion (download_failed r job e)
      end;
  evs ← gets (λ c, map snd (emitted (world c)));
  _ ← for_each evs persist_event;
  on_world (fs_remove dest).
End job.

(** ** The reconnect delays of [run] *)

(** After a connection that ended so: the delay slept, the next backoff. *)
Definition effective_delay (backoff : Z) : Z := Z.max backoff 1.
Definition next_backoff (reconnect_interval max_reconnect_interval backoff : Z) (graceful : bool) : Z * Z :=
  let backoff := if graceful then reconnect_interval else backoff in
  (effective_delay backoff, Z.min (backoff * 2) max_reconnect_interval).
End receiver.
