(* ===== verification/LabelTheory.v ===== *)
(** * Dots, rotation, crop and placement of a label

    What the bitmap operations do dot by dot, and from that where every dot of
    Odoo's PNG lands on the roll. *)

From Stdlib Require Import FunctionalExtensionality ZArith String.
From S2P Require Import Prelude RustStd Text Floats Label.
#[local] Open Scope Z_scope.

(** ** One byte, checked on all 256 of them *)

Definition black_bit (b : Byte.byte) (k : Z) : bool := Z.land (u8 b) (Z.shiftr 128 k) =? 0.
Definition clear_bit (b : Byte.byte) (k : Z) : Byte.byte :=
  as_u8 (Z.land (u8 b) (Z.lxor 255 (Z.shiftr 128 k))).

Lemma every_byte (P : Byte.byte → bool) b :
  forallb P (map as_u8 (seqZ 0 256)) = true → P b = true.
Proof.
  intros H. rewrite forallb_forall in H. apply H. rewrite <- (as_u8_u8 b). apply in_map.
  apply list_elem_of_In, elem_of_seqZ. pose proof (u8_range b). lia.
Qed.
Lemma every_bit (P : Z → bool) k : forallb P (seqZ 0 8) = true → 0 ≤ k < 8 → P k = true.
Proof.
  intros H Hk. rewrite forallb_forall in H. apply H. apply list_elem_of_In, elem_of_seqZ. lia.
Qed.

Lemma black_clear b k k' :
  0 ≤ k < 8 → 0 ≤ k' < 8 → black_bit (clear_bit b k) k' = (k =? k') || black_bit b k'.
Proof.
  intros Hk Hk'. apply eqb_prop.
  refine (every_bit (λ k', eqb (black_bit (clear_bit b k) k') ((k =? k') || black_bit b k')) k' _ Hk').
  refine (every_bit (λ k, forallb (λ k', eqb (black_bit (clear_bit b k) k')
            ((k =? k') || black_bit b k')) (seqZ 0 8)) k _ Hk).
  refine (every_byte (λ b, forallb (λ k, forallb (λ k', eqb (black_bit (clear_bit b k) k')
            ((k =? k') || black_bit b k')) (seqZ 0 8)) (seqZ 0 8)) b _).
  vm_compute. reflexivity.
Qed.
Lemma white_bit k : 0 ≤ k < 8 → black_bit Byte.xff k = false.
Proof.
  intros Hk. apply negb_true_iff.
  refine (every_bit (λ k, negb (black_bit Byte.xff k)) k _ Hk). reflexivity.
Qed.

(** ** Dots *)

Record wf_bitmap (b : MonoBitmap) : Prop := {
  wf_width : 0 ≤ width b;
  wf_height : 0 ≤ height b;
  wf_bytes : width_bytes b = div_ceil8 (width b);
  wf_data : length (data b) = Z.to_nat (width_bytes b * height b);
}.

(** A dot of the stored rows, padding included. *)
Definition in_rows (b : MonoBitmap) (x y : Z) : Prop := 0 ≤ x < 8 * width_bytes b ∧ 0 ≤ y < height b.

Lemma div_ceil8_spec w : 0 ≤ w → w ≤ 8 * div_ceil8 w < w + 8.
Proof. intros. unfold div_ceil8. pose proof (Z.div_mod (w + 7) 8). pose proof (Z.mod_pos_bound (w + 7) 8). lia. Qed.

Lemma in_width_rows b x y : wf_bitmap b → 0 ≤ x < width b → 0 ≤ y < height b → in_rows b x y.
Proof. intros [Hw _ Hb _] Hx Hy. pose proof (div_ceil8_spec _ Hw). split; lia. Qed.

Lemma dot_in_range b x y :
  wf_bitmap b → in_rows b x y → (fst (byte_and_mask b x y) < length (data b))%nat.
Proof.
  intros Hwf [Hx Hy]. destruct Hwf as [_ _ _ ->]. simpl.
  assert (x / 8 < width_bytes b) by (apply Z.div_lt_upper_bound; lia).
  assert (0 ≤ x / 8) by (apply Z.div_pos; lia). nia.
Qed.

Lemma is_black_bit b x y :
  is_black b x y = black_bit (nth (Z.to_nat (y * width_bytes b + x / 8)) (data b) Byte.xff) (x mod 8).
Proof. done. Qed.

Lemma blank_wf w h : 0 ≤ w → 0 ≤ h → wf_bitmap (blank w h).
Proof. intros. split; simpl; [done..|]. by rewrite length_replicate. Qed.
Lemma nth_replicate {A} n i (a : A) : nth i (replicate n a) a = a.
Proof. revert i. induction n as [|n IH]; intros [|i]; simpl; auto. Qed.
Lemma blank_white w h x y : is_black (blank w h) x y = false.
Proof.
  rewrite is_black_bit. simpl. rewrite nth_replicate. apply white_bit, Z.mod_pos_bound. lia.
Qed.

Lemma set_black_wf b x y : wf_bitmap b → wf_bitmap (set_black b x y).
Proof. intros [Hw Hh Hb Hd]. split; [done..|]. etrans; [apply length_insert|done]. Qed.

Lemma nth_insert (l : bytes) i j v d :
  (i < length l)%nat → nth j (<[i := v]> l) d = if bool_decide (i = j) then v else nth j l d.
Proof.
  revert i j. induction l as [|a l IH]; intros i j Hi; simpl in Hi; [lia|].
  destruct i as [|i], j as [|j]; simpl; try done; try (rewrite bool_decide_false by lia; done).
  - rewrite IH by lia. destruct (decide (i = j)); [rewrite !bool_decide_true by lia|rewrite !bool_decide_false by lia]; done.
Qed.

Lemma set_black_spec b x y x' y' :
  wf_bitmap b → in_rows b x y → in_rows b x' y' →
  is_black (set_black b x y) x' y' = bool_decide ((x, y) = (x', y')) || is_black b x' y'.
Proof.
  intros Hwf Hin Hin'. pose proof (dot_in_range b x y Hwf Hin) as Hr. simpl in Hr.
  destruct Hin as [Hx Hy], Hin' as [Hx' Hy'].
  rewrite !is_black_bit. simpl. rewrite nth_insert by done. fold (clear_bit (nth (Z.to_nat (y * width_bytes b + x / 8)) (data b) Byte.xff) (x mod 8)).
  pose proof (Z.mod_pos_bound x 8 ltac:(lia)) as Mx. pose proof (Z.mod_pos_bound x' 8 ltac:(lia)) as Mx'.
  pose proof (Z.div_mod x 8 ltac:(lia)) as Dx. pose proof (Z.div_mod x' 8 ltac:(lia)) as Dx'.
  assert (0 ≤ x / 8 < width_bytes b) by (split; [apply Z.div_pos; lia|apply Z.div_lt_upper_bound; lia]).
  assert (0 ≤ x' / 8 < width_bytes b) by (split; [apply Z.div_pos; lia|apply Z.div_lt_upper_bound; lia]).
  case_bool_decide as Hi.
  - apply Z2Nat.inj in Hi; [|nia..].
    destruct (Z.div_mod_unique (width_bytes b) y y' (x / 8) (x' / 8)) as [<- Hq]; [lia..|].
    rewrite <- Hi. rewrite black_clear by done. f_equal.
    destruct (Z.eqb_spec (x mod 8) (x' mod 8)); symmetry;
      [apply bool_decide_eq_true; f_equal; lia|apply bool_decide_eq_false; intros [=]; subst; done].
  - rewrite bool_decide_false; [done|]. intros [= <- <-]. done.
Qed.

(** ** Painting: a loop that blackens dots *)

Lemma elem_of_dots r p :
  p ∈ dots r ↔ x0 r ≤ fst p < x1 r ∧ y0 r ≤ snd p < y1 r.
Proof.
  unfold dots. rewrite list_elem_of_bind. destruct p as [x y]. simpl. split.
  - intros (y' & (x' & [= -> ->] & Hx%elem_of_seqZ)%list_elem_of_fmap & Hy%elem_of_seqZ). lia.
  - intros [Hx Hy]. exists y.
    split; [apply list_elem_of_fmap; exists x; split; [done|]|]; apply elem_of_seqZ; lia.
Qed.

Definition paint (c : Z * Z → bool) (f : Z * Z → Z * Z) (l : list (Z * Z)) (b : MonoBitmap) : MonoBitmap :=
  fold_left (λ out p, if c p then set_black out (fst (f p)) (snd (f p)) else out) l b.

Lemma paint_shape c f l b :
  width (paint c f l b) = width b ∧ height (paint c f l b) = height b ∧
  width_bytes (paint c f l b) = width_bytes b.
Proof.
  revert b. induction l as [|p l IH]; intros b; simpl; [done|].
  destruct (IH (if c p then set_black b (f p).1 (f p).2 else b)) as (-> & -> & ->).
  by destruct (c p).
Qed.

Lemma paint_wf c f l b : wf_bitmap b → wf_bitmap (paint c f l b).
Proof.
  revert b. induction l as [|p l IH]; intros b Hb; simpl; [done|].
  apply IH. destruct (c p); [by apply set_black_wf|done].
Qed.

Lemma paint_spec c f l b x y :
  wf_bitmap b → in_rows b x y →
  (∀ p, p ∈ l → c p = true → in_rows b (fst (f p)) (snd (f p))) →
  is_black (paint c f l b) x y
  = existsb (λ p, c p && bool_decide (f p = (x, y))) l || is_black b x y.
Proof.
  revert b. induction l as [|p l IH]; intros b Hb Hxy Hf; simpl; [done|].
  destruct (c p) eqn:Hc.
  - rewrite IH.
    + rewrite set_black_spec by (try apply Hf; auto; left).
      rewrite <- surjective_pairing. rewrite andb_true_l.
      destruct (bool_decide _), (existsb _ _); done.
    + by apply set_black_wf.
    + done.
    + intros q Hq Hcq. apply Hf; [by right|done].
  - rewrite IH; [done|done|done|]. intros q Hq Hcq. apply Hf; [by right|done].
Qed.

(** [paint] where [f] is undone by [g]: a dot is black exactly when the dot it
    comes from is painted. *)
Lemma paint_blank c f g r w h x y :
  0 ≤ w → 0 ≤ h → in_rows (blank w h) x y →
  (∀ p, p ∈ dots r → c p = true → in_rows (blank w h) (fst (f p)) (snd (f p))) →
  (∀ p, g (f p) = p) → (∀ p, f (g p) = p) →
  is_black (paint c f (dots r) (blank w h)) x y
  = bool_decide (g (x, y) ∈ dots r) && c (g (x, y)).
Proof.
  intros Hw Hh Hxy Hf Hgf Hfg. rewrite paint_spec by (try done; by apply blank_wf).
  rewrite blank_white, orb_false_r. apply eq_true_iff_eq.
  rewrite existsb_exists, andb_true_iff, bool_decide_eq_true. split.
  - intros (p & Hp%list_elem_of_In & [Hc Hq%bool_decide_eq_true]%andb_true_iff).
    rewrite <- Hq, Hgf. done.
  - intros [Hp Hc]. exists (g (x, y)). split; [by apply list_elem_of_In|].
    rewrite Hc, Hfg. by apply bool_decide_eq_true.
Qed.

(** Rows carry no ink beyond the width. *)
Definition clean (b : MonoBitmap) : Prop :=
  ∀ x y, in_rows b x y → is_black b x y = true → x < width b.

(** A dot of the picture: black and inside it. *)
Definition dot (b : MonoBitmap) (x y : Z) : bool :=
  (0 <=? x) && (x <? width b) && (0 <=? y) && (y <? height b) && is_black b x y.

Lemma dot_in b x y : 0 ≤ x < width b → 0 ≤ y < height b → dot b x y = is_black b x y.
Proof.
  intros [? ?] [? ?]. unfold dot.
  by rewrite !(proj2 (Z.leb_le _ _)), !(proj2 (Z.ltb_lt _ _)) by done.
Qed.
Lemma dot_true b x y : dot b x y = true → 0 ≤ x < width b ∧ 0 ≤ y < height b ∧ is_black b x y = true.
Proof. unfold dot. rewrite !andb_true_iff, !Z.leb_le, !Z.ltb_lt. tauto. Qed.
Lemma dot_out b x y : ¬ (0 ≤ x < width b ∧ 0 ≤ y < height b) → dot b x y = false.
Proof. intros H. apply not_true_is_false. intros (? & ? & _)%dot_true. tauto. Qed.

(** ** Rotation and crop *)

Lemma rotated_180_paint b :
  rotated_180 b = paint (λ p, is_black b (fst p) (snd p))
    (λ p, (width b - 1 - fst p, height b - 1 - snd p)) (dots (whole_of b)) (blank (width b) (height b)).
Proof. done. Qed.
Lemma crop_paint b r :
  crop b r = paint (λ p, is_black b (fst p) (snd p)) (λ p, (fst p - x0 r, snd p - y0 r)) (dots r)
    (blank (x1 r - x0 r) (y1 r - y0 r)).
Proof. done. Qed.

Lemma rotated_180_wf b : wf_bitmap b → wf_bitmap (rotated_180 b).
Proof. intros [? ? _ _]. rewrite rotated_180_paint. apply paint_wf, blank_wf; done. Qed.
Lemma rotated_180_shape b :
  width (rotated_180 b) = width b ∧ height (rotated_180 b) = height b ∧
  width_bytes (rotated_180 b) = div_ceil8 (width b).
Proof. rewrite rotated_180_paint. apply (paint_shape _ _ _ (blank _ _)). Qed.
Lemma crop_wf b r : x0 r ≤ x1 r → y0 r ≤ y1 r → wf_bitmap (crop b r).
Proof. intros. rewrite crop_paint. apply paint_wf, blank_wf; lia. Qed.
Lemma crop_shape b r :
  width (crop b r) = x1 r - x0 r ∧ height (crop b r) = y1 r - y0 r ∧
  width_bytes (crop b r) = div_ceil8 (x1 r - x0 r).
Proof. rewrite crop_paint. apply (paint_shape _ _ _ (blank _ _)). Qed.

Lemma rotated_180_black b x y :
  wf_bitmap b → in_rows (blank (width b) (height b)) x y →
  is_black (rotated_180 b) x y = dot b (width b - 1 - x) (height b - 1 - y).
Proof.
  intros Hwf Hxy. destruct (Hwf) as [Hw Hh _ _]. rewrite rotated_180_paint.
  rewrite paint_blank with (g := λ p, (width b - 1 - fst p, height b - 1 - snd p)); try done.
  - simpl. apply eq_true_iff_eq. rewrite andb_true_iff, bool_decide_eq_true, elem_of_dots. simpl.
    split; [intros [[? ?] ?]; by rewrite dot_in by lia|intros (? & ? & ?)%dot_true; split; [lia|done]].
  - intros p [? ?]%elem_of_dots _. simpl in *. apply in_width_rows; [by apply blank_wf|simpl; lia..].
  - intros [u v]. simpl. f_equal; lia.
  - intros [u v]. simpl. f_equal; lia.
Qed.

Lemma crop_black b r x y :
  wf_bitmap b → x0 r ≤ x1 r → y0 r ≤ y1 r →
  0 ≤ x0 r → x1 r ≤ width b → 0 ≤ y0 r → y1 r ≤ height b →
  in_rows (blank (x1 r - x0 r) (y1 r - y0 r)) x y →
  is_black (crop b r) x y
  = bool_decide (x < x1 r - x0 r ∧ y < y1 r - y0 r) && is_black b (x + x0 r) (y + y0 r).
Proof.
  intros Hwf Hx Hy ???? Hxy. rewrite crop_paint.
  rewrite paint_blank with (g := λ p, (fst p + x0 r, snd p + y0 r)); try done; try lia.
  - simpl. f_equal. apply bool_decide_ext. rewrite elem_of_dots. simpl. destruct Hxy. simpl in *. lia.
  - intros p [? ?]%elem_of_dots _. apply in_width_rows; [apply blank_wf; lia|simpl; lia..].
  - intros [u v]. simpl. f_equal; lia.
  - intros [u v]. simpl. f_equal; lia.
Qed.

Lemma rotated_180_dot b x y :
  wf_bitmap b → dot (rotated_180 b) x y = dot b (width b - 1 - x) (height b - 1 - y).
Proof.
  intros Hwf. destruct (rotated_180_shape b) as (Ew & Eh & _).
  destruct (decide (0 ≤ x < width b ∧ 0 ≤ y < height b)) as [[Hx Hy]|Hn].
  - rewrite (dot_in (rotated_180 b)) by lia. apply rotated_180_black; [done|].
    destruct Hwf. apply in_width_rows; [by apply blank_wf|done..].
  - rewrite !dot_out; [done|lia|rewrite Ew, Eh; lia].
Qed.

Lemma crop_dot b r x y :
  wf_bitmap b → x0 r ≤ x1 r → y0 r ≤ y1 r → 0 ≤ x0 r → x1 r ≤ width b → 0 ≤ y0 r → y1 r ≤ height b →
  dot (crop b r) x y
  = bool_decide (0 ≤ x < x1 r - x0 r ∧ 0 ≤ y < y1 r - y0 r) && dot b (x + x0 r) (y + y0 r).
Proof.
  intros Hwf ??????. destruct (crop_shape b r) as (Ew & Eh & _).
  case_bool_decide as Hin; simpl.
  - rewrite (dot_in (crop b r)) by lia. rewrite crop_black; try done.
    + rewrite bool_decide_true by lia. by rewrite dot_in by lia.
    + apply in_width_rows; [apply blank_wf; lia|simpl; lia..].
  - apply dot_out. rewrite Ew, Eh. done.
Qed.

Lemma rotated_180_clean b : wf_bitmap b → clean (rotated_180 b).
Proof.
  intros Hwf x y Hin Hb. destruct (rotated_180_shape b) as (Ew & Eh & Eb).
  rewrite rotated_180_black in Hb; [|done|].
  - apply dot_true in Hb. lia.
  - destruct Hin. split; simpl; [|lia]. rewrite Eb in *. done.
Qed.

(** ** The ink's bounding box *)

(** [o] is the least box around the points of [P]; [None] when there is none. *)
Definition least_box (o : option DotRect) (P : Z → Z → Prop) : Prop :=
  match o with
  | None => ∀ x y, ¬ P x y
  | Some r =>
    (∀ x y, P x y → x0 r ≤ x < x1 r ∧ y0 r ≤ y < y1 r)
    ∧ (∃ y, P (x0 r) y) ∧ (∃ y, P (x1 r - 1) y) ∧ (∃ x, P x (y0 r)) ∧ (∃ x, P x (y1 r - 1))
  end.

Lemma least_box_ext o P Q : (∀ x y, P x y ↔ Q x y) → least_box o P → least_box o Q.
Proof.
  intros H. destruct o as [r|]; simpl.
  - intros (H1 & (a & Ha) & (c & Hc) & (d & Hd) & (e & He)).
    split; [intros x y HQ; by apply H1, H|].
    split; [exists a; by apply H|]. split; [exists c; by apply H|].
    split; [exists d; by apply H|]. exists e; by apply H.
  - intros H1 x y HQ. by apply (H1 x y), H.
Qed.

Lemma bbox_add_least o P x y :
  least_box o P → least_box (bbox_add o (x, y)) (λ x' y', P x' y' ∨ (x', y') = (x, y)).
Proof.
  destruct o as [r|]; simpl.
  - intros (H1 & (a & Ha) & (c & Hc) & (d & Hd) & (e & He)).
    pose proof (H1 _ _ Ha). pose proof (H1 _ _ Hc). pose proof (H1 _ _ Hd). pose proof (H1 _ _ He).
    split; [intros x' y' [HP|[= -> ->]]; [specialize (H1 _ _ HP)|]; lia|].
    split_and!.
    + destruct (Z.min_spec (x0 r) x) as [[_ ->]|[_ ->]]; eauto.
    + destruct (Z.max_spec (x1 r) (x + 1)) as [[_ ->]|[_ ->]]; [rewrite Z.add_simpl_r|]; eauto.
    + destruct (Z.min_spec (y0 r) y) as [[_ ->]|[_ ->]]; eauto.
    + destruct (Z.max_spec (y1 r) (y + 1)) as [[_ ->]|[_ ->]]; [rewrite Z.add_simpl_r|]; eauto.
  - intros HN. rewrite !Z.add_simpl_r. split; [intros x' y' [HP|[= -> ->]]; [by apply HN in HP|lia]|].
    split_and!; eauto.
Qed.

Lemma bbox_fold_least (c : Z * Z → bool) l o P :
  least_box o P →
  least_box (fold_left (λ bbox p, if c p then bbox_add bbox p else bbox) l o)
    (λ x y, P x y ∨ (x, y) ∈ l ∧ c (x, y) = true).
Proof.
  revert o P. induction l as [|[u v] l IH]; intros o P HP; simpl.
  - eapply least_box_ext; [|done]. intros x y. rewrite elem_of_nil. tauto.
  - destruct (c (u, v)) eqn:Hc.
    + eapply least_box_ext; [|apply IH, bbox_add_least, HP]. intros x y. simpl.
      rewrite elem_of_cons. split.
      * intros [[?|E]|[? ?]]; [by left|right; rewrite E; split; [by left|done]|].
        right. split; [by right|done].
      * intros [?|[[E|?] ?]]; [by left; left|by left; right|by right].
    + eapply least_box_ext; [|apply IH, HP]. intros x y. simpl. rewrite elem_of_cons. split.
      * intros [?|[? ?]]; [by left|]. right. split; [by right|done].
      * intros [?|[[E|?] Hc']]; [by left|rewrite E in Hc'; congruence|by right].
Qed.

Lemma ink_bbox_least b : least_box (ink_bbox b) (λ x y, dot b x y = true).
Proof.
  eapply least_box_ext; [|apply (bbox_fold_least (λ p, is_black b (fst p) (snd p)) _ None (λ _ _, False))].
  - intros x y. simpl. rewrite elem_of_dots. simpl. split.
    + intros [[]|[[? ?] ?]]. by rewrite dot_in.
    + intros (? & ? & ?)%dot_true. by right.
  - intros x y [].
Qed.

(** ** Placement *)

(** The PNG's corner on the canvas as the label is read. *)
Definition corner (b : MonoBitmap) (g : LabelGeometry) : Z * Z :=
  let '(cw, ch) := max_dots g in
  (reading_corner cw (width b) (x_offset_dots g) (rotate_180 g),
   reading_corner ch (height b) (y_offset_dots g) (rotate_180 g)).
(** The label as a person reads it: its dot at a place of the canvas. *)
Definition read_dot (b : MonoBitmap) (g : LabelGeometry) (X Y : Z) : bool :=
  dot b (X - fst (corner b g)) (Y - snd (corner b g)).
(** What the printer puts there: [BITMAP x,y] of the placed bitmap. *)
Definition printed_dot (p : PlacedLabel) (X Y : Z) : bool :=
  dot (bitmap p) (X - fst (bitmap_at (layout p))) (Y - snd (bitmap_at (layout p))).
Definition to_printer (g : LabelGeometry) (X Y : Z) : Z * Z :=
  let '(cw, ch) := max_dots g in if rotate_180 g then (cw - 1 - X, ch - 1 - Y) else (X, Y).
Definition on_canvas (g : LabelGeometry) (X Y : Z) : Prop :=
  0 ≤ X < fst (max_dots g) ∧ 0 ≤ Y < snd (max_dots g).

Lemma max_dots_range g : 0 ≤ fst (max_dots g) < 2 ^ 32 ∧ 0 ≤ snd (max_dots g) < 2 ^ 32.
Proof. split; apply f64_as_u32_range. Qed.

(** One axis: the part of a length [w] put at [r] that lies on [0..c). *)
Record window (r w c v0 v1 s : Z) : Prop := {
  win_lo : 0 ≤ v0;
  win_ord : v0 ≤ v1;
  win_hi : v1 ≤ w;
  win_s : 0 ≤ s;
  win_fit : s + (v1 - v0) ≤ c;
  win_in : ∀ X, 0 ≤ X < c → (0 ≤ X - s < v1 - v0 ↔ 0 ≤ X - r < w);
  win_pos : ∀ X, 0 ≤ X < c → 0 ≤ X - r < w → X - s + v0 = X - r;
  win_on : ∀ x, 0 ≤ x < w → (v0 ≤ x < v1 ↔ 0 ≤ x + r < c);
}.
Lemma window_clamp r w c :
  0 ≤ w → 0 ≤ c → window r w c (clamp_dots (- r) w) (clamp_dots (c - r) w) (clamp_dots r c).
Proof. intros. unfold clamp_dots. split; intros; lia. Qed.

(** What [place_label] sends of the PNG. *)
Definition shown_of (b : MonoBitmap) (v : DotRect) : MonoBitmap :=
  if bool_decide (v = whole_of b) then b else crop b v.

Lemma shown_spec b v :
  wf_bitmap b → x0 v ≤ x1 v → y0 v ≤ y1 v → 0 ≤ x0 v → x1 v ≤ width b → 0 ≤ y0 v → y1 v ≤ height b →
  wf_bitmap (shown_of b v) ∧ width (shown_of b v) = x1 v - x0 v ∧ height (shown_of b v) = y1 v - y0 v
  ∧ ∀ x y, dot (shown_of b v) x y
      = bool_decide (0 ≤ x < x1 v - x0 v ∧ 0 ≤ y < y1 v - y0 v) && dot b (x + x0 v) (y + y0 v).
Proof.
  intros Hwf ??????. unfold shown_of. case_bool_decide as Hv.
  - subst v. simpl. rewrite !Z.sub_0_r. split_and!; try done. intros x y. rewrite !Z.add_0_r.
    case_bool_decide as Hin; [done|]. rewrite dot_out by done. done.
  - destruct (crop_shape b v) as (? & ? & _). split_and!; try done; [by apply crop_wf|].
    intros x y. by apply crop_dot.
Qed.

Section place.
Context (b : MonoBitmap) (g : LabelGeometry) (Hwf : wf_bitmap b).
Let cw := fst (max_dots g).
Let ch := snd (max_dots g).
Let rx := fst (corner b g).
Let ry := snd (corner b g).
Let v := mkRect (clamp_dots (- rx) (width b)) (clamp_dots (- ry) (height b))
                (clamp_dots (cw - rx) (width b)) (clamp_dots (ch - ry) (height b)).
Let sx := clamp_dots rx cw.
Let sy := clamp_dots ry ch.
Let shown := shown_of b v.

Lemma place_label_eq :
  place_label b g =
  {| bitmap := if rotate_180 g then rotated_180 shown else shown;
     layout :=
       {| png := (width b, height b); canvas := (cw, ch); rotated := rotate_180 g;
          bitmap_at := if rotate_180 g
                       then (as_u32 (cw - sx - width shown), as_u32 (ch - sy - height shown))
                       else (sx, sy);
          ink := (λ i, mkRect (x0 i + sx) (y0 i + sy) (x1 i + sx) (y1 i + sy)) <$> ink_bbox shown;
          ink_cropped := negb (bool_decide (v = whole_of b))
                 && match ink_bbox b with
                    | Some i => negb (rect_contains v i)
                    | None => false
                    end |} |}.
Proof.
  unfold place_label, shown, shown_of, v, sx, sy, rx, ry, cw, ch, corner. by destruct (max_dots g).
Qed.

Lemma place_windows :
  window rx (width b) cw (x0 v) (x1 v) sx ∧ window ry (height b) ch (y0 v) (y1 v) sy.
Proof.
  destruct Hwf, (max_dots_range g). split; apply window_clamp; lia.
Qed.

Lemma place_shown :
  wf_bitmap shown ∧ width shown = x1 v - x0 v ∧ height shown = y1 v - y0 v
  ∧ ∀ x y, dot shown x y
      = bool_decide (0 ≤ x < x1 v - x0 v ∧ 0 ≤ y < y1 v - y0 v) && dot b (x + x0 v) (y + y0 v).
Proof. destruct place_windows as [[] []]. by apply shown_spec. Qed.

(** The shown part at its place is the label as read. *)
Lemma shown_reads X Y :
  on_canvas g X Y → dot shown (X - sx) (Y - sy) = read_dot b g X Y.
Proof.
  intros [HX HY]. fold cw in HX. fold ch in HY. destruct place_windows as [Wx Wy].
  destruct place_shown as (_ & _ & _ & ->). unfold read_dot. fold rx ry.
  pose proof (win_in _ _ _ _ _ _ Wx X HX). pose proof (win_in _ _ _ _ _ _ Wy Y HY).
  case_bool_decide as Hin; simpl.
  - f_equal; [apply (win_pos _ _ _ _ _ _ Wx)|apply (win_pos _ _ _ _ _ _ Wy)]; tauto.
  - symmetry. apply dot_out. tauto.
Qed.

(** Its place lies on the canvas, in printer coordinates. *)
Lemma place_at :
  bitmap_at (layout (place_label b g))
    = (if rotate_180 g then (cw - sx - width shown, ch - sy - height shown) else (sx, sy))
  ∧ width (bitmap (place_label b g)) = width shown
  ∧ height (bitmap (place_label b g)) = height shown
  ∧ 0 ≤ sx ∧ sx + width shown ≤ cw ∧ 0 ≤ sy ∧ sy + height shown ≤ ch ∧ 0 ≤ width shown ∧ 0 ≤ height shown.
Proof.
  destruct place_windows as [[] []]. destruct place_shown as (_ & Ew & Eh & _).
  destruct (max_dots_range g) as [Rw Rh]. fold cw in Rw. fold ch in Rh.
  rewrite place_label_eq. simpl. rewrite !as_u32_id by lia.
  destruct (rotated_180_shape shown) as (? & ? & _).
  split_and!; try (destruct (rotate_180 g); done); lia.
Qed.

Lemma place_dot X Y :
  on_canvas g X Y →
  printed_dot (place_label b g) (fst (to_printer g X Y)) (snd (to_printer g X Y)) = read_dot b g X Y.
Proof.
  intros HXY. destruct place_at as (Eat & _). destruct place_shown as (Hws & Ew & Eh & _).
  rewrite <- shown_reads by done. unfold printed_dot, to_printer. rewrite Eat.
  rewrite (surjective_pairing (max_dots g)). fold cw ch.
  rewrite place_label_eq. simpl. destruct (rotate_180 g); simpl; [|done].
  rewrite rotated_180_dot by done. f_equal; lia.
Qed.

Lemma place_ink :
  least_box (ink (layout (place_label b g))) (λ X Y, on_canvas g X Y ∧ read_dot b g X Y = true).
Proof.
  rewrite place_label_eq. simpl. destruct place_at as (_ & _ & _ & L1 & L2 & L3 & L4 & L5 & L6).
  pose proof (ink_bbox_least shown) as Hl.
  assert (∀ x y, dot shown x y = true →
            on_canvas g (x + sx) (y + sy) ∧ read_dot b g (x + sx) (y + sy) = true) as Hto.
  { intros x y Hd. pose proof (dot_true _ _ _ Hd) as (? & ? & _).
    assert (on_canvas g (x + sx) (y + sy)) as Hc by (split; fold cw; fold ch; lia).
    split; [done|]. rewrite <- shown_reads, !Z.add_simpl_r by done. done. }
  destruct (ink_bbox shown) as [r|]; simpl in *.
  - destruct Hl as (H1 & (a & Ha) & (c & Hc) & (d & Hd) & (e & He)).
    split; [intros X Y [Hc' Hd']; rewrite <- shown_reads in Hd' by done; specialize (H1 _ _ Hd'); lia|].
    split_and!.
    + exists (a + sy). by apply Hto.
    + exists (c + sy). replace (x1 r + sx - 1) with (x1 r - 1 + sx) by lia. by apply Hto.
    + exists (d + sx). by apply Hto.
    + exists (e + sx). replace (y1 r + sy - 1) with (y1 r - 1 + sy) by lia. by apply Hto.
  - intros X Y [Hc' Hd']. rewrite <- shown_reads in Hd' by done. by apply (Hl _ _ Hd').
Qed.

Lemma place_cropped :
  ink_cropped (layout (place_label b g)) = true
  ↔ ∃ x y, dot b x y = true ∧ ¬ on_canvas g (x + rx) (y + ry).
Proof.
  rewrite place_label_eq. simpl. destruct place_windows as [Wx Wy].
  assert (∀ x y, dot b x y = true →
     on_canvas g (x + rx) (y + ry) ↔ x0 v ≤ x < x1 v ∧ y0 v ≤ y < y1 v) as Hon.
  { intros x y (Hx & Hy & _)%dot_true.
    rewrite (win_on _ _ _ _ _ _ Wx) by done. by rewrite (win_on _ _ _ _ _ _ Wy) by done. }
  pose proof (ink_bbox_least b) as Hl. rewrite andb_true_iff, negb_true_iff, bool_decide_eq_false.
  destruct (ink_bbox b) as [r|]; simpl in Hl.
  - destruct Hl as (H1 & (a & Ha) & (c & Hc) & (d & Hd) & (e & He)).
    rewrite negb_true_iff. split.
    + intros [_ Hn]. unfold rect_contains in Hn. rewrite !andb_false_iff, !Z.leb_gt in Hn.
      destruct Hn as [[[Hn|Hn]|Hn]|Hn].
      * exists (x0 r), a. rewrite Hon by done. split; [done|lia].
      * exists d, (y0 r). rewrite Hon by done. split; [done|lia].
      * exists (x1 r - 1), c. rewrite Hon by done. split; [done|lia].
      * exists e, (y1 r - 1). rewrite Hon by done. split; [done|lia].
    + intros (x & y & Hdot & Hoff). rewrite Hon in Hoff by done.
      pose proof (H1 _ _ Hdot). pose proof (dot_true _ _ _ Hdot) as (? & ? & _). split.
      * intros Hv. apply Hoff. rewrite Hv. simpl. lia.
      * apply not_true_is_false. unfold rect_contains. rewrite !andb_true_iff, !Z.leb_le. lia.
  - split; [by intros [_ ?]|]. intros (x & y & Hdot & _). by apply Hl in Hdot.
Qed.
End place.

(** ** The thresholded picture *)

(** The samples of pixel [(x, y)] in rows of [line] bytes. *)
Definition pixel (w line ch : Z) (pixels : bytes) (p : Z * Z) : list Z :=
  map u8 (slice (slice pixels (snd p * line) (snd p * line + w * ch)) (fst p * ch) ((fst p + 1) * ch)).

Lemma threshold_paint w h line ch pixels :
  threshold w h line ch pixels
  = paint (λ p, pixel_is_black (pixel w line ch pixels p)) (λ p, p) (dots (mkRect 0 0 w h)) (blank w h).
Proof.
  unfold threshold, paint. f_equal. apply functional_extensionality. intros out.
  apply functional_extensionality. by intros [x y].
Qed.

Lemma threshold_wf w h line ch pixels : 0 ≤ w → 0 ≤ h → wf_bitmap (threshold w h line ch pixels).
Proof. intros. rewrite threshold_paint. by apply paint_wf, blank_wf. Qed.
Lemma threshold_shape w h line ch pixels :
  width (threshold w h line ch pixels) = w ∧ height (threshold w h line ch pixels) = h.
Proof. rewrite threshold_paint. destruct (paint_shape (λ p, pixel_is_black (pixel w line ch pixels p)) (λ p, p) (dots (mkRect 0 0 w h)) (blank w h)) as (-> & -> & _). done. Qed.

Lemma threshold_dot w h line ch pixels x y :
  0 ≤ w → 0 ≤ h → 0 ≤ x < w → 0 ≤ y < h →
  dot (threshold w h line ch pixels) x y = pixel_is_black (pixel w line ch pixels (x, y)).
Proof.
  intros Hw Hh Hx Hy. destruct (threshold_shape w h line ch pixels) as [Ew Eh].
  rewrite dot_in by lia. rewrite threshold_paint.
  rewrite paint_blank with (g := λ p, p); try done.
  - rewrite bool_decide_true; [done|]. apply elem_of_dots. simpl. lia.
  - apply in_width_rows; [by apply blank_wf|done..].
  - intros p Hp _. apply elem_of_dots in Hp. apply in_width_rows; [by apply blank_wf| |]; simpl in *; lia.
Qed.
