(* ===== verification/DirectIppTheory.v ===== *)
(** * The printer's side of a direct IPP job

    What [send_pages] does is stated against the protocol a job's pages go
    through at the printer: [PageEnd] is how one page ended, [pages_run] which
    requests were sent and what the printer answered them, and [job_end] what
    the job's outcome must then be. *)

From Stdlib Require Import ZArith Ascii String.
From stdpp Require Import gmap.
From S2P Require Import Prelude RustStd Text Core RasterMerge PdfPages IppCodec PrintBackend.
From S2P Require Import Ghostscript DirectIpp.
#[local] Open Scope Z_scope.

(** ** How a page ends *)

Inductive PageEnd :=
| NotSent          (* no request left the client *)
| NotAccepted      (* the Print-Job failed, or the printer refused it *)
| Untracked        (* accepted, and no client to poll it with *)
| Rejected         (* accepted, then cancelled or aborted by the printer *)
| Lost             (* accepted, its end not learned *)
| Printed.         (* accepted and completed *)

#[export] Instance PageEnd_eq_dec : EqDecision PageEnd.
Proof. solve_decision. Defined.

(** What the store must be told of a job whose pages ended so: a page after the
    first never makes the job one to be resent. *)
Fixpoint ends_from (first : bool) (ends : list PageEnd) : JobState :=
  match ends with
  | [] => Completed
  | Printed :: ends' => ends_from false ends'
  | Lost :: _ => Unconfirmed
  | _ :: _ => if first then Failed else Unconfirmed
  end.
Definition job_end : list PageEnd → JobState := ends_from true.

Section protocol.
Context `{Outside}.

(** The parsed answer to request [n], whether it accepts a Print-Job, and the
    job-state a poll learns from it (0: none). *)
Definition response (n : nat) : option IppResponse :=
  match answer (http n) with
  | Ok b => match parse_response b with Ok r => Some r | Err _ => None end
  | Err _ => None
  end.
Definition accepted (n : nat) : bool :=
  match response n with Some r => is_success r | None => false end.
Definition state_learned (n : nat) : Z :=
  match response n with
  | Some r => if status_code r =? CLIENT_ERROR_NOT_FOUND then 0 else int_attribute r "job-state"
  | None => 0
  end.
Definition final (s : Z) : Prop := s = 7 ∨ s = 8 ∨ s = 9.

Definition is_poll (d : DirectIpp) (r : string * bytes) : Prop :=
  ∃ id rid, r = (ipp_url d, build_get_job_attributes_request (printer_uri d) id rid).
(** Polls from request [n] on, none of which learned a final state. *)
Definition undecided (d : DirectIpp) (n : nat) (polls : list (string * bytes)) : Prop :=
  Forall (is_poll d) polls ∧ ∀ i, (i < length polls)%nat → ¬ final (state_learned (n + i)).
(** Polls the last of which, and only it, learned the final state [s]. *)
Definition decided (d : DirectIpp) (n : nat) (polls : list (string * bytes)) (s : Z) : Prop :=
  ∃ before p, polls = before ++ [p] ∧ undecided d n before ∧ is_poll d p ∧
    state_learned (n + length before) = s.

Definition print_request (d : DirectIpp) (job : PrintJobInfo) (data : bytes) : string * bytes :=
  (ipp_url d, print_job_body d job data).

(** How a page that is not printed ends, with its requests from number [n] on. *)
Inductive page_stops (d : DirectIpp) (job : PrintJobInfo) (n : nat) (data : option bytes)
    : PageEnd → list (string * bytes) → Prop :=
| stop_not_sent : page_stops d job n data NotSent []
| stop_not_accepted bs : data = Some bs → accepted n = false →
    page_stops d job n data NotAccepted [print_request d job bs]
| stop_untracked bs c : data = Some bs → accepted n = true → is_ok (http_client c) = false →
    page_stops d job n data Untracked [print_request d job bs]
| stop_rejected bs polls s : data = Some bs → accepted n = true → decided d (S n) polls s →
    s = 7 ∨ s = 8 → page_stops d job n data Rejected (print_request d job bs :: polls)
| stop_lost bs polls : data = Some bs → accepted n = true → undecided d (S n) polls →
    page_stops d job n data Lost (print_request d job bs :: polls).

Inductive pages_run (d : DirectIpp) (job : PrintJobInfo) (f : gmap string bytes)
    : nat → list string → list PageEnd → list (string * bytes) → Prop :=
| run_done n : pages_run d job f n [] [] []
| run_stopped n file files end_ reqs :
    page_stops d job n (f !! file) end_ reqs → pages_run d job f n (file :: files) [end_] reqs
| run_printed n file files ends data polls reqs :
    f !! file = Some data → accepted n = true → decided d (S n) polls 9 →
    pages_run d job f (S n + length polls) files ends reqs →
    pages_run d job f n (file :: files) (Printed :: ends) (print_request d job data :: polls ++ reqs).

(** ** What a step adds to the world *)

Record extends (w w' : World) (reqs : list (string * bytes)) (stages : list PrintStage) : Prop := {
  ext_requests : requests w' = requests w ++ reqs;
  ext_stages : map (λ e, ev_stage (snd e)) (emitted w') = map (λ e, ev_stage (snd e)) (emitted w) ++ stages;
  ext_files : files w' = files w;
  ext_cancelled : cancelled_at w' = cancelled_at w;
  ext_now : now w ≤ now w';
}.

Lemma extends_refl w : extends w w [] [].
Proof. split; rewrite ?app_nil_r; done || lia. Qed.
Lemma extends_trans w1 w2 w3 r1 r2 s1 s2 :
  extends w1 w2 r1 s1 → extends w2 w3 r2 s2 → extends w1 w3 (r1 ++ r2) (s1 ++ s2).
Proof.
  intros [] []. split; try congruence; [| |lia].
  - by rewrite app_assoc, <- ext_requests0.
  - by rewrite app_assoc, <- ext_stages0.
Qed.
Lemma emit_extends e w : extends w (snd (emit e w)) [] [ev_stage e].
Proof. split; simpl; rewrite ?app_nil_r, ?map_app; done || lia. Qed.
Lemma failure_extends page e w :
  extends w (snd (failure page e w)) [] (if failure_is_the_jobs page then [ev_stage e] else []).
Proof. unfold failure. destruct (failure_is_the_jobs page); [apply emit_extends|apply extends_refl]. Qed.

(** The clock of the world: HTTP exchanges take no negative time. *)
Definition timely : Prop := ∀ n, 0 ≤ latency (http n).

(** ** Polling an accepted job *)

Definition failure_stages (page : PageOfJob) (st : PrintStage) : list PrintStage :=
  if failure_is_the_jobs page then [st] else [].

Inductive poll_ends (d : DirectIpp) (page : PageOfJob) (n : nat)
    : result AnyError unit → list (string * bytes) → list PrintStage → Prop :=
| ends_printed polls : decided d n polls 9 →
    poll_ends d page n (Ok tt) polls [SVerified; printed_stage page]
| ends_rejected polls s msg : decided d n polls s → s = 7 ∨ s = 8 →
    poll_ends d page n (Err (anyhow msg)) polls (failure_stages page SFailed)
| ends_lost polls u : undecided d n polls →
    poll_ends d page n (Err (error_new u)) polls (failure_stages page SUnconfirmed).

Lemma undecided_cons d n p polls :
  is_poll d p → ¬ final (state_learned n) → undecided d (S n) polls → undecided d n (p :: polls).
Proof.
  intros Hp Hn [Hf Hu]. split; [by constructor|]. intros [|i] Hi.
  - by rewrite Nat.add_0_r.
  - rewrite <- Nat.add_succ_comm. apply Hu. simpl in Hi. lia.
Qed.
Lemma decided_cons d n p polls s :
  is_poll d p → ¬ final (state_learned n) → decided d (S n) polls s → decided d n (p :: polls) s.
Proof.
  intros Hp Hn (before & q & -> & Hu & Hq & Hs). exists (p :: before), q. split; [done|].
  split; [by apply undecided_cons|]. split; [done|]. simpl. by rewrite <- Nat.add_succ_comm.
Qed.
Lemma decided_one d n p s : is_poll d p → state_learned n = s → decided d n [p] s.
Proof.
  intros Hp Hs. exists [], p. split; [done|]. split; [split; [constructor|simpl; lia]|].
  simpl. by rewrite Nat.add_0_r.
Qed.
Lemma undecided_nil d n : undecided d n [].
Proof. split; [constructor|simpl; lia]. Qed.

Lemma poll_ends_cons d page n p r polls st :
  is_poll d p → ¬ final (state_learned n) → poll_ends d page (S n) r polls st →
  poll_ends d page n r (p :: polls) st.
Proof.
  intros Hp Hn He. destruct He.
  - constructor. by apply decided_cons.
  - econstructor; [by apply decided_cons|done].
  - constructor. by apply undecided_cons.
Qed.

Lemma post_ipp_run url body w :
  timely →
  ∃ w1, extends w w1 [(url, body)] [] ∧
    post_ipp url body w
    = (match answer (http (length (requests w))) with Ok b => Ok b | Err e => Err (mkError e None) end, w1).
Proof.
  intros Ht. set (n := length (requests w)).
  exists (set_now (now w + latency (http n)) (set_requests (requests w ++ [(url, body)]) w)). split.
  - split; simpl; rewrite ?app_nil_r; try done. specialize (Ht n). lia.
  - unfold post_ipp. cbv [mbind M_bind gets modify sleep]. fold n.
    by destruct (answer (http n)).
Qed.


Lemma failure_run page e w : failure page e w = (Ok tt, snd (failure page e w)).
Proof. unfold failure. by destruct (failure_is_the_jobs page). Qed.
Lemma failure_extends_at page e w st :
  ev_stage e = st → extends w (snd (failure page e w)) [] (failure_stages page st).
Proof. intros <-. apply failure_extends. Qed.

Lemma unconfirmed_run page job_id pid why w :
  ∃ u w', unconfirmed page job_id pid why w = (Err (error_new u) : result AnyError unit, w') ∧
    extends w w' [] (failure_stages page SUnconfirmed).
Proof.
  exists (Unconfirmed.after_acceptance pid why).
  set (e := unconfirmed_event (now w) job_id (Unconfirmed.after_acceptance pid why)).
  exists (snd (failure page e w)). split; [|by apply failure_extends_at].
  unfold unconfirmed. cbv [mbind M_bind gets throw]. fold e. by rewrite failure_run.
Qed.

(** One answered tick: it ends the polling, or sleeps and goes on before the
    deadline with no final state learned. *)
Lemma poll_verdict_run d pid job_id display page deadline resp go_on n p w r w' :
  response n = Some resp → is_poll d p →
  poll_verdict d pid job_id display page deadline resp go_on w = (r, w') →
  (∃ st, extends w w' [] st ∧ poll_ends d page n r [p] st) ∨
  (¬ final (state_learned n) ∧ now w ≤ deadline ∧
   ∃ s, go_on s (set_now (now w + 2000) w) = (r, w')).
Proof.
  intros Hn Hp. pose proof (eq_refl (state_learned n)) as Hs. unfold state_learned in Hs at 2.
  rewrite Hn in Hs. unfold poll_verdict. cbv zeta.
  destruct (status_code resp =? CLIENT_ERROR_NOT_FOUND).
  { destruct (unconfirmed_run page job_id pid
      ("the printer no longer knows job-id " +:+ z_to_string pid) w) as (u & w1 & -> & Hx).
    intros [= <- <-]. left. eexists. split; [exact Hx|]. constructor.
    apply (undecided_cons d n p []); [done| |apply undecided_nil]. rewrite Hs. intros [|[]]; lia. }
  set (s := int_attribute resp "job-state") in *.
  destruct (Z.eqb_spec s 9) as [E9|N9].
  { intros [= <- <-]. left. eexists. split.
    - exact (extends_trans _ _ _ _ _ _ _
        (emit_extends (event_verified (utc (now w)) job_id "ipp_job_state" _) w)
        (emit_extends (event_ok (utc (now w)) job_id (printed_stage page) _) _)).
    - constructor. apply decided_one; [done|lia]. }
  destruct (_ || _) eqn:E78.
  { cbv [mbind M_bind gets]. rewrite failure_run. intros [= <- <-]. left. eexists. split.
    - by apply failure_extends_at.
    - apply ends_rejected with s; [by apply decided_one|]. apply orb_true_iff in E78. lia. }
  apply orb_false_iff in E78.
  cbv [mbind M_bind gets]. destruct (Z.ltb_spec deadline (now w)).
  - match goal with |- unconfirmed _ _ _ ?why _ = _ → _ =>
      destruct (unconfirmed_run page job_id pid why w) as (u' & w2 & -> & Hx') end.
    intros [= <- <-]. left. eexists. split; [exact Hx'|]. constructor.
    apply (undecided_cons d n p []); [done| |apply undecided_nil]. rewrite Hs. unfold final. lia.
  - intros E. right. split; [rewrite Hs; unfold final; lia|]. split; [lia|]. by exists s.
Qed.

Lemma extends_snoc w w1 w2 reqs st :
  extends w w1 reqs [] → extends w1 w2 [] st → extends w w2 reqs st.
Proof.
  intros H1 H2. pose proof (extends_trans _ _ _ _ _ _ _ H1 H2) as Hx. by rewrite app_nil_r in Hx.
Qed.
Lemma extends_sleep ms w : 0 ≤ ms → extends w (set_now (now w + ms) w) [] [].
Proof. split; simpl; rewrite ?app_nil_r; done || lia. Qed.

Definition cancelled_now (w : World) : bool :=
  match cancelled_at w with Some t => t <=? now w | None => false end.
Lemma bind_is_cancelled {B} (f : bool → PM B) w : (is_cancelled ≫= f) w = f (cancelled_now w) w.
Proof. done. Qed.
Lemma bind_now {B} (f : Z → PM B) w : (gets now ≫= f) w = f (now w) w.
Proof. done. Qed.
Lemma bind_attempt_post {B} url body (f : _ → PM B) w :
  timely →
  ∃ w1, extends w w1 [(url, body)] [] ∧
    (attempt (post_ipp url body) ≫= f) w
    = f (match answer (http (length (requests w))) with Ok b => Ok b | Err e => Err (mkError e None) end) w1.
Proof.
  intros Ht. destruct (post_ipp_run url body w Ht) as (w1 & Hx & E). exists w1. split; [done|].
  unfold mbind, M_bind, attempt. by rewrite E.
Qed.

Lemma lost_ends d page n polls job_id pid why w w1 w' r :
  extends w w1 polls [] → undecided d n polls →
  unconfirmed page job_id pid why w1 = (r, w') →
  ∃ st, extends w w' polls st ∧ poll_ends d page n r polls st.
Proof.
  intros Hx Hu. destruct (unconfirmed_run page job_id pid why w1) as (u & w2 & -> & Hx').
  intros [= <- <-]. eexists. split; [by eapply extends_snoc|]. by constructor.
Qed.

Lemma poll_tick fuel d pid job_id display page deadline rid last w r w' :
  timely →
  poll_loop (S fuel) d pid job_id display page deadline rid last w = (r, w') →
  let n := length (requests w) in
  (∃ polls st, extends w w' polls st ∧ poll_ends d page n r polls st) ∨
  ∃ p w1 s, is_poll d p ∧ ¬ final (state_learned n) ∧ extends w w1 [p] [] ∧
    now w + 2000 ≤ now w1 ∧ now w ≤ deadline ∧
    poll_loop fuel d pid job_id display page deadline (as_u32 (rid + 1)) s w1 = (r, w').
Proof.
  intros Ht E n. cbn [poll_loop] in E. cbv zeta in E. rewrite bind_is_cancelled in E.
  destruct (cancelled_now w).
  { left. exists []. by eapply lost_ends; [apply extends_refl|apply undecided_nil|]. }
  edestruct (@bind_attempt_post unit) as (w1 & Hx & E1); [exact Ht|]. rewrite E1 in E. clear E1.
  match type of Hx with extends _ _ [?p0] _ => set (p := p0) in * end.
  assert (is_poll d p) as Hp by (do 2 eexists; reflexivity).
  fold n in E. destruct (response n) as [resp|] eqn:Hr.
  - pose proof Hr as Hr0. unfold response in Hr0. destruct (answer (http n)) as [b|]; [|done].
    destruct (parse_response b) as [resp'|]; [|done]. injection Hr0 as ->.
    destruct (poll_verdict_run _ _ _ _ _ _ _ _ n p _ _ _ Hr Hp E) as [(st & Hx' & He)|(Hs & Hd & s & E2)].
    + left. exists [p], st. split; [|done]. exact (extends_trans _ _ _ _ _ _ _ Hx Hx').
    + right. exists p, (set_now (now w1 + 2000) w1), s. split; [done|]. split; [done|].
      split; [eapply extends_snoc; [done|apply extends_sleep; lia]|].
      pose proof (ext_now _ _ _ _ Hx). simpl. split; [lia|]. split; [lia|done].
  - left. exists [p].
    assert (undecided d n [p]) as Hu.
    { apply undecided_cons; [done| |apply undecided_nil]. unfold state_learned. rewrite Hr.
      unfold final. lia. }
    unfold response in Hr. destruct (answer (http n)) as [b|]; [destruct (parse_response b); [done|]|];
      by eapply lost_ends.
Qed.

Lemma poll_loop_run fuel d pid job_id display page deadline rid last w r w' :
  timely → deadline - now w < 2000 * Z.of_nat fuel →
  poll_loop (S fuel) d pid job_id display page deadline rid last w = (r, w') →
  ∃ polls st, extends w w' polls st ∧ poll_ends d page (length (requests w)) r polls st.
Proof.
  intros Ht. revert rid last w. induction fuel as [|fuel IH]; intros rid last w Hf E.
  all: destruct (poll_tick _ _ _ _ _ _ _ _ _ _ _ _ Ht E)
    as [?|(p & w1 & s & Hp & Hs & Hx & Hn & Hd & E')]; [done|].
  { lia. }
  destruct (IH _ _ w1 ltac:(lia) E') as (polls & st & Hx' & He).
  exists (p :: polls), st. split.
  - exact (extends_trans _ _ _ _ _ _ _ Hx Hx').
  - apply poll_ends_cons; [done..|].
    rewrite (ext_requests _ _ _ _ Hx), length_app, Nat.add_comm in He. exact He.
Qed.

Lemma build_client_extends w : extends w (snd (build_client w)) [] [].
Proof.
  unfold build_client. cbv [mbind M_bind gets modify throw]. simpl.
  destruct (http_client (clients_built w)); (split; simpl; rewrite ?app_nil_r; done || lia).
Qed.
Lemma build_client_run w :
  build_client w
  = (match http_client (clients_built w) with Ok _ => Ok tt | Err e => Err (mkError e None) end,
     snd (build_client w)).
Proof. unfold build_client. cbv [mbind M_bind gets modify throw]. by destruct (http_client _). Qed.

Lemma poll_fuel_enough d : 0 ≤ poll_timeout d → ∃ f, poll_fuel d = S f ∧ poll_timeout d < 2000 * Z.of_nat f.
Proof.
  intros Hp. exists (Z.to_nat (poll_timeout d / 2000 + 1)). unfold poll_fuel.
  pose proof (Z.div_pos (poll_timeout d) 2000). pose proof (Z.mod_pos_bound (poll_timeout d) 2000).
  pose proof (Z.div_mod (poll_timeout d) 2000). split; [|lia].
  rewrite <- Z2Nat.inj_succ by lia. f_equal. lia.
Qed.

(** The whole polling: no client to poll with, or an end of the polling. *)
Lemma poll_job_completion_run d pid accepted_state job_id display page w r w' :
  timely → 0 ≤ poll_timeout d →
  poll_job_completion d pid accepted_state job_id display page w = (r, w') →
  (∃ c e, is_ok (http_client c) = false ∧ r = Err (mkError e None) ∧ extends w w' [] []) ∨
  ∃ polls st, extends w w' polls st ∧ poll_ends d page (length (requests w)) r polls st.
Proof.
  intros Ht Hp E. unfold poll_job_completion in E. unfold mbind at 1, M_bind at 1 in E.
  rewrite build_client_run in E. pose proof (build_client_extends w) as Hx.
  destruct (http_client (clients_built w)) as [u|e] eqn:Hc.
  - right. destruct (poll_fuel_enough d Hp) as (f & Hf & Hl).
    change (poll_loop (poll_fuel d) d pid job_id display page (now (snd (build_client w)) + poll_timeout d)
      100 accepted_state (snd (build_client w)) = (r, w')) in E. rewrite Hf in E.
    eapply poll_loop_run in E as (polls & st & Hx' & He); [|done|lia].
    rewrite (ext_requests _ _ _ _ Hx), app_nil_r in He.
    exists polls, st. split; [exact (extends_trans _ _ _ _ _ _ _ Hx Hx')|done].
  - left. injection E as <- <-. exists (clients_built w), e. by rewrite Hc.
Qed.

(** ** One page *)

Definition progress (st : list PrintStage) : Prop := Forall (λ s, s = SSending ∨ s = SAcknowledged) st.
Definition end_stage (end_ : PageEnd) : PrintStage := match end_ with Lost => SUnconfirmed | _ => SFailed end.

(** How [send_ipp_job] ends; a failure records its stage at most once, and a
    lost end always does. *)
Inductive page_outcome (d : DirectIpp) (job : PrintJobInfo) (page : PageOfJob) (n : nat)
    (data : option bytes) : result AnyError unit → list (string * bytes) → list PrintStage → Prop :=
| outcome_printed bs polls st : data = Some bs → accepted n = true → decided d (S n) polls 9 → progress st →
    page_outcome d job page n data (Ok tt) (print_request d job bs :: polls)
      (st ++ [SVerified; printed_stage page])
| outcome_stopped e end_ reqs st0 st : page_stops d job n data end_ reqs →
    (marker e = None ↔ end_ ≠ Lost) → progress st0 →
    st = failure_stages page (end_stage end_) ∨ (st = [] ∧ end_ ≠ Lost) →
    page_outcome d job page n data (Err e) reqs (st0 ++ st).

Lemma bind_emit_ok {B} job_id st detail (f : unit → PM B) w :
  ∃ w1, extends w w1 [] [st] ∧ (emit_ok job_id st detail ≫= f) w = f tt w1.
Proof.
  eexists. split; [exact (emit_extends (event_ok (utc (now w)) job_id st detail) w)|done].
Qed.
Lemma bind_emit_fail {B} job_id st detail (f : unit → PM B) w :
  ∃ w1, extends w w1 [] [st] ∧ (emit_fail job_id st detail ≫= f) w = f tt w1.
Proof.
  eexists. split; [exact (emit_extends (event_fail (utc (now w)) job_id st detail) w)|done].
Qed.
Lemma bind_failure {B} page e (f : unit → PM B) w :
  ∃ w1, extends w w1 [] (failure_stages page (ev_stage e)) ∧ (failure page e ≫= f) w = f tt w1.
Proof.
  exists (snd (failure page e w)). split; [apply failure_extends|].
  unfold mbind, M_bind. by rewrite failure_run.
Qed.
Lemma fail_with_cause_run page job_id addr what err w :
  ∃ w1, extends w w1 [] (failure_stages page SFailed) ∧
    fail_with_cause page job_id addr what err w
    = (Err (with_context (what +:+ " (" +:+ addr +:+ ")") err) : result AnyError unit, w1).
Proof.
  unfold fail_with_cause.
  destruct (bind_failure page (event_fail (utc (now w)) job_id SFailed
    (what +:+ " (" +:+ addr +:+ "): " +:+ full_text err))
    (λ _, throw (with_context (what +:+ " (" +:+ addr +:+ ")") err) : PM unit) w) as (w1 & Hx & E).
  exists w1. split; [exact Hx|exact E].
Qed.

Lemma refused_outcome d job page n bs w w1 w2 w' e st0 r :
  extends w w1 [print_request d job bs] st0 → progress st0 → accepted n = false →
  extends w1 w2 [] (failure_stages page SFailed) → marker e = None → (Err e, w2) = (r, w') →
  ∃ reqs st, extends w w' reqs st ∧ page_outcome d job page n (Some bs) r reqs st.
Proof.
  intros Hx Hst Ha Hx' He [= <- <-]. do 2 eexists. split; [exact (extends_trans _ _ _ _ _ _ _ Hx Hx')|].
  eapply outcome_stopped; [by apply stop_not_accepted| |done|by left]. by rewrite He.
Qed.

Lemma send_ipp_job_run d job file display page w r w' :
  timely → 0 ≤ poll_timeout d →
  send_ipp_job d job file display page w = (r, w') →
  ∃ reqs st, extends w w' reqs st ∧
    page_outcome d job page (length (requests w)) (files w !! file) r reqs st.
Proof.
  intros Ht Hp E. unfold send_ipp_job in E.
  unfold mbind at 1, M_bind at 1 in E.
  destruct (files w !! file) as [bs|] eqn:Hf.
  2: { replace (fs_read file w) with (Err (anyhow (fs_read_error file)) : result AnyError bytes, w) in E
         by (unfold fs_read; cbv [mbind M_bind gets]; by rewrite Hf).
       injection E as <- <-. exists [], []. split; [apply extends_refl|].
       apply (outcome_stopped _ _ _ _ _ _ NotSent [] [] []); [constructor|done|constructor|by right]. }
  replace (fs_read file w) with (Ok bs : result AnyError bytes, w) in E
    by (unfold fs_read; cbv [mbind M_bind gets]; by rewrite Hf).
  edestruct (@bind_emit_ok unit) as (w1 & Hx1 & E1). rewrite E1 in E. clear E1.
  unfold mbind at 1, M_bind at 1 in E. rewrite build_client_run in E.
  pose proof (extends_trans _ _ _ _ _ _ _ Hx1 (build_client_extends w1)) as Hx2. simpl in Hx2.
  set (w2 := snd (build_client w1)) in *.
  destruct (http_client (clients_built w1)) as [u|e].
  2: { injection E as <- <-. exists [], ([SSending] ++ []). split; [done|].
       apply (outcome_stopped _ _ _ _ _ _ NotSent [] [SSending] []); [constructor|done| |by right].
       constructor; [by left|constructor]. }
  edestruct (@bind_attempt_post unit) as (w3 & Hx3 & E3); [exact Ht|]. rewrite E3 in E. clear E3.
  pose proof (extends_trans _ _ _ _ _ _ _ Hx2 Hx3) as Hx4. simpl in Hx4.
  change (ipp_url d, print_job_body d job bs) with (print_request d job bs) in Hx4.
  rewrite (ext_requests _ _ _ _ Hx2), app_nil_r in E. set (n := length (requests w)) in *.
  assert (progress [SSending]) as Hs1 by (constructor; [by left|constructor]).
  assert (∀ o, response n = o → accepted n = match o with Some r => is_success r | None => false end) as Hacc
    by (by intros o <-).
  unfold response in Hacc. destruct (answer (http n)) as [b|e].
  2: { destruct (fail_with_cause_run page (ji_job_id job) (address d) "IPP Print-Job send failed"
         (mkError e None) w3) as (w4 & Hx5 & E5).
       eapply (refused_outcome d job page n bs w w3 w4); [exact Hx4|done|by apply (Hacc _ eq_refl)|exact Hx5|
         |rewrite <- E, <- E5; reflexivity]. done. }
  destruct (parse_response b) as [resp|e].
  2: { destruct (fail_with_cause_run page (ji_job_id job) (address d) "IPP Print-Job response unreadable"
         (anyhow e) w3) as (w4 & Hx5 & E5).
       eapply (refused_outcome d job page n bs w w3 w4); [exact Hx4|done|by apply (Hacc _ eq_refl)|exact Hx5|
         |rewrite <- E, <- E5; reflexivity]. done. }
  specialize (Hacc _ eq_refl). destruct (is_success resp); cbn [negb] in E.
  2: { cbv zeta in E. rewrite bind_now in E.
       edestruct (@bind_failure unit) as (w4 & Hx5 & E5). rewrite E5 in E.
       eapply (refused_outcome d job page n bs w w3 w4); [exact Hx4|done|exact Hacc|exact Hx5|
         |exact E]. done. }
  cbv zeta in E. edestruct (@bind_emit_ok unit) as (w4 & Hx5 & E5). rewrite E5 in E. clear E5.
  pose proof (extends_trans _ _ _ _ _ _ _ Hx4 Hx5) as Hx6. simpl in Hx6.
  assert (progress [SSending; SAcknowledged]) as Hs2
    by (constructor; [by left|]; constructor; [by right|constructor]).
  apply poll_job_completion_run in E as [(c & e & Hc & -> & Hx7)|(polls & st & Hx7 & He)]; [| |done|done].
  - do 2 eexists. split; [exact (extends_trans _ _ _ _ _ _ _ Hx6 Hx7)|].
    apply (outcome_stopped _ _ _ _ _ _ Untracked _ [SSending; SAcknowledged] []); [|done|done|by right].
    by apply (stop_untracked _ _ _ _ bs c).
  - do 2 eexists. split; [exact (extends_trans _ _ _ _ _ _ _ Hx6 Hx7)|].
    rewrite (ext_requests _ _ _ _ Hx6), length_app in He. simpl length in He.
    fold n in He. rewrite Nat.add_comm in He. simpl in He.
    destruct He as [polls Hd|polls s msg Hd Hs|polls u' Hd].
    + apply (outcome_printed _ _ _ _ _ bs polls [SSending; SAcknowledged]); done.
    + apply (outcome_stopped _ _ _ _ _ _ Rejected _ [SSending; SAcknowledged]); [|done|done|by left].
      by apply (stop_rejected _ _ _ _ bs polls s).
    + apply (outcome_stopped _ _ _ _ _ _ Lost _ [SSending; SAcknowledged]); [|done|done|by left].
      by apply stop_lost.
Qed.

(** ** The pages of a job *)

Lemma bind_result_run {A B} (m : PM A) (f : A → PM B) w r w1 :
  m w = (r, w1) → (m ≫= f) w = match r with Ok a => f a w1 | Err e => (Err e, w1) end.
Proof. unfold mbind, M_bind. intros ->. by destruct r. Qed.

Lemma page_cancelled_run job_id page w :
  ∃ w1, extends w w1 [] (if cancelled_now w then failure_stages page SFailed else []) ∧
    (page_cancelled job_id page w
     = (if cancelled_now w
        then Err (anyhow ("print cancelled by outer timeout (at: " +:+ cancel_point page +:+ ")"))
        else Ok tt, w1)).
Proof.
  unfold page_cancelled, failure_stages. destruct (failure_is_the_jobs page).
  - unfold bail_if_cancelled. rewrite bind_is_cancelled. destruct (cancelled_now w).
    + edestruct (@bind_emit_fail unit) as (w1 & Hx & E).
      exists w1. split; [exact Hx|]. exact E.
    + exists w. split; [apply extends_refl|done].
  - rewrite bind_is_cancelled. exists w. destruct (cancelled_now w); split; try done; apply extends_refl.
Qed.

Lemma page_run d job file display page w r w' :
  timely → 0 ≤ poll_timeout d →
  (page_cancelled (ji_job_id job) page ≫= λ _, send_ipp_job d job file display page) w = (r, w') →
  ∃ reqs st, extends w w' reqs st ∧
    page_outcome d job page (length (requests w)) (files w !! file) r reqs st.
Proof.
  intros Ht Hp E. destruct (page_cancelled_run (ji_job_id job) page w) as (w1 & Hx & E1).
  rewrite (bind_result_run _ _ _ _ _ E1) in E. destruct (cancelled_now w).
  - injection E as <- <-. exists [], ([] ++ failure_stages page SFailed). split; [done|].
    by apply (outcome_stopped _ _ _ _ _ _ NotSent); [constructor| |constructor|left].
  - destruct (send_ipp_job_run _ _ _ _ _ _ _ _ Ht Hp E) as (reqs & st & Hx' & Ho).
    exists reqs, st. split; [exact (extends_trans _ _ _ _ _ _ _ Hx Hx')|].
    by rewrite (ext_requests _ _ _ _ Hx), app_nil_r, (ext_files _ _ _ _ Hx) in Ho.
Qed.

(** How often a stage was recorded. *)
Definition occurrences (s : PrintStage) (st : list PrintStage) : nat :=
  length (filter (λ x, x = s) st).
Lemma occurrences_app s a b : occurrences s (a ++ b) = (occurrences s a + occurrences s b)%nat.
Proof. unfold occurrences. by rewrite filter_app, length_app. Qed.
Lemma occurrences_progress s st :
  progress st → s ≠ SSending → s ≠ SAcknowledged → occurrences s st = 0%nat.
Proof.
  intros Hp Hs Ha. unfold occurrences. induction Hp as [|x st [-> | ->] Hp IH]; [done|..];
    rewrite filter_cons_False by congruence; done.
Qed.

(** What the job's events must say for its result. *)
Definition events_agree (r : result AnyError unit) (pages : nat) (st : list PrintStage) : Prop :=
  match pr_local_state (report_of r) with
  | Completed => occurrences SCompleted st = Nat.min 1 pages ∧ occurrences SFailed st = 0%nat
                 ∧ occurrences SUnconfirmed st = 0%nat
  | Unconfirmed => occurrences SCompleted st = 0%nat ∧ occurrences SFailed st = 0%nat
                   ∧ occurrences SUnconfirmed st = 1%nat
  | _ => occurrences SCompleted st = 0%nat ∧ (occurrences SFailed st ≤ 1)%nat
         ∧ occurrences SUnconfirmed st = 0%nat
  end.

Lemma bind_attempt {A B} (m : PM A) (f : result AnyError A → PM B) w r w1 :
  m w = (r, w1) → (attempt m ≫= f) w = f r w1.
Proof. intros E. unfold mbind, M_bind, attempt. by rewrite E. Qed.

Lemma report_state e : pr_local_state (report_of (Err e)) = match marker e with Some _ => Unconfirmed | None => Failed end.
Proof. unfold report_of, is_unconfirmed. by destruct (marker e). Qed.

(** A page printed, and the rest of its job. *)
Lemma printed_occurrences s page st0 st :
  progress st0 → s = SCompleted ∨ s = SFailed ∨ s = SUnconfirmed →
  occurrences s ((st0 ++ [SVerified; printed_stage page]) ++ st)
  = ((if bool_decide (s = printed_stage page) then 1 else 0) + occurrences s st)%nat.
Proof.
  intros Hp Hs. rewrite !occurrences_app, occurrences_progress by (try done; by destruct Hs as [-> |[-> | ->]]).
  f_equal. unfold occurrences. rewrite filter_cons_False by (by destruct Hs as [-> |[-> | ->]]).
  case_bool_decide; [rewrite filter_cons_True by done|rewrite filter_cons_False by congruence]; done.
Qed.
Lemma printed_events page r st0 st n :
  progress st0 → events_agree r n st → is_last page = (n =? 0)%nat →
  (n = 0%nat → pr_local_state (report_of r) = Completed) →
  events_agree r (S n) ((st0 ++ [SVerified; printed_stage page]) ++ st).
Proof.
  intros Hp He Hl Hz. unfold events_agree in *. rewrite !printed_occurrences by tauto.
  unfold printed_stage. rewrite Hl. destruct n as [|n]; simpl.
  - rewrite Hz in He |- * by done. simpl in He. lia.
  - destruct (pr_local_state (report_of r)); lia.
Qed.
Lemma stopped_occurrences s st0 page s' :
  progress st0 → s = SCompleted ∨ s = SFailed ∨ s = SUnconfirmed →
  occurrences s (st0 ++ failure_stages page s')
  = (if failure_is_the_jobs page && bool_decide (s = s') then 1 else 0)%nat.
Proof.
  intros Hp Hs. rewrite occurrences_app, occurrences_progress by (try done; by destruct Hs as [-> |[-> | ->]]).
  unfold failure_stages, occurrences. destruct (failure_is_the_jobs page); [simpl|done].
  case_bool_decide; [rewrite filter_cons_True by done|rewrite filter_cons_False by congruence]; done.
Qed.

Lemma first_page_stops d job page n data e end_ reqs st0 st k :
  page_stops d job n data end_ reqs → (marker e = None ↔ end_ ≠ Lost) → progress st0 →
  st = failure_stages page (end_stage end_) ∨ (st = [] ∧ end_ ≠ Lost) → page_index page = 0 →
  pr_local_state (report_of (Err e)) = job_end [end_] ∧ events_agree (Err e) k (st0 ++ st).
Proof.
  intros Hstop Hm Hst0 Hst Hi. unfold events_agree. rewrite report_state.
  assert (failure_is_the_jobs page = true) as Hf by (unfold failure_is_the_jobs; by rewrite Hi).
  destruct (decide (end_ = Lost)) as [-> |Hn].
  - destruct (marker e) as [u|]; [|by destruct (proj1 Hm eq_refl)].
    destruct Hst as [-> |[_ ?]]; [|done]. split; [done|].
    rewrite !stopped_occurrences by tauto. by rewrite Hf.
  - rewrite (proj2 Hm Hn). split; [by destruct Hstop|].
    destruct Hst as [-> |[-> _]].
    + rewrite !stopped_occurrences by tauto. rewrite Hf. destruct end_; try done; simpl; lia.
    + rewrite app_nil_r, !occurrences_progress by done. lia.
Qed.

Lemma send_from_run d job display pages i files_ w r w' :
  timely → 0 ≤ poll_timeout d → 0 ≤ i → pages = i + Z.of_nat (length files_) →
  send_from d job display pages i files_ w = (r, w') →
  ∃ ends reqs st, extends w w' reqs st ∧
    pages_run d job (files w) (length (requests w)) files_ ends reqs ∧
    pr_local_state (report_of r) = ends_from (i =? 0) ends ∧
    events_agree r (length files_) st.
Proof.
  intros Ht Hp. revert i w. induction files_ as [|file files_ IH]; intros i w Hi Hl E.
  { injection E as <- <-. exists [], [], []. split; [apply extends_refl|]. split; [constructor|]. done. }
  cbn [send_from] in E. cbv zeta in E. set (page := {| page_index := i; page_pages := pages |}) in *.
  destruct ((page_cancelled (ji_job_id job) page ≫= λ _, send_ipp_job d job file display page) w)
    as [r1 w1] eqn:E1. rewrite (bind_attempt _ _ _ _ _ E1) in E.
  destruct (page_run _ _ _ _ _ _ _ _ Ht Hp E1) as (reqs & st & Hx & Ho). clear E1.
  destruct Ho as [bs polls st0 Hd Ha Hdec Hst|e end_ reqs st0 st Hstop Hm Hst0 Hst].
  - destruct (IH (i + 1) w1 ltac:(lia) ltac:(simpl in Hl; lia) E) as (ends & reqs & st & Hx' & Hr & Hend & Hev).
    exists (Printed :: ends). do 2 eexists. split; [exact (extends_trans _ _ _ _ _ _ _ Hx Hx')|].
    split; [|split].
    + apply run_printed; [done..|].
      rewrite (ext_files _ _ _ _ Hx), (ext_requests _ _ _ _ Hx), length_app in Hr.
      replace (S (length (requests w)) + length polls)%nat
        with (length (requests w) + length (print_request d job bs :: polls))%nat by (simpl; lia). exact Hr.
    + rewrite Hend. by rewrite (proj2 (Z.eqb_neq _ _)) by lia.
    + apply printed_events; [done|done| |].
      * unfold is_last, page. simpl in Hl |- *. destruct files_; simpl in *; [apply Z.eqb_eq|apply Z.eqb_neq]; lia.
      * intros E0. apply nil_length_inv in E0. subst files_. rewrite Hend. by inversion Hr.
  - unfold failure_is_the_jobs in E. simpl in E. destruct (Z.eqb_spec i 0) as [Hz|Hz].
    + injection E as <- <-. exists [end_]. do 2 eexists. split; [exact Hx|].
      split; [by constructor|]. by eapply first_page_stops.
    + cbv zeta in E. rewrite bind_now in E.
      set (u := Unconfirmed.after_accepted_pages i pages (full_text e)) in *.
      set (ev := unconfirmed_event (now w1) (ji_job_id job) u) in *.
      injection E as <- <-. exists [end_]. do 2 eexists.
      split; [exact (extends_trans _ _ _ _ _ _ _ Hx (emit_extends ev w1))|].
      split; [rewrite app_nil_r; by constructor|].
      assert (failure_is_the_jobs page = false) as Hf by (by apply Z.eqb_neq).
      assert (st = []) as -> by (destruct Hst as [-> |[-> _]]; [|done]; unfold failure_stages; by rewrite Hf).
      split; [by inversion Hstop|].
      unfold events_agree. simpl. rewrite app_nil_r, !occurrences_app.
      by rewrite (occurrences_progress SCompleted), (occurrences_progress SFailed),
        (occurrences_progress SUnconfirmed) by done.
Qed.

(** ** What the protocol's run tells *)

Lemma pages_run_failed d job f n files_ ends reqs :
  pages_run d job f n files_ ends reqs → job_end ends = Failed →
  ∃ file files' end_, files_ = file :: files' ∧ ends = [end_] ∧ end_ ≠ Lost ∧
    page_stops d job n (f !! file) end_ reqs.
Proof.
  intros Hr. destruct Hr as [n|n file files' end_ reqs Hs|n file files' ends data polls reqs Hf Ha Hd Hr].
  - done.
  - intros He. exists file, files', end_. split; [done|]. split; [done|]. split; [|done]. by intros ->.
  - intros He. exfalso. cbn in He. clear -He. induction ends as [|[] ends IH]; simpl in He; auto; done.
Qed.

Lemma pages_run_completed d job f n files_ ends reqs :
  pages_run d job f n files_ ends reqs → job_end ends = Completed →
  ends = map (λ _, Printed) files_.
Proof.
  unfold job_end. generalize true. intros b Hr. revert b.
  induction Hr as [n|n file files' end_ reqs Hs|n file files' ends data polls reqs Hf Ha Hd Hr IH]; intros b He.
  - done.
  - by destruct Hs, b.
  - simpl. f_equal. by apply (IH false).
Qed.

(** ** The render before it *)

(** Sends nothing, and its errors are plain. *)
Definition local_ {A} (m : PM A) : Prop :=
  ∀ w, requests (snd (m w)) = requests w ∧ ∀ e, fst (m w) = Err e → marker e = None.

Lemma local_ret {A} (a : A) : local_ (mret a).
Proof. by intros w. Qed.
Lemma local_bail {A} msg : local_ (bail msg : PM A).
Proof. intros w. split; [done|]. by intros e [= <-]. Qed.
Lemma local_throw {A} e : marker e = None → local_ (throw e : PM A).
Proof. intros He w. split; [done|]. by intros e' [= <-]. Qed.
Lemma local_gets {A} (f : World → A) : local_ (gets f).
Proof. by intros w. Qed.
Lemma local_modify f : (∀ w, requests (f w) = requests w) → local_ (modify f).
Proof. intros Hf w. split; [apply Hf|done]. Qed.
Lemma local_bind {A B} (m : PM A) (f : A → PM B) : local_ m → (∀ a, local_ (f a)) → local_ (m ≫= f).
Proof.
  intros Hm Hf w. unfold mbind, M_bind. destruct (Hm w) as [Hr He]. destruct (m w) as [[a|e] w1].
  - destruct (Hf a w1) as [Hr' He']. split; [|done]. rewrite Hr'. done.
  - split; [done|]. intros e' [= <-]. by apply He.
Qed.
Lemma local_attempt {A B} (m : PM A) (f : result AnyError A → PM B) :
  local_ m → (∀ a, local_ (f (Ok a))) → (∀ e, marker e = None → local_ (f (Err e))) → local_ (attempt m ≫= f).
Proof.
  intros Hm Hf He w. destruct (m w) as [r w1] eqn:E. rewrite (bind_attempt _ _ _ _ _ E).
  destruct (Hm w) as [Hr Hx]. rewrite E in Hr, Hx. destruct r as [a|e].
  - destruct (Hf a w1) as [Hr' He']. split; [|done]. by rewrite Hr'.
  - destruct (He e (Hx e eq_refl) w1) as [Hr' He']. split; [|done]. by rewrite Hr'.
Qed.
Lemma local_finally {A} (m : PM A) f : local_ m → (∀ w, requests (f w) = requests w) → local_ (finally m f).
Proof.
  intros Hm Hf w. unfold finally. destruct (Hm w) as [Hr He]. destruct (m w) as [r w1].
  split; [|done]. simpl. by rewrite Hf.
Qed.
End protocol.

Ltac local_step :=
  lazymatch goal with
  | |- local_ (attempt _ ≫= _) => apply local_attempt; [|intros ?|intros ? ?]
  | |- local_ (_ ≫= _) => apply local_bind; [|intros ?]
  | |- local_ (finally _ _) => apply local_finally; [|done]
  | |- local_ (mret _) => apply local_ret
  | |- local_ (bail _) => apply local_bail
  | |- local_ (throw _) => apply local_throw; done
  | |- local_ (gets _) => apply local_gets
  | |- local_ (modify _) => apply local_modify; done
  | |- local_ (emit_ok _ _ _) => unfold emit_ok
  | |- local_ (emit_fail _ _ _) => unfold emit_fail
  | |- local_ (emit _) => unfold emit
  | |- local_ is_cancelled => unfold is_cancelled
  | |- local_ (sleep _) => unfold sleep
  | |- local_ (fs_create _ _) => unfold fs_create
  | |- local_ (fs_remove _) => unfold fs_remove
  | |- local_ (fs_len _) => unfold fs_len
  | |- local_ (match ?x with _ => _ end) => destruct x
  | |- local_ (let '_ := ?x in _) => destruct x
  end.
Ltac solve_local := repeat first [ assumption | local_step ].

Section render.
Context `{Outside} `{DebugText}.

Lemma wait_child_local fuel call ends out : local_ (wait_child fuel call ends out).
Proof. induction fuel; cbn [wait_child]; solve_local. Qed.
Lemma run_gs_local call args input : local_ (run_gs call args input).
Proof.
  unfold run_gs. apply local_bind; [solve_local|]. intros w. cbv zeta.
  destruct (run_program _ _) as [[dur out]|]; [|solve_local].
  apply local_bind; [solve_local|]. intros _. apply wait_child_local.
Qed.
Lemma fail_unless_success_local call out : local_ (fail_unless_success call out).
Proof. unfold fail_unless_success. cbv zeta. solve_local. Qed.
Lemma read_orientation_local call pdf kind : local_ (read_orientation call pdf kind).
Proof. unfold read_orientation. apply local_attempt; [apply run_gs_local|intros ?|intros ? ?]; solve_local. Qed.
Lemma open_all_plain paths f e : open_all paths f = Err e → marker e = None.
Proof.
  induction paths as [|p paths IH]; simpl; [done|]. destruct (f !! p); [|by intros [= <-]].
  destruct (open_all paths f); [done|]. intros [= <-]. by apply IH.
Qed.
Lemma merge_files_local kind paths out : local_ (merge_files kind paths out).
Proof.
  unfold merge_files. apply local_bind; [solve_local|]. intros f.
  destruct (open_all paths f) as [l|e] eqn:E; [|apply open_all_plain in E]; solve_local.
Qed.
Lemma render_each_local call base pdf runs n : local_ (render_each call base pdf runs n).
Proof.
  revert n. induction runs as [|[run file] runs IH]; intros n; cbn [render_each]; [solve_local|].
  apply local_bind; [apply run_gs_local|]. intros out.
  apply local_bind; [apply fail_unless_success_local|]. intros _. apply IH.
Qed.
Lemma render_runs_local call base pdf out kind runs : local_ (render_runs call base pdf out kind runs).
Proof.
  unfold render_runs. cbv zeta. apply local_finally; [|done].
  apply local_bind; [apply render_each_local|]. intros n.
  apply local_attempt; [apply merge_files_local|intros ?|intros ? ?]; cbv zeta; solve_local.
Qed.
Lemma render_local pdf out device res job_id : local_ (render pdf out device res job_id).
Proof.
  unfold render. destruct ghostscript as [gs|]; [|solve_local]. cbv zeta.
  do 2 (apply local_bind; [solve_local|intros ?]).
  apply local_bind; [destruct (for_device device); [apply read_orientation_local|solve_local]|intros o].
  apply local_bind; [destruct (calls o); [|apply render_runs_local]|intros lines].
  { apply local_bind; [apply run_gs_local|intros ?].
    apply local_bind; [apply fail_unless_success_local|intros ?]. solve_local. }
  solve_local.
Qed.

(** ** The whole print *)

Lemma for_each_remove l w :
  ∃ w', for_each l fs_remove w = (Ok tt : result AnyError unit, w') ∧ requests w' = requests w ∧
    files w' = foldl (λ f p, delete p f) (files w) l.
Proof.
  revert w. induction l as [|p l IH]; intros w; [by exists w|].
  destruct (IH (set_files (delete p (files w)) w)) as (w' & E & Hr & Hf). by exists w'.
Qed.

Lemma print_ipp_run d job pdf w r w' :
  timely → 0 ≤ poll_timeout d → print_ipp d job pdf w = (r, w') →
  (pr_local_state (report_of r) = Failed ∧ requests w' = requests w) ∨
  ∃ f page_files ends reqs, requests w' = requests w ++ reqs ∧
    pages_run d job f (length (requests w)) page_files ends reqs ∧
    pr_local_state (report_of r) = job_end ends.
Proof.
  intros Ht Hp E. unfold print_ipp in E. cbv zeta in E.
  destruct (render pdf (with_extension pdf "pwg") (gs_device d) (gs_resolution d) (ji_job_id job) w)
    as [r1 w1] eqn:E1. rewrite (bind_result_run _ _ _ _ _ E1) in E.
  destruct (render_local pdf (with_extension pdf "pwg") (gs_device d) (gs_resolution d) (ji_job_id job) w)
    as [Hr He]. rewrite E1 in Hr, He. simpl in Hr, He. destruct r1 as [res|e].
  2: { left. injection E as <- <-. rewrite report_state, (He e eq_refl). done. }
  right. destruct (send_pages d job (page_files res) (display_of job) w1) as [r2 w2] eqn:E2.
  rewrite (bind_attempt _ _ _ _ _ E2) in E.
  destruct (for_each_remove (page_files res) w2) as (w3 & E3 & Hr3 & _).
  rewrite (bind_result_run _ _ _ _ _ E3) in E.
  assert (r = r2 ∧ requests w' = requests w3) as [-> Hr'].
  { destruct r2 as [[]|e]; injection E as <- <-; done. }
  unfold send_pages in E2.
  destruct (send_from_run _ _ _ _ 0 _ _ _ _ Ht Hp (Z.le_refl 0) eq_refl E2)
    as (ends & reqs & st & Hx & Hrun & Hend & _).
  exists (files w1), (page_files res), ends, reqs. rewrite Hr in Hrun.
  split; [|done]. by rewrite Hr', Hr3, (ext_requests _ _ _ _ Hx), Hr.
Qed.
End render.
