(* ===== verification/PortosPayload.v ===== *)
(** * Fiscal payloads

    [src/crates/devbridge-client/src/device_jobs/portos/payload.rs]: the
    operations of [fiscal.*] jobs, the key of a receipt, the check of a payload
    (its problems in the order they are found) and the requests built of it.
    The hash and the reading of RFC 3339 dates are other crates
    ([ReceiptKeys]). *)

From Stdlib Require Import ZArith Ascii String Floats.SpecFloat.
From S2P Require Import Prelude RustStd Text Floats Core Json.
#[local] Open Scope Z_scope.

Definition CODE_BAD_PAYLOAD : string := "bad_payload".
Definition MAX_ABS_AMOUNT : f64 := f64_of_Z 10000000.
Definition MAX_NAME_CHARS : Z := 255.
Definition MAX_EXTERNAL_ID_CHARS : Z := 128.
Definition MAX_PARAGON_NUMBER : Z := 4294967295.
Definition PRINT_TEXT_WIDTH : Z := 40.
Definition PRINT_TEXT_MAX_LINES : Z := 80.
Definition MAX_FREE_TEXT_CHARS : Z := 2000.
Definition EXTERNAL_ID_MAX_CHARS : Z := 40.
(** [\u{1a}pagebreak\u{1a}] *)
Definition PAGE_BREAK_TOKEN : string := of_chars (26 :: chars "pagebreak" ++ [26]).

(** ** Operations *)

Inductive ReceiptKind := KCashRegister | KInvalid | KDeposit | KWithdraw | KParagon.
#[export] Instance ReceiptKind_eq_dec : EqDecision ReceiptKind.
Proof. solve_decision. Defined.
Definition path (k : ReceiptKind) : string :=
  match k with
  | KCashRegister => "/api/v1/requests/receipts/cash_register"
  | KInvalid => "/api/v1/requests/receipts/invalid"
  | KDeposit => "/api/v1/requests/receipts/deposit"
  | KWithdraw => "/api/v1/requests/receipts/withdraw"
  | KParagon => "/api/v1/requests/receipts/paragon"
  end.
Definition receipt_type (k : ReceiptKind) : string :=
  match k with
  | KCashRegister => "CashRegister"
  | KInvalid => "Invalid"
  | KDeposit => "Deposit"
  | KWithdraw => "Withdraw"
  | KParagon => "Paragon"
  end.

Inductive FiscalOp := Register (k : ReceiptKind) | PrintCopy | OpenDrawer | PrintText.
#[export] Instance FiscalOp_eq_dec : EqDecision FiscalOp.
Proof. solve_decision. Defined.
Definition op_for_job_type (job_type : string) : option FiscalOp :=
  if job_type =t? "fiscal.cash_register" then Some (Register KCashRegister)
  else if job_type =t? "fiscal.invalid" then Some (Register KInvalid)
  else if job_type =t? "fiscal.deposit" then Some (Register KDeposit)
  else if job_type =t? "fiscal.withdraw" then Some (Register KWithdraw)
  else if job_type =t? "fiscal.paragon" then Some (Register KParagon)
  else if job_type =t? "fiscal.print_copy" then Some PrintCopy
  else if job_type =t? "fiscal.open_drawer" then Some OpenDrawer
  else if job_type =t? "fiscal.print_text" then Some PrintText
  else None.

(** SHA-256 in lower-case hexadecimal, and the instant an RFC 3339 text with
    its offset names. *)
Class ReceiptKeys : Type := {
  sha256_text : string → string;
  parse_from_rfc3339 : string → option Z;
}.
Definition external_id `{ReceiptKeys} (kasa_id : Z) (client_uuid : string) : string :=
  "dbj-" +:+ String.substring 0 32 (sha256_text (z_to_string kasa_id +:+ ":" +:+ client_uuid)).

(** ** Scalars (by their bytes; each is ASCII where it is accepted) *)

Definition in_span (lo hi x : Z) : bool := (lo <=? x) && (x <=? hi).

Definition client_uuid_ok (client_uuid : string) : bool :=
  in_span 1 64 (byte_len client_uuid)
  && forallb (λ b, is_ascii_alphanumeric b || (b =? 95) || (b =? 45)) (bytes_of client_uuid).

(** [{x:.places$}] of a finite number. *)
Definition fixed (places : nat) (x : f64) : string :=
  let text (s : bool) (d : Z) :=
    let int_part := z_to_string (d / 10 ^ Z.of_nat places) in
    let frac := z_to_string (d mod 10 ^ Z.of_nat places) in
    (if s then "-" else "") +:+ int_part
      +:+ match places with
          | O => ""
          | S _ => "." +:+ zeros (places - String.length frac) +:+ frac
          end in
  match x with
  | S754_finite s m e =>
    let '(num, den) := scaled (Zpos m) e (Z.of_nat places) in text s (round_half_even num den)
  | S754_zero s => text s 0
  | S754_infinity s => if s then "-inf" else "inf"
  | S754_nan => "NaN"
  end.
Definition has_at_most_decimals (x : f64) (places : nat) : bool :=
  is_finite x && match parse_f64 (chars (fixed places x)) with Some y => f64_eqb y x | None => false end.

Definition cash_register_code_ok (code : string) : bool :=
  in_span 16 17 (byte_len code) && forallb is_ascii_digit (bytes_of code).
Definition uuid_ok (s : string) : bool :=
  let groups := split_on 45 (bytes_of s) in
  (length groups =? 5)%nat
  && forallb (λ gn, (length (fst gn) =? snd gn)%nat && forallb is_ascii_hexdigit (fst gn))
       (combine groups [8; 4; 4; 4; 12]%nat).

(** ** [Checker]: each check gives the problems it adds *)

Record TextRule := mkTextRule { t_required : bool; t_max : Z; t_printable : bool }.
Definition text_required (max : Z) : TextRule := mkTextRule true max true.
Definition text_optional (max : Z) : TextRule := mkTextRule false max true.
Definition optional_tokens (max : Z) : TextRule := mkTextRule false max false.
Record Num := mkNum { n_required : bool; n_nullable : bool; n_places : nat; n_non_negative : bool }.
Definition num_required (places : nat) : Num := mkNum true false places false.
Definition num_optional (places : nat) : Num := mkNum false false places false.

Definition ITEM_TYPES : list string :=
  ["Positive"; "ReturnedContainer"; "Returned"; "Correction"; "Discount"; "Advance"; "Voucher"].
Definition TAX_FREE_REASONS : list string :=
  ["VATReverseCharge"; "VATExemptionGood"; "TravelAgency"; "UsedGood"; "Artwork"; "CollectiblesAndAntiques"].
Definition CUSTOMER_ID_TYPES : list string := ["ICO"; "DIC"; "ICDPH"; "Other"].
Definition SELLER_ID_TYPES : list string := ["DIC"; "ICDPH"].
Definition PRINTER_NAMES : list string := ["pos"; "pdf"; "email"].
Definition DRAWER_PINS : list string := ["Pin2"; "Pin5"].

Definition Problems : Type := list string.
Definition fail_at (path rule : string) : Problems := [path +:+ " " +:+ rule].
Definition at_key (path key : string) : string := path +:+ "." +:+ key.
Definition at_index (path : string) (i : nat) : string := path +:+ "[" +:+ z_to_string (Z.of_nat i) +:+ "]".
Definition entries (v : Value) : list (string * Value) := match v with VObject es => es | _ => [] end.
Definition contains_key (key : string) (v : Value) : bool := match get_field key v with Some _ => true | None => false end.

(** [if let Some(obj) = self.object(v, path) { f(obj) }] *)
Definition object (v : Value) (path : string) (f : Value → Problems) : Problems :=
  if is_object v then f v else fail_at path "must be an object".
Definition only_keys (obj : Value) (path : string) (allowed : list string) : Problems :=
  e ← entries obj; if text_in (fst e) allowed then [] else fail_at (at_key path (fst e)) "is not allowed".

Definition string_problems (field s : string) (rule : TextRule) : Problems :=
  let n := Z.of_nat (length (chars s)) in
  if (n =? 0) || is_blank s then fail_at field "must not be empty"
  else if t_max rule <? n then fail_at field ("must have at most " +:+ z_to_string (t_max rule) +:+ " characters")
  else if t_printable rule && existsb is_control (chars s) then
    fail_at field "must not contain control characters"
  else [].
Definition check_string (obj : Value) (path key : string) (rule : TextRule) : Problems :=
  let field := at_key path key in
  match get_field key obj with
  | None | Some VNull => if t_required rule then fail_at field "is required" else []
  | Some (VString s) => string_problems field s rule
  | Some _ => fail_at field "must be a string"
  end.

Definition f64_neg (x : f64) : f64 := SFopp x.
Definition number_problems (field : string) (x : f64) (rule : Num) : Problems :=
  if negb (has_at_most_decimals x (n_places rule)) then
    fail_at field ("must have at most " +:+ z_to_string (Z.of_nat (n_places rule)) +:+ " decimal places")
  else if f64_ltb MAX_ABS_AMOUNT (f64_abs x) || (n_non_negative rule && f64_ltb x f64_zero) then
    let low := if n_non_negative rule then f64_zero else f64_neg MAX_ABS_AMOUNT in
    fail_at field ("must be between " +:+ f64_to_string low +:+ " and " +:+ f64_to_string MAX_ABS_AMOUNT)
  else [].
Definition check_number (obj : Value) (path key : string) (rule : Num) : Problems :=
  let field := at_key path key in
  match get_field key obj with
  | None => if n_required rule then fail_at field "is required" else []
  | Some v =>
    if is_null v && n_nullable rule then []
    else match as_f64 v with
         | Some x => number_problems field x rule
         | None => fail_at field "must be a number"
         end
  end.

Definition eq_ignore_ascii_case (a b : string) : bool := ascii_lowercase a =t? ascii_lowercase b.
Definition one_of (obj : Value) (path key : string) (allowed : list string) (required : bool) : Problems :=
  let field := at_key path key in
  let wrong := fail_at field ("must be one of " +:+ String.concat ", " allowed) in
  match get_field key obj with
  | None | Some VNull => if required then fail_at field "is required" else []
  | Some (VString s) => if existsb (λ a, eq_ignore_ascii_case a s) allowed then [] else wrong
  | Some _ => wrong
  end.
Definition party (obj : Value) (path key : string) (types : list string) : Problems :=
  let field := at_key path key in
  match get_field key obj with
  | None | Some VNull => []
  | Some v => object v field (λ party,
      only_keys party field ["id"; "type"] ++ check_string party field "id" (text_required 64)
      ++ one_of party field "type" types true)
  end.
Definition check_cash_register_code (obj : Value) (path key : string) : Problems :=
  let field := at_key path key in
  let wrong := fail_at field "must be the 16-17 digit cash register (ORP) code" in
  match get_field key obj with
  | Some (VString code) => if cash_register_code_ok code then [] else wrong
  | None | Some VNull => fail_at field "is required"
  | Some _ => wrong
  end.
Definition finish (problems : Problems) : result string unit :=
  match problems with [] => Ok tt | _ => Err (String.concat "; " problems) end.

(** ** A receipt *)

Section check.
Context `{ReceiptKeys}.

Definition FORMAT : string :=
  "must be a date and time with its UTC offset (RFC 3339, e.g. 2026-10-23T19:00:22+02:00)".
Definition issue_date_problem (value : option Value) (now : Z) : option string :=
  match value with
  | None | Some VNull => Some "is required"
  | Some (VString s) =>
    match parse_from_rfc3339 s with
    | Some written => if now <? written then Some "must not be later than now (the store PC's clock)" else None
    | None => Some FORMAT
    end
  | Some _ => Some FORMAT
  end.
Definition check_paragon (data : Value) (path : string) (now : Z) : Problems :=
  let field := at_key path "paragonNumber" in
  match issue_date_problem (get_field "issueDate" data) now with
  | Some rule => fail_at (at_key path "issueDate") rule
  | None => []
  end
  ++ match get_field "paragonNumber" data with
     | None | Some VNull => fail_at field "is required"
     | Some n =>
       match as_u64_value n with
       | Some z => if in_span 1 MAX_PARAGON_NUMBER z then []
                   else fail_at field ("must be a whole number between 1 and " +:+ z_to_string MAX_PARAGON_NUMBER)
       | None => fail_at field ("must be a whole number between 1 and " +:+ z_to_string MAX_PARAGON_NUMBER)
       end
     end.

Definition ITEM_KEYS : list string :=
  ["type"; "name"; "price"; "unitPrice"; "quantity"; "referenceReceiptId"; "vatRate"; "specialRegulation";
   "voucherNumber"; "seller"; "description"].
Definition check_quantity (it : Value) (ipath : string) : Problems :=
  let qpath := at_key ipath "quantity" in
  match get_field "quantity" it with
  | None | Some VNull => fail_at qpath "is required"
  | Some q => object q qpath (λ q,
      only_keys q qpath ["amount"; "unit"]
      ++ check_number q qpath "amount" (mkNum true false 4 true)
      ++ check_string q qpath "unit" (text_optional 3))
  end.
Definition check_item (ipath : string) (item : Value) : Problems :=
  object item ipath (λ it,
    only_keys it ipath ITEM_KEYS
    ++ one_of it ipath "type" ITEM_TYPES true
    ++ check_string it ipath "name" (text_required MAX_NAME_CHARS)
    ++ check_number it ipath "price" (num_required 2)
    ++ check_number it ipath "unitPrice" (num_required 6)
    ++ check_number it ipath "vatRate" (mkNum false true 2 false)
    ++ check_string it ipath "referenceReceiptId" (text_optional MAX_NAME_CHARS)
    ++ one_of it ipath "specialRegulation" TAX_FREE_REASONS false
    ++ check_string it ipath "voucherNumber" (text_optional 50)
    ++ check_string it ipath "description" (optional_tokens MAX_FREE_TEXT_CHARS)
    ++ party it ipath "seller" SELLER_ID_TYPES
    ++ check_quantity it ipath).
Definition check_each (check : string → Value → Problems) (field : string) (l : list Value) : Problems :=
  concat (imap (λ i v, check (at_index field i) v) l).
Definition check_items (data : Value) (path : string) : Problems :=
  let field := at_key path "items" in
  match get_field "items" data with
  | Some (VArray []) => fail_at field "must not be empty"
  | Some (VArray items) => check_each check_item field items
  | None | Some VNull => fail_at field "is required"
  | Some _ => fail_at field "must be a list"
  end.
Definition check_payment (ppath : string) (payment : Value) : Problems :=
  object payment ppath (λ p,
    only_keys p ppath ["name"; "amount"]
    ++ check_string p ppath "name" (text_required MAX_NAME_CHARS)
    ++ check_number p ppath "amount" (num_required 2)).
Definition check_payments (data : Value) (path : string) : Problems :=
  let field := at_key path "payments" in
  match get_field "payments" data with
  | None | Some VNull => []
  | Some (VArray payments) => check_each check_payment field payments
  | Some _ => fail_at field "must be a list"
  end.

Definition check_print (obj : Value) (kind : ReceiptKind) : Problems :=
  match get_field "print" obj with
  | None | Some VNull => []
  | Some print =>
    if bool_decide (kind = KParagon) then
      fail_at "payload.print" "is not allowed for a paragon (a paragón takes no print context)"
    else object print "payload.print" (λ p,
      only_keys p "payload.print" ["printerName"; "options"]
      ++ one_of p "payload.print" "printerName" PRINTER_NAMES true
      ++ match get_field "options" p with
         | None | Some VNull => []
         | Some options => object options "payload.print.options" (λ _, [])
         end)
  end.
Definition wrong_receipt_type (kind : ReceiptKind) (data : Value) : bool :=
  match get_field "receiptType" data with
  | None | Some VNull => false
  | Some (VString s) => negb (eq_ignore_ascii_case s (receipt_type kind))
  | Some _ => true
  end.
Definition RECEIPT_KEYS : list string :=
  ["items"; "payments"; "roundingAmount"; "receiptType"; "headerText"; "footerText"; "cashRegisterCode"].
Definition check_kind (data : Value) (path : string) (kind : ReceiptKind) (now : Z) : Problems :=
  let sale own allowed :=
    own ++ only_keys data path allowed
    ++ check_number data path "roundingAmount" (num_optional 2)
    ++ check_items data path ++ check_payments data path in
  match kind with
  | KDeposit | KWithdraw =>
    only_keys data path ["amount"; "receiptType"; "headerText"; "footerText"; "cashRegisterCode"]
    ++ check_number data path "amount" (num_required 2)
  | KCashRegister => sale (party data path "customer" CUSTOMER_ID_TYPES) (RECEIPT_KEYS ++ ["customer"])
  | KInvalid => sale [] RECEIPT_KEYS
  | KParagon => sale (check_paragon data path now) (RECEIPT_KEYS ++ ["issueDate"; "paragonNumber"])
  end.
Definition check_data (kind : ReceiptKind) (now : Z) (data : Value) : Problems :=
  let path := "payload.data" in
  check_cash_register_code data path "cashRegisterCode"
  ++ check_string data path "headerText" (optional_tokens MAX_FREE_TEXT_CHARS)
  ++ check_string data path "footerText" (optional_tokens MAX_FREE_TEXT_CHARS)
  ++ (if wrong_receipt_type kind data
      then fail_at (at_key path "receiptType") ("must be " +:+ receipt_type kind +:+ " (or left out)") else [])
  ++ check_kind data path kind now.
Definition check_register (obj : Value) (kind : ReceiptKind) (now : Z) : Problems :=
  only_keys obj "payload" ["data"; "print"]
  ++ check_print obj kind
  ++ match get_field "data" obj with
     | None => fail_at "payload.data" "is required"
     | Some data => object data "payload.data" (check_data kind now)
     end.

(** ** The other operations *)

Definition check_whole (obj : Value) (spec : string * (Z * Z)) : Problems :=
  let '(key, (low, high)) := spec in
  let ok := match get_field key obj ≫= as_i64_value with Some n => in_span low high n | None => false end in
  if ok then []
  else fail_at (at_key "payload" key)
         ("must be a whole number between " +:+ z_to_string low +:+ " and " +:+ z_to_string high).
Definition COPY_KEYS : list string :=
  ["cashRegisterCode"; "externalId"; "id"; "year"; "month"; "receiptNumber"].
Definition bool_Z (b : bool) : Z := if b then 1 else 0.
Definition check_print_copy (obj : Value) : Problems :=
  let path := "payload" in
  let by_number := existsb (λ k, contains_key k obj) ["year"; "month"; "receiptNumber"] in
  let ways := bool_Z (contains_key "externalId" obj) + bool_Z (contains_key "id" obj) + bool_Z by_number in
  only_keys obj path COPY_KEYS
  ++ check_cash_register_code obj path "cashRegisterCode"
  ++ (if negb (ways =? 1) then
        fail_at path "must name the receipt exactly one way: externalId, id, or year + month + receiptNumber"
      else if contains_key "externalId" obj then
        check_string obj path "externalId" (text_required MAX_EXTERNAL_ID_CHARS)
      else if contains_key "id" obj then
        match get_field "id" obj ≫= as_str with
        | Some s => if uuid_ok s then [] else fail_at "payload.id" "must be the Portos request id (a UUID)"
        | None => fail_at "payload.id" "must be the Portos request id (a UUID)"
        end
      else concat (map (check_whole obj)
             [("year", (2019, 9999)); ("month", (1, 12)); ("receiptNumber", (1, 4294967295))])).

Definition FORMAT_CHARS : list (Z * Z) :=
  [(0xAD, 0xAD); (0x600, 0x605); (0x61C, 0x61C); (0x6DD, 0x6DD); (0x70F, 0x70F); (0x890, 0x891);
   (0x8E2, 0x8E2); (0x180E, 0x180E); (0x200B, 0x200F); (0x202A, 0x202E); (0x2060, 0x2064);
   (0x2066, 0x206F); (0xFEFF, 0xFEFF); (0xFFF9, 0xFFFB); (0x110BD, 0x110BD); (0x110CD, 0x110CD);
   (0x13430, 0x1343F); (0x1BCA0, 0x1BCA3); (0x1D173, 0x1D17A); (0xE0001, 0xE0001); (0xE0020, 0xE007F)].
Definition is_format_char (c : Z) : bool := existsb (λ r, in_span (fst r) (snd r) c) FORMAT_CHARS.
Definition print_line_problem (line : string) : option string :=
  if PRINT_TEXT_WIDTH <? Z.of_nat (length (chars line)) then
    Some ("must have at most " +:+ z_to_string PRINT_TEXT_WIDTH +:+ " characters")
  else if existsb (λ c, is_control c || is_format_char c) (chars line) then
    Some "must not contain control or format characters"
  else None.
Definition line_problems (field line : string) : Problems :=
  match print_line_problem line with Some rule => fail_at field rule | None => [] end.
Definition check_text_line (field : string) (v : Value) : Problems :=
  match as_str v with Some line => line_problems field line | None => fail_at field "must be a string" end.
Definition check_print_text (obj : Value) : Problems :=
  only_keys obj "payload" ["title"; "lines"; "cut"]
  ++ match get_field "title" obj with
     | None | Some VNull => fail_at "payload.title" "is required"
     | Some (VString title) =>
       if is_blank title then fail_at "payload.title" "must not be empty" else line_problems "payload.title" title
     | Some _ => fail_at "payload.title" "must be a string"
     end
  ++ match get_field "lines" obj with
     | Some (VArray []) => fail_at "payload.lines" "must not be empty"
     | Some (VArray lines) =>
       if PRINT_TEXT_MAX_LINES <? Z.of_nat (length lines) then
         fail_at "payload.lines" ("must have at most " +:+ z_to_string PRINT_TEXT_MAX_LINES +:+ " items")
       else check_each check_text_line "payload.lines" lines
     | None | Some VNull => fail_at "payload.lines" "is required"
     | Some _ => fail_at "payload.lines" "must be a list"
     end
  ++ match get_field "cut" obj with
     | Some (VBool _) => []
     | _ => fail_at "payload.cut" "must be true or false"
     end.

Definition check_payload_at (op : FiscalOp) (payload : Value) (now : Z) : result string unit :=
  finish (object payload "payload" (λ obj,
    match op with
    | Register kind => check_register obj kind now
    | PrintCopy => check_print_copy obj
    | OpenDrawer => only_keys obj "payload" ["pin"] ++ one_of obj "payload" "pin" DRAWER_PINS false
    | PrintText => check_print_text obj
    end)).
End check.

(** ** The requests *)

Definition pointer (keys : list string) (v : Value) : option Value :=
  fold_left (λ o k, o ≫= get_field k) keys (Some v).
Definition cash_register_code (op : FiscalOp) (payload : Value) : option string :=
  match op with
  | Register _ => pointer ["data"; "cashRegisterCode"] payload
  | PrintCopy => get_field "cashRegisterCode" payload
  | OpenDrawer | PrintText => None
  end ≫= as_str.
Definition register_body (payload : Value) (external_id : string) : Value :=
  let request := VObject [("data", default VNull (get_field "data" payload)); ("externalId", VString external_id)] in
  VObject (match get_field "print" payload with
           | None | Some VNull => [("request", request)]
           | Some print => [("print", print); ("request", request)]
           end).
Definition COPY_PARAMS : list (string * string) :=
  [("cashRegisterCode", "CashRegisterCode"); ("externalId", "ExternalId"); ("id", "Id"); ("year", "Year");
   ("month", "Month"); ("receiptNumber", "ReceiptNumber")].
Definition copy_query `{JsonText} (payload : Value) : list (string * string) :=
  omap (λ kp, match get_field (fst kp) payload with
              | Some (VString s) => Some (snd kp, s)
              | Some (VNumber n) => Some (snd kp, number_to_string n)
              | _ => None
              end) COPY_PARAMS.
Definition drawer_query (payload : Value) : list (string * string) :=
  match get_field "pin" payload ≫= as_str with Some pin => [("pin", pin)] | None => [] end.
Definition text_rows (payload : Value) : list string :=
  option_list (get_field "title" payload ≫= as_str)
  ++ match get_field "lines" payload ≫= as_array with Some ls => omap as_str ls | None => [] end.
Definition newline : string := of_chars [10].
Definition print_text (payload : Value) : string :=
  String.concat newline (text_rows payload)
  +:+ (if bool_decide ((get_field "cut" payload ≫= as_bool) = Some true) then PAGE_BREAK_TOKEN else "").
Definition print_text_body (payload : Value) : Value :=
  VObject [("contentFlags", VArray []); ("text", VString (print_text payload))].
