(* ===== verification/Portos.v ===== *)
(** * The Portos executor of fiscal jobs

    [src/crates/devbridge-client/src/device_jobs/portos]: [outcome.rs] (what an
    answer of Portos means), [status.rs] (its part of the heartbeat) and
    [mod.rs] (register, control, reconcile, check, probe).  The executor works
    on the device journal and on the calls made so far; what Portos answers may
    depend on all of them ([PortosServer]). *)

From Stdlib Require Import ZArith Ascii String.
From stdpp Require Import gmap.
From S2P Require Import Prelude RustStd Text Core Sqlite Json DeviceApi JournalData JournalCard Journal PortosPayload.
#[local] Open Scope Z_scope.

(** ** [http.rs]: the answer of a call *)

Inductive Reply :=
| Unreachable (e : string)
| Lost (e : string)
| Answer (status : Z) (body : Value).
Definition parse_body `{JsonText} (text : string) : Value := default VNull (json_from_str text).

(** ** [outcome.rs] *)

Definition DEVICE : string := "portos".
Definition CODE_UNREACHABLE : string := "portos_unreachable".
Definition CODE_VALIDATION : string := "portos_validation".
Definition CODE_UNAUTHENTICATED : string := "portos_unauthenticated".
Definition CODE_ENDPOINT_MISSING : string := "portos_endpoint_missing".
Definition CODE_LOOKUP_FAILED : string := "portos_lookup_failed".
Definition CODE_RECEIPT_NOT_FOUND : string := "receipt_not_found".
Definition CODE_REFUSED : string := "portos_refused".
Definition CODE_NOT_EXECUTED : string := "not_executed".
Definition CODE_RETRY_SAFE : string := "outcome_unknown_retry_safe".
Definition PORTOS_RECEIPT_NOT_FOUND : Z := -104.
Definition PORTOS_VALIDATION_ERROR : Z := -900.
Definition MAX_PROBLEM_CHARS : nat := 600.

Inductive Via := ViaRegister | ViaLookup | ViaReconcile.
#[export] Instance Via_eq_dec : EqDecision Via.
Proof. solve_decision. Defined.
Definition via_as_str (v : Via) : string :=
  match v with ViaRegister => "register" | ViaLookup => "lookup" | ViaReconcile => "reconcile" end.

Definition receipt_state (res : Value) : string :=
  match get_field "isSuccessful" res with
  | Some (VBool true) => "online"
  | Some (VBool false) => "rejected"
  | _ => "offline"
  end.
Definition external_id_matches (theirs : option Value) (external_id : string) (via : Via) : bool :=
  match theirs ≫= as_str with
  | Some theirs => theirs =t? external_id
  | None => bool_decide (via = ViaRegister)
  end.
Definition is_number (v : Value) : bool := match v with VNumber _ => true | _ => false end.
Definition number_field (key : string) (v : Value) : option Value :=
  match get_field key v with Some n => if is_number n then Some n else None | None => None end.

(** The result object, its keys in the order of the map. *)
Definition receipt_result (res : Value) (external_id : string) (via : Via) : option Value :=
  request ← get_field "request" res;
  data ← get_field "data" request;
  okp ← get_field "okp" data ≫= as_str;
  receipt_number ← number_field "receiptNumber" data;
  if negb (external_id_matches (get_field "externalId" request) external_id via) then None
  else
    let state := receipt_state res in
    let field := default VNull in
    Some (VObject (
      [("amount", field (get_field "amount" data));
       ("cash_register_code", field (get_field "cashRegisterCode" data));
       ("device", VString DEVICE);
       ("ekasa_error", field (get_field "error" res));
       ("external_id", VString external_id);
       ("is_offline", VBool (state =t? "offline"));
       ("issue_date", field (get_field "issueDate" data));
       ("okp", VString okp)]
      ++ match number_field "paragonNumber" data with Some n => [("paragon_number", n)] | None => [] end
      ++ [("portos_request_id", field (get_field "id" request));
          ("process_date", field (pointer ["response"; "processDate"] res));
          ("receipt_number", receipt_number);
          ("receipt_type", field (get_field "receiptType" data));
          ("rounding_amount", field (get_field "roundingAmount" data));
          ("state", VString state);
          ("uid", field (pointer ["response"; "data"; "id"] res));
          ("via", VString (via_as_str via))])).

Definition problem_code (body : Value) : option Z := get_field "code" body ≫= as_i64_value.
Definition error_texts (messages : Value) : list string :=
  match as_array messages with Some m => omap as_str m | None => [] end.
Definition problem_parts (status : Z) (body : Value) : list string :=
  ["HTTP " +:+ z_to_string status]
  ++ match problem_code body with Some c => ["code " +:+ z_to_string c] | None => [] end
  ++ omap (λ key, match get_field key body ≫= as_str with
                  | Some t => if t =t? "" then None else Some t
                  | None => None
                  end) ["title"; "detail"]
  ++ match get_field "errors" body with
     | Some (VObject errors) =>
       map (λ e, fst e +:+ ": " +:+ String.concat " " (error_texts (snd e))) errors
     | _ => []
     end.
Definition problem_text (status : Z) (body : Value) : string :=
  take_chars MAX_PROBLEM_CHARS (String.concat " | " (problem_parts status body)).

Definition is_validation (status : Z) (body : Value) : bool :=
  ((status =? 400) || (status =? 422))
  && match problem_code body with Some c => c =? PORTOS_VALIDATION_ERROR | None => true end.
Definition is_missing_endpoint (status : Z) (body : Value) : bool :=
  ((status =? 404) || (status =? 405)) && bool_decide (problem_code body = None).
Definition is_problem (body : Value) : bool := contains_key "status" body || contains_key "title" body.
Definition in_hundred (h status : Z) : bool := (h * 100 <=? status) && (status <? (h + 1) * 100).

Inductive Lookup :=
| Found (v : Value)
| NotFound
| LookupUnreachable (e : string)
| LookupFailed (e : string).

Definition classify_lookup (reply : Reply) : Lookup :=
  match reply with
  | Unreachable e => LookupUnreachable e
  | Lost e => LookupFailed ("no answer: " +:+ e)
  | Answer status body =>
    if (status =? 200) && is_object body then Found body
    else if status =? 204 then NotFound
    else if (status =? 404) && bool_decide (problem_code body = None) && is_problem body then NotFound
    else if in_hundred 4 status && bool_decide (problem_code body = Some PORTOS_RECEIPT_NOT_FOUND) then NotFound
    else LookupFailed (problem_text status body)
  end.

Definition reconciled_text (external_id : string) : string :=
  "reconciled by externalId " +:+ external_id +:+ ", never registered again".
Definition register_outcome (reply : Reply) (kind : ReceiptKind) (external_id : string) : Outcome :=
  let reconciled := reconciled_text external_id in
  match reply with
  | Unreachable e =>
    OFailed CODE_UNREACHABLE
      ("devbridge could not connect to Portos (" +:+ e +:+ ") - the receipt was not sent, nothing ran")
  | Lost e =>
    Indeterminate ("no answer from Portos after the receipt was sent (" +:+ e +:+ ") - it may be registered; "
                     +:+ reconciled)
  | Answer status body =>
    if in_hundred 2 status then
      match receipt_result body external_id ViaRegister with
      | Some result => Done result
      | None => Indeterminate ("Portos answered HTTP " +:+ z_to_string status
                  +:+ " but not with the receipt of externalId " +:+ external_id +:+ " - " +:+ reconciled)
      end
    else if is_validation status body then
      OFailed CODE_VALIDATION ("Portos refused the " +:+ receipt_type kind +:+ " receipt as invalid ("
        +:+ problem_text status body +:+ ") - nothing was registered")
    else if status =? 401 then
      OFailed CODE_UNAUTHENTICATED ("Portos requires authentication (" +:+ problem_text 401 body
        +:+ ") - nothing was registered")
    else if is_missing_endpoint status body then
      OFailed CODE_ENDPOINT_MISSING ("this Portos has no " +:+ path kind +:+ " (" +:+ problem_text status body
        +:+ ") - it cannot register " +:+ receipt_type kind +:+ " receipts; nothing was registered")
    else
      Indeterminate ("Portos answered " +:+ problem_text status body
        +:+ " - the receipt may be registered (a print error comes after registration); " +:+ reconciled)
  end.

Definition control_words (op : FiscalOp) : string * string :=
  match op with
  | OpenDrawer => ("open the drawer", "opened")
  | PrintText => ("print the text", "printed")
  | PrintCopy | Register _ => ("print the receipt copy", "printed")
  end.
Definition control_outcome (reply : Reply) (op : FiscalOp) : Outcome :=
  let '(what, flag) := control_words op in
  let text := bool_decide (op = PrintText) in
  match reply with
  | Unreachable e =>
    OFailed CODE_UNREACHABLE ("devbridge could not connect to Portos (" +:+ e +:+ ") - nothing ran")
  | Lost e => Indeterminate ("no answer from Portos after asking it to " +:+ what +:+ " (" +:+ e +:+ ")")
  | Answer status body =>
    if text && in_hundred 2 status && negb (bool_decide (get_field flag body = Some (VBool true))) then
      OFailed CODE_RETRY_SAFE ("Portos accepted the text but did not report it printed (HTTP "
        +:+ z_to_string status
        +:+ "; 202 = the printer was not ready, some models print later); no fiscal record, the till may simply retry")
    else if text && (500 <=? status) then
      OFailed CODE_RETRY_SAFE ("Portos answered " +:+ problem_text status body
        +:+ " when asked to print the text; no fiscal record, the till may simply retry")
    else if in_hundred 2 status then
      Done (VObject (if flag =t? "opened"
                     then [("device", VString DEVICE); ("opened", default VNull (get_field flag body));
                           ("printer_ready", VBool (status =? 200))]
                     else [("device", VString DEVICE); ("printed", default VNull (get_field flag body));
                           ("printer_ready", VBool (status =? 200))]))
    else if bool_decide (problem_code body = Some PORTOS_RECEIPT_NOT_FOUND) then
      OFailed CODE_RECEIPT_NOT_FOUND ("Portos has no such receipt (" +:+ problem_text status body
        +:+ ") - nothing was printed")
    else if is_validation status body then
      OFailed CODE_VALIDATION ("Portos refused the request as invalid (" +:+ problem_text status body
        +:+ ") - nothing ran")
    else if status =? 401 then
      OFailed CODE_UNAUTHENTICATED ("Portos requires authentication (" +:+ problem_text 401 body
        +:+ ") - nothing ran")
    else if is_missing_endpoint status body then
      OFailed CODE_ENDPOINT_MISSING ("this Portos cannot " +:+ what +:+ " (" +:+ problem_text status body
        +:+ ") - nothing ran")
    else if in_hundred 4 status then
      OFailed CODE_REFUSED ("Portos refused to " +:+ what +:+ " (" +:+ problem_text status body +:+ ") - nothing ran")
    else Indeterminate ("Portos answered " +:+ problem_text status body +:+ " when asked to " +:+ what)
  end.
Definition retry_safe_text (op : FiscalOp) : string :=
  let what := match op with
              | OpenDrawer => "the drawer opened"
              | PrintText => "the text was printed"
              | PrintCopy | Register _ => "the receipt copy was printed"
              end in
  "devbridge cannot tell whether " +:+ what
    +:+ " (Portos never answered); it leaves no fiscal record, so the till may simply retry".

Inductive Unprocessed := Listed | NotListed | UnprocessedFailed (e : string).
Definition classify_unprocessed (reply : Reply) (external_id : string) : Unprocessed :=
  match reply with
  | Answer status body =>
    if status =? 204 then NotListed
    else
      match as_array body with
      | Some l =>
        if status =? 200 then
          if existsb (λ r, bool_decide ((pointer ["request"; "externalId"] r ≫= as_str) = Some external_id)) l
          then Listed else NotListed
        else UnprocessedFailed (problem_text status body)
      | None => UnprocessedFailed (problem_text status body)
      end
  | Unreachable e | Lost e => UnprocessedFailed e
  end.
Definition sent_but_not_found_text (unprocessed : Unprocessed) (external_id : string) : string :=
  match unprocessed with
  | Listed =>
    "Portos lists the request with externalId " +:+ external_id +:+ " as not processed yet - waiting for Portos"
  | NotListed =>
    "devbridge sent the receipt but Portos has neither a receipt nor an unprocessed request with externalId "
      +:+ external_id
      +:+ "; Portos' documentation does not prove that a request whose answer was lost was never stored (it may still be inside Portos, or its index table may be incomplete) - a person must check Portos WebAdmin for externalId "
      +:+ external_id +:+ "; never register this sale again under another id"
  | UnprocessedFailed e =>
    "Portos has no receipt with externalId " +:+ external_id +:+ "; its unprocessed list could not be read ("
      +:+ e +:+ ") - asked again later"
  end.

(** ** [status.rs] *)

Inductive DeviceState := DOk | DUnknown | DDegraded (detail : string) | DOffline.
#[export] Instance DeviceState_eq_dec : EqDecision DeviceState.
Proof. solve_decision. Defined.
Definition severity (s : DeviceState) : Z :=
  match s with DOk => 0 | DUnknown => 1 | DDegraded _ => 2 | DOffline => 3 end.
Definition label (s : DeviceState) : string :=
  match s with
  | DOk => "ok" | DUnknown => "unknown" | DOffline => "offline"
  | DDegraded detail => "degraded(" +:+ detail +:+ ")"
  end.
(** [max_by_key]: the last of the worst. *)
Definition worse (a b : DeviceState) : DeviceState := if severity a <=? severity b then b else a.
Definition worst_of (states : list DeviceState) : string :=
  match states with [] => label DUnknown | s :: ss => label (fold_left worse ss s) end.
(** The values of the map are in the order of its keys. *)
Definition worst (states : gmap string DeviceState) : string :=
  worst_of (map snd (order_by fst (map_to_list states))).
Definition probe_state (info printer : Reply) : DeviceState :=
  match info with
  | Answer 200 (VObject _) =>
    match printer with
    | Answer 200 body =>
      let text key := default "?" (get_field key body ≫= as_str) in
      let state := text "state" in
      let paper := text "paperState" in
      if (state =t? "Ready") && negb ((paper =t? "Empty") || (paper =t? "CoverOpen")) then DOk
      else DDegraded ("printer=" +:+ state +:+ ",paper=" +:+ paper)
    | _ => DDegraded "printer status unreadable"
    end
  | _ => DOffline
  end.

(** ** [mod.rs] *)

Definition DEFAULT_PORTOS_URL : string := "http://localhost:3010".
Definition CODE_NO_KASA : string := "no_kasa".
Definition CODE_BAD_CLIENT_UUID : string := "bad_client_uuid".
Definition CODE_JOURNAL : string := "bridge_error".
Definition RECEIPT_PATH : string := "/api/v1/requests/receipts/receipt".
Definition UNPROCESSED_PATH : string := "/api/v1/requests/unprocessed".
Definition PRINT_COPY_PATH : string := "/api/v1/requests/receipts/print_copy".
Definition OPEN_DRAWER_PATH : string := "/api/v1/printers/open_drawer".
Definition PRINT_TEXT_PATH : string := "/api/v1/printers/print".
Definition PRODUCT_INFO_PATH : string := "/api/v1/product/info".
Definition PRINTER_STATUS_PATH : string := "/api/v1/printers/status".

Inductive Method := GET | POST.
#[export] Instance Method_eq_dec : EqDecision Method.
Proof. solve_decision. Defined.
Record PortosCall := mkCall {
  pc_method : Method;
  pc_base : string;
  pc_path : string;
  pc_query : list (string * string);
  pc_body : option Value;
}.
(** Portos: its answer to a call, after the calls before it. *)
Class PortosServer : Type := { portos_reply : list PortosCall → PortosCall → Reply }.

Record PortosConfig := mkPortosConfig { default_url : string; kasy : gmap Z string }.
(** The tills of [[client.pokladna]]: id and [portos_url]. *)
Definition from_pokladna (cfg_kasy : list (Z * option string)) : PortosConfig :=
  let named := omap (λ k, match base_url <$> snd k with
                          | Some url => if url =t? "" then None else Some (fst k, url)
                          | None => None
                          end) cfg_kasy in
  {| default_url := DEFAULT_PORTOS_URL; kasy := list_to_map (rev named) |}.
Definition url_for (c : PortosConfig) (kasa_id : option Z) : string :=
  default (default_url c) (kasa_id ≫= λ id, kasy c !! id).
Definition endpoints (c : PortosConfig) : list string :=
  order_by (λ u, u) (remove_dups (default_url c :: map snd (map_to_list (kasy c)))).

Record PortosExecutor `{Chrono} := mkPortosExecutor {
  journal : Journal;
  calls : list PortosCall;
  states : gmap string DeviceState;
}.
Definition XM `{Chrono} (A : Type) : Type := M PortosExecutor string A.

Section executor.
Context `{Chrono} `{JsonText} `{ReceiptKeys} `{PortosServer}.
Variable config : PortosConfig.

Definition on_journal {A} (m : JM A) : XM A :=
  zoom journal (λ j x, mkPortosExecutor _ j (calls x) (states x)) m.
Definition portos_call (c : PortosCall) : XM Reply := λ x,
  (Ok (portos_reply (calls x) c), mkPortosExecutor _ (journal x) (calls x ++ [c]) (states x)).
Definition http_get (base path : string) (query : list (string * string)) : XM Reply :=
  portos_call (mkCall GET base path query None).
Definition http_post (base path : string) (query : list (string * string)) (body : option Value) : XM Reply :=
  portos_call (mkCall POST base path query body).

Definition control_request (op : FiscalOp) (payload : Value)
    : string * list (string * string) * option Value :=
  match op with
  | OpenDrawer => (OPEN_DRAWER_PATH, drawer_query payload, None)
  | PrintText => (PRINT_TEXT_PATH, [], Some (print_text_body payload))
  | PrintCopy | Register _ => (PRINT_COPY_PATH, copy_query payload, None)
  end.

Definition receipt_key (job : DeviceJob) (op : FiscalOp) : option (string * string * string) :=
  kasa ← dj_kasa_id job;
  code ← cash_register_code op (dj_payload job);
  Some (url_for config (Some kasa), external_id kasa (dj_client_uuid job), code).

Definition receipt_query (code ext : string) : list (string * string) :=
  [("CashRegisterCode", code); ("ExternalId", ext)].
Definition lookup (base code ext : string) : XM Lookup :=
  r ← http_get base RECEIPT_PATH (receipt_query code ext); mret (classify_lookup r).

Definition NO_KEY : string := "the receipt names no till or cash register code".

(** The register POST, after the lookup found nothing. *)
Definition post_receipt (job : DeviceJob) (kind : ReceiptKind) (base ext : string) : XM Outcome :=
  contact ← attempt (on_journal (mark_device_contact (dj_id job)));
  match contact with
  | Err e =>
    mret (OFailed CODE_JOURNAL ("the device contact could not be journaled (" +:+ e
                                  +:+ ") - the receipt was not sent, nothing ran"))
  | Ok _ =>
    r ← http_post base (path kind) [] (Some (register_body (dj_payload job) ext));
    mret (register_outcome r kind ext)
  end.

Definition register (job : DeviceJob) (kind : ReceiptKind) : XM Outcome :=
  match receipt_key job (Register kind) with
  | None => mret (OFailed CODE_BAD_PAYLOAD (NO_KEY +:+ " - nothing ran"))
  | Some (base, ext, code) =>
    found ← lookup base code ext;
    match found with
    | Found v =>
      mret (match receipt_result v ext ViaLookup with
            | Some result => Done result
            | None => Indeterminate ("Portos found a receipt for externalId " +:+ ext
                +:+ " but its answer is unreadable - reconciled, never registered again")
            end)
    | NotFound => post_receipt job kind base ext
    | LookupUnreachable e =>
      mret (OFailed CODE_UNREACHABLE ("devbridge could not connect to Portos (" +:+ e
              +:+ ") - the receipt was not sent, nothing ran"))
    | LookupFailed e =>
      mret (OFailed CODE_LOOKUP_FAILED ("Portos could not be asked whether externalId " +:+ ext
              +:+ " is registered (" +:+ e +:+ ") - the receipt was not sent, nothing ran"))
    end
  end.

Definition control_at (kasa_id : option Z) (op : FiscalOp) (payload : Value) : XM Outcome :=
  let '(path, query, body) := control_request op payload in
  r ← http_post (url_for config kasa_id) path query body;
  mret (control_outcome r op).
Definition control (job : DeviceJob) (op : FiscalOp) : XM Outcome :=
  control_at (dj_kasa_id job) op (dj_payload job).

Definition reconcile_not_found (base code ext : string) (contacted : bool) : XM Reconciliation :=
  if negb contacted then
    mret (RFailed CODE_NOT_EXECUTED
      ("devbridge never sent this receipt to Portos (the journal has no device contact) and Portos has no receipt with externalId "
         +:+ ext +:+ " - nothing ran"))
  else
    r ← http_get base UNPROCESSED_PATH (receipt_query code ext);
    mret (StillUnknown (sent_but_not_found_text (classify_unprocessed r ext) ext)).
Definition reconcile_receipt (entry : JournalEntry) (kind : ReceiptKind) : XM Reconciliation :=
  match receipt_key (je_job entry) (Register kind) with
  | None => mret (StillUnknown (NO_KEY +:+ " - a person must check it in Portos"))
  | Some (base, ext, code) =>
    found ← lookup base code ext;
    match found with
    | Found v =>
      mret (match receipt_result v ext ViaReconcile with
            | Some result => RDone result
            | None => StillUnknown ("Portos found a receipt for externalId " +:+ ext
                +:+ " but its answer is unreadable - a person must check it in Portos")
            end)
    | LookupUnreachable e | LookupFailed e =>
      mret (StillUnknown ("Portos could not be asked about externalId " +:+ ext +:+ " (" +:+ e
              +:+ ") - asked again later"))
    | NotFound => reconcile_not_found base code ext (negb (is_none (je_contact_at entry)))
    end
  end.

Definition no_operation (job_type : string) : string :=
  "the Portos executor has no operation for job type '" +:+ job_type +:+ "'".
(** [DeviceExecutor for PortosExecutor] *)
Definition check (job : DeviceJob) (now : Z) : result Rejection unit :=
  match op_for_job_type (dj_job_type job) with
  | None => Err (mkRejection CODE_UNSUPPORTED
                   (no_operation (dj_job_type job) +:+ " - Portos was not contacted, nothing ran"))
  | Some op =>
    if is_none (dj_kasa_id job) then
      Err (mkRejection CODE_NO_KASA
        "the job names no till (kasa) - devbridge cannot choose its Portos, nothing ran")
    else if match op with Register _ => negb (client_uuid_ok (dj_client_uuid job)) | _ => false end then
      Err (mkRejection CODE_BAD_CLIENT_UUID
        "client_uuid must match [A-Za-z0-9_-]{1,64} (it is part of the receipt's externalId) - Portos was not contacted, nothing ran")
    else
      match check_payload_at op (dj_payload job) now with
      | Ok _ => Ok tt
      | Err problems =>
        Err (mkRejection CODE_BAD_PAYLOAD (problems +:+ " - Portos was not contacted, nothing ran"))
      end
  end.
Definition execute (job : DeviceJob) : XM Outcome :=
  match op_for_job_type (dj_job_type job) with
  | Some (Register kind) => register job kind
  | Some op => control job op
  | None => mret (OFailed CODE_UNSUPPORTED (no_operation (dj_job_type job) +:+ " - nothing ran"))
  end.
Definition reconcile (entry : JournalEntry) : XM Reconciliation :=
  let job := je_job entry in
  match op_for_job_type (dj_job_type job) with
  | Some (Register kind) => reconcile_receipt entry kind
  | Some op => mret (RFailed CODE_RETRY_SAFE (retry_safe_text op))
  | None => mret (StillUnknown (no_operation (dj_job_type job) +:+ " - a person must check it"))
  end.

(** [SlipPrinter]: the card terminal's slips. *)
Definition slip_payload (title : string) (lines : list string) : Value :=
  VObject [("cut", VBool true); ("lines", VArray (map VString lines)); ("title", VString title)].
Definition print_slip (kasa_id : Z) (title : string) (lines : list string) (now : Z) : XM (result string unit) :=
  match check_payload_at PrintText (slip_payload title lines) now with
  | Err problems => mret (Err problems)
  | Ok _ =>
    outcome ← control_at (Some kasa_id) PrintText (slip_payload title lines);
    mret (match outcome with
          | Done _ => Ok tt
          | OFailed code text => Err (code +:+ ": " +:+ text)
          | Indeterminate why => Err why
          end)
  end.

(** The heartbeat's probe of one Portos. *)
Definition probe (endpoint : string) : XM DeviceState :=
  info ← http_get endpoint PRODUCT_INFO_PATH [];
  printer ← http_get endpoint PRINTER_STATUS_PATH [];
  mret (probe_state info printer).
Definition record_state (endpoint : string) (state : DeviceState) : XM (option DeviceState) := λ x,
  (Ok (match states x !! endpoint with
       | Some p => if bool_decide (p = state) then None else Some p
       | None => None
       end),
   mkPortosExecutor _ (journal x) (calls x) (<[endpoint := state]> (states x))).
Definition refresh_status : XM unit :=
  for_each (endpoints config) (λ endpoint,
    state ← probe endpoint; _ ← record_state endpoint state; mret tt).
(** What the registry of the device source holds, at the PC's clock [now]. *)
Definition portos_executor (x : PortosExecutor) (now : Z) : DeviceExecutor :=
  {| ex_name := "portos";
     ex_check := λ job, match check job now with Ok _ => None | Err rejection => Some rejection end;
     ex_endpoints := endpoints config;
     ex_endpoint := λ job, url_for config (dj_kasa_id job);
     ex_status := worst (states x) |}.
Definition PortosExecutor_new (j : Journal) : PortosExecutor :=
  mkPortosExecutor _ j [] (list_to_map (map (λ e, (e, DUnknown)) (endpoints config))).
End executor.
