(* ===== verification/PortosTheory.v ===== *)
(** * Theory of the Portos executor

    Which calls register a receipt ([call_key]), which of its answers mean that
    Portos registered nothing ([PortosStore]), what each operation of the executor
    sends and keeps, and the executor as a transition system. *)

From Stdlib Require Import ZArith Ascii String.
From stdpp Require Import gmap relations.
From S2P Require Import Prelude RustStd Text Core Sqlite Json DeviceApi JournalData JournalCard Journal.
From S2P Require Import JournalTheory DeviceTheory PortosPayload Portos.
#[local] Open Scope Z_scope.

(** ** What a call asks of Portos *)

Definition register_paths : list string :=
  map path [KCashRegister; KInvalid; KDeposit; KWithdraw; KParagon].
Definition is_register (c : PortosCall) : bool :=
  bool_decide (pc_method c = POST) && text_in (pc_path c) register_paths.
(** The Portos, the cash register and the externalId of a register request. *)
Definition call_key (c : PortosCall) : option (string * string * string) :=
  if is_register c then
    body ← pc_body c;
    code ← pointer ["request"; "data"; "cashRegisterCode"] body ≫= as_str;
    ext ← pointer ["request"; "externalId"] body ≫= as_str;
    Some (pc_base c, code, ext)
  else None.
Definition lookup_call (k : string * string * string) : PortosCall :=
  let '(base, code, ext) := k in mkCall GET base RECEIPT_PATH (receipt_query code ext) None.
Arguments lookup_call : simpl never.

(** An answer after which Portos has registered nothing: no connection, the
    refusal of an invalid request, of a caller without credentials, or of a
    path it does not have. *)
Definition refused (r : Reply) : bool :=
  match r with
  | Unreachable _ => true
  | Lost _ => false
  | Answer status body => is_validation status body || (status =? 401) || is_missing_endpoint status body
  end.

(** The documented behaviour of Portos (docs/device-jobs-fiscal.md): how many
    receipts it holds for a key after the calls made; only a register request
    adds one, and a refused one adds none.  That a lookup finds every receipt it
    holds is not documented, and not assumed. *)
Class PortosStore `{PortosServer} : Type := {
  stored : list PortosCall → string * string * string → nat;
  stored_other : ∀ cs c k, call_key c ≠ Some k → stored (cs ++ [c]) k = stored cs k;
  stored_register : ∀ cs c k, call_key c = Some k → (stored (cs ++ [c]) k ≤ S (stored cs k))%nat;
  stored_refused : ∀ cs c k, refused (portos_reply cs c) = true → stored (cs ++ [c]) k = stored cs k;
}.

Lemma call_key_get c : pc_method c = GET → call_key c = None.
Proof. unfold call_key, is_register. by intros ->. Qed.
Lemma is_register_get c : pc_method c = GET → is_register c = false.
Proof. unfold is_register. by intros ->. Qed.
Lemma call_key_register c key : call_key c = Some key → is_register c = true.
Proof. unfold call_key. by destruct (is_register c). Qed.
Lemma call_key_base c base code ext : call_key c = Some (base, code, ext) → base = pc_base c.
Proof.
  unfold call_key. destruct (is_register c); [|done]. intros Hk. by simplify_option_eq.
Qed.
Lemma control_is_no_register `{JsonText} op payload base :
  (∀ k, op ≠ Register k) →
  let '(path, query, body) := control_request op payload in
  is_register (mkCall POST base path query body) = false.
Proof. intros Hop. destruct op; [by destruct (Hop k)| | |]; done. Qed.

Lemma get_field_data payload ext :
  pointer ["request"; "data"; "cashRegisterCode"] (register_body payload ext)
  = pointer ["data"; "cashRegisterCode"] payload.
Proof.
  unfold register_body, pointer. simpl.
  by destruct (get_field "print" payload) as [[]|]; simpl; destruct (get_field "data" payload).
Qed.
Lemma get_field_external_id payload ext :
  pointer ["request"; "externalId"] (register_body payload ext) = Some (VString ext).
Proof. unfold register_body, pointer. by destruct (get_field "print" payload) as [[]|]. Qed.

Lemma register_call_key kind payload base code ext :
  cash_register_code (Register kind) payload = Some code →
  call_key (mkCall POST base (path kind) [] (Some (register_body payload ext))) = Some (base, code, ext).
Proof.
  intros Hc. unfold call_key, is_register. cbn [pc_method pc_path pc_body pc_base].
  replace (text_in (path kind) register_paths) with true by (by destruct kind).
  rewrite bool_decide_true by done. simpl. rewrite get_field_data, get_field_external_id. unfold cash_register_code in Hc.
  by rewrite Hc.
Qed.

(** ** What an operation sends *)

Section executor.
Context `{Chrono} `{JsonText} `{ReceiptKeys} `{PortosServer}.
Variable config : PortosConfig.
Abbreviation Executor := PortosExecutor.

(** [sends J P x x']: the calls made meanwhile are all [P], the journal has
    changed as [J] says. *)
Definition sends (J : relation Journal) (P : PortosCall → Prop) (x x' : Executor) : Prop :=
  J (journal x) (journal x') ∧ ∃ cs, calls x' = calls x ++ cs ∧ Forall P cs.
#[export] Instance sends_preorder J P `{!PreOrder J} : PreOrder (sends J P).
Proof.
  split.
  - intros x. split; [reflexivity|]. exists []. by rewrite app_nil_r.
  - intros x y z [J1 (c1 & E1 & F1)] [J2 (c2 & E2 & F2)]. split; [by etrans|].
    exists (c1 ++ c2). rewrite E2, E1, app_assoc. split; [done|by apply Forall_app].
Qed.
Lemma portos_call_sends J P `{!PreOrder J} c : P c → respects (sends J P) (portos_call c).
Proof. intros Hc x. split; [reflexivity|]. exists [c]. simpl. auto. Qed.
Lemma sends_weaken J J' (P P' : PortosCall → Prop) x x' :
  (∀ j j', J j j' → J' j j') → (∀ c, P c → P' c) → sends J P x x' → sends J' P' x x'.
Proof.
  intros HJ HP [Hj (cs & E & F)]. split; [auto|]. exists cs. split; [done|by eapply Forall_impl].
Qed.

Definition reads (c : PortosCall) : Prop := pc_method c = GET.
Definition registers_nothing (c : PortosCall) : Prop := is_register c = false.
Lemma registers_nothing_key c : registers_nothing c → call_key c = None.
Proof. unfold registers_nothing, call_key. by intros ->. Qed.

Lemma http_get_reads base p q : respects (sends eq reads) (http_get base p q).
Proof. exact (portos_call_sends eq reads (mkCall GET base p q None) eq_refl). Qed.
#[local] Hint Resolve http_get_reads : respects.
Lemma lookup_reads base code ext : respects (sends eq reads) (lookup base code ext).
Proof. unfold lookup. solve_respects. Qed.
#[local] Hint Resolve lookup_reads : respects.
Lemma probe_reads e : respects (sends eq reads) (probe e).
Proof. unfold probe. solve_respects. Qed.
#[local] Hint Resolve probe_reads : respects.
Lemma record_state_reads e st : respects (sends eq reads) (record_state e st).
Proof. intros x. split; [done|]. exists []. by rewrite app_nil_r. Qed.
#[local] Hint Resolve record_state_reads : respects.
Lemma refresh_status_reads : respects (sends eq reads) (refresh_status config).
Proof. unfold refresh_status. solve_respects. Qed.
Lemma reconcile_reads entry : respects (sends eq reads) (reconcile config entry).
Proof. unfold reconcile, reconcile_receipt, reconcile_not_found. solve_respects. Qed.

Lemma reads_registers_nothing {A} (m : XM A) :
  respects (sends eq reads) m → respects (sends eq registers_nothing) m.
Proof. apply respects_weaken. intros x x'. apply sends_weaken; [done|]. intros c. apply is_register_get. Qed.

Lemma control_at_sends kasa op payload :
  (∀ k, op ≠ Register k) → respects (sends eq registers_nothing) (control_at config kasa op payload).
Proof.
  intros Hop. unfold control_at. pose proof (control_is_no_register op payload (url_for config kasa) Hop) as Hk.
  destruct (control_request op payload) as [[p q] body].
  apply respects_bind; [apply _|exact (portos_call_sends eq registers_nothing _ Hk)|].
  intros r. solve_respects.
Qed.
Lemma print_slip_sends kasa title lines now :
  respects (sends eq registers_nothing) (print_slip config kasa title lines now).
Proof.
  unfold print_slip. respects_step; [|solve_respects].
  apply respects_bind; [apply _|by apply control_at_sends|]. intros r. solve_respects.
Qed.

(** ** The register request *)

Definition post_call (job : DeviceJob) (kind : ReceiptKind) (base ext : string) : PortosCall :=
  mkCall POST base (path kind) [] (Some (register_body (dj_payload job) ext)).

Lemma receipt_key_spec job kind base ext code :
  receipt_key config job (Register kind) = Some (base, ext, code) →
  ∃ kasa, dj_kasa_id job = Some kasa ∧ ext = external_id kasa (dj_client_uuid job)
    ∧ base = url_for config (Some kasa) ∧ cash_register_code (Register kind) (dj_payload job) = Some code.
Proof.
  unfold receipt_key. destruct (dj_kasa_id job) as [kasa|]; [|done]. simpl.
  destruct (cash_register_code _ _) as [c|] eqn:Hc; simpl; [|done]. intros [= <- <- <-]. eauto.
Qed.
Lemma post_call_key job kind base ext code :
  receipt_key config job (Register kind) = Some (base, ext, code) →
  call_key (post_call job kind base ext) = Some (base, code, ext).
Proof. intros (kasa & _ & _ & _ & Hc)%receipt_key_spec. exact (register_call_key kind _ base code ext Hc). Qed.

(** One run of [register]: no key and no call; the lookup alone, whose receipt
    is then the only result; or the lookup that found nothing, the mark in the
    journal and one request, whose answer is the outcome. *)
Inductive registers (job : DeviceJob) (kind : ReceiptKind) (x : Executor) : Outcome → Executor → Prop :=
| R_no_key text :
    receipt_key config job (Register kind) = None → registers job kind x (OFailed CODE_BAD_PAYLOAD text) x
| R_asked base ext code o j' :
    receipt_key config job (Register kind) = Some (base, ext, code) →
    let key := (base, code, ext) in
    evolves (conn (journal x)) (conn j') →
    (∀ res, o = Done res →
     ∃ v, classify_lookup (portos_reply (calls x) (lookup_call key)) = Found v
          ∧ receipt_result v ext ViaLookup = Some res) →
    registers job kind x o (mkPortosExecutor _ j' (calls x ++ [lookup_call key]) (states x))
| R_posted base ext code marked j' :
    receipt_key config job (Register kind) = Some (base, ext, code) →
    let key := (base, code, ext) in
    classify_lookup (portos_reply (calls x) (lookup_call key)) = NotFound →
    mark_device_contact (dj_id job) (journal x) = (Ok marked, j') →
    registers job kind x
      (register_outcome (portos_reply (calls x ++ [lookup_call key]) (post_call job kind base ext)) kind ext)
      (mkPortosExecutor _ j' (calls x ++ [lookup_call key; post_call job kind base ext]) (states x)).

Lemma lookup_run base code ext x :
  lookup base code ext x
  = (Ok (classify_lookup (portos_reply (calls x) (lookup_call (base, code, ext)))),
     mkPortosExecutor _ (journal x) (calls x ++ [lookup_call (base, code, ext)]) (states x)).
Proof. done. Qed.

Lemma register_registers job kind x :
  ∃ o, fst (register config job kind x) = Ok o
       ∧ registers job kind x o (snd (register config job kind x)).
Proof.
  unfold register. destruct (receipt_key config job (Register kind)) as [[[base ext] code]|] eqn:Hk.
  2: { eexists. split; [done|]. by constructor. }
  rewrite (run_bind _ _ _ _ _ (lookup_run base code ext x)).
  destruct (classify_lookup _) as [v| |e|e] eqn:Hl.
  1, 3, 4: eexists; split; [done|]; eapply R_asked; [done|reflexivity|].
  - intros res Hr. exists v. split; [done|]. destruct (receipt_result v ext ViaLookup); congruence.
  - done.
  - done.
  - unfold post_receipt, on_journal, attempt, zoom, mbind, M_bind. simpl.
    pose proof (mark_device_contact_evolves (dj_id job) (journal x)) as Hm.
    destruct (mark_device_contact (dj_id job) (journal x)) as [[marked|e] j'] eqn:Hj; simpl in *;
      (eexists; split; [done|]).
    + unfold http_post, portos_call, mret, M_ret. simpl. rewrite <- app_assoc. by econstructor.
    + by eapply R_asked.
Qed.

(** ** The job of a journal row *)

(** The journal holds job [j] of till [kasa] with [uuid]; with [contact], the
    device contact of the job is marked too. *)
Definition contact_marked (contact : bool) (p : Progress) : Prop :=
  contact = true → p_contact_at p ≠ None.
Definition job_row (d : JTables) (j kasa : Z) (uuid : string) (contact : bool) : Prop :=
  if is_lan_job j then
    ∃ r, List.find (λ r, l_id r =? lan_job_id j) (lan_jobs d) = Some r
         ∧ l_kasa_id r = kasa ∧ l_client_uuid r = uuid ∧ contact_marked contact (l_progress r)
  else
    ∃ r, List.find (odoo_by_id j) (device_jobs d) = Some r
         ∧ o_kasa_id r = Some kasa ∧ o_client_uuid r = uuid ∧ contact_marked contact (o_progress r).
(** Every row stays, and so does its mark: inserts and all changes but prune. *)
Definition keeps_rows (d d' : JTables) : Prop :=
  ∀ j kasa uuid contact, job_row d j kasa uuid contact → job_row d' j kasa uuid contact.
#[export] Instance keeps_rows_preorder : PreOrder keeps_rows.
Proof. split; unfold keeps_rows; repeat intro; auto. Qed.

Lemma contact_kept b p p' : progress_evolves p p' → contact_marked b p → contact_marked b p'.
Proof.
  intros Hp Hc Hb. specialize (Hc Hb). destruct (p_contact_at p) as [ts|] eqn:Ht; [|done].
  by rewrite (pe_contact _ _ Hp ts Ht).
Qed.
Lemma find_Forall2 {A} (P : A → A → Prop) (f : A → bool) l k x :
  (∀ a b, P a b → f b = f a) → Forall2 P l k → List.find f l = Some x →
  ∃ y, List.find f k = Some y ∧ P x y.
Proof.
  intros Hf. induction 1 as [|a b l k Hab _ IH]; simpl; [done|]. rewrite (Hf _ _ Hab).
  destruct (f a); [|done]. intros [= <-]. eauto.
Qed.
Lemma evolves_keeps_rows d d' : evolves d d' → keeps_rows d d'.
Proof.
  intros (Ho & Hl & _) j kasa uuid contact. unfold job_row.
  destruct (is_lan_job j); intros (r & Hin & Hk & Hu & Hc).
  - destruct (find_Forall2 _ (λ r, l_id r =? lan_job_id j) _ _ r
      (λ a b Hab, f_equal (λ i, i =? lan_job_id j) (re_id LAN_TABLE _ _ Hab)) Hl Hin) as (r' & Hin' & [I S P]).
    simpl in S, P. unfold lan_job_of in S. injection S as Hk' Hu' _ _ _.
    exists r'. split_and!; [done|congruence..|]. by eapply contact_kept.
  - destruct (find_Forall2 _ (odoo_by_id j) _ _ r
      (λ a b Hab, f_equal (λ i, i =? j) (re_id ODOO_TABLE _ _ Hab)) Ho Hin) as (r' & Hin' & [I S P]).
    simpl in S, P. unfold odoo_job in S. injection S as _ Hu' Hk' _ _ _ _ _.
    exists r'. split_and!; [done|congruence..|]. by eapply contact_kept.
Qed.

Lemma mark_device_contact_marks j kasa uuid s b s' :
  mark_device_contact j s = (Ok b, s') →
  job_row (conn s) j kasa uuid false → job_row (conn s') j kasa uuid true.
Proof.
  unfold mark_device_contact. intros Hm. ok_step Hm. apply now_text_ok in E as [-> E].
  revert Hm. unfold locate, job_row. destruct (is_lan_job j); intros Hm; ok_step Hm;
    apply execute_ok in E0; injection Hm as <- <-; rewrite E in E0; simpl in E0; unfold update_table in E0; simpl in E0;
    injection E0 as E0 _; rewrite <- E0; intros (r & Hin & Hk & Hu & _); simpl.
  - eexists. split; [rewrite find_map_same, Hin; [done|]; intros row; by destruct (_ && _)|].
    apply find_some in Hin as [_ Hid].
    destruct (_ && _) eqn:Hc; split_and!; try done; intros _; simpl.
    unfold lan_job_id in Hid. rewrite Hid in Hc. simpl in Hc. by destruct (p_contact_at _).
  - eexists. split; [rewrite find_map_same, Hin; [done|]; intros row; by destruct (_ && _)|].
    apply find_some in Hin as [_ Hid]. unfold odoo_by_id in Hid.
    destruct (_ && _) eqn:Hc; split_and!; try done; intros _; simpl.
    rewrite Hid in Hc. simpl in Hc. by destruct (p_contact_at _).
Qed.

(** ** The executor as a transition system

    Every job is executed, reconciled, and every slip and probe made, in any
    order and as often as the source asks; between two of them the journal
    changes as its operations may.  A job is executed once the journal holds
    it.  [execute] runs alone: the queue of a Portos is serial. *)

Inductive portos_step : Executor → Executor → Prop :=
| P_execute job kasa x :
    dj_kasa_id job = Some kasa →
    job_row (conn (journal x)) (dj_id job) kasa (dj_client_uuid job) false →
    portos_step x (snd (execute config job x))
| P_reconcile entry x : portos_step x (snd (reconcile config entry x))
| P_slip kasa title lines now x : portos_step x (snd (print_slip config kasa title lines now x))
| P_refresh x : portos_step x (snd (refresh_status config x))
| P_journal j' x :
    keeps_rows (conn (journal x)) (conn j') →
    portos_step x (mkPortosExecutor _ j' (calls x) (states x)).
Definition portos_steps : relation Executor := rtc portos_step.

(** A step sends nothing that registers, or is one register request. *)
Lemma step_cases x x' :
  portos_step x x' →
  sends (on_conn keeps_rows) registers_nothing x x'
  ∨ ∃ job kind kasa o, dj_kasa_id job = Some kasa
    ∧ job_row (conn (journal x)) (dj_id job) kasa (dj_client_uuid job) false
    ∧ registers job kind x o x'.
Proof.
  assert (∀ A (m : XM A), respects (sends eq registers_nothing) m →
          sends (on_conn keeps_rows) registers_nothing x (snd (m x))) as Hm.
  { intros A m Hr. eapply sends_weaken; [|done|exact (Hr x)]. by intros j j' ->. }
  destruct 1 as [job kasa x Hk Hrow|entry x|kasa title lines now x|x|j' x Hj].
  - unfold execute. destruct (op_for_job_type _) as [[kind| | |]|].
    + right. destruct (register_registers job kind x) as (o & _ & Hr). eauto 8.
    + left. apply Hm. unfold control. by apply control_at_sends.
    + left. apply Hm. unfold control. by apply control_at_sends.
    + left. apply Hm. unfold control. by apply control_at_sends.
    + left. reflexivity.
  - left. apply Hm, reads_registers_nothing, reconcile_reads.
  - left. apply Hm, print_slip_sends.
  - left. apply Hm, reads_registers_nothing, refresh_status_reads.
  - left. split; [done|]. exists []. by rewrite app_nil_r.
Qed.
End executor.

(** ** What Portos holds after a run *)

Lemma register_outcome_failed r kind ext code text :
  register_outcome r kind ext = OFailed code text → refused r = true.
Proof.
  unfold register_outcome, refused. destruct r as [e|e|status body]; [done|done|].
  destruct (in_hundred 2 status); [by destruct (receipt_result _ _ _)|].
  destruct (is_validation status body); [done|]. destruct (status =? 401); [done|].
  by destruct (is_missing_endpoint status body).
Qed.

Section store.
Context `{Chrono} `{JsonText} `{ReceiptKeys} `{PS : PortosServer} `{!PortosStore}.
Variable config : PortosConfig.

Lemma stored_app cs cs' k : Forall registers_nothing cs' → stored (cs ++ cs') k = stored cs k.
Proof.
  intros HF. revert cs. induction HF as [|c cs' Hc _ IH]; intros cs; [by rewrite app_nil_r|].
  replace (cs ++ c :: cs') with ((cs ++ [c]) ++ cs') by (by rewrite <- app_assoc).
  rewrite IH. apply stored_other. by rewrite registers_nothing_key.
Qed.
Lemma sends_stored J x x' k : sends J registers_nothing x x' → stored (calls x') k = stored (calls x) k.
Proof. intros [_ (cs & -> & HF)]. by apply stored_app. Qed.
Lemma lookup_stored cs key k : stored (cs ++ [lookup_call key]) k = stored cs k.
Proof.
  apply stored_app. constructor; [|done]. destruct key as [[base code] ext]. by apply is_register_get.
Qed.

Lemma post_app cs l p : cs ++ [l; p] = (cs ++ [l]) ++ [p] :> list PortosCall.
Proof. by rewrite <- app_assoc. Qed.

Lemma registers_failed job kind x code text x' k :
  registers config job kind x (OFailed code text) x' → stored (calls x') k = stored (calls x) k.
Proof.
  inversion 1 as [t Hk|base ext cd o j' Hk key He Ho|base ext cd marked j' Hk key Hl Hm Ho]; subst; simpl.
  - done.
  - apply lookup_stored.
  - rewrite post_app, stored_refused; [apply lookup_stored|]. by eapply register_outcome_failed.
Qed.
End store.

(** ** Checked payloads *)

Lemma finish_ok p : finish p = Ok tt → p = [].
Proof. by destruct p. Qed.
Lemma object_ok v path f : object v path f = [] → f v = [].
Proof. unfold object. by destruct (is_object v). Qed.
Ltac no_problem H := apply app_eq_nil in H as [? H].

Lemma check_cash_register_code_in obj p key :
  check_cash_register_code obj p key = [] →
  ∃ code, get_field key obj = Some (VString code) ∧ cash_register_code_ok code = true.
Proof.
  unfold check_cash_register_code. destruct (get_field key obj) as [[]|]; try done.
  destruct (cash_register_code_ok s) eqn:Hc; [eauto|done].
Qed.
Lemma checked_register `{ReceiptKeys} kind payload now :
  check_payload_at (Register kind) payload now = Ok tt →
  ∃ code, cash_register_code (Register kind) payload = Some code ∧ cash_register_code_ok code = true.
Proof.
  intros Hc%finish_ok%object_ok. unfold check_register in Hc. no_problem Hc. no_problem Hc.
  destruct (get_field "data" payload) as [data|] eqn:Hd; [|done].
  apply object_ok in Hc. unfold check_data in Hc. apply app_eq_nil in Hc as [Hc _].
  apply check_cash_register_code_in in Hc as (code & Hf & Hok). exists code. split; [|done].
  unfold cash_register_code, pointer. simpl. rewrite Hd. simpl. by rewrite Hf.
Qed.

Lemma check_each_ok check field l v :
  check_each check field l = [] → In v l → ∃ f, check f v = [].
Proof.
  unfold check_each.
  assert (∀ g : nat → Value → Problems, (∀ i v, ∃ f, g i v = check f v) →
          concat (imap g l) = [] → In v l → ∃ f, check f v = []) as Hg.
  { induction l as [|a l IH]; intros g Hg Hc; [done|]. simpl in Hc.
    apply app_eq_nil in Hc as [Ha Hc]. intros [<-|Hin].
    - destruct (Hg 0%nat a) as [f Hf]. exists f. congruence.
    - apply (IH (g ∘ S)); [|done..]. intros i w. apply Hg. }
  apply Hg. eauto.
Qed.

(** A row of a printed text: narrow, with no control and no format character. *)
Definition printable_row (row : string) : Prop :=
  Z.of_nat (length (chars row)) ≤ PRINT_TEXT_WIDTH
  ∧ Forall (λ c, is_control c = false ∧ is_format_char c = false) (chars row).

Lemma line_problems_ok field row : line_problems field row = [] → printable_row row.
Proof.
  unfold line_problems, print_line_problem. destruct (_ <? _) eqn:Hw; [done|].
  destruct (existsb _ _) eqn:He; [done|]. intros _. split; [by apply Z.ltb_ge in Hw|].
  apply Forall_forall. intros c Hc%list_elem_of_In.
  pose proof (existsb_exists (λ c, is_control c || is_format_char c) (chars row)) as [_ Hex].
  rewrite He in Hex. apply orb_false_iff. destruct (_ || _) eqn:Ho; [|done].
  symmetry. apply Hex. eauto.
Qed.

Lemma text_lines l :
  (∀ v, In v l → ∃ f, check_text_line f v = []) →
  ∃ rows, l = map VString rows ∧ Forall printable_row rows.
Proof.
  induction l as [|v l IH]; intros Hl; [by exists []|].
  destruct (Hl v) as [f Hf]; [by left|]. destruct IH as (rows & -> & HF); [intros w Hw; apply Hl; by right|].
  unfold check_text_line in Hf. destruct v; try done. simpl in Hf. apply line_problems_ok in Hf.
  exists (s :: rows). auto.
Qed.
Lemma omap_strings rows : omap as_str (map VString rows) = rows.
Proof. induction rows as [|r rows IH]; [done|]. simpl. by f_equal. Qed.

(** What a checked [fiscal.print_text] payload is. *)
Record text_payload (payload : Value) (title : string) (rows : list string) (cut : bool) : Prop := {
  tp_title : get_field "title" payload = Some (VString title);
  tp_lines : get_field "lines" payload = Some (VArray (map VString rows));
  tp_cut : get_field "cut" payload = Some (VBool cut);
  tp_count : 1 ≤ Z.of_nat (length rows) ≤ PRINT_TEXT_MAX_LINES;
  tp_rows : Forall printable_row (title :: rows);
  tp_named : is_blank title = false;
}.
Lemma checked_text `{ReceiptKeys} payload now :
  check_payload_at PrintText payload now = Ok tt → ∃ title rows cut, text_payload payload title rows cut.
Proof.
  intros Hc%finish_ok%object_ok. unfold check_print_text in Hc. no_problem Hc.
  apply app_eq_nil in Hc as [Ht Hc]. apply app_eq_nil in Hc as [Hl Hc].
  destruct (get_field "title" payload) as [[| | |title| |]|] eqn:Et; try done.
  destruct (is_blank title) eqn:Eb; [done|]. apply line_problems_ok in Ht.
  destruct (get_field "lines" payload) as [[| | | |l|]|] eqn:El; try done.
  destruct (get_field "cut" payload) as [[| cut | | | |]|] eqn:Ec; try done.
  destruct l as [|v l]; [done|]. destruct (_ <? _) eqn:Hn; [done|]. apply Z.ltb_ge in Hn.
  destruct (text_lines (v :: l)) as (rows & E & HF); [intros w Hw; by eapply check_each_ok|].
  exists title, rows, cut. split; auto.
  - by rewrite El, E.
  - assert (length rows = length (v :: l)) as -> by (by rewrite E, length_map). simpl in *. lia.
Qed.
Lemma print_text_rows payload title rows cut :
  text_payload payload title rows cut →
  print_text payload = String.concat newline (title :: rows) +:+ (if cut then PAGE_BREAK_TOKEN else "").
Proof.
  intros [Ht Hl Hc _ _ _]. unfold print_text, text_rows. rewrite Ht, Hl, Hc. simpl.
  rewrite omap_strings. by destruct cut.
Qed.

(** ** Results *)

Lemma receipt_result_names v ext via res :
  receipt_result v ext via = Some res →
  get_field "external_id" res = Some (VString ext)
  ∧ get_field "receipt_number" res = pointer ["request"; "data"; "receiptNumber"] v
  ∧ get_field "okp" res = pointer ["request"; "data"; "okp"] v
  ∧ external_id_matches (pointer ["request"; "externalId"] v) ext via = true.
Proof.
  unfold receipt_result, pointer, number_field. simpl.
  destruct (get_field "request" v) as [req|]; simpl; [|done].
  destruct (get_field "data" req) as [data|]; simpl; [|done].
  destruct (get_field "okp" data) as [[| | |okp| |]|]; simpl; try done.
  destruct (get_field "receiptNumber" data) as [n|]; simpl; [|done].
  destruct (is_number n); simpl; [|done].
  destruct (external_id_matches _ _ _); simpl; [|done]. intros [= <-].
  split_and!; [done| |done|done].
  destruct (get_field "paragonNumber" data) as [m|]; simpl; [|done]. by destruct (is_number m).
Qed.

(** ** Every register request is marked in the journal first *)

Section journaled.
Context `{Chrono} `{JsonText} `{ReceiptKeys} `{PortosServer}.
Variable config : PortosConfig.

(** Each register request made carries the externalId of a job of the journal
    whose device contact is marked. *)
Definition posts_are_marked (x : PortosExecutor) : Prop :=
  ∀ c base code ext, In c (calls x) → call_key c = Some (base, code, ext) →
  ∃ j kasa uuid, job_row (conn (journal x)) j kasa uuid true ∧ ext = external_id kasa uuid.

Lemma sends_marked x x' :
  sends (on_conn keeps_rows) registers_nothing x x' → posts_are_marked x → posts_are_marked x'.
Proof.
  intros [Hj (cs & E & HF)] Hx c base code ext Hc Hk. rewrite E in Hc. apply in_app_or in Hc as [Hc|Hc].
  - destruct (Hx c base code ext Hc Hk) as (j & kasa & uuid & Hr & He). exists j, kasa, uuid. auto.
  - rewrite Forall_forall in HF. apply list_elem_of_In, HF, registers_nothing_key in Hc. congruence.
Qed.
Lemma step_marked x x' : portos_step config x x' → posts_are_marked x → posts_are_marked x'.
Proof.
  intros Hs Hx. destruct (step_cases config x x' Hs) as [Hk|(job & kind & kasa & o & Hkasa & Hrow & Hr)];
    [by eapply sends_marked|].
  destruct Hr as [text Hk|base ext code o j' Hk key He Ho|base ext code marked j' Hk key Hl Hm]; [done| |].
  - eapply sends_marked; [|exact Hx]. split; [by apply evolves_keeps_rows|].
    exists [lookup_call key]. split; [done|]. constructor; [by apply is_register_get|done].
  - pose proof (mark_device_contact_marks _ _ _ _ _ _ Hm Hrow) as Hmark.
    pose proof (mark_device_contact_evolves (dj_id job) (journal x)) as Hev. unfold on_conn in Hev.
    rewrite Hm in Hev. apply evolves_keeps_rows in Hev.
    intros c b cd e Hc Hck. simpl in Hc |- *.
    apply in_app_or in Hc as [Hc|[<-|[<-|[]]]].
    + destruct (Hx c b cd e Hc Hck) as (j & k & u & Hr & He). exists j, k, u. auto.
    + by rewrite call_key_get in Hck.
    + pose proof (receipt_key_spec _ _ _ _ _ _ Hk) as (k & Ek & -> & _ & _).
      pose proof (post_call_key config job kind base _ code Hk) as Hp. rewrite Hp in Hck.
      injection Hck as <- <- <-. exists (dj_id job), kasa, (dj_client_uuid job).
      split; [done|]. congruence.
Qed.
Lemma steps_marked x x' : portos_steps config x x' → posts_are_marked x → posts_are_marked x'.
Proof. induction 1 as [x|x y z Hs _ IH]; [done|]. intros Hx. by eapply IH, step_marked. Qed.

(** ** A register request follows a lookup *)

(** Portos answered that it has no such receipt: no content, a 404 with a
    problem document that names no code, or a client error with its code -104. *)
Definition says_no_such_receipt (r : Reply) : Prop :=
  ∃ status body, r = Answer status body ∧
    let code := get_field "code" body ≫= as_i64_value in
    (status = 204 ∨
     status = 404 ∧ code = None ∧ (contains_key "status" body || contains_key "title" body) = true ∨
     400 ≤ status < 500 ∧ code = Some (-104)).

Lemma not_found_says r : classify_lookup r = NotFound → says_no_such_receipt r.
Proof.
  unfold classify_lookup. destruct r as [e|e|status body]; [done|done|]. intros Hc.
  exists status, body. split; [done|]. cbv zeta.
  destruct ((status =? 200) && is_object body); [done|].
  destruct (Z.eqb_spec status 204); [by left|right].
  destruct ((status =? 404) && bool_decide (problem_code body = None) && is_problem body) eqn:E.
  - left. apply andb_true_iff in E as [[->%Z.eqb_eq Hn%bool_decide_eq_true]%andb_true_iff Hp]. done.
  - right. destruct (in_hundred 4 status && bool_decide (problem_code body = Some PORTOS_RECEIPT_NOT_FOUND)) eqn:E4;
      [|done].
    apply andb_true_iff in E4 as [Hh Hn%bool_decide_eq_true]. split; [|done].
    unfold in_hundred in Hh. lia.
Qed.

(** Each register request among the calls comes right after the lookup of its
    key, and that was answered so. *)
Definition asked_first (cs : list PortosCall) : Prop :=
  ∀ n c, cs !! n = Some c → is_register c = true →
    ∃ m key, n = S m ∧ call_key c = Some key ∧ cs !! m = Some (lookup_call key) ∧
      says_no_such_receipt (portos_reply (take m cs) (lookup_call key)).

Lemma asked_first_app cs cs' :
  asked_first cs →
  (∀ n c, cs' !! n = Some c → is_register c = true →
     ∃ m key, n = S m ∧ call_key c = Some key ∧ cs' !! m = Some (lookup_call key) ∧
       says_no_such_receipt (portos_reply (cs ++ take m cs') (lookup_call key))) →
  asked_first (cs ++ cs').
Proof.
  intros Ha Hb n c Hn Hk. apply lookup_app_Some in Hn as [Hn|[Hl Hn]].
  - destruct (Ha n c Hn Hk) as (m & key & -> & Hkey & Hm & Hs). exists m, key. split; [done|]. split; [done|].
    pose proof (lookup_lt_Some _ _ _ Hm). rewrite lookup_app_l by lia.
    rewrite take_app_le by lia. done.
  - destruct (Hb _ c Hn Hk) as (m & key & Em & Hkey & Hm & Hs).
    exists (length cs + m)%nat, key. split; [lia|]. split; [done|].
    rewrite lookup_app_r by lia. replace (length cs + m - length cs)%nat with m by lia.
    split; [done|]. rewrite take_app_ge by lia. by replace (length cs + m - length cs)%nat with m by lia.
Qed.

Lemma step_asked_first x x' : portos_step config x x' → asked_first (calls x) → asked_first (calls x').
Proof.
  assert (∀ cs cs', asked_first cs → Forall registers_nothing cs' → asked_first (cs ++ cs')) as Hno.
  { intros cs cs' Ha HF. apply asked_first_app; [done|]. intros n c Hn Hk.
    apply list_elem_of_lookup_2 in Hn. rewrite Forall_forall in HF. apply HF in Hn.
    unfold registers_nothing in Hn. congruence. }
  intros Hs Hx. destruct (step_cases config x x' Hs) as [(_ & cs & -> & HF)|(job & kind & kasa & o & _ & _ & Hr)];
    [by apply Hno|].
  destruct Hr as [text Hk|base ext code o j' Hk key He Ho|base ext code marked j' Hk key Hl Hm]; simpl; [done| |].
  - apply Hno; [done|]. constructor; [by apply is_register_get|done].
  - apply asked_first_app; [done|]. intros [|[|n]] c Hn Hc; simpl in Hn; [| |done].
    + injection Hn as <-. by rewrite is_register_get in Hc.
    + injection Hn as <-. exists 0%nat, key. split; [done|]. split; [by apply (post_call_key config)|].
      split; [done|]. simpl. rewrite app_nil_r. by apply not_found_says.
Qed.
Lemma steps_asked_first x x' : portos_steps config x x' → asked_first (calls x) → asked_first (calls x').
Proof. induction 1 as [x|x y z Hs _ IH]; [done|]. intros Hx. by eapply IH, step_asked_first. Qed.

(** The entry a job is reconciled with: its row's mark is in it. *)
Lemma row_to_entry_contact r e : row_to_entry r = Some e → je_contact_at e = p_contact_at (o_progress r).
Proof.
  unfold row_to_entry. destruct (jstate_parse _); simpl; [|done]. destruct (optional_json _); simpl; [|done].
  destruct (json_from_str (o_pos_order r)); simpl; [|done].
  by destruct (json_from_str (o_payload r)); simpl; [intros [= <-]|].
Qed.
Lemma row_to_lan_contact r l :
  row_to_lan r = Some l → je_contact_at (lj_entry l) = p_contact_at (l_progress r).
Proof.
  unfold row_to_lan. destruct (jstate_parse _); simpl; [|done].
  destruct (json_from_str (l_pos_order r)); simpl; [|done].
  destruct (json_from_str (l_payload r)); simpl; [|done].
  by destruct (optional_json _); simpl; [intros [= <-]|].
Qed.
Lemma get_contact j entry kasa uuid s s' :
  get j s = (Ok (Some entry), s') → job_row (conn s) j kasa uuid true → je_contact_at entry ≠ None.
Proof.
  unfold get, job_row. destruct (is_lan_job j).
  - intros Hg (r & Hf & _ & _ & Hm). ok_step Hg. injection Hg as Ha _.
    destruct a as [l|]; [|done]. injection Ha as <-.
    apply query_mapped_ok in E as [E _]. rewrite Hf in E. simpl in E.
    destruct (row_to_lan r) as [l'|] eqn:Hl; [|done]. injection E as <-.
    rewrite (row_to_lan_contact _ _ Hl). by apply Hm.
  - intros [E _]%query_mapped_ok (r & Hf & _ & _ & Hm). rewrite Hf in E. simpl in E.
    destruct (row_to_entry r) as [e|] eqn:He; [|done]. injection E as <-.
    rewrite (row_to_entry_contact _ _ He). by apply Hm.
Qed.

(** "Not executed" is only said of a receipt whose entry has no mark. *)
Lemma not_executed_unmarked entry text x x' :
  reconcile config entry x = (Ok (RFailed CODE_NOT_EXECUTED text), x') → je_contact_at entry = None.
Proof.
  unfold reconcile. destruct (op_for_job_type _) as [[kind| | |]|]; try done.
  unfold reconcile_receipt. destruct (receipt_key _ _ _) as [[[base ext] code]|]; [|done].
  rewrite (run_bind _ _ _ _ _ (lookup_run base code ext x)).
  destruct (classify_lookup _) as [v| |e|e]; try done.
  - by destruct (receipt_result _ _ _).
  - unfold reconcile_not_found. by destruct (je_contact_at entry).
Qed.
End journaled.

Lemma found_answer r v : classify_lookup r = Found v → ∃ status, r = Answer status v.
Proof.
  unfold classify_lookup. destruct r as [e|e|status body]; [done|done|].
  destruct (_ && _); [intros [= ->]; eauto|]. destruct (status =? 204); [done|].
  destruct (_ && _ && _); [done|]. by destruct (_ && _).
Qed.
Lemma register_outcome_done r kind ext res :
  register_outcome r kind ext = Done res →
  ∃ status body, r = Answer status body ∧ receipt_result body ext ViaRegister = Some res.
Proof.
  unfold register_outcome. destruct r as [e|e|status body]; [done|done|].
  destruct (in_hundred 2 status).
  - destruct (receipt_result body ext ViaRegister) eqn:E; [intros [= ->]; eauto|done].
  - destruct (is_validation status body); [done|]. destruct (status =? 401); [done|].
    by destruct (is_missing_endpoint status body).
Qed.

(** ** Checked jobs *)

Lemma validate_executor job registry kind :
  validate job registry = Ok kind →
  ∃ ex, for_job_type (dj_job_type job) = Some kind ∧ registry kind = Some ex ∧ ex_check ex job = None.
Proof.
  unfold validate. destruct (_ && _); [done|]. destruct (for_job_type _) as [k|]; simpl; [|done].
  destruct (registry k) as [ex|] eqn:Hk; simpl; [|done]. destruct (ex_check ex job) eqn:He; [done|].
  intros [= <-]. eauto.
Qed.
Lemma check_payload_of `{ReceiptKeys} job op now :
  op_for_job_type (dj_job_type job) = Some op → check job now = Ok tt →
  (∃ kasa, dj_kasa_id job = Some kasa) ∧ check_payload_at op (dj_payload job) now = Ok tt.
Proof.
  unfold check. intros ->. destruct (dj_kasa_id job) as [kasa|]; simpl; [|done].
  destruct (match op with Register _ => _ | _ => _ end); [done|].
  destruct (check_payload_at op (dj_payload job) now) as [[]|]; [eauto|done].
Qed.
Lemma check_register_job `{ReceiptKeys} job kind now :
  op_for_job_type (dj_job_type job) = Some (Register kind) → check job now = Ok tt →
  ∃ kasa, dj_kasa_id job = Some kasa ∧ client_uuid_ok (dj_client_uuid job) = true
    ∧ ∃ code, cash_register_code (Register kind) (dj_payload job) = Some code
              ∧ cash_register_code_ok code = true.
Proof.
  intros Hop Hc. destruct (check_payload_of job _ now Hop Hc) as ([kasa Hkasa] & Hp).
  exists kasa. split; [done|]. split; [|by eapply checked_register].
  unfold check in Hc. rewrite Hop, Hkasa in Hc. simpl in Hc.
  by destruct (client_uuid_ok _).
Qed.
