(* ===== verification/TimCard.v ===== *)
(** * Card payment decisions

    [card.rs] and [reports.rs] of
    [src/crates/devbridge-client/src/device_jobs/tim]: what a result code of
    the terminal means for the money, the results Odoo stores, the slips, and
    what the terminal's last transaction proves about a payment.  All pure. *)

From Stdlib Require Import ZArith Ascii String Floats.SpecFloat.
From S2P Require Import Prelude RustStd Text Floats Core Json DeviceApi JournalData JournalCard.
#[local] Open Scope Z_scope.

(** ** Jobs and codes *)

Definition JOB_PURCHASE : string := "card.purchase".
Definition JOB_COMMIT : string := "card.commit".
Definition JOB_ROLLBACK : string := "card.rollback".
Definition JOB_CREDIT : string := "card.credit".
Definition JOB_REVERSAL : string := "card.reversal".
Definition JOB_ACTIVATE : string := "card.activate".
Definition JOB_DEACTIVATE : string := "card.deactivate".
Definition JOB_BALANCE : string := "card.balance".
Definition JOB_PRINT_COPY : string := "card.print_copy".

Definition CODE_TERMINAL_UNREACHABLE : string := "terminal_unreachable".
Definition CODE_TERMINAL_ERROR : string := "terminal_error".
Definition CODE_WRONG_TERMINAL : string := "wrong_terminal".
Definition CODE_DECLINED : string := "declined".
Definition CODE_CANCELLED : string := "cancelled".
Definition CODE_CARD_ERROR : string := "card_error".
Definition CODE_TERMINAL_BUSY : string := "terminal_busy".
Definition CODE_ROLLED_BACK : string := "rolled_back".
Definition CODE_NOT_EXECUTED : string := "not_executed".
Definition CODE_NO_TERMINAL : string := "no_terminal".
Definition CODE_BAD_CURRENCY : string := "bad_currency".
Definition CODE_BAD_PAYLOAD : string := "bad_payload".
Definition CODE_TIM_UNAVAILABLE : string := "tim_unavailable".
Definition CODE_BRIDGE_ERROR : string := "bridge_error".
Definition CODE_ALREADY_ROLLED_BACK : string := "already_rolled_back".
Definition CODE_ALREADY_COMMITTED : string := "already_committed".
Definition CODE_UNKNOWN_PURCHASE : string := "unknown_purchase".
Definition CODE_SETTLE_MISMATCH : string := "settle_mismatch".
Definition CODE_PERIOD_CLOSED : string := "period_closed".
Definition CODE_NOT_LAST_TRANSACTION : string := "not_last_transaction".
Definition CODE_NO_PRINTER : string := "no_printer".
Definition CODE_PRINT_FAILED : string := "print_failed".
Definition CODE_PRINT_UNKNOWN : string := "print_unknown".
Definition CODE_UNKNOWN_REFERENCE : string := "unknown_reference".
Definition CODE_ALREADY_REVERSED : string := "already_reversed".
Definition CODE_REVERSAL_UNRESOLVED : string := "reversal_unresolved".
Definition CODE_NOT_REVERSED : string := "not_reversed".

Definition RC_UNKNOWN_REFERENCE : Z := 67.
Definition RC_COMMIT_TIMEOUT : Z := 89.
Definition TRANSACTION_TYPE_PURCHASE : Z := 1.
Definition TRANSACTION_TYPE_CREDIT : Z := 2.
Definition TRANSACTION_TYPE_REVERSAL : Z := 3.
Definition OUTCOME_SUCCESSFUL : Z := 1.
Definition OUTCOME_FAILED : Z := 2.
Definition SLIP_WIDTH : nat := 40.
Definition SLIP_MAX_LINES : nat := 80.
Definition CARDHOLDER_SLIP_TITLE : string := "Platba kartou - doklad zakaznika".
Definition MERCHANT_SLIP_TITLE : string := "Platba kartou - doklad obchodnika".
Definition SETTLE_MARGIN_S : Z := 10.

Inductive TwoPhase := Purchase | Credit.
#[export] Instance TwoPhase_eq_dec : EqDecision TwoPhase.
Proof. solve_decision. Defined.
Definition two_phase_of_job (job_type : string) : option TwoPhase :=
  if job_type =t? JOB_PURCHASE then Some Purchase
  else if job_type =t? JOB_CREDIT then Some Credit
  else None.
Definition tx_type (k : TwoPhase) : Z :=
  match k with Purchase => TRANSACTION_TYPE_PURCHASE | Credit => TRANSACTION_TYPE_CREDIT end.
Definition transaction_type_name (t : Z) : string :=
  if t =? TRANSACTION_TYPE_PURCHASE then "purchase"
  else if t =? TRANSACTION_TYPE_CREDIT then "credit"
  else if t =? TRANSACTION_TYPE_REVERSAL then "reversal"
  else "type_" +:+ z_to_string t.

(** ** What the terminal says *)

Record TxFacts := mkFacts {
  transaction_type : option Z;
  tx_amount_minor : option Z;
  currency_eur : option bool;
  trans_seq : option Z;
  trans_ref : option Z;
  trm_trans_ref : option string;
  auth_code : option string;
  pos_entry_mode : option Z;
  cvm : option Z;
  brand_name : option string;
  card_number_printable : option string;
  merchant_receipt : option string;
  cardholder_receipt : option string;
}.
Record LastTransaction := mkLast {
  lt_type : Z;
  lt_outcome : Z;
  lt_facts : option TxFacts;
}.

Inductive TxFailure := NothingCharged (code : string) | UnknownOutcome.

Definition among (ranges : list (Z * Z)) (rc : Z) : bool :=
  existsb (λ r, (fst r <=? rc) && (rc <=? snd r)) ranges.
Definition CANCELLED_CODES : list (Z * Z) := [(2, 2); (53, 55)].
Definition CARD_ERROR_CODES : list (Z * Z) := [(32, 48); (74, 74); (76, 76)].
Definition DECLINED_CODES : list (Z * Z) :=
  [(75, 75); (77, 88); (91, 93); (97, 118); (123, 138); (152, 152); (154, 156); (158, 161)].
Definition BUSY_CODES : list (Z * Z) := [(69, 69); (70, 70); (162, 162)].
Definition classify_transaction_error (rc : Z) : TxFailure :=
  if among CANCELLED_CODES rc then NothingCharged CODE_CANCELLED
  else if among CARD_ERROR_CODES rc then NothingCharged CODE_CARD_ERROR
  else if among DECLINED_CODES rc then NothingCharged CODE_DECLINED
  else if among BUSY_CODES rc then NothingCharged CODE_TERMINAL_BUSY
  else UnknownOutcome.
Definition classify_reversal_error (rc : Z) (period_closed_proven : bool) : TxFailure :=
  if rc =? RC_UNKNOWN_REFERENCE then
    NothingCharged (if period_closed_proven then CODE_PERIOD_CLOSED else CODE_UNKNOWN_REFERENCE)
  else classify_transaction_error rc.

(** ** What a job asks *)

(** [(x * 100.0).round()] and [x / 100.0] *)
Definition hundred : f64 := f64_of_Z 100.
Definition to_cents (x : f64) : f64 := f64_round (f64_mul x hundred).
Definition amount_minor (job : DeviceJob) : option Z :=
  amount ← get_field "amount" (dj_payload job) ≫= as_f64;
  let cents := to_cents amount in
  if is_finite amount && f64_eqb (f64_div cents hundred) amount
     && f64_leb (f64_of_Z 1) cents && f64_ltb cents (lit 1 13)
  then Some (f64_as_i64 cents) else None.
Definition reversal_target (job : DeviceJob) : option (Z * Z) :=
  seq ← get_field "trans_seq" (dj_payload job) ≫= as_i64_value;
  if (0 <=? seq) && (seq <=? 2 ^ 31 - 1) then amount ← amount_minor job; Some (seq, amount) else None.
Definition payload_tid (job : DeviceJob) : option string := get_field "tid" (dj_payload job) ≫= as_str.
Definition currency_ok (job : DeviceJob) : bool :=
  match get_field "currency" (dj_payload job) with
  | None | Some VNull => true
  | Some (VString c) => c =t? "EUR"
  | Some _ => false
  end.
Definition settle_target (job : DeviceJob) : option Z :=
  id ← get_field "card_job_id" (dj_payload job) ≫= as_i64_value;
  if 0 <? id then Some id else None.

(** [.filter(|v| !v.is_null())] *)
Definition not_null (v : option Value) : option Value :=
  match v with Some VNull => None | _ => v end.
Definition cents_of (v : Value) : option Z := f64_as_i64 ∘ to_cents <$> as_f64 v.
Definition settle_mismatch `{JsonText} (job : DeviceJob) (authorised : Value) : option string :=
  tx ← get_field "transaction" authorised;
  let shown key := json_to_string (default VNull (get_field key tx)) in
  let seq_problem :=
    match not_null (get_field "trans_seq" (dj_payload job)) with
    | Some seq =>
      if bool_decide (as_i64_value seq = (get_field "trans_seq" tx ≫= as_i64_value)) then None
      else Some ("trans_seq " +:+ json_to_string seq +:+ " is not the authorised " +:+ shown "trans_seq")
    | None => None
    end in
  match seq_problem, not_null (get_field "amount" (dj_payload job)) with
  | Some problem, _ => Some problem
  | None, Some amount =>
    if bool_decide (cents_of amount = (get_field "amount" tx ≫= cents_of)) then None
    else Some ("amount " +:+ json_to_string amount +:+ " is not the authorised " +:+ shown "amount")
  | None, None => None
  end.

(** ** Results *)

Fixpoint mask_from (digits seen : Z) (cs : list Z) : list Z :=
  match cs with
  | [] => []
  | c :: cs' =>
    if is_ascii_digit c then
      (if digits <? seen + 1 + 4 then c else 88) :: mask_from digits (seen + 1) cs'
    else c :: mask_from digits seen cs'
  end.
Definition digits_of (cs : list Z) : list Z := List.filter is_ascii_digit cs.
Definition mask_chars (cs : list Z) : list Z := mask_from (Z.of_nat (length (digits_of cs))) 0 cs.
Definition mask_card_number (printable : string) : string := of_chars (mask_chars (chars printable)).
Definition last4 (printable : string) : option string :=
  let ds := digits_of (chars printable) in
  if (4 <=? length ds)%nat then Some (of_chars (drop (length ds - 4) ds)) else None.

Definition cvm_name (c : option Z) : string :=
  match c with
  | Some 1 => "pin" | Some 2 => "pin_signature" | Some 3 => "signature" | Some 4 => "on_device"
  | Some 5 => "no_cvm" | Some 6 => "other" | _ => "undefined"
  end.
Definition needs_signature (c : option Z) : bool :=
  match c with Some 2 | Some 3 => true | _ => false end.

(** [json!] of options, numbers and floats. *)
Definition json_opt {A} (f : A → Value) (o : option A) : Value := match o with Some a => f a | None => VNull end.
Definition json_int (z : Z) : Value := VNumber (NInt z).
Definition json_f64 (x : f64) : Value :=
  match x with
  | S754_finite s m e => VNumber (NFloat (if s then - Zpos m else Zpos m) e)
  | S754_zero _ => VNumber (NFloat 0 0)
  | _ => VNull
  end.
Definition euros (minor : Z) : Value := json_f64 (f64_div (f64_of_Z minor) hundred).
Definition currency (eur : option bool) : Value :=
  if bool_decide (eur = Some true) then VString "EUR" else VNull.
Definition terminal_json (tid : option string) : Value := VObject [("tid", json_opt VString tid)].
Definition slips_json (merchant cardholder : option string) : Value :=
  VObject [("cardholder", json_opt VString cardholder); ("merchant", json_opt VString merchant)].

Definition card_result (state : string) (tid : option string) (facts : TxFacts) : Value :=
  VObject
    [("card", VObject
       [("brand_name", json_opt VString (brand_name facts));
        ("card_number_printable", json_opt (VString ∘ mask_card_number) (card_number_printable facts));
        ("last4", json_opt VString (card_number_printable facts ≫= last4))]);
     ("receipts", slips_json (merchant_receipt facts) (cardholder_receipt facts));
     ("state", VString state);
     ("terminal", terminal_json tid);
     ("transaction", VObject
       [("amount", json_opt euros (tx_amount_minor facts));
        ("auth_code", json_opt VString (auth_code facts));
        ("currency", currency (currency_eur facts));
        ("cvm", VString (cvm_name (cvm facts)));
        ("pos_entry_mode", json_opt (VString ∘ z_to_string) (pos_entry_mode facts));
        ("trans_ref", json_opt (VString ∘ z_to_string) (trans_ref facts));
        ("trans_seq", json_opt json_int (trans_seq facts));
        ("trm_trans_ref", json_opt VString (trm_trans_ref facts));
        ("type", json_opt (VString ∘ transaction_type_name) (transaction_type facts))])].

(** [{:?}] of an option. *)
Definition debug_opt {A} (show : A → string) (o : option A) : string :=
  match o with Some a => "Some(" +:+ show a +:+ ")" | None => "None" end.
Definition authorisation_problem (facts : TxFacts) (amount : Z) : option string :=
  if is_none (trans_seq facts) then Some "the terminal answered without a trans_seq"
  else if negb (bool_decide (tx_amount_minor facts = Some amount)) then
    Some ("the terminal authorised " +:+ debug_opt z_to_string (tx_amount_minor facts)
            +:+ " cents, the job asked " +:+ z_to_string amount)
  else if negb (bool_decide (currency_eur facts = Some true)) then
    Some "the terminal authorised another currency than EUR"
  else None.

(** ** The terminal's last transaction *)

Definition baseline (last : option LastTransaction) (stored_max : option Z) : option Z :=
  match last with
  | Some l =>
    if (lt_type l =? 0) && is_none (lt_facts l) then Some (default 0 stored_max)
    else match lt_facts l ≫= trans_seq with Some s => Some s | None => stored_max end
  | None => stored_max
  end.

Inductive Correlation :=
| Charged (facts : TxFacts)
| NotCharged
| Undecidable (why : string).
Record Ours := mkOurs {
  our_baseline : option Z;
  our_amount_minor : Z;
  our_trans_seq : option Z;
  our_tx_type : Z;
  later_payment : bool;
}.
Definition seq_is_ours (o : Ours) (base : Z) (facts : TxFacts) : bool :=
  match our_trans_seq o with
  | Some expected => bool_decide (trans_seq facts = Some expected)
  | None => match trans_seq facts with Some s => base <? s | None => false end
  end.
Definition correlate (o : Ours) (last : LastTransaction) : Correlation :=
  if later_payment o then
    Undecidable "another payment ran on this terminal after it - its last transaction cannot be proven to be this one"
  else
    match our_baseline o, lt_facts last with
    | None, _ => Undecidable "the terminal's trans_seq before this payment is unknown"
    | Some _, None =>
      Undecidable ("the terminal's last transaction (type " +:+ z_to_string (lt_type last)
        +:+ ", outcome " +:+ z_to_string (lt_outcome last) +:+ ") carries no trans_seq")
    | Some base, Some facts =>
      if negb ((lt_type last =? our_tx_type o) && seq_is_ours o base facts
               && bool_decide (tx_amount_minor facts = Some (our_amount_minor o))) then
        Undecidable ("the terminal's last transaction (type " +:+ z_to_string (lt_type last)
          +:+ ", trans_seq " +:+ debug_opt z_to_string (trans_seq facts) +:+ ", "
          +:+ debug_opt z_to_string (tx_amount_minor facts) +:+ " cents) is not this payment (after trans_seq "
          +:+ z_to_string base +:+ ", authorised as " +:+ debug_opt z_to_string (our_trans_seq o) +:+ ", "
          +:+ z_to_string (our_amount_minor o) +:+ " cents)")
      else if lt_outcome last =? OUTCOME_SUCCESSFUL then Charged facts
      else if lt_outcome last =? OUTCOME_FAILED then NotCharged
      else Undecidable ("the terminal reports outcome " +:+ z_to_string (lt_outcome last) +:+ " for this payment")
    end.

Section moments.
Context `{Chrono}.
Definition later_of (a b : DateTime) : DateTime := if datetime_leb a b then b else a.
Definition settle_after (moments : list DateTime) (commit_timeout_s : Z) : option DateTime :=
  match moments with
  | [] => None
  | m :: ms => Some (minus_secs (fold_left later_of ms m) (- (commit_timeout_s + SETTLE_MARGIN_S)))
  end.
Definition settle_pending (now : DateTime) (after : option DateTime) : bool :=
  match after with Some after => negb (datetime_leb after now) | None => false end.
End moments.

(** ** Slips *)

Definition is_format (c : Z) : bool :=
  among [(0xAD, 0xAD); (0x200B, 0x200F); (0x202A, 0x202E); (0x2060, 0x206F); (0xFEFF, 0xFEFF)] c.
Definition slip_char (c : Z) : Z := if is_control c || is_format c then 32 else c.
Definition trim_end (cs : list Z) : list Z := rev (trim_start (rev cs)).
(** [chunks(n)], [n > 0] *)
Fixpoint chunks_from (fuel n : nat) (cs : list Z) : list (list Z) :=
  match fuel, cs with
  | O, _ | _, [] => []
  | S fuel', _ => take n cs :: chunks_from fuel' n (drop n cs)
  end.
Definition chunks (n : nat) (cs : list Z) : list (list Z) := chunks_from (length cs) n cs.
Definition wrap_line (raw : list Z) : list (list Z) :=
  match map slip_char (trim_end raw) with
  | [] => [[]]
  | clean => map trim_end (chunks SLIP_WIDTH clean)
  end.
Fixpoint drop_blank (ls : list (list Z)) : list (list Z) :=
  match ls with [] :: ls' => drop_blank ls' | _ => ls end.
Definition slip_rows (text : string) : list (list Z) :=
  take SLIP_MAX_LINES (rev (drop_blank (rev (concat (map wrap_line (lines (chars text))))))).
Definition slip_lines (text : string) : list string := map of_chars (slip_rows text).

(** ** Reports *)

Record Receipts := mkReceipts { r_merchant : option string; r_cardholder : option string }.
Record TrxDetail := mkDetail { d_transaction_type : option Z; d_count : option Z; d_amount_minor : option Z }.
Record Total := mkTotal {
  t_currency_eur : option bool;
  t_count : option Z;
  t_amount_minor : option Z;
  t_details : list TrxDetail;
}.
Record BrandCounter := mkBrand {
  bc_brand_name : option string;
  bc_acq_id : option Z;
  bc_count : option Z;
  bc_totals : list Total;
}.
Record Counters := mkCounters { seq_counter : option Z; brands : list BrandCounter }.
Record ShiftReport := mkShift { act_seq_counter : option Z; sh_counters : option Counters; sh_receipts : Receipts }.
Record BalanceReport := mkBalance { bal_counters : option Counters; bal_receipts : Receipts }.

Definition receipts_json (r : Receipts) : Value := slips_json (r_merchant r) (r_cardholder r).
Definition add_total (acc : Z * Z) (t : Total) : Z * Z :=
  if bool_decide (t_currency_eur t = Some true) then
    (as_i64 (fst acc + default 0 (t_count t)), as_i64 (snd acc + default 0 (t_amount_minor t)))
  else acc.
Definition eur_total (c : Counters) : Z * Z :=
  fold_left add_total (concat (map bc_totals (brands c))) (0, 0).
Definition detail_json (d : TrxDetail) : Value :=
  VObject [("amount", json_opt euros (d_amount_minor d)); ("count", json_opt json_int (d_count d));
           ("transaction_type", json_opt (VString ∘ transaction_type_name) (d_transaction_type d))].
Definition total_json (t : Total) : Value :=
  VObject [("amount", json_opt euros (t_amount_minor t)); ("count", json_opt json_int (t_count t));
           ("currency", currency (t_currency_eur t)); ("details", VArray (map detail_json (t_details t)))].
Definition brands_json (c : Counters) : Value :=
  VArray (map (λ b, VObject
    [("acq_id", json_opt json_int (bc_acq_id b)); ("brand_name", json_opt VString (bc_brand_name b));
     ("count", json_opt json_int (bc_count b)); ("totals", VArray (map total_json (bc_totals b)))]) (brands c)).
(** The period or shift, the brands and the EUR total. *)
Definition counters_fields (c : option Counters) : Value * Value * Value :=
  match c with
  | Some c =>
    let '(count, amount) := eur_total c in
    (json_opt json_int (seq_counter c), brands_json c,
     VObject [("amount", euros amount); ("count", json_int count); ("currency", VString "EUR")])
  | None => (VNull, VArray [], VNull)
  end.
Definition balance_result (tid : option string) (r : BalanceReport) : Value :=
  let '(period, bs, total) := counters_fields (bal_counters r) in
  VObject [("brands", bs); ("period", period); ("receipts", receipts_json (bal_receipts r));
           ("state", VString "closed"); ("terminal", terminal_json tid); ("total", total)].
Definition shift_result (state : string) (tid : option string) (r : ShiftReport) : Value :=
  let '(shift, bs, total) := counters_fields (sh_counters r) in
  VObject [("act_seq_counter", json_opt json_int (act_seq_counter r)); ("brands", bs);
           ("receipts", receipts_json (sh_receipts r)); ("shift", shift); ("state", VString state);
           ("terminal", terminal_json tid); ("total", total)].
Definition copy_result (card_job_id seq : Z) (r : Receipts) : Value :=
  VObject [("card_job_id", json_int card_job_id); ("receipts", receipts_json r);
           ("state", VString "printed"); ("trans_seq", json_int seq)].
