(* ===== verification/TimSession.v ===== *)
(** * Sessions on a card terminal

    [purchase.rs] and the sessions of [mod.rs], [ops.rs] and [jobs.rs]
    ([with_session], [read_last]) of
    [src/crates/devbridge-client/src/device_jobs/tim]: the held session of a
    payment, from the connect to the disconnect.

    The TIM library is an interface ([TimLibrary]): each call is answered as it
    likes, after the calls before it.  Time is in milliseconds; a call or a wait
    may take longer than asked ([lag]), and meanwhile the other tasks change the
    journal ([meanwhile]).  [tim_asked] and [call_times], what was asked and when
    it was sent, are the model's log.  A panic of the session's thread is not modelled. *)

From Stdlib Require Import ZArith String.
From stdpp Require Import gmap.
From S2P Require Import Prelude RustStd Core Sqlite Json DeviceApi JournalData JournalCard Journal TimCard.
#[local] Open Scope Z_scope.

(** ** [mod.rs] *)

Record TerminalSpec := mkSpec {
  ts_kasa_id : Z;
  ts_ip : string;
  ts_expected_tid : option string;
  ts_commit_timeout_s : Z;
}.
Record TimError := mkTimError { te_call : string; te_code : Z }.
Definition code_name (rc : Z) : string :=
  match rc with
  | 0 => "undefined"
  | 1 => "ok"
  | 2 => "api_cancel_ecr"
  | 3 => "api_invalid_answer"
  | 5 => "api_function_disallowed"
  | 7 => "api_connect_fail_server"
  | 8 => "api_connect_fail_terminal"
  | 9 => "api_connection_lost_server"
  | 10 => "api_connection_lost_terminal"
  | 11 => "ethernet_disconnected"
  | 13 => "api_timeout_server"
  | 14 => "api_timeout_terminal"
  | 139 => "invalid_argument"
  | 140 => "out_of_memory"
  | _ => "other"
  end.
Definition tim_error_to_string (e : TimError) : string :=
  te_call e +:+ " failed: rc " +:+ z_to_string (te_code e) +:+ " (" +:+ code_name (te_code e) +:+ ")".

Inductive TimCall :=
| TConnect | TLogin | TTerminalId | TLogout | TDisconnect
| TLastTransaction
| TTransaction (kind : TwoPhase) (amount : Z)
| TCommit | TRollback
| TReversal (seq : Z)
| TActivate | TDeactivate | TBalance | TReprint.
#[export] Instance TimCall_eq_dec : EqDecision TimCall.
Proof. solve_decision. Defined.
(** A call made: the terminal, the job the session runs for, the call. *)
Record Asked := mkAsked { a_ip : string; a_job : option Z; a_call : TimCall }.
#[export] Instance Asked_eq_dec : EqDecision Asked.
Proof. solve_decision. Defined.

Class TimLibrary : Type := {
  tim_terminal : TerminalSpec → result TimError unit;
  tim_unit : list Asked → Asked → result TimError unit;
  tim_id : list Asked → Asked → result TimError (option string);
  tim_last : list Asked → Asked → result TimError LastTransaction;
  tim_facts : list Asked → Asked → result TimError TxFacts;
  tim_shift : list Asked → Asked → result TimError ShiftReport;
  tim_balance : list Asked → Asked → result TimError BalanceReport;
  tim_reprint : list Asked → Asked → result TimError Receipts;
}.

(** ** Settle requests *)

Inductive SettleOp := Commit | Rollback.
#[export] Instance SettleOp_eq_dec : EqDecision SettleOp.
Proof. solve_decision. Defined.
Inductive SettleReply := Committed_ | RolledBack_ (why : string) | Unknown_ (why : string).
(** The channel of a held payment: the requests by the time they are sent, and
    when its last sender goes. *)
Record SettleChannel := mkChannel { requests : list (Z * SettleOp); closed_at : option Z }.
Definition no_requests : SettleChannel := mkChannel [] None.

(** One slip print: till, title, lines. *)
Definition SlipPrint : Type := Z * (string * list string).

Class TimWorld `{Chrono} : Type := {
  lag : nat → Z;
  meanwhile : nat → Journal → Journal;
}.

(** The reason of a failure is only logged. *)
Inductive TerminalState := TReady | TBusy | TFailed.

Record Tim `{Chrono} := mkTim {
  journal : Journal;
  tim_asked : list Asked;
  now_ms : Z;
  steps : nat;
  settle_channel : SettleChannel;
  replies : list (SettleOp * SettleReply);
  holders : list Z;
  slips : list SlipPrint;
  last_end : gmap string Z;
  tim_states : gmap string TerminalState;
  call_times : list Z;          (* when each of [tim_asked] was sent *)
}.
Definition TM `{Chrono} (A : Type) : Type := M Tim Empty_set A.

Section session.
Context `{Chrono} `{JsonText} `{TL : TimLibrary} `{!TimWorld}.

(** ** Effects *)

Definition set_journal (j : Journal) (t : Tim) : Tim :=
  mkTim _ j (tim_asked t) (now_ms t) (steps t) (settle_channel t) (replies t) (holders t) (slips t)
    (last_end t) (tim_states t) (call_times t).
(** Waiting, or a call's time: at least [ms]; the other tasks go on. *)
Definition pass (ms : Z) : TM unit := λ t,
  (Ok tt, mkTim _ (meanwhile (steps t) (journal t)) (tim_asked t) (now_ms t + ms + lag (steps t))
            (S (steps t)) (settle_channel t) (replies t) (holders t) (slips t) (last_end t) (tim_states t) (call_times t)).
Definition journaled {A} (m : JM A) : TM (result string A) := attempt (zoom journal set_journal m).
Definition log_call (a : Asked) (t : Tim) : Tim :=
  mkTim _ (journal t) (tim_asked t ++ [a]) (now_ms t) (steps t) (settle_channel t) (replies t) (holders t)
    (slips t) (last_end t) (tim_states t) (call_times t ++ [now_ms t]).
Definition ask {A} (answer : list Asked → Asked → A) (a : Asked) : TM A :=
  r ← gets (λ t, answer (tim_asked t) a);
  _ ← modify (log_call a);
  _ ← pass 0;
  mret r.
Definition set_channel (c : SettleChannel) (t : Tim) : Tim :=
  mkTim _ (journal t) (tim_asked t) (now_ms t) (steps t) c (replies t) (holders t) (slips t)
    (last_end t) (tim_states t) (call_times t).
Definition add_reply (op : SettleOp) (r : SettleReply) (t : Tim) : Tim :=
  mkTim _ (journal t) (tim_asked t) (now_ms t) (steps t) (settle_channel t) (replies t ++ [(op, r)])
    (holders t) (slips t) (last_end t) (tim_states t) (call_times t).
Definition set_holders (f : list Z → list Z) (t : Tim) : Tim :=
  mkTim _ (journal t) (tim_asked t) (now_ms t) (steps t) (settle_channel t) (replies t) (f (holders t))
    (slips t) (last_end t) (tim_states t) (call_times t).
Definition add_slips (l : list SlipPrint) (t : Tim) : Tim :=
  mkTim _ (journal t) (tim_asked t) (now_ms t) (steps t) (settle_channel t) (replies t) (holders t)
    (slips t ++ l) (last_end t) (tim_states t) (call_times t).

(** ** [Receiver::recv_timeout] and [try_recv] *)

Inductive Received := RRequest (op : SettleOp) | RDisconnected | RTimeout.
Definition closed_by (c : SettleChannel) (until : Z) : bool :=
  match closed_at c with Some at_ms => at_ms <=? until | None => false end.
Definition recv_timeout (ms : Z) : TM Received :=
  t ← gets (λ t, t);
  let c := settle_channel t in
  let until := now_ms t + ms in
  match requests c with
  | (at_ms, op) :: later =>
    if at_ms <=? until then
      _ ← modify (set_channel (mkChannel later (closed_at c)));
      _ ← pass (Z.max 0 (at_ms - now_ms t)); mret (RRequest op)
    else if closed_by c until then mret RDisconnected
    else _ ← pass ms; mret RTimeout
  | [] => if closed_by c until then mret RDisconnected else _ ← pass ms; mret RTimeout
  end.
(** The requests waiting now, and those still to come. *)
Definition waiting_requests (now : Z) (l : list (Z * SettleOp)) : list (Z * SettleOp) :=
  List.filter (λ r, fst r <=? now) l.

(** ** [purchase.rs] *)

Definition REFUSAL_POLL : Z := 500.
Definition RELEASE_RETRY : Z := 2000.
Definition RC_NOTHING_PENDING : Z := 68.

(** The request, with what the hooks of the executor know. *)
Record PurchaseRequest := mkPurchase {
  pr_job_id : Z;
  pr_kind : TwoPhase;
  pr_amount_minor : Z;
  pr_deadline : Z;
  pr_stored_max_seq : option Z;
  pr_release_within : Z;
  pr_has_printer : bool;
}.
Inductive ContactRefusal := AlreadyAsked | JournalFailed (why : string).

Inductive PurchaseEnd :=
| Refused (code text : string)
| Committed (facts : TxFacts) (tid : option string)
| RolledBack (why : string)
| Unknown (why : string).
Definition settle_reply (e : PurchaseEnd) : SettleReply :=
  match e with
  | Committed _ _ => Committed_
  | RolledBack why => RolledBack_ why
  | Refused code text => RolledBack_ (code +:+ ": " +:+ text)
  | Unknown why => Unknown_ why
  end.
Definition refused (code what : string) (e : TimError) : PurchaseEnd :=
  Refused code (what +:+ ": " +:+ tim_error_to_string e +:+ " - the transaction was not sent, nothing charged").

(** The hooks of the executor ([JournalHooks]). *)
Definition contact (spec : TerminalSpec) (req : PurchaseRequest) (base : option Z) : TM (option ContactRefusal) :=
  r ← journaled (card_contact_of (pr_job_id req) (ts_ip spec) (pr_amount_minor req) base
                   (tx_type (pr_kind req)) None);
  mret (match r with
        | Ok true => None
        | Ok false => Some AlreadyAsked
        | Err e => Some (JournalFailed e)
        end).
Definition slip_prints (kasa : Z) (facts : TxFacts) : list SlipPrint :=
  let one title (text : option string) :=
    match text with Some text => [(kasa, (title, slip_lines text))] | None => [] end in
  one CARDHOLDER_SLIP_TITLE (cardholder_receipt facts)
  ++ one MERCHANT_SLIP_TITLE (if needs_signature (cvm facts) then merchant_receipt facts else None).
Definition authorized (spec : TerminalSpec) (req : PurchaseRequest) (facts : TxFacts) (tid : option string)
    : TM (option string) :=
  r ← journaled (card_authorized (pr_job_id req) (default 0 (trans_seq facts)) (card_result "authorized" tid facts));
  match r with
  | Ok true =>
    _ ← modify (add_slips (if pr_has_printer req then slip_prints (ts_kasa_id spec) facts else []));
    mret None
  | Ok false => mret (Some "no card row for the job")
  | Err e => mret (Some e)
  end.
Definition authorization_refused (req : PurchaseRequest) : TM bool :=
  r ← journaled (card_payment (pr_job_id req));
  mret (match ok_flatten r with Some c => cp_auth_refused c | None => false end).
Definition released (req : PurchaseRequest) : TM unit :=
  modify (set_holders (List.filter (λ j, negb (j =? pr_job_id req)))).

Section one_payment.
Variables (spec : TerminalSpec) (req : PurchaseRequest).
Definition mine (c : TimCall) : Asked := mkAsked (ts_ip spec) (Some (pr_job_id req)) c.

Definition roll_back (why : string) : TM PurchaseEnd :=
  r ← ask tim_unit (mine TRollback);
  mret (match r with
        | Ok _ => RolledBack (why +:+ " - the authorisation was rolled back, no money taken")
        | Err e => Unknown (why +:+ ", but the rollback failed: " +:+ tim_error_to_string e)
        end).
Definition commit (facts : TxFacts) (tid : option string) : TM PurchaseEnd :=
  r ← ask tim_unit (mine TCommit);
  mret (match r with
        | Ok _ => Committed facts tid
        | Err e =>
          if te_code e =? RC_COMMIT_TIMEOUT then
            RolledBack ("the commit came after the terminal's commit timeout (" +:+ tim_error_to_string e
              +:+ ") - the terminal reversed the authorisation, no money taken")
          else Unknown ("the commit failed: " +:+ tim_error_to_string e)
        end).
Definition failed_transaction (e : TimError) : PurchaseEnd :=
  match classify_transaction_error (te_code e) with
  | NothingCharged code =>
    Refused code ("the terminal refused the payment: " +:+ tim_error_to_string e +:+ " - nothing charged")
  | UnknownOutcome =>
    Unknown ("the transaction failed with an unknown outcome: " +:+ tim_error_to_string e
               +:+ " - reconciled with the terminal")
  end.

(** The loop of [release]; [fuel] bounds its rounds ([release]). *)
Fixpoint release_loop (fuel : nat) (until : Z) : TM unit :=
  match fuel with
  | O => mret tt
  | S fuel' =>
    r ← ask tim_unit (mine TRollback);
    if match r with Ok _ => true | Err e => te_code e =? RC_NOTHING_PENDING end then mret tt
    else
      now ← gets now_ms;
      let left := Z.max 0 (until - now) in
      if left =? 0 then mret tt
      else _ ← pass (Z.min left RELEASE_RETRY); release_loop fuel' until
  end.
Definition release_fuel : nat := S (S (Z.to_nat (pr_release_within req / RELEASE_RETRY))).
Definition release : TM unit :=
  now ← gets now_ms; release_loop release_fuel (now + pr_release_within req).

(** The loop of [hold]: [None] when [fuel] rounds were not enough. *)
Definition no_commit_text : string :=
  "no card.commit within " +:+ z_to_string (pr_deadline req / 1000)
    +:+ " s of the authorisation (devbridge deadline)".
Definition settle_held (op : SettleOp) (facts : TxFacts) (tid : option string) : TM PurchaseEnd :=
  ended ← match op with Commit => commit facts tid | Rollback => roll_back "card.rollback" end;
  _ ← modify (add_reply op (settle_reply ended));
  mret ended.
Fixpoint hold_loop (fuel : nat) (deadline : Z) (facts : TxFacts) (tid : option string)
    : TM (option PurchaseEnd) :=
  match fuel with
  | O => mret None
  | S fuel' =>
    now ← gets now_ms;
    let remaining := Z.max 0 (deadline - now) in
    if remaining =? 0 then e ← roll_back no_commit_text; mret (Some e)
    else
      r ← recv_timeout (Z.min remaining REFUSAL_POLL);
      match r with
      | RRequest op => e ← settle_held op facts tid; mret (Some e)
      | RDisconnected => e ← roll_back "no settle channel for the held payment"; mret (Some e)
      | RTimeout =>
        too_late ← authorization_refused req;
        if (too_late : bool) then e ← roll_back "Odoo refused the authorisation (too late)"; mret (Some e)
        else hold_loop fuel' deadline facts tid
      end
  end.
Definition hold_fuel : nat := S (S (Z.to_nat (pr_deadline req / REFUSAL_POLL))).
Definition OUT_OF_ROUNDS : string := "the hold did not end".
Definition hold (authorised_at : Z) (facts : TxFacts) (tid : option string) : TM PurchaseEnd :=
  e ← hold_loop hold_fuel (authorised_at + pr_deadline req) facts tid;
  mret (default (Unknown OUT_OF_ROUNDS) e).

Definition after_transaction (facts : TxFacts) (tid : option string) : TM PurchaseEnd :=
  authorised_at ← gets now_ms;
  match authorisation_problem facts (pr_amount_minor req) with
  | Some problem => roll_back ("rolled back at once: " +:+ problem)
  | None =>
    failed ← authorized spec req facts tid;
    match failed with
    | Some why => roll_back ("rolled back at once: the journal failed (" +:+ why +:+ ")")
    | None => hold authorised_at facts tid
    end
  end.
Definition transact (tid : option string) : TM PurchaseEnd :=
  r ← ask tim_facts (mine (TTransaction (pr_kind req) (pr_amount_minor req)));
  match r with
  | Err e => mret (failed_transaction e)
  | Ok facts => after_transaction facts tid
  end.

Definition wrong_terminal (tid : option string) : option string :=
  match ts_expected_tid spec with
  | Some expected => if bool_decide (tid = Some expected) then None else Some expected
  | None => None
  end.
Definition logged_in : TM PurchaseEnd :=
  r ← ask tim_id (mine TTerminalId);
  match r with
  | Err e => mret (refused CODE_TERMINAL_ERROR "TIM terminal id" e)
  | Ok tid =>
    match wrong_terminal tid with
    | Some expected =>
      mret (Refused CODE_WRONG_TERMINAL
        ("the terminal at " +:+ ts_ip spec +:+ " reported id " +:+ default "(none)" tid
           +:+ " but the till expects " +:+ expected +:+ " - nothing charged"))
    | None =>
      last ← ask tim_last (mine TLastTransaction);
      let base := baseline (match last with Ok l => Some l | Err _ => None end) (pr_stored_max_seq req) in
      c ← contact spec req base;
      match c with
      | Some AlreadyAsked =>
        mret (Unknown "the terminal was already asked for this job - no second transaction, reconciled with the terminal")
      | Some (JournalFailed why) =>
        mret (Refused CODE_BRIDGE_ERROR ("the journal did not record the terminal contact (" +:+ why
                +:+ ") - the transaction was not sent, nothing charged"))
      | None => transact tid
      end
    end
  end.

Definition answer_late (ended : PurchaseEnd) : TM unit :=
  t ← gets (λ t, t);
  let c := settle_channel t in
  let late := waiting_requests (now_ms t) (requests c) in
  _ ← for_each late (λ r, modify (add_reply (snd r) (settle_reply ended)));
  modify (set_channel no_requests).
Definition is_unknown (e : PurchaseEnd) : bool := match e with Unknown _ => true | _ => false end.

Definition run_purchase : TM PurchaseEnd :=
  match tim_terminal spec with
  | Err e => mret (refused CODE_TERMINAL_ERROR "TIM terminal object" e)
  | Ok _ =>
    c ← ask tim_unit (mine TConnect);
    match c with
    | Err e => mret (refused CODE_TERMINAL_UNREACHABLE "the terminal could not be reached" e)
    | Ok _ =>
      l ← ask tim_unit (mine TLogin);
      ended ← match l with
              | Ok _ =>
                ended ← logged_in;
                _ ← (if is_unknown ended then release else mret tt);
                _ ← ask tim_unit (mine TLogout);
                mret ended
              | Err e => mret (refused CODE_TERMINAL_ERROR "TIM login" e)
              end;
      _ ← ask tim_unit (mine TDisconnect);
      _ ← released req;
      _ ← answer_late ended;
      mret ended
    end
  end.
End one_payment.

(** ** A session of one call ([with_session], [read_last]) *)

Inductive SessionError :=
| STim (e : TimError)
| SWrongTerminal (expected : string) (reported : option string).
Definition session_error_to_string (e : SessionError) : string :=
  match e with
  | STim e => tim_error_to_string e
  | SWrongTerminal expected reported =>
    "terminal reported id " +:+ default "(none)" reported +:+ " but the till expects " +:+ expected
  end.
Inductive SessionFail := SUnreachable (e : TimError) | SRefused (e : SessionError).

Definition with_session {A} (spec : TerminalSpec) (job : option Z) (work : option string → TM A)
    : TM (result SessionFail A) :=
  let call c := mkAsked (ts_ip spec) job c in
  match tim_terminal spec with
  | Err e => mret (Err (SRefused (STim e)))
  | Ok _ =>
    c ← ask tim_unit (call TConnect);
    match c with
    | Err e => mret (Err (SUnreachable e))
    | Ok _ =>
      l ← ask tim_unit (call TLogin);
      res ← match l with
            | Err e => mret (Err (SRefused (STim e)) : result SessionFail A)
            | Ok _ =>
              i ← ask tim_id (call TTerminalId);
              res ← match i with
                    | Err e => mret (Err (SRefused (STim e)) : result SessionFail A)
                    | Ok tid =>
                      match wrong_terminal spec tid with
                      | Some expected => mret (Err (SRefused (SWrongTerminal expected tid)))
                      | None => a ← work tid; mret (Ok a)
                      end
                    end;
              _ ← ask tim_unit (call TLogout);
              mret res
            end;
      _ ← ask tim_unit (call TDisconnect);
      mret res
    end
  end.
(** [read_last] is the session that reads the last transaction. *)
Definition read_last (spec : TerminalSpec) (job : option Z)
    : TM (result string (option string * LastTransaction)) :=
  r ← with_session spec job (λ tid,
        last ← ask tim_last (mkAsked (ts_ip spec) job TLastTransaction); mret (tid, last));
  mret (match r with
        | Ok (tid, Ok last) => Ok (tid, last)
        | Ok (_, Err e) => Err (tim_error_to_string e)
        | Err (SUnreachable e) => Err (tim_error_to_string e)
        | Err (SRefused e) => Err (session_error_to_string e)
        end).
End session.
