(* ===== verification/TimExec.v ===== *)
(** * The card executor

    [jobs.rs], [ops.rs], [safety.rs] and the executor of [mod.rs] of
    [src/crates/devbridge-client/src/device_jobs/tim]: payments and their
    settling, reversals, shifts, balances, receipt copies, the reconcile of each
    and the 23:50 safety balance.  The executor is the one [TimExecutor::start]
    builds, with a journal. *)

From Stdlib Require Import ZArith String.
From stdpp Require Import gmap.
From S2P Require Import Prelude RustStd Core Sqlite Json DeviceApi JournalData JournalCard Journal.
From S2P Require Import TimCard TimSession.
#[local] Open Scope Z_scope.

Definition RECONNECT_GAP : Z := 2000.
Definition TIM_DEFAULT_COMMIT_TIMEOUT_S : Z := 60.
Definition COPY_SLIP_TITLE : string := "Platba kartou - kopia dokladu".

(** The till's receipt printer, after the slips and the calls so far. *)
Class SlipPrinter : Type := { print_slip : list SlipPrint → SlipPrint → result string unit }.

(** The configuration of [TimExecutor]; the terminals are in the order of their
    addresses. *)
Record TimConfig `{Chrono} := mkTimConfig {
  terminals : list TerminalSpec;
  library_loaded : bool;
  has_printer : bool;
  rollback_deadline_ms : Z;
  started_at : DateTime;
}.

(** ** [mod.rs] *)

Definition reconnect_wait (last_end : option Z) (now gap : Z) : Z :=
  match last_end with Some ended => Z.max 0 (ended + gap - now) | None => 0 end.
Definition effective_state (last : TerminalState) (in_flight : nat) : TerminalState :=
  if (0 <? in_flight)%nat then TBusy else last.
Fixpoint any_failed (states : list TerminalState) : bool :=
  match states with [] => false | TFailed :: _ => true | _ :: l => any_failed l end.
Definition any_busy (states : list TerminalState) : bool :=
  existsb (λ s, match s with TBusy => true | _ => false end) states.
Definition aggregate_status (loaded : bool) (states : list TerminalState) : string :=
  if any_failed states then "offline"
  else match states with
       | [] => "offline"
       | _ => if negb loaded then "offline" else if any_busy states then "busy" else "tim-ok"
       end.
Definition settle_endpoint (ip : string) : string := ip +:+ "#settle".
Definition is_settle (job_type : string) : bool := (job_type =t? JOB_COMMIT) || (job_type =t? JOB_ROLLBACK).
Definition unsupported_text (job_type : string) : string :=
  "the TIM card terminal does not run '" +:+ job_type +:+ "' - the terminal was not contacted, nothing ran".

(** ** [ops.rs]: the terminal operations *)

Inductive TerminalOp := Activate | Deactivate | Balance.
#[export] Instance TerminalOp_eq_dec : EqDecision TerminalOp.
Proof. solve_decision. Defined.
Definition op_of_job (job_type : string) : option TerminalOp :=
  if job_type =t? JOB_ACTIVATE then Some Activate
  else if job_type =t? JOB_DEACTIVATE then Some Deactivate
  else if job_type =t? JOB_BALANCE then Some Balance
  else None.
Definition op_debug (op : TerminalOp) : string :=
  match op with Activate => "Activate" | Deactivate => "Deactivate" | Balance => "Balance" end.
Definition op_error (op : TerminalOp) (e : TimError) : Outcome :=
  match classify_transaction_error (te_code e) with
  | NothingCharged code =>
    OFailed code ("the terminal refused the " +:+ op_debug op +:+ ": " +:+ tim_error_to_string e +:+ " - nothing ran")
  | UnknownOutcome =>
    Indeterminate (op_debug op +:+ " failed after the terminal was asked: " +:+ tim_error_to_string e
                     +:+ " - reconciled")
  end.
Definition fail_outcome (f : SessionFail) (nothing : string) : Outcome :=
  match f with
  | SUnreachable e =>
    OFailed CODE_TERMINAL_UNREACHABLE
      ("the terminal could not be reached: " +:+ tim_error_to_string e +:+ " - " +:+ nothing)
  | SRefused (SWrongTerminal expected reported as e) =>
    OFailed CODE_WRONG_TERMINAL (session_error_to_string e +:+ " - " +:+ nothing)
  | SRefused e => OFailed CODE_TERMINAL_ERROR (session_error_to_string e +:+ " - " +:+ nothing)
  end.

(** [object[key] = v]: the keys stay in order. *)
Fixpoint set_entry (key : string) (v : Value) (es : list (string * Value)) : list (string * Value) :=
  match es with
  | [] => [(key, v)]
  | e :: es' =>
    if fst e =t? key then (key, v) :: es'
    else if key <t? fst e then (key, v) :: es
    else e :: set_entry key v es'
  end.
Definition set_field (key : string) (v : Value) (o : Value) : Value :=
  match o with VObject es => VObject (set_entry key v es) | _ => o end.
Definition reconciled (res : Value) : Value := set_field "reconciled" (VBool true) res.

(** ** [jobs.rs]: settling *)

Definition settle_outcome (op : SettleOp) (card_job_id : Z) (reply : SettleReply) : Outcome :=
  let name := "card.purchase " +:+ z_to_string card_job_id in
  match op, reply with
  | Commit, Committed_ =>
    Done (VObject [("card_job_id", json_int card_job_id); ("state", VString "committed")])
  | Commit, RolledBack_ why =>
    OFailed CODE_ALREADY_ROLLED_BACK (name +:+ " is not charged (" +:+ why +:+ ") - nothing committed")
  | Rollback, RolledBack_ why =>
    Done (VObject [("card_job_id", json_int card_job_id); ("detail", VString why); ("state", VString "rolled_back")])
  | Rollback, Committed_ =>
    OFailed CODE_ALREADY_COMMITTED
      (name +:+ " is already committed - nothing rolled back (a storno is card.reversal)")
  | _, Unknown_ why => Indeterminate ("the outcome of " +:+ name +:+ " is not known yet: " +:+ why)
  end.
Definition purchase_state (entry : JournalEntry) : SettleReply :=
  match je_state entry with
  | SDone => Committed_
  | JFailed => RolledBack_ (default "failed" (je_error_code entry) +:+ ": " +:+ default "" (je_error_text entry))
  | other => Unknown_ ("card.purchase is " +:+ jstate_as_str other)
  end.
Definition as_reconciliation (o : Outcome) : Reconciliation :=
  match o with
  | Done res => RDone res
  | OFailed code text => RFailed code text
  | Indeterminate why => StillUnknown why
  end.
Definition terminal_trouble (code : string) : bool :=
  text_in code [CODE_TERMINAL_UNREACHABLE; CODE_TERMINAL_ERROR; CODE_WRONG_TERMINAL].
Definition is_payment (job_type : string) : bool := negb (is_none (two_phase_of_job job_type)).

Section executor.
Context `{Chrono} `{JsonText} `{!Rfc3339} `{TL : TimLibrary} `{!TimWorld} `{SlipPrinter}.
Variable config : TimConfig.

Definition spec_of (kasa : Z) : option TerminalSpec :=
  List.find (λ s, ts_kasa_id s =? kasa) (terminals config).
Definition job_spec (job : DeviceJob) : option TerminalSpec := dj_kasa_id job ≫= spec_of.
Definition set_state (ip : string) (st : TerminalState) : TM unit :=
  modify (λ t, mkTim _ (journal t) (tim_asked t) (now_ms t) (steps t) (settle_channel t) (replies t)
                 (holders t) (slips t) (last_end t) (<[ip := st]> (tim_states t)) (call_times t)).
Definition session_ended (ip : string) : TM unit :=
  modify (λ t, mkTim _ (journal t) (tim_asked t) (now_ms t) (steps t) (settle_channel t) (replies t)
                 (holders t) (slips t) (<[ip := now_ms t]> (last_end t)) (tim_states t)
                 (call_times t)).
Definition on_terminal {A} (spec : TerminalSpec) (work : TM A) : TM (option A) :=
  if negb (library_loaded config) then mret None
  else
    t ← gets (λ t, t);
    _ ← pass (reconnect_wait (last_end t !! ts_ip spec) (now_ms t) RECONNECT_GAP);
    a ← work;
    _ ← session_ended (ts_ip spec);
    mret (Some a).
Definition one_session {A} (spec : TerminalSpec) (job : option Z) (nothing : string) (work : option string → TM A)
    : TM (result Outcome A) :=
  ran ← on_terminal spec (with_session spec job work);
  match ran with
  | None => mret (Err (OFailed CODE_TIM_UNAVAILABLE ("the TIM library is not loaded - " +:+ nothing)) : result Outcome A)
  | Some (Err f) => _ ← set_state (ts_ip spec) TFailed; mret (Err (fail_outcome f nothing))
  | Some (Ok a) => _ ← set_state (ts_ip spec) TReady; mret (Ok a)
  end.
Definition stored_seq (ip : string) : TM (option Z) :=
  r ← journaled (card_last_seq ip); mret (ok_flatten r).

(** ** [check_card] *)

Definition reject (code text : string) : result Rejection unit := Err (mkRejection code text).
Definition TERMINAL_JOBS : list string :=
  [JOB_PURCHASE; JOB_CREDIT; JOB_REVERSAL; JOB_ACTIVATE; JOB_DEACTIVATE; JOB_BALANCE; JOB_PRINT_COPY].
Definition nothing_of (kind : string) : string :=
  if is_payment kind || (kind =t? JOB_REVERSAL) then "nothing charged" else "nothing ran".
Definition check_card (job : DeviceJob) : result Rejection unit :=
  let kind := dj_job_type job in
  let nothing := nothing_of kind in
  if (is_settle kind || (kind =t? JOB_PRINT_COPY)) && is_none (settle_target job) then
    reject CODE_BAD_PAYLOAD (kind +:+ " needs card_job_id (a positive integer) - nothing ran")
  else if is_settle kind then Ok tt
  else if negb (text_in kind TERMINAL_JOBS) then reject CODE_UNSUPPORTED (unsupported_text kind)
  else if negb (library_loaded config) then
    reject CODE_TIM_UNAVAILABLE
      ("the TIM library is not loaded - the terminal was not contacted, " +:+ nothing)
  else if is_none (job_spec job) then
    reject CODE_NO_TERMINAL
      ("till " +:+ debug_opt z_to_string (dj_kasa_id job) +:+ " has no card terminal (terminal_ip) - " +:+ nothing)
  else if is_payment kind && is_none (amount_minor job) then
    reject CODE_BAD_AMOUNT (kind +:+ " amount must be a whole number of cents > 0 - nothing charged")
  else if is_payment kind && negb (currency_ok job) then
    reject CODE_BAD_CURRENCY "the terminal takes EUR only - nothing charged"
  else if (kind =t? JOB_REVERSAL) && is_none (reversal_target job) then
    reject CODE_BAD_PAYLOAD
      "card.reversal needs trans_seq (an integer 0 ..= 2^31 - 1) and amount (whole cents > 0) - nothing charged"
  else Ok tt.

(** ** [card.purchase], [card.credit] *)

Definition end_outcome (job : DeviceJob) (ended : PurchaseEnd) : TM Outcome :=
  match ended with
  | Refused code text => mret (OFailed code text)
  | Committed facts tid => mret (Done (card_result "committed" tid facts))
  | RolledBack why => mret (OFailed CODE_ROLLED_BACK why)
  | Unknown why => _ ← journaled (card_ended (dj_id job)); mret (Indeterminate why)
  end.
Definition state_after (ended : PurchaseEnd) : TerminalState :=
  match ended with
  | Refused code _ => if terminal_trouble code then TFailed else TReady
  | _ => TReady
  end.
(** [channel]: the settle requests that will come for this payment. *)
Definition open_channel (job_id : Z) (channel : SettleChannel) : TM unit :=
  modify (λ t, set_channel channel (set_holders (λ l, job_id :: l) t)).
Definition two_phase (job : DeviceJob) (kind : TwoPhase) (channel : SettleChannel) : TM Outcome :=
  match job_spec job, amount_minor job with
  | Some spec, Some amount =>
    stored ← stored_seq (ts_ip spec);
    _ ← open_channel (dj_id job) channel;
    let req := {| pr_job_id := dj_id job; pr_kind := kind; pr_amount_minor := amount;
                  pr_deadline := rollback_deadline_ms config; pr_stored_max_seq := stored;
                  pr_release_within := 1000 * ts_commit_timeout_s spec;
                  pr_has_printer := has_printer config |} in
    ran ← on_terminal spec (run_purchase spec req);
    let ended := match ran with
                 | Some ended => ended
                 | None => Refused CODE_TIM_UNAVAILABLE "the TIM library is not loaded - nothing charged"
                 end in
    _ ← set_state (ts_ip spec) (state_after ended);
    end_outcome job ended
  | _, _ => mret (OFailed CODE_TIM_UNAVAILABLE "the purchase cannot reach a terminal - nothing charged")
  end.

(** ** [card.commit], [card.rollback] *)

Definition unknown_purchase (target : Z) (why : string) : Outcome :=
  OFailed CODE_UNKNOWN_PURCHASE ("card_job_id " +:+ z_to_string target +:+ ": " +:+ why +:+ " - nothing ran").
Definition settle_purchase (job : DeviceJob) (target : Z) : TM (result Outcome JournalEntry) :=
  r ← journaled (get target);
  match r with
  | Ok (Some entry) =>
    if negb (is_payment (dj_job_type (je_job entry)))
       || negb (bool_decide (dj_kasa_id (je_job entry) = dj_kasa_id job)) then
      mret (Err (unknown_purchase target "not a card.purchase / card.credit of this till")
            : result Outcome JournalEntry)
    else
      card ← journaled (card_payment target);
      let mismatch : option string :=
        c ← ok_flatten card; auth ← cp_auth_result c; settle_mismatch job auth in
      match mismatch with
      | Some problem => mret (Err (OFailed CODE_SETTLE_MISMATCH (problem +:+ " - nothing ran")))
      | None => mret (Ok entry)
      end
  | Ok None => mret (Err (unknown_purchase target "this bridge never received that card.purchase"))
  | Err e => mret (Err (Indeterminate ("journal: " +:+ e)))
  end.
(** [answer]: what the held payment replied, when its channel took the request. *)
Definition settle (job : DeviceJob) (op : SettleOp) (answer : option SettleReply) : TM Outcome :=
  match settle_target job with
  | None => mret (OFailed CODE_BAD_PAYLOAD "no card_job_id - nothing ran")
  | Some target =>
    p ← settle_purchase job target;
    match p with
    | Err refusal => mret refusal
    | Ok _ =>
      held ← gets (λ t, existsb (Z.eqb target) (holders t));
      match (if held : bool then answer else None) with
      | Some state => mret (settle_outcome op target state)
      | None =>
        _ ← pass 0;
        p ← settle_purchase job target;
        mret (match p with
              | Ok entry => settle_outcome op target (purchase_state entry)
              | Err refusal => refusal
              end)
      end
    end
  end.

(** ** [card.reversal] *)

Inductive ReversalEnd :=
| RevDone (facts : TxFacts) (tid : option string)
| RevRefused (code text : string)
| RevUnknown (why : string).
Record ReversalRun := mkReversal {
  rr_job : Z; rr_ip : string; rr_seq : Z; rr_amount : Z; rr_tid : option string; rr_stored : option Z;
}.
Definition wrong_charge_terminal (run : ReversalRun) (tid : option string) : option string :=
  match rr_tid run with
  | Some wanted => if bool_decide (tid = Some wanted) then None else Some wanted
  | None => None
  end.
(** An earlier reversal of this [trans_seq], or a journal that cannot tell. *)
Definition refuse_other_reversal (run : ReversalRun) : TM (option ReversalEnd) :=
  other ← journaled (card_other_reversal (rr_ip run) (rr_seq run) (rr_job run));
  mret (match other with
        | Ok None => None
        | Ok (Some (j, SDone)) =>
          Some (RevRefused CODE_ALREADY_REVERSED
            ("trans_seq " +:+ z_to_string (rr_seq run) +:+ " was already reversed by job " +:+ z_to_string j
               +:+ " - nothing sent"))
        | Ok (Some (j, st)) =>
          Some (RevRefused CODE_REVERSAL_UNRESOLVED
            ("an earlier reversal of trans_seq " +:+ z_to_string (rr_seq run) +:+ " (job " +:+ z_to_string j
               +:+ ") is " +:+ jstate_as_str st +:+ " - nothing sent, a person decides"))
        | Err e =>
          Some (RevRefused CODE_BRIDGE_ERROR
            ("journal: " +:+ e +:+ " - the reversal was not sent, nothing reversed"))
        end).
Definition send_reversal (run : ReversalRun) (tid : option string) : TM ReversalEnd :=
  r ← ask tim_facts (mkAsked (rr_ip run) (Some (rr_job run)) (TReversal (rr_seq run)));
  match r with
  | Ok facts => mret (RevDone facts tid)
  | Err e =>
    proven ← journaled (card_balance_since_payment (rr_ip run) (rr_seq run));
    mret (match classify_reversal_error (te_code e) (match proven with Ok b => b | Err _ => false end) with
          | NothingCharged code =>
            RevRefused code ("the terminal refused the reversal: " +:+ tim_error_to_string e +:+ " - nothing reversed")
          | UnknownOutcome =>
            RevUnknown ("the reversal failed with an unknown outcome: " +:+ tim_error_to_string e
                          +:+ " - reconciled with the terminal")
          end)
  end.
Definition reversal_session (run : ReversalRun) (tid : option string) : TM ReversalEnd :=
  match wrong_charge_terminal run tid with
  | Some wanted =>
    mret (RevRefused CODE_WRONG_TERMINAL
      ("the payment was charged on terminal " +:+ wanted +:+ ", this till's terminal is "
         +:+ default "(unknown)" tid +:+ " - nothing reversed"))
  | None =>
    last ← ask tim_last (mkAsked (rr_ip run) (Some (rr_job run)) TLastTransaction);
    let base := baseline (match last with Ok l => Some l | Err _ => None end) (rr_stored run) in
    other ← refuse_other_reversal run;
    match other with
    | Some e => mret e
    | None =>
      c ← journaled (card_contact_of (rr_job run) (rr_ip run) (rr_amount run) base TRANSACTION_TYPE_REVERSAL
                       (Some (rr_seq run)));
      match c with
      | Ok true => send_reversal run tid
      | Ok false =>
        mret (RevUnknown "the terminal was already asked for this reversal - no second one, reconciled with the terminal")
      | Err e =>
        mret (RevRefused CODE_BRIDGE_ERROR ("the journal did not record the terminal contact (" +:+ e
                +:+ ") - the reversal was not sent, nothing reversed"))
      end
    end
  end.
Definition reversal (job : DeviceJob) : TM Outcome :=
  match job_spec job, reversal_target job with
  | Some spec, Some (seq, amount) =>
    stored ← stored_seq (ts_ip spec);
    let run := mkReversal (dj_id job) (ts_ip spec) seq amount (payload_tid job) stored in
    ended ← one_session spec (Some (dj_id job)) "nothing reversed" (reversal_session run);
    match ended with
    | Err o => mret o
    | Ok (RevDone facts tid) =>
      _ ← match trans_seq facts with
          | Some s => _ ← journaled (card_transacted (dj_id job) s); mret tt
          | None => mret tt
          end;
      _ ← modify (add_slips (if has_printer config then slip_prints (ts_kasa_id spec) facts else []));
      mret (Done (card_result "reversed" tid facts))
    | Ok (RevRefused code text) => mret (OFailed code text)
    | Ok (RevUnknown why) => _ ← journaled (card_ended (dj_id job)); mret (Indeterminate why)
    end
  | _, _ => mret (OFailed CODE_TIM_UNAVAILABLE "the reversal cannot reach a terminal - nothing reversed")
  end.

(** ** [card.activate], [card.deactivate], [card.balance] *)

Definition op_call (op : TerminalOp) (a : TimCall → Asked) (tid : option string) : TM (result TimError Value) :=
  match op with
  | Activate =>
    r ← ask tim_shift (a TActivate);
    mret (match r with Ok s => Ok (shift_result "activated" tid s) | Err e => Err e end)
  | Deactivate =>
    r ← ask tim_shift (a TDeactivate);
    mret (match r with Ok s => Ok (shift_result "deactivated" tid s) | Err e => Err e end)
  | Balance =>
    r ← ask tim_balance (a TBalance);
    mret (match r with Ok b => Ok (balance_result tid b) | Err e => Err e end)
  end.
Definition journal_failed (what e : string) : Outcome :=
  OFailed CODE_BRIDGE_ERROR ("the journal did not record the " +:+ what +:+ " (" +:+ e +:+ ") - nothing ran").
(** The mark of the job and, for a balance, its row: the outcome that ends the
    job here, or the row's id. *)
Definition op_contact (ip : string) (job_id : Z) (op : TerminalOp) (date : string)
    : TM (result Outcome (option Z)) :=
  m ← journaled (mark_device_contact job_id);
  match m with
  | Ok true =>
    match op with
    | Balance =>
      b ← journaled (card_balance_contact ip date SOURCE_JOB (Some job_id));
      mret (match b with Ok id => Ok id | Err e => Err (journal_failed "balance" e) end)
    | _ => mret (Ok None)
    end
  | Ok false =>
    mret (Err (Indeterminate "the terminal was already asked for this job - not asked again, reconciled"))
  | Err e => mret (Err (journal_failed "terminal contact" e))
  end.
Definition op_session (ip : string) (job_id : Z) (op : TerminalOp) (date : string) (tid : option string)
    : TM (option Z * Outcome) :=
  c ← op_contact ip job_id op date;
  match c with
  | Err o => mret (None, o)
  | Ok balance =>
    r ← op_call op (mkAsked ip (Some job_id)) tid;
    mret (balance, match r with Ok res => Done res | Err e => op_error op e end)
  end.
Definition journal_balance (id : option Z) (o : Outcome) : TM unit :=
  match id, o with
  | Some id, Done res => _ ← journaled (card_balance_outcome id "done" res); mret tt
  | Some id, OFailed code text =>
    _ ← journaled (card_balance_outcome id "failed" (VObject [("code", VString code); ("text", VString text)]));
    mret tt
  | _, _ => mret tt
  end.
(** [date]: the store's local date. *)
Definition terminal_op (job : DeviceJob) (date : string) : TM Outcome :=
  match job_spec job, op_of_job (dj_job_type job) with
  | Some spec, Some op =>
    ran ← one_session spec (Some (dj_id job)) "nothing ran" (op_session (ts_ip spec) (dj_id job) op date);
    match ran with
    | Ok (balance, o) => _ ← journal_balance balance o; mret o
    | Err o => mret o
    end
  | _, _ => mret (OFailed CODE_TIM_UNAVAILABLE "no terminal - nothing ran")
  end.

(** ** [card.print_copy] *)

Definition copy_refusal (target : Z) (why : string) : Outcome :=
  OFailed CODE_UNKNOWN_PURCHASE ("card_job_id " +:+ z_to_string target +:+ ": " +:+ why +:+ " - nothing printed").
Definition copy_target (job : DeviceJob) (target : Z) : TM (result Outcome Z) :=
  r ← journaled (get target);
  match r with
  | Ok None => mret (Err (copy_refusal target "this bridge never received that card job") : result Outcome Z)
  | Err e => mret (Err (OFailed CODE_BRIDGE_ERROR ("journal: " +:+ e +:+ " - nothing printed")))
  | Ok (Some entry) =>
    let kind := dj_job_type (je_job entry) in
    if negb (is_payment kind || (kind =t? JOB_REVERSAL))
       || negb (bool_decide (dj_kasa_id (je_job entry) = dj_kasa_id job)) then
      mret (Err (copy_refusal target "not a card payment / reversal of this till"))
    else
      card ← journaled (card_payment target);
      let seq : option Z := c ← ok_flatten card; cp_trans_seq c in
      mret (match seq with
            | Some s =>
              if bool_decide (je_state entry = JFailed) then
                Err (copy_refusal target ("no terminal receipt for it (state " +:+ jstate_as_str (je_state entry) +:+ ")"))
              else Ok s
            | None =>
              Err (copy_refusal target ("no terminal receipt for it (state " +:+ jstate_as_str (je_state entry) +:+ ")"))
            end)
  end.
Definition copy_session (ip : string) (job_id seq : Z) : TM (result Outcome Receipts) :=
  m ← journaled (mark_device_contact job_id);
  match m with
  | Err e =>
    mret (Err (OFailed CODE_BRIDGE_ERROR
      ("the journal did not record the terminal contact (" +:+ e +:+ ") - nothing printed")) : result Outcome Receipts)
  | Ok _ =>
    last ← ask tim_last (mkAsked ip (Some job_id) TLastTransaction);
    match last with
    | Err e =>
      mret (Err (OFailed CODE_TERMINAL_ERROR
        ("the terminal's last transaction is not readable: " +:+ tim_error_to_string e +:+ " - nothing printed")))
    | Ok last =>
      let last_seq := lt_facts last ≫= trans_seq in
      if negb (bool_decide (last_seq = Some seq)) then
        mret (Err (OFailed CODE_NOT_LAST_TRANSACTION
          ("the terminal reprints only its latest receipt (trans_seq " +:+ debug_opt z_to_string last_seq
             +:+ "), not trans_seq " +:+ z_to_string seq +:+ " - nothing printed")))
      else
        r ← ask tim_reprint (mkAsked ip (Some job_id) TReprint);
        mret (match r with
              | Ok receipts => Ok receipts
              | Err e => Err (OFailed CODE_TERMINAL_ERROR
                  ("the terminal gave no receipt copy: " +:+ tim_error_to_string e +:+ " - nothing printed"))
              end)
    end
  end.
Definition print_receipt_copy (kasa target seq : Z) (receipts : Receipts) : TM Outcome :=
  match r_cardholder receipts with
  | None => mret (OFailed CODE_PRINT_FAILED "the terminal's copy carries no cardholder slip - nothing printed")
  | Some text =>
    let slip : SlipPrint := (kasa, (COPY_SLIP_TITLE, slip_lines text)) in
    printed ← gets (λ t, print_slip (slips t) slip);
    _ ← modify (add_slips [slip]);
    mret (match printed with
          | Ok _ => Done (copy_result target seq receipts)
          | Err e => OFailed CODE_PRINT_FAILED ("the receipt printer refused the copy: " +:+ e)
          end)
  end.
Definition print_copy (job : DeviceJob) : TM Outcome :=
  match job_spec job, settle_target job with
  | Some spec, Some target =>
    s ← copy_target job target;
    match s with
    | Err refusal => mret refusal
    | Ok seq =>
      if negb (has_printer config) then
        mret (OFailed CODE_NO_PRINTER "the till has no receipt printer configured - nothing printed")
      else
        r ← one_session spec (Some (dj_id job)) "nothing printed" (λ _, copy_session (ts_ip spec) (dj_id job) seq);
        match r with
        | Ok (Ok receipts) => print_receipt_copy (ts_kasa_id spec) target seq receipts
        | Ok (Err o) | Err o => mret o
        end
    end
  | _, _ => mret (OFailed CODE_TIM_UNAVAILABLE "no terminal - nothing printed")
  end.

(** [date] and [channel] are what the operations need of the outside. *)
Definition execute_card (job : DeviceJob) (date : string) (channel : SettleChannel) (answer : option SettleReply)
    : TM Outcome :=
  let kind := dj_job_type job in
  if kind =t? JOB_PURCHASE then two_phase job Purchase channel
  else if kind =t? JOB_CREDIT then two_phase job Credit channel
  else if kind =t? JOB_COMMIT then settle job Commit answer
  else if kind =t? JOB_ROLLBACK then settle job Rollback answer
  else if kind =t? JOB_REVERSAL then reversal job
  else if text_in kind [JOB_ACTIVATE; JOB_DEACTIVATE; JOB_BALANCE] then terminal_op job date
  else if kind =t? JOB_PRINT_COPY then print_copy job
  else mret (OFailed CODE_UNSUPPORTED (unsupported_text kind)).

(** ** Reconciling *)

Definition settle_moments (card : CardPayment) : list DateTime :=
  omap (λ t, parse_from_rfc3339 t)
    ([cp_contact_at card] ++ option_list (cp_authorized_at card) ++ option_list (cp_ended_at card))
  ++ [started_at config].
(** What the terminal's last transaction says of the payment [card]. *)
Definition reconcile_verdict (card : CardPayment) (tid : option string) (last : LastTransaction)
    : TM Reconciliation :=
  let job_id := cp_job_id card in
  later ← journaled (card_later_on_terminal job_id);
  let ours := {| our_baseline := cp_baseline_seq card; our_amount_minor := cp_amount_minor card;
                 our_trans_seq := cp_trans_seq card; our_tx_type := cp_tx_type card;
                 later_payment := match later with Ok b => b | Err _ => true end |} in
  let reversed := cp_tx_type card =? TRANSACTION_TYPE_REVERSAL in
  match correlate ours last with
  | Charged facts =>
    _ ← match trans_seq facts with
        | Some s => _ ← journaled (card_transacted job_id s); mret tt
        | None => mret tt
        end;
    mret (RDone (reconciled (card_result (if reversed then "reversed" else "successful") tid facts)))
  | NotCharged =>
    mret (if reversed then
            RFailed CODE_NOT_REVERSED
              "the terminal reports this reversal failed - the payment is NOT reversed, no money moved"
          else
            RFailed CODE_ROLLED_BACK
              "the terminal reports this payment failed (rolled back / reversed) - no money taken")
  | Undecidable why =>
    _ ← journaled (card_for_person job_id why);
    mret (StillUnknown ("left for a person: " +:+ why))
  end.
(** [now]: the clock when the wait for the commit timeout is decided. *)
Definition ask_terminal (spec : option TerminalSpec) (card : CardPayment) (now : DateTime) : TM Reconciliation :=
  let timeout := match spec with Some s => ts_commit_timeout_s s | None => TIM_DEFAULT_COMMIT_TIMEOUT_S end in
  let after := settle_after (settle_moments card) timeout in
  if settle_pending now after then
    mret (StillUnknown ("waiting until the terminal's commit timeout has passed ("
            +:+ default "" (to_rfc3339 <$> after) +:+ ")"))
  else
    match spec with
    | None => mret (StillUnknown "the till has no terminal any more - a person must reconcile it")
    | Some spec =>
      read ← on_terminal spec (read_last spec (Some (cp_job_id card)));
      match read with
      | None => mret (StillUnknown "the TIM library is not loaded")
      | Some (Err e) =>
        _ ← set_state (ts_ip spec) TFailed;
        mret (StillUnknown ("the terminal could not be asked: " +:+ e))
      | Some (Ok (tid, last)) => _ ← set_state (ts_ip spec) TReady; reconcile_verdict card tid last
      end
    end.
Definition reconcile_transaction (entry : JournalEntry) : TM Reconciliation :=
  if is_none (je_contact_at entry) then
    mret (RFailed CODE_NOT_EXECUTED
      "the terminal was never asked (no device contact journaled) - nothing charged")
  else
    card ← journaled (card_payment (dj_id (je_job entry)));
    match card with
    | Err e => mret (StillUnknown ("journal: " +:+ e))
    | Ok None => mret (StillUnknown "no card row - a person must reconcile it")
    | Ok (Some card) =>
      match cp_person_reason card with
      | Some reason => mret (StillUnknown ("left for a person: " +:+ reason))
      | None =>
        now ← journaled utc_now;
        match now with
        | Ok now => ask_terminal (job_spec (je_job entry)) card now
        | Err e => mret (StillUnknown e)
        end
      end
    end.
Definition reconcile_terminal_op (entry : JournalEntry) : TM Reconciliation :=
  let job := je_job entry in
  if is_none (je_contact_at entry) then
    mret (RFailed CODE_NOT_EXECUTED "the terminal was never asked (no device contact journaled) - nothing ran")
  else if dj_job_type job =t? JOB_PRINT_COPY then
    mret (RFailed CODE_PRINT_UNKNOWN
      "the copy was interrupted - whether it printed is unknown, no money is involved; ask for a new copy")
  else
    match op_of_job (dj_job_type job) with
    | None => mret (StillUnknown "not a terminal operation")
    | Some Balance =>
      mret (StillUnknown
        "left for a person: the terminal does not tell whether the interrupted balance ran - the next balance (or the 23:50 safety balance) closes the period anyway")
    | Some op =>
      later ← journaled (card_later_shift_job (dj_id job) (dj_kasa_id job));
      if match later with Ok b => b | Err _ => true end then
        mret (StillUnknown
          "left for a person: a later card.activate / card.deactivate of this till governs the terminal's shift")
      else
        match job_spec job with
        | None => mret (StillUnknown "the till has no terminal any more")
        | Some spec =>
          r ← one_session spec (Some (dj_id job)) "nothing ran"
                (op_call op (mkAsked (ts_ip spec) (Some (dj_id job))));
          mret (match r with
                | Ok (Ok res) => RDone (reconciled res)
                | Ok (Err e) => StillUnknown ("the terminal answered " +:+ tim_error_to_string e)
                | Err o => StillUnknown ("the terminal could not be asked: " +:+ outcome_label o)
                end)
        end
    end.
Definition reconcile_settle (job : DeviceJob) (op : SettleOp) : TM Reconciliation :=
  match settle_target job with
  | None => mret (StillUnknown "no card_job_id")
  | Some target =>
    p ← settle_purchase job target;
    mret (as_reconciliation (match p with
                             | Ok purchase => settle_outcome op target (purchase_state purchase)
                             | Err refusal => refusal
                             end))
  end.
Definition reconcile_card (entry : JournalEntry) : TM Reconciliation :=
  let kind := dj_job_type (je_job entry) in
  if is_payment kind || (kind =t? JOB_REVERSAL) then reconcile_transaction entry
  else if text_in kind [JOB_ACTIVATE; JOB_DEACTIVATE; JOB_BALANCE; JOB_PRINT_COPY] then reconcile_terminal_op entry
  else if is_settle kind then
    reconcile_settle (je_job entry) (if kind =t? JOB_COMMIT then Commit else Rollback)
  else mret (StillUnknown ("the TIM executor does not run '" +:+ kind +:+ "' - a person must reconcile it")).

(** ** [safety.rs]: the balance of 23:50 *)

Definition safety_due (second_of_day : Z) : bool := 23 * 3600 + 50 * 60 <=? second_of_day.

Inductive SafetyEnd :=
| SafetyAlreadyRan
| SafetyNotSent (o : Outcome)
| SafetySent (id : Z) (o : Outcome).
Definition journal_fail (e : string) : SafetyEnd :=
  SafetyNotSent (OFailed CODE_BRIDGE_ERROR ("journal: " +:+ e +:+ " - nothing ran")).
Definition send_safety_balance (ip : string) (tid : option string) (id : Z) : TM SafetyEnd :=
  r ← ask tim_balance (mkAsked ip None TBalance);
  match r with
  | Ok report => mret (SafetySent id (Done (balance_result tid report)))
  | Err e =>
    match op_error Balance e with
    | OFailed _ _ as refusal => _ ← journaled (card_balance_forget id); mret (SafetyNotSent refusal)
    | unknown => mret (SafetySent id unknown)
    end
  end.
Definition safety_session (ip date : string) (until : Z) (tid : option string) : TM SafetyEnd :=
  now ← gets now_ms;
  if until <=? now then mret SafetyAlreadyRan
  else
    ran ← journaled (card_balance_ran ip date);
    match ran with
    | Ok true => mret SafetyAlreadyRan
    | Err e => mret (journal_fail e)
    | Ok false =>
      id ← journaled (card_balance_contact ip date SOURCE_SAFETY None);
      match id with
      | Ok (Some id) => send_safety_balance ip tid id
      | Ok None => mret SafetyAlreadyRan
      | Err e => mret (journal_fail e)
      end
    end.
(** Whether it was tried, and whether it reached the terminal. *)
Definition safety_balance (spec : TerminalSpec) (date : string) (until : Z) : TM (option (bool * Outcome)) :=
  ran ← journaled (card_balance_ran (ts_ip spec) date);
  match ran with
  | Ok false =>
    r ← one_session spec None "nothing ran" (safety_session (ts_ip spec) date until);
    match (match r with Ok e => e | Err o => SafetyNotSent o end) with
    | SafetyAlreadyRan => mret None
    | SafetyNotSent o => mret (Some (false, o))
    | SafetySent id o => _ ← journal_balance (Some id) o; mret (Some (true, o))
    end
  | _ => mret None
  end.
(** One check at a local time; [left] is what the day still lasts. *)
Definition safety_tick (second_of_day : Z) (date : string) (left : Z) : TM (Z * Z) :=
  if negb (safety_due second_of_day) || negb (library_loaded config) then mret (0, 0)
  else
    now ← gets now_ms;
    fold_m (terminals config) (λ spec acc,
      r ← safety_balance spec date (now + left);
      mret (match r with
            | Some (reached, _) => (fst acc + 1, snd acc + if (reached : bool) then 1 else 0)
            | None => acc
            end)) (0, 0).

(** ** The executor for the registry *)

Definition tim_endpoints : list string :=
  match terminals config with
  | [] => [""]
  | specs => concat (map (λ s, [ts_ip s; settle_endpoint (ts_ip s)]) specs)
  end.
Definition tim_endpoint (job : DeviceJob) : string :=
  let ip := match job_spec job with Some s => ts_ip s | None => "" end in
  if is_settle (dj_job_type job) && negb (ip =t? "") then settle_endpoint ip else ip.
(** [in_flight]: the sessions of a terminal that run or wait. *)
Definition tim_status (t : Tim) (in_flight : string → nat) : string :=
  aggregate_status (library_loaded config)
    (map (λ e, effective_state (snd e) (in_flight (fst e))) (order_by fst (map_to_list (tim_states t)))).
Definition tim_executor (t : Tim) (in_flight : string → nat) : DeviceExecutor :=
  {| ex_name := "tim";
     ex_check := λ job, match check_card job with Ok _ => None | Err rejection => Some rejection end;
     ex_endpoints := tim_endpoints;
     ex_endpoint := tim_endpoint;
     ex_status := tim_status t in_flight |}.
End executor.
