(* ===== verification/TimTheory.v ===== *)
(** * Theory of the card terminal's sessions

    What a session asks of the terminal ([purchase_session]: the protocol of a
    held payment), how long a held authorisation waits, and which terminal
    calls a journal row stands behind ([charged_ok]). *)

From Stdlib Require Import ZArith String.
From stdpp Require Import gmap.
From S2P Require Import Prelude RustStd Core Sqlite Json DeviceApi JournalData JournalCard Journal.
From S2P Require Import JournalTheory DeviceTheory TimCard TimSession TimExec.
#[local] Open Scope Z_scope.

Section payment.
Context `{Chrono} `{JsonText} `{TL : TimLibrary} `{!TimWorld}.

(** ** The protocol of a payment *)

Section protocol.
Variables (spec : TerminalSpec) (req : PurchaseRequest).
Abbreviation call := (mine spec req).
Abbreviation tx := (TTransaction (pr_kind req) (pr_amount_minor req)).

(** An authorised payment ends by one rollback, or by one commit that a
    [card.commit] asked for. *)
Inductive settled (L : list Asked) (settle : list (Z * SettleOp)) (facts : TxFacts) :
    PurchaseEnd → TimCall → Prop :=
| S_rolled_back why :
    tim_unit L (call TRollback) = Ok tt → settled L settle facts (RolledBack why) TRollback
| S_rollback_failed why e :
    tim_unit L (call TRollback) = Err e → settled L settle facts (Unknown why) TRollback
| S_committed tid at_ms :
    In (at_ms, Commit) settle → authorisation_problem facts (pr_amount_minor req) = None →
    tim_unit L (call TCommit) = Ok tt → settled L settle facts (Committed facts tid) TCommit
| S_commit_late why e at_ms :
    In (at_ms, Commit) settle → tim_unit L (call TCommit) = Err e → te_code e = RC_COMMIT_TIMEOUT →
    settled L settle facts (RolledBack why) TCommit
| S_commit_failed why e at_ms :
    In (at_ms, Commit) settle → tim_unit L (call TCommit) = Err e → te_code e ≠ RC_COMMIT_TIMEOUT →
    settled L settle facts (Unknown why) TCommit.

(** The terminal named itself as the till's. *)
Definition identified (L : list Asked) : Prop :=
  ∃ tid, tim_id L (call TTerminalId) = Ok tid ∧ wrong_terminal spec tid = None.

(** From the login on: at most one transaction, on the till's terminal only. *)
Inductive payment (L : list Asked) (settle : list (Z * SettleOp)) : PurchaseEnd → list TimCall → Prop :=
| Pay_no_terminal code text :
    ~ identified L → payment L settle (Refused code text) [TTerminalId]
| Pay_not_sent ended :
    identified L → (∀ facts tid, ended ≠ Committed facts tid) → (∀ why, ended ≠ RolledBack why) →
    payment L settle ended [TTerminalId; TLastTransaction]
| Pay_not_authorised e :
    identified L → tim_facts (L ++ map call [TTerminalId; TLastTransaction]) (call tx) = Err e →
    payment L settle (failed_transaction e) [TTerminalId; TLastTransaction; tx]
| Pay_authorised facts ended c :
    identified L → tim_facts (L ++ map call [TTerminalId; TLastTransaction]) (call tx) = Ok facts →
    settled (L ++ map call [TTerminalId; TLastTransaction; tx]) settle facts ended c →
    payment L settle ended [TTerminalId; TLastTransaction; tx; c].

(** The rollbacks that free a terminal whose state is unknown: at least one, up
    to the first that is answered (done, or nothing pending); the last one is
    answered so, or the window has [passed]. *)
Definition free_answer (r : result TimError unit) : bool :=
  match r with Ok _ => true | Err e => te_code e =? RC_NOTHING_PENDING end.
Definition frees (L : list Asked) (i : nat) : bool :=
  free_answer (tim_unit (L ++ map call (repeat TRollback i)) (call TRollback)).
Definition freed (passed : Prop) (L : list Asked) (n : nat) : Prop :=
  ∃ k, n = S k ∧ (∀ i, (i < k)%nat → frees L i = false) ∧ (frees L k = true ∨ passed).
(** The logout, the [n]th call after the [k]th, is sent when the terminal's
    commit timeout has passed since the [k]th call was sent. *)
Definition timeout_over (times : list Z) (k n : nat) : Prop :=
  ∃ sent out, times !! k = Some sent ∧ times !! (k + n)%nat = Some out ∧
    sent + 1000 * ts_commit_timeout_s spec ≤ out.

(** The whole session, its calls sent at [times]: it ends with a disconnect
    once it has connected, and with a logout before it once it has logged in -
    for an unknown end only after the terminal is freed. *)
Inductive purchase_session (times : list Z) (L : list Asked) (settle : list (Z * SettleOp)) :
    PurchaseEnd → list TimCall → Prop :=
| PS_no_object e : purchase_session times L settle (refused CODE_TERMINAL_ERROR "TIM terminal object" e) []
| PS_no_connect e :
    tim_unit L (call TConnect) = Err e →
    purchase_session times L settle
      (refused CODE_TERMINAL_UNREACHABLE "the terminal could not be reached" e) [TConnect]
| PS_no_login e :
    tim_unit (L ++ [call TConnect]) (call TLogin) = Err e →
    purchase_session times L settle (refused CODE_TERMINAL_ERROR "TIM login" e) [TConnect; TLogin; TDisconnect]
| PS_payment ended cs n :
    payment (L ++ map call [TConnect; TLogin]) settle ended cs →
    (if is_unknown ended then
       freed (timeout_over times (1 + length cs) (1 + n)) (L ++ map call ([TConnect; TLogin] ++ cs)) n
     else n = 0%nat) →
    purchase_session times L settle ended
      ([TConnect; TLogin] ++ cs ++ repeat TRollback n ++ [TLogout; TDisconnect]).
End protocol.

(** ** A session's state: the calls made, the requests that may come, the time *)

Hypothesis lag_nonneg : ∀ n, 0 ≤ lag n.

Record sess (L : list Asked) (settle : list (Z * SettleOp)) (t0 : Z) (t : Tim) : Prop := {
  se_log : tim_asked t = L;
  se_settle : incl (requests (settle_channel t)) settle;
  se_time : t0 ≤ now_ms t;
}.

(** No call, the channel as it was, no time. *)
Definition quiet_step (t t' : Tim) : Prop :=
  tim_asked t' = tim_asked t ∧ settle_channel t' = settle_channel t ∧ now_ms t' = now_ms t.
#[export] Instance quiet_step_preorder : PreOrder quiet_step.
Proof. split; [done|]. intros a b c (A1 & B1 & C1) (A2 & B2 & C2). split_and!; congruence. Qed.
Lemma journaled_quiet {A} (m : JM A) : respects quiet_step (journaled m).
Proof. intros t. unfold journaled, attempt, zoom. by destruct (m (journal t)). Qed.
Lemma journaled_times {A} (m : JM A) t : call_times (snd (journaled m t)) = call_times t.
Proof. unfold journaled, attempt, zoom. by destruct (m (journal t)). Qed.
Lemma modify_quiet f : (∀ t, quiet_step t (f t)) → respects quiet_step (modify f : TM unit).
Proof. intros Hf t. apply Hf. Qed.
#[local] Hint Resolve journaled_quiet : respects.

Lemma never_fails {A} (m : TM A) t : ∃ a t', m t = (Ok a, t').
Proof. destruct (m t) as [[a|[]] t']. eauto. Qed.
Lemma hoare_quiet {A} (m : TM A) L S t0 :
  respects quiet_step m → hoare (sess L S t0) m (λ _, sess L S t0).
Proof.
  intros Hm t [E1 E2 E3]. destruct (never_fails m t) as (a & t' & E). exists a, t'. split; [done|].
  specialize (Hm t). rewrite E in Hm. destruct Hm as (A1 & B1 & C1). simpl in *.
  split; [congruence|by rewrite B1|lia].
Qed.
Lemma hoare_ask {A} (answer : list Asked → Asked → A) L S t0 a :
  hoare (sess L S t0) (ask answer a) (λ r t, r = answer L a ∧ sess (L ++ [a]) S t0 t).
Proof.
  intros t [E1 E2 E3]. eexists _, _. split; [reflexivity|]. simpl. rewrite E1. split; [done|].
  split; simpl; [done..|]. pose proof (lag_nonneg (steps t)). lia.
Qed.
Lemma hoare_pass ms L S t0 : 0 ≤ ms → hoare (sess L S t0) (pass ms) (λ _, sess L S t0).
Proof.
  intros Hms t [E1 E2 E3]. eexists _, _. split; [reflexivity|]. split; simpl; [done|done|].
  pose proof (lag_nonneg (steps t)). lia.
Qed.

(** What is asked, and when: the times of the new calls lie within the run. *)
Definition timed (t t' : Tim) : Prop :=
  now_ms t ≤ now_ms t' ∧ ∃ l ts, tim_asked t' = tim_asked t ++ l ∧ call_times t' = call_times t ++ ts ∧
    length ts = length l ∧ Forall (λ x, now_ms t ≤ x ≤ now_ms t') ts.
#[local] Instance timed_preorder : PreOrder timed.
Proof.
  split.
  - intros t. split; [lia|]. exists [], []. by rewrite !app_nil_r.
  - intros a b c (N1 & l1 & s1 & A1 & B1 & C1 & F1) (N2 & l2 & s2 & A2 & B2 & C2 & F2).
    split; [lia|]. exists (l1 ++ l2), (s1 ++ s2). rewrite A2, A1, B2, B1, !app_assoc, !length_app.
    split; [done|]. split; [done|]. split; [lia|]. apply Forall_app.
    split; [eapply Forall_impl; [exact F1|]|eapply Forall_impl; [exact F2|]]; simpl; lia.
Qed.
Lemma still_timed t t' :
  tim_asked t' = tim_asked t → call_times t' = call_times t → now_ms t ≤ now_ms t' → timed t t'.
Proof. intros A B C. split; [done|]. exists [], []. by rewrite A, B, !app_nil_r. Qed.
Lemma modify_timed f : (∀ t, timed t (f t)) → respects timed (modify f : TM unit).
Proof. intros Hf t. apply Hf. Qed.
Lemma journaled_timed {A} (m : JM A) : respects timed (journaled m).
Proof.
  intros t. unfold journaled, attempt, zoom. destruct (m (journal t)).
  by apply still_timed.
Qed.
Lemma pass_timed ms : 0 ≤ ms → respects timed (pass ms).
Proof. intros Hms t. apply still_timed; [done..|]. simpl. pose proof (lag_nonneg (steps t)). lia. Qed.
Lemma ask_timed {A} (answer : list Asked → Asked → A) a : respects timed (ask answer a).
Proof.
  intros t. pose proof (lag_nonneg (steps t)). split; simpl; [lia|]. exists [a], [now_ms t].
  split; [done|]. split; [done|]. split; [done|]. constructor; [lia|done].
Qed.
Lemma recv_timeout_timed ms : 0 ≤ ms → respects timed (recv_timeout ms).
Proof.
  intros Hms. unfold recv_timeout.
  assert (∀ c, respects timed (modify (set_channel c) : TM unit)) as Hc
    by (intros; apply modify_timed; intros; by apply still_timed).
  pose proof (pass_timed ms Hms). solve_respects; by apply pass_timed; lia.
Qed.
#[local] Hint Resolve journaled_timed ask_timed : respects.

Lemma hold_loop_timed spec req fuel deadline facts tid : respects timed (hold_loop spec req fuel deadline facts tid).
Proof.
  induction fuel as [|fuel IH]; cbn [hold_loop]; [apply respects_ret, _|].
  assert (∀ op r, respects timed (modify (add_reply op r) : TM unit)) as Ha
    by (intros; apply modify_timed; intros; by apply still_timed).
  assert (∀ now, respects timed (recv_timeout (Z.min (Z.max 0 (deadline - now)) REFUSAL_POLL))) as Hr
    by (intros; apply recv_timeout_timed; unfold REFUSAL_POLL; lia).
  unfold settle_held, commit, roll_back, authorization_refused. solve_respects.
Qed.
Lemma logged_in_timed spec req : respects timed (logged_in spec req).
Proof.
  assert (∀ l, respects timed (modify (add_slips l) : TM unit)) as Hs
    by (intros; apply modify_timed; intros; by apply still_timed).
  assert (∀ fuel deadline facts tid, respects timed (hold_loop spec req fuel deadline facts tid)) as Hh
    by (intros; apply hold_loop_timed).
  unfold logged_in, contact, transact, after_transaction, authorized, hold, roll_back. solve_respects.
Qed.
Lemma release_timed spec req : respects timed (release spec req).
Proof.
  unfold release. apply respects_bind; [apply _|by apply respects_gets, _|]. intros now.
  generalize (release_fuel req) as fuel. induction fuel as [|fuel IH]; [apply respects_ret, _|]. cbn [release_loop].
  assert (∀ until t, respects timed (pass (Z.min (Z.max 0 (until - t)) RELEASE_RETRY))) as Hp
    by (intros; apply pass_timed; unfold RELEASE_RETRY; lia).
  solve_respects.
Qed.

Section held.
Variables (spec : TerminalSpec) (req : PurchaseRequest).
Abbreviation call := (mine spec req).
Implicit Types L : list Asked.

Lemma hoare_roll_back why facts L S t0 :
  hoare (sess L S t0) (roll_back spec req why)
    (λ e t, settled spec req L S facts e TRollback ∧ sess (L ++ [call TRollback]) S t0 t).
Proof.
  eapply hoare_bind; [apply hoare_ask|]. intros r. apply hoare_ret. intros t [-> Ht].
  split; [|done]. destruct (tim_unit L (call TRollback)) as [[]|e] eqn:E; by econstructor.
Qed.
Lemma hoare_commit facts tid at_ms L S t0 :
  In (at_ms, Commit) S → authorisation_problem facts (pr_amount_minor req) = None →
  hoare (sess L S t0) (commit spec req facts tid)
    (λ e t, settled spec req L S facts e TCommit ∧ sess (L ++ [call TCommit]) S t0 t).
Proof.
  intros Hin Hp. eapply hoare_bind; [apply hoare_ask|]. intros r. apply hoare_ret. intros t [-> Ht].
  split; [|done]. destruct (tim_unit L (call TCommit)) as [[]|e] eqn:E; [by econstructor|].
  destruct (Z.eqb_spec (te_code e) RC_COMMIT_TIMEOUT); by econstructor.
Qed.

Lemma hoare_recv ms L S t0 :
  0 ≤ ms →
  hoare (sess L S t0) (recv_timeout ms)
    (λ r t, sess L S t0 t ∧ match r with RRequest op => ∃ at_ms, In (at_ms, op) S | _ => True end).
Proof.
  intros Hms t Ht. unfold recv_timeout. destruct Ht as [E1 E2 E3].
  assert (∀ x, In x (requests (settle_channel t)) → In x S) as Hin by exact E2.
  pose proof (lag_nonneg (steps t)). unfold mbind at 1, M_bind at 1, gets. simpl.
  destruct (requests (settle_channel t)) as [|[at_ms op] later] eqn:Er.
  - destruct (closed_by _ _); (eexists _, _; split; [reflexivity|]); (split; [|done]); split; simpl; rewrite ?Er;
      (done || lia).
  - destruct (at_ms <=? now_ms t + ms).
    + eexists _, _. split; [reflexivity|]. split; [|by exists at_ms; apply Hin; left].
      split; simpl; [done| |lia]. intros y Hy. apply Hin. by right.
    + destruct (closed_by _ _); (eexists _, _; split; [reflexivity|]); (split; [|done]); split; simpl; rewrite ?Er;
        (done || lia).
Qed.

Lemma recv_timeout_time ms t r t' :
  recv_timeout ms t = (Ok r, t') →
  (r = RTimeout → now_ms t + ms ≤ now_ms t') ∧
  (∀ most, 0 ≤ most → 0 ≤ ms → (∀ n, lag n ≤ most) → now_ms t' ≤ now_ms t + ms + most).
Proof.
  intros E. pose proof (lag_nonneg (steps t)) as Hlag.
  unfold recv_timeout, mbind, M_bind, gets, pass, modify, mret, M_ret in E. simpl in E.
  destruct (requests (settle_channel t)) as [|[at_ms op] later];
    repeat case_match; simplify_eq; simpl in *; split; intros; simplify_eq;
    repeat match goal with Hm : ∀ n, lag n ≤ _ |- _ => pose proof (Hm (steps t)); clear Hm end;
    try match goal with Hq : (_ <=? _) = true |- _ => apply Z.leb_le in Hq end; lia.
Qed.

(** How an authorised payment ended, and what it asked. *)
Definition ends L S facts t0 (e : PurchaseEnd) (t : Tim) : Prop :=
  ∃ c, settled spec req L S facts e c ∧ sess (L ++ [call c]) S t0 t.

Lemma hoare_ends_roll_back why facts L S t0 :
  hoare (sess L S t0) (roll_back spec req why) (ends L S facts t0).
Proof. eapply hoare_conseq; [apply (hoare_roll_back why facts)|done|]. intros e t He. by exists TRollback. Qed.

Lemma hoare_settle_held op facts tid at_ms L S t0 :
  In (at_ms, op) S → authorisation_problem facts (pr_amount_minor req) = None →
  hoare (sess L S t0) (settle_held spec req op facts tid) (ends L S facts t0).
Proof.
  intros Hin Hp. eapply hoare_bind with (Q := ends L S facts t0).
  - destruct op; [|apply hoare_ends_roll_back].
    eapply hoare_conseq; [by apply (hoare_commit facts tid at_ms)|done|]. intros e t He. by exists TCommit.
  - intros e t (c & Hs & Ht).
    destruct (hoare_quiet _ (L ++ [call c]) S t0 (modify_quiet (add_reply op (settle_reply e)) (λ _, ltac:(done))) t Ht)
      as ([] & t' & E & Ht').
    exists e, t'. unfold mbind, M_bind. rewrite E. split; [done|]. by exists c.
Qed.

Lemma authorization_refused_quiet : respects quiet_step (authorization_refused req).
Proof. unfold authorization_refused. solve_respects. Qed.
Lemma authorized_quiet facts tid : respects quiet_step (authorized spec req facts tid).
Proof. unfold authorized. solve_respects. by apply modify_quiet. Qed.
Lemma authorized_times facts tid t : call_times (snd (authorized spec req facts tid t)) = call_times t.
Proof.
  unfold authorized, mbind, M_bind.
  match goal with |- context [journaled ?m t] => pose proof (journaled_times m t) as F;
    destruct (journaled m t) as [[[[]|e]|[]] t1] end; exact F.
Qed.
Lemma contact_quiet base : respects quiet_step (contact spec req base).
Proof. unfold contact. solve_respects. Qed.

Lemma some_end L S facts t0 (m : TM PurchaseEnd) :
  hoare (sess L S t0) m (ends L S facts t0) →
  hoare (sess L S t0) (e ← m; mret (Some e)) (λ o t, ∃ e, o = Some e ∧ ends L S facts t0 e t).
Proof. intros Hm. eapply hoare_bind; [exact Hm|]. intros e. apply hoare_ret. eauto. Qed.

(** The loop ends within its fuel: a round that decides nothing lasts 500 ms,
    or up to the deadline. *)
Lemma hoare_hold_loop fuel deadline facts tid L S t0 :
  authorisation_problem facts (pr_amount_minor req) = None →
  hoare (λ t, sess L S t0 t ∧ (0 < fuel)%nat ∧ deadline - now_ms t ≤ REFUSAL_POLL * (Z.of_nat fuel - 1))
    (hold_loop spec req fuel deadline facts tid)
    (λ o t, ∃ e, o = Some e ∧ ends L S facts t0 e t).
Proof.
  intros Hp. revert t0. induction fuel as [|fuel IH]; intros t0 t (Ht & Hf & Hd); [lia|]. clear Hf.
  cbn [hold_loop]. unfold mbind at 1, M_bind at 1, gets.
  destruct (Z.max 0 (deadline - now_ms t) =? 0) eqn:Hr; [by apply some_end; [apply hoare_ends_roll_back|]|].
  apply Z.eqb_neq in Hr.
  set (ms := Z.min (Z.max 0 (deadline - now_ms t)) REFUSAL_POLL).
  assert (0 ≤ ms) as Hms by (unfold ms, REFUSAL_POLL; lia).
  assert (sess L S (now_ms t) t) as Ht1 by (by destruct Ht).
  destruct (hoare_recv ms L S (now_ms t) Hms t Ht1) as (r & t1 & E & Hs1 & Hop).
  assert (sess L S t0 t1) as Hs0 by (destruct Hs1, Ht; by split; [..|lia]).
  unfold mbind at 1, M_bind at 1. rewrite E. destruct r as [op| |].
  - destruct Hop as [at_ms Hin]. apply some_end; [by eapply hoare_settle_held|done].
  - by apply some_end; [apply hoare_ends_roll_back|].
  - assert (now_ms t + ms ≤ now_ms t1) as Hpass.
    { by apply (recv_timeout_time _ _ _ _ E). }
    destruct (hoare_quiet _ L S t0 authorization_refused_quiet t1 Hs0) as (b & t2 & E2 & Hs2).
    pose proof (authorization_refused_quiet t1) as (_ & _ & Hnow). rewrite E2 in Hnow. simpl in Hnow.
    unfold mbind at 1, M_bind at 1. rewrite E2.
    destruct b; [by apply some_end; [apply hoare_ends_roll_back|]|].
    apply IH. split; [done|]. unfold ms, REFUSAL_POLL in *. lia.
Qed.

Lemma hoare_hold at_ms facts tid L S t0 :
  authorisation_problem facts (pr_amount_minor req) = None →
  hoare (λ t, sess L S t0 t ∧ now_ms t = at_ms) (hold spec req at_ms facts tid) (ends L S facts t0).
Proof.
  intros Hp t [Ht Hn]. unfold hold.
  destruct (hoare_hold_loop (hold_fuel req) (at_ms + pr_deadline req) facts tid L S t0 Hp t)
    as (o & t' & E & e & -> & He).
  - split; [done|]. unfold hold_fuel, REFUSAL_POLL. split; [lia|]. rewrite Hn.
    pose proof (Z.mod_pos_bound (pr_deadline req) 500 ltac:(lia)). pose proof (Z.div_mod (pr_deadline req) 500).
    lia.
  - exists e, t'. unfold mbind, M_bind. by rewrite E.
Qed.

Lemma hoare_after_transaction facts tid L S t0 :
  hoare (sess L S t0) (after_transaction spec req facts tid) (ends L S facts t0).
Proof.
  intros t Ht. unfold after_transaction, mbind at 1, M_bind at 1, gets.
  destruct (authorisation_problem facts _) as [problem|] eqn:Hp; [by apply hoare_ends_roll_back|].
  destruct (hoare_quiet _ L S t0 (authorized_quiet facts tid) t Ht) as (o & t1 & E & Hs1).
  pose proof (authorized_quiet facts tid t) as (_ & _ & Hnow). rewrite E in Hnow.
  unfold mbind at 1, M_bind at 1. rewrite E. destruct o as [why|]; [by apply hoare_ends_roll_back|].
  by apply hoare_hold.
Qed.

(** ** The session around it *)

Definition pays L S t0 (e : PurchaseEnd) (t : Tim) : Prop :=
  ∃ cs, payment spec req L S e cs ∧ sess (L ++ map call cs) S t0 t.

Lemma hoare_transact tid L S t0 :
  identified spec req L →
  hoare (sess (L ++ map call [TTerminalId; TLastTransaction]) S t0) (transact spec req tid) (pays L S t0).
Proof.
  intros Hid. eapply hoare_bind; [apply hoare_ask|]. intros r t [Er Ht].
  rewrite <- app_assoc in Ht. destruct r as [facts|e].
  - destruct (hoare_after_transaction facts tid _ S t0 t Ht) as (en & t' & E & c & Hs & Ht').
    exists en, t'. split; [done|]. exists [TTerminalId; TLastTransaction; TTransaction (pr_kind req) (pr_amount_minor req); c].
    split; [by eapply Pay_authorised|]. by rewrite <- app_assoc in Ht'.
  - eexists _, t. split; [reflexivity|]. eexists. by split; [apply Pay_not_authorised|].
Qed.
Lemma hoare_logged_in L S t0 : hoare (sess L S t0) (logged_in spec req) (pays L S t0).
Proof.
  eapply hoare_bind; [apply hoare_ask|]. intros r t [Er Ht].
  assert (∀ code text, ~ identified spec req L → pays L S t0 (Refused code text) t) as Hno.
  { intros code text Hn. exists [TTerminalId]. by split; [apply Pay_no_terminal|]. }
  destruct r as [tid|e]; [|eexists _, t; split; [reflexivity|]; apply Hno; intros (tid & E & _); congruence].
  destruct (wrong_terminal spec tid) as [expected|] eqn:Hw.
  { eexists _, t. split; [reflexivity|]. apply Hno. intros (tid' & E & Hw'). congruence. }
  assert (identified spec req L) as Hid by (by exists tid).
  revert t Ht Hno. intros t Ht _. revert t Ht.
  eapply (hoare_bind _ _ _ (λ _, sess (L ++ map call [TTerminalId; TLastTransaction]) S t0)).
  { eapply hoare_conseq; [apply hoare_ask|done|]. intros last t [_ Ht]. by rewrite <- app_assoc in Ht. }
  intros last. eapply hoare_bind; [apply hoare_quiet, contact_quiet|].
  intros [[]|] t Ht; [| |by apply hoare_transact];
    (eexists _, t; split; [reflexivity|]; eexists; split; [by apply Pay_not_sent|done]).
Qed.

(** A round of [release] that does not free the terminal waits, or the window
    is over. *)
Lemma release_loop_frees fuel until L S t0 t :
  sess L S t0 t → (0 < fuel)%nat → until - now_ms t ≤ RELEASE_RETRY * (Z.of_nat fuel - 1) →
  ∃ n t', release_loop spec req fuel until t = (Ok tt, t') ∧
    sess (L ++ map call (repeat TRollback n)) S t0 t' ∧ freed spec req (until ≤ now_ms t') L n.
Proof.
  revert L t. induction fuel as [|fuel IH]; intros L t Ht Hf Hd; [lia|]. clear Hf. cbn [release_loop].
  assert (sess L S (now_ms t) t) as Htn by (by destruct Ht).
  destruct (hoare_ask tim_unit L S (now_ms t) (call TRollback) t Htn) as (r & t1 & E & Er & Ht1).
  assert (sess (L ++ [call TRollback]) S t0 t1) as Hs1 by (destruct Ht1, Ht; by split; [..|lia]).
  pose proof (se_time _ _ _ _ Ht1) as Hle. unfold mbind at 1, M_bind at 1. rewrite E.
  destruct (match r with Ok _ => _ | Err _ => _ end) eqn:Ha.
  { exists 1%nat, t1. split; [done|]. split; [done|]. exists 0%nat. split; [done|]. split; [lia|]. left.
    unfold frees. by rewrite app_nil_r, <- Er. }
  unfold mbind at 1, M_bind at 1, gets. destruct (Z.eqb_spec (Z.max 0 (until - now_ms t1)) 0) as [Hz|Hz].
  { exists 1%nat, t1. split; [done|]. split; [done|]. exists 0%nat. split; [done|]. split; [lia|]. right. lia. }
  destruct (hoare_pass (Z.min (Z.max 0 (until - now_ms t1)) RELEASE_RETRY) (L ++ [call TRollback]) S t0
    ltac:(unfold RELEASE_RETRY; lia) t1 Hs1) as ([] & t2 & E2 & Hs2).
  assert (now_ms t1 + Z.min (Z.max 0 (until - now_ms t1)) RELEASE_RETRY ≤ now_ms t2) as Hp.
  { unfold pass in E2. simplify_eq. simpl. pose proof (lag_nonneg (steps t1)). lia. }
  unfold mbind, M_bind. rewrite E2.
  assert (∀ n, (L ++ [call TRollback]) ++ map call (repeat TRollback n) = L ++ map call (repeat TRollback (Datatypes.S n)))
    as Happ by (intros n; by rewrite <- app_assoc).
  destruct fuel as [|fuel]; [unfold RELEASE_RETRY in *; lia|].
  destruct (IH (L ++ [call TRollback]) t2 Hs2) as (n & t' & E' & Hs' & Hfr); [lia|unfold RELEASE_RETRY in *; lia|].
  exists (Datatypes.S n), t'. rewrite <- Happ. split; [done|]. split; [done|].
  destruct Hfr as (k & -> & Hbefore & Hk). exists (Datatypes.S k). split; [done|].
  assert (∀ i, frees spec req L (Datatypes.S i) = frees spec req (L ++ [call TRollback]) i) as Hi
    by (intros i; unfold frees; by rewrite Happ).
  split; [|by rewrite Hi]. intros [|i] Hlt; [|rewrite Hi; apply Hbefore; lia].
  unfold frees. by rewrite app_nil_r, <- Er.
Qed.
Lemma release_frees L S t0 t :
  sess L S t0 t →
  ∃ n t', release spec req t = (Ok tt, t') ∧ sess (L ++ map call (repeat TRollback n)) S t0 t' ∧
    freed spec req (now_ms t + pr_release_within req ≤ now_ms t') L n.
Proof.
  intros Ht. unfold release, mbind, M_bind, gets.
  destruct (release_loop_frees (release_fuel req) (now_ms t + pr_release_within req) L S t0 t Ht)
    as (n & t' & E & Hs & Hf); [unfold release_fuel; lia| |].
  - unfold release_fuel, RELEASE_RETRY. pose proof (Z.div_mod (pr_release_within req) 2000).
    pose proof (Z.mod_pos_bound (pr_release_within req) 2000). lia.
  - by exists n, t'.
Qed.

(** No call and no time: the end of a session, once it is disconnected. *)
Definition silent (t t' : Tim) : Prop :=
  tim_asked t' = tim_asked t ∧ now_ms t' = now_ms t ∧ call_times t' = call_times t.
#[export] Instance silent_preorder : PreOrder silent.
Proof. split; [done|]. intros a b c (A1 & B1 & C1) (A2 & B2 & C2). split_and!; congruence. Qed.
Lemma modify_silent f : (∀ t, silent t (f t)) → respects silent (modify f : TM unit).
Proof. intros Hf t. apply Hf. Qed.
Lemma wind_up_silent ended :
  respects silent (_ ← released req; _ ← answer_late ended; mret ended : TM PurchaseEnd).
Proof.
  unfold answer_late, released. solve_respects; by apply modify_silent.
Qed.

(** A run from [t] to [t'] asked [cs], at [times]. *)
Definition asks (t t' : Tim) (cs : list TimCall) (times : list Z) : Prop :=
  tim_asked t' = tim_asked t ++ map call cs ∧ call_times t' = call_times t ++ times ∧
  length times = length cs ∧ now_ms t ≤ now_ms t' ∧ Forall (λ x, now_ms t ≤ x ≤ now_ms t') times.

Lemma asks_app t1 t2 t3 cs1 ts1 cs2 ts2 :
  asks t1 t2 cs1 ts1 → asks t2 t3 cs2 ts2 → asks t1 t3 (cs1 ++ cs2) (ts1 ++ ts2).
Proof.
  intros (A1 & B1 & C1 & N1 & F1) (A2 & B2 & C2 & N2 & F2). unfold asks.
  rewrite A2, A1, B2, B1, map_app, !app_assoc, !length_app. split_and!; [done|done|lia|lia|].
  apply Forall_app. split; [eapply Forall_impl; [exact F1|]|eapply Forall_impl; [exact F2|]]; simpl; lia.
Qed.
Lemma ask_asks {A} (answer : list Asked → Asked → A) c t :
  let t' := snd (ask answer (call c) t) in asks t t' [c] [now_ms t].
Proof.
  cbv zeta. pose proof (lag_nonneg (steps t)). unfold asks. simpl. split_and!; [done..|lia|].
  constructor; [lia|done].
Qed.
Lemma timed_asks t t' L cs :
  timed t t' → tim_asked t = L → tim_asked t' = L ++ map call cs → ∃ times, asks t t' cs times.
Proof.
  intros (N & l & ts & A & B & C & F) <- E. rewrite A in E. apply app_inv_head in E as ->.
  exists ts. rewrite length_map in C. by split_and!.
Qed.

(** The end of a session that has connected. *)
Lemma session_ends ended t :
  ∃ t' times, (_ ← ask tim_unit (call TDisconnect); _ ← released req; _ ← answer_late ended; mret ended) t
      = (Ok ended, t') ∧ asks t t' [TDisconnect] times.
Proof.
  pose proof (ask_asks tim_unit TDisconnect t) as Ha. cbv zeta in Ha.
  destruct (ask tim_unit (call TDisconnect) t) as [[d|[]] t1] eqn:E1. simpl in Ha.
  unfold mbind at 1, M_bind at 1. rewrite E1.
  pose proof (wind_up_silent ended t1) as Hw.
  destruct ((_ ← released req; _ ← answer_late ended; mret ended) t1) as [r t'] eqn:Ew.
  assert (r = Ok ended) as ->.
  { unfold mbind, M_bind, mret, M_ret in Ew. destruct (released req t1) as [[[]|[]] t5].
    by destruct (answer_late ended t5) as [[[]|[]] t6]; simplify_eq. }
  exists t', [now_ms t]. split; [done|]. destruct Hw as (Hl & Hn & Hc). simpl in *.
  destruct Ha as (A & B & C & N & F). unfold asks. rewrite Hl, Hc, Hn. by split_and!.
Qed.

(** The logout after a release that left by its window. *)
Lemma release_in_time t0 t3 t4 cs n times rest :
  pr_release_within req = 1000 * ts_commit_timeout_s spec →
  asks t0 t3 cs times → (0 < length cs)%nat → length rest = n →
  now_ms t3 + pr_release_within req ≤ now_ms t4 →
  ∀ after, timeout_over spec (times ++ rest ++ now_ms t4 :: after) (length cs - 1) (1 + n).
Proof.
  intros Hw (_ & _ & Hlen & _ & HF) Hcs Hn Ht after.
  destruct (lookup_lt_is_Some_2 times (length cs - 1)) as [sent Hs]; [lia|].
  exists sent, (now_ms t4). split; [rewrite lookup_app_l by lia; done|]. split.
  - rewrite lookup_app_r by lia. replace (length cs - 1 + (1 + n) - length times)%nat with (length rest) by lia.
    by apply list_lookup_middle.
  - rewrite Forall_forall in HF. apply list_elem_of_lookup_2, HF in Hs. lia.
Qed.

(** A run that makes the one deciding call: a commit only when a [card.commit]
    among [S] had come before it. *)
Definition decided (S : list (Z * SettleOp)) (t t' : Tim) : Prop :=
  ∃ c sent, asks t t' [c] [sent] ∧
    (c = TRollback ∨ c = TCommit ∧ ∃ at_ms, In (at_ms, Commit) S ∧ at_ms ≤ sent).

Lemma no_call_asks t t' :
  tim_asked t' = tim_asked t → call_times t' = call_times t → now_ms t ≤ now_ms t' → asks t t' [] [].
Proof. intros A B C. unfold asks. rewrite A, B, !app_nil_r. by split_and!. Qed.
Lemma decided_later S t t1 t' : asks t t1 [] [] → decided S t1 t' → decided S t t'.
Proof. intros A (c & sent & A' & Hc). exists c, sent. split; [exact (asks_app _ _ _ _ _ _ _ A A')|done]. Qed.
Lemma decided_then S t t1 t' : decided S t t1 → silent t1 t' → decided S t t'.
Proof.
  intros (c & sent & A & Hc) (A' & B' & C'). exists c, sent. split; [|done].
  exact (asks_app _ _ _ _ _ _ _ A (no_call_asks t1 t' A' C' ltac:(lia))).
Qed.
Lemma roll_back_decides S why t e t' : roll_back spec req why t = (Ok e, t') → decided S t t'.
Proof.
  pose proof (ask_asks tim_unit TRollback t) as A. cbv zeta in A. unfold roll_back, mbind, M_bind.
  destruct (ask _ _ t) as [[r|[]] t1]. intros [= _ <-]. exists TRollback, (now_ms t). auto.
Qed.
Lemma settle_held_decides S op at_ms facts tid t e t' :
  In (at_ms, op) S → at_ms ≤ now_ms t →
  settle_held spec req op facts tid t = (Ok e, t') → decided S t t'.
Proof.
  intros Hin Hat E. unfold settle_held in E. apply bind_ok in E as (e1 & t1 & E1 & E2).
  apply bind_ok in E2 as (u & t2 & E2 & E3). injection E2 as _ <-. injection E3 as _ <-.
  apply (decided_then _ _ t1); [|done]. destruct op; [|by eapply roll_back_decides].
  unfold commit in E1. apply bind_ok in E1 as (r & t2 & E1 & E2).
  pose proof (ask_asks tim_unit TCommit t) as A. cbv zeta in A. rewrite E1 in A.
  assert (t1 = t2) as -> by (destruct r; [|case_match]; by injection E2). exists TCommit, (now_ms t). eauto 6.
Qed.

Lemma recv_timeout_asks ms t r t' :
  0 ≤ ms → recv_timeout ms t = (Ok r, t') →
  asks t t' [] [] ∧ incl (requests (settle_channel t')) (requests (settle_channel t)) ∧
  ∀ op, r = RRequest op → ∃ at_ms, In (at_ms, op) (requests (settle_channel t)) ∧ at_ms ≤ now_ms t'.
Proof.
  intros Hms E. pose proof (lag_nonneg (steps t)) as Hlag.
  unfold recv_timeout, mbind, M_bind, gets, pass, modify, mret, M_ret in E. simpl in E.
  destruct (requests (settle_channel t)) as [|[at_ms op] later] eqn:Er;
    repeat case_match; simplify_eq; (split; [apply no_call_asks; simpl; [done..|lia]|]); simpl; rewrite ?Er;
    (split; [try apply incl_refl; try (apply incl_tl, incl_refl)|]); intros op' E'; simplify_eq.
  exists at_ms. split; [by left|lia].
Qed.

Lemma hold_loop_decides fuel deadline facts tid S t e t' :
  incl (requests (settle_channel t)) S →
  hold_loop spec req fuel deadline facts tid t = (Ok (Some e), t') → decided S t t'.
Proof.
  revert t. induction fuel as [|fuel IH]; intros t Hin E; [done|]. cbn [hold_loop] in E.
  assert (∀ why t1, (e ← roll_back spec req why; mret (Some e)) t1 = (Ok (Some e), t') → decided S t1 t') as Hback.
  { intros why t1 (e1 & t2 & E1 & E2)%bind_ok. injection E2 as _ <-. by eapply roll_back_decides. }
  unfold mbind at 1, M_bind at 1, gets in E. case_match; [by eapply Hback|].
  apply bind_ok in E as (r & t1 & E1 & E2).
  apply recv_timeout_asks in E1 as (A & Hin1 & Hreq); [|unfold REFUSAL_POLL; lia].
  apply (decided_later _ _ _ _ A). destruct r as [op| |]; [|by eapply Hback|].
  - apply bind_ok in E2 as (e1 & t2 & E2 & E3). injection E3 as _ <-.
    destruct (Hreq op eq_refl) as (at_ms & Hat & Hle). eapply settle_held_decides; [by apply Hin|exact Hle|exact E2].
  - apply bind_ok in E2 as (b & t2 & E2 & E3).
    pose proof (authorization_refused_quiet t1) as (B & C & D). rewrite E2 in B, C, D. simpl in B, C, D.
    assert (call_times t2 = call_times t1) as F.
    { unfold authorization_refused in E2. apply bind_ok in E2 as (x & t3 & E2 & E4). injection E4 as _ <-.
      pose proof (journaled_times (card_payment (pr_job_id req)) t1) as F. by rewrite E2 in F. }
    apply (decided_later _ _ t2); [apply no_call_asks; [done..|lia]|].
    destruct b; [by eapply Hback|]. apply IH; [|done]. rewrite C. by eapply incl_tran.
Qed.

Lemma after_transaction_decides facts tid t :
  ∃ e t', after_transaction spec req facts tid t = (Ok e, t') ∧
    decided (requests (settle_channel t)) t t' ∧
    (authorisation_problem facts (pr_amount_minor req) ≠ None → tim_asked t' = tim_asked t ++ [call TRollback]).
Proof.
  set (S := requests (settle_channel t)).
  destruct (hoare_after_transaction facts tid (tim_asked t) S (now_ms t) t) as (e & t' & E & _).
  { split; [done|apply incl_refl|lia]. }
  exists e, t'. split; [done|]. unfold after_transaction in E. apply bind_ok in E as (now & t0 & E0 & E).
  injection E0 as <- <-. destruct (authorisation_problem facts _) as [problem|] eqn:Hp.
  { split; [by eapply roll_back_decides|]. intros _.
    unfold roll_back in E. apply bind_ok in E as (r & t1 & E & E1). injection E as _ <-. by injection E1 as _ <-. }
  split; [|done]. apply bind_ok in E as (o & t1 & E1 & E).
  pose proof (authorized_quiet facts tid t) as (B & C & D). rewrite E1 in B, C, D. simpl in B, C, D.
  assert (call_times t1 = call_times t) as F.
  { pose proof (authorized_times facts tid t) as F. by rewrite E1 in F. }
  apply (decided_later _ _ t1); [apply no_call_asks; [done..|lia]|].
  destruct o as [why|]; [by eapply roll_back_decides|].
  unfold hold in E. apply bind_ok in E as (o & t2 & E2 & E3). injection E3 as _ <-.
  destruct o as [e2|]; [eapply hold_loop_decides; [rewrite C; apply incl_refl|exact E2]|].
  assert (sess (tim_asked t1) S (now_ms t1) t1) as Hs by (split; [done|rewrite C; apply incl_refl|lia]).
  destruct (hoare_hold (now_ms t) facts tid (tim_asked t1) S (now_ms t1) Hp t1 (conj Hs D)) as (e3 & t3 & E3 & _).
  exfalso. destruct (hoare_hold_loop (hold_fuel req) (now_ms t + pr_deadline req) facts tid (tim_asked t1) S
    (now_ms t1) Hp t1) as (o & t4 & E4 & e4 & -> & _); [|by rewrite E2 in E4].
  split; [done|]. unfold hold_fuel, REFUSAL_POLL. split; [lia|]. rewrite D.
  pose proof (Z.mod_pos_bound (pr_deadline req) 500 ltac:(lia)). pose proof (Z.div_mod (pr_deadline req) 500). lia.
Qed.

(** A session asks what [purchase_session] says, whatever the terminal answers. *)
Lemma run_purchase_session L S t :
  pr_release_within req = 1000 * ts_commit_timeout_s spec →
  sess L S (now_ms t) t →
  ∃ ended cs t' times, run_purchase spec req t = (Ok ended, t') ∧ asks t t' cs times ∧
    purchase_session spec req times L S ended cs.
Proof.
  intros Hwin Ht. pose proof (se_log _ _ _ _ Ht) as HL. unfold run_purchase. destruct (tim_terminal spec) as [[]|e].
  2: { eexists _, [], t, []. split; [reflexivity|]. split; [|constructor].
       unfold asks. rewrite !app_nil_r. split_and!; [done..|lia|done]. }
  destruct (hoare_ask tim_unit L S (now_ms t) (call TConnect) t Ht) as (c & t1 & E1 & Ec & Ht1).
  pose proof (ask_asks tim_unit TConnect t) as A1. cbv zeta in A1. rewrite E1 in A1. simpl in A1.
  unfold mbind at 1, M_bind at 1. rewrite E1. destruct c as [[]|e].
  2: { eexists _, [TConnect], t1, _. split; [reflexivity|]. split; [exact A1|by constructor]. }
  destruct (hoare_ask tim_unit _ S (now_ms t) (call TLogin) t1 Ht1) as (l & t2 & E2 & El & Ht2).
  pose proof (ask_asks tim_unit TLogin t1) as A2. cbv zeta in A2. rewrite E2 in A2. simpl in A2.
  pose proof (asks_app _ _ _ _ _ _ _ A1 A2) as A12. simpl in A12.
  unfold mbind at 1, M_bind at 1. rewrite E2. rewrite <- app_assoc in Ht2. destruct l as [[]|e].
  2: { destruct (session_ends (refused CODE_TERMINAL_ERROR "TIM login" e) t2) as (t' & ts & E & A).
       eexists _, _, t', _. split; [exact E|]. split; [exact (asks_app _ _ _ _ _ _ _ A12 A)|]. by constructor. }
  destruct (hoare_logged_in (L ++ map call [TConnect; TLogin]) S (now_ms t) t2 Ht2)
    as (ended & t3 & E3 & cs & Hpay & Ht3).
  pose proof (logged_in_timed spec req t2) as A3. rewrite E3 in A3. simpl in A3.
  eapply timed_asks in A3 as (ts3 & A3); [|apply Ht2|apply Ht3].
  pose proof (asks_app _ _ _ _ _ _ _ A12 A3) as A13. simpl in A13.
  assert (∃ n t4 ts4, (if is_unknown ended then release spec req else mret tt) t3 = (Ok tt, t4) ∧
    asks t3 t4 (repeat TRollback n) ts4 ∧
    (if is_unknown ended
     then freed spec req (now_ms t3 + pr_release_within req ≤ now_ms t4) (L ++ map call ([TConnect; TLogin] ++ cs)) n
     else n = 0%nat)) as (n & t4 & ts4 & E4 & A4 & Hfr).
  { rewrite <- app_assoc, <- map_app in Ht3. destruct (is_unknown ended).
    - destruct (release_frees _ S (now_ms t) t3 Ht3) as (n & t4 & E & Hs & Hf). exists n, t4.
      pose proof (release_timed spec req t3) as A4. rewrite E in A4. simpl in A4.
      eapply timed_asks in A4 as (ts4 & A4); [|apply Ht3|apply Hs]. by exists ts4.
    - exists 0%nat, t3, []. split; [done|]. split; [|done]. unfold asks. rewrite !app_nil_r.
      split_and!; [done..|lia|done]. }
  pose proof (ask_asks tim_unit TLogout t4) as A5. cbv zeta in A5.
  destruct (ask tim_unit (call TLogout) t4) as [[o|[]] t5] eqn:E5. simpl in A5.
  destruct (session_ends ended t5) as (t' & ts6 & E6 & A6).
  pose proof (asks_app _ _ _ _ _ _ _ (asks_app _ _ _ _ _ _ _ A13 A4) (asks_app _ _ _ _ _ _ _ A5 A6)) as A.
  exists ended, ([TConnect; TLogin] ++ cs ++ repeat TRollback n ++ [TLogout; TDisconnect]), t'. eexists. split; [|split].
  - unfold mbind, M_bind in *. rewrite E3, E4, E5. exact E6.
  - replace ([TConnect; TLogin] ++ cs ++ repeat TRollback n ++ [TLogout; TDisconnect])
      with (((TConnect :: TLogin :: cs) ++ repeat TRollback n) ++ [TLogout] ++ [TDisconnect])
      by (by rewrite <- !app_assoc). exact A.
  - constructor; [done|]. destruct (is_unknown ended); [|done].
    destruct Hfr as (k & Hk & Hb & Hf). exists k. split; [done|]. split; [done|].
    destruct Hf as [?|Hf]; [by left|right].
    pose proof (release_in_time t t3 t4 (TConnect :: TLogin :: cs) n _ ts4 Hwin A13 ltac:(simpl; lia)
      ltac:(destruct A4 as (_ & _ & C & _); by rewrite repeat_length in C) Hf ts6) as Ho.
    simpl in Ho |- *. by rewrite <- !app_assoc.
Qed.
End held.

(** ** The terminal's books

    What a terminal holds for a payment, as its answers tell: an authorisation
    waits for a commit or a rollback, a commit takes the money, the commit
    timeout reverses an authorisation nobody committed. *)

Inductive Books := NothingTaken | AuthorisedFor (amount : option Z) | Taken (amount : option Z) | InDoubt.
Definition account (L : list Asked) (b : Books) (a : Asked) : Books :=
  match a_call a with
  | TTransaction _ _ =>
    match tim_facts L a with
    | Ok facts => AuthorisedFor (tx_amount_minor facts)
    | Err e => match classify_transaction_error (te_code e) with NothingCharged _ => b | UnknownOutcome => InDoubt end
    end
  | TCommit =>
    match tim_unit L a, b with
    | Ok _, AuthorisedFor amount => Taken amount
    | Err e, AuthorisedFor _ => if te_code e =? RC_COMMIT_TIMEOUT then NothingTaken else InDoubt
    | _, _ => InDoubt
    end
  | TRollback =>
    match tim_unit L a, b with
    | Ok _, AuthorisedFor _ => NothingTaken
    | Ok _, _ => b
    | Err _, _ => InDoubt
    end
  | _ => b
  end.
Fixpoint books (L : list Asked) (b : Books) (l : list Asked) : Books :=
  match l with [] => b | a :: l' => books (L ++ [a]) (account L b a) l' end.
Definition books_agree (amount : Z) (ended : PurchaseEnd) (b : Books) : Prop :=
  match ended with
  | Committed _ _ => b = Taken (Some amount)
  | Refused _ _ | RolledBack _ => b = NothingTaken
  | Unknown _ => True
  end.

Lemma books_app L b l l' : books L b (l ++ l') = books (L ++ l) (books L b l) l'.
Proof.
  revert L b. induction l as [|a l IH]; intros L b; simpl; [by rewrite app_nil_r|].
  by rewrite IH, <- app_assoc.
Qed.
Lemma settled_books spec req L S facts ended c :
  settled spec req L S facts ended c →
  books_agree (pr_amount_minor req) ended (account L (AuthorisedFor (tx_amount_minor facts)) (mine spec req c)).
Proof.
  destruct 1 as [why E|why e E|tid at_ms Hin Hp E|why e at_ms Hin E Hc|why e at_ms Hin E Hc];
    unfold account; simpl; rewrite ?E; [done|done| |by rewrite Hc|done].
  unfold authorisation_problem in Hp. destruct (is_none _); [done|]. destruct (negb _) eqn:Ha; [done|].
  apply negb_false_iff, bool_decide_eq_true in Ha. by rewrite Ha.
Qed.
Lemma payment_books spec req L S ended cs :
  payment spec req L S ended cs →
  books_agree (pr_amount_minor req) ended (books L NothingTaken (map (mine spec req) cs)).
Proof.
  destruct 1 as [code text Hid|ended Hid Hn1 Hn2|e Hid E|facts ended c Hid E Hs]; simpl.
  - done.
  - destruct ended as [| | |]; [done|by destruct (Hn1 facts tid)|by destruct (Hn2 why)|done].
  - unfold failed_transaction, account. simpl in *. rewrite <- app_assoc. simpl. rewrite E.
    by destruct (classify_transaction_error _).
  - rewrite <- !app_assoc. simpl in *. unfold account at 2. simpl. rewrite E. by apply (settled_books spec req _ S).
Qed.
Lemma session_books spec req passed L S ended cs :
  purchase_session spec req passed L S ended cs →
  books_agree (pr_amount_minor req) ended (books L NothingTaken (map (mine spec req) cs)).
Proof.
  destruct 1 as [e|e E|e E|ended cs n Hp Hf]; [reflexivity..|].
  destruct (is_unknown ended) eqn:Hu; [by destruct ended|]. subst n.
  apply payment_books in Hp. rewrite app_nil_l, !map_app, !books_app. exact Hp.
Qed.

(** ** How long an authorisation is held *)

Section in_time.
Variable most : Z.
Hypothesis lag_most : ∀ n, lag n ≤ most.

Lemma ask_in_time {A} (answer : list Asked → Asked → A) a t : now_ms (snd (ask answer a t)) ≤ now_ms t + most.
Proof. simpl. pose proof (lag_most (steps t)). lia. Qed.
Lemma roll_back_in_time spec req why t : now_ms (snd (roll_back spec req why t)) ≤ now_ms t + most.
Proof. apply (ask_in_time tim_unit (mine spec req TRollback)). Qed.
Lemma commit_in_time spec req facts tid t : now_ms (snd (commit spec req facts tid t)) ≤ now_ms t + most.
Proof. apply (ask_in_time tim_unit (mine spec req TCommit)). Qed.

(** Every round starts no later than a lag after the deadline. *)
Lemma hold_loop_in_time spec req fuel deadline facts tid t :
  now_ms t ≤ deadline + most → now_ms (snd (hold_loop spec req fuel deadline facts tid t)) ≤ deadline + 2 * most.
Proof.
  assert (0 ≤ most) as Hm by (pose proof (lag_nonneg 0); pose proof (lag_most 0); lia).
  revert t. induction fuel as [|fuel IH]; intros t Ht; [simpl; lia|]. cbn [hold_loop].
  assert (∀ why t1, now_ms t1 ≤ deadline + most →
    now_ms (snd ((e ← roll_back spec req why; mret (Some e)) t1)) ≤ deadline + 2 * most) as Hback.
  { intros why t1 Hl. pose proof (roll_back_in_time spec req why t1). unfold mbind, M_bind.
    destruct (never_fails (roll_back spec req why) t1) as (e & t2 & E). rewrite E in *. simpl in *. lia. }
  unfold mbind at 1, M_bind at 1, gets. destruct (Z.max 0 (deadline - now_ms t) =? 0) eqn:Hr; [by apply Hback|].
  apply Z.eqb_neq in Hr.
  destruct (never_fails (recv_timeout (Z.min (Z.max 0 (deadline - now_ms t)) REFUSAL_POLL)) t) as (r & t1 & E).
  unfold mbind at 1, M_bind at 1. rewrite E. apply recv_timeout_time in E as [_ E].
  specialize (E most Hm). unfold REFUSAL_POLL in E. assert (now_ms t1 ≤ deadline + most) as Hl.
  { assert (now_ms t1 ≤ now_ms t + Z.min (Z.max 0 (deadline - now_ms t)) 500 + most) by (apply E; [lia|done]). lia. }
  destruct r as [op| |]; [|by apply Hback|].
  - unfold settle_held, mbind, M_bind. destruct op.
    + pose proof (commit_in_time spec req facts tid t1) as Hc.
      destruct (never_fails (commit spec req facts tid) t1) as (e & t2 & E2). rewrite E2 in *. simpl in *. lia.
    + pose proof (roll_back_in_time spec req "card.rollback" t1) as Hc.
      destruct (never_fails (roll_back spec req "card.rollback") t1) as (e & t2 & E2). rewrite E2 in *. simpl in *. lia.
  - destruct (never_fails (authorization_refused req) t1) as (b & t2 & E2).
    pose proof (authorization_refused_quiet req t1) as (_ & _ & Hnow). rewrite E2 in Hnow. simpl in Hnow.
    unfold mbind at 1, M_bind at 1. rewrite E2. destruct b; [apply Hback; lia|apply IH; lia].
Qed.

(** After the terminal's answer: from the authorisation to its decision. *)
Lemma after_transaction_in_time spec req facts tid t :
  0 ≤ pr_deadline req →
  now_ms (snd (after_transaction spec req facts tid t)) ≤ now_ms t + pr_deadline req + 2 * most.
Proof.
  intros Hd. assert (0 ≤ most) as Hm by (pose proof (lag_nonneg 0); pose proof (lag_most 0); lia).
  unfold after_transaction, mbind at 1, M_bind at 1, gets.
  destruct (authorisation_problem _ _) as [problem|].
  { pose proof (roll_back_in_time spec req ("rolled back at once: " +:+ problem) t). lia. }
  destruct (never_fails (authorized spec req facts tid) t) as (o & t1 & E).
  pose proof (authorized_quiet spec req facts tid t) as (_ & _ & Hn). rewrite E in Hn. simpl in Hn.
  unfold mbind at 1, M_bind at 1. rewrite E. destruct o as [why|].
  { pose proof (roll_back_in_time spec req ("rolled back at once: the journal failed (" +:+ why +:+ ")") t1). lia. }
  pose proof (hold_loop_in_time spec req (hold_fuel req) (now_ms t + pr_deadline req) facts tid t1 ltac:(lia)) as Hh.
  unfold hold, mbind, M_bind. destruct (hold_loop _ _ _ _ _ _ t1) as [[o|[]] t2]. exact Hh.
Qed.
End in_time.

(** ** A payment of the executor *)

Section job.
Context `{!Rfc3339} `{SlipPrinter}.
Variable config : TimConfig.

Definition payment_request (job : DeviceJob) (kind : TwoPhase) (spec : TerminalSpec) (amount : Z)
    (stored : option Z) : PurchaseRequest :=
  {| pr_job_id := dj_id job; pr_kind := kind; pr_amount_minor := amount;
     pr_deadline := rollback_deadline_ms config; pr_stored_max_seq := stored;
     pr_release_within := 1000 * ts_commit_timeout_s spec; pr_has_printer := has_printer config |}.
(** What a payment's outcome says of its end. *)
Definition outcome_of (ended : PurchaseEnd) (o : Outcome) : Prop :=
  match ended with
  | Refused code text => o = OFailed code text
  | Committed facts tid => o = Done (card_result "committed" tid facts)
  | RolledBack why => o = OFailed CODE_ROLLED_BACK why
  | Unknown why => o = Indeterminate why
  end.

Lemma end_outcome_says job ended t :
  ∃ o t', end_outcome job ended t = (Ok o, t') ∧ outcome_of ended o ∧ silent t t'.
Proof.
  destruct ended as [code text|facts tid|why|why]; [by eexists _, t..|].
  destruct (never_fails (journaled (card_ended (dj_id job))) t) as (r & t' & E).
  pose proof (journaled_quiet (card_ended (dj_id job)) t) as (Hl & _ & Hn).
  pose proof (journaled_times (card_ended (dj_id job)) t) as Hc. rewrite E in Hl, Hn, Hc.
  eexists _, t'. unfold end_outcome, mbind, M_bind. rewrite E. by split.
Qed.

(** A run of the library that is not loaded, or the work after the gap. *)
Lemma on_terminal_run {A} spec (work : TM A) t :
  if library_loaded config then
    ∃ a t1 t2 t3, tim_asked t1 = tim_asked t ∧ settle_channel t1 = settle_channel t ∧ work t1 = (Ok a, t2)
      ∧ on_terminal config spec work t = (Ok (Some a), t3) ∧ silent t2 t3 ∧ journal t3 = journal t2
      ∧ journal t1 = meanwhile (steps t) (journal t) ∧ call_times t1 = call_times t
  else on_terminal config spec work t = (Ok None, t).
Proof.
  unfold on_terminal. destruct (library_loaded config); [|done]. simpl negb. cbv iota.
  unfold mbind, M_bind, gets. simpl. set (t1 := mkTim _ _ _ _ _ _ _ _ _ _ _ _).
  destruct (never_fails work t1) as (a & t2 & E). rewrite E. eexists a, t1, t2, _. by split_and!.
Qed.
Lemma stored_seq_quiet ip : respects quiet_step (stored_seq ip).
Proof. unfold stored_seq. solve_respects. Qed.

Lemma stored_seq_times ip t : call_times (snd (stored_seq ip t)) = call_times t.
Proof.
  unfold stored_seq, mbind, M_bind. pose proof (journaled_times (card_last_seq ip) t) as Hc.
  by destruct (journaled _ t) as [[r|[]] t1].
Qed.

(** A payment job asks nothing, or runs one session of its terminal. *)
Lemma two_phase_session job kind channel t :
  ∃ o t', two_phase config job kind channel t = (Ok o, t') ∧
    ((∃ code text, o = OFailed code text) ∧ tim_asked t' = tim_asked t
     ∨ ∃ spec amount stored ended cs times,
         let req := payment_request job kind spec amount stored in
         job_spec config job = Some spec ∧ amount_minor job = Some amount ∧ outcome_of ended o
         ∧ tim_asked t' = tim_asked t ++ map (mine spec req) cs
         ∧ call_times t' = call_times t ++ times ∧ length times = length cs
         ∧ purchase_session spec req times (tim_asked t) (requests channel) ended cs).
Proof.
  unfold two_phase. destruct (job_spec config job) as [spec|] eqn:Hspec, (amount_minor job) as [amount|] eqn:Ham;
    [|(eexists _, t; split; [reflexivity|]; left; eauto)..].
  destruct (never_fails (stored_seq (ts_ip spec)) t) as (stored & t1 & E1).
  pose proof (stored_seq_quiet (ts_ip spec) t) as (Hl1 & _ & _). rewrite E1 in Hl1.
  pose proof (stored_seq_times (ts_ip spec) t) as Hc1. rewrite E1 in Hc1.
  set (t2 := snd (open_channel (dj_id job) channel t1)).
  set (req := payment_request job kind spec amount stored).
  pose proof (on_terminal_run spec (run_purchase spec req) t2) as Hrun.
  assert (∀ ended t3, ∃ o t', (_ ← set_state (ts_ip spec) (state_after ended); end_outcome job ended) t3 = (Ok o, t')
    ∧ outcome_of ended o ∧ tim_asked t' = tim_asked t3 ∧ call_times t' = call_times t3) as Hend.
  { intros ended t3. destruct (end_outcome_says job ended (snd (set_state (ts_ip spec) (state_after ended) t3)))
      as (o & t' & E & Ho & Hl & _ & Hc). by exists o, t'. }
  unfold mbind in Hend |- *. unfold M_bind in Hend |- *. rewrite E1.
  change (open_channel (dj_id job) channel t1) with (@Ok Empty_set _ tt, t2). cbv beta iota zeta.
  destruct (library_loaded config).
  - destruct Hrun as (a & t3 & t4 & t5 & Hl3 & Hc3 & Hw & Hrun & (Hl5 & _ & Hc5) & _ & _ & Hct3). fold req.
    change (mkPurchase (dj_id job) kind amount (rollback_deadline_ms config) stored (1000 * ts_commit_timeout_s spec)
      (has_printer config)) with req. rewrite Hrun. cbv beta iota zeta.
    destruct (run_purchase_session spec req (tim_asked t3) (requests channel) t3)
      as (ended & cs & t4' & times & Hw' & (Hl4 & Hc4 & Hlen & _) & Hs); [done| |].
    { split; [done|rewrite Hc3; apply incl_refl|lia]. }
    rewrite Hw in Hw'. simplify_eq. destruct (Hend ended t5) as (o & t' & E & Ho & Hl & Hc). exists o, t'. split; [done|].
    right. exists spec, amount, stored, ended, cs, times. cbv zeta. split_and!; [done..| | |done|].
    + rewrite Hl, Hl5, Hl4, Hl3. f_equal. exact Hl1.
    + rewrite Hc, Hc5, Hc4, Hct3. f_equal. exact Hc1.
    + rewrite Hl3 in Hs. change (tim_asked t2) with (tim_asked t1) in Hs. simpl in Hl1. rewrite Hl1 in Hs. exact Hs.
  - change (mkPurchase (dj_id job) kind amount (rollback_deadline_ms config) stored (1000 * ts_commit_timeout_s spec)
      (has_printer config)) with req. rewrite Hrun. cbv beta iota zeta.
    destruct (Hend (Refused CODE_TIM_UNAVAILABLE "the TIM library is not loaded - nothing charged") t2)
      as (o & t' & E & Ho & Hl & _). exists o, t'. split; [exact E|]. left. split; [eauto|]. rewrite Hl. exact Hl1.
Qed.
End job.

(** ** A reversal *)

Lemma ask_run {A} (answer : list Asked → Asked → A) a t :
  ∃ t', ask answer a t = (Ok (answer (tim_asked t) a), t') ∧ tim_asked t' = tim_asked t ++ [a]
    ∧ journal t' = meanwhile (steps t) (journal t).
Proof. eexists. split; [reflexivity|]. done. Qed.
Lemma ask_inv {A} (answer : list Asked → Asked → A) a t r t' :
  ask answer a t = (Ok r, t') → r = answer (tim_asked t) a ∧ tim_asked t' = tim_asked t ++ [a].
Proof. destruct (ask_run answer a t) as (t1 & -> & Hl & _). by intros [= <- <-]. Qed.
Lemma journaled_query {A} ctx (q : JTables → A) t r t' :
  journaled (query ctx q) t = (Ok (Ok r), t') → r = q (conn (journal t)).
Proof.
  unfold journaled, attempt, zoom. destruct (query ctx q (journal t)) as [[a|e] j] eqn:E; [|done].
  intros E'. simplify_eq. by apply query_ok in E as [-> _].
Qed.
Lemma refuse_other_reversal_quiet run : respects quiet_step (refuse_other_reversal run).
Proof. unfold refuse_other_reversal. solve_respects. Qed.
Lemma refused_is_no_reversal run t facts tid t' : refuse_other_reversal run t ≠ (Ok (Some (RevDone facts tid)), t').
Proof.
  unfold refuse_other_reversal, mbind, M_bind. destruct (journaled _ t) as [[r|[]] t1].
  destruct r as [[[j []]|]|e]; intros [=].
Qed.
Lemma no_other_reversal run t t' :
  refuse_other_reversal run t = (Ok None, t') →
  List.filter (other_reversal (rr_ip run) (rr_seq run) (rr_job run) (conn (journal t))) (card_payments (conn (journal t))) = [].
Proof.
  unfold refuse_other_reversal, mbind, M_bind.
  destruct (journaled (card_other_reversal _ _ _) t) as [[r|[]] t1] eqn:E.
  destruct r as [[[j []]|]|e]; intros [=]. apply journaled_query in E.
  destruct (order_by_id c_job_id _) as [|c l] eqn:Eo; [|done].
  destruct (List.filter _ (card_payments _)) as [|c l]; [done|].
  assert (In c (order_by_id c_job_id (c :: l))) as Hin by (apply in_order_by_id; by left). by rewrite Eo in Hin.
Qed.
Lemma no_other_reversal_failed ip seq job_id d c job :
  List.filter (other_reversal ip seq job_id d) (card_payments d) = [] →
  In c (card_payments d) → c_terminal_ip c = ip → c_tx_type c = 3 → c_target_seq c = Some seq →
  c_job_id c ≠ job_id → List.find (λ j, o_job_id j =? c_job_id c) (device_jobs d) = Some job →
  p_state (o_progress job) = "failed".
Proof.
  intros Hf Hin Hip Hty Hseq Hjob Hrow.
  assert (other_reversal ip seq job_id d c = false) as Ho.
  { apply not_true_is_false. intros Ho. assert (In c []) as []. rewrite <- Hf. by apply filter_In. }
  unfold other_reversal, joined_state, odoo_by_id in Ho. rewrite Hip, Hty, Hseq, Hrow in Ho.
  rewrite bool_decide_true in Ho by done. rewrite (proj2 (String.eqb_eq ip ip)) in Ho by done.
  rewrite (proj2 (Z.eqb_neq (c_job_id c) job_id)) in Ho by done. simpl in Ho.
  by apply negb_false_iff, String.eqb_eq in Ho.
Qed.

(** A balance of the terminal that ended after the payment with this sequence
    number was sent. *)
Definition balanced_since (ip : string) (seq : Z) (d : JTables) : Prop :=
  ∃ p q b, In p (card_payments d) ∧ c_terminal_ip p = ip ∧ c_trans_seq p = Some seq
    ∧ (c_tx_type p = 1 ∨ c_tx_type p = 2)
    ∧ In q (card_payments d) ∧ c_job_id q = c_job_id p
    ∧ In b (card_balances d) ∧ b_terminal_ip b = c_terminal_ip q ∧ b_outcome b = Some "done"
    ∧ String.leb (c_contact_at q) (b_contact_at b) = true.

Lemma max_z_in l m : max_z l = Some m → In m l.
Proof.
  revert m. induction l as [|x l IH]; intros m; [done|]. simpl.
  destruct (max_z l) as [y|]; intros [= <-]; [|by left].
  destruct (Z.max_spec x y) as [[_ ->]|[_ ->]]; [right; by apply IH|by left].
Qed.

Lemma balance_since_proves ip seq t r t' :
  journaled (card_balance_since_payment ip seq) t = (Ok (Ok r), t') → r = true →
  balanced_since ip seq (conn (journal t')).
Proof.
  unfold journaled, attempt, zoom, card_balance_since_payment.
  match goal with |- context [(_ ← engine ?c; query ?c2 ?q) (journal t)] =>
    destruct ((_ ← engine c; query c2 q) (journal t)) as [[a|e] j] eqn:E; [|done] end.
  intros [= -> <-] ->. cbn [journal set_journal]. apply prepared_query_ok in E as [Hq Hj]. rewrite Hj.
  unfold newest_payment in Hq. destruct (max_z _) as [m|] eqn:Em; [|done].
  apply max_z_in, in_map_iff in Em as (p & <- & [Hp Hs]%filter_In).
  symmetry in Hq. apply existsb_exists in Hq as (q & Hq & [Hjob%Z.eqb_eq Hb]%andb_true_iff).
  apply existsb_exists in Hb as (b & Hb & [[Hip%String.eqb_eq Hd]%andb_true_iff Hle]%andb_true_iff).
  apply andb_true_iff in Hs as [[Hpip%String.eqb_eq Hseq%bool_decide_eq_true]%andb_true_iff Hty].
  exists p, q, b. split_and!; try done.
  - lia.
  - unfold null_eq in Hd. destruct (b_outcome b) as [o|]; [|done]. by apply String.eqb_eq in Hd as ->.
Qed.

(** The terminal's codes of a refusal - nothing was charged or reversed - and
    what the job fails with; any other code leaves the outcome unknown. *)
Definition refusal_of (rc : Z) : option string :=
  if decide (rc = 2 ∨ 53 ≤ rc ≤ 55) then Some "cancelled"
  else if decide (32 ≤ rc ≤ 48 ∨ rc = 74 ∨ rc = 76) then Some "card_error"
  else if decide (rc = 75 ∨ 77 ≤ rc ≤ 88 ∨ 91 ≤ rc ≤ 93 ∨ 97 ≤ rc ≤ 118 ∨ 123 ≤ rc ≤ 138
                  ∨ rc = 152 ∨ 154 ≤ rc ≤ 156 ∨ 158 ≤ rc ≤ 161) then Some "declined"
  else if decide (rc = 69 ∨ rc = 70 ∨ rc = 162) then Some "terminal_busy"
  else None.
Lemma classified_by_code rc :
  classify_transaction_error rc
  = match refusal_of rc with Some code => NothingCharged code | None => UnknownOutcome end.
Proof.
  unfold classify_transaction_error, refusal_of, among, CANCELLED_CODES, CARD_ERROR_CODES, DECLINED_CODES, BUSY_CODES.
  cbn [existsb fst snd]. rewrite !orb_false_r.
  repeat (case_decide; [match goal with |- (if ?b then _ else _) = _ =>
            replace b with true by lia; done end|
          match goal with |- (if ?b then _ else _) = _ => replace b with false by lia end]). done.
Qed.

Lemma send_reversal_run run tid t :
  let rev := mkAsked (rr_ip run) (Some (rr_job run)) (TReversal (rr_seq run)) in
  let answer := tim_facts (tim_asked t) rev in
  ∃ e t', send_reversal run tid t = (Ok e, t') ∧ tim_asked t' = tim_asked t ++ [rev] ∧
    match e with
    | RevDone facts _ => answer = Ok facts
    | RevRefused code _ => ∃ err, answer = Err err ∧
        (te_code err = 67 ∧ (code = "unknown_reference" ∨
           code = "period_closed" ∧ balanced_since (rr_ip run) (rr_seq run) (conn (journal t')))
         ∨ te_code err ≠ 67 ∧ refusal_of (te_code err) = Some code)
    | RevUnknown _ => ∃ err, answer = Err err ∧ te_code err ≠ 67 ∧ refusal_of (te_code err) = None
    end.
Proof.
  cbv zeta. unfold send_reversal, mbind at 1, M_bind at 1. set (rev := mkAsked _ _ _).
  destruct (ask_run tim_facts rev t) as (t1 & E1 & Hl1 & _). rewrite E1.
  destruct (tim_facts (tim_asked t) rev) as [facts|err] eqn:Ea; [by eexists _, t1|].
  set (m := card_balance_since_payment _ _). destruct (never_fails (journaled m) t1) as (p & t2 & E2).
  pose proof (journaled_quiet m t1) as (Hl2 & _ & _). rewrite E2 in Hl2. simpl in Hl2.
  unfold mbind, M_bind. rewrite E2. eexists _, t2. split; [reflexivity|]. split; [congruence|].
  unfold classify_reversal_error, RC_UNKNOWN_REFERENCE. rewrite classified_by_code.
  destruct (Z.eqb_spec (te_code err) 67) as [H67|H67].
  - exists err. split; [done|]. left. split; [done|].
    destruct (match p with Ok b => b | Err _ => false end) eqn:Hp; [right|by left]. split; [done|].
    destruct p as [b|]; [|done]. by eapply balance_since_proves.
  - destruct (refusal_of (te_code err)) as [code|] eqn:Hc; exists err; auto.
Qed.

(** ** A session that worked *)

Lemma with_session_ok {A} spec job (work : option string → TM A) t a t' :
  with_session spec job work t = (Ok (Ok a), t') →
  let call c := mkAsked (ts_ip spec) job c in
  ∃ tid t1 t2, wrong_terminal spec tid = None
    ∧ tim_asked t1 = tim_asked t ++ map call [TConnect; TLogin; TTerminalId]
    ∧ work tid t1 = (Ok a, t2) ∧ tim_asked t' = tim_asked t2 ++ map call [TLogout; TDisconnect].
Proof.
  cbv zeta. unfold with_session. set (call c := mkAsked (ts_ip spec) job c). intros Hr.
  destruct (tim_terminal spec); [|done].
  apply bind_ok in Hr as (c & t1 & [_ Hl1]%ask_inv & Hr). destruct c; [|done].
  apply bind_ok in Hr as (l & t2 & [_ Hl2]%ask_inv & Hr).
  apply bind_ok in Hr as (res & t3 & Ew & Hr). apply bind_ok in Hr as (d & t4 & [_ Hl4]%ask_inv & Hr).
  injection Hr as -> ->. destruct l; [|done].
  apply bind_ok in Ew as (i & t5 & [_ Hl5]%ask_inv & Ew). apply bind_ok in Ew as (res & t6 & Ew & Ho).
  apply bind_ok in Ho as (o & t7 & [_ Hl7]%ask_inv & Ho). injection Ho as -> ->.
  destruct i as [tid|]; [|done]. destruct (wrong_terminal spec tid) eqn:Hw; [done|].
  apply bind_ok in Ew as (b & t8 & Ew & Hb). injection Hb as -> ->.
  exists tid, t5, t6. split_and!; [done| |done|].
  - by rewrite Hl5, Hl2, Hl1, <- !app_assoc.
  - by rewrite Hl4, Hl7, <- !app_assoc.
Qed.
Lemma read_last_ok spec job t tid last t' :
  read_last spec job t = (Ok (Ok (tid, last)), t') →
  let call c := mkAsked (ts_ip spec) job c in
  tim_last (tim_asked t ++ map call [TConnect; TLogin; TTerminalId]) (call TLastTransaction) = Ok last
  ∧ tim_asked t' = tim_asked t ++ map call [TConnect; TLogin; TTerminalId; TLastTransaction; TLogout; TDisconnect].
Proof.
  intros Hr. apply bind_ok in Hr as (r & t1 & Es & Hr). injection Hr as Hr ->.
  destruct r as [[tid' [last'|e]]|[e|e]]; simplify_eq.
  apply with_session_ok in Es as (tid' & t2 & t3 & _ & Hl2 & Ew & Hl).
  apply bind_ok in Ew as (last' & t4 & [-> Hl4]%ask_inv & Ew). injection Ew as _ E ->.
  rewrite Hl2 in E, Hl4. split; [done|]. by rewrite Hl, Hl4, <- !app_assoc.
Qed.

(** ** The reconcile of a transaction *)

(** The terminal's last transaction is the one of [card], with this outcome. *)
Record last_is_ours (card : CardPayment) (last : LastTransaction) (facts : TxFacts) (outcome : Z) : Prop := {
  li_facts : lt_facts last = Some facts;
  li_type : lt_type last = cp_tx_type card;
  li_amount : tx_amount_minor facts = Some (cp_amount_minor card);
  li_seq : ∃ base seq, cp_baseline_seq card = Some base ∧ trans_seq facts = Some seq
           ∧ match cp_trans_seq card with Some s => seq = s | None => base < seq end;
  li_outcome : lt_outcome last = outcome;
}.
Lemma correlate_proves card later last :
  let ours := {| our_baseline := cp_baseline_seq card; our_amount_minor := cp_amount_minor card;
                 our_trans_seq := cp_trans_seq card; our_tx_type := cp_tx_type card; later_payment := later |} in
  match correlate ours last with
  | Charged facts => last_is_ours card last facts OUTCOME_SUCCESSFUL
  | NotCharged => ∃ facts, last_is_ours card last facts OUTCOME_FAILED
  | Undecidable _ => True
  end.
Proof.
  cbv zeta. unfold correlate, seq_is_ours. simpl. destruct later; [done|].
  destruct (cp_baseline_seq card) as [base|] eqn:Hb; [|done]. destruct (lt_facts last) as [facts|] eqn:Hf; [|done].
  destruct (negb _) eqn:Hn; [done|]. apply negb_false_iff in Hn.
  apply andb_true_iff in Hn as [[Ht%Z.eqb_eq Hs]%andb_true_iff Ha%bool_decide_eq_true].
  assert (∃ seq, trans_seq facts = Some seq
    ∧ match cp_trans_seq card with Some s => seq = s | None => base < seq end) as (seq & Hq & Hcmp).
  { destruct (cp_trans_seq card) as [s|]; [apply bool_decide_eq_true in Hs; by exists s|].
    destruct (trans_seq facts) as [s|]; [|done]. exists s. by apply Z.ltb_lt in Hs. }
  destruct (Z.eqb_spec (lt_outcome last) OUTCOME_SUCCESSFUL); [by split; eauto|].
  destruct (Z.eqb_spec (lt_outcome last) OUTCOME_FAILED); [|done]. exists facts. by split; eauto.
Qed.
(** What a reconcile says when it decides. *)
Definition verdict_of (card : CardPayment) (last : LastTransaction) (r : Reconciliation) : Prop :=
  match r with
  | RDone v => ∃ facts state tid, v = reconciled (card_result state tid facts)
                                  ∧ last_is_ours card last facts OUTCOME_SUCCESSFUL
  | RFailed _ _ => ∃ facts, last_is_ours card last facts OUTCOME_FAILED
  | StillUnknown _ => True
  end.
Section verdict.
Context `{!Rfc3339}.
Lemma reconcile_verdict_proves card tid last t r t' :
  reconcile_verdict card tid last t = (Ok r, t') → verdict_of card last r ∧ tim_asked t' = tim_asked t.
Proof.
  unfold reconcile_verdict. intros Hr. apply bind_ok in Hr as (later & t1 & E1 & Hr).
  pose proof (journaled_quiet (card_later_on_terminal (cp_job_id card)) t) as (Hl1 & _ & _).
  rewrite E1 in Hl1. simpl in Hl1. set (b := match later with Ok b => b | Err _ => true end) in *.
  pose proof (correlate_proves card b last) as Hc. cbv zeta in Hr, Hc.
  destruct (correlate _ last) as [facts| |why].
  - apply bind_ok in Hr as (u & t2 & E2 & Hr). injection Hr as <- ->. split; [by eexists facts, _, tid|].
    assert (quiet_step t1 t') as (Hl2 & _); [|congruence].
    change t' with (snd (Ok (E := Empty_set) u, t')). rewrite <- E2.
    assert (respects quiet_step (match trans_seq facts with
      | Some s => _ ← journaled (card_transacted (cp_job_id card) s); mret tt | None => mret tt end : TM unit)) as Hq
      by solve_respects. apply Hq.
  - destruct Hc as [facts Hc]. destruct (_ =? _) in Hr; injection Hr as <- <-; (split; [by exists facts|done]).
  - apply bind_ok in Hr as (u & t2 & E2 & Hr). injection Hr as <- ->. split; [done|].
    pose proof (journaled_quiet (card_for_person (cp_job_id card) why) t1) as (Hl2 & _). rewrite E2 in Hl2. simpl in *.
    congruence.
Qed.
End verdict.
End payment.
