(* ===== verification/TimCharge.v ===== *)
(** * One charge for a job

    The calls that may move money ([charge_of]), the card rows that stand for
    them, and the card executor as a transition system ([tim_step]): a terminal
    is asked to charge for a job only when the journal had no card row for it
    and has one now. *)

From Stdlib Require Import ZArith String.
From stdpp Require Import gmap relations.
From S2P Require Import Prelude RustStd Core Sqlite Json DeviceApi JournalData JournalCard Journal.
From S2P Require Import JournalTheory DeviceTheory TimCard TimSession TimExec TimTheory.
#[local] Open Scope Z_scope.

(** ** Card rows *)

Definition has_card (d : JTables) (j : Z) : Prop := existsb (card_by_job j) (card_payments d) = true.
Definition keeps_cards (d d' : JTables) : Prop := ∀ j, has_card d j → has_card d' j.
#[export] Instance keeps_cards_preorder : PreOrder keeps_cards.
Proof. split; unfold keeps_cards; repeat intro; auto. Qed.

Lemma keeps_cards_same d d' : card_payments d' = card_payments d → keeps_cards d d'.
Proof. intros E j. unfold has_card. by rewrite E. Qed.
Lemma has_card_spec d j : has_card d j ↔ ∃ c, In c (card_payments d) ∧ c_job_id c = j.
Proof.
  unfold has_card, card_by_job. rewrite existsb_exists.
  split; intros (c & Hc & Hj); exists c; (split; [done|]); by apply Z.eqb_eq.
Qed.
Lemma keeps_cards_update p f d :
  (∀ c, c_job_id (f c) = c_job_id c) → keeps_cards d (fst (update_cards p f d)).
Proof.
  intros Hf j. rewrite !has_card_spec. intros (c & Hc & Hj). unfold update_cards, sql_update. simpl.
  exists (if p c then f c else c). split; [apply in_map_iff; by exists c|].
  destruct (p c); [by rewrite Hf|done].
Qed.

Section journal.
Context `{Chrono} `{JsonText}.

Lemma respects_keeps_cards ctx stmt :
  (∀ d, card_payments (fst (stmt d)) = card_payments d) →
  respects (on_conn keeps_cards) (execute (Tables := JTables) ctx stmt).
Proof. intros Hs. apply respects_execute; [apply _|]. intros d. by apply keeps_cards_same. Qed.
Lemma respects_update_cards ctx p f :
  (∀ c, c_job_id (f c) = c_job_id c) → respects (on_conn keeps_cards) (execute ctx (update_cards p f)).
Proof. intros Hf. apply respects_execute; [apply _|]. intros d. by apply keeps_cards_update. Qed.

Ltac keeps := solve_respects; by apply respects_update_cards.
Ltac keeps_balances := solve_respects; apply respects_keeps_cards; intros d; done.

Lemma card_authorized_keeps j s v : respects (on_conn keeps_cards) (card_authorized j s v).
Proof. unfold card_authorized. keeps. Qed.
Lemma card_transacted_keeps j s : respects (on_conn keeps_cards) (card_transacted j s).
Proof. unfold card_transacted. keeps. Qed.
Lemma card_ended_keeps j : respects (on_conn keeps_cards) (card_ended j).
Proof. unfold card_ended. keeps. Qed.
Lemma card_for_person_keeps j r : respects (on_conn keeps_cards) (card_for_person j r).
Proof. unfold card_for_person. keeps. Qed.
Lemma card_balance_contact_keeps ip day src j : respects (on_conn keeps_cards) (card_balance_contact ip day src j).
Proof.
  unfold card_balance_contact. solve_respects. apply respects_execute_checked; [apply _|].
  intros d d' n. simpl. intros. repeat case_match; simplify_eq; by apply keeps_cards_same.
Qed.
Lemma card_balance_outcome_keeps id o v : respects (on_conn keeps_cards) (card_balance_outcome id o v).
Proof. unfold card_balance_outcome. keeps_balances. Qed.
Lemma card_balance_forget_keeps id : respects (on_conn keeps_cards) (card_balance_forget id).
Proof. unfold card_balance_forget. keeps_balances. Qed.
Lemma mark_device_contact_keeps j : respects (on_conn keeps_cards) (mark_device_contact j).
Proof.
  unfold mark_device_contact. rewrite (surjective_pairing (locate j)). solve_respects.
  apply respects_keeps_cards. intros d. unfold locate. by destruct (is_lan_job j).
Qed.
Lemma card_contact_of_keeps j ip amount base tx target :
  respects (on_conn keeps_cards) (card_contact_of j ip amount base tx target).
Proof.
  intros s. destruct (card_contact_of j ip amount base tx target s) as [[b|e] s'] eqn:E.
  - apply card_contact_of_ok in E. cbv zeta in E. unfold on_conn. simpl. destruct b; [|by rewrite E].
    destruct E as (_ & _ & _ & c & E & _). intros j'. rewrite !has_card_spec, E.
    intros (c' & Hc & Hj). exists c'. split; [|done]. apply in_or_app. by left.
  - apply card_contact_of_err in E. unfold on_conn. simpl. by rewrite E.
Qed.
(** The queries of two statements. *)
Lemma card_balance_since_payment_keeps ip seq : respects (on_conn keeps_cards) (card_balance_since_payment ip seq).
Proof. unfold card_balance_since_payment. solve_respects. Qed.
Lemma card_later_shift_job_keeps j kasa : respects (on_conn keeps_cards) (card_later_shift_job j kasa).
Proof. unfold card_later_shift_job. solve_respects. Qed.
Lemma card_later_on_terminal_keeps `{!Rfc3339} j : respects (on_conn keeps_cards) (card_later_on_terminal j).
Proof. unfold card_later_on_terminal. solve_respects. Qed.
Lemma card_balance_ran_keeps ip day : respects (on_conn keeps_cards) (card_balance_ran ip day).
Proof. unfold card_balance_ran. solve_respects. Qed.
Lemma get_keeps j : respects (on_conn keeps_cards) (get j).
Proof. unfold get, query_mapped, lan_job_by_id. solve_respects. Qed.
End journal.
#[export] Hint Resolve card_authorized_keeps card_transacted_keeps card_ended_keeps card_for_person_keeps
  card_balance_contact_keeps card_balance_outcome_keeps card_balance_forget_keeps mark_device_contact_keeps
  card_contact_of_keeps card_balance_since_payment_keeps card_later_shift_job_keeps card_later_on_terminal_keeps
  card_balance_ran_keeps get_keeps : respects.

(** ** Charges *)

(** The job a call may move money for. *)
Definition charge_of (a : Asked) : option Z :=
  match a_call a with TTransaction _ _ | TReversal _ => a_job a | _ => None end.
Definition charges (j : Z) (l : list Asked) : nat := count (λ a, bool_decide (charge_of a = Some j)) l.

Lemma charges_app j l l' : charges j (l ++ l') = (charges j l + charges j l')%nat.
Proof. unfold charges. apply count_app. Qed.
Lemma charges_one j a : charges j [a] = if bool_decide (charge_of a = Some j) then 1%nat else 0%nat.
Proof. unfold charges. by rewrite count_one. Qed.

Section executor.
Context `{Chrono} `{JsonText} `{!Rfc3339} `{TL : TimLibrary} `{!TimWorld} `{SlipPrinter}.
Variable config : TimConfig.
(** The other tasks do not prune card rows meanwhile. *)
Hypothesis others_keep_cards : ∀ n j, keeps_cards (conn j) (conn (meanwhile n j)).

(** Every job is charged at most once, with a card row. *)
Definition charged_once (t : Tim) : Prop :=
  ∀ j, (charges j (tim_asked t) ≤ 1)%nat
       ∧ ((0 < charges j (tim_asked t))%nat → has_card (conn (journal t)) j).

(** The money stands still: card rows stay and no call moves any. *)
Definition idle (t t' : Tim) : Prop :=
  keeps_cards (conn (journal t)) (conn (journal t'))
  ∧ ∀ j, charges j (tim_asked t') = charges j (tim_asked t).
#[export] Instance idle_preorder : PreOrder idle.
Proof.
  split; [intros t; split; [reflexivity|done]|]. intros a b c [A1 B1] [A2 B2].
  split; [by etrans|]. intros j. by rewrite B2.
Qed.
Lemma idle_keeps t t' : idle t t' → keeps charged_once t t'.
Proof. intros [Hk Hc] Ht j. rewrite Hc. destruct (Ht j). auto. Qed.
Lemma keeps_of_idle {A} (m : TM A) : respects idle m → respects (keeps charged_once) m.
Proof. apply respects_weaken, idle_keeps. Qed.

Lemma journaled_idle {A} (m : JM A) : respects (on_conn keeps_cards) m → respects idle (journaled m).
Proof.
  intros Hm t. specialize (Hm (journal t)). unfold journaled, attempt, zoom.
  destruct (m (journal t)) as [r j]. by split.
Qed.
Lemma pass_idle ms : respects idle (pass ms).
Proof. intros t. split; [apply others_keep_cards|done]. Qed.
Lemma modify_idle f :
  (∀ t, journal (f t) = journal t ∧ tim_asked (f t) = tim_asked t) → respects idle (modify f : TM unit).
Proof. intros Hf t. destruct (Hf t) as [E1 E2]. split; simpl; [by rewrite E1|by rewrite E2]. Qed.
Lemma ask_idle {A} (answer : list Asked → Asked → A) a : charge_of a = None → respects idle (ask answer a).
Proof.
  intros Ha t. split; [apply others_keep_cards|]. intros j.
  change (tim_asked (snd (ask answer a t))) with (tim_asked t ++ [a]). rewrite charges_app, charges_one, Ha. simpl. lia.
Qed.
#[local] Hint Resolve journaled_idle pass_idle : respects.
#[local] Hint Extern 2 (respects idle (ask _ _)) => (apply ask_idle; reflexivity) : respects.
#[local] Hint Extern 2 (respects idle (modify _)) => (apply modify_idle; intros ?; by split) : respects.

(** ** A payment *)

Section payment.
Variables (spec : TerminalSpec) (req : PurchaseRequest).

Lemma roll_back_idle why : respects idle (roll_back spec req why).
Proof. unfold roll_back. solve_respects. Qed.
Lemma commit_idle facts tid : respects idle (commit spec req facts tid).
Proof. unfold commit. solve_respects. Qed.
#[local] Hint Resolve roll_back_idle commit_idle : respects.
Lemma authorized_idle facts tid : respects idle (authorized spec req facts tid).
Proof. unfold authorized. solve_respects. Qed.
Lemma authorization_refused_idle : respects idle (authorization_refused req).
Proof. unfold authorization_refused. solve_respects. Qed.
#[local] Hint Resolve authorized_idle authorization_refused_idle : respects.
Lemma recv_timeout_idle ms : respects idle (recv_timeout ms).
Proof. unfold recv_timeout. solve_respects. Qed.
Lemma settle_held_idle op facts tid : respects idle (settle_held spec req op facts tid).
Proof. unfold settle_held. solve_respects. Qed.
#[local] Hint Resolve recv_timeout_idle settle_held_idle : respects.
Lemma hold_loop_idle fuel deadline facts tid : respects idle (hold_loop spec req fuel deadline facts tid).
Proof. induction fuel as [|fuel IH]; simpl; solve_respects. Qed.
Lemma release_loop_idle fuel until : respects idle (release_loop spec req fuel until).
Proof. induction fuel as [|fuel IH]; simpl; solve_respects. Qed.
#[local] Hint Resolve hold_loop_idle release_loop_idle : respects.
Lemma after_transaction_idle facts tid : respects idle (after_transaction spec req facts tid).
Proof. unfold after_transaction, hold. solve_respects. Qed.
Lemma release_idle : respects idle (release spec req).
Proof. unfold release. solve_respects. Qed.
Lemma wind_up_idle ended : respects idle (_ ← released req; _ ← answer_late ended; mret ended : TM PurchaseEnd).
Proof. unfold released, answer_late. solve_respects. Qed.
End payment.

(** ** The contact stands before the charge *)

(** The journal has just recorded the contact of job [j]. *)
Definition may_charge (j : Z) (t : Tim) : Prop :=
  charged_once t ∧ charges j (tim_asked t) = 0%nat ∧ has_card (conn (journal t)) j.

Lemma contact_may_charge j ip amount base tx target t t1 :
  journaled (card_contact_of j ip amount base tx target) t = (Ok (Ok true), t1) →
  charged_once t → may_charge j t1.
Proof.
  intros E Ht. assert (idle t t1) as Hi.
  { change t1 with (snd (Ok (E := Empty_set) (Ok (E := string) true), t1)). rewrite <- E.
    apply journaled_idle, card_contact_of_keeps. }
  split; [by apply (idle_keeps t)|]. destruct Hi as [_ Hc]. rewrite Hc.
  unfold journaled, attempt, zoom in E. destruct (card_contact_of _ _ _ _ _ _ _) as [r s] eqn:Er.
  simplify_eq. apply card_contact_of_ok in Er as (_ & Hno & _ & c & Hcs & Hj & _). split.
  - destruct (Ht j) as [_ Hh]. destruct (charges j (tim_asked t)); [done|].
    specialize (Hh ltac:(lia)). unfold has_card in Hh. by rewrite Hno in Hh.
  - apply has_card_spec. simpl. rewrite Hcs. exists c. split; [|done]. apply in_or_app. right. by left.
Qed.
Lemma ask_charges {A} (answer : list Asked → Asked → A) a j t :
  charge_of a = Some j → may_charge j t → charged_once (snd (ask answer a t)).
Proof.
  intros Ha (Ht & Hc & Hh) j'. change (tim_asked (snd (ask answer a t))) with (tim_asked t ++ [a]).
  change (conn (journal (snd (ask answer a t)))) with (conn (meanwhile (steps t) (journal t))).
  rewrite charges_app, charges_one, Ha. pose proof (others_keep_cards (steps t) (journal t)) as Hk.
  destruct (decide (j' = j)) as [->|Hne].
  - rewrite bool_decide_true by done. rewrite Hc. split; [lia|auto].
  - rewrite bool_decide_false by congruence. destruct (Ht j') as [Hle Hcard].
    rewrite Nat.add_0_r. auto.
Qed.
Lemma charge_keeps {A B} (answer : list Asked → Asked → A) (f : A → TM B) a j t :
  charge_of a = Some j → may_charge j t → (∀ r, respects (keeps charged_once) (f r)) →
  charged_once (snd ((ask answer a ≫= f) t)).
Proof.
  intros Ha Ht Hf. unfold mbind, M_bind.
  destruct (never_fails (ask answer a) t) as (r & t1 & E). rewrite E. apply Hf.
  change t1 with (snd (Ok (E := Empty_set) r, t1)). rewrite <- E. by apply (ask_charges answer a j).
Qed.

Lemma mine_charges spec req : charge_of (mine spec req (TTransaction (pr_kind req) (pr_amount_minor req))) = Some (pr_job_id req).
Proof. done. Qed.
#[local] Hint Extern 1 (respects (keeps charged_once) _) => (apply keeps_of_idle; solve [eauto 4 with respects typeclass_instances]) : respects.
#[local] Hint Resolve after_transaction_idle release_idle wind_up_idle : respects.

Lemma contact_transact spec req base tid (asked : PurchaseEnd) (failed : string → PurchaseEnd) :
  respects (keeps charged_once)
    (c ← contact spec req base;
     match c with
     | Some AlreadyAsked => mret asked
     | Some (JournalFailed why) => mret (failed why)
     | None => transact spec req tid
     end).
Proof.
  intros t Ht. unfold contact, mbind at 1 2, M_bind at 1 2.
  destruct (never_fails (journaled (card_contact_of (pr_job_id req) (ts_ip spec) (pr_amount_minor req) base
    (tx_type (pr_kind req)) None)) t) as (r & t1 & E). rewrite E.
  assert (idle t t1) as Hi.
  { change t1 with (snd (Ok (E := Empty_set) r, t1)). rewrite <- E. apply journaled_idle, card_contact_of_keeps. }
  destruct r as [[]|e]; [|by apply (idle_keeps t t1)..].
  apply (charge_keeps _ _ _ _ _ (mine_charges spec req)); [by eapply contact_may_charge|].
  intros r. apply keeps_of_idle. solve_respects.
Qed.
Lemma logged_in_keeps spec req : respects (keeps charged_once) (logged_in spec req).
Proof.
  unfold logged_in. apply respects_bind; [apply _|auto with respects|]. intros [tid|e]; [|apply respects_ret, _].
  destruct (wrong_terminal spec tid); [apply respects_ret, _|].
  apply respects_bind; [apply _|auto with respects|]. intros last. cbv zeta.
  apply (contact_transact spec req _ tid _ (λ why, Refused CODE_BRIDGE_ERROR
    ("the journal did not record the terminal contact (" +:+ why
       +:+ ") - the transaction was not sent, nothing charged"))).
Qed.
Lemma run_purchase_keeps spec req : respects (keeps charged_once) (run_purchase spec req).
Proof.
  unfold run_purchase. destruct (tim_terminal spec); [|apply respects_ret, _].
  apply respects_bind; [apply _|auto with respects|]. intros [[]|e]; [|apply respects_ret, _].
  apply respects_bind; [apply _|auto with respects|]. intros l.
  apply respects_bind; [apply _| |].
  - destruct l; [|apply respects_ret, _]. apply respects_bind; [apply _|apply logged_in_keeps|]. intros ended.
    apply keeps_of_idle. solve_respects.
  - intros ended. apply respects_bind; [apply _|auto with respects|]. intros d. apply keeps_of_idle, wind_up_idle.
Qed.

(** ** The other jobs *)

Lemma set_state_idle ip st : respects idle (set_state ip st).
Proof. unfold set_state. auto with respects. Qed.
Lemma session_ended_idle ip : respects idle (session_ended ip).
Proof. unfold session_ended. auto with respects. Qed.
#[local] Hint Resolve set_state_idle session_ended_idle run_purchase_keeps : respects.

Lemma with_session_keeps {A} spec job (work : option string → TM A) :
  (∀ tid, respects (keeps charged_once) (work tid)) → respects (keeps charged_once) (with_session spec job work).
Proof. intros Hw. unfold with_session. solve_respects. Qed.
Lemma on_terminal_keeps {A} spec (work : TM A) :
  respects (keeps charged_once) work → respects (keeps charged_once) (on_terminal config spec work).
Proof. intros Hw. unfold on_terminal. solve_respects. Qed.
#[local] Hint Resolve with_session_keeps on_terminal_keeps : respects.
Lemma one_session_keeps {A} spec job nothing (work : option string → TM A) :
  (∀ tid, respects (keeps charged_once) (work tid)) →
  respects (keeps charged_once) (one_session config spec job nothing work).
Proof. intros Hw. unfold one_session. solve_respects. Qed.

Lemma two_phase_keeps job kind channel : respects (keeps charged_once) (two_phase config job kind channel).
Proof. unfold two_phase, stored_seq, open_channel, end_outcome. solve_respects. Qed.
Lemma settle_purchase_idle job target : respects idle (settle_purchase job target).
Proof. unfold settle_purchase. solve_respects. Qed.
#[local] Hint Resolve settle_purchase_idle : respects.
Lemma settle_idle job op answer : respects idle (settle job op answer).
Proof. unfold settle. solve_respects. Qed.

Lemma send_reversal_keeps run tid t :
  may_charge (rr_job run) t → charged_once (snd (send_reversal run tid t)).
Proof.
  intros Ht. unfold send_reversal.
  apply (charge_keeps tim_facts _ (mkAsked (rr_ip run) (Some (rr_job run)) (TReversal (rr_seq run))) (rr_job run));
    [done|done|].
  intros r. apply keeps_of_idle. solve_respects.
Qed.
Lemma refuse_other_reversal_idle run : respects idle (refuse_other_reversal run).
Proof. unfold refuse_other_reversal. solve_respects. Qed.
#[local] Hint Resolve refuse_other_reversal_idle : respects.
Lemma reversal_session_keeps run tid : respects (keeps charged_once) (reversal_session run tid).
Proof.
  unfold reversal_session. destruct (wrong_charge_terminal run tid); [apply respects_ret, _|].
  apply respects_bind; [apply _|auto with respects|]. intros last. cbv zeta.
  apply respects_bind; [apply _|auto with respects|]. intros [e|]; [apply respects_ret, _|].
  intros t Ht. set (base := baseline _ _). unfold mbind at 1, M_bind at 1.
  destruct (never_fails (journaled (card_contact_of (rr_job run) (rr_ip run) (rr_amount run) base
    TRANSACTION_TYPE_REVERSAL (Some (rr_seq run)))) t) as (r & t1 & E). rewrite E.
  assert (idle t t1) as Hi.
  { change t1 with (snd (Ok (E := Empty_set) r, t1)). rewrite <- E. apply journaled_idle, card_contact_of_keeps. }
  destruct r as [[]|e]; [|by apply (idle_keeps t t1)..].
  by eapply send_reversal_keeps, contact_may_charge.
Qed.
#[local] Hint Resolve reversal_session_keeps two_phase_keeps settle_idle one_session_keeps : respects.
Lemma reversal_keeps job : respects (keeps charged_once) (reversal config job).
Proof. unfold reversal, stored_seq. solve_respects. Qed.
Lemma op_call_idle op ip job tid : respects idle (op_call op (mkAsked ip job) tid).
Proof. unfold op_call. solve_respects. Qed.
#[local] Hint Resolve op_call_idle : respects.
Lemma op_session_idle ip job op date tid : respects idle (op_session ip job op date tid).
Proof. unfold op_session, op_contact. solve_respects. Qed.
Lemma journal_balance_idle id o : respects idle (journal_balance id o).
Proof. unfold journal_balance. solve_respects. Qed.
#[local] Hint Resolve op_session_idle journal_balance_idle : respects.
Lemma terminal_op_keeps job date : respects (keeps charged_once) (terminal_op config job date).
Proof. unfold terminal_op. solve_respects. Qed.
Lemma copy_session_idle ip job seq : respects idle (copy_session ip job seq).
Proof. unfold copy_session. solve_respects. Qed.
Lemma copy_target_idle job target : respects idle (copy_target job target).
Proof. unfold copy_target. solve_respects. Qed.
Lemma print_receipt_copy_idle kasa target seq r : respects idle (print_receipt_copy kasa target seq r).
Proof. unfold print_receipt_copy. solve_respects. Qed.
#[local] Hint Resolve copy_session_idle copy_target_idle print_receipt_copy_idle : respects.
Lemma print_copy_keeps job : respects (keeps charged_once) (print_copy config job).
Proof. unfold print_copy. solve_respects. Qed.
#[local] Hint Resolve reversal_keeps terminal_op_keeps print_copy_keeps : respects.
Lemma execute_card_keeps job date channel answer :
  respects (keeps charged_once) (execute_card config job date channel answer).
Proof. unfold execute_card. solve_respects. Qed.

Lemma reconcile_verdict_idle card tid last : respects idle (reconcile_verdict card tid last).
Proof. unfold reconcile_verdict. solve_respects. Qed.
#[local] Hint Resolve reconcile_verdict_idle : respects.
Lemma read_last_keeps spec job : respects (keeps charged_once) (read_last spec job).
Proof.
  unfold read_last. apply respects_bind; [apply _| |intros; apply respects_ret, _].
  apply with_session_keeps. intros tid. apply keeps_of_idle. solve_respects.
Qed.
#[local] Hint Resolve read_last_keeps : respects.
Lemma reconcile_card_keeps entry : respects (keeps charged_once) (reconcile_card config entry).
Proof.
  unfold reconcile_card, reconcile_transaction, ask_terminal, reconcile_terminal_op, reconcile_settle. solve_respects.
Qed.
Lemma safety_session_idle ip date until tid : respects idle (safety_session ip date until tid).
Proof. unfold safety_session, send_safety_balance. solve_respects. Qed.
#[local] Hint Resolve safety_session_idle : respects.
Lemma safety_tick_keeps second date left : respects (keeps charged_once) (safety_tick config second date left).
Proof. unfold safety_tick, safety_balance. solve_respects. Qed.

(** ** The executor as a transition system

    Jobs and reconciles of its queues and the safety balance, in any order;
    between them the other tasks change the journal, and a restart forgets
    everything but the journal. *)
Inductive tim_step : relation Tim :=
| Step_execute job date channel answer t : tim_step t (snd (execute_card config job date channel answer t))
| Step_reconcile entry t : tim_step t (snd (reconcile_card config entry t))
| Step_safety second date left t : tim_step t (snd (safety_tick config second date left t))
| Step_others t t' :
    tim_asked t' = tim_asked t → keeps_cards (conn (journal t)) (conn (journal t')) → tim_step t t'.

Lemma step_keeps_charged_once t t' : tim_step t t' → charged_once t → charged_once t'.
Proof.
  destruct 1 as [job date channel answer t|entry t|second date left t|t t' Ha Hk].
  - apply execute_card_keeps.
  - apply reconcile_card_keeps.
  - apply safety_tick_keeps.
  - apply idle_keeps. split; [done|]. intros j. by rewrite Ha.
Qed.
Lemma steps_keep_charged_once t t' : rtc tim_step t t' → charged_once t → charged_once t'.
Proof. induction 1; eauto using step_keeps_charged_once. Qed.
End executor.
