(* ===== verification/OdooPrint.v ===== *)
(** * The Odoo print contract

    [src/crates/devbridge-client/src/odoo_source]: [rpc.rs] (the messages of
    [/food/print/next], [/ack] and [/heartbeat]) and [label_size.rs] (the roll a
    batch names).  The text of a serde error is the interface [SerdeText]. *)

From Stdlib Require Import ZArith String.
From S2P Require Import Prelude RustStd Text Floats Core Json Label.
#[local] Open Scope Z_scope.

Definition MAX_ACK_ERROR_CHARS : nat := 200.
Definition truncate_ack_error (text : string) : string := take_chars MAX_ACK_ERROR_CHARS text.

Record NextLine := mkNextLine {
  line_id : Z;
  sequence : Z;
  product_name : string;
  print_qty : Z;
  best_before : string;
  label_png_base64 : string;
  line_type : string;
}.
Record InvalidLine := mkInvalid { bad_line_id : option Z; reason : string }.

Inductive BatchNumber :=
| Absent
| ANumber (x : f64)
| NotANumber (text : string).
Record BatchLabelSize := mkLabelSize {
  bs_width_mm : BatchNumber;
  bs_height_mm : BatchNumber;
  bs_dpi : BatchNumber;
}.
Record NextBatch := mkBatch {
  batch_id : option Z;
  production_date : string;
  lines : list NextLine;
  invalid : list InvalidLine;
  label_size : BatchLabelSize;
}.

(** [sort_by_key(|l| l.sequence)], stable *)
Definition lines_in_order (b : NextBatch) : list NextLine :=
  sort_rows (λ x y, sequence x <=? sequence y) (lines b).

(** The text of serde's error for a value that is no [NextLine], no batch. *)
Class SerdeText : Type := {
  line_error : Value → string;
  batch_error : Value → string;
}.

Section messages.
Context `{JsonText} `{SerdeText}.

Definition de_text (v : Value) : string :=
  match v with
  | VString s => s
  | VNumber n => number_to_string n
  | _ => ""
  end.
(** The id, or what is no id. *)
Definition de_opt_id (v : Value) : option (option Z) :=
  match v with
  | VNull | VBool false => Some None
  | VNumber _ => match as_i64_value v with Some z => Some (Some z) | None => None end
  | _ => None
  end.
Definition batch_number (v : Value) : BatchNumber :=
  match v with
  | VNull | VBool false => Absent
  | VNumber n =>
    match as_f64 v with
    | Some f => if f64_eqb f f64_zero then Absent else ANumber f
    | None => NotANumber (number_to_string n)
    end
  | other => NotANumber (json_to_string other)
  end.
Definition de_qty (v : Value) : option Z :=
  match as_i64_value v with
  | Some i => Some i
  | None =>
    match as_f64 v with
    | Some f => if is_whole f then Some (f64_as_i64 f) else None
    | None => None
    end
  end.

(** A field of the derived [Deserialize]: with a default, or required. *)
Definition field_or {A} (d : A) (read : Value → option A) (v : option Value) : option A :=
  match v with Some v => read v | None => Some d end.
Definition required {A} (read : Value → option A) (v : option Value) : option A := v ≫= read.
Definition text_field : option Value → option string := field_or "" (λ v, Some (de_text v)).

(** [serde_json::from_value::<NextLine>]: by name from an object, by position
    from an array of at most its seven elements. *)
Definition line_fields (v : Value) : option (list (option Value)) :=
  match v with
  | VObject _ =>
    Some (map (λ k, get_field k v)
      ["line_id"; "sequence"; "product_name"; "print_qty"; "best_before"; "label_png_base64"; "line_type"])
  | VArray l =>
    if (length l <=? 7)%nat then Some (map (λ i, nth_error l i) (seq 0 7)) else None
  | _ => None
  end.
Definition read_line (v : Value) : option NextLine :=
  match line_fields v with
  | Some [i; s; p; q; b; g; t] =>
    id ← required as_i64_value i;
    sequence ← field_or 0 as_i64_value s;
    product ← text_field p;
    qty ← required de_qty q;
    best ← text_field b;
    png ← text_field g;
    type_ ← text_field t;
    Some {| line_id := id; sequence := sequence; product_name := product; print_qty := qty;
            best_before := best; label_png_base64 := png; line_type := type_ |}
  | _ => None
  end.

Record RawBatch := mkRaw {
  raw_batch_id : option Z;
  raw_production_date : string;
  raw_lines : list Value;
  raw_size : BatchLabelSize;
}.
Definition read_batch (v : Value) : option RawBatch :=
  id ← field_or None de_opt_id (get_field "batch_id" v);
  date ← text_field (get_field "production_date" v);
  ls ← field_or [] as_array (get_field "lines" v);
  let number k := match get_field k v with Some n => batch_number n | None => Absent end in
  Some {| raw_batch_id := id; raw_production_date := date; raw_lines := ls;
          raw_size := {| bs_width_mm := number "label_width_mm"; bs_height_mm := number "label_height_mm";
                         bs_dpi := number "dpi" |} |}.

Definition sort_line (v : Value) (acc : list NextLine * list InvalidLine) : list NextLine * list InvalidLine :=
  let '(ls, bad) := acc in
  match read_line v with
  | Some l => (l :: ls, bad)
  | None =>
    (ls, {| bad_line_id := get_field "line_id" v ≫= as_i64_value;
            reason := "invalid line: " +:+ line_error v |} :: bad)
  end.

Definition parse_next (res : Value) : result RpcError NextBatch :=
  if negb (is_object res) then
    Err (Protocol ("/food/print/next result is not an object: " +:+ json_to_string res))
  else
    match read_batch res with
    | None => Err (Protocol ("/food/print/next result: " +:+ batch_error res))
    | Some raw =>
      let '(ls, bad) := foldr sort_line ([], []) (raw_lines raw) in
      match raw_batch_id raw, raw_lines raw with
      | None, _ :: _ => Err (Protocol "/food/print/next returned lines without batch_id")
      | id, _ =>
        Ok {| batch_id := id; production_date := raw_production_date raw; lines := ls; invalid := bad;
              label_size := raw_size raw |}
      end
    end.

Definition ack_params (line_id printed_qty : Z) (error : option string) : Value :=
  VObject [("line_id", VNumber (NInt line_id)); ("printed_qty", VNumber (NInt printed_qty));
           ("error", match error with Some e => VString (truncate_ack_error e) | None => VNull end)].

Definition parse_ack (res : Value) : result RpcError bool :=
  match get_field "ok" res ≫= as_bool with
  | Some true =>
    Ok (match get_field "duplicate" res ≫= as_bool with Some true => true | _ => false end)
  | _ => Err (Protocol ("/food/print/ack result without ok:true: " +:+ json_to_string res))
  end.

Record Heartbeat := mkHeartbeat {
  hb_printer_name : string; hb_paper_status : string; hb_error_status : string;
  hb_client_version : string; hb_last_job_id : option Z; hb_last_result : string;
  hb_paper_size : string;
}.
Definition heartbeat_params (h : Heartbeat) : Value :=
  VObject [("printer_name", VString (hb_printer_name h)); ("paper_status", VString (hb_paper_status h));
           ("error_status", VString (hb_error_status h)); ("client_version", VString (hb_client_version h));
           ("last_job_id", match hb_last_job_id h with Some i => VNumber (NInt i) | None => VNull end);
           ("last_result", VString (hb_last_result h)); ("paper_size", VString (hb_paper_size h))].
End messages.

(** ** [label_size.rs] *)

Definition WIDTH_MM : f64 * f64 := (f64_of_Z 10, f64_of_Z 108).
Definition HEIGHT_MM : f64 * f64 := (f64_of_Z 10, f64_of_Z 300).
Definition DPIS : list Z := [203; 300].

Inductive SizeSource := FromBatch | FromConfig.
Definition size_source_to_string (s : SizeSource) : string :=
  match s with FromBatch => "batch" | FromConfig => "config" end.
Record BatchGeometry := mkBatchGeometry { geometry : LabelGeometry; size_source : SizeSource }.

Record Roll := mkRoll { roll_width_mm : f64; roll_height_mm : f64 }.
Definition roll_of (g : LabelGeometry) : Roll := mkRoll (width_mm g) (height_mm g).
Definition roll_to_string (r : Roll) : string :=
  f64_to_string (roll_width_mm r) +:+ "x" +:+ f64_to_string (roll_height_mm r) +:+ " mm".

(** [SizeError] is its reason. *)
Definition size_ack_text (e : string) : string := "size: " +:+ e.

Definition given (name : string) (value : BatchNumber) : result string (option f64) :=
  match value with
  | Absent => Ok None
  | ANumber n => Ok (Some n)
  | NotANumber raw => Err (name +:+ " " +:+ raw +:+ " is not a number")
  end.
Definition in_range (range : f64 * f64) (x : f64) : bool := f64_leb (fst range) x && f64_leb x (snd range).
Definition within (name : string) (mm : f64) (range : f64 * f64) : result string unit :=
  if in_range range mm then Ok tt
  else Err (name +:+ " " +:+ f64_to_string mm +:+ " mm outside " +:+ f64_to_string (fst range) +:+ "-"
              +:+ f64_to_string (snd range) +:+ " mm").
Definition supported_dpi (dpi : f64) : result string Z :=
  match List.find (λ d, f64_eqb (f64_of_Z d) dpi) DPIS with
  | Some d => Ok d
  | None => Err ("dpi " +:+ f64_to_string dpi +:+ " is not 203 or 300")
  end.

Definition geometry_of_size (config : LabelGeometry) (w h : f64) (dpi : option f64)
    : result string BatchGeometry :=
  match within "label_width_mm" w WIDTH_MM with
  | Err e => Err e
  | Ok _ =>
    match within "label_height_mm" h HEIGHT_MM with
    | Err e => Err e
    | Ok _ =>
      match match dpi with Some d => supported_dpi d | None => Ok (Label.dpi config) end with
      | Err e => Err e
      | Ok d =>
        Ok {| geometry := {| width_mm := w; height_mm := h; Label.dpi := d; rotate_180 := rotate_180 config;
                             x_offset_dots := x_offset_dots config; y_offset_dots := y_offset_dots config |};
              size_source := FromBatch |}
      end
    end
  end.
Definition geometry_for (config : LabelGeometry) (size : BatchLabelSize) : result string BatchGeometry :=
  match given "label_width_mm" (bs_width_mm size) with
  | Err e => Err e
  | Ok width =>
    match given "label_height_mm" (bs_height_mm size) with
    | Err e => Err e
    | Ok height =>
      match given "dpi" (bs_dpi size) with
      | Err e => Err e
      | Ok dpi =>
        match width, height, dpi with
        | None, None, None => Ok {| geometry := config; size_source := FromConfig |}
        | Some w, Some h, _ => geometry_of_size config w h dpi
        | Some _, None, _ => Err "label_width_mm without label_height_mm"
        | None, Some _, _ => Err "label_height_mm without label_width_mm"
        | None, None, Some _ => Err "dpi without label_width_mm / label_height_mm"
        end
      end
    end
  end.

(** [previous != next] on two floats *)
Definition roll_eqb (a b : Roll) : bool :=
  f64_eqb (roll_width_mm a) (roll_width_mm b) && f64_eqb (roll_height_mm a) (roll_height_mm b).
Definition roll_change (previous next : Roll) : option string :=
  if roll_eqb previous next then None
  else Some ("roll changed " +:+ roll_to_string previous +:+ " -> " +:+ roll_to_string next
               +:+ ": the printer must hold the " +:+ roll_to_string next
               +:+ " roll (calibrate the TSC label gap after a roll swap)").
