(* ===== verification/PrinterStatus.v ===== *)
(** * The printer's state in the heartbeat

    [src/crates/devbridge-client/src/odoo_source/printer_status.rs]: the
    conditions of a Windows queue by their Odoo names, the bounded reader that
    never has two reads in flight, and what it logs.  The blocking read of the
    spooler is the interface [Winspool]: how long the n-th one takes and what
    it gives. *)

From Stdlib Require Import ZArith Ascii String.
From S2P Require Import Prelude RustStd Text.
#[local] Open Scope Z_scope.

Definition UNKNOWN : string := "unknown".
Definition ATTRIBUTE_WORK_OFFLINE : Z := 1024.
Definition STATUS_OFFLINE : Z := 128.
(** The names of the bits 0 to 26, in ascending order. *)
Definition STATUS_NAMES : list (Z * string) :=
  [(0x1, "paused"); (0x2, "error"); (0x4, "pending_deletion"); (0x8, "paper_jam"); (0x10, "paper_out");
   (0x20, "manual_feed"); (0x40, "paper_problem"); (0x80, "offline"); (0x100, "io_active"); (0x200, "busy");
   (0x400, "printing"); (0x800, "output_bin_full"); (0x1000, "not_available"); (0x2000, "waiting");
   (0x4000, "processing"); (0x8000, "initializing"); (0x10000, "warming_up"); (0x20000, "toner_low");
   (0x40000, "no_toner"); (0x80000, "page_punt"); (0x100000, "user_intervention");
   (0x200000, "out_of_memory"); (0x400000, "door_open"); (0x800000, "server_unknown");
   (0x1000000, "power_save"); (0x2000000, "server_offline"); (0x4000000, "driver_update_needed")].
Definition KNOWN_BITS : Z := Z.shiftl 1 27 - 1.
(** Milliseconds. *)
Definition QUERY_GUARD : Z := 5000.

Record QueueState := mkQueueState { qs_status : Z; qs_attributes : Z }.
Inductive StatusError :=
| SOpen (code : Z)
| SGet (code : Z)
| STimedOut
| SStillRunning
| STaskFailed
| SUnsupported.
#[export] Instance StatusError_eq_dec : EqDecision StatusError.
Proof. solve_decision. Defined.
Definition status_error_to_string (e : StatusError) : string :=
  match e with
  | SOpen code => "OpenPrinterW failed (Win32 error " +:+ z_to_string code +:+ ")"
  | SGet code => "GetPrinterW level 2 failed (Win32 error " +:+ z_to_string code +:+ ")"
  | STimedOut => "the spooler did not answer in time (hung?)"
  | SStillRunning => "the previous status read is still waiting for the spooler (hung?)"
  | STaskFailed => "the status read did not finish (panic or shutdown)"
  | SUnsupported => "no Windows print queue on this platform"
  end.
Definition is_hung (e : StatusError) : bool :=
  match e with STimedOut | SStillRunning => true | _ => false end.

(** ** [map_status_bits] *)

(** [{:x}] *)
Fixpoint hex_digits (fuel : nat) (n : Z) : string :=
  match fuel with
  | O => ""
  | S fuel' => if n <? 16 then hex_digit n else hex_digits fuel' (n / 16) +:+ hex_digit (n mod 16)
  end.
Definition hex_u32 (n : Z) : string := hex_digits 8 n.

Definition join_or_ok (conditions : list string) : string :=
  match conditions with [] => "ok" | _ => String.concat "," conditions end.

Definition effective_bits (status attributes : Z) : Z :=
  if negb (Z.land attributes ATTRIBUTE_WORK_OFFLINE =? 0) then Z.lor status STATUS_OFFLINE else status.
Definition conditions (bits : Z) : list string :=
  map snd (List.filter (λ bn, negb (Z.land bits (fst bn) =? 0)) STATUS_NAMES)
  ++ (let undocumented := Z.ldiff bits KNOWN_BITS in
      if undocumented =? 0 then [] else ["status_0x" +:+ hex_u32 undocumented]).
Definition map_status_bits (status attributes : Z) : string * string :=
  let all := conditions (effective_bits status attributes) in
  (join_or_ok (List.filter (starts_with "paper_") all), join_or_ok all).

Definition heartbeat_status (read : result StatusError QueueState) : string * string :=
  match read with
  | Ok q => map_status_bits (qs_status q) (qs_attributes q)
  | Err _ => (UNKNOWN, UNKNOWN)
  end.

(** ** What is logged *)

Inductive Seen :=
| SawNothing
| SawStatus (paper error : string)
| SawFailed (e : StatusError).
#[export] Instance Seen_eq_dec : EqDecision Seen.
Proof. solve_decision. Defined.
Definition Seen_of (read : result StatusError QueueState) : Seen :=
  match read with
  | Ok q => let '(paper, error) := map_status_bits (qs_status q) (qs_attributes q) in SawStatus paper error
  | Err e => SawFailed e
  end.

Inductive StatusLog := Quiet | Unreadable | Changed.
Definition status_log (previous now : Seen) : StatusLog :=
  match previous, now with
  | SawFailed prev, SawFailed err =>
    if bool_decide (prev = err) || (is_hung prev && is_hung err) then Quiet else Unreadable
  | _, SawFailed _ => Unreadable
  | _, SawNothing => Quiet
  | prev, status => if bool_decide (prev = status) then Quiet else Changed
  end.

(** ** The reader *)

(** The n-th blocking read: how long it runs, and what it gives ([None]: it
    panics). *)
Class Winspool : Type := { query : nat → string → Z * option (result StatusError QueueState) }.

Record PrinterStatusReader := mkReader {
  clock_ms : Z;
  reads : list (Z * Z);        (* the blocking reads started, with their ends *)
  last : Seen;
  log : list StatusLog;
}.
Definition PrinterStatusReader_new (t : Z) : PrinterStatusReader := mkReader t [] SawNothing [].

Section reader.
Context `{Winspool}.

(** The flag is set while a read runs. *)
Definition in_flight (r : PrinterStatusReader) : bool := existsb (λ i, clock_ms r <? snd i) (reads r).

Definition read_state (printer : string) (r : PrinterStatusReader)
    : result StatusError QueueState * PrinterStatusReader :=
  if in_flight r then (Err SStillRunning, r)
  else
    let '(took, answer) := query (length (reads r)) printer in
    let started := reads r ++ [(clock_ms r, clock_ms r + took)] in
    if took <=? QUERY_GUARD then
      (match answer with Some a => a | None => Err STaskFailed end,
       mkReader (clock_ms r + took) started (last r) (log r))
    else (Err STimedOut, mkReader (clock_ms r + QUERY_GUARD) started (last r) (log r)).

Definition record (now : Seen) (r : PrinterStatusReader) : PrinterStatusReader :=
  mkReader (clock_ms r) (reads r) now (log r ++ [status_log (last r) now]).

Definition read (printer : string) (r : PrinterStatusReader) : (string * string) * PrinterStatusReader :=
  let '(answer, r) := read_state printer r in
  (heartbeat_status answer, record (Seen_of answer) r).
Definition wait (ms : Z) (r : PrinterStatusReader) : PrinterStatusReader :=
  mkReader (clock_ms r + ms) (reads r) (last r) (log r).
End reader.

(** ** Facts *)

(** Every bit below 27 has its name. *)
Lemma known_bits_named : map fst STATUS_NAMES = map (λ i, 2 ^ i) (seqZ 0 27).
Proof. reflexivity. Qed.

Lemma land_pow2 a i : 0 ≤ i → (Z.land a (2 ^ i) =? 0) = negb (Z.testbit a i).
Proof.
  intros Hi. destruct (Z.testbit a i) eqn:E; simpl.
  - apply Z.eqb_neq. intros H0'. assert (Z.testbit (Z.land a (2 ^ i)) i = true) as Ht.
    { rewrite Z.land_spec, E, Z.pow2_bits_true by done. done. }
    by rewrite H0', Z.bits_0 in Ht.
  - apply Z.eqb_eq. apply Z.bits_inj'. intros n Hn. rewrite Z.land_spec, Z.bits_0.
    destruct (Z.eq_dec n i) as [->|Hne]; [by rewrite E|]. rewrite Z.pow2_bits_false by done. apply andb_false_r.
Qed.

(** No bit is dropped. *)
Lemma conditions_nil bits : 0 ≤ bits → conditions bits = [] ↔ bits = 0.
Proof.
  intros Hb. split; [|by intros ->]. unfold conditions. intros [Hk Hu]%app_eq_nil.
  destruct (Z.ldiff bits KNOWN_BITS =? 0) eqn:Eu; [|done]. apply Z.eqb_eq in Eu.
  apply map_eq_nil in Hk. apply filter_empty_existsb in Hk. apply Z.bits_inj'. intros n Hn.
  rewrite Z.bits_0. destruct (Z_lt_dec n 27) as [Hlt|Hge].
  - apply not_true_is_false. intros Ht. apply not_true_iff_false in Hk. apply Hk.
    assert (2 ^ n ∈ map fst STATUS_NAMES) as Hin.
    { rewrite known_bits_named. apply list_elem_of_fmap. exists n. split; [done|]. apply elem_of_seqZ. lia. }
    apply list_elem_of_fmap in Hin as (bn & Hbn & Hin). apply existsb_exists. exists bn.
    split; [by apply list_elem_of_In|]. rewrite <- Hbn, land_pow2, Ht by done. done.
  - assert (Z.testbit (Z.ldiff bits KNOWN_BITS) n = false) as E by by rewrite Eu, Z.bits_0.
    rewrite Z.ldiff_spec in E. unfold KNOWN_BITS in E.
    replace (Z.shiftl 1 27 - 1) with (Z.ones 27) in E by done. rewrite Z.ones_spec_high in E by lia.
    by rewrite andb_true_r in E.
Qed.

Lemma string_length_app a b : String.length (a +:+ b) = (String.length a + String.length b)%nat.
Proof. induction a as [|c a IH]; [done|]. change (String c a +:+ b) with (String c (a +:+ b)). simpl. by rewrite IH. Qed.
Lemma join_ok l : Forall (λ s, (2 < String.length s)%nat) l → join_or_ok l = "ok" ↔ l = [].
Proof.
  intros Hl. split; [|by intros ->]. destruct l as [|x l]; [done|]. apply Forall_cons in Hl as [Hx _].
  unfold join_or_ok. intros E. exfalso. assert (String.length (String.concat "," (x :: l)) = 2)%nat as E2 by by rewrite E.
  destruct l as [|y l]; simpl in E2; [lia|]. rewrite string_length_app in E2. lia.
Qed.
Lemma conditions_long bits : Forall (λ s, (2 < String.length s)%nat) (conditions bits).
Proof.
  unfold conditions. apply Forall_app. split.
  - apply Forall_map, Forall_forall. intros bn [Hbn _]%list_elem_of_In%filter_In.
    assert (Forall (λ bn : Z * string, (2 < String.length (snd bn))%nat) STATUS_NAMES) as Ha by (repeat constructor).
    rewrite Forall_forall in Ha. by apply Ha, list_elem_of_In.
  - cbv zeta. destruct (_ =? 0); constructor; [|constructor]. rewrite string_length_app. simpl. lia.
Qed.

Section reader_facts.
Context `{Winspool}.
(** No answer arrives before it was asked for. *)
Definition forward : Prop := ∀ n printer, 0 ≤ fst (query n printer).

Inductive reader_reachable : PrinterStatusReader → Prop :=
| RR_new t : reader_reachable (PrinterStatusReader_new t)
| RR_read r printer : reader_reachable r → reader_reachable (snd (read printer r))
| RR_wait r ms : reader_reachable r → 0 ≤ ms → reader_reachable (wait ms r).

(** Each read starts after the end of the ones before. *)
Definition one_at_a_time (l : list (Z * Z)) : Prop :=
  ∀ i j a b, l !! i = Some a → l !! j = Some b → (i < j)%nat → snd a ≤ fst b.

Lemma one_at_a_time_app l a :
  one_at_a_time l → (∀ b, In b l → snd b ≤ fst a) → one_at_a_time (l ++ [a]).
Proof.
  intros Ho Ha i j x y Hi Hj Hij. apply lookup_app_Some in Hj as [Hj|[Hge Hj]].
  - apply lookup_app_Some in Hi as [Hi|[Hge Hi]]; [by eapply Ho|].
    apply lookup_lt_Some in Hj. lia.
  - apply list_lookup_singleton_Some in Hj as [Hj <-].
    apply lookup_app_Some in Hi as [Hi|[Hge' Hi]].
    + apply Ha, list_elem_of_In. by eapply list_elem_of_lookup_2.
    + apply list_lookup_singleton_Some in Hi as [Hi <-]. lia.
Qed.

Lemma read_state_bounded printer r :
  forward → clock_ms r ≤ clock_ms (snd (read_state printer r)) ≤ clock_ms r + QUERY_GUARD.
Proof.
  intros Hf. unfold read_state. destruct (in_flight r); [simpl; unfold QUERY_GUARD; lia|].
  specialize (Hf (length (reads r)) printer). destruct (query _ _) as [took a]. simpl in Hf.
  destruct (Z.leb_spec took QUERY_GUARD); simpl; unfold QUERY_GUARD in *; lia.
Qed.
Lemma read_state_one printer r :
  one_at_a_time (reads r) → one_at_a_time (reads (snd (read_state printer r))).
Proof.
  intros Ho. unfold read_state. destruct (in_flight r) eqn:Ei; [done|].
  destruct (query _ _) as [took a].
  assert (one_at_a_time (reads r ++ [(clock_ms r, clock_ms r + took)])) as Hn.
  { apply one_at_a_time_app; [done|]. intros b Hb. simpl. unfold in_flight in Ei.
    destruct (Z.ltb_spec (clock_ms r) (snd b)); [|done]. exfalso.
    apply not_true_iff_false in Ei. apply Ei, existsb_exists. exists b. split; [done|]. by apply Z.ltb_lt. }
  by destruct (took <=? QUERY_GUARD).
Qed.
Lemma read_clock printer r :
  clock_ms (snd (read printer r)) = clock_ms (snd (read_state printer r)) ∧
  reads (snd (read printer r)) = reads (snd (read_state printer r)).
Proof. unfold read. by destruct (read_state printer r). Qed.
End reader_facts.
