(* ===== verification/OdooLedger.v ===== *)
(** * The ledger of printed Odoo lines

    [src/crates/devbridge-client/src/odoo_source/ledger.rs]: the table
    [odoo_lines] on the connection of [Sqlite].  Its primary key is the line
    id; the rows are listed in the order they were inserted. *)

From Stdlib Require Import ZArith String.
From S2P Require Import Prelude RustStd Core Sqlite.
#[local] Open Scope Z_scope.

Definition INTERRUPTED_REASON : string :=
  "interrupted: devbridge client restarted before print verification - check the printer, reprint manually if missing".
Definition PRUNE_AFTER_DAYS : Z := 90.

Inductive LineState := Sending | Done.
Inductive AckState := Owed | Accepted | Refused.
#[export] Instance LineState_eq_dec : EqDecision LineState.
Proof. solve_decision. Defined.
#[export] Instance AckState_eq_dec : EqDecision AckState.
Proof. solve_decision. Defined.

Definition ACK_NOTE_OK : string := "ok".
Definition ACK_NOTE_DUPLICATE : string := "duplicate".
Definition ACK_NOTE_REFUSED_PREFIX : string := "refused: ".

Record LedgerEntry := mkEntry {
  le_line_id : Z;
  le_batch_id : Z;
  le_state : LineState;
  le_printed_qty : Z;
  le_error : option string;
  le_ack : AckState;
  le_sent : bool;
}.

(** A row of [odoo_lines]. *)
Record LineRow := mkLine {
  l_line_id : Z; l_batch_id : Z; l_state : string; l_printed_qty : Z; l_error : option string;
  l_acked : Z; l_sent : Z; l_ack_note : option string; l_created_at : string; l_updated_at : string;
}.
Definition Lines : Type := list LineRow.
Definition by_line (line_id : Z) (r : LineRow) : bool := l_line_id r =? line_id.

Definition ack_state (acked : bool) (note : option string) : AckState :=
  if negb acked then Owed
  else match note with
       | Some n => if starts_with ACK_NOTE_REFUSED_PREFIX n then Refused else Accepted
       | None => Accepted
       end.
Definition row_to_entry (r : LineRow) : LedgerEntry :=
  {| le_line_id := l_line_id r; le_batch_id := l_batch_id r;
     le_state := if l_state r =t? "sending" then Sending else Done;
     le_printed_qty := l_printed_qty r; le_error := l_error r;
     le_ack := ack_state (negb (l_acked r =? 0)) (l_ack_note r); le_sent := negb (l_sent r =? 0) |}.

(** [ORDER BY batch_id, line_id] *)
Definition batch_line_leb (a b : LineRow) : bool :=
  (l_batch_id a <? l_batch_id b) || ((l_batch_id a =? l_batch_id b) && (l_line_id a <=? l_line_id b)).

Section ledger.
Context `{Chrono}.
Definition Ledger : Type := Db Lines.
Definition LM (A : Type) : Type := SqlM Lines A.

Definition get (line_id : Z) : LM (option LedgerEntry) :=
  query "read Odoo ledger row" (λ t, row_to_entry <$> List.find (by_line line_id) t).

(** [INSERT] of a line about to be sent; [None]: the key is there already. *)
Definition insert_sending (batch_id line_id : Z) (now : string) (t : Lines) : option (Lines * Z) :=
  if existsb (by_line line_id) t then None
  else Some (t ++ [{| l_line_id := line_id; l_batch_id := batch_id; l_state := "sending"; l_printed_qty := 0;
                      l_error := None; l_acked := 0; l_sent := 1; l_ack_note := None;
                      l_created_at := now; l_updated_at := now |}], 1).
Definition mark_sending (batch_id : Z) (line_ids : list Z) : LM unit :=
  t ← utc_now;
  let now := to_rfc3339 t in
  transaction ""
    (_ ← for_each line_ids (λ line_id,
           _ ← execute_checked ("ledger: line " +:+ z_to_string line_id +:+ " already recorded")
                 (insert_sending batch_id line_id now);
           mret tt);
     _ ← commit "commit ledger sending rows";
     mret (true, tt)).

Definition result_set (printed_qty : Z) (error : option string) (now : string) (r : LineRow) : LineRow :=
  {| l_line_id := l_line_id r; l_batch_id := l_batch_id r; l_state := "done"; l_printed_qty := printed_qty;
     l_error := error; l_acked := 0; l_sent := l_sent r; l_ack_note := None;
     l_created_at := l_created_at r; l_updated_at := now |}.
Definition record_result (batch_id line_id printed_qty : Z) (error : option string) : LM unit :=
  t ← utc_now;
  let now := to_rfc3339 t in
  _ ← execute ("ledger: record result of line " +:+ z_to_string line_id) (λ t,
        if existsb (by_line line_id) t then sql_update (by_line line_id) (result_set printed_qty error now) t
        else (t ++ [{| l_line_id := line_id; l_batch_id := batch_id; l_state := "done";
                       l_printed_qty := printed_qty; l_error := error; l_acked := 0; l_sent := 0;
                       l_ack_note := None; l_created_at := now; l_updated_at := now |}], 1));
  mret tt.

Definition acked_set (note : string) (now : string) (r : LineRow) : LineRow :=
  {| l_line_id := l_line_id r; l_batch_id := l_batch_id r; l_state := l_state r;
     l_printed_qty := l_printed_qty r; l_error := l_error r; l_acked := 1; l_sent := l_sent r;
     l_ack_note := Some note; l_created_at := l_created_at r; l_updated_at := now |}.
Definition mark_acked (line_id : Z) (note : string) : LM unit :=
  t ← utc_now;
  _ ← execute ("ledger: mark line " +:+ z_to_string line_id +:+ " acked")
        (sql_update (by_line line_id) (acked_set note (to_rfc3339 t)));
  mret tt.

Definition owed_set (r : LineRow) : LineRow :=
  {| l_line_id := l_line_id r; l_batch_id := l_batch_id r; l_state := l_state r;
     l_printed_qty := l_printed_qty r; l_error := l_error r; l_acked := 0; l_sent := l_sent r;
     l_ack_note := l_ack_note r; l_created_at := l_created_at r; l_updated_at := l_updated_at r |}.
Definition reopen_ack (line_id : Z) : LM unit :=
  _ ← execute ("ledger: reopen ack of line " +:+ z_to_string line_id)
        (sql_update (λ r, by_line line_id r && (l_state r =t? "done")) owed_set);
  mret tt.

Definition forget (line_id : Z) : LM unit :=
  _ ← execute ("ledger: forget line " +:+ z_to_string line_id) (sql_delete (by_line line_id));
  mret tt.

Definition owes_ack (r : LineRow) : bool := (l_state r =t? "done") && (l_acked r =? 0).
Definition pending_acks : LM (list LedgerEntry) :=
  _ ← engine "";
  query "" (λ t, map row_to_entry (sort_rows batch_line_leb (List.filter owes_ack t))).

Definition is_sending (r : LineRow) : bool := l_state r =t? "sending".
Definition interrupted_set (now : string) (r : LineRow) : LineRow :=
  {| l_line_id := l_line_id r; l_batch_id := l_batch_id r; l_state := "done"; l_printed_qty := 0;
     l_error := Some INTERRUPTED_REASON; l_acked := 0; l_sent := l_sent r; l_ack_note := l_ack_note r;
     l_created_at := l_created_at r; l_updated_at := now |}.
Definition recover_interrupted : LM (list Z) :=
  t ← utc_now;
  let now := to_rfc3339 t in
  transaction ""
    (ids ← (_ ← engine ""; query "" (λ t, map l_line_id (order_by_id l_line_id (List.filter is_sending t))));
     _ ← execute "" (sql_update is_sending (interrupted_set now));
     _ ← commit "";
     mret (true, ids)).

(** [ack_note IS NULL OR ack_note NOT LIKE 'refused: %'] (LIKE folds ASCII case) *)
Definition note_not_refused (note : option string) : bool :=
  match note with
  | Some n => negb (starts_with ACK_NOTE_REFUSED_PREFIX (ascii_lowercase n))
  | None => true
  end.
Definition prunable (cutoff : string) (r : LineRow) : bool :=
  (l_acked r =? 1) && (l_updated_at r <t? cutoff) && note_not_refused (l_ack_note r).
Definition prune : LM Z :=
  t ← utc_now;
  execute "" (sql_delete (prunable (to_rfc3339 (minus_secs t (PRUNE_AFTER_DAYS * 86400))))).
End ledger.
