(* ===== verification/OdooSource.v ===== *)
(** * The Odoo print source

    [src/crates/devbridge-client/src/odoo_source/mod.rs]: one poll - flush the
    owed acks, ask for the next batch, decide every line, record, spool, record,
    flush again - and the start of the source.  A print uses the receiver's
    world, print lock and in-flight registry ([Receiver.Client]).  What Odoo
    answers may depend on everything it was told ([OdooServer]); [documents]
    logs what was handed to the spooler and how it ended. *)

From Stdlib Require Import ZArith Ascii String.
From stdpp Require Import gmap.
From S2P Require Import Prelude RustStd Text Floats Core Sqlite Storage Queue Json Label.
From S2P Require Import PrintBackend Receiver OdooPrint OdooLedger.
#[local] Open Scope Z_scope.

(** ** Delays, in seconds *)

Definition MAX_BACKOFF : Z := 60.
Definition AFTER_BATCH_DELAY : Z := 1.

Inductive PollOutcome :=
| Idle
| Batch (batch_id printed rejected reacked : Z)
| OnlyKnownLines (batch_id reacked : Z)
| AcksOwed (owed : Z).

Definition backoff (current base : Z) : Z := Z.min (Z.max (current * 2) base) (Z.max MAX_BACKOFF base).
Definition next_delay {E} (outcome : result E PollOutcome) (current base : Z) : Z :=
  match outcome with
  | Ok Idle => base
  | Ok (Batch _ _ _ _) => Z.min AFTER_BATCH_DELAY base
  | Ok (OnlyKnownLines _ _) | Ok (AcksOwed _) | Err _ => backoff current base
  end.

Definition timed_out_ack_text (secs : Z) : string :=
  "outcome unknown: print not confirmed within " +:+ z_to_string secs
    +:+ "s - check the printer before reprinting".

(** ** The source and its surroundings *)

Record SourceStatus := mkStatus { last_job_id : option Z; last_result : string }.

Record PrintableLine := mkPrintable { pl_line_id : Z; pl_qty : Z; pl_label : PlacedLabel }.
Definition OdooCall : Type := string * Value.

(** Odoo: its answer to a call, after the calls before it. *)
Class OdooServer : Type := { reply : list OdooCall → OdooCall → result RpcError Value }.
(** The spool directory and the random job ids. *)
Class SpoolDir : Type := {
  spool_dir : string;
  join_path : string → string → string;
  create_dir_error : string → option string;
  new_uuid : nat → string;
}.

(** A document handed to [spool_document], its lines, and how it ended. *)
Record Spooled := mkSpooled {
  sp_batch_id : Z;
  sp_lines : list (Z * Z);          (* line id, quantity *)
  sp_document : bytes;
  sp_result : result string string;
}.

Record OdooClientConfig := mkConfig {
  printer_name : string;
  config_geometry : LabelGeometry;
  poll_interval_secs : Z;
}.

Record Source `{Chrono} := mkSource {
  ledger : Ledger;
  runtime : Client;                 (* world, print lock, in-flight jobs, history *)
  roll : Roll;
  status : SourceStatus;
  target_printer : string;
  calls : list OdooCall;
  documents : list Spooled;
}.
Definition SrcM `{Chrono} (A : Type) : Type := M Source string A.

Section source.
Context `{Outside} `{!Link} `{JsonText} `{SerdeText} `{ImageCodecs} `{OdooServer} `{SpoolDir}.
Variables (cfg : OdooClientConfig) (backend : Backend) (print_timeout : Z).

Definition set_ledger (l : Ledger) (s : Source) : Source :=
  mkSource _ l (runtime s) (roll s) (status s) (target_printer s) (calls s) (documents s).
Definition set_runtime (c : Client) (s : Source) : Source :=
  mkSource _ (ledger s) c (roll s) (status s) (target_printer s) (calls s) (documents s).
Definition set_roll (r : Roll) (s : Source) : Source :=
  mkSource _ (ledger s) (runtime s) r (status s) (target_printer s) (calls s) (documents s).
Definition set_source_status (st : SourceStatus) (s : Source) : Source :=
  mkSource _ (ledger s) (runtime s) (roll s) st (target_printer s) (calls s) (documents s).
Definition set_target (p : string) (s : Source) : Source :=
  mkSource _ (ledger s) (runtime s) (roll s) (status s) p (calls s) (documents s).
Definition set_calls (l : list OdooCall) (s : Source) : Source :=
  mkSource _ (ledger s) (runtime s) (roll s) (status s) (target_printer s) l (documents s).
Definition set_documents (l : list Spooled) (s : Source) : Source :=
  mkSource _ (ledger s) (runtime s) (roll s) (status s) (target_printer s) (calls s) l.

Definition on_ledger {A} (m : LM A) : SrcM A := zoom ledger set_ledger m.
Definition on_runtime {A} (m : CM A) : SrcM A := map_err full_text (zoom runtime set_runtime m).
Definition set_status (batch_id : Z) (result : string) : SrcM unit :=
  modify (set_source_status (mkStatus (Some batch_id) result)).

(** ** The calls of Odoo ([OdooRpc]) *)

Definition call (path : string) (params : Value) : SrcM (result RpcError Value) := λ s,
  (Ok (reply (calls s) (path, params)), set_calls (calls s ++ [(path, params)]) s).
Definition next : SrcM (result RpcError NextBatch) :=
  r ← call "/food/print/next" (VObject []);
  mret (match r with Ok v => parse_next v | Err e => Err e end).
Definition ack (line_id printed_qty : Z) (error : option string) : SrcM (result RpcError bool) :=
  r ← call "/food/print/ack" (ack_params line_id printed_qty error);
  mret (match r with Ok v => parse_ack v | Err e => Err e end).
Definition heartbeat (hb : Heartbeat) : SrcM (result RpcError Value) :=
  call "/food/print/heartbeat" (heartbeat_params hb).

(** ** The acks *)

Definition settle_ack (entry : LedgerEntry) (owed : Z) : SrcM Z :=
  accepted ← ack (le_line_id entry) (le_printed_qty entry) (le_error entry);
  match accepted with
  | Ok duplicate =>
    _ ← on_ledger (mark_acked (le_line_id entry) (if duplicate : bool then ACK_NOTE_DUPLICATE else ACK_NOTE_OK));
    mret owed
  | Err (Business text) =>
    _ ← on_ledger (mark_acked (le_line_id entry) (ACK_NOTE_REFUSED_PREFIX +:+ text));
    mret owed
  | Err (Transport m) =>
    throw ("ack of line " +:+ z_to_string (le_line_id entry) +:+ " (batch " +:+ z_to_string (le_batch_id entry)
             +:+ ") — kept for retry: " +:+ rpc_error_to_string (Transport m))
  | Err _ => mret (owed + 1)
  end.
Definition flush_acks : SrcM Z :=
  entries ← on_ledger pending_acks;
  fold_m entries settle_ack 0.

(** ** A line Odoo offers *)

Definition batch_geometry (batch : NextBatch) : result string LabelGeometry :=
  match geometry_for (config_geometry cfg) (label_size batch) with
  | Ok g => Ok (geometry g)
  | Err e => Err e
  end.

(** The ack text of a rejection, or the placed label. *)
Definition encode_line (geometry : result string LabelGeometry) (png_base64 : string)
    : result string PlacedLabel :=
  match geometry with
  | Ok g =>
    match decode_label png_base64 g with
    | Ok label => Ok label
    | Err e => Err (ack_text e)
    end
  | Err size => Err (size_ack_text size)
  end.

Definition handle_known_line (line_id : Z) : SrcM bool :=
  known ← on_ledger (get line_id);
  match known with
  | None => mret false
  | Some k =>
    match le_state k, le_sent k, le_ack k with
    | Sending, _, _ =>
      _ ← on_ledger (record_result (le_batch_id k) line_id 0 (Some INTERRUPTED_REASON)); mret true
    | Done, false, (Accepted | Refused) => _ ← on_ledger (forget line_id); mret false
    | Done, _, Owed => mret true
    | Done, true, (Accepted | Refused) => _ ← on_ledger (reopen_ack line_id); mret true
    end
  end.

(** ** Printing a batch *)

(** [u32::try_from(qty).unwrap_or(u32::MAX)] *)
Definition u32_or_max (qty : Z) : Z := if (0 <=? qty) && (qty <? 2 ^ 32) then qty else 2 ^ 32 - 1.

(** The print task: it removes its own spool file. *)
Definition make_print (job : PrintJobInfo) (path : string) : PM unit :=
  r ← attempt (print backend job path);
  _ ← fs_remove path;
  match r with Ok _ => mret tt | Err e => throw e end.

Definition store_events (evs : list (Z * PrintJobEvent)) : CM unit :=
  for_each evs (λ e, with_queue (insert_job_event (snd e))).
(** [timeout(5 s, persist task)]: that task ends with the print task. *)
Definition wait_persist (seen : PrintDispatch) : CM unit :=
  modify (λ c, match local_queue c, seen with
               | Some _, TimedOut =>
                 set_world (set_now (Z.min (lock_free c) (now (world c) + 5000)) (world c)) c
               | _, _ => c
               end).

Definition dispatch_result (w : World) (seen : PrintDispatch) : result string string :=
  match seen with
  | DispatchCompleted (Ok _) =>
    Ok (snd (EventEmitter.last_verification (emitter_of (events_until (now w) w))))
  | DispatchCompleted (Err e) => Err (full_text e)
  | TimedOut => Err (timed_out_ack_text print_timeout)
  | DuplicateSuppressed => Err "duplicate print suppressed — batch document still in flight"
  end.

Definition odoo_metadata (t : DateTime) (job_id doc_name printer paper : string) (document : bytes)
    : JobMetadata :=
  {| job_id := job_id; document_name := doc_name; Core.target_printer := printer;
     target_client_id := None; copies := 1; paper_size := paper; duplex := false; color := false;
     payload_size := Z.of_nat (length document); payload_sha256 := sha256_hex document;
     state := Printing; retry_count := 0; error_detail := ""; requesting_user := None;
     created_at := t; updated_at := t |}.

(** The spooled file is printed and followed to its end. *)
Definition print_spooled (job : PrintJobInfo) (path paper : string) (document : bytes)
    : CM (result string string) :=
  let id := ji_job_id job in
  t ← gets (λ c, now (world c));
  _ ← with_queue (record_job
        (odoo_metadata (utc t) id (ji_document_name job) (ji_printer_name job) paper document) path);
  _ ← on_world (modify (set_emitted []));
  _ ← on_world (emit_ok id SReceived
        (ji_document_name job +:+ " from Odoo (" +:+ z_to_string (Z.of_nat (length document)) +:+ " B TSPL)"));
  seen ← run_print_task_with_timeout (print_timeout * 1000) id (make_print job path);
  w ← gets world;
  let result := dispatch_result w seen in
  _ ← wait_persist seen;
  w' ← gets world;
  _ ← store_events (List.filter (λ e, fst e <=? now w') (emitted w'));
  _ ← with_queue (Queue.update_job_state id (if is_ok result then Completed else Failed));
  _ ← store_events (List.filter (λ e, now w' <? fst e) (emitted w'));
  mret result.

Definition spool_document (uuid printer : string) (batch_id : Z) (document : bytes) (labels copies : Z)
    (r : Roll) : CM (result string string) :=
  let id := "odoo-" +:+ z_to_string batch_id +:+ "-" +:+ String.substring 0 8 uuid in
  let path := join_path spool_dir (id +:+ ".tspl") in
  let doc_name := "Odoo batch " +:+ z_to_string batch_id +:+ " (" +:+ z_to_string labels +:+ " labels, "
                    +:+ z_to_string copies +:+ " copies)" in
  match create_dir_error spool_dir with
  | Some e => mret (Err ("spool dir " +:+ spool_dir +:+ ": " +:+ e))
  | None =>
    match fs_create_error path with
    | Some e => mret (Err ("write spool file " +:+ path +:+ ": " +:+ e))
    | None =>
      _ ← on_world (fs_create path document);
      print_spooled
        {| ji_job_id := id; ji_document_name := doc_name; ji_copies := 1; ji_duplex := false;
           ji_color := false; ji_printer_name := printer; ji_printer_display_name := None |}
        path (roll_to_string r) document
    end
  end.

Definition line_and_qty (l : PrintableLine) : Z * Z := (pl_line_id l, pl_qty l).
Definition log_document (batch_id : Z) (ls : list PrintableLine) (document : bytes)
    (r : result string string) : SrcM unit :=
  modify (λ s, set_documents (documents s ++ [mkSpooled batch_id (map line_and_qty ls) document r]) s).

(** The verdict of a document on each of its lines. *)
Definition record_verdict (batch_id : Z) (r : result string string) (l : PrintableLine) : SrcM unit :=
  on_ledger (match r with
             | Ok _ => record_result batch_id (pl_line_id l) (pl_qty l) None
             | Err reason => record_result batch_id (pl_line_id l) 0 (Some (truncate_ack_error reason))
             end).
Definition batch_summary (labels copies : Z) (r : result string string) : string :=
  match r with
  | Ok evidence =>
    "printed " +:+ z_to_string labels +:+ " labels (" +:+ z_to_string copies +:+ " copies), " +:+ evidence
  | Err reason => "error: " +:+ truncate_ack_error reason
  end.

Definition print_batch (batch_id : Z) (ls : list PrintableLine) (g : LabelGeometry) : SrcM unit :=
  let document := build_document g (map (λ l, (pl_label l, u32_or_max (pl_qty l))) ls) in
  let labels := Z.of_nat (length ls) in
  let copies := as_i64 (foldr Z.add 0 (map pl_qty ls)) in
  _ ← on_ledger (mark_sending batch_id (map pl_line_id ls));
  _ ← modify (set_roll (roll_of g));
  s ← gets id;
  result ← on_runtime (spool_document (new_uuid (length (documents s))) (target_printer s) batch_id document
                         labels copies (roll_of g));
  _ ← log_document batch_id ls document result;
  _ ← for_each ls (record_verdict batch_id result);
  set_status batch_id (batch_summary labels copies result).

(** ** A batch *)

(** What the two loops of [handle_batch] carry. *)
Record Round := mkRound {
  seen : gset Z;
  printable : list PrintableLine;
  rejected : Z;
  reacked : Z;
  unackable : Z;
}.
Definition see (line_id : Z) (r : Round) : Round :=
  mkRound ({[line_id]} ∪ seen r) (printable r) (rejected r) (reacked r) (unackable r).
Definition count_rejected (r : Round) : Round :=
  mkRound (seen r) (printable r) (rejected r + 1) (reacked r) (unackable r).
Definition count_reacked (r : Round) : Round :=
  mkRound (seen r) (printable r) (rejected r) (reacked r + 1) (unackable r).
Definition count_unackable (r : Round) : Round :=
  mkRound (seen r) (printable r) (rejected r) (reacked r) (unackable r + 1).
Definition push_printable (l : PrintableLine) (r : Round) : Round :=
  mkRound (seen r) (printable r ++ [l]) (rejected r) (reacked r) (unackable r).

Definition reject (batch_id line_id : Z) (error : option string) (r : Round) : SrcM Round :=
  _ ← on_ledger (record_result batch_id line_id 0 error); mret (count_rejected r).

Definition handle_invalid (batch_id : Z) (bad : InvalidLine) (r : Round) : SrcM Round :=
  match bad_line_id bad with
  | None => mret (count_unackable r)
  | Some line_id =>
    if bool_decide (line_id ∈ seen r) then mret r
    else
      let r := see line_id r in
      known ← handle_known_line line_id;
      if known : bool then mret (count_reacked r)
      else reject batch_id line_id (Some (truncate_ack_error (reason bad))) r
  end.

Definition handle_line (batch_id : Z) (geometry : result string LabelGeometry) (line : NextLine) (r : Round)
    : SrcM Round :=
  let id := line_id line in
  if bool_decide (id ∈ seen r) then mret r
  else
    let r := see id r in
    known ← handle_known_line id;
    if known : bool then mret (count_reacked r)
    else if print_qty line <? 0 then
      reject batch_id id (Some ("invalid print_qty " +:+ z_to_string (print_qty line))) r
    else if print_qty line =? 0 then reject batch_id id None r
    else
      match encode_line geometry (label_png_base64 line) with
      | Ok label => mret (push_printable (mkPrintable id (print_qty line) label) r)
      | Err ack => reject batch_id id (Some ack) r
      end.

(** Nothing of the batch is printed. *)
Definition finish_unprinted (batch_id : Z) (r : Round) : SrcM PollOutcome :=
  if rejected r =? 0 then
    _ ← set_status batch_id
          (if 0 <? unackable r then
             z_to_string (unackable r)
               +:+ " lines without line_id - cannot ack, the Odoo batch is blocked ("
               +:+ z_to_string (reacked r) +:+ " lines re-acked)"
           else "already handled (" +:+ z_to_string (reacked r) +:+ " lines re-acked)");
    mret (OnlyKnownLines batch_id (reacked r))
  else
    _ ← set_status batch_id ("nothing printable (" +:+ z_to_string (rejected r) +:+ " lines rejected)");
    mret (Batch batch_id (Z.of_nat (length (printable r))) (rejected r) (reacked r)).

Definition handle_batch (batch_id : Z) (batch : NextBatch) : SrcM PollOutcome :=
  let geometry := batch_geometry batch in
  r ← fold_m (invalid batch) (handle_invalid batch_id) (mkRound ∅ [] 0 0 0);
  r ← fold_m (lines_in_order batch) (handle_line batch_id geometry) r;
  match geometry, printable r with
  | Ok g, _ :: _ =>
    _ ← print_batch batch_id (printable r) g;
    mret (Batch batch_id (Z.of_nat (length (printable r))) (rejected r) (reacked r))
  | _, _ => finish_unprinted batch_id r
  end.

(** ** The poll, the start, the heartbeat *)

Definition has_lines (batch : NextBatch) : bool :=
  match lines batch, invalid batch with [], [] => false | _, _ => true end.
Definition handle_next (batch : NextBatch) : SrcM PollOutcome :=
  match batch_id batch with
  | Some id => if has_lines batch then handle_batch id batch else mret Idle
  | None => mret Idle
  end.

Definition poll_once : SrcM PollOutcome :=
  _ ← flush_acks;
  answer ← next;
  match answer with
  | Err e => throw (rpc_error_to_string e)
  | Ok batch =>
    outcome ← handle_next batch;
    owed ← flush_acks;
    mret (match outcome with
          | Idle => if 0 <? owed then AcksOwed owed else Idle
          | other => other
          end)
  end.

(** [OdooSource::new] and the head of [run] on the ledger an earlier process
    left: nothing in flight, the printer free, no status yet. *)
Definition fresh_runtime (c : Client) : Client := set_tasks [] (set_lock_free (now (world c)) c).
Definition OdooSource_new (s : Source) : Source :=
  set_source_status (mkStatus None "")
    (set_roll (roll_of (config_geometry cfg)) (set_runtime (fresh_runtime (runtime s)) s)).
Definition start : SrcM unit :=
  _ ← modify OdooSource_new;
  _ ← on_ledger recover_interrupted;
  _ ← attempt (E := string) (on_ledger prune);
  mret tt.
Definition base_delay : Z := Z.max (poll_interval_secs cfg) 1.

(** [printer_status] is what [PrinterStatusReader::read] gives. *)
Definition heartbeat_payload (client_version : string) (printer_status : string * string) (s : Source) : Heartbeat :=
  {| hb_printer_name := printer_name cfg; hb_paper_status := fst printer_status;
     hb_error_status := snd printer_status; hb_client_version := client_version;
     hb_last_job_id := last_job_id (status s); hb_last_result := last_result (status s);
     hb_paper_size := roll_to_string (roll s) |}.
End source.
