(* ===== verification/OdooTheory.v ===== *)
(** * Theory of the Odoo print source

    What the ledger's statements keep of its rows ([line_evolves]), the
    invariant of a source over all polls, restarts and failures ([Inv]), and
    the source as a transition system ([reachable]). *)

From Stdlib Require Import ZArith String.
From stdpp Require Import gmap.
From S2P Require Import Prelude RustStd Text Floats Core Sqlite Json Label.
From S2P Require Import PrintBackend Receiver OdooPrint OdooLedger OdooSource.
#[local] Open Scope Z_scope.

(** ** Rows and documents *)

Definition ids (t : Lines) : list Z := map l_line_id t.
Definition sent_row (l : Z) (r : LineRow) : bool := by_line l r && negb (l_sent r =? 0).
(** The rows of line [l] whose bytes went to the spooler: one at most. *)
Definition sent (l : Z) (t : Lines) : nat := count (sent_row l) t.

(** A document that was confirmed prints [q] labels of line [l]. *)
Definition confirmed (docs : list Spooled) (l q : Z) : Prop :=
  ∃ d, In d docs ∧ is_ok (sp_result d) = true ∧ In (l, q) (sp_lines d).
Definition line_of (l : Z) (p : Z * Z) : bool := fst p =? l.
(** How often line [l] was handed to the spooler. *)
Definition spooled_in (docs : list Spooled) (l : Z) : nat :=
  count (line_of l) (mjoin (map sp_lines docs)).

Lemma by_line_true l r : by_line l r = true ↔ l_line_id r = l.
Proof. unfold by_line. apply Z.eqb_eq. Qed.

Lemma known_line l t : existsb (by_line l) t = true ↔ l ∈ ids t.
Proof.
  unfold ids. rewrite existsb_exists, list_elem_of_In, in_map_iff.
  split; intros (r & Ha & Hb); exists r; [|by rewrite by_line_true].
  by rewrite <- (proj1 (by_line_true l r)).
Qed.
Lemma new_line l t : existsb (by_line l) t = false ↔ l ∉ ids t.
Proof. rewrite <- known_line. by destruct (existsb _ _). Qed.

Lemma sent_new l t : l ∉ ids t → sent l t = 0%nat.
Proof.
  intros Hl%new_line. apply count_none, not_true_is_false. intros (r & Hr & Hs)%existsb_exists.
  apply andb_true_iff in Hs as [Hs _]. apply not_true_iff_false in Hl. apply Hl.
  apply existsb_exists. eauto.
Qed.
Lemma sent_at_most_one l t : NoDup (ids t) → (sent l t ≤ 1)%nat.
Proof.
  intros Hnd. apply (filter_key_at_most_one l_line_id); [done|].
  intros r r' _ _ [H1%by_line_true _]%andb_true_iff [H2%by_line_true _]%andb_true_iff. congruence.
Qed.

(** ** What a statement on the ledger keeps *)

(** A verdict that claims printed labels is true. *)
Definition true_row (C : Z → Z → Prop) (r : LineRow) : Prop :=
  l_state r = "done" → l_error r = None → l_printed_qty r ≠ 0 → C (l_line_id r) (l_printed_qty r).

Record line_evolves (C : Z → Z → Prop) (t t' : Lines) : Prop := {
  ev_keys : NoDup (ids t) → NoDup (ids t');
  ev_sent : NoDup (ids t) → ∀ l, (sent l t ≤ sent l t')%nat;
  ev_true : Forall (true_row C) t → Forall (true_row C) t';
}.
#[export] Instance line_evolves_preorder C : PreOrder (line_evolves C).
Proof.
  split; [by split|]. intros a b c [K1 S1 T1] [K2 S2 T2]. split; [auto| |auto].
  intros Hnd l. etrans; [by apply S1|]. by apply S2, K1.
Qed.

Section statements.
Context (C : Z → Z → Prop).

Lemma lines_update p f t :
  (∀ r, l_line_id (f r) = l_line_id r) → (∀ r, l_sent (f r) = l_sent r) →
  (∀ r, p r = true → true_row C r → true_row C (f r)) →
  line_evolves C t (fst (sql_update p f t)).
Proof.
  intros Hid Hs Ht. split.
  - intros Hnd. unfold ids. by rewrite sql_update_key.
  - intros _ l. unfold sent, count. simpl. induction t as [|r t IH]; simpl; [lia|].
    assert (sent_row l (if p r then f r else r) = sent_row l r) as E.
    { destruct (p r); [|done]. unfold sent_row, by_line. by rewrite Hid, Hs. }
    rewrite E. destruct (sent_row l r); simpl; lia.
  - simpl. rewrite !Forall_forall. intros Hall r' Hr. apply list_elem_of_In in Hr.
    apply in_map_iff in Hr as (r & <- & Hr). apply list_elem_of_In in Hr.
    destruct (p r) eqn:E; auto.
Qed.

Lemma evolves_append r t :
  l_line_id r ∉ ids t → true_row C r → line_evolves C t (t ++ [r]).
Proof.
  intros Hn Hr. split.
  - intros Hnd. unfold ids in *. rewrite map_app. apply NoDup_app. split; [done|]. split.
    + intros x Hx. simpl. intros ->%list_elem_of_singleton. done.
    + apply NoDup_singleton.
  - intros _ l. unfold sent. rewrite count_app. lia.
  - intros Ht. apply Forall_app. split; [done|]. by constructor.
Qed.

Lemma evolves_delete_unsent l t :
  (∀ r, In r t → by_line l r = true → l_sent r = 0) → line_evolves C t (fst (sql_delete (by_line l) t)).
Proof.
  intros Hu. split.
  - intros Hnd. unfold ids in *. simpl. clear Hu. induction t as [|r t IH]; simpl in *; [done|].
    apply NoDup_cons in Hnd as [Hn Hnd]. destruct (negb _); [|auto]. simpl. apply NoDup_cons.
    split; [|auto]. intros Hx. apply Hn. apply list_elem_of_In in Hx. apply list_elem_of_In.
    apply in_map_iff in Hx as (x & <- & [Hx _]%filter_In). by apply in_map.
  - intros _ k. unfold sent, count. simpl. induction t as [|r t IH]; simpl; [lia|].
    assert (IH' := IH (λ r Hr, Hu r (or_intror Hr))).
    destruct (by_line l r) eqn:E; simpl.
    + unfold sent_row at 1. rewrite (Hu r (or_introl eq_refl) E). rewrite andb_false_r. lia.
    + destruct (sent_row k r); simpl; lia.
  - simpl. rewrite !Forall_forall. intros Hall r Hr. apply Hall. apply list_elem_of_In.
    apply list_elem_of_In in Hr. by apply filter_In in Hr as [Hr _].
Qed.

Context `{Chrono}.

Lemma record_result_evolves b l q e :
  (e = None → q ≠ 0 → C l q) → respects (on_conn (line_evolves C)) (record_result b l q e).
Proof.
  intros Hc. unfold record_result. apply respects_bind; [apply _|apply respects_utc_now; apply _|intros ts].
  apply respects_bind; [apply _| |intros; apply respects_ret; apply _].
  apply respects_execute. { apply _. } intros t. destruct (existsb (by_line l) t) eqn:E.
  - apply lines_update; [done|done|]. intros r Hr _ _ He Hq. simpl in *.
    apply by_line_true in Hr as ->. auto.
  - apply evolves_append; [by apply new_line|]. intros _ He Hq. simpl in *. auto.
Qed.

Lemma mark_acked_lines l n : respects (on_conn (line_evolves C)) (mark_acked l n).
Proof.
  unfold mark_acked. apply respects_bind; [apply _|apply respects_utc_now; apply _|intros ts].
  apply respects_bind; [apply _| |intros; apply respects_ret; apply _].
  apply respects_execute. { apply _. } intros t. by apply lines_update.
Qed.
Lemma reopen_ack_lines l : respects (on_conn (line_evolves C)) (reopen_ack l).
Proof.
  unfold reopen_ack. apply respects_bind; [apply _| |intros; apply respects_ret; apply _].
  apply respects_execute. { apply _. } intros t. by apply lines_update.
Qed.
Lemma recover_interrupted_evolves : respects (on_conn (line_evolves C)) recover_interrupted.
Proof.
  unfold recover_interrupted. apply respects_bind; [apply _|apply respects_utc_now; apply _|intros ts].
  apply respects_transaction. { apply _. } apply respects_bind; [apply _| |intros l].
  { apply respects_bind; [apply _|apply respects_engine; apply _|intros _; apply respects_query; apply _]. }
  apply respects_bind; [apply _| |intros _].
  { apply respects_execute; [apply _|]. intros t. apply lines_update; [done|done|]. intros r _ _ _ He.
    simpl in He. done. }
  apply respects_bind; [apply _|apply respects_engine; apply _|intros _; apply respects_ret; apply _].
Qed.
End statements.

(** ** The two statements that need more: [mark_sending] and [forget] *)

Section sending.
Context `{Chrono}.

Definition sending_row (batch_id : Z) (now : string) (line_id : Z) : LineRow :=
  {| l_line_id := line_id; l_batch_id := batch_id; l_state := "sending"; l_printed_qty := 0;
     l_error := None; l_acked := 0; l_sent := 1; l_ack_note := None; l_created_at := now;
     l_updated_at := now |}.

(** The inserts of [mark_sending]: all of them new, and each once. *)
Lemma insert_all_ok b now ls (s : Ledger) u s' :
  for_each ls (λ l, _ ← execute_checked ("ledger: line " +:+ z_to_string l +:+ " already recorded")
                          (insert_sending b l now); mret tt) s = (Ok u, s') →
  NoDup ls ∧ (∀ l, l ∈ ls → l ∉ ids (conn s)) ∧ conn s' = conn s ++ map (sending_row b now) ls.
Proof.
  revert s. induction ls as [|l ls IH]; intros s; simpl.
  - intros [= _ <-]. rewrite app_nil_r. split; [constructor|]. split; [|done].
    intros l Hl. by apply not_elem_of_nil in Hl.
  - intros E. apply bind_ok in E as ([] & s1 & E1 & E). ok_step E1.
    injection E1 as ->. apply execute_checked_ok in E0. unfold insert_sending in E0.
    destruct (existsb (by_line l) (conn s)) eqn:Hx; [done|]. apply new_line in Hx. injection E0 as E0 <-.
    destruct (IH s1 E) as (Hnd & Hnew & ->). rewrite <- E0 in *. unfold ids in Hnew. rewrite map_app in Hnew.
    simpl in Hnew. split; [|split].
    + apply NoDup_cons. split; [|done]. intros Hl. apply (Hnew l Hl), elem_of_app. right. by left.
    + intros k [->|Hk]%elem_of_cons; [done|]. intros Hin. apply (Hnew k Hk), elem_of_app. by left.
    + by rewrite <- app_assoc.
Qed.

Lemma mark_sending_run b ls (s : Ledger) :
  (∃ now s', mark_sending b ls s = (Ok tt, s') ∧ conn s' = conn s ++ map (sending_row b now) ls ∧
     NoDup ls ∧ ∀ l, l ∈ ls → l ∉ ids (conn s)) ∨
  (∃ e s', mark_sending b ls s = (Err e, s') ∧ conn s' = conn s).
Proof.
  unfold mark_sending. unfold mbind at 1. unfold M_bind at 1. rewrite utc_now_run.
  set (s0 := {| conn := conn s; faults := _; clock := _; ticks := _ |}).
  destruct (transaction "" _ s0) as [[[]|e] s'] eqn:E; [left|right].
  - destruct (transaction_ok _ _ _ _ _ E) as (s1 & C1 & _ & _ & [Eb|(s2 & Eb & _)]).
    + ok_step Eb. destruct a. apply insert_all_ok in E0 as (Hnd & Hnew & Hc). ok_step Eb. destruct a.
      apply engine_ok in E0 as (C2 & _). injection Eb as ->. rewrite C1 in *. do 2 eexists.
      split; [done|]. rewrite C2. split; [exact Hc|]. split; [done|exact Hnew].
    + ok_step Eb. ok_step Eb. done.
  - exists e, s'. split; [done|]. by rewrite (transaction_err _ _ _ _ _ E).
Qed.

Lemma find_of_line l t r : List.find (by_line l) t = Some r → In r t ∧ l_line_id r = l.
Proof. intros E%find_some. by rewrite <- by_line_true. Qed.

Lemma unique_row t r r' : NoDup (ids t) → In r t → In r' t → l_line_id r = l_line_id r' → r = r'.
Proof.
  unfold ids. induction t as [|x t IH]; simpl; [done|]. intros [Hn Hnd]%NoDup_cons Hr Hr' E.
  destruct Hr as [->|Hr], Hr' as [->|Hr']; [done| | |by apply IH];
    exfalso; apply Hn, list_elem_of_In; [rewrite E|rewrite <- E]; by apply in_map.
Qed.
End sending.

(** ** The invariant of a source *)

Section source.
Context `{Outside} `{!Link} `{JsonText} `{SerdeText} `{ImageCodecs} `{OdooServer} `{SpoolDir}.
Variables (cfg : OdooClientConfig) (backend : Backend) (print_timeout : Z).

Abbreviation table s := (conn (ledger s)).
Definition ack_call (l q : Z) (e : option string) : OdooCall := ("/food/print/ack", ack_params l q e).

(** [pruned l]: rows of line [l] that pruning took away. *)
Record Inv (pruned : Z → nat) (s : Source) : Prop := {
  inv_keys : NoDup (ids (table s));
  inv_spooled : ∀ l, (spooled_in (documents s) l ≤ pruned l + sent l (table s))%nat;
  inv_true : Forall (true_row (confirmed (documents s))) (table s);
  inv_acks : ∀ l q, q ≠ 0 → In (ack_call l q None) (calls s) → confirmed (documents s) l q;
}.
(** The same while [D] is what was spooled. *)
Definition InvAt (D : list Spooled) (pruned : Z → nat) (s : Source) : Prop :=
  Inv pruned s ∧ documents s = D.

(** A computation on the ledger that keeps its rows keeps the invariant. *)
Lemma on_ledger_keeps {A} D p (m : LM A) :
  respects (on_conn (line_evolves (confirmed D))) m → respects (keeps (InvAt D p)) (on_ledger m).
Proof.
  intros Hm s [[K S T A'] HD]. unfold on_ledger, zoom. specialize (Hm (ledger s)).
  destruct (m (ledger s)) as [r l]. unfold on_conn in Hm. destruct Hm as [K' S' T'].
  split; [|done]. simpl in *. rewrite <- HD in *. split; simpl; auto.
  intros k. etrans; [apply S|]. apply Nat.add_le_mono_l. by apply S'.
Qed.
Lemma on_runtime_keeps {A} D p (m : CM A) : respects (keeps (InvAt D p)) (on_runtime m).
Proof.
  apply respects_map_err. intros s [[K S T A'] HD]. unfold zoom. destruct (m (runtime s)).
  by split; [split|].
Qed.
Lemma set_status_keeps D p b t : respects (keeps (InvAt D p)) (set_status b t).
Proof. apply respects_modify. intros s [[K S T A'] HD]. by split; [split|]. Qed.
Lemma set_roll_keeps D p r : respects (keeps (InvAt D p)) (modify (set_roll r) : SrcM unit).
Proof. apply respects_modify. intros s [[K S T A'] HD]. by split; [split|]. Qed.

(** A call that is no ack of printed labels, or a true one. *)
Lemma call_keeps D p path params :
  (∀ l q, (path, params) = ack_call l q None → q ≠ 0 → confirmed D l q) →
  respects (keeps (InvAt D p)) (call path params).
Proof.
  intros Hc s [[K S T A'] HD]. split; [|done]. split; simpl; auto.
  intros l q Hq [Hin|[E|[]]]%in_app_or; [by apply A'|]. rewrite HD. by apply Hc.
Qed.

Lemma row_to_entry_fields r :
  le_line_id (row_to_entry r) = l_line_id r ∧ le_printed_qty (row_to_entry r) = l_printed_qty r ∧
  le_error (row_to_entry r) = l_error r ∧ le_batch_id (row_to_entry r) = l_batch_id r.
Proof. done. Qed.

Definition true_entry (C : Z → Z → Prop) (e : LedgerEntry) : Prop :=
  le_error e = None → le_printed_qty e ≠ 0 → C (le_line_id e) (le_printed_qty e).

Lemma settle_ack_keeps D p e owed :
  true_entry (confirmed D) e → respects (keeps (InvAt D p)) (settle_ack e owed).
Proof.
  intros He. unfold settle_ack, ack. apply respects_bind; [apply _| |].
  - apply respects_bind; [apply _| |intros; apply respects_ret; apply _].
    apply call_keeps. intros l q [= <- <- E] Hq. destruct (le_error e) eqn:Ee; [done|]. by apply He.
  - intros [d|[]]; try (apply respects_ret; apply _); try (apply respects_throw; apply _);
      (apply respects_bind; [apply _| |intros; apply respects_ret; apply _]);
      apply on_ledger_keeps, mark_acked_lines.
Qed.

Lemma pending_acks_run (s : Ledger) :
  (∃ s', pending_acks s = (Ok (map row_to_entry (sort_rows batch_line_leb (List.filter owes_ack (conn s)))), s') ∧
     conn s' = conn s) ∨ (∃ e s', pending_acks s = (Err e, s') ∧ conn s' = conn s).
Proof.
  assert (conn (snd (pending_acks s)) = conn s) as Hc by apply prepared_query_conn.
  destruct (pending_acks s) as [[es|e] s'] eqn:E; [left|right]; simpl in Hc; [|by exists e, s'].
  exists s'. split; [|done]. unfold pending_acks in E. apply prepared_query_ok in E as [-> _]. done.
Qed.

Lemma pending_true C t :
  Forall (true_row C) t →
  Forall (true_entry C) (map row_to_entry (sort_rows batch_line_leb (List.filter owes_ack t))).
Proof.
  rewrite !Forall_forall. intros Ht e He. apply list_elem_of_In, in_map_iff in He as (r & <- & Hr).
  apply (Permutation_in _ (sort_rows_perm _ _)), filter_In in Hr as [Hr Ho].
  apply andb_true_iff in Ho as [Ho%String.eqb_eq _]. intros Hn Hq.
  apply (Ht r); [by apply list_elem_of_In|done..].
Qed.

Lemma flush_acks_keeps D p : respects (keeps (InvAt D p)) flush_acks.
Proof.
  intros s HI. unfold flush_acks, mbind, M_bind.
  assert (Hk := on_ledger_keeps D p pending_acks). unfold on_ledger, zoom in *.
  destruct (pending_acks_run (ledger s)) as [(l & E & Hl)|(e & l & E & Hl)]; rewrite E; simpl.
  - set (s1 := set_ledger l s). assert (InvAt D p s1) as HI1.
    { destruct HI as [[K S T A'] HD]. by split; [split|]; simpl; rewrite ?Hl. }
    assert (Forall (true_entry (confirmed D))
      (map row_to_entry (sort_rows batch_line_leb (List.filter owes_ack (table s))))) as Ht.
    { apply pending_true. destruct HI as [[_ _ T _] <-]. done. }
    clearbody s1. clear E Hk. revert s1 HI1. generalize 0.
    induction Ht as [|e es He Hes IH]; intros o s1 HI1; [done|]. simpl. unfold mbind, M_bind.
    pose proof (settle_ack_keeps D p e o He s1 HI1) as HI2.
    destruct (settle_ack e o s1) as [[o'|err] s2]; simpl in *; [by apply IH|done].
  - destruct HI as [[K S T A'] HD]. by split; [split|]; simpl; rewrite ?Hl.
Qed.

Lemma get_run l (s : Ledger) :
  (∃ s', get l s = (Ok (row_to_entry <$> List.find (by_line l) (conn s)), s') ∧ conn s' = conn s) ∨
  (∃ e s', get l s = (Err e, s') ∧ conn s' = conn s).
Proof. destruct (query_cases "read Odoo ledger row" (λ t, row_to_entry <$> List.find (by_line l) t) s); eauto. Qed.

Lemma forget_run l (s : Ledger) :
  (∃ s' : Ledger, forget l s = (Ok tt, s') ∧ conn s' = fst (sql_delete (by_line l) (conn s))) ∨
  (∃ e (s' : Ledger), forget l s = (Err e, s') ∧ conn s' = conn s).
Proof.
  unfold forget, mbind, M_bind.
  destruct (execute_cases ("ledger: forget line " +:+ z_to_string l) (sql_delete (by_line l)) s)
    as [(s1 & -> & Hc)|(s1 & -> & Hc)]; [left|right]; eauto.
Qed.

Lemma forget_keeps D p l s :
  (∀ r, In r (table s) → by_line l r = true → l_sent r = 0) →
  InvAt D p s → InvAt D p (snd (on_ledger (forget l) s)).
Proof.
  intros Hu HI. destruct HI as [[K S T A'] HD]. unfold on_ledger, zoom.
  destruct (forget_run l (ledger s)) as [(s1 & -> & Hc)|(e & s1 & -> & Hc)]; (split; [|done]).
  - assert (line_evolves (confirmed D) (table s) (conn s1)) as [K' S' T'].
    { rewrite Hc. by apply evolves_delete_unsent. }
    split; simpl; [auto| | |done].
    + intros k. etrans; [apply S|]. by apply Nat.add_le_mono_l, S'.
    + rewrite HD. apply T'. by rewrite <- HD.
  - split; simpl; [by rewrite Hc| |by rewrite Hc|done]. intros k. by rewrite Hc.
Qed.

Lemma handle_known_line_keeps D p l : respects (keeps (InvAt D p)) (handle_known_line l).
Proof.
  intros s HI. unfold handle_known_line. unfold mbind at 1. unfold M_bind at 1. unfold on_ledger at 1, zoom.
  destruct (get_run l (ledger s)) as [(s1 & -> & Hc)|(e & s1 & -> & Hc)].
  2:{ destruct HI as [[K S T A'] HD]. by split; [split|]; simpl; rewrite ?Hc. }
  assert (InvAt D p (set_ledger s1 s)) as HI1.
  { destruct HI as [[K S T A'] HD]. by split; [split|]; simpl; rewrite ?Hc. }
  destruct (List.find (by_line l) (table s)) as [r|] eqn:Ef; simpl; [|done].
  apply find_of_line in Ef as [Hr Hl].
  assert (∀ b, respects (keeps (InvAt D p))
    (_ ← on_ledger (record_result b l 0 (Some INTERRUPTED_REASON)); mret true : SrcM bool)) as Hrec.
  { intros b. apply respects_bind; [apply _| |intros; apply respects_ret; apply _].
    apply on_ledger_keeps, record_result_evolves. done. }
  assert (respects (keeps (InvAt D p)) (_ ← on_ledger (reopen_ack l); mret true : SrcM bool)) as Hre.
  { apply respects_bind; [apply _| |intros; apply respects_ret; apply _].
    apply on_ledger_keeps, reopen_ack_lines. }
  destruct (l_state r =t? "sending"); [by apply Hrec|].
  destruct (l_sent r =? 0) eqn:Es; simpl; destruct (ack_state _ _); try done; try (by apply Hre);
    (assert (InvAt D p (snd (on_ledger (forget l) (set_ledger s1 s)))) as HF by
      (apply forget_keeps; [|done]; simpl; rewrite Hc; intros r' Hr' E%by_line_true;
       assert (r' = r) as -> by (destruct HI as [[K _ _ _] _]; by eapply unique_row; [..|congruence]);
       by apply Z.eqb_eq);
     unfold mbind, M_bind; by destruct (on_ledger (forget l) _) as [[]]).
Qed.

(** ** A document is spooled once its lines are recorded *)

Lemma spooled_in_app D d l :
  spooled_in (D ++ [d]) l = (spooled_in D l + count (line_of l) (sp_lines d))%nat.
Proof.
  unfold spooled_in. rewrite map_app, join_app. simpl. rewrite app_nil_r. by rewrite count_app.
Qed.
Lemma confirmed_app D d l q : confirmed D l q → confirmed (D ++ [d]) l q.
Proof. intros (e & He & Hx). exists e. split; [|done]. apply in_or_app. by left. Qed.

Lemma count_line ls l :
  NoDup (map pl_line_id ls) →
  count (line_of l) (map line_and_qty ls) = if bool_decide (l ∈ map pl_line_id ls) then 1%nat else 0%nat.
Proof.
  intros Hnd. induction ls as [|x ls IH]; simpl; [done|]. simpl in Hnd. apply NoDup_cons in Hnd as [Hn Hnd].
  specialize (IH Hnd). unfold count, line_of in *. simpl. destruct (Z.eqb_spec (pl_line_id x) l) as [<-|Hne].
  - simpl. rewrite IH. rewrite bool_decide_false by done. by rewrite bool_decide_true by left.
  - rewrite IH. erewrite bool_decide_ext; [done|]. rewrite elem_of_cons. intuition congruence.
Qed.

Lemma sent_sending b now ls l : l ∈ ls → (1 ≤ sent l (map (sending_row b now) ls))%nat.
Proof.
  unfold sent, count. induction 1; simpl; unfold sent_row at 1, by_line; simpl.
  - rewrite Z.eqb_refl. simpl. lia.
  - destruct (_ =? _); simpl; lia.
Qed.


Lemma ids_sending b now ls : ids (map (sending_row b now) ls) = ls.
Proof. unfold ids. rewrite map_map. apply map_id. Qed.
Lemma count_nil l : count (line_of l) [] = 0%nat.
Proof. done. Qed.

(** The lines just recorded as [sending] are one spool ahead. *)
Definition Ahead (D : list Spooled) p (ls : list Z) (s : Source) : Prop :=
  InvAt D p s ∧ ∀ l, l ∈ ls → (spooled_in D l < p l + sent l (table s))%nat.

Lemma mark_sending_keeps D p b ls s :
  InvAt D p s →
  match on_ledger (mark_sending b ls) s with
  | (Ok _, s') => NoDup ls ∧ Ahead D p ls s'
  | (Err _, s') => InvAt D p s'
  end.
Proof.
  intros [[K S T A'] HD]. unfold on_ledger, zoom.
  destruct (mark_sending_run b ls (ledger s)) as [(now & l & -> & Hc & Hnd & Hnew)|(e & l & -> & Hc)].
  - split; [done|]. split; [split; [|done]|].
    + split; simpl; rewrite ?Hc; [| | |done].
      * unfold ids in *. rewrite map_app. apply NoDup_app. split; [done|].
        fold (ids (map (sending_row b now) ls)). rewrite ids_sending. split; [|done].
        intros x Hx Hin. by apply (Hnew x).
      * intros k. unfold sent. rewrite count_app. specialize (S k). unfold sent in S. lia.
      * apply Forall_app. split; [done|]. apply Forall_map, Forall_true. by intros x.
    + simpl. intros k Hk. rewrite Hc. unfold sent. rewrite count_app. fold (sent k (table s)).
      fold (sent k (map (sending_row b now) ls)). specialize (S k). rewrite HD in S.
      rewrite (sent_new k) in * by auto. pose proof (sent_sending b now ls k Hk). lia.
  - split; [|done]. split; simpl; rewrite ?Hc; auto.
Qed.

Lemma log_document_keeps D p b ls doc r s :
  NoDup (map pl_line_id ls) → Ahead D p (map pl_line_id ls) s →
  let d := mkSpooled b (map line_and_qty ls) doc r in
  InvAt (D ++ [d]) p (set_documents (documents s ++ [d]) s).
Proof.
  intros Hnd [[[K S T A'] HD] Hlt]. rewrite HD in *. split; [|done]. split; simpl; [done| | |].
  - intros l. rewrite spooled_in_app. simpl. rewrite count_line by done.
    case_bool_decide as Hin; [specialize (Hlt l Hin); lia|]. specialize (S l). lia.
  - eapply Forall_impl; [exact T|]. intros x Hx Ha Hb Hc. by apply confirmed_app, Hx.
  - intros l q Hq Hin. apply confirmed_app. auto.
Qed.

Lemma record_verdict_keeps D p b r l :
  (is_ok r = true → confirmed D (pl_line_id l) (pl_qty l)) →
  respects (keeps (InvAt D p)) (record_verdict b r l).
Proof.
  intros Hr. unfold record_verdict. apply on_ledger_keeps. destruct r; apply record_result_evolves; auto; done.
Qed.
Lemma record_verdicts_keep D p b r ls :
  (∀ l, In l ls → is_ok r = true → confirmed D (pl_line_id l) (pl_qty l)) →
  respects (keeps (InvAt D p)) (for_each ls (record_verdict b r)).
Proof.
  induction ls as [|l ls IH]; intros Hl; simpl; [apply respects_ret; apply _|].
  apply respects_bind; [apply _| |intros _; apply IH; intros; apply Hl; auto; by right].
  apply record_verdict_keeps. apply Hl. by left.
Qed.

Lemma on_runtime_sending D p ls {A} (m : CM A) : respects (keeps (Ahead D p ls)) (on_runtime m).
Proof.
  apply respects_map_err. intros s [[[K S T A'] HD] Hl]. unfold zoom. destruct (m (runtime s)).
  split; [by split; [split|]|done].
Qed.

Lemma keeps_at {A} p (m : SrcM A) :
  (∀ D, respects (keeps (InvAt D p)) m) → respects (keeps (Inv p)) m.
Proof. intros Hm s HI. apply (Hm (documents s)). by split. Qed.

(** Recorded, spooled, logged, recorded: in this order, whatever fails. *)
Lemma print_batch_keeps p b ls g : respects (keeps (Inv p)) (print_batch backend print_timeout b ls g).
Proof.
  intros s HI. unfold print_batch. cbv zeta. unfold mbind at 1. unfold M_bind at 1.
  pose proof (mark_sending_keeps (documents s) p b (map pl_line_id ls) s (conj HI eq_refl)) as Hm.
  destruct (on_ledger (mark_sending b (map pl_line_id ls)) s) as [[[]|e] s1]; [|by destruct Hm].
  destruct Hm as [Hnd Hs1]. unfold mbind at 1. unfold M_bind at 1.
  set (s2 := set_roll (roll_of g) s1). assert (Ahead (documents s) p (map pl_line_id ls) s2) as Hs2.
  { destruct Hs1 as [[[K S T A'] HD] Hl]. split; [by split; [split|]|done]. }
  cbn [modify]. unfold mbind at 1. unfold M_bind at 1. cbn [gets id]. fold s2.
  unfold mbind at 1. unfold M_bind at 1.
  match goal with |- context [on_runtime ?m s2] => pose proof (on_runtime_sending (documents s) p (map pl_line_id ls) m s2 Hs2) as Hr;
    destruct (on_runtime m s2) as [[r|e] s3] end; simpl in Hr; [|by destruct Hr as [[? _] _]].
  unfold mbind at 1. unfold M_bind at 1. unfold log_document at 1, modify.
  match goal with |- context [build_document g ?x] => set (doc := build_document g x) end.
  set (d := mkSpooled b (map line_and_qty ls) doc r).
  pose proof (log_document_keeps (documents s) p b ls doc r s3 Hnd Hr) as Hlog. cbv zeta in Hlog. fold d in Hlog.
  set (s4 := set_documents _ s3) in *.
  assert (respects (keeps (InvAt (documents s ++ [d]) p))
    (_ ← for_each ls (record_verdict b r);
     set_status b (batch_summary (Z.of_nat (length ls)) (as_i64 (foldr Z.add 0 (map pl_qty ls))) r))) as Hrest.
  { apply respects_bind; [apply _| |intros; apply set_status_keeps]. apply record_verdicts_keep.
    intros l Hl Hok. exists d. split; [by apply in_or_app; right; left|]. split; [done|].
    apply in_map_iff. by exists l. }
  by destruct (Hrest s4 Hlog).
Qed.

Lemma reject_keeps D p b l e r : respects (keeps (InvAt D p)) (reject b l e r).
Proof.
  unfold reject. apply respects_bind; [apply _| |intros; apply respects_ret; apply _].
  apply on_ledger_keeps, record_result_evolves. done.
Qed.
Lemma handle_invalid_keeps D p b bad r : respects (keeps (InvAt D p)) (handle_invalid b bad r).
Proof.
  unfold handle_invalid. destruct (bad_line_id bad) as [l|]; [|apply respects_ret; apply _].
  case_bool_decide; [apply respects_ret; apply _|]. cbv zeta.
  apply respects_bind; [apply _|apply handle_known_line_keeps|]. intros [].
  - apply respects_ret; apply _.
  - apply reject_keeps.
Qed.
Lemma handle_line_keeps D p b g line r : respects (keeps (InvAt D p)) (handle_line b g line r).
Proof.
  unfold handle_line. cbv zeta. case_bool_decide; [apply respects_ret; apply _|].
  apply respects_bind; [apply _|apply handle_known_line_keeps|]. intros [].
  - apply respects_ret; apply _.
  - repeat case_match; try apply reject_keeps. apply respects_ret; apply _.
Qed.
Lemma finish_unprinted_keeps D p b r : respects (keeps (InvAt D p)) (finish_unprinted b r).
Proof.
  unfold finish_unprinted. destruct (rejected r =? 0);
    (apply respects_bind; [apply _|apply set_status_keeps|intros; apply respects_ret; apply _]).
Qed.

Lemma handle_batch_keeps p b batch :
  respects (keeps (Inv p)) (handle_batch cfg backend print_timeout b batch).
Proof.
  unfold handle_batch. cbv zeta. apply respects_bind; [apply _| |intros r].
  { apply respects_fold_m; [apply _|]. intros. apply keeps_at. intros. apply handle_invalid_keeps. }
  apply respects_bind; [apply _| |intros r2].
  { apply respects_fold_m; [apply _|]. intros. apply keeps_at. intros. apply handle_line_keeps. }
  destruct (batch_geometry _ _); [|apply keeps_at; intros; apply finish_unprinted_keeps].
  destruct (printable r2); [apply keeps_at; intros; apply finish_unprinted_keeps|].
  apply respects_bind; [apply _|apply print_batch_keeps|intros; apply respects_ret; apply _].
Qed.

Lemma next_keeps D p : respects (keeps (InvAt D p)) next.
Proof.
  unfold next. apply respects_bind; [apply _| |intros; apply respects_ret; apply _].
  by apply call_keeps.
Qed.
Lemma heartbeat_keeps D p hb : respects (keeps (InvAt D p)) (heartbeat hb).
Proof. by apply call_keeps. Qed.

Lemma poll_once_keeps p : respects (keeps (Inv p)) (poll_once cfg backend print_timeout).
Proof.
  assert (respects (keeps (Inv p)) flush_acks) as Hf by (apply keeps_at; intros; apply flush_acks_keeps).
  unfold poll_once. apply respects_bind; [apply _|done|intros _].
  apply respects_bind; [apply _|apply keeps_at; intros; apply next_keeps|]. intros [batch|e].
  - apply respects_bind; [apply _| |].
    + unfold handle_next. destruct (batch_id batch); [|apply respects_ret; apply _].
      destruct (has_lines batch); [apply handle_batch_keeps|apply respects_ret; apply _].
    + intros o. apply respects_bind; [apply _|done|]. intros. apply respects_ret; apply _.
  - apply respects_throw; apply _.
Qed.

(** ** The start of a process *)

Lemma prune_run (s : Ledger) :
  (∃ f, conn (snd (prune s)) = List.filter f (conn s)).
Proof.
  unfold prune. unfold mbind, M_bind. rewrite utc_now_run. set (s0 := mkDb _ _ _ _).
  match goal with |- context [execute ?c ?st s0] => destruct (execute_cases c st s0) as [(s1 & -> & Hc)|(s1 & -> & Hc)] end.
  - eexists. exact Hc.
  - exists (λ _, true). trans (conn s); [exact Hc|]. induction (conn s) as [|r t IH]; simpl; by rewrite <- ?IH.
Qed.

(** What pruning at a start took away, added to [pruned]. *)
Definition pruned_by (s s' : Source) (pruned : Z → nat) (l : Z) : nat :=
  (pruned l + (sent l (table s) - sent l (table s')))%nat.

Lemma start_keeps p s : Inv p s → Inv (pruned_by s (snd (start cfg s)) p) (snd (start cfg s)).
Proof.
  intros HI. set (s' := snd (start cfg s)).
  assert (NoDup (ids (table s')) ∧ Forall (true_row (confirmed (documents s'))) (table s') ∧
          documents s' = documents s ∧ calls s' = calls s) as (K & T & HD & HC).
  { assert (InvAt (documents s) p (OdooSource_new cfg s)) as HI1.
    { destruct HI as [K S T A']. by split; [split|]. }
    unfold s', start, mbind, M_bind, modify.
    pose proof (on_ledger_keeps (documents s) p recover_interrupted (recover_interrupted_evolves _) _ HI1) as HI2.
    assert (calls (snd (on_ledger recover_interrupted (OdooSource_new cfg s))) = calls s) as Hc.
    { unfold on_ledger, zoom. by destruct (recover_interrupted _). }
    destruct (on_ledger recover_interrupted (OdooSource_new cfg s)) as [[u|e] s1]; simpl in *.
    - unfold attempt, on_ledger, zoom. destruct (prune_run (ledger s1)) as (f & Hf).
      destruct (prune (ledger s1)) as [r l]. simpl in *. rewrite Hf.
      destruct HI2 as [[K S T _] HD]. split; [|split; [|by rewrite <- HD]].
      + unfold ids. clear -K. revert K. unfold ids.
        induction (table s1) as [|x t IH]; simpl; [done|]. intros [Hn Hnd]%NoDup_cons.
        destruct (f x); [|auto]. simpl. apply NoDup_cons. split; [|auto]. intros Hx.
        apply Hn, list_elem_of_In. apply list_elem_of_In, in_map_iff in Hx as (y & <- & [Hy _]%filter_In).
        by apply in_map.
      + rewrite Forall_forall in *. intros x Hx. apply T, list_elem_of_In. apply list_elem_of_In, filter_In in Hx.
        tauto.
    - destruct HI2 as [[K S T _] HD]. by rewrite <- HD. }
  split; [done| |done|].
  - intros l. rewrite HD. unfold pruned_by. pose proof (inv_spooled _ _ HI l). fold s'. lia.
  - intros l q Hq. rewrite HC, HD. by apply HI.
Qed.

(** ** The source as a transition system

    Polls, heartbeats, the rest of the client (the receiver's prints, the
    dashboard's choice of printer, the passing of time) and restarts in any
    order.  Odoo answers anything; the engine fails as its schedule says; a
    process that stops inside an operation is one whose engine fails from there
    on. *)
Inductive reachable : Source → (Z → nat) → Prop :=
| R_first s : table s = [] → documents s = [] → calls s = [] → reachable s (λ _, 0%nat)
| R_poll s p : reachable s p → reachable (snd (poll_once cfg backend print_timeout s)) p
| R_heartbeat s p version printer :
    reachable s p → reachable (snd (heartbeat (heartbeat_payload cfg version printer s) s)) p
| R_client s p c : reachable s p → reachable (set_runtime c s) p
| R_target s p printer : reachable s p → reachable (set_target printer s) p
| R_restart s p : reachable s p → let s' := snd (start cfg s) in reachable s' (pruned_by s s' p).

Lemma reachable_inv s p : reachable s p → Inv p s.
Proof.
  induction 1 as [s Ht Hd Hc|s p _ IH|s p v pr _ IH|s p c _ IH|s p pr _ IH|s p _ IH].
  - split; rewrite ?Ht, ?Hd, ?Hc; [constructor|done|constructor|done].
  - by apply poll_once_keeps.
  - by apply (heartbeat_keeps (documents s) p _ s).
  - by destruct IH.
  - by destruct IH.
  - by apply start_keeps.
Qed.

(** ** What the spooled documents are

    A document is read off its bytes: the set-up of the roll, then one block
    for each label - its picture and the number of its copies. *)

Definition line_end : string := of_chars [13; 10].
Definition label_block (label : PlacedLabel) (copies : Z) : bytes :=
  let b := bitmap label in
  as_bytes ("CLS" +:+ line_end)
  ++ (if (0 <? width b) && (0 <? height b) then
        as_bytes ("BITMAP " +:+ z_to_string (fst (bitmap_at (layout label))) +:+ ","
                  +:+ z_to_string (snd (bitmap_at (layout label))) +:+ ","
                  +:+ z_to_string (width_bytes b) +:+ "," +:+ z_to_string (height b) +:+ ",0,")
        ++ data b ++ as_bytes line_end
      else [])
  ++ as_bytes ("PRINT 1," +:+ z_to_string copies +:+ line_end).

(** Odoo offered [line], in a batch for the roll [g], when the calls [cs] were
    made. *)
Definition offered_batch (cs : list OdooCall) (batch : NextBatch) : Prop :=
  let ask := ("/food/print/next", VObject []) in
  ∃ past v, (past ++ [ask]) `prefix_of` cs ∧ reply past ask = Ok v ∧ parse_next v = Ok batch.
Definition offered_line (cs : list OdooCall) (g : LabelGeometry) (line : NextLine) : Prop :=
  ∃ batch, offered_batch cs batch ∧ In line (lines batch) ∧ batch_geometry cfg batch = Ok g.
(** A line and the picture its label prints: the one Odoo sent with it, placed
    on the roll. *)
Definition label_of_line (cs : list OdooCall) (g : LabelGeometry) (it : NextLine * PlacedLabel) : Prop :=
  offered_line cs g (fst it) ∧ 0 < print_qty (fst it) ∧
  decode_label (label_png_base64 (fst it)) g = Ok (snd it).
Definition written (g : LabelGeometry) (items : list (NextLine * PlacedLabel)) : bytes :=
  document_header g
  ++ concat (map (λ it, label_block (snd it) (Z.min (print_qty (fst it)) (2 ^ 32 - 1))) items).

Definition item_entry (it : NextLine * PlacedLabel) : Z * Z := (line_id (fst it), print_qty (fst it)).
Definition document_ok (cs : list OdooCall) (d : Spooled) : Prop :=
  ∃ g items, sp_document d = written g items ∧ sp_lines d = map item_entry items ∧
    Forall (label_of_line cs g) items.
Definition documents_ok (s : Source) : Prop := Forall (document_ok (calls s)) (documents s).

Lemma offered_more cs cs' batch : cs `prefix_of` cs' → offered_batch cs batch → offered_batch cs' batch.
Proof. intros Hp (past & v & Hc & Hr). exists past, v. split; [by etrans|done]. Qed.
Lemma document_ok_more cs cs' d : cs `prefix_of` cs' → document_ok cs d → document_ok cs' d.
Proof.
  intros Hp (g & items & Hd & Hl & Hi). exists g, items. split; [done|]. split; [done|].
  eapply Forall_impl; [exact Hi|]. intros it ((batch & Hb & Hin) & Hq). split; [|done].
  exists batch. split; [by eapply offered_more|done].
Qed.

(** Calls are only added, and the documents stay what they are. *)
Definition tells (s s' : Source) : Prop :=
  calls s `prefix_of` calls s' ∧ (documents_ok s → documents_ok s').
#[local] Instance tells_preorder : PreOrder tells.
Proof. split; [by split|]. intros s1 s2 s3 [K1 K2] [K3 K4]. split; [by etrans|auto]. Qed.

Lemma tells_same s s' : calls s' = calls s → documents s' = documents s → tells s s'.
Proof. intros Hc Hd. unfold tells, documents_ok. by rewrite Hc, Hd. Qed.
Lemma on_ledger_tells {A} (m : LM A) : respects tells (on_ledger m).
Proof. intros s. unfold on_ledger, zoom. destruct (m (ledger s)). by apply tells_same. Qed.
Lemma on_runtime_tells {A} (m : CM A) : respects tells (on_runtime m).
Proof. apply respects_map_err. intros s. unfold zoom. destruct (m (runtime s)). by apply tells_same. Qed.
Lemma modify_tells (f : Source → Source) :
  (∀ s, calls (f s) = calls s) → (∀ s, documents (f s) = documents s) →
  respects tells (modify f : SrcM unit).
Proof. intros Hc Hd. apply respects_modify. intros s. by apply tells_same. Qed.
Lemma call_tells path params : respects tells (call path params).
Proof.
  intros s. assert (calls s `prefix_of` calls s ++ [(path, params)]) as Hp by by eexists.
  split; [done|]. intros Hd. eapply Forall_impl; [exact Hd|]. intros d. by apply document_ok_more.
Qed.
Lemma set_status_tells b t : respects tells (set_status b t).
Proof. by apply modify_tells. Qed.
#[local] Hint Resolve on_ledger_tells on_runtime_tells call_tells set_status_tells : respects.

Lemma flush_acks_tells : respects tells flush_acks.
Proof. unfold flush_acks, settle_ack, ack. solve_respects. Qed.
Lemma handle_known_line_tells l : respects tells (handle_known_line l).
Proof. unfold handle_known_line. solve_respects. Qed.
#[local] Hint Resolve flush_acks_tells handle_known_line_tells : respects.
Lemma handle_invalid_tells b bad r : respects tells (handle_invalid b bad r).
Proof. unfold handle_invalid, reject. solve_respects. Qed.
Lemma handle_line_tells b g line r : respects tells (handle_line b g line r).
Proof. unfold handle_line, reject. cbv zeta. solve_respects. Qed.
Lemma finish_unprinted_tells b r : respects tells (finish_unprinted b r).
Proof. unfold finish_unprinted. solve_respects. Qed.

(** The labels collected for printing are those of lines of the batch. *)
Definition picked (batch : NextBatch) (ls : list PrintableLine) : Prop :=
  ∃ items, ls = map (λ it, mkPrintable (line_id (fst it)) (print_qty (fst it)) (snd it)) items ∧
    Forall (λ it, In (fst it) (lines batch) ∧ 0 < print_qty (fst it) ∧
              encode_line (batch_geometry cfg batch) (label_png_base64 (fst it)) = Ok (snd it)) items.

Lemma handle_invalid_picks b bad r s r' s' :
  handle_invalid b bad r s = (Ok r', s') → printable r' = printable r.
Proof.
  unfold handle_invalid. destruct (bad_line_id bad) as [l|]; [|by intros [= <- _]].
  case_bool_decide; [by intros [= <- _]|]. cbv zeta.
  intros ([] & s1 & _ & K1)%bind_ok; [by injection K1 as <- _|].
  unfold reject in K1. apply bind_ok in K1 as (? & ? & _ & K1). by injection K1 as <- _.
Qed.
Lemma handle_line_picks b batch line r s r' s' :
  In line (lines batch) → picked batch (printable r) →
  handle_line b (batch_geometry cfg batch) line r s = (Ok r', s') → picked batch (printable r').
Proof.
  intros Hin Hp. unfold handle_line. cbv zeta. case_bool_decide; [by intros [= <- _]|].
  assert (∀ e r0 s0, printable r0 = printable r → reject b (line_id line) e r0 s0 = (Ok r', s') →
            picked batch (printable r')) as Hr.
  { intros e r0 s0 E0 (? & ? & _ & K1)%bind_ok. injection K1 as <- _. simpl. by rewrite E0. }
  intros ([] & s1 & _ & K1)%bind_ok; [by injection K1 as <- _|].
  destruct (Z.ltb_spec (print_qty line) 0); [by eapply Hr in K1|].
  destruct (Z.eqb_spec (print_qty line) 0); [by eapply Hr in K1|].
  destruct (encode_line _ _) as [label|e] eqn:El; [|by eapply Hr in K1].
  injection K1 as <- _. destruct Hp as (items & Hl & Hi). exists (items ++ [(line, label)]).
  simpl. rewrite map_app, Hl. split; [done|]. apply Forall_app. split; [done|].
  constructor; [|done]. simpl. split; [done|]. split; [lia|done].
Qed.

Lemma fold_picks {X} (l : list X) (f : X → Round → SrcM Round) (P : Round → Prop) r s r' s' :
  (∀ x r s r' s', In x l → P r → f x r s = (Ok r', s') → P r') →
  P r → fold_m l f r s = (Ok r', s') → P r'.
Proof.
  intros Hf. revert r s. induction l as [|x l IH]; intros r s Hr; simpl; [by intros [= <- _]|].
  intros (r1 & s1 & K1 & K2)%bind_ok. eapply IH; [|eapply Hf|exact K2]; [|by left|exact Hr|exact K1].
  intros y r2 s2 r3 s3 Hy. apply Hf. by right.
Qed.

Lemma print_batch_tells b batch g ls s :
  offered_batch (calls s) batch → batch_geometry cfg batch = Ok g → picked batch ls →
  tells s (snd (print_batch backend print_timeout b ls g s)).
Proof.
  intros Hb Hg (items & -> & Hi).
  set (P := λ s0, offered_batch (calls s0) batch).
  assert (∀ {A} (m : SrcM A), respects tells m → respects (λ s1 s2, P s1 → tells s1 s2 ∧ P s2) m) as Hw.
  { intros A m Hm s1 K1. split; [apply Hm|]. eapply offered_more; [apply Hm|done]. }
  assert (PreOrder (λ s1 s2, P s1 → tells s1 s2 ∧ P s2)) as Hpre.
  { split; [by split|]. intros s1 s2 s3 K1 K2 K3. destruct (K1 K3) as [K4 K5].
    destruct (K2 K5) as [K6 K7]. split; [by etrans|done]. }
  enough (respects (λ s1 s2, P s1 → tells s1 s2 ∧ P s2)
            (print_batch backend print_timeout b
              (map (λ it, mkPrintable (line_id (fst it)) (print_qty (fst it)) (snd it)) items) g)) as He
    by by apply He.
  unfold print_batch. cbv zeta.
  apply respects_bind; [done|apply Hw, on_ledger_tells|intros _].
  apply respects_bind; [done|by apply Hw, modify_tells|intros _].
  apply respects_bind; [done|by apply Hw, respects_gets, _|intros s0].
  apply respects_bind; [done|apply Hw, on_runtime_tells|intros r].
  apply respects_bind; [done| |intros _].
  { intros s1 K1. assert (calls (snd (log_document b
      (map (λ it, mkPrintable (line_id (fst it)) (print_qty (fst it)) (snd it)) items)
      (build_document g (map (λ l, (pl_label l, u32_or_max (pl_qty l)))
        (map (λ it, mkPrintable (line_id (fst it)) (print_qty (fst it)) (snd it)) items))) r s1))
        = calls s1) as Hcs by done.
    split; [|by unfold P; rewrite Hcs]. split; [by rewrite Hcs|]. unfold documents_ok. rewrite Hcs.
    intros Hd. apply Forall_app. split; [done|]. constructor; [|done].
    exists g, items. simpl. split; [|split].
    - unfold written, build_document. rewrite !map_map. f_equal. f_equal. apply map_ext_in.
      intros it Hit. rewrite Forall_forall in Hi. destruct (Hi it) as (_ & Hq & _); [by apply list_elem_of_In|].
      simpl. unfold label_block, label_commands. do 2 f_equal.
      assert (u32_or_max (print_qty (fst it)) = Z.min (print_qty (fst it)) (2 ^ 32 - 1)) as ->; [|done].
      unfold u32_or_max. rewrite (proj2 (Z.leb_le _ _)) by lia.
      destruct (Z.ltb_spec (print_qty (fst it)) (2 ^ 32)); simpl; lia.
    - by rewrite map_map.
    - eapply Forall_impl; [exact Hi|]. intros it (Hin & Hq & He). split; [by exists batch|].
      split; [done|]. rewrite Hg in He. unfold encode_line in He.
      destruct (decode_label _ _); [by injection He as ->|done]. }
  apply Hw. apply respects_bind; [apply _| |intros; apply set_status_tells].
  apply respects_for_each; [apply _|]. intros x. unfold record_verdict. apply on_ledger_tells.
Qed.

Lemma handle_batch_tells b batch s :
  offered_batch (calls s) batch → tells s (snd (handle_batch cfg backend print_timeout b batch s)).
Proof.
  intros Hb. unfold handle_batch. cbv zeta. unfold mbind at 1, M_bind at 1.
  assert (∀ r, respects tells (fold_m (invalid batch) (handle_invalid b) r)) as K1
    by (intros; apply respects_fold_m; [apply _|intros; apply handle_invalid_tells]).
  assert (∀ r, respects tells (fold_m (lines_in_order batch) (handle_line b (batch_geometry cfg batch)) r)) as K2
    by (intros; apply respects_fold_m; [apply _|intros; apply handle_line_tells]).
  specialize (K1 (mkRound ∅ [] 0 0 0) s).
  destruct (fold_m (invalid batch) _ _ s) as [[r1|e] s1] eqn:E1; simpl in K1; [|done].
  apply (fold_picks _ _ (λ r, printable r = [])) in E1; [| |done].
  2: { intros x r s0 r' s' _ Hr Hx. apply handle_invalid_picks in Hx. congruence. }
  unfold mbind at 1, M_bind at 1. specialize (K2 r1 s1).
  destruct (fold_m (lines_in_order batch) _ _ s1) as [[r2|e] s2] eqn:E2; simpl in K2; [|by etrans].
  apply (fold_picks _ _ (λ r, picked batch (printable r))) in E2.
  - assert (tells s s2) as K3 by by etrans.
    assert (∀ s3, tells s2 s3 → tells s s3) as Hst by (intros; by etrans).
    destruct (batch_geometry cfg batch) as [g|e] eqn:Eg; [|by apply Hst, (finish_unprinted_tells b r2 s2)].
    destruct (printable r2) as [|x l] eqn:Ep; [by apply Hst, (finish_unprinted_tells b r2 s2)|]. rewrite <- Ep in *.
    apply Hst. unfold mbind, M_bind.
    assert (offered_batch (calls s2) batch) as Hb2 by (eapply offered_more; [apply K3|done]).
    pose proof (print_batch_tells b batch g (printable r2) s2 Hb2 Eg E2) as Ht.
    by destruct (print_batch _ _ _ _ _ s2) as [[u|e] s3].
  - intros x r s0 r' s' Hx Hr. apply handle_line_picks; [|done].
    eapply Permutation_in; [apply sort_rows_perm|exact Hx].
  - rewrite E1. by exists [].
Qed.

Lemma poll_once_tells : respects tells (poll_once cfg backend print_timeout).
Proof.
  intros s. unfold poll_once. unfold mbind at 1, M_bind at 1. pose proof (flush_acks_tells s) as K1.
  destruct (flush_acks s) as [[o|e] s1]; [|done]. simpl in K1.
  assert (∀ s2, tells s1 s2 → tells s s2) as Hst by (intros; by etrans). clear K1.
  apply Hst. clear Hst. unfold next. unfold mbind at 1, M_bind at 1.
  set (ask := ("/food/print/next", VObject [])).
  pose proof (call_tells "/food/print/next" (VObject []) s1) as K1. unfold call. unfold mbind at 1, M_bind at 1.
  unfold mret, M_ret. simpl snd in K1. set (s2 := set_calls _ s1) in *.
  assert (∀ s3, tells s2 s3 → tells s1 s3) as Hst by (intros; by etrans).
  fold ask. destruct (match reply (calls s1) ask with Ok v => parse_next v | Err e => Err e end) as [batch|e] eqn:Ea;
    [|apply Hst; reflexivity].
  assert (offered_batch (calls s2) batch) as Hb.
  { destruct (reply (calls s1) ask) as [v|] eqn:Er; [|done]. by exists (calls s1), v. }
  apply Hst. unfold mbind at 1, M_bind at 1.
  assert (tells s2 (snd (handle_next cfg backend print_timeout batch s2))) as Hn.
  { unfold handle_next. destruct (OdooPrint.batch_id batch) as [id|]; [|reflexivity].
    destruct (has_lines batch); [by apply handle_batch_tells|reflexivity]. }
  destruct (handle_next _ _ _ batch s2) as [[out|e] s3]; [|done]. simpl in Hn. etrans; [exact Hn|].
  assert (respects tells (owed ← flush_acks; mret (match out with
          | Idle => if 0 <? owed then AcksOwed owed else Idle | other => other end) : SrcM PollOutcome)) as Hr
    by solve_respects.
  apply Hr.
Qed.

Lemma start_tells : respects tells (start cfg).
Proof. unfold start. apply respects_bind; [apply _|by apply modify_tells|intros _]. solve_respects. Qed.

Lemma reachable_documents s p : reachable s p → documents_ok s.
Proof.
  induction 1 as [s Ht Hd Hc|s p _ IH|s p v pr _ IH|s p c _ IH|s p pr _ IH|s p _ IH].
  - unfold documents_ok. by rewrite Hd.
  - by apply poll_once_tells.
  - by apply (call_tells _ _ s).
  - exact IH.
  - exact IH.
  - by apply start_tells.
Qed.
End source.
