(* ===== verification/OdooPoll.v ===== *)
(** * A poll of the Odoo source while the engine works

    Total correctness: every operation of [OdooSource] returns, and what it
    leaves in the ledger line by line ([rows l t]: the rows of line [l]).  The
    loop of [handle_batch] is shown equal to the reference [printed_lines]. *)

From Stdlib Require Import ZArith String.
From stdpp Require Import gmap.
From S2P Require Import Prelude RustStd Text Floats Core Sqlite Queue Json Label.
From S2P Require Import PrintBackend Receiver OdooPrint OdooLedger OdooSource OdooTheory.
#[local] Open Scope Z_scope.

(** ** Rows of a line *)

Definition rows (l : Z) (t : Lines) : list LineRow := List.filter (by_line l) t.
(** The line has its verdict. *)
Definition row_done (l : Z) (t : Lines) : Prop := ∃ r, In r (rows l t) ∧ l_state r = "done".
Definition known_state (r : LineRow) : Prop := l_state r = "sending" ∨ l_state r = "done".
Record wf (t : Lines) : Prop := { wf_keys : NoDup (ids t); wf_states : Forall known_state t }.

(** Only line [l] changed. *)
Definition touches (l : Z) (t t' : Lines) : Prop := wf t' ∧ ∀ k, k ≠ l → rows k t' = rows k t.

Lemma in_rows l t r : In r (rows l t) ↔ In r t ∧ l_line_id r = l.
Proof. unfold rows. by rewrite filter_In, by_line_true. Qed.
Lemma rows_nil l t : rows l t = [] ↔ l ∉ ids t.
Proof. unfold rows. by rewrite filter_empty_existsb, new_line. Qed.
Lemma rows_app l t t' : rows l (t ++ t') = rows l t ++ rows l t'.
Proof. apply List.filter_app. Qed.
Lemma rows_update l p f t :
  (∀ r, l_line_id (f r) = l_line_id r) →
  rows l (fst (sql_update p f t)) = fst (sql_update p f (rows l t)).
Proof.
  intros Hf. unfold rows. simpl. induction t as [|r t IH]; simpl; [done|].
  assert (by_line l (if p r then f r else r) = by_line l r) as E.
  { destruct (p r); [|done]. unfold by_line. by rewrite Hf. }
  rewrite E. destruct (by_line l r); simpl; by rewrite IH.
Qed.
Lemma update_id p (f : LineRow → LineRow) t :
  (∀ r, In r t → p r = false) → fst (sql_update p f t) = t.
Proof.
  intros Hp. simpl. induction t as [|r t IH]; simpl; [done|].
  rewrite (Hp r (or_introl eq_refl)). rewrite IH; [done|]. intros x Hx. apply Hp. by right.
Qed.

Lemma touches_update l p f t :
  (∀ r, l_line_id (f r) = l_line_id r) → (∀ r, known_state r → known_state (f r)) →
  (∀ r, p r = true → l_line_id r = l) → wf t → touches l t (fst (sql_update p f t)).
Proof.
  intros Hid Hst Hp [K S]. split; [split|].
  - unfold ids. by rewrite sql_update_key.
  - rewrite Forall_forall in *. intros r' Hr'. apply list_elem_of_In in Hr'. simpl in Hr'.
    apply in_map_iff in Hr' as (r & <- & Hr). apply list_elem_of_In in Hr. destruct (p r); auto.
  - intros k Hk. rewrite rows_update by done. apply update_id. intros r Hr%in_rows.
    apply not_true_is_false. intros E%Hp. intuition congruence.
Qed.
Lemma touches_append l r t :
  l ∉ ids t → l_line_id r = l → known_state r → wf t → touches l t (t ++ [r]).
Proof.
  intros Hn Hr Hs [K S]. split; [split|].
  - unfold ids in *. rewrite map_app. apply NoDup_app. split; [done|]. split; [|apply NoDup_singleton].
    intros x Hx. simpl. rewrite Hr. by intros ->%list_elem_of_singleton.
  - apply Forall_app. split; [done|]. by constructor.
  - intros k Hk. rewrite rows_app. unfold rows at 2. simpl.
    destruct (by_line k r) eqn:E; [apply by_line_true in E; congruence|]. apply app_nil_r.
Qed.

Lemma row_done_update l p f t :
  (∀ r, l_line_id (f r) = l_line_id r) → (∀ r, l_state r = "done" → l_state (f r) = "done") →
  row_done l t → row_done l (fst (sql_update p f t)).
Proof.
  intros Hid Hst (r & Hr & Hd). exists (if p r then f r else r). split.
  - rewrite rows_update by done. simpl. apply in_map_iff. by exists r.
  - destruct (p r); auto.
Qed.
Lemma row_done_rows l t t' : rows l t' = rows l t → row_done l t → row_done l t'.
Proof. unfold row_done. by intros ->. Qed.

Lemma touches_trans l t t' t'' : touches l t t' → touches l t' t'' → touches l t t''.
Proof. intros [_ A] [W B]. split; [done|]. intros k Hk. by rewrite B, A. Qed.

(** A line that may be printed: never offered before, or rejected before any
    send and the rejection acked. *)
Definition fresh (l : Z) (t : Lines) : bool :=
  match row_to_entry <$> List.find (by_line l) t with
  | None => true
  | Some k =>
    match le_state k, le_sent k, le_ack k with
    | Done, false, (Accepted | Refused) => true
    | _, _, _ => false
    end
  end.
Lemma find_rows l t : List.find (by_line l) t = head (rows l t).
Proof. unfold rows. induction t as [|r t IH]; simpl; [done|]. by destruct (by_line l r). Qed.
Lemma fresh_rows l t t' : rows l t' = rows l t → fresh l t' = fresh l t.
Proof. unfold fresh. rewrite !find_rows. by intros ->. Qed.

(** ** The statements, on the tables *)

Definition recorded (b l q : Z) (e : option string) (now : string) (t : Lines) : Lines :=
  if existsb (by_line l) t then fst (sql_update (by_line l) (result_set q e now) t)
  else t ++ [{| l_line_id := l; l_batch_id := b; l_state := "done"; l_printed_qty := q; l_error := e;
                l_acked := 0; l_sent := 0; l_ack_note := None; l_created_at := now; l_updated_at := now |}].

Lemma recorded_touches b l q e now t : wf t → touches l t (recorded b l q e now t).
Proof.
  intros W. unfold recorded. destruct (existsb (by_line l) t) eqn:E.
  - apply touches_update; [done| |apply by_line_true|done]. by right.
  - apply touches_append; [by apply new_line|done|by right|done].
Qed.
Lemma recorded_done b l q e now t : row_done l (recorded b l q e now t).
Proof.
  unfold recorded. destruct (existsb (by_line l) t) eqn:E.
  - apply existsb_exists in E as (r & Hr & Hl). exists (result_set q e now r). split; [|done].
    apply in_rows. split; [|by apply by_line_true in Hl]. simpl. apply in_map_iff. exists r. by rewrite Hl.
  - eexists. split; [|shelve]. rewrite rows_app. apply in_or_app. right. unfold rows. simpl.
    rewrite (proj2 (by_line_true _ _)) by done. by left. Unshelve. done.
Qed.
Lemma recorded_rows b l q e now t k : wf t → row_done k t → row_done k (recorded b l q e now t).
Proof.
  intros W Hd. destruct (decide (k = l)) as [->|Hk]; [apply recorded_done|].
  eapply row_done_rows; [|done]. by apply recorded_touches.
Qed.

Definition acked_by (l : Z) (note now : string) (t : Lines) : Lines :=
  fst (sql_update (by_line l) (acked_set note now) t).
Definition reopened (l : Z) (t : Lines) : Lines :=
  fst (sql_update (λ r, by_line l r && (l_state r =t? "done")) owed_set t).
Definition forgotten (l : Z) (t : Lines) : Lines := fst (sql_delete (by_line l) t).

Lemma reopened_touches l t : wf t → touches l t (reopened l t).
Proof.
  intros W. apply touches_update; [done|done| |done]. intros r [Hl _]%andb_true_iff. by apply by_line_true.
Qed.
Lemma forgotten_rows l t : rows l (forgotten l t) = [].
Proof.
  unfold rows, forgotten. simpl. induction t as [|r t IH]; simpl; [done|].
  destruct (by_line l r) eqn:E; simpl; by rewrite ?E.
Qed.
Lemma forgotten_touches l t : wf t → touches l t (forgotten l t).
Proof.
  intros W. split.
  - destruct W as [K S]. split.
    + unfold ids, forgotten in *. simpl. clear S. induction t as [|r t IH]; simpl in *; [done|].
      apply NoDup_cons in K as [Hn K]. destruct (negb _); [|auto]. simpl. apply NoDup_cons. split; [|auto].
      intros Hx. apply Hn, list_elem_of_In. apply list_elem_of_In, in_map_iff in Hx as (x & <- & [Hx _]%filter_In).
      by apply in_map.
    + unfold forgotten. rewrite Forall_forall in *. intros r Hr. apply S, list_elem_of_In.
      apply list_elem_of_In in Hr. by apply filter_In in Hr as [Hr _].
  - intros k Hk. unfold rows, forgotten. simpl. clear W. induction t as [|r t IH]; simpl; [done|].
    destruct (by_line l r) eqn:E; simpl.
    + assert (by_line k r = false) as ->; [|done]. apply not_true_is_false. intros E'%by_line_true.
      apply by_line_true in E. congruence.
    + by destruct (by_line k r); rewrite IH.
Qed.

Section ledger.
Context `{Chrono}.
Implicit Types φ ψ : Lines → Prop.

Lemma hoare_timed {A} (f : DateTime → LM A) φ (ψ : A → Lines → Prop) :
  (∀ ts, hoare (good φ) (f ts) (λ a, good (ψ a))) →
  hoare (good φ) (utc_now ≫= f) (λ a, good (ψ a)).
Proof. intros Hf. eapply hoare_bind; [apply hoare_utc_now|]. done. Qed.

Lemma hoare_done_by ctx stmt φ ψ :
  (∀ t, φ t → ψ (fst (stmt t))) → hoare (good φ) (_ ← execute ctx stmt; mret tt : LM unit) (λ _, good ψ).
Proof.
  intros Hs. eapply hoare_bind with (Q := λ _, good ψ); [by apply hoare_execute|].
  intros _. by apply hoare_ret.
Qed.

Lemma hoare_recorded b l q e φ ψ :
  (∀ now t, φ t → ψ (recorded b l q e now t)) → hoare (good φ) (record_result b l q e) (λ _, good ψ).
Proof.
  intros Hs. apply hoare_timed. intros ts. apply hoare_done_by. intros t Ht.
  specialize (Hs (to_rfc3339 ts) t Ht). unfold recorded in Hs. by destruct (existsb (by_line l) t).
Qed.
Lemma hoare_mark_acked l n φ ψ :
  (∀ now t, φ t → ψ (acked_by l n now t)) → hoare (good φ) (mark_acked l n) (λ _, good ψ).
Proof. intros Hs. apply hoare_timed. intros ts. apply hoare_done_by. intros t Ht. by apply Hs. Qed.
Lemma hoare_reopen l φ ψ :
  (∀ t, φ t → ψ (reopened l t)) → hoare (good φ) (reopen_ack l) (λ _, good ψ).
Proof. intros Hs. by apply hoare_done_by. Qed.
Lemma hoare_forget l φ ψ :
  (∀ t, φ t → ψ (forgotten l t)) → hoare (good φ) (forget l) (λ _, good ψ).
Proof. intros Hs. by apply hoare_done_by. Qed.
Lemma hoare_get l φ (ψ : option LedgerEntry → Lines → Prop) :
  (∀ t, φ t → ψ (row_to_entry <$> List.find (by_line l) t) t) → hoare (good φ) (get l) (λ k, good (ψ k)).
Proof. apply hoare_query. Qed.
Lemma hoare_pending φ (ψ : list LedgerEntry → Lines → Prop) :
  (∀ t, φ t → ψ (map row_to_entry (sort_rows batch_line_leb (List.filter owes_ack t))) t) →
  hoare (good φ) pending_acks (λ es, good (ψ es)).
Proof. apply hoare_prepared. Qed.

(** New lines, each once, are recorded as [sending]. *)
Lemma insert_all_good b now ls (s : Ledger) :
  quiet s → NoDup ls → (∀ l, l ∈ ls → l ∉ ids (conn s)) →
  for_each ls (λ l, _ ← execute_checked ("ledger: line " +:+ z_to_string l +:+ " already recorded")
                          (insert_sending b l now); mret tt) s
  = (Ok tt, with_conn s (conn s ++ map (sending_row b now) ls)).
Proof.
  intros Hq. revert s Hq. induction ls as [|l ls IH]; intros s Hq Hnd Hnew; simpl.
  - rewrite app_nil_r. by destruct s.
  - apply NoDup_cons in Hnd as [Hn Hnd].
    assert ((_ ← execute_checked ("ledger: line " +:+ z_to_string l +:+ " already recorded")
              (insert_sending b l now); mret tt) s
            = (Ok tt, with_conn s (conn s ++ [sending_row b now l])) :> (result string unit * Ledger)) as E.
    { unfold execute_checked, mbind, M_bind. rewrite engine_quiet by done. simpl. unfold insert_sending.
      rewrite (proj2 (new_line l (conn s))) by (apply Hnew; by left). done. }
    erewrite run_bind by exact E. rewrite IH; [| done|done|].
    + unfold with_conn. simpl. by rewrite <- app_assoc.
    + simpl. intros k Hk Hin. unfold ids in Hin. rewrite map_app in Hin.
      apply elem_of_app in Hin as [Hin|Hin]; [by apply (Hnew k); [right|]|].
      simpl in Hin. apply list_elem_of_singleton in Hin as ->. done.
Qed.

Lemma hoare_mark_sending b ls φ ψ :
  NoDup ls → (∀ t, φ t → ∀ l, l ∈ ls → l ∉ ids t) →
  (∀ now t, φ t → ψ (t ++ map (sending_row b now) ls)) →
  hoare (good φ) (mark_sending b ls) (λ _, good ψ).
Proof.
  intros Hnd Hnew Hs. apply hoare_timed. intros ts s [Hq Hφ]. exists tt.
  exists (with_conn s (conn s ++ map (sending_row b (to_rfc3339 ts)) ls)).
  split; [|by split; [|apply Hs]]. unfold transaction. unfold mbind at 1. unfold M_bind at 1.
  rewrite engine_quiet by done. unfold in_transaction. unfold mbind at 1. unfold M_bind at 1.
  rewrite insert_all_good by auto. unfold commit, mbind, M_bind. by rewrite engine_quiet.
Qed.
End ledger.

(** ** Spooling returns *)

Definition returns {St E A} (m : M St E A) : Prop := ∀ s, ∃ a s', m s = (Ok a, s').
Create HintDb returns.

Lemma returns_ret {St E A} (a : A) : returns (mret a : M St E A).
Proof. intros s. by exists a, s. Qed.
Lemma returns_gets {St E A} (f : St → A) : returns (gets f : M St E A).
Proof. intros s. by exists (f s), s. Qed.
Lemma returns_modify {St E} (f : St → St) : returns (modify f : M St E unit).
Proof. intros s. by exists tt, (f s). Qed.
Lemma returns_bind {St E A B} (m : M St E A) (f : A → M St E B) :
  returns m → (∀ a, returns (f a)) → returns (m ≫= f).
Proof.
  intros Hm Hf s. destruct (Hm s) as (a & s1 & E1). destruct (Hf a s1) as (b & s2 & E2).
  exists b, s2. unfold mbind, M_bind. by rewrite E1.
Qed.
Lemma returns_for_each {St E A} (l : list A) (f : A → M St E unit) :
  (∀ a, returns (f a)) → returns (for_each l f).
Proof. intros Hf. induction l as [|a l IH]; simpl; [apply returns_ret|]. apply returns_bind; auto. Qed.
Lemma returns_zoom {St T E A} get put (m : M T E A) :
  returns m → returns (zoom get put m : M St E A).
Proof. intros Hm s. unfold zoom. destruct (Hm (get s)) as (a & t & ->). eauto. Qed.
Lemma returns_map_err {St E E' A} (f : E → E') (m : M St E A) : returns m → returns (map_err f m).
Proof. intros Hm s. unfold map_err. destruct (Hm s) as (a & t & ->). eauto. Qed.
#[export] Hint Resolve returns_ret returns_gets returns_modify returns_bind returns_for_each returns_zoom
  returns_map_err : returns.

Section source.
Context `{Outside} `{!Link} `{JsonText} `{SerdeText} `{ImageCodecs} `{OdooServer} `{SpoolDir}.
Variables (cfg : OdooClientConfig) (backend : Backend) (print_timeout : Z).
Abbreviation table s := (conn (ledger s)).

Lemma returns_print_task timeout id m : returns (run_print_task_with_timeout timeout id m).
Proof.
  intros c. unfold run_print_task_with_timeout. unfold mbind at 1. unfold M_bind at 1. cbn [gets].
  cbv zeta. destruct (InFlightJobs.try_begin _ _); [|by eexists _, c].
  eexists _, _. reflexivity.
Qed.
Lemma returns_emit_ok id stage detail : returns (emit_ok id stage detail).
Proof. unfold emit_ok, emit. auto with returns. Qed.
Lemma returns_with_queue {A} (m : QM A) : returns (with_queue m).
Proof. unfold with_queue. auto with returns. Qed.
#[local] Hint Resolve returns_print_task returns_emit_ok returns_with_queue : returns.
Lemma returns_on_world {A} (m : PM A) : returns m → returns (on_world m).
Proof. unfold on_world. auto with returns. Qed.
#[local] Hint Resolve returns_on_world : returns.

Lemma returns_spool uuid printer b doc labels copies r :
  returns (spool_document backend print_timeout uuid printer b doc labels copies r).
Proof.
  assert (∀ l, returns (store_events l)) by (intros; unfold store_events; auto with returns).
  unfold spool_document. cbv zeta. destruct (create_dir_error _); [auto with returns|].
  destruct (fs_create_error _); [auto with returns|]. unfold print_spooled, fs_create, wait_persist.
  cbv zeta. repeat (apply returns_bind; [auto with returns|intros ?]). auto with returns.
Qed.

(** ** The source with [D] spooled and a working engine *)

Definition At (D : list Spooled) (φ : Lines → Prop) (s : Source) : Prop :=
  good φ (ledger s) ∧ documents s = D.

Lemma hoare_on_ledger {A} D (m : LM A) φ ψ :
  hoare (good φ) m (λ a, good (ψ a)) → hoare (At D φ) (on_ledger m) (λ a, At D (ψ a)).
Proof.
  intros Hm. by refine (hoare_zoom ledger set_ledger m (good φ) (λ s, documents s = D) (λ a, good (ψ a)) _ _ Hm).
Qed.
Lemma hoare_set_status D b t φ : hoare (At D φ) (set_status b t) (λ _, At D φ).
Proof. by apply hoare_modify. Qed.
Lemma hoare_call D path params φ : hoare (At D φ) (call path params)
  (λ r s, At D φ s ∧ ∃ past, r = reply past (path, params)).
Proof. intros s Hs. eexists _, _. split; [reflexivity|]. by split; [|exists (calls s)]. Qed.

(** [record_result] in the middle of a computation. *)
Lemma hoare_record_line D b l q e φ (ψ : Lines → Prop) :
  (∀ now t, φ t → ψ (recorded b l q e now t)) →
  hoare (At D φ) (on_ledger (record_result b l q e)) (λ _, At D ψ).
Proof. intros Hs. by apply (hoare_on_ledger D), hoare_recorded. Qed.

(** A known line is given its verdict, a fresh one is free for a new one. *)
Definition decided (l : Z) (t0 : Lines) (known : bool) (t : Lines) : Prop :=
  touches l t0 t ∧ known = negb (fresh l t0) ∧ if known then row_done l t else rows l t = [].

Lemma decided_same l t : wf t → fresh l t = false → row_done l t → decided l t true t.
Proof. intros W Hf Hd. split; [by split|]. by rewrite Hf. Qed.

Lemma find_known l t r :
  wf t → List.find (by_line l) t = Some r →
  In r (rows l t) ∧ known_state r ∧ ((l_state r =t? "sending") = false → row_done l t).
Proof.
  intros W E. apply find_of_line in E as [Hr Hl]. assert (In r (rows l t)) as Hin by by apply in_rows.
  assert (known_state r) as Hs.
  { destruct W as [_ S]. rewrite Forall_forall in S. by apply S, list_elem_of_In. }
  split; [done|]. split; [done|]. intros Hns%String.eqb_neq. exists r. by destruct Hs.
Qed.

Lemma hoare_known_line D l t0 :
  wf t0 → hoare (At D (λ t, t = t0)) (handle_known_line l) (λ known, At D (decided l t0 known)).
Proof.
  intros W. unfold handle_known_line.
  eapply hoare_bind with (Q := λ k, At D (λ t, t = t0 ∧ k = row_to_entry <$> List.find (by_line l) t0)).
  { apply hoare_on_ledger, hoare_get. by intros t ->. }
  intros k. eapply hoare_conseq with (P' := λ s, k = row_to_entry <$> List.find (by_line l) t0 ∧ At D (λ t, t = t0) s);
    [|by intros s [[Hq [Ht Hk]] Hd]|intros a s Hx; exact Hx].
  apply hoare_pure. intros ->.
  destruct (List.find (by_line l) t0) as [r|] eqn:Ef; simpl.
  2:{ apply hoare_ret. intros s [[Hq Ht] Hd]. split; [|done]. split; [done|]. rewrite Ht. split; [by split|].
      unfold fresh. rewrite Ef. split; [done|]. by rewrite find_rows in Ef; destruct (rows l t0). }
  destruct (find_known l t0 r W Ef) as (Hin & Hks & Hdone).
  assert (fresh l t0 = match (if l_state r =t? "sending" then Sending else Done), negb (l_sent r =? 0),
    ack_state (negb (l_acked r =? 0)) (l_ack_note r) with Done, false, (Accepted | Refused) => true | _, _, _ => false end)
    as Hf by (unfold fresh; by rewrite Ef).
  assert (fresh l t0 = false → (l_state r =t? "sending") = false →
    hoare (At D (λ t, t = t0)) (_ ← on_ledger (reopen_ack l); mret true) (λ known, At D (decided l t0 known))) as Hre.
  { intros Hf' Hns. eapply hoare_bind with (Q := λ _, At D (decided l t0 true)); [|intros; by apply hoare_ret].
    apply hoare_on_ledger, hoare_reopen. intros t ->. split; [by apply reopened_touches|]. rewrite Hf'.
    split; [done|]. apply row_done_update; [done|done|auto]. }
  destruct (l_state r =t? "sending") eqn:Es.
  - eapply hoare_bind with (Q := λ _, At D (decided l t0 true)); [|intros; by apply hoare_ret].
    apply hoare_record_line. intros now t ->. split; [by apply recorded_touches|]. rewrite Hf.
    split; [done|]. apply recorded_done.
  - destruct (negb (l_sent r =? 0)), (ack_state _ _); simpl in Hf;
      try (apply Hre; done);
      try (apply hoare_ret; intros s [[Hq Ht] Hd]; split; [|done]; split; [done|]; rewrite Ht;
           apply decided_same; auto; fail);
      (eapply hoare_bind with (Q := λ _, At D (decided l t0 false)); [|intros; by apply hoare_ret];
       apply hoare_on_ledger, hoare_forget; intros t ->; split; [by apply forgotten_touches|];
       rewrite Hf; split; [done|]; apply forgotten_rows).
Qed.

(** ** The loop over a batch, against its reference *)

(** The offers of a line, the first of each. *)
Fixpoint first_offers (seen_ : gset Z) (ls : list NextLine) : list NextLine :=
  match ls with
  | [] => []
  | x :: ls =>
    if bool_decide (line_id x ∈ seen_) then first_offers seen_ ls
    else x :: first_offers ({[line_id x]} ∪ seen_) ls
  end.
Definition to_print (g : result string LabelGeometry) (t : Lines) (line : NextLine) : option PrintableLine :=
  if fresh (line_id line) t && (0 <? print_qty line) then
    match encode_line g (label_png_base64 line) with
    | Ok label => Some (mkPrintable (line_id line) (print_qty line) label)
    | Err _ => None
    end
  else None.
Definition invalid_ids (batch : NextBatch) : list Z := omap bad_line_id (invalid batch).
(** What a batch prints on the ledger [t]: of its lines in order, each at its
    first offer and not reported invalid, the fresh ones with labels to print
    that can be encoded. *)
Definition printed_lines (batch : NextBatch) (t : Lines) : list PrintableLine :=
  omap (to_print (batch_geometry cfg batch) t)
    (first_offers (list_to_set (invalid_ids batch)) (lines_in_order batch)).

Definition pids (r : Round) : list Z := map pl_line_id (printable r).
Record RInv (t0 : Lines) (r : Round) (t : Lines) : Prop := {
  ri_wf : wf t;
  ri_once : NoDup (pids r);
  ri_sub : ∀ l, l ∈ pids r → l ∈ seen r;
  ri_free : ∀ l, l ∈ pids r → rows l t = [];
  ri_done : ∀ l, l ∈ seen r → l ∉ pids r → row_done l t;
  ri_rest : ∀ l, l ∉ seen r → rows l t = rows l t0;
}.

Lemma rinv_done t0 r t id t' r' :
  RInv t0 r t → id ∉ seen r → touches id t t' → row_done id t' →
  seen r' = {[id]} ∪ seen r → printable r' = printable r → RInv t0 r' t'.
Proof.
  intros [W O S F D R] Hid [W' Ht] Hd Hs Hp. unfold pids in *.
  assert (∀ l, l ∈ seen r → rows l t' = rows l t) as Hold by (intros l Hl; apply Ht; congruence).
  split; [done|unfold pids; by rewrite Hp| | | |]; unfold pids; rewrite ?Hp, ?Hs.
  - set_solver.
  - intros l Hl. rewrite Hold by auto. auto.
  - intros l [->%elem_of_singleton | Hl]%elem_of_union Hn; [done|]. eapply row_done_rows; [by apply Hold|auto].
  - intros l Hl. rewrite Ht by set_solver. apply R. set_solver.
Qed.
Lemma rinv_push t0 r t l t' :
  RInv t0 r t → pl_line_id l ∉ seen r → touches (pl_line_id l) t t' → rows (pl_line_id l) t' = [] →
  RInv t0 (push_printable l (see (pl_line_id l) r)) t'.
Proof.
  intros [W O S F D R] Hid [W' Ht] Hd.
  assert (∀ k, k ∈ seen r → rows k t' = rows k t) as Hold by (intros k Hk; apply Ht; congruence).
  split; simpl; [done| | | | |]; unfold pids in *; simpl; rewrite ?map_app; simpl.
  - apply NoDup_app. split; [done|]. split; [|apply NoDup_singleton]. intros x Hx ->%list_elem_of_singleton. auto.
  - intros k [Hk| ->%list_elem_of_singleton]%elem_of_app; set_solver.
  - intros k [Hk| ->%list_elem_of_singleton]%elem_of_app; [|done]. rewrite Hold by auto. auto.
  - intros k Hk Hn. rewrite elem_of_app, list_elem_of_singleton in Hn. apply elem_of_union in Hk as [Hk|Hk].
    + apply elem_of_singleton in Hk as ->. tauto.
    + eapply row_done_rows; [by apply Hold|]. apply D; tauto.
  - intros k Hk. rewrite Ht by set_solver. apply R. set_solver.
Qed.

Lemma hoare_at {A} D φ (m : SrcM A) Q :
  (∀ t, φ t → hoare (At D (λ t', t' = t)) m Q) → hoare (At D φ) m Q.
Proof. intros Hm s [[Hq Hφ] Hd]. by apply (Hm _ Hφ). Qed.

Lemma at_eq D φ t s : At D (λ t', t' = t) s → φ t → At D φ s.
Proof. intros [[Hq Ht] HD] Hφ. split; [|done]. split; [done|]. by rewrite Ht. Qed.

(** A verdict without printing for a line that the ledger left free. *)
Lemma hoare_reject D b l e r t0 t :
  RInv t0 r t → l ∉ seen r → ∀ ta, decided l t false ta →
  hoare (At D (λ t', t' = ta)) (reject b l e (see l r))
    (λ r', At D (λ t', RInv t0 r' t' ∧ seen r' = {[l]} ∪ seen r ∧ printable r' = printable r)).
Proof.
  intros HR Hl ta ([Wa Hta] & _ & Hrows). unfold reject.
  eapply hoare_bind with (Q := λ _, At D (λ t', touches l t t' ∧ row_done l t')).
  - apply hoare_record_line. intros now t' ->. split; [|apply recorded_done].
    eapply touches_trans; [by split|by apply recorded_touches].
  - intros _. apply hoare_ret. intros s [[Hq [Ht Hd]] HD]. split; [|done]. split; [done|].
    split; [|done]. by eapply rinv_done.
Qed.

Lemma hoare_line D b g line r t0 :
  hoare (At D (RInv t0 r)) (handle_line b g line r) (λ r', At D (λ t, RInv t0 r' t ∧
    seen r' = {[line_id line]} ∪ seen r ∧
    printable r' = printable r ++ (if bool_decide (line_id line ∈ seen r) then []
                                   else option_list (to_print g t0 line)))).
Proof.
  unfold handle_line. cbv zeta. case_bool_decide as Hid.
  { apply hoare_ret. intros s [[Hq HR] HD]. split; [|done]. split; [done|]. split; [done|]. rewrite app_nil_r.
    split; [set_solver|done]. }
  apply hoare_at. intros t HR.
  eapply hoare_bind with (Q := λ known, At D (decided (line_id line) t known)).
  { apply hoare_known_line. by destruct HR. }
  intros [].
  - apply hoare_ret. intros s [[Hq (Ht & Hf & Hd)] HD]. split; [|done]. split; [done|].
    assert (fresh (line_id line) t0 = false) as Hf0.
    { rewrite <- (fresh_rows _ t0 t) by by apply (ri_rest _ _ _ HR). by destruct (fresh _ t). }
    unfold to_print. rewrite Hf0. simpl. rewrite app_nil_r. split; [by eapply rinv_done|done].
  - apply hoare_at. intros ta Ha.
    assert (fresh (line_id line) t0 = true) as Hf0.
    { rewrite <- (fresh_rows _ t0 t) by by apply (ri_rest _ _ _ HR).
      destruct Ha as (_ & Hf & _). by destruct (fresh _ t). }
    assert (∀ e, hoare (At D (λ t', t' = ta)) (reject b (line_id line) e (see (line_id line) r))
      (λ r', At D (λ t', RInv t0 r' t' ∧ seen r' = {[line_id line]} ∪ seen r ∧ printable r' = printable r ++ []))) as Hrej.
    { intros e. rewrite app_nil_r. by eapply hoare_reject. }
    unfold to_print. rewrite Hf0. simpl. destruct (Z.ltb_spec (print_qty line) 0), (Z.ltb_spec 0 (print_qty line)); try lia.
    + apply Hrej.
    + rewrite (proj2 (Z.eqb_neq (print_qty line) 0)) by lia.
      destruct (encode_line g (label_png_base64 line)) as [label|ack]; [|apply Hrej].
      apply hoare_ret. intros s [[Hq Hta] HD]. split; [|done]. split; [done|]. rewrite Hta.
      split; [|done]. destruct Ha as (Ht & _ & Hr). by apply (rinv_push t0 r t (mkPrintable (line_id line) (print_qty line) label)).
    + rewrite (proj2 (Z.eqb_eq (print_qty line) 0)) by lia. apply Hrej.
Qed.

Lemma hoare_lines D b g ls t0 r :
  hoare (At D (RInv t0 r)) (fold_m ls (handle_line b g) r) (λ r', At D (λ t, RInv t0 r' t ∧
    seen r' = list_to_set (map line_id ls) ∪ seen r ∧
    printable r' = printable r ++ omap (to_print g t0) (first_offers (seen r) ls))).
Proof.
  revert r. induction ls as [|x ls IH]; intros r.
  - apply hoare_ret. intros s [[Hq HR] HD]. split; [|done]. split; [done|]. simpl. rewrite app_nil_r.
    split; [done|]. split; [set_solver|done].
  - eapply hoare_bind; [apply hoare_line|]. intros r1. apply hoare_at. intros t (HR & Hs & Hp).
    eapply hoare_conseq; [apply IH|intros s Hs0; by eapply at_eq|].
    intros r2 s [[Hq (HR2 & Hs2 & Hp2)] HD]. split; [|done]. split; [done|]. split; [done|].
    rewrite Hs2, Hp2, Hs, Hp. split; [set_solver|]. rewrite <- app_assoc. f_equal. simpl.
    case_bool_decide as Hin; simpl.
    + by rewrite subseteq_union_1_L by set_solver.
    + unfold to_print at 2. by destruct (to_print g t0 x) eqn:E; unfold to_print in E; rewrite ?E.
Qed.

(** Of a reported line: it gets a verdict, nothing is printed. *)
Lemma hoare_invalid D b bad r t0 :
  printable r = [] →
  hoare (At D (RInv t0 r)) (handle_invalid b bad r) (λ r', At D (λ t, RInv t0 r' t ∧
    seen r' = list_to_set (option_list (bad_line_id bad)) ∪ seen r ∧ printable r' = [])).
Proof.
  intros Hp. unfold handle_invalid. destruct (bad_line_id bad) as [l|]; simpl.
  2:{ apply hoare_ret. intros s [[Hq [W O S F D' R]] HD]. split; [|done]. split; [done|]. split; [by split|].
      split; [set_solver|done]. }
  case_bool_decide as Hid.
  { apply hoare_ret. intros s [[Hq HR] HD]. split; [|done]. split; [done|]. split; [done|]. split; [set_solver|done]. }
  apply hoare_at. intros t HR. eapply hoare_bind with (Q := λ known, At D (decided l t known)).
  { apply hoare_known_line. by destruct HR. }
  intros [].
  - apply hoare_ret. intros s [[Hq (Ht & Hf & Hd)] HD]. split; [|done]. split; [done|].
    split; [by eapply rinv_done|]. split; [set_solver|done].
  - apply hoare_at. intros ta Ha.
    eapply hoare_conseq; [by eapply (hoare_reject D b l)|done|].
    intros r' s [[Hq (HR' & Hs & Hp')] HD]. split; [|done]. split; [done|]. split; [done|].
    rewrite Hp', Hs. split; [set_solver|done].
Qed.
Lemma hoare_invalids D b bads t0 r :
  printable r = [] →
  hoare (At D (RInv t0 r)) (fold_m bads (handle_invalid b) r) (λ r', At D (λ t, RInv t0 r' t ∧
    seen r' = list_to_set (omap bad_line_id bads) ∪ seen r ∧ printable r' = [])).
Proof.
  revert r. induction bads as [|x bads IH]; intros r Hr.
  - apply hoare_ret. intros s [[Hq HR] HD]. split; [|done]. split; [done|]. split; [done|]. split; [set_solver|done].
  - eapply hoare_bind; [by apply hoare_invalid|]. intros r1. apply hoare_at. intros t (HR & Hs & Hp).
    eapply hoare_conseq; [by apply IH|intros s Hs0; by eapply at_eq|].
    intros r2 s [[Hq (HR2 & Hs2 & Hp2)] HD]. split; [|done]. split; [done|]. split; [done|].
    rewrite Hs2, Hs. split; [|done]. simpl. destruct (bad_line_id x); simpl; set_solver.
Qed.

(** ** Printing *)

Definition batch_document (b : Z) (ls : list PrintableLine) (g : LabelGeometry) (r : result string string) : Spooled :=
  mkSpooled b (map line_and_qty ls)
    (build_document g (map (λ l, (pl_label l, u32_or_max (pl_qty l))) ls)) r.

Lemma hoare_verdicts D b r ls φ :
  (∀ t, φ t → wf t) →
  hoare (At D φ) (for_each ls (record_verdict b r)) (λ _, At D (λ t, wf t ∧
    (∀ l, l ∈ map pl_line_id ls → row_done l t) ∧
    ∃ t0, φ t0 ∧ (∀ l, row_done l t0 → row_done l t) ∧ ∀ l, l ∉ map pl_line_id ls → rows l t = rows l t0)).
Proof.
  revert φ. induction ls as [|x ls IH]; intros φ Hφ.
  - apply hoare_ret. intros s [[Hq Ht] HD]. split; [|done]. split; [done|]. split; [auto|].
    split; [intros l Hl; by apply not_elem_of_nil in Hl|]. eauto.
  - set (φ' := λ t, wf t ∧ row_done (pl_line_id x) t ∧ ∃ t0, φ t0 ∧ (∀ l, row_done l t0 → row_done l t) ∧
                      ∀ l, l ≠ pl_line_id x → rows l t = rows l t0).
    eapply hoare_bind with (Q := λ _, At D φ').
    + unfold record_verdict. destruct r; apply hoare_record_line; intros now t Ht;
        (split; [apply recorded_touches; auto|]; split; [apply recorded_done|]; exists t; split; [done|];
         split; [intros l; apply recorded_rows; auto|]; apply recorded_touches; auto).
    + intros _. eapply hoare_conseq; [apply (IH φ'); by intros t []|done|].
      intros _ s [[Hq (W & Hd & t1 & (W1 & Hx & t0 & H0' & Hk & Hr0) & Hk1 & Hr1)] HD].
      split; [|done]. split; [done|]. split; [done|]. split.
      * intros l Hl. simpl in Hl. apply elem_of_cons in Hl as [->|Hl]; auto.
      * exists t0. split; [done|]. split; [auto|]. intros l Hl. simpl in Hl.
        rewrite not_elem_of_cons in Hl. destruct Hl. by rewrite Hr1, Hr0.
Qed.

Lemma hoare_print_batch D b ls g t0 :
  wf t0 → NoDup (map pl_line_id ls) → (∀ l, l ∈ map pl_line_id ls → rows l t0 = []) →
  hoare (At D (λ t, t = t0)) (print_batch backend print_timeout b ls g) (λ _ s,
    ∃ r, At (D ++ [batch_document b ls g r]) (λ t, wf t ∧
      (∀ l, l ∈ map pl_line_id ls → row_done l t) ∧ ∀ l, l ∉ map pl_line_id ls → rows l t = rows l t0) s).
Proof.
  intros W Hnd Hnew. unfold print_batch. cbv zeta.
  set (φ := λ t, wf t ∧ ∀ l, l ∉ map pl_line_id ls → rows l t = rows l t0).
  eapply hoare_bind with (Q := λ _, At D φ).
  { apply hoare_on_ledger, hoare_mark_sending; [done| |].
    - intros t -> l Hl. by apply rows_nil, Hnew.
    - intros now t ->. assert (∀ l, l ∈ ids (map (sending_row b now) (map pl_line_id ls)) → l ∈ map pl_line_id ls) as Hin.
      { intros l. by rewrite ids_sending. }
      split.
      + destruct W as [K S]. split.
        * unfold ids in *. rewrite map_app. apply NoDup_app. split; [done|].
          fold (ids (map (sending_row b now) (map pl_line_id ls))). rewrite ids_sending. split; [|done].
          intros l Hl Hl'. apply Hnew, rows_nil in Hl'. done.
        * apply Forall_app. split; [done|]. apply Forall_map, Forall_true. intros l. by left.
      + intros l Hl. rewrite rows_app. rewrite (proj2 (rows_nil l (map (sending_row b now) _))); [apply app_nil_r|].
        rewrite ids_sending. done. }
  intros _. eapply hoare_bind with (Q := λ _, At D φ); [by apply hoare_modify|].
  intros _. eapply hoare_bind with (Q := λ _, At D φ); [by apply hoare_gets|].
  intros s0. eapply hoare_bind with (Q := λ _, At D φ).
  { intros s [[Hq Hφ] HD]. unfold on_runtime, map_err, zoom.
    match goal with |- context [spool_document _ _ ?u ?p ?b ?d ?n ?c ?r (runtime s)] =>
      destruct (returns_spool u p b d n c r (runtime s)) as (a & c' & ->) end.
    eexists _, _. split; [reflexivity|]. by split. }
  intros r. eapply hoare_bind with (Q := λ _, At (D ++ [batch_document b ls g r]) φ).
  { apply hoare_modify. intros s [[Hq Hφ] HD]. split; [done|]. simpl. by rewrite HD. }
  intros _. eapply hoare_bind; [apply hoare_verdicts; by intros t []|].
  intros []. apply hoare_modify. intros s [[Hq (W' & Hd & t1 & [W1 H1'] & Hk & Hr)] HD]. exists r.
  split; [|done]. split; [done|]. split; [done|]. split; [done|]. intros l Hl. by rewrite Hr, H1'.
Qed.

(** ** A batch *)

Definition offered (batch : NextBatch) (l : Z) : Prop :=
  l ∈ invalid_ids batch ∨ l ∈ map line_id (lines batch).
(** The document of the batch: none, or one of all that is to print. *)
Definition batch_documents (b : Z) (batch : NextBatch) (t : Lines) (r : result string string) : list Spooled :=
  match batch_geometry cfg batch, printed_lines batch t with
  | Ok g, _ :: _ => [batch_document b (printed_lines batch t) g r]
  | _, _ => []
  end.

Lemma in_order_offered batch l :
  l ∈ (list_to_set (map line_id (lines_in_order batch)) ∪ (list_to_set (invalid_ids batch) ∪ ∅) : gset Z)
  ↔ offered batch l.
Proof.
  unfold offered, lines_in_order. rewrite !elem_of_union, !elem_of_list_to_set.
  assert (l ∈ map line_id (sort_rows (λ x y, sequence x <=? sequence y) (lines batch)) ↔ l ∈ map line_id (lines batch)) as ->.
  { rewrite !list_elem_of_In. split; apply Permutation_in, Permutation_map; [|symmetry]; apply sort_rows_perm. }
  set_solver.
Qed.
Lemma bad_geometry_prints_nothing batch t e :
  batch_geometry cfg batch = Err e → printed_lines batch t = [].
Proof.
  intros Hg. unfold printed_lines. rewrite Hg. induction (first_offers _ _) as [|x l IH]; simpl; [done|].
  unfold to_print at 1. simpl. by destruct (_ && _).
Qed.
Lemma hoare_unprinted D b r φ : hoare (At D φ) (finish_unprinted b r) (λ _, At D φ).
Proof.
  unfold finish_unprinted. destruct (rejected r =? 0);
    (eapply hoare_bind; [apply hoare_set_status|]; intros []; by apply hoare_ret).
Qed.

Lemma hoare_batch D b batch t0 :
  wf t0 →
  hoare (At D (λ t, t = t0)) (handle_batch cfg backend print_timeout b batch) (λ _ s,
    ∃ r, At (D ++ batch_documents b batch t0 r) (λ t, wf t ∧
      (∀ l, offered batch l → row_done l t) ∧ ∀ l, ¬ offered batch l → rows l t = rows l t0) s).
Proof.
  intros W. unfold handle_batch. cbv zeta.
  assert (RInv t0 (mkRound ∅ [] 0 0 0) t0) as H0'.
  { split; unfold pids; simpl; try done; try constructor; intros l Hl; by apply not_elem_of_nil in Hl. }
  eapply hoare_bind.
  { eapply hoare_conseq; [by apply (hoare_invalids D b (invalid batch) t0)| |intros a s Ha; exact Ha].
    intros s Hs. by eapply at_eq. }
  intros r1. apply hoare_at. intros t1 (HR1 & Hs1 & Hp1).
  eapply hoare_bind.
  { eapply hoare_conseq; [apply (hoare_lines D b (batch_geometry cfg batch) (lines_in_order batch) t0 r1)| |intros a s Ha; exact Ha].
    intros s Hs. by eapply at_eq. }
  intros r2. apply hoare_at. intros t2 (HR2 & Hs2 & Hp2).
  rewrite Hs1 in Hs2, Hp2. rewrite Hp1 in Hp2. simpl in Hp2. rewrite union_empty_r_L in Hp2.
  change (printable r2 = printed_lines batch t0) in Hp2.
  assert (∀ l, l ∈ seen r2 ↔ offered batch l) as Hoff by (intros l; rewrite Hs2; apply in_order_offered).
  assert (pids r2 = [] → hoare (At D (λ t, t = t2)) (finish_unprinted b r2) (λ _ s,
    At D (λ t, wf t ∧ (∀ l, offered batch l → row_done l t) ∧ ∀ l, ¬ offered batch l → rows l t = rows l t0) s)) as Hnone.
  { intros Hnil. eapply hoare_conseq; [apply (hoare_unprinted D b r2 (λ t, t = t2))|done|].
    intros o s Hs. eapply at_eq; [exact Hs|]. destruct HR2 as [W2 _ _ _ Hd Hr]. split; [done|]. split.
    - intros l Hl%Hoff. apply Hd; [done|]. rewrite Hnil. apply not_elem_of_nil.
    - intros l Hl. apply Hr. by rewrite Hoff. }
  unfold batch_documents. destruct (batch_geometry cfg batch) as [g|e] eqn:Eg.
  2:{ rewrite app_nil_r. eapply hoare_conseq; [apply Hnone|done|by intros o s Hs; exists (Err "")].
      unfold pids. by rewrite Hp2, (bad_geometry_prints_nothing _ _ e). }
  unfold pids in Hnone. rewrite Hp2 in *. destruct (printed_lines batch t0) as [|x ls] eqn:Ep.
  { rewrite app_nil_r. eapply hoare_conseq; [by apply Hnone|done|by intros o s Hs; exists (Err "")]. }
  destruct HR2 as [W2 O2 S2 F2 D2 R2]. unfold pids in *. rewrite Hp2 in *.
  eapply hoare_bind; [by apply (hoare_print_batch D b (x :: ls) g t2)|].
  intros []. apply hoare_ret. intros s (r & [[Hq (W' & Hd & Hr)] HD]). exists r. split; [|done]. split; [done|].
  split; [done|]. split.
  - intros l Hl. destruct (decide (l ∈ map pl_line_id (x :: ls))) as [Hin|Hin]; [by apply Hd|].
    eapply row_done_rows; [by apply Hr|]. apply D2; [by apply Hoff|done].
  - intros l Hl. rewrite Hr, R2; [done|by rewrite Hoff|]. intros Hin. by apply Hl, Hoff, S2.
Qed.

(** ** The acks *)

(** Odoo gives every ack its final answer. *)
Definition settling : Prop := ∀ past l q e,
  match reply past (ack_call l q e) with
  | Ok v => is_ok (parse_ack v) = true
  | Err (Business _) => True
  | Err _ => False
  end.

Lemma acked_wf l n now t : wf t → wf (acked_by l n now t).
Proof.
  intros [K S]. split; unfold acked_by.
  - unfold ids. by rewrite sql_update_key.
  - rewrite Forall_forall in *. intros r Hr. apply list_elem_of_In, in_map_iff in Hr as (r' & <- & Hr').
    apply list_elem_of_In in Hr'. destruct (by_line l r'); [by apply (S r')|auto].
Qed.
(** The owed acks are among [rest]; no verdict is lost. *)
Definition owing (t0 : Lines) (rest : list LedgerEntry) (t : Lines) : Prop :=
  wf t ∧ (∀ r, In r t → owes_ack r = true → l_line_id r ∈ map le_line_id rest) ∧
  ∀ l, row_done l t0 → row_done l t.
Lemma acked_owing t0 e rest n now t :
  owing t0 (e :: rest) t → owing t0 rest (acked_by (le_line_id e) n now t).
Proof.
  intros (W & Ho & Hd). split; [by apply acked_wf|]. split.
  - intros r Hr Hw. apply in_map_iff in Hr as (r' & <- & Hr'). destruct (by_line (le_line_id e) r') eqn:E.
    + unfold owes_ack in Hw. simpl in Hw. by rewrite andb_false_r in Hw.
    + specialize (Ho r' Hr' Hw). simpl in Ho. apply elem_of_cons in Ho as [Ho|Ho]; [|done].
      apply by_line_true in Ho. congruence.
  - intros l Hl. apply row_done_update; auto.
Qed.

Lemma hoare_settle D e t0 rest owed :
  settling →
  hoare (At D (owing t0 (e :: rest))) (settle_ack e owed) (λ o, At D (λ t, o = owed ∧ owing t0 rest t)).
Proof.
  intros Hset. unfold settle_ack.
  assert (∀ n, hoare (At D (owing t0 (e :: rest))) (_ ← on_ledger (mark_acked (le_line_id e) n); mret owed)
    (λ o, At D (λ t, o = owed ∧ owing t0 rest t))) as Hack.
  { intros n. eapply hoare_bind with (Q := λ _, At D (owing t0 rest)).
    - apply hoare_on_ledger, hoare_mark_acked. intros now t. apply acked_owing.
    - intros _. apply hoare_ret. intros s [[Hq Ht] HD]. split; [|done]. by split. }
  eapply hoare_bind with (Q := λ a s, At D (owing t0 (e :: rest)) s ∧
    match a with Ok _ | Err (Business _) => True | Err _ => False end).
  - unfold ack. eapply hoare_bind; [apply hoare_call|]. intros a. apply hoare_ret. intros s [Hs (past & ->)].
    split; [done|]. specialize (Hset past (le_line_id e) (le_printed_qty e) (le_error e)). unfold ack_call in Hset.
    destruct (reply _ _) as [v|[]]; try done. by destruct (parse_ack v).
  - intros [d|[]]; try (by intros s [_ []]);
      (eapply hoare_conseq; [apply Hack|by intros s []|by intros a s Ha]).
Qed.

Lemma hoare_flush D t0 :
  settling → wf t0 →
  hoare (At D (λ t, t = t0)) flush_acks (λ o, At D (λ t, o = 0 ∧ owing t0 [] t)).
Proof.
  intros Hset W. unfold flush_acks.
  eapply hoare_bind with (Q := λ es, At D (owing t0 es)).
  - apply hoare_on_ledger, hoare_pending. intros t ->. split; [done|]. split; [|done].
    intros r Hr Ho. apply list_elem_of_In, in_map_iff. exists (row_to_entry r). split; [done|]. apply in_map.
    apply (Permutation_in _ (Permutation_sym (sort_rows_perm _ _))). by apply filter_In.
  - intros es. generalize 0 at 1 2. induction es as [|e es IH]; intros o.
    + apply hoare_ret. intros s [[Hq Ht] HD]. split; [|done]. by split.
    + eapply hoare_bind; [by apply hoare_settle|]. intros o'.
      eapply hoare_conseq with (P' := λ s, o' = o ∧ At D (owing t0 es) s); [|by intros s [[Hq [-> Ht]] HD]|intros a s Ha; exact Ha].
      apply hoare_pure. intros ->. apply IH.
Qed.

(** ** The poll *)

Lemma no_id_no_lines v batch :
  parse_next v = Ok batch → batch_id batch = None → lines batch = [] ∧ invalid batch = [].
Proof.
  unfold parse_next. destruct (negb _); [done|]. destruct (read_batch v) as [raw|]; [|done].
  destruct (foldr sort_line ([], []) (raw_lines raw)) as [ls bad] eqn:E.
  destruct (raw_batch_id raw); [by intros [= <-]|]. destruct (raw_lines raw); [|done].
  intros [= <-]. simpl in E. injection E as <- <-. done.
Qed.
Lemma no_lines_nothing_offered batch l : has_lines batch = false → ¬ offered batch l.
Proof.
  unfold has_lines, offered, invalid_ids. destruct (lines batch); [|done]. destruct (invalid batch); [|done].
  intros _ [Hl|Hl]; by apply not_elem_of_nil in Hl.
Qed.

Lemma hoare_handle_next D v batch t0 :
  parse_next v = Ok batch → wf t0 →
  hoare (At D (λ t, t = t0)) (handle_next cfg backend print_timeout batch) (λ _ s,
    ∃ D', At (D ++ D') (λ t, wf t ∧ ∀ l, offered batch l → row_done l t) s).
Proof.
  intros Hv W. assert ((∀ l, ¬ offered batch l) →
    hoare (At D (λ t, t = t0)) (mret Idle : SrcM PollOutcome) (λ _ s,
      ∃ D', At (D ++ D') (λ t, wf t ∧ ∀ l, offered batch l → row_done l t) s)) as Hidle.
  { intros Hno. apply hoare_ret. intros s [[Hq Ht] HD]. exists []. rewrite app_nil_r. split; [|done].
    split; [done|]. rewrite Ht. split; [done|]. intros l Hl. by destruct (Hno l). }
  unfold handle_next. destruct (batch_id batch) as [b|] eqn:Eb.
  - destruct (has_lines batch) eqn:El; [|by apply Hidle; intros l; apply no_lines_nothing_offered].
    eapply hoare_conseq; [by apply hoare_batch|done|]. intros o s (r & [[Hq (W' & Hd & _)] HD]).
    eexists. split; [|exact HD]. by split.
  - apply Hidle. intros l. destruct (no_id_no_lines v batch Hv Eb) as [E1 E2].
    apply no_lines_nothing_offered. unfold has_lines. by rewrite E1, E2.
Qed.

(** The line has its verdict and Odoo has heard it. *)
Definition settled (l : Z) (t : Lines) : Prop :=
  ∃ r, In r t ∧ l_line_id r = l ∧ l_state r = "done" ∧ l_acked r ≠ 0.
Definition owes_nothing (t : Lines) : Prop := ∀ r, In r t → owes_ack r = false.

Lemma owing_nothing t0 t : owing t0 [] t → owes_nothing t.
Proof.
  intros (_ & Ho & _) r Hr. apply not_true_is_false. intros Hw. specialize (Ho r Hr Hw).
  by apply not_elem_of_nil in Ho.
Qed.
Lemma done_settled l t : owes_nothing t → row_done l t → settled l t.
Proof.
  intros Ho (r & [Hr Hl]%in_rows & Hd). exists r. split; [done|]. split; [done|]. split; [done|].
  specialize (Ho r Hr). unfold owes_ack in Ho. rewrite Hd in Ho. simpl in Ho. by apply Z.eqb_neq in Ho.
Qed.

(** Odoo answers the next question with the value [v]. *)
Definition answers_next (v : Value) : Prop :=
  ∀ past, reply past ("/food/print/next", VObject []) = Ok v.

Lemma hoare_next D v φ : answers_next v →
  hoare (At D φ) next (λ r s, r = parse_next v ∧ At D φ s).
Proof.
  intros Hv. unfold next. eapply hoare_bind; [apply hoare_call|]. intros a. apply hoare_ret.
  intros s [Hs (past & ->)]. by rewrite Hv.
Qed.

Lemma hoare_poll D v batch t0 :
  settling → answers_next v → parse_next v = Ok batch → wf t0 →
  hoare (At D (λ t, t = t0)) (poll_once cfg backend print_timeout) (λ _ s,
    ∃ D', At (D ++ D') (λ t, wf t ∧ owes_nothing t ∧ ∀ l, offered batch l → settled l t) s).
Proof.
  intros Hset Hans Hv W. unfold poll_once.
  eapply hoare_bind; [by apply hoare_flush|]. intros o. apply hoare_at. intros t1 [_ H1'].
  assert (wf t1) as W1 by by destruct H1'.
  eapply hoare_bind; [by apply (hoare_next D v)|]. intros r. apply hoare_pure. intros ->. rewrite Hv.
  eapply hoare_bind; [by eapply hoare_handle_next|]. intros outcome s (D' & Hs).
  revert s Hs. apply hoare_at. intros t2 (W2 & Hd).
  eapply hoare_bind; [by apply hoare_flush|]. intros owed. apply hoare_ret.
  intros s [[Hq [_ Ho]] HD]. exists D'. split; [|done]. split; [done|]. pose proof (owing_nothing _ _ Ho) as Hn.
  destruct Ho as (W3 & _ & Hk). split; [done|]. split; [done|]. intros l Hl. apply done_settled; auto.
Qed.
End source.
