(* ===== verification/Config.v ===== *)
(** * The configuration

    [src/crates/devbridge-core/src/config.rs] and [config/*.rs]: the sections
    with the defaults of their absent keys, the checks of their values, and the
    one write the program makes to its own configuration file.  The reading of
    TOML is the [toml] package ([Toml]). *)

From Stdlib Require Import ZArith Ascii String.
From stdpp Require Import gmap.
From S2P Require Import Prelude RustStd Text Floats.
#[local] Open Scope Z_scope.

(** A problem found when [b] holds. *)
Definition problem (b : bool) (text : string) : list string := if b then [text] else [].
Definition QUOTE : string := String "034" "".
Definition quoted (s : string) : string := QUOTE +:+ s +:+ QUOTE.

(** What is shown instead of a secret. *)
Definition redact_secret (secret : string) : string :=
  if secret =t? "" then "<empty>" else "<redacted>".

(** ** [config/lan_api.rs] *)

Definition LAN_API_DEFAULT_PORT : Z := 9443.
Definition MAX_DNS_NAME : nat := 253.
Definition MAX_DNS_LABEL : nat := 63.

Record LanApiConfig := mkLanApi {
  lan_enabled : bool;
  lan_port : Z;
  lan_hostname : string;
  lan_acme : bool;
}.
Definition LanApiConfig_default : LanApiConfig :=
  {| lan_enabled := false; lan_port := LAN_API_DEFAULT_PORT; lan_hostname := ""; lan_acme := true |}.

Definition HYPHEN : Z := 45.
Definition DOT : Z := 46.
Definition label_byte (b : Z) : bool := is_ascii_lowercase b || is_ascii_digit b || (b =? HYPHEN).
Definition valid_dns_label (label : list Z) : bool :=
  negb (bool_decide (label = [])) && (length label <=? MAX_DNS_LABEL)%nat
  && negb (bool_decide (head label = Some HYPHEN)) && negb (bool_decide (last label = Some HYPHEN))
  && forallb label_byte label.
(** A name is split at its dots byte by byte, which is character by character:
    no byte of another character is a dot. *)
Definition valid_dns_name (name : string) : bool :=
  let labels := split_on DOT (bytes_of name) in
  let top_has_letter := match last labels with Some top => existsb is_ascii_lowercase top | None => false end in
  (length (bytes_of name) <=? MAX_DNS_NAME)%nat && (2 <=? length labels)%nat
  && forallb valid_dns_label labels && top_has_letter.

(** ** [config/tim.rs] *)

Definition TIM_DEFAULT_INTEGRATOR_ID : string := "7dc442d7-6528-4a05-ba84-5e66558e48b7".
Definition TIM_DEFAULT_COMMIT_TIMEOUT_S : Z := 60.
Definition TIM_MIN_COMMIT_TIMEOUT_S : Z := 50.
Definition TIM_MAX_COMMIT_TIMEOUT_S : Z := 300.
Definition TIM_DEFAULT_ROLLBACK_DEADLINE_S : Z := 45.
Definition TIM_MIN_ROLLBACK_DEADLINE_S : Z := 45.
Definition TIM_MAX_ROLLBACK_DEADLINE_S : Z := 90.
Definition TIM_ROLLBACK_BEFORE_COMMIT_TIMEOUT_S : Z := 5.
Definition TIM_MAX_POS_ID : Z := 999999.

(** The integers are [u32]. *)
Record TimConfig := mkTim {
  library_path : string;
  integrator_id : string;
  commit_timeout_s : Z;
  rollback_deadline_s : Z;
}.

Definition valid_integrator_id (id : string) : bool :=
  let groups := split_on HYPHEN (bytes_of id) in
  (length groups =? 5)%nat
  && forallb (λ '(g, n), (length g =? n)%nat && forallb is_ascii_hexdigit g)
       (zip groups [8; 4; 4; 4; 12]%nat).

(** [str::parse::<Ipv4Addr>]: four numbers of at most three digits between dots,
    none above 255 and none with a leading zero. *)
Definition parse_octet (g : list Z) : option Z :=
  match g with
  | [] => None
  | c :: more =>
    if (3 <? length g)%nat || ((c =? 48) && negb (bool_decide (more = []))) then None
    else match parse_digits g with Some n => if n <=? 255 then Some n else None | None => None end
  end.
Definition parse_ipv4 (s : string) : option (list Z) :=
  let groups := split_on DOT (bytes_of s) in
  if (length groups =? 4)%nat then mapM parse_octet groups else None.
Definition valid_terminal_ip (ip : string) : bool := bool_decide (is_Some (parse_ipv4 ip)).
Definition valid_terminal_tid (tid : string) : bool :=
  between 1 16 (byte_len tid) && forallb is_ascii_alphanumeric (bytes_of tid).

Definition max_rollback_deadline (commit_timeout : Z) : Z :=
  Z.min (Z.max 0 (commit_timeout - TIM_ROLLBACK_BEFORE_COMMIT_TIMEOUT_S)) TIM_MAX_ROLLBACK_DEADLINE_S.
Definition tim_problems (t : TimConfig) : list string :=
  let max_deadline := max_rollback_deadline (commit_timeout_s t) in
  problem (is_blank (library_path t)) "tim.library_path must name the TIM C library file"
  ++ problem (negb (valid_integrator_id (integrator_id t)))
       ("tim.integrator_id " +:+ quoted (integrator_id t) +:+ " must be a UUID (8-4-4-4-12 hex digits)")
  ++ problem (negb (between TIM_MIN_COMMIT_TIMEOUT_S TIM_MAX_COMMIT_TIMEOUT_S (commit_timeout_s t)))
       ("tim.commit_timeout_s = " +:+ z_to_string (commit_timeout_s t) +:+ " must be "
          +:+ z_to_string TIM_MIN_COMMIT_TIMEOUT_S +:+ "..=" +:+ z_to_string TIM_MAX_COMMIT_TIMEOUT_S)
  ++ problem (negb (between TIM_MIN_ROLLBACK_DEADLINE_S max_deadline (rollback_deadline_s t)))
       ("tim.rollback_deadline_s = " +:+ z_to_string (rollback_deadline_s t) +:+ " must be "
          +:+ z_to_string TIM_MIN_ROLLBACK_DEADLINE_S +:+ "..=" +:+ z_to_string max_deadline
          +:+ " (5 s above Odoo's largest 40 s, " +:+ z_to_string TIM_ROLLBACK_BEFORE_COMMIT_TIMEOUT_S
          +:+ " s before commit_timeout_s, at most " +:+ z_to_string TIM_MAX_ROLLBACK_DEADLINE_S +:+ ")").

(** ** [config/pokladna.rs] *)

Definition POKLADNA_MAX_WAIT_S : Z := 55.

Record PokladnaKasaConfig := mkKasa {
  kasa_id : Z;
  portos_url : option string;
  terminal_ip : option string;
  terminal_tid : option string;
  lan_key : option string;
}.
Record PokladnaClientConfig := mkPokladna {
  pk_enabled : bool;
  pk_url : string;
  pk_api_key : string;
  pk_wait_s : Z;
  pk_heartbeat_interval_secs : Z;
  pk_kasy : list PokladnaKasaConfig;
  pk_test_executor : bool;
  pk_lan_api : LanApiConfig;
  pk_tim : option TimConfig;
}.
Definition default_pokladna_wait_s : Z := 25.
Definition default_pokladna_heartbeat_interval_secs : Z := 30.
Definition PokladnaClientConfig_default : PokladnaClientConfig :=
  {| pk_enabled := false; pk_url := ""; pk_api_key := "";
     pk_wait_s := default_pokladna_wait_s;
     pk_heartbeat_interval_secs := default_pokladna_heartbeat_interval_secs;
     pk_kasy := []; pk_test_executor := false; pk_lan_api := LanApiConfig_default; pk_tim := None |}.

(** ** [config/acme.rs] *)

Definition LETS_ENCRYPT_DIRECTORY : string := "https://acme-v02.api.letsencrypt.org/directory".
Definition CLOUDFLARE_API : string := "https://api.cloudflare.com/client/v4".
Definition CLOUDFLARE_TOKEN_ENV : string := "DEVBRIDGE_CLOUDFLARE_API_TOKEN".
Definition MAX_PROPAGATION_SECS : Z := 60.

Record CloudflareConfig := mkCloudflare { zone_id : string; api_token_key : string; api_base : string }.
Record AcmeServerConfig := mkAcme {
  acme_enabled : bool;
  directory_url : string;
  zone : string;
  contact_email : string;
  acme_ca_file : string;
  propagation_secs : Z;
  cloudflare : CloudflareConfig;
}.
Definition default_propagation_secs : Z := 30.
Definition CloudflareConfig_default : CloudflareConfig :=
  {| zone_id := ""; api_token_key := ""; api_base := CLOUDFLARE_API |}.
Definition AcmeServerConfig_default : AcmeServerConfig :=
  {| acme_enabled := false; directory_url := LETS_ENCRYPT_DIRECTORY; zone := ""; contact_email := "";
     acme_ca_file := ""; propagation_secs := default_propagation_secs; cloudflare := CloudflareConfig_default |}.

Definition blank_or_quote (c : Z) : bool := is_whitespace c || (c =? 34).
Definition https_url (url : string) : bool :=
  starts_with "https://" url && (byte_len "https://" <? byte_len url) && negb (existsb blank_or_quote (chars url)).

Definition api_token (c : AcmeServerConfig) (env_token : option string) : string :=
  match env_token with
  | Some t => if is_blank t then trimmed (api_token_key (cloudflare c)) else trimmed t
  | None => trimmed (api_token_key (cloudflare c))
  end.
Definition acme_problems (c : AcmeServerConfig) (token : string) : list string :=
  problem (negb (https_url (directory_url c)))
    ("directory_url " +:+ quoted (directory_url c) +:+ " must be an https:// URL")
  ++ problem (negb (valid_dns_name (zone c)))
       ("zone " +:+ quoted (zone c) +:+ " must be a lower-case DNS name such as pos.example.sk")
  ++ problem (existsb blank_or_quote (trim (chars (contact_email c))))
       "contact_email must not contain spaces or quotes"
  ++ problem (MAX_PROPAGATION_SECS <? propagation_secs c)
       ("propagation_secs = " +:+ z_to_string (propagation_secs c) +:+ " must be at most "
          +:+ z_to_string MAX_PROPAGATION_SECS)
  ++ problem (is_blank (zone_id (cloudflare c))) "cloudflare.zone_id is empty"
  ++ problem (token =t? "")
       ("no Cloudflare API token (cloudflare.api_token or " +:+ CLOUDFLARE_TOKEN_ENV +:+ ")")
  ++ problem (negb (https_url (api_base (cloudflare c)))
              && negb (starts_with "http://127.0.0.1:" (api_base (cloudflare c))))
       ("cloudflare.api_base " +:+ quoted (api_base (cloudflare c)) +:+ " must be an https:// URL").

(** ** [config.rs] *)

Record GeneralConfig := mkGeneral { mode : string; log_level : string; data_dir : string }.
Record TlsConfig := mkTls { cert_file : string; key_file : string; ca_file : string }.
Definition TlsConfig_default : TlsConfig := {| cert_file := ""; key_file := ""; ca_file := "" |}.

Definition default_serial_port : string := "COM5".
Definition default_baud_rate : Z := 9600.
Record SerialBridgeClientConfig := mkSerialClient { sc_enabled : bool; sc_port : string; sc_baud_rate : Z }.
Definition SerialBridgeClientConfig_default : SerialBridgeClientConfig :=
  {| sc_enabled := false; sc_port := default_serial_port; sc_baud_rate := default_baud_rate |}.
Record SerialBridgeServerEntry := mkSerialServer {
  sv_client_id : string; sv_virtual_port : string; sv_baud_rate : Z }.

Record ServerConfig := mkServer {
  ipp_port : Z;
  grpc_port : Z;
  sr_dashboard_port : Z;
  sr_printer_name : string;
  sr_spool_dir : string;
  sr_tls : TlsConfig;
  serial_bridges : list SerialBridgeServerEntry;
  acme : AcmeServerConfig;
}.

Record OdooClientConfig := mkOdoo {
  od_enabled : bool;
  od_url : string;
  od_api_key : string;
  od_poll_interval_secs : Z;
  od_heartbeat_interval_secs : Z;
  od_printer_name : string;
  label_width_mm : f64;
  label_height_mm : f64;
  dpi : Z;
  rotate_180 : bool;
  x_offset_dots : Z;
  y_offset_dots : Z;
}.
Definition default_odoo_poll_interval_secs : Z := 5.
Definition default_odoo_heartbeat_interval_secs : Z := 30.
Definition default_odoo_label_width_mm : f64 := lit 727 (-1).
Definition default_odoo_label_height_mm : f64 := lit 1101 (-1).
Definition default_odoo_dpi : Z := 203.
Definition default_odoo_rotate_180 : bool := true.
Definition OdooClientConfig_default : OdooClientConfig :=
  {| od_enabled := false; od_url := ""; od_api_key := "";
     od_poll_interval_secs := default_odoo_poll_interval_secs;
     od_heartbeat_interval_secs := default_odoo_heartbeat_interval_secs;
     od_printer_name := "";
     label_width_mm := default_odoo_label_width_mm; label_height_mm := default_odoo_label_height_mm;
     dpi := default_odoo_dpi; rotate_180 := default_odoo_rotate_180;
     x_offset_dots := 0; y_offset_dots := 0 |}.

Record ClientConfig := mkClient {
  server_address : string;
  target_printer : string;
  dashboard_port : Z;
  reconnect_interval_secs : Z;
  max_reconnect_interval_secs : Z;
  client_id : option string;
  print_backend : string;
  printer_address : option string;
  ghostscript_device : string;
  ghostscript_resolution : Z;
  printer_tls : bool;
  printer_display_name : option string;
  print_proxy_url : option string;
  virtual_printer_name : option string;
  virtual_printer_driver : option string;
  cl_tls : TlsConfig;
  serial_bridge : SerialBridgeClientConfig;
  odoo : OdooClientConfig;
  pokladna : PokladnaClientConfig;
}.
Definition default_print_backend : string := "windows_spooler".
Definition default_gs_device : string := "ppmraw".
Definition default_gs_resolution : Z := 600.
(** A [[client]] section with nothing but its five required keys. *)
Definition ClientConfig_of_required (address target : string) (port interval max_interval : Z) : ClientConfig :=
  {| server_address := address; target_printer := target; dashboard_port := port;
     reconnect_interval_secs := interval; max_reconnect_interval_secs := max_interval;
     client_id := None; print_backend := default_print_backend; printer_address := None;
     ghostscript_device := default_gs_device; ghostscript_resolution := default_gs_resolution;
     printer_tls := false; printer_display_name := None; print_proxy_url := None;
     virtual_printer_name := None; virtual_printer_driver := None; cl_tls := TlsConfig_default;
     serial_bridge := SerialBridgeClientConfig_default; odoo := OdooClientConfig_default;
     pokladna := PokladnaClientConfig_default |}.

Record JobsConfig := mkJobs {
  max_retries : Z;
  retry_delay_secs : Z;
  job_expiry_hours : Z;
  max_payload_size_mb : Z;
  print_timeout_secs : Z;
}.
Definition default_print_timeout_secs : Z := 1800.

Record Config := mkConfig {
  general : GeneralConfig;
  server : ServerConfig;
  client : ClientConfig;
  jobs : JobsConfig;
}.
