(* ===== verification/Spooler.v ===== *)
(** * Printing through the operating system, a proxy or a raw socket

    [src/crates/devbridge-client/src]: [printer.rs] (the printer lists, the
    hand-over of a document to SumatraPDF, PrintTo or [lp], the readiness check
    and the wait for the queue), and the back ends on it:
    [backend_windows_spooler.rs], [backend_cups.rs], [backend_print_proxy.rs],
    [backend_direct_raw.rs].  What the two builds do differently is told apart
    by [Platform].  A program is [Outside]'s [run_program]; what a raw socket
    does with a document is the interface [RawSocket], the rendering of a date
    for PowerShell [StampText]. *)

From Stdlib Require Import ZArith Ascii String Floats.SpecFloat.
From stdpp Require Import gmap.
From S2P Require Import Prelude RustStd Text Core Json Floats Config PrintBackend Ghostscript PrinterStatus.
#[local] Open Scope Z_scope.

(** The target of the build: [cfg(target_os = "windows")]. *)
Inductive Platform := Windows | Unix.

(** One raw stream: how long it took, how many bytes the printer took, and the
    error that ended it. *)
Record StreamEnd := mkStream { se_took : Z; se_sent : nat; se_error : option string }.
Class RawSocket : Type := { raw_stream : string → bytes → nat → StreamEnd }.
(** [%Y-%m-%dT%H:%M:%S] of an instant, in UTC and in the machine's zone. *)
Class StampText : Type := { utc_stamp : Z → string; local_stamp : Z → string }.

Section spooler.
Context `{Outside} `{DebugText} `{JsonText} `{UnicodeTables} `{StampText} `{RawSocket}.

(** ** Child processes *)

(** [Command::output]: the program runs to its end. *)
Definition output (command : list string) : PM (result string ProcessOutput) :=
  w ← gets id;
  match run_program command (length (programs w)) with
  | Err e => mret (Err e)
  | Ok (d, out) =>
    _ ← modify (λ w, set_files (p_files out (files w))
                       (set_now (now w + Z.max 0 d) (set_programs (programs w ++ [command]) w)));
    mret (Ok out)
  end.
Definition output_or_fail (command : list string) : PM ProcessOutput :=
  r ← output command;
  match r with Ok out => mret out | Err e => bail e end.

(** The loops of these sources: a round that ends the loop with [inr], or else
    the deadline is compared with the time and the thread sleeps for
    [interval]. *)
Fixpoint poll_until {A B} (fuel : nat) (round : PM (B + A)) (at_deadline : B → PM A) (deadline interval : Z) : PM A :=
  match fuel with
  | O => bail "unreachable"
  | S fuel' =>
    r ← round;
    match r with
    | inr a => mret a
    | inl b =>
      t ← gets now;
      if deadline <? t then at_deadline b
      else _ ← sleep interval; poll_until fuel' round at_deadline deadline interval
    end
  end.
Definition poll_rounds (span interval : Z) : nat := Z.to_nat (span / interval + 2).

Definition CHILD_TIMEOUT : Z := 30000.
Definition CHILD_POLL : Z := 500.
Definition child_ended (ends : Z) (out : ProcessOutput) : PM (unit + bool) :=
  t ← gets now;
  if ends <=? t then _ ← modify (λ w, set_files (p_files out (files w)) w); mret (inr true) else mret (inl tt).
Definition kill_child (out : ProcessOutput) (_ : unit) : PM bool :=
  _ ← modify (λ w, set_files (p_killed out (files w)) w); mret false.
(** [Command::spawn] and the loop behind it; [None]: timed out and killed. *)
Definition run_child (command : list string) : PM (option ProcessOutput) :=
  w ← gets id;
  match run_program command (length (programs w)) with
  | Err e => bail e
  | Ok (d, out) =>
    _ ← modify (λ w, set_programs (programs w ++ [command]) w);
    ended ← poll_until (poll_rounds CHILD_TIMEOUT CHILD_POLL) (child_ended (now w + d) out) (kill_child out)
              (now w + CHILD_TIMEOUT) CHILD_POLL;
    mret (if ended : bool then Some out else None)
  end.

(** [Display] of a Windows [ExitStatus]. *)
Definition exit_status (out : ProcessOutput) : string :=
  let code := default (-1) (p_code out) in
  "exit code: " +:+ (if (code mod 2 ^ 32) <? 2 ^ 31 then z_to_string code
                     else "0x" +:+ hex_u32 (code mod 2 ^ 32)).

(** [printer.replace('\'', "''")] *)
Definition ps_quote (s : string) : string :=
  of_chars (flat_map (λ c, if c =? 39 then [39; 39] else [c]) (chars s)).
Definition powershell (script : string) : list string := ["powershell"; "-NoProfile"; "-Command"; script].
Definition trimmed_stdout (out : ProcessOutput) : string := trimmed (p_stdout out).

(** ** [printer.rs]: the printers of the machine *)

(** [raw["key"]] *)
Definition field_of (key : string) (v : Value) : Value := default VNull (get_field key v).
(** An array, or PowerShell's single object. *)
Definition items_of (raw : Value) : list Value :=
  match raw with
  | VArray l => l
  | VObject _ => [raw]
  | _ => []
  end.

Definition PRINTER_STATES : list string :=
  ["normal"; "paused"; "error"; "pending deletion"; "paper jam"; "paper out"; "manual feed";
   "paper problem"; "offline"].
Definition status_name (code : option Z) : string :=
  match code with
  | Some n => if n <? 9 then nth (Z.to_nat n) PRINTER_STATES "unknown" else "unknown"
  | None => "unknown"
  end.
Definition listed_printer (item : Value) : PrinterInfo :=
  {| pi_name := default "Unknown" (as_str (field_of "Name" item));
     pi_driver := default "-" (as_str (field_of "DriverName" item));
     pi_status := status_name (as_u64_value (field_of "PrinterStatus" item));
     pi_jobs := default 0 (as_u64_value (field_of "JobCount" item));
     pi_is_target := false |}.
Definition LIST_SCRIPT : string :=
  "Get-Printer | Select-Object Name, DriverName, PrinterStatus, JobCount | ConvertTo-Json".
(** [serde_json::from_str(..)?]; the text of its error is not kept. *)
Definition list_printers_windows : PM (list PrinterInfo) :=
  out ← output_or_fail (powershell LIST_SCRIPT);
  if negb (p_success out) then bail ("Get-Printer failed: " +:+ p_stderr out)
  else
    let text := trimmed_stdout out in
    if text =t? "" then mret []
    else match json_from_str text with
         | None => bail "Get-Printer: invalid JSON"
         | Some raw => mret (map listed_printer (items_of raw))
         end.

Definition accepting_line (line : list Z) : option PrinterInfo :=
  match split_whitespace line with
  | [] => None
  | name :: _ =>
    Some {| pi_name := of_chars name; pi_driver := "CUPS";
            pi_status := if contains (chars "accepting") line then "idle" else "error";
            pi_jobs := 0; pi_is_target := false |}
  end.
Definition list_printers_cups : PM (list PrinterInfo) :=
  r ← output ["lpstat"; "-a"];
  mret (match r with
        | Ok out => if p_success out then omap accepting_line (lines (chars (p_stdout out))) else []
        | Err _ => []
        end).
Definition list_printers (p : Platform) : PM (list PrinterInfo) :=
  match p with Windows => list_printers_windows | Unix => list_printers_cups end.

(** ** [printer.rs]: handing a document over *)

Definition SUMATRA : string := "C:\Program Files\SumatraPDF\SumatraPDF.exe".
Definition sumatra_command (printer path : string) (copies : Z) : list string :=
  [SUMATRA; "-print-to"; printer; "-silent"]
    ++ (if 1 <? copies then ["-print-settings"; z_to_string copies +:+ "x"] else []) ++ [path].
Definition print_to_script (printer path : string) : string :=
  "Start-Process -FilePath '" +:+ ps_quote path +:+ "' -Verb PrintTo -ArgumentList '"
    +:+ quoted (ps_quote printer) +:+ "' -Wait -WindowStyle Hidden".
Definition copy_of (copy copies : Z) : string := z_to_string copy +:+ "/" +:+ z_to_string copies.
Definition print_to_copy (printer path : string) (copies copy : Z) : PM unit :=
  child ← run_child (powershell (print_to_script printer path));
  match child with
  | Some out =>
    if p_success out then mret tt
    else bail ("PrintTo exit code: " +:+ exit_status out +:+ " on copy " +:+ copy_of copy copies)
  | None => bail ("PrintTo timed out after 30s on copy " +:+ copy_of copy copies
                    +:+ " — printer may require GUI interaction")
  end.
Definition print_to (printer path : string) (copies : Z) : PM unit :=
  for_each (map Z.of_nat (seq 1 (Z.to_nat copies))) (print_to_copy printer path copies).

(** Of the file's metadata only the length is read. *)
Definition print_pdf_windows (printer path : string) (copies : Z) : PM unit :=
  data ← fs_read path;
  if (length data =? 0)%nat then bail "PDF file is empty"
  else
    let copies := Z.max copies 1 in
    sumatra ← fs_exists SUMATRA;
    if sumatra : bool then
      child ← run_child (sumatra_command printer path copies);
      match child with
      | Some out => if p_success out then mret tt else bail ("SumatraPDF exit code: " +:+ exit_status out)
      | None => print_to printer path copies
      end
    else print_to printer path copies.

Definition print_pdf_cups (printer path : string) (copies : Z) : PM unit :=
  there ← fs_exists path;
  if negb there then bail ("PDF file does not exist: " +:+ path)
  else
    out ← output_or_fail ["lp"; "-d"; printer; "-n"; z_to_string (Z.max copies 1); path];
    if p_success out then mret tt else bail ("lp failed: " +:+ trimmed (p_stderr out)).
Definition print_pdf (p : Platform) : string → string → Z → PM unit :=
  match p with Windows => print_pdf_windows | Unix => print_pdf_cups end.

(** ** [printer.rs]: is the printer ready *)

Definition not_ready_text (code : Z) : option string :=
  match code with
  | 1 => Some "is paused" | 2 => Some "has error" | 3 => Some "is pending deletion"
  | 4 => Some "has paper jam" | 5 => Some "is out of paper" | 6 => Some "requires manual feed"
  | 7 => Some "has paper problem" | 8 => Some "is offline" | _ => None
  end.
Definition the_printer (name rest : string) : string := "printer '" +:+ name +:+ "' " +:+ rest.
Definition check_printer_ready_windows (name : string) : PM unit :=
  out ← output_or_fail (powershell ("Get-Printer -Name '" +:+ ps_quote name
                                      +:+ "' | Select-Object PrinterStatus | ConvertTo-Json"));
  if negb (p_success out) then bail (the_printer name ("not found: " +:+ trimmed (p_stderr out)))
  else
    let text := trimmed_stdout out in
    if text =t? "" then bail (the_printer name "not found")
    else
      let raw := default VNull (json_from_str text) in
      match not_ready_text (default 0 (as_u64_value (field_of "PrinterStatus" raw))) with
      | Some why => bail (the_printer name why)
      | None => mret tt
      end.
Definition check_printer_ready_cups (name : string) : PM unit :=
  r ← output ["lpstat"; "-p"; name];
  match r with
  | Err _ => bail (the_printer name "not found: lpstat unavailable")
  | Ok out =>
    if negb (p_success out) then bail (the_printer name "not found")
    else
      let cs := chars (p_stdout out) in
      if contains (chars "disabled") cs || contains (chars "not accepting") cs
      then bail (the_printer name ("is not ready: " +:+ trimmed_stdout out))
      else mret tt
  end.
Definition check_printer_ready (p : Platform) : string → PM unit :=
  match p with Windows => check_printer_ready_windows | Unix => check_printer_ready_cups end.

(** ** [printer.rs]: the wait for the queue *)

Record PrintVerification := mkVerification {
  pv_success : bool; pv_spooler_status : string; pv_detail : string }.
Definition queue_timeout (count timeout_secs : Z) : PrintVerification :=
  mkVerification false "timeout" (z_to_string count +:+ " job(s) still in queue after "
                                    +:+ z_to_string timeout_secs +:+ "s").

Definition QUEUE_POLL : Z := 2000.
(** [look]: how many jobs wait, or the end of the verification. *)
Definition wait_for_queue (look : PM (Z + PrintVerification)) (timeout_secs : Z) : PM PrintVerification :=
  t ← gets now;
  _ ← sleep 1000;
  poll_until (poll_rounds (timeout_secs * 1000) QUEUE_POLL) look
    (λ jobs, mret (queue_timeout jobs timeout_secs)) (t + timeout_secs * 1000) QUEUE_POLL.

Definition in_error (item : Value) : bool :=
  let status := chars (default "" (as_str (field_of "JobStatus" item))) in
  contains (chars "Error") status || contains (chars "Offline") status.
Definition error_verification (item : Value) : PrintVerification :=
  mkVerification false "error"
    ("spooler status: " +:+ default "" (as_str (field_of "JobStatus" item)) +:+ " (document: "
       +:+ default "unknown" (as_str (field_of "DocumentName" item)) +:+ ")").
(** [Get-PrintJob]'s answer *)
Definition spooler_look (text : string) : Z + PrintVerification :=
  if (text =t? "") || (text =t? "null") then
    inr (mkVerification true "completed" "job left print queue")
  else
    let items := items_of (default VNull (json_from_str text)) in
    match List.find in_error items with
    | Some item => inr (error_verification item)
    | None => inl (Z.of_nat (length items))
    end.
Definition look_windows (printer : string) : PM (Z + PrintVerification) :=
  out ← output_or_fail (powershell ("Get-PrintJob -PrinterName '" +:+ ps_quote printer
          +:+ "' -ErrorAction SilentlyContinue | Select-Object Id, JobStatus, DocumentName, Size | ConvertTo-Json"));
  mret (spooler_look (trimmed_stdout out)).
Definition not_blank (cs : list Z) : bool := match trim cs with [] => false | _ => true end.
Definition look_cups (printer : string) : PM (Z + PrintVerification) :=
  out ← output_or_fail ["lpstat"; "-o"; printer];
  mret (match List.filter not_blank (lines (chars (p_stdout out))) with
        | [] => inr (mkVerification true "completed" "job left CUPS queue")
        | jobs => inl (Z.of_nat (length jobs))
        end).
Definition verify_print_completion (p : Platform) (printer : string) (timeout_secs : Z) : PM PrintVerification :=
  wait_for_queue (match p with Windows => look_windows printer | Unix => look_cups printer end) timeout_secs.

Definition get_print_queue_windows (printer : string) : PM (list string) :=
  out ← output_or_fail (powershell ("Get-PrintJob -PrinterName '" +:+ ps_quote printer
                                      +:+ "' | Select-Object -ExpandProperty DocumentName"));
  mret (if p_success out
        then map (λ l, of_chars (trim l)) (List.filter not_blank (lines (chars (p_stdout out)))) else []).
Definition get_print_queue_cups (printer : string) : PM (list string) :=
  r ← output ["lpstat"; "-o"; printer];
  mret (match r with
        | Ok out => if p_success out then map of_chars (List.filter not_blank (lines (chars (p_stdout out)))) else []
        | Err _ => []
        end).

(** A failed verification, told as its event and the error. *)
Definition fail_verified {A} (job_id method evidence : string) : PM A :=
  t ← gets now;
  _ ← emit (verified_failure t job_id SFailed evidence method evidence);
  bail evidence.

(** ** [backend_windows_spooler.rs] *)

Definition EVENTID_307 : string := "eventid_307".
Definition ENABLE_LOG : string := "wevtutil sl 'Microsoft-Windows-PrintService/Operational' /e:true".
Definition VERIFY_TIMEOUT : Z := 60000.
Definition VERIFY_POLL : Z := 2000.
Definition event_query (max filter start printer : string) : string :=
  "Get-WinEvent -LogName 'Microsoft-Windows-PrintService/Operational' -MaxEvents " +:+ max
    +:+ " -ErrorAction SilentlyContinue | Where-Object { " +:+ filter +:+ " -and $_.TimeCreated -ge '" +:+ start
    +:+ "' -and $_.Message -match '" +:+ ps_quote printer
    +:+ "' } | Select-Object -First 1 -ExpandProperty Message".
Definition printed_query : string → string → string := event_query "20" "$_.Id -eq 307".
Definition error_query : string → string → string := event_query "10" "($_.Id -eq 372 -or $_.Id -eq 842)".
Definition no_event_detail (printer error_output : string) : string :=
  "No EventID 307 within 60s for " +:+ printer
    +:+ (if error_output =t? "" then "" else ". Error: " +:+ take_chars 200 error_output).

Definition event_round (printer display job_id start : string) : PM (unit + unit) :=
  _ ← bail_if_cancelled job_id "during spooler EventID 307 verify";
  out ← output_or_fail (powershell (printed_query start printer));
  let text := trimmed_stdout out in
  if text =t? "" then mret (inl tt)
  else
    _ ← emit_verified job_id EVENTID_307 ("EventID 307: " +:+ take_chars 200 text);
    _ ← emit_ok job_id SCompleted ("Printed on " +:+ display +:+ " (EventID 307 confirmed)");
    mret (inr tt).
Definition no_event (printer job_id start : string) (_ : unit) : PM unit :=
  errors ← output (powershell (error_query start printer));
  fail_verified job_id EVENTID_307
    (no_event_detail printer (match errors with Ok o => trimmed_stdout o | Err _ => "" end)).
Definition verify_eventid_307_windows (printer display job_id : string) : PM unit :=
  _ ← ignore (output (powershell ENABLE_LOG));
  t ← gets now;
  let start := utc_stamp t in
  poll_until (poll_rounds VERIFY_TIMEOUT VERIFY_POLL) (event_round printer display job_id start)
    (no_event printer job_id start) (t + VERIFY_TIMEOUT) VERIFY_POLL.
Definition verify_eventid_307_unix (p : Platform) (printer display job_id : string) : PM unit :=
  _ ← bail_if_cancelled job_id "before spooler queue verify";
  v ← verify_print_completion p printer 60;
  if pv_success v then
    _ ← emit_verified job_id "spooler_queue"
          ("Spooler queue cleared for " +:+ display +:+ " (non-Windows fallback)");
    emit_ok job_id SCompleted ("Printed via spooler on " +:+ display)
  else fail_verified job_id "spooler_queue"
         ("spooler " +:+ pv_spooler_status v +:+ ": " +:+ pv_detail v +:+ " (printer: " +:+ printer +:+ ")").
Definition verify_eventid_307 (p : Platform) (printer display job_id : string) : PM unit :=
  match p with
  | Windows => verify_eventid_307_windows printer display job_id
  | Unix => verify_eventid_307_unix p printer display job_id
  end.

Definition VIRTUAL_NAMES : list string := ["pdf"; "xps"; "onenote"; "fax"; "null"].
Definition is_virtual (printer : string) : bool :=
  let lc := str_to_lowercase (chars printer) in
  existsb (λ n, contains (chars n) lc) VIRTUAL_NAMES.

Definition spooler_print (p : Platform) (job : PrintJobInfo) (path : string) : PM unit :=
  let printer := ji_printer_name job in
  let display := display_of job in
  let id := ji_job_id job in
  _ ← bail_if_cancelled id "before spooler submit";
  _ ← emit_ok id SSending ("Windows spooler → " +:+ display);
  _ ← print_pdf p printer path (ji_copies job);
  _ ← emit_ok id SSent ("Submitted to Windows spooler for " +:+ display);
  if is_virtual printer then
    _ ← emit_verified id "virtual_printer" ("Virtual printer " +:+ display +:+ " — no physical delivery");
    emit_ok id SCompleted ("Virtual printer " +:+ display)
  else verify_eventid_307 p printer display id.
Definition windows_spooler (p : Platform) : Backend :=
  {| backend_name := "windows_spooler"; print := spooler_print p |}.

(** ** [backend_cups.rs] *)

Definition CUPS_LPSTAT : string := "cups_lpstat".
Definition cups_print (p : Platform) (target : string) (job : PrintJobInfo) (path : string) : PM unit :=
  let display := default target (ji_printer_display_name job) in
  let id := ji_job_id job in
  _ ← bail_if_cancelled id "before CUPS submit";
  _ ← emit_ok id SSending ("CUPS → " +:+ display);
  _ ← ignore (check_printer_ready p target);
  _ ← print_pdf p target path (ji_copies job);
  _ ← emit_ok id SSent ("Submitted to CUPS for " +:+ display);
  _ ← bail_if_cancelled id "before CUPS verify";
  v ← verify_print_completion p target 180;
  if pv_success v then
    _ ← emit_verified id CUPS_LPSTAT ("CUPS job completed on " +:+ display);
    emit_ok id SCompleted ("Printed via CUPS on " +:+ display)
  else fail_verified id CUPS_LPSTAT
         ("CUPS spooler " +:+ pv_spooler_status v +:+ ": " +:+ pv_detail v +:+ " (printer: " +:+ target +:+ ")").
Definition cups (p : Platform) (target : string) : Backend :=
  {| backend_name := "cups"; print := cups_print p target |}.

(** ** [backend_print_proxy.rs] *)

Definition NEWLINE : string := of_chars [10].
Definition curl_command (url path : string) : list string :=
  ["curl"; "-s"; "-X"; "POST"; "--data-binary"; "@" +:+ path; "-H"; "Content-Type: application/pdf";
   "-w"; NEWLINE +:+ "%{http_code}"; "--connect-timeout"; "10"; "--max-time"; "120"; url].
Definition answer_lines (out : ProcessOutput) : list (list Z) := lines (trim (chars (p_stdout out))).
Definition http_code (ls : list (list Z)) : Z :=
  match rev ls with
  | l :: _ => match parse_u16 l with Ok n => n | Err _ => 0 end
  | [] => 0
  end.
Definition answer_body (ls : list (list Z)) : string :=
  if (1 <? length ls)%nat then String.concat NEWLINE (map of_chars (take (length ls - 1) ls)) else "".
Definition proxy_print (url : string) (job : PrintJobInfo) (path : string) : PM unit :=
  let display := display_of job in
  let id := ji_job_id job in
  _ ← bail_if_cancelled id "before proxy POST";
  _ ← emit_ok id SSending ("Proxy → " +:+ display);
  out ← output_or_fail (curl_command url path);
  let code := http_code (answer_lines out) in
  let body := answer_body (answer_lines out) in
  if negb (p_success out) then
    _ ← emit_fail id SFailed ("Proxy unreachable: " +:+ take_chars 200 (p_stderr out));
    bail ("print proxy unreachable: " +:+ p_stderr out)
  else if code =? 200 then
    _ ← emit_verified id "none" ("Proxied to " +:+ url +:+ " — no local verification");
    emit_ok id SCompleted ("Printed via proxy for " +:+ display)
  else
    _ ← emit_fail id SFailed ("Proxy error " +:+ z_to_string code +:+ ": " +:+ take_chars 200 body);
    bail ("print proxy returned " +:+ z_to_string code +:+ ": " +:+ body).
Definition print_proxy (url : string) : Backend := {| backend_name := "print_proxy"; print := proxy_print url |}.

(** ** [backend_direct_raw.rs] *)

(** One connection: connect, write, flush, shut down the writing side. *)
Definition send_copy (address : string) (data : bytes) : PM unit :=
  w ← gets id;
  let s := raw_stream address data (length (requests w)) in
  _ ← modify (λ w, set_requests (requests w ++ [(address, take (se_sent s) data)])
                     (set_now (now w + Z.max 0 (se_took s)) w));
  match se_error s with Some e => bail e | None => mret tt end.
Definition megabytes (data : bytes) : string :=
  fixed1 (f64_div (f64_of_Z (Z.of_nat (length data))) (f64_of_Z (1024 * 1024))) +:+ "MB".
Definition raw_copy (address id : string) (data : bytes) (_ : Z) : PM unit :=
  _ ← bail_if_cancelled id "before RAW copy send"; send_copy address data.
Definition send_raw (address : string) (job : PrintJobInfo) (output_path display : string) : PM unit :=
  data ← fs_read output_path;
  let id := ji_job_id job in
  let copies := Z.max (ji_copies job) 1 in
  let amount := megabytes data +:+ " × " +:+ z_to_string copies +:+ " copies" in
  _ ← emit_ok id SSending ("RAW TCP → " +:+ display +:+ " (" +:+ address +:+ "), " +:+ amount);
  _ ← for_each (map Z.of_nat (seq 1 (Z.to_nat copies))) (raw_copy address id data);
  _ ← emit_ok id SSent (display +:+ " — " +:+ amount +:+ " delivered, socket closed cleanly");
  emit_ok id SCompleted (display +:+ " — delivered (no ACK via RAW)").
Definition direct_raw_print (address gs_device : string) (gs_resolution : Z) (job : PrintJobInfo) (path : string)
    : PM unit :=
  let output_path := with_extension path "raw" in
  _ ← render path output_path gs_device gs_resolution (ji_job_id job);
  finally (send_raw address job output_path (display_of job)) (λ w, set_files (delete output_path (files w)) w).
Definition direct_raw (address gs_device : string) (gs_resolution : Z) : Backend :=
  {| backend_name := "direct_raw"; print := direct_raw_print address gs_device gs_resolution |}.
End spooler.
