(* ===== verification/SpoolerRaw.v ===== *)
(** * RAW printing through the Windows spooler

    [src/crates/devbridge-client/src/backend_windows_spooler_raw]: [mod.rs] (the
    decisions and the back end) and [platform_windows.rs] (the RAW document and
    its verification).  The winspool functions are the interface [Winspool]; the
    bytes they accept are logged among the world's [requests], with a mark for
    the start, the abort and the end of a document. *)

From Stdlib Require Import ZArith Ascii String.
From stdpp Require Import gmap.
From S2P Require Import Prelude RustStd Text Core Config PrintBackend Spooler.
#[local] Open Scope Z_scope.

(** How long a call took and what it answered; the number is of the calls
    logged before.  [end_doc]: the last error of the system, if it failed. *)
Class Winspool : Type := {
  open_printer : string → nat → Z * result string unit;
  start_doc : string → string → nat → Z * result string Z;
  write_printer : bytes → nat → Z * result string Z;
  end_doc : nat → Z * result string unit;
}.
(** [WritePrinter] accepts at most what it is offered. *)
Class WinspoolLaws `{Winspool} : Prop := {
  write_printer_within : ∀ data n t k, write_printer data n = (t, Ok k) → 0 ≤ k ≤ Z.of_nat (length data);
}.

(** ** [mod.rs] *)

Definition expected_spooled_bytes (payload_len copies : Z) : Z := payload_len * Z.max copies 1 mod 2 ^ 64.
Definition spool_document_name (document_name job_id : string) : string :=
  let name := trim (chars document_name) in
  match name with [] => "DevBridge " +:+ job_id | _ => of_chars name end.

Inductive SpoolerOutcome :=
| Printed (num : Z) (port : string)
| ProcessorFailed (code : Z) (processor : string)
| Pending.

Definition spooler_events_query (printer : string) (spool_job_id : Z) (since : string) : string :=
  let job := z_to_string spool_job_id in
  let p := ps_quote printer in
  "$ev = Get-WinEvent -FilterHashtable @{LogName='Microsoft-Windows-PrintService/Operational'; Id=@(307,842); StartTime=[datetime]'"
    +:+ since +:+ "'} -ErrorAction SilentlyContinue; $ev | Where-Object { $_.Id -eq 307 -and [string]$_.Properties[0].Value -eq '"
    +:+ job +:+ "' -and [string]$_.Properties[4].Value -eq '" +:+ p
    +:+ "' } | Select-Object -First 1 | ForEach-Object { '307|{0}|{1}' -f $_.Properties[6].Value, $_.Properties[5].Value }; $ev | Where-Object { $_.Id -eq 842 -and [string]$_.Properties[0].Value -eq '"
    +:+ job +:+ "' -and [string]$_.Properties[2].Value -eq '" +:+ p
    +:+ "' -and [string]$_.Properties[5].Value -ne '0' } | Select-Object -First 1 | ForEach-Object { '842|{0}|{1}' -f $_.Properties[5].Value, $_.Properties[1].Value }".

Definition PIPE : list Z := [124].
(** [splitn(3, '|')] with all three parts, and the number in the middle. *)
Definition event_line (line : list Z) : option (list Z * Z * list Z) :=
  match split_once PIPE (trim line) with
  | Some (event, rest) =>
    match split_once PIPE rest with
    | Some (num, text) =>
      match parse_u64 (trim num) with Ok n => Some (trim event, n, trim text) | Err _ => None end
    | None => None
    end
  | None => None
  end.
Fixpoint scan_events (ls : list (list Z)) (failed : option SpoolerOutcome) : SpoolerOutcome :=
  match ls with
  | [] => default Pending failed
  | l :: ls' =>
    match event_line l with
    | Some (event, n, text) =>
      if bool_decide (event = chars "307") then Printed n (of_chars text)
      else if bool_decide (event = chars "842") && bool_decide (failed = None) then
        scan_events ls' (Some (ProcessorFailed n (of_chars text)))
      else scan_events ls' failed
    | None => scan_events ls' failed
    end
  end.
Definition parse_spooler_outcome (stdout : string) : SpoolerOutcome := scan_events (lines (chars stdout)) None.

Definition processor_failure_detail (spool_job_id : Z) (printer processor : string) (code : Z) : string :=
  "EventID 842: print processor " +:+ processor +:+ " refused RAW job " +:+ z_to_string spool_job_id +:+ " on "
    +:+ printer +:+ " (Win32 error " +:+ z_to_string code
    +:+ ") — the printer's driver cannot take RAW data; use a v3 driver (winprint)".
Definition eventid_307_evidence (spool_job_id : Z) (printer port : string) (num expected : Z) : string :=
  "EventID 307: spooler job " +:+ z_to_string spool_job_id +:+ " on " +:+ printer +:+ " via port " +:+ port
    +:+ ", " +:+ z_to_string num +:+ " bytes (expected " +:+ z_to_string expected +:+ ")".
Definition check_spooled_bytes (actual expected : Z) : result string unit :=
  if actual =? expected then Ok tt
  else Err ("EventID 307 reports " +:+ z_to_string actual +:+ " bytes but " +:+ z_to_string expected
              +:+ " bytes were spooled — RAW stream altered or truncated").

(** ** [platform_windows.rs]: the RAW document *)

Definition DOC_START (printer : string) : string := "StartDocPrinterW " +:+ printer.
Definition DOC_WRITE : string := "WritePrinter".
Definition DOC_ABORT : string := "AbortPrinter".
Definition DOC_END : string := "EndDocPrinter".
Definition WRITE_CHUNK : Z := 1024 * 1024.

Section raw.
Context `{Outside} `{StampText} `{Winspool}.

Definition log_call (name : string) (data : bytes) : PM unit :=
  modify (λ w, set_requests (requests w ++ [(name, data)]) w).
(** A call that takes its time. *)
Definition winspool {A} (call : nat → Z * A) : PM A :=
  w ← gets id;
  let '(t, a) := call (length (requests w)) in
  _ ← sleep (Z.max 0 t); mret a.

Definition chunk_of (data : bytes) : bytes := take (Z.to_nat (Z.min (Z.of_nat (length data)) WRITE_CHUNK)) data.
(** Every round writes a byte at least: the length is fuel enough. *)
Fixpoint write_all (fuel : nat) (data : bytes) : PM unit :=
  match data with
  | [] => mret tt
  | _ =>
    match fuel with
    | O => bail "unreachable"
    | S fuel' =>
      r ← winspool (write_printer (chunk_of data));
      match r with
      | Err e => bail ("WritePrinter failed: " +:+ e)
      | Ok written =>
        if written =? 0 then bail "WritePrinter accepted 0 bytes"
        else
          _ ← log_call DOC_WRITE (take (Z.to_nat written) data);
          write_all fuel' (drop (Z.to_nat written) data)
      end
    end
  end.

Definition spool_copies (data : bytes) (copies : Z) (before_copy : PM unit) : PM unit :=
  for_each (seq 1 (Z.to_nat copies)) (λ _, _ ← before_copy; write_all (length data) data).
Definition raw_job_on (id : Z) (printer : string) : string :=
  "RAW job " +:+ z_to_string id +:+ " on " +:+ quoted printer.
Definition spool_raw (printer doc_name : string) (data : bytes) (copies : Z) (before_copy : PM unit) : PM Z :=
  opened ← winspool (open_printer printer);
  match opened with
  | Err e => bail ("OpenPrinterW(" +:+ quoted printer +:+ ") failed: " +:+ e)
  | Ok _ =>
    started ← winspool (start_doc printer doc_name);
    match started with
    | Err e => bail ("StartDocPrinterW(RAW) on " +:+ quoted printer +:+ " failed: " +:+ e)
    | Ok id =>
      _ ← log_call (DOC_START printer) [];
      written ← attempt (spool_copies data copies before_copy);
      match written with
      | Err e => _ ← log_call DOC_ABORT []; throw (with_context (raw_job_on id printer +:+ " aborted") e)
      | Ok _ =>
        ended ← winspool end_doc;
        _ ← log_call DOC_END [];
        match ended with
        | Err e => bail ("EndDocPrinter for " +:+ raw_job_on id printer +:+ " failed: " +:+ e)
        | Ok _ => mret id
        end
      end
    end
  end.

(** ** [platform_windows.rs]: the verification *)

Definition job_status_query (printer : string) (spool_job_id : Z) : string :=
  "Get-PrintJob -PrinterName '" +:+ ps_quote printer +:+ "' -ID " +:+ z_to_string spool_job_id
    +:+ " -ErrorAction SilentlyContinue | ForEach-Object { [string]$_.JobStatus }".
Definition no_event_text (spool_job_id : Z) (printer status : string) : string :=
  "No EventID 307 within " +:+ z_to_string (VERIFY_TIMEOUT / 1000) +:+ "s for RAW job " +:+ z_to_string spool_job_id
    +:+ " on " +:+ printer +:+ " (spooler status: " +:+ (if status =t? "" then "job gone" else status) +:+ ")".

(** [fail_event] with its own evidence. *)
Definition refuse {A} (job_id detail evidence : string) : PM A :=
  t ← gets now;
  _ ← emit (verified_failure t job_id SFailed detail EVENTID_307 evidence);
  bail detail.
Definition raw_round (job_id printer display : string) (spool_job_id expected : Z) (query : string)
    : PM (unit + unit) :=
  _ ← bail_if_cancelled job_id "during RAW EventID 307 verify";
  out ← output_or_fail (powershell query);
  match parse_spooler_outcome (p_stdout out) with
  | ProcessorFailed code processor =>
    let detail := processor_failure_detail spool_job_id printer processor code in
    refuse job_id detail detail
  | Printed num port =>
    let evidence := eventid_307_evidence spool_job_id printer port num expected in
    match check_spooled_bytes num expected with
    | Err reason => refuse job_id reason evidence
    | Ok _ =>
      _ ← emit_verified job_id EVENTID_307 evidence;
      _ ← emit_ok job_id SCompleted
            ("Printed RAW on " +:+ display +:+ " (EventID 307, " +:+ z_to_string num +:+ " B)");
      mret (inr tt)
    end
  | Pending => mret (inl tt)
  end.
Definition raw_no_event (job_id printer : string) (spool_job_id : Z) (_ : unit) : PM unit :=
  status ← output (powershell (job_status_query printer spool_job_id));
  let detail := no_event_text spool_job_id printer
                  (match status with Ok o => trimmed_stdout o | Err _ => "" end) in
  refuse job_id detail detail.

Definition print_and_verify_windows (job : PrintJobInfo) (printer display : string) (data : bytes)
    (copies expected : Z) : PM unit :=
  let id := ji_job_id job in
  _ ← ignore (output (powershell ENABLE_LOG));
  t ← gets now;
  let since := local_stamp (t - 5000) in
  let doc_name := spool_document_name (ji_document_name job) id in
  spooled ← attempt (spool_raw printer doc_name data copies (bail_if_cancelled id "before RAW copy write"));
  match spooled with
  | Err e =>
    c ← is_cancelled;
    _ ← (if c : bool then mret tt
         else emit_fail id SFailed ("RAW spool to " +:+ display +:+ " failed: " +:+ full_text e));
    throw e
  | Ok spool_job_id =>
    _ ← emit_ok id SSent ("Spooled as RAW job " +:+ z_to_string spool_job_id +:+ " on " +:+ display +:+ " ("
                            +:+ z_to_string expected +:+ " B)");
    t ← gets now;
    poll_until (poll_rounds VERIFY_TIMEOUT VERIFY_POLL)
      (raw_round id printer display spool_job_id expected (spooler_events_query printer spool_job_id since))
      (raw_no_event id printer spool_job_id) (t + VERIFY_TIMEOUT) VERIFY_POLL
  end.
(** Elsewhere: refused, loudly. *)
Definition print_and_verify_unix (job : PrintJobInfo) (printer : string) : PM unit :=
  let detail := "print_backend " +:+ quoted BACKEND_NAME +:+ " is only supported on Windows (printer "
                  +:+ printer +:+ ")" in
  _ ← emit_fail (ji_job_id job) SFailed detail;
  bail detail.

Definition raw_print (p : Platform) (target_printer : string) (job : PrintJobInfo) (path : string) : PM unit :=
  let printer := if ji_printer_name job =t? "" then target_printer else ji_printer_name job in
  let display := default printer (ji_printer_display_name job) in
  let id := ji_job_id job in
  _ ← bail_if_cancelled id "before RAW spooler submit";
  data ← fs_read path;
  let copies := Z.max (ji_copies job) 1 in
  let len := Z.of_nat (length data) in
  let expected := expected_spooled_bytes len copies in
  _ ← emit_ok id SSending ("Windows spooler RAW → " +:+ display +:+ " (" +:+ z_to_string len +:+ " B × "
                             +:+ z_to_string copies +:+ ")");
  match p with
  | Windows => print_and_verify_windows job printer display data copies expected
  | Unix => print_and_verify_unix job printer
  end.
Definition windows_spooler_raw (p : Platform) (target_printer : string) : Backend :=
  {| backend_name := BACKEND_NAME; print := raw_print p target_printer |}.
End raw.

(** * The loops of the back ends, and what a RAW document leaves in the spooler *)

(** ** The polling loop *)

Section polls.
Context `{Outside}.

(** An invariant of the rounds carries over to the end of the loop, which its
    fuel does not cut short. *)
Lemma poll_until_ends {A B} (I : World → Prop) (Q : result AnyError A → World → Prop) (round : PM (B + A))
    at_deadline deadline interval fuel w :
  0 < interval →
  (∀ w, I w → ends round w (λ r w1, match r with
     | Err e => Q (Err e) w1
     | Ok (inr a) => Q (Ok a) w1
     | Ok (inl b) => now w ≤ now w1 ∧ (deadline < now w1 → ends (at_deadline b) w1 Q)
                     ∧ I (set_now (now w1 + interval) w1)
     end)) →
  deadline - now w < interval * Z.of_nat fuel → I w →
  ends (poll_until (S fuel) round at_deadline deadline interval) w Q.
Proof.
  intros Hi Hround. revert w. induction fuel as [|fuel IH]; intros w Hd HI.
  all: apply ends_bind; eapply ends_mono; [by apply Hround|]; intros [[b|a]|e] w1 HQ; simpl; [|done|done].
  all: destruct HQ as (Ht & Hg & HI1); unfold ends, mbind, M_bind; simpl.
  all: destruct (Z.ltb_spec deadline (now w1)); [by apply Hg|].
  - exfalso. lia.
  - apply (IH (set_now (now w1 + interval) w1)); [simpl; lia|done].
Qed.

Lemma poll_rounds_enough span interval : 0 ≤ span → 0 < interval →
  ∃ fuel, poll_rounds span interval = S fuel ∧ span < interval * Z.of_nat fuel.
Proof.
  intros Hs Hi. pose proof (Z.div_pos span interval Hs Hi). pose proof (Z.div_mod span interval).
  pose proof (Z.mod_pos_bound span interval Hi).
  exists (Z.to_nat (span / interval + 1)). split; [unfold poll_rounds; lia|]. nia.
Qed.

(** More fuel changes nothing: a loop never ends for the lack of it. *)
Lemma poll_until_more {A B} (round : PM (B + A)) at_deadline deadline interval fuel k w :
  0 < interval → (∀ w, now w ≤ now (snd (round w))) → deadline - now w < interval * Z.of_nat fuel →
  poll_until (S fuel + k) round at_deadline deadline interval w = poll_until (S fuel) round at_deadline deadline interval w.
Proof.
  intros Hi Hr. revert w. induction fuel as [|fuel IH]; intros w Hd.
  all: simpl; specialize (Hr w); unfold mbind, M_bind; destruct (round w) as [[[b|a]|e] w1]; [|done|done].
  all: simpl in *; destruct (Z.ltb_spec deadline (now w1)); [done|].
  - exfalso. lia.
  - apply (IH (set_now (now w1 + interval) w1)). simpl. lia.
Qed.
End polls.

(** ** What a step adds to the world *)

Section adds.
Context `{Outside}.

Definition stages (w : World) : list PrintStage := map (λ e, ev_stage (snd e)) (emitted w).
Record adds (reqs : list (string * bytes)) (st : list PrintStage) (w w' : World) : Prop := {
  adds_requests : requests w' = requests w ++ reqs;
  adds_stages : stages w' = stages w ++ st;
  adds_now : now w ≤ now w';
}.
Lemma adds_refl w : adds [] [] w w.
Proof. split; rewrite ?app_nil_r; done || lia. Qed.
Lemma adds_trans r1 r2 s1 s2 w1 w2 w3 :
  adds r1 s1 w1 w2 → adds r2 s2 w2 w3 → adds (r1 ++ r2) (s1 ++ s2) w1 w3.
Proof. intros [] []. split; [| |lia]; rewrite app_assoc; congruence. Qed.
Lemma adds_sleep t w : 0 ≤ t → adds [] [] w (set_now (now w + t) w).
Proof. intros Ht. split; simpl; rewrite ?app_nil_r; done || lia. Qed.
Lemma adds_emit e w : adds [] [ev_stage e] w (snd (emit e w)).
Proof. split; simpl; [by rewrite app_nil_r| |lia]. unfold stages. simpl. by rewrite map_app. Qed.

Lemma ends_emit {Q : result AnyError unit → World → Prop} e w :
  (∀ w', adds [] [ev_stage e] w w' → files w' = files w → Q (Ok tt) w') → ends (emit e) w Q.
Proof. intros HQ. apply (HQ _ (adds_emit e w) eq_refl). Qed.
Lemma ends_fs_read data {Q : result AnyError bytes → World → Prop} path w :
  files w !! path = Some data → Q (Ok data) w → ends (fs_read path) w Q.
Proof. intros E HQ. unfold ends, fs_read, mbind, M_bind. cbn [gets fst snd]. by rewrite E. Qed.
Lemma ends_bail_if_cancelled {Q : result AnyError unit → World → Prop} job_id at_ w :
  Q (Ok tt) w → (∀ w' msg, adds [] [SFailed] w w' → Q (Err (anyhow msg)) w') →
  ends (bail_if_cancelled job_id at_) w Q.
Proof.
  intros Hok Herr. unfold ends, bail_if_cancelled, is_cancelled, mbind, M_bind. simpl.
  destruct (match cancelled_at w with Some t => _ | None => _ end); simpl; [|done].
  apply Herr, (adds_emit (event_fail (utc (now w)) job_id SFailed _)).
Qed.
Lemma ends_output {Q : result AnyError (result string ProcessOutput) → World → Prop} command w :
  (∀ e, Q (Ok (Err e)) w) →
  (∀ n d out w', run_program command n = Ok (d, out) → adds [] [] w w' → Q (Ok (Ok out)) w') →
  ends (output command) w Q.
Proof.
  intros Herr Hok. unfold ends, output, mbind, M_bind. simpl.
  destruct (run_program command (length (programs w))) as [[d out]|e] eqn:E; simpl; [|done].
  eapply Hok; [exact E|]. split; simpl; rewrite ?app_nil_r; done || lia.
Qed.
Lemma ends_output_or_fail {Q : result AnyError ProcessOutput → World → Prop} command w :
  (∀ e, Q (Err (anyhow e)) w) →
  (∀ n d out w', run_program command n = Ok (d, out) → adds [] [] w w' → Q (Ok out) w') →
  ends (output_or_fail command) w Q.
Proof.
  intros Herr Hok. apply ends_bind, ends_output; [intros e; apply Herr|].
  intros n d out w' Hr Ha. eapply Hok; eauto.
Qed.
End adds.

(** ** A RAW document in the spooler *)

(** What becomes of the document of a job, and the calls that make it. *)
Inductive DocFate := NotStarted | Aborted | Ended.
Definition writes (pieces : list bytes) : list (string * bytes) := map (pair DOC_WRITE) pieces.
Definition document_log (printer : string) (fate : DocFate) (pieces : list bytes) : list (string * bytes) :=
  match fate with
  | NotStarted => []
  | Aborted => (DOC_START printer, []) :: writes pieces ++ [(DOC_ABORT, [])]
  | Ended => (DOC_START printer, []) :: writes pieces ++ [(DOC_END, [])]
  end.
(** The payload once per copy. *)
Definition whole (data : bytes) (copies : Z) : bytes := concat (replicate (Z.to_nat copies) data).
Definition document_of (fate : DocFate) (pieces : list bytes) (content : bytes) : Prop :=
  match fate with
  | NotStarted => pieces = []
  | Aborted => concat pieces `prefix_of` content
  | Ended => concat pieces = content
  end.

Section document.
Context `{Outside} `{WinspoolLaws}.

Lemma ends_winspool {A} {Q : result AnyError A → World → Prop} (call : nat → Z * A) w :
  (∀ n t a w', call n = (t, a) → adds [] [] w w' → Q (Ok a) w') → ends (winspool call) w Q.
Proof.
  intros HQ. unfold ends, winspool, mbind, M_bind. simpl.
  destruct (call (length (requests w))) as [t a] eqn:E. simpl. eapply HQ; [exact E|]. apply adds_sleep. lia.
Qed.
Lemma adds_log name data w : adds [(name, data)] [] w (snd (log_call name data w)).
Proof. split; simpl; rewrite ?app_nil_r; done || lia. Qed.

Definition written (data : bytes) (w : World) (r : result AnyError unit) (w' : World) : Prop :=
  ∃ pieces rest st, adds (writes pieces) st w w' ∧ data = concat pieces ++ rest ∧ Forall (eq SFailed) st
    ∧ match r with Ok _ => rest = [] ∧ st = [] | Err e => marker e = None end.
Lemma written_nothing data w w' st (e : AnyError) :
  adds [] st w w' → Forall (eq SFailed) st → marker e = None → written data w (Err e) w'.
Proof. intros Ha Hst He. by exists [], data, st. Qed.
Lemma written_more pieces w w1 data r w' :
  adds (writes pieces) [] w w1 → written data w1 r w' → written (concat pieces ++ data) w r w'.
Proof.
  intros Ha (ps & rest & st' & Ha' & -> & Hst & Hr). exists (pieces ++ ps), rest, st'. split_and!; [|  |done|done].
  - unfold writes. rewrite map_app. apply (adds_trans _ _ [] st' _ _ _ Ha Ha').
  - by rewrite concat_app, app_assoc.
Qed.

Lemma chunk_of_length data : (length (chunk_of data) ≤ length data)%nat.
Proof. unfold chunk_of. rewrite length_take. lia. Qed.
Lemma write_all_ends fuel data w : (length data ≤ fuel)%nat → ends (write_all fuel data) w (written data w).
Proof.
  revert data w. induction fuel as [|fuel IH]; intros [|b data] w Hf; simpl in Hf; [|lia| |].
  1, 2: exists [], [], []; repeat split; rewrite ?app_nil_r; done || lia.
  cbn [write_all]. apply ends_bind, ends_winspool. intros n t [k|e] w1 Hk Ha; [|by eapply written_nothing].
  destruct (Z.eqb_spec k 0) as [->|Hk0]; [by eapply written_nothing|].
  apply write_printer_within in Hk. pose proof (chunk_of_length (b :: data)) as Hl. simpl in Hl.
  set (d := b :: data) in *. assert (length d = S (length data)) as Hd by done.
  apply ends_bind. unfold ends at 1. cbn [log_call modify fst snd].
  eapply ends_mono; [apply IH; rewrite length_drop; lia|]. intros r w' Hw.
  rewrite <- (take_drop (Z.to_nat k) d) at 1. rewrite <- (app_nil_r (take _ _)).
  apply (written_more [take (Z.to_nat k) d] w (snd (log_call DOC_WRITE (take (Z.to_nat k) d) w1))); [|exact Hw].
  apply (adds_trans [] _ [] [] _ _ _ Ha (adds_log DOC_WRITE _ w1)).
Qed.

Definition checks (before_copy : PM unit) : Prop := ∀ w, ends before_copy w (λ r w',
  match r with Ok _ => w' = w | Err e => adds [] [SFailed] w w' ∧ marker e = None end).
Lemma spool_copies_ends data copies before_copy w : checks before_copy →
  ends (spool_copies data copies before_copy) w (written (whole data copies) w).
Proof.
  intros Hb. unfold spool_copies, whole. rewrite <- (length_seq (Z.to_nat copies) 1) at 2.
  revert w. induction (seq 1 (Z.to_nat copies)) as [|i l IH]; intros w.
  { exists [], [], []. repeat split; rewrite ?app_nil_r; done || lia. }
  cbn [for_each length replicate concat]. apply ends_bind, ends_bind. eapply ends_mono; [apply Hb|].
  intros [[]|e] w1; [intros ->|intros [Ha He]; eapply written_nothing; [exact Ha|by constructor|done]].
  eapply ends_mono; [apply write_all_ends; lia|]. intros [[]|e] w1 (ps & rest & st & Ha & Hd & Hst & Hr).
  - destruct Hr as [-> ->]. rewrite app_nil_r in Hd. eapply ends_mono; [apply IH|]. intros r w' Hw.
    rewrite Hd at 1. by eapply written_more.
  - exists ps, (rest ++ concat (replicate (length l) data)), st. split_and!; [done| |done|done].
    rewrite Hd at 1. by rewrite app_assoc.
Qed.

Definition spooled (printer doc_name : string) (content : bytes) (w : World) (r : result AnyError Z) (w' : World)
    : Prop :=
  ∃ fate pieces st, adds (document_log printer fate pieces) st w w' ∧ document_of fate pieces content
    ∧ Forall (eq SFailed) st
    ∧ match r with
      | Ok id => fate = Ended ∧ st = [] ∧ ∃ n t, start_doc printer doc_name n = (t, Ok id)
      | Err e => marker e = None
      end.
Lemma not_spooled printer doc_name content w w' e : adds [] [] w w' → marker e = None →
  spooled printer doc_name content w (Err e) w'.
Proof. intros Ha He. by exists NotStarted, [], []. Qed.

Lemma spool_raw_ends printer doc_name data copies before_copy w : checks before_copy →
  ends (spool_raw printer doc_name data copies before_copy) w (spooled printer doc_name (whole data copies) w).
Proof.
  intros Hb. unfold spool_raw. apply ends_bind, ends_winspool. intros _ _ [_|e] w1 _ Ha1; [|by apply not_spooled].
  apply ends_bind, ends_winspool. intros n t [id|e] w2 Hid Ha2;
    pose proof (adds_trans _ _ _ _ _ _ _ Ha1 Ha2) as Ha12; [|by apply not_spooled].
  apply ends_bind. unfold ends at 1. cbn [log_call modify fst snd].
  pose proof (adds_trans _ _ _ _ _ _ _ Ha12 (adds_log (DOC_START printer) [] w2)) as Ha3.
  set (w3 := snd (log_call _ _ w2)) in *. change (set_requests _ w2) with w3.
  apply ends_bind, ends_attempt. eapply ends_mono; [by apply spool_copies_ends|].
  intros r w4 (ps & rest & st & Ha4 & Hd & Hst & Hr). pose proof (adds_trans _ _ _ _ _ _ _ Ha3 Ha4) as Ha34.
  destruct r as [[]|e].
  - destruct Hr as [-> ->]. rewrite app_nil_r in Hd. apply ends_bind, ends_winspool. intros _ _ ended w5 _ Ha5.
    apply ends_bind. unfold ends at 1. cbn [log_call modify fst snd].
    pose proof (adds_trans _ _ _ _ _ _ _ (adds_trans _ _ _ _ _ _ _ Ha34 Ha5) (adds_log DOC_END [] w5)) as Ha6.
    cbn [app] in Ha6. rewrite ?app_nil_r in Ha6.
    destruct ended; exists Ended, ps, []; (split_and!; [exact Ha6|done|done|by simpl; eauto]).
  - pose proof (adds_trans _ _ _ _ _ _ _ Ha34 (adds_log DOC_ABORT [] w4)) as Ha5. cbn [app] in Ha5; rewrite app_nil_r in Ha5.
    exists Aborted, ps, st. split_and!; [exact Ha5|exists rest; exact Hd|done|done].
Qed.
End document.

(** ** The verification of a RAW document *)

Section verification.
Context `{Outside} `{StampText} `{WinspoolLaws}.

(** The log of the print service holds an EventID 307 of this spooler job with
    this number of bytes. *)
Definition confirmed (printer : string) (id num : Z) : Prop :=
  ∃ since n d out port, run_program (powershell (spooler_events_query printer id since)) n = Ok (d, out)
    ∧ parse_spooler_outcome (p_stdout out) = Printed num port.
Definition verified (printer : string) (id expected : Z) (w : World) (r : result AnyError unit) (w' : World) : Prop :=
  ∃ st, adds [] st w w' ∧ match r with
    | Ok _ => st = [SVerified; SCompleted] ∧ confirmed printer id expected
    | Err e => Forall (eq SFailed) st ∧ marker e = None
    end.
Lemma verified_later printer id expected w w1 r w' :
  adds [] [] w w1 → verified printer id expected w1 r w' → verified printer id expected w r w'.
Proof. intros Ha (st & Ha' & Hr). exists st. split; [apply (adds_trans _ _ _ _ _ _ _ Ha Ha')|done]. Qed.
Lemma verified_failed printer id expected w w' st e :
  adds [] st w w' → Forall (eq SFailed) st → marker e = None → verified printer id expected w (Err e) w'.
Proof. intros Ha Hst He. by exists st. Qed.

Lemma ends_refuse {A} {Q : result AnyError A → World → Prop} job_id detail evidence w :
  (∀ w' e, adds [] [SFailed] w w' → marker e = None → Q (Err e) w') → ends (refuse job_id detail evidence) w Q.
Proof.
  intros HQ. unfold refuse. apply ends_bind. unfold ends at 1. cbn [gets fst snd].
  apply ends_bind, ends_emit. intros w' Ha _. by apply HQ.
Qed.

Lemma raw_round_ends job_id printer display id expected since w :
  ends (raw_round job_id printer display id expected (spooler_events_query printer id since)) w
    (λ r w1, match r with
     | Ok (inl _) => adds [] [] w w1
     | Ok (inr _) => verified printer id expected w (Ok tt) w1
     | Err e => verified printer id expected w (Err e) w1
     end).
Proof.
  apply ends_bind, ends_bail_if_cancelled; [|intros; eapply verified_failed; [done|by constructor|done]].
  apply ends_bind, ends_output_or_fail; [intros; eapply verified_failed; [apply adds_refl|done|done]|].
  intros n d out w1 Hrun Ha.
  destruct (parse_spooler_outcome (p_stdout out)) as [num port|code processor|] eqn:Eo; [| |exact Ha].
  - unfold check_spooled_bytes. destruct (Z.eqb_spec num expected) as [->|]; cbn [fst snd].
    + apply ends_bind, ends_bind. unfold ends at 1. cbn [gets fst snd]. apply ends_emit. intros w2 Ha2 _.
      apply ends_bind, ends_bind. unfold ends at 1. cbn [gets fst snd]. apply ends_emit. intros w3 Ha3 _.
      exists [SVerified; SCompleted]. split; [|split; [done|by exists since, n, d, out, port]].
      apply (adds_trans _ _ _ _ _ _ _ (adds_trans _ _ _ _ _ _ _ Ha Ha2) Ha3).
    + apply ends_refuse. intros w2 e Ha2 He. apply (verified_later _ _ _ _ w1 _ _ Ha).
      eapply verified_failed; [exact Ha2|by constructor|done].
  - apply ends_refuse. intros w2 e Ha2 He. apply (verified_later _ _ _ _ w1 _ _ Ha).
    eapply verified_failed; [exact Ha2|by constructor|done].
Qed.

Lemma raw_verify_ends job_id printer display id expected since w :
  ends (poll_until (poll_rounds VERIFY_TIMEOUT VERIFY_POLL)
          (raw_round job_id printer display id expected (spooler_events_query printer id since))
          (raw_no_event job_id printer id) (now w + VERIFY_TIMEOUT) VERIFY_POLL) w (verified printer id expected w).
Proof.
  destruct (poll_rounds_enough VERIFY_TIMEOUT VERIFY_POLL) as (fuel & -> & Hf); [done..|].
  apply (poll_until_ends (adds [] [] w)); [done| |lia|apply adds_refl].
  intros w1 Ha. eapply ends_mono; [apply raw_round_ends|]. intros [[[]|[]]|e] w2 Hr; [|by eapply verified_later..].
  pose proof (adds_trans _ _ _ _ _ _ _ Ha Hr) as Ha2. split_and!.
  - apply Hr.
  - intros _. apply ends_bind, ends_output.
    + intros e0. apply ends_refuse. intros w3 e Ha3 He. apply (verified_later _ _ _ _ w2 _ _ Ha2).
      eapply verified_failed; [exact Ha3|by constructor|done].
    + intros n d out w3 _ Ha3. apply ends_refuse. intros w4 e Ha4 He. apply (verified_later _ _ _ _ w2 _ _ Ha2).
      eapply verified_failed; [exact (adds_trans _ _ _ _ _ _ _ Ha3 Ha4)|by constructor|done].
  - apply (adds_trans _ _ _ _ _ _ _ Ha2 (adds_sleep VERIFY_POLL w2 ltac:(done))).
Qed.

(** ** The whole print *)

(** One document, whole or aborted or not begun; a success only on the event
    that counts its bytes. *)
Definition raw_printed (printer : string) (data : bytes) (copies : Z) (w : World) (r : result AnyError unit)
    (w' : World) : Prop :=
  ∃ fate pieces st, adds (document_log printer fate pieces) st w w'
    ∧ document_of fate pieces (whole data copies)
    ∧ (SSent ∈ st → fate = Ended)
    ∧ match r with
      | Ok _ => st = [SSending; SSent; SVerified; SCompleted] ∧ fate = Ended
                ∧ ∃ id doc_name n t, start_doc printer doc_name n = (t, Ok id)
                  ∧ confirmed printer id (expected_spooled_bytes (Z.of_nat (length data)) copies)
      | Err e => marker e = None ∧ SCompleted ∉ st ∧ SVerified ∉ st
      end.

Lemma only_failures st : Forall (eq SFailed) st → SSent ∉ st ∧ SCompleted ∉ st ∧ SVerified ∉ st.
Proof. rewrite Forall_forall. intros Hf. split_and!; intros Hin; by apply Hf in Hin. Qed.
Lemma raw_cancelled printer data copies w w' msg :
  adds [] [SFailed] w w' → raw_printed printer data copies w (Err (anyhow msg)) w'.
Proof.
  intros Ha. exists NotStarted, [], [SFailed]. split_and!; [done|done| |done|..]; rewrite ?list_elem_of_singleton; done.
Qed.
Lemma ends_emit_ok {Q : result AnyError unit → World → Prop} job_id st detail w :
  (∀ w', adds [] [st] w w' → files w' = files w → Q (Ok tt) w') → ends (emit_ok job_id st detail) w Q.
Proof. intros HQ. apply ends_bind. unfold ends. cbn [gets fst snd]. by apply ends_emit. Qed.
Lemma ends_emit_fail {Q : result AnyError unit → World → Prop} job_id st detail w :
  (∀ w', adds [] [st] w w' → files w' = files w → Q (Ok tt) w') → ends (emit_fail job_id st detail) w Q.
Proof. intros HQ. apply ends_bind. unfold ends. cbn [gets fst snd]. by apply ends_emit. Qed.
Lemma ends_ignore_output {Q : result AnyError unit → World → Prop} command w :
  (∀ w', adds [] [] w w' → Q (Ok tt) w') → ends (ignore (output command)) w Q.
Proof.
  intros HQ. assert (adds [] [] w (snd (output command w))) as Ha; [|exact (HQ _ Ha)].
  apply (ends_output (Q := λ _ w', adds [] [] w w')); [intros; apply adds_refl|done].
Qed.
Lemma checks_cancel job_id at_ : checks (bail_if_cancelled job_id at_).
Proof. intros w. by apply ends_bail_if_cancelled. Qed.

Lemma print_and_verify_ends job printer display data copies w w1 :
  adds [] [SSending] w w1 →
  ends (print_and_verify_windows job printer display data copies
          (expected_spooled_bytes (Z.of_nat (length data)) copies)) w1 (raw_printed printer data copies w).
Proof.
  intros Ha1. apply ends_bind, ends_ignore_output. intros w2 Ha2. pose proof (adds_trans _ _ _ _ _ _ _ Ha1 Ha2) as Ha.
  apply ends_bind. unfold ends at 1. cbn [gets fst snd].
  apply ends_bind, ends_attempt. eapply ends_mono; [apply spool_raw_ends, checks_cancel|].
  intros r w3 (fate & ps & st & Ha3 & Hdoc & Hst & Hr). pose proof (adds_trans _ _ _ _ _ _ _ Ha Ha3) as Ha'.
  cbn [app] in Ha'. destruct r as [id|e].
  - destruct Hr as (-> & -> & n & t & Hid). apply ends_bind, ends_emit_ok. intros w4 Ha4 _.
    pose proof (adds_trans _ _ _ _ _ _ _ Ha' Ha4) as Ha''. rewrite app_nil_r in Ha''.
    apply ends_bind. unfold ends at 1. cbn [gets fst snd]. eapply ends_mono; [apply raw_verify_ends|].
    intros r w5 (st & Ha5 & Hv). pose proof (adds_trans _ _ _ _ _ _ _ Ha'' Ha5) as Hall. rewrite app_nil_r in Hall.
    eexists Ended, ps, _. split; [exact Hall|]. split; [done|]. split; [done|]. destruct r as [[]|e].
    + destruct Hv as [-> Hc]. split; [done|]. split; [done|]. by exists id, (spool_document_name (ji_document_name job) (ji_job_id job)), n, t.
    + destruct Hv as [Hf He]. apply only_failures in Hf as (_ & ? & ?).
      split_and!; [done|..]; cbn [app]; rewrite !elem_of_cons; naive_solver.
  - assert (∀ w4 st', adds [] st' w3 w4 → Forall (eq SFailed) st' → raw_printed printer data copies w (Err e) w4) as Hfail.
    { intros w4 st' Ha4 Hst'. pose proof (adds_trans _ _ _ _ _ _ _ Ha' Ha4) as Hall. rewrite app_nil_r in Hall.
      pose proof (only_failures (st ++ st') ltac:(by apply Forall_app)) as (? & ? & ?).
      eexists fate, ps, _. split; [exact Hall|]. cbn [app].
      split_and!; [done|..]; rewrite ?elem_of_cons; naive_solver. }
    apply ends_bind. unfold ends at 1, is_cancelled. cbn [gets fst snd]. apply ends_bind.
    destruct (match cancelled_at w3 with Some _ => _ | None => _ end).
    + apply (Hfail w3 []); [apply adds_refl|done].
    + apply ends_emit_fail. intros w4 Ha4 _. apply (Hfail w4 _ Ha4). by constructor.
Qed.
End verification.
