(* ===== verification/Startup.v ===== *)
(** * The checks before a client starts

    [src/crates/devbridge-client/src/startup_validation.rs]: a client whose
    configuration would lose jobs, or give two tills one terminal or one key,
    does not start.  [TimExecutor::terminal_specs] reads the terminals of a
    configuration that did. *)

From Stdlib Require Import ZArith Ascii String.
From stdpp Require Import gmap.
From S2P Require Import Prelude RustStd Text Floats Core Sqlite Json TimCard TimSession TimExec Config.
#[local] Open Scope Z_scope.

Definition NEWLINE : string := String "010" "".
Definition RAW_BACKEND_NAME : string := "windows_spooler_raw".

(** ** One check each *)

Section validation.
Context `{UnicodeTables}.

Definition lowercase (s : string) : list Z := str_to_lowercase (chars s).
Definition validate_local_printer_against (available : list string) (target : string) : result string unit :=
  match available with
  | [] => Err ("No printers installed on this machine. Install the printer driver before configuring DevBridge "
                +:+ "(target_printer = " +:+ quoted target +:+ ")")
  | _ =>
    if existsb (λ p, bool_decide (lowercase p = lowercase target)) available then Ok tt
    else Err ("target_printer " +:+ quoted target +:+ " not found on this machine." +:+ NEWLINE
              +:+ "  Available printers:" +:+ NEWLINE
              +:+ String.concat NEWLINE (map (λ p, "    - " +:+ p) available) +:+ NEWLINE
              +:+ "  Suggestion: edit C:\ProgramData\DevBridge\config.toml and set target_printer to one of "
              +:+ "the names above, then restart the DevBridge scheduled task.")
  end.

Definition base_url_problem (url : string) : option string :=
  let t := trimmed url in
  let ok := (starts_with "https://" t || starts_with "http://" t) && negb (existsb is_whitespace (chars t)) in
  if ok then None else Some ("url " +:+ quoted url +:+ " must be an http(s):// base URL").

Definition bad_mm (mm : f64) : bool := negb (is_finite mm && f64_ltb f64_zero mm && f64_leb mm (f64_of_Z 1000)).
Definition mm_problem (name : string) (mm : f64) : list string :=
  problem (bad_mm mm) (name +:+ " = " +:+ f64_to_string mm +:+ " must be > 0 and <= 1000").
Definition odoo_problems (c : ClientConfig) : list string :=
  let o := odoo c in
  option_list (base_url_problem (od_url o))
  ++ problem (is_blank (od_api_key o)) "api_key is empty"
  ++ problem (is_blank (od_printer_name o)) "printer_name (the Odoo food.printer name) is empty"
  ++ problem (negb (print_backend c =t? RAW_BACKEND_NAME))
       ("print_backend is " +:+ quoted (print_backend c) +:+ " but Odoo labels are TSPL and need "
          +:+ quoted RAW_BACKEND_NAME)
  ++ mm_problem "label_width_mm" (label_width_mm o)
  ++ mm_problem "label_height_mm" (label_height_mm o)
  ++ problem (negb (between 100 1200 (dpi o)))
       ("dpi = " +:+ z_to_string (dpi o) +:+ " must be between 100 and 1200")
  ++ problem ((od_poll_interval_secs o =? 0) || (od_heartbeat_interval_secs o =? 0))
       "poll_interval_secs and heartbeat_interval_secs must be >= 1".
Definition validate_odoo_config (c : ClientConfig) : result string unit :=
  if negb (od_enabled (odoo c)) then Ok tt
  else match odoo_problems c with
       | [] => Ok tt
       | ps => Err ("[client.odoo] is enabled but invalid: " +:+ String.concat "; " ps
                     +:+ ". Suggestion: re-run the installer with DEVBRIDGE_ODOO_URL / DEVBRIDGE_ODOO_API_KEY / "
                     +:+ "DEVBRIDGE_ODOO_PRINTER_NAME set (and DEVBRIDGE_PRINT_BACKEND=windows_spooler_raw).")
       end.

(** ** The tills *)

Definition kasa_text (id : Z) : string := "kasy: id = " +:+ z_to_string id.
(** The checks of one till, its id apart. *)
Definition kasa_problems (k : PokladnaKasaConfig) : list string :=
  option_list ((λ p, kasa_text (kasa_id k) +:+ ": portos_" +:+ p) <$> (portos_url k ≫= base_url_problem))
  ++ match terminal_ip k with
     | Some ip => problem (negb (valid_terminal_ip ip))
         (kasa_text (kasa_id k) +:+ ": terminal_ip " +:+ quoted ip
            +:+ " must be an IPv4 address (TIM port 7784 is fixed)")
     | None => []
     end
  ++ problem (bool_decide (is_Some (terminal_ip k)) && (TIM_MAX_POS_ID <? kasa_id k))
       (kasa_text (kasa_id k) +:+ ": a till with a card terminal needs an id 1..=" +:+ z_to_string TIM_MAX_POS_ID
          +:+ " (its POS-ID)")
  ++ match terminal_tid k with
     | Some tid => problem (negb (valid_terminal_tid tid))
         (kasa_text (kasa_id k) +:+ ": terminal_tid " +:+ quoted tid +:+ " must be 1-16 letters or digits")
     | None => []
     end.
(** The loop over the tills, with the ids [seen] so far. *)
Fixpoint kasy_problems (seen : list Z) (ks : list PokladnaKasaConfig) : list string :=
  match ks with
  | [] => []
  | k :: ks' =>
    let '(first, seen') :=
      if kasa_id k <=? 0 then ([kasa_text (kasa_id k) +:+ " must be a positive pos.config id"], seen)
      else if bool_decide (kasa_id k ∈ seen) then ([kasa_text (kasa_id k) +:+ " is listed twice"], seen)
      else ([], kasa_id k :: seen) in
    first ++ kasa_problems k ++ kasy_problems seen' ks'
  end.
(** Every element that occurs among those before it. *)
Fixpoint repeated {A} (eqb : A → A → bool) (before l : list A) : list A :=
  match l with
  | [] => []
  | x :: l' => (if existsb (eqb x) before then [x] else []) ++ repeated eqb (before ++ [x]) l'
  end.
Definition terminal_ips (ks : list PokladnaKasaConfig) : list string := omap terminal_ip ks.
Definition shared_terminal_problems (ks : list PokladnaKasaConfig) : list string :=
  map (λ ip, "kasy: terminal_ip " +:+ quoted ip +:+ " is listed for two tills (a terminal belongs to one till)")
    (repeated String.eqb [] (terminal_ips ks)).

(** ** The LAN API *)

Definition key_byte (b : Z) : bool := between 33 126 b && negb (b =? 34) && negb (b =? 92).
Definition lan_key_ok (key : string) : bool := between 32 256 (byte_len key) && forallb key_byte (bytes_of key).
Definition lan_keys (ks : list PokladnaKasaConfig) : list (Z * string) :=
  omap (λ k, pair (kasa_id k) <$> lan_key k) ks.
(** The loop over the keys, with the keys [before]. *)
Fixpoint key_problems (bridge_key : string) (before : list string) (keys : list (Z * string)) : list string :=
  match keys with
  | [] => []
  | (id, key) :: keys' =>
    problem (negb (lan_key_ok key))
      (kasa_text id +:+ ": lan_key must be 32-256 printable characters without spaces, quotes or backslashes")
    ++ problem (key =t? bridge_key) (kasa_text id +:+ ": lan_key must not be the Odoo bridge key")
    ++ problem (text_in key before)
         (kasa_text id +:+ ": lan_key is the same as another till's (a key belongs to one till)")
    ++ key_problems bridge_key (before ++ [key]) keys'
  end.
(** The name is the client's own: [<client_id>.…]. *)
Definition own_hostname (c : ClientConfig) (hostname : string) : bool :=
  match client_id c with Some id => starts_with (ascii_lowercase id +:+ ".") hostname | None => false end.
Definition lan_api_problems (c : ClientConfig) : list string :=
  let p := pokladna c in
  let lan := pk_lan_api p in
  if negb (lan_enabled lan) then []
  else
    problem ((lan_port lan =? 0) || (lan_port lan =? dashboard_port c))
      ("lan_api.port = " +:+ z_to_string (lan_port lan) +:+ " must be a free port other than the dashboard's ("
         +:+ z_to_string (dashboard_port c) +:+ ")")
    ++ problem (negb (valid_dns_name (lan_hostname lan)))
         ("lan_api.hostname " +:+ quoted (lan_hostname lan)
            +:+ " must be the PC's lower-case DNS name (<client_id>.<zone>)")
    ++ problem (lan_acme lan && negb (own_hostname c (lan_hostname lan)))
         ("lan_api.hostname must be <client_id>.<zone> with [client] client_id set - "
            +:+ "the only name pz-server issues a certificate for")
    ++ problem (bool_decide (lan_keys (pk_kasy p) = []))
         "no [[client.pokladna.kasy]] has a lan_key - no till could call the LAN API"
    ++ key_problems (pk_api_key p) [] (lan_keys (pk_kasy p)).

(** ** The whole configuration *)

Definition pokladna_problems (c : ClientConfig) : list string :=
  let p := pokladna c in
  option_list (base_url_problem (pk_url p))
  ++ problem (is_blank (pk_api_key p)) "api_key is empty"
  ++ problem (POKLADNA_MAX_WAIT_S <? pk_wait_s p)
       ("wait_s = " +:+ z_to_string (pk_wait_s p) +:+ " must be between 0 and " +:+ z_to_string POKLADNA_MAX_WAIT_S)
  ++ problem (pk_heartbeat_interval_secs p =? 0) "heartbeat_interval_secs must be >= 1"
  ++ kasy_problems [] (pk_kasy p)
  ++ shared_terminal_problems (pk_kasy p)
  ++ match pk_tim p with Some t => tim_problems t | None => [] end
  ++ lan_api_problems c.
Definition validate_pokladna_config (c : ClientConfig) : result string unit :=
  if negb (pk_enabled (pokladna c)) then Ok tt
  else match pokladna_problems c with
       | [] => Ok tt
       | ps => Err ("[client.pokladna] is enabled but invalid: " +:+ String.concat "; " ps
                     +:+ ". Suggestion: re-run the installer with DEVBRIDGE_POKLADNA_URL / "
                     +:+ "DEVBRIDGE_POKLADNA_API_KEY set (DEVBRIDGE_POKLADNA_WAIT_S 0.."
                     +:+ z_to_string POKLADNA_MAX_WAIT_S
                     +:+ "; LAN API: DEVBRIDGE_POKLADNA_KASY with each till's lan_key, "
                     +:+ "DEVBRIDGE_LAN_API_ENABLED / _PORT / _HOSTNAME; card terminal: "
                     +:+ "DEVBRIDGE_POKLADNA_TIM_LIBRARY / _TIM_INTEGRATOR_ID / _TIM_COMMIT_TIMEOUT_S, "
                     +:+ "terminal_ip / terminal_tid in DEVBRIDGE_POKLADNA_KASY).")
       end.

Definition NO_PRINTER_ADDRESS : string :=
  "direct_ipp backend requires printer_address in config. Suggestion: set [client] printer_address = "
    +:+ quoted "<host>:631" +:+ " in C:\ProgramData\DevBridge\config.toml.".
Definition validate_ipp_address (address : option string) : result string unit :=
  match address with
  | Some s => if s =t? "" then Err NO_PRINTER_ADDRESS else Ok tt
  | None => Err NO_PRINTER_ADDRESS
  end.

Definition spooled_locally (backend : string) : bool :=
  text_in backend ["windows_spooler"; "windows_spooler_raw"; ""].
Definition validate_client_config_against (c : ClientConfig) (printers : list string) : result string unit :=
  match validate_odoo_config c with
  | Err e => Err e
  | Ok _ =>
    match validate_pokladna_config c with
    | Err e => Err e
    | Ok _ =>
      if spooled_locally (print_backend c) then validate_local_printer_against printers (target_printer c)
      else if print_backend c =t? "direct_ipp" then validate_ipp_address (printer_address c)
      else Ok tt
    end
  end.
(** [list_printers()]: the installed printers, or an error of the listing. *)
Definition validate_client_config (c : ClientConfig) (listed : result string (list string)) : result string unit :=
  validate_client_config_against c (match listed with Ok l => l | Err _ => [] end).
End validation.

(** ** The terminals of a configuration ([tim/mod.rs]) *)

Definition terminal_spec (tim : TimConfig) (k : PokladnaKasaConfig) : option TerminalSpec :=
  (λ ip, {| ts_kasa_id := kasa_id k; ts_ip := ip; ts_expected_tid := terminal_tid k;
            ts_commit_timeout_s := commit_timeout_s tim |}) <$> terminal_ip k.
Definition terminal_specs (p : PokladnaClientConfig) : list TerminalSpec :=
  match pk_tim p with Some tim => omap (terminal_spec tim) (pk_kasy p) | None => [] end.
(** [TimExecutor::with_backend]: the map from address to terminal. *)
Definition terminals_by_ip (specs : list TerminalSpec) : gmap string TerminalSpec :=
  foldl (λ m s, <[ts_ip s := s]> m) ∅ specs.
Definition tim_deadline_s (p : PokladnaClientConfig) : Z :=
  match pk_tim p with Some t => rollback_deadline_s t | None => TIM_DEFAULT_ROLLBACK_DEADLINE_S end.
(** [TimExecutor::start]; the library loads or not, a receipt printer is there or
    not.  The map's values come in the order of their addresses. *)
Definition start_tim `{Chrono} (p : PokladnaClientConfig) (loaded printer : bool) (now : DateTime)
    : TimExec.TimConfig :=
  {| terminals := order_by ts_ip (map snd (map_to_list (terminals_by_ip (terminal_specs p))));
     library_loaded := loaded;
     has_printer := printer;
     rollback_deadline_ms := 1000 * tim_deadline_s p;
     started_at := now |}.
