(* ===== verification/Files.v ===== *)
(** * Files that survive a power cut

    [src/crates/devbridge-core/src/file_acl.rs] and the file operations of the
    standard library it and its callers use.  A disk is its files; every
    operation takes the next [Accident] from a schedule: it may fail, leaving a
    written file with any content, or the machine may stop in the middle of it
    or right after it.  A stopped machine does nothing more until it is started
    again, so what holds after every run of a computation holds at every moment
    a crash may find the disk in. *)

From Stdlib Require Import ZArith String.
From stdpp Require Import gmap.
From S2P Require Import Prelude RustStd Text.

(** A file: its content and whether only the service may read it. *)
Record File := mkFile { content : bytes; restricted : bool }.
Inductive Accident :=
| Fine
| Fails (error : string) (rest : option bytes)        (* what a failed write rest in the file *)
| Stops (applied : bool) (rest : option bytes).       (* with the operation done, or what it rest *)
Record Disk := mkDisk {
  files : gmap string File;
  accidents : list Accident;
  down : bool;
}.
Inductive IoError := NotFound | Other (text : string).
Definition FM (A : Type) : Type := M Disk IoError A.

Definition MACHINE_OFF : string := "the machine is off".
Definition put_files (fs : gmap string File) (d : Disk) : Disk := mkDisk fs (accidents d) (down d).
Definition next_accident (d : Disk) : Accident * Disk :=
  match accidents d with
  | a :: l => (a, mkDisk (files d) l (down d))
  | [] => (Fine, d)
  end.
Definition stopped (fs : gmap string File) (d : Disk) : Disk := mkDisk fs (accidents d) true.

(** An operation on the files: [torn] is the disk when it is cut short. *)
Definition io {A} (op : gmap string File → result IoError A * gmap string File)
    (torn : option bytes → gmap string File → gmap string File) : FM A := λ d,
  if down d then (Err (Other MACHINE_OFF), d)
  else
    let '(a, d) := next_accident d in
    match a with
    | Fine => let '(r, fs) := op (files d) in (r, put_files fs d)
    | Fails e rest => (Err (Other e), put_files (torn rest (files d)) d)
    | Stops true _ => (Err (Other MACHINE_OFF), stopped (snd (op (files d))) d)
    | Stops false rest => (Err (Other MACHINE_OFF), stopped (torn rest (files d)) d)
    end.
Definition intact (_ : option bytes) (fs : gmap string File) : gmap string File := fs.
Definition is_restricted (path : string) (fs : gmap string File) : bool :=
  match fs !! path with Some f => restricted f | None => false end.
(** A file created or truncated keeps the access it had; a new one is open. *)
Definition put_content (path : string) (b : bytes) (fs : gmap string File) : gmap string File :=
  <[path := mkFile b (is_restricted path fs)]> fs.
Definition torn_write (path : string) (rest : option bytes) (fs : gmap string File) : gmap string File :=
  match rest with Some b => put_content path b fs | None => fs end.

(** [std::fs::read] *)
Definition read_file (path : string) : FM bytes :=
  io (λ fs, (match fs !! path with Some f => Ok (content f) | None => Err NotFound end, fs)) intact.
(** [std::fs::remove_file] *)
Definition remove_file (path : string) : FM unit :=
  io (λ fs, match fs !! path with Some _ => (Ok tt, delete path fs) | None => (Err NotFound, fs) end) intact.
(** [std::fs::rename]: atomic, over an existing file too. *)
Definition rename (from to : string) : FM unit :=
  io (λ fs, match fs !! from with
            | Some f => (Ok tt, <[to := f]> (delete from fs))
            | None => (Err NotFound, fs)
            end) intact.
(** [std::fs::create_dir_all] *)
Definition create_dir_all : FM unit := io (λ fs, (Ok tt, fs)) intact.
(** [std::fs::File::create]: the file is there, and empty. *)
Definition create_file (path : string) : FM unit :=
  io (λ fs, (Ok tt, put_content path [] fs)) (λ rest, torn_write path (const [] <$> rest)).

(** ** [file_acl.rs] *)

Definition restrict (path : string) : FM unit :=
  io (λ fs, match fs !! path with
            | Some f => (Ok tt, <[path := mkFile (content f) true]> fs)
            | None => (Err NotFound, fs)
            end) intact.
(** Opened, written and flushed; cut short, the file holds anything. *)
Definition write_durable (path : string) (contents : bytes) : FM unit :=
  io (λ fs, (Ok tt, put_content path contents fs)) (torn_write path).
Definition write_private (path : string) (contents : bytes) : FM unit :=
  _ ← create_file path;
  _ ← restrict path;
  write_durable path contents.

(** [std::fs::write], with no flush of its own *)
Definition write_file (path : string) (contents : bytes) : FM unit := write_durable path contents.
(** The machine is started again. *)
Definition power_on (d : Disk) : Disk := mkDisk (files d) (accidents d) false.

(** ** What every operation keeps

    An invariant of the files holds at every moment of a computation - at every
    crash - when each of its operations keeps it, done, failed or cut short. *)
Section keeps.
Variable P : gmap string File → Prop.
Definition on_files (d : Disk) : Prop := P (files d).

Lemma respects_io {A} (op : gmap string File → result IoError A * gmap string File) torn :
  (∀ fs, P fs → P (snd (op fs))) → (∀ rest fs, P fs → P (torn rest fs)) →
  respects (keeps on_files) (io op torn).
Proof.
  intros Hop Ht d. unfold io, next_accident, keeps, on_files. destruct (down d); [done|].
  destruct (accidents d) as [|[|e l|[] l] acc]; simpl; intros Hd;
    try (specialize (Hop _ Hd); by destruct (op (files d))); by apply Ht || apply Hop.
Qed.
Lemma respects_read path : respects (keeps on_files) (read_file path).
Proof. apply respects_io; [|done]. intros fs. by destruct (fs !! path). Qed.
Lemma respects_create_dir_all : respects (keeps on_files) create_dir_all.
Proof. by apply respects_io. Qed.
End keeps.

(** A run on a machine that ends up on was on all the time. *)
Lemma io_up {A} op torn d (r : result IoError A) d' :
  io op torn d = (r, d') → down d' = false →
  down d = false
  ∧ ((∃ fs, op (files d) = (r, fs) ∧ files d' = fs) ∨ (∃ e rest, r = Err (Other e) ∧ files d' = torn rest (files d))).
Proof.
  unfold io, next_accident. destruct (down d) eqn:Hd; [intros [= <- <-]; congruence|]. intros E Hup. split; [done|].
  destruct (accidents d) as [|[|e l|[] l] acc]; simpl in E;
    try (destruct (op (files d)) as [r' fs]; injection E as <- <-; left; by exists fs);
    injection E as <- <-; simpl in Hup; try congruence. right. by exists e, l.
Qed.
(** Once the machine is off it stays off. *)
Definition off_stays (d d' : Disk) : Prop := down d = true → down d' = true.
#[export] Instance off_stays_preorder : PreOrder off_stays.
Proof. split; [by intros d|intros a b c; unfold off_stays; auto]. Qed.
Lemma respects_off {A} op torn : respects off_stays (io op torn : FM A).
Proof. intros d Hd. unfold io. by rewrite Hd. Qed.
#[export] Hint Resolve respects_read respects_create_dir_all respects_off : respects.

(** A disk with nothing but working operations ahead. *)
Definition sound (d : Disk) : Prop := down d = false ∧ accidents d = [].
Lemma io_sound {A} op torn d :
  sound d → (io op torn d : result IoError A * Disk) = (fst (op (files d)), put_files (snd (op (files d))) d)
  ∧ sound (put_files (snd (op (files d))) d).
Proof.
  intros [Hd Ha]. split; [|by split]. unfold io, next_accident. rewrite Hd, Ha. by destruct (op (files d)).
Qed.

(** ** A logic for runs that may be cut

    [runs K P m Q C]: from files in [P], on a machine whose accidents are all in
    [K], a run of [m] either ends with the machine on and its result and files
    in [Q], or is cut by a crash that finds the files in [C]. *)
Section logic.
Context (K : Accident → Prop).
Implicit Types P C : gmap string File → Prop.

Definition ready (d : Disk) : Prop := down d = false ∧ Forall K (accidents d).
Definition cut (d : Disk) : Prop := down d = true ∧ Forall K (accidents d).
Definition off (d d' : Disk) : Prop := down d = true → d' = d.
#[export] Instance off_preorder : PreOrder off.
Proof. split; [by intros d|]. intros a b c Hab Hbc Ha. rewrite <- (Hab Ha). apply Hbc. by rewrite (Hab Ha). Qed.
Definition runs {E A} P (m : M Disk E A) (Q : result E A → gmap string File → Prop) C : Prop :=
  ∀ d, ready d → P (files d) →
  (ready (snd (m d)) ∧ Q (fst (m d)) (files (snd (m d)))) ∨ (cut (snd (m d)) ∧ C (files (snd (m d)))).

Lemma runs_io {A} (op : gmap string File → result IoError A * gmap string File) torn P Q C :
  (∀ fs, P fs → Q (fst (op fs)) (snd (op fs))) →
  (∀ fs e rest, K (Fails e rest) → P fs → Q (Err (Other e)) (torn rest fs)) →
  (∀ fs, P fs → C (snd (op fs))) →
  (∀ fs rest, P fs → C (torn rest fs)) →
  runs P (io op torn) Q C.
Proof.
  intros Hfine Hfails Hdone Htorn d [Hd Hk] HP. unfold io, next_accident. rewrite Hd.
  destruct (accidents d) as [|[|e l|[] l] acc] eqn:Ha; simpl;
    try (specialize (Hfine _ HP); destruct (op (files d)) as [r fs]; left; split; [split|]; simpl in *; try done;
         rewrite ?Ha; inversion Hk; subst; done).
  - left. inversion Hk; subst. split; [split; simpl; [done|done]|]. by apply Hfails.
  - right. inversion Hk; subst. split; [done|]. by apply Hdone.
  - right. inversion Hk; subst. split; [done|]. by apply Htorn.
Qed.

Lemma runs_ret {E A} (a : A) P Q C : (∀ fs, P fs → Q (Ok a) fs) → runs P (mret a : M Disk E A) Q C.
Proof. intros H d Hr HP. left. split; [done|]. by apply H. Qed.
Lemma runs_throw {E A} (e : E) P Q C : (∀ fs, P fs → Q (Err e) fs) → runs P (throw e : M Disk E A) Q C.
Proof. intros H d Hr HP. left. split; [done|]. by apply H. Qed.

Lemma runs_bind {E A B} (m : M Disk E A) (f : A → M Disk E B) P Q R C :
  runs P m Q C → (∀ a, runs (Q (Ok a)) (f a) R C) → (∀ e fs, Q (Err e) fs → R (Err e) fs) →
  (∀ a, respects off (f a)) → runs P (m ≫= f) R C.
Proof.
  intros Hm Hf He Hoff d Hr HP. specialize (Hm d Hr HP). unfold mbind, M_bind.
  destruct (m d) as [[a|e] d1]; simpl in *.
  - destruct Hm as [[Hr1 HQ]|[Hd1 HC]]; [by apply Hf|]. right. by rewrite (Hoff a d1 (proj1 Hd1)).
  - destruct Hm as [[Hr1 HQ]|Hm]; [|by right]. left. split; [done|]. by apply He.
Qed.

Lemma runs_inv_bind {E A B} (m : M Disk E A) (f : A → M Disk E B) P :
  runs P m (λ _, P) P → (∀ a, runs P (f a) (λ _, P) P) → (∀ a, respects off (f a)) → runs P (m ≫= f) (λ _, P) P.
Proof. intros Hm Hf Hoff. by apply (runs_bind _ _ _ (λ _, P)). Qed.

Lemma runs_attempt {E E' A} (m : M Disk E A) P Q C :
  runs P m Q C → runs P (attempt m : M Disk E' _) (λ r fs, match r with Ok r => Q r fs | Err _ => False end) C.
Proof. intros Hm d Hr HP. specialize (Hm d Hr HP). unfold attempt. by destruct (m d). Qed.
Lemma runs_ignore {E E' A} (m : M Disk E A) P Q C :
  runs P m (λ _, Q) C → runs P (ignore m : M Disk E' unit) (λ r fs, r = Ok tt ∧ Q fs) C.
Proof.
  intros Hm d Hr HP. specialize (Hm d Hr HP). unfold ignore. simpl. destruct Hm as [[? ?]|?]; [left|by right]. done.
Qed.
Lemma runs_map_err {E E' A} (f : E → E') (m : M Disk E A) P Q C :
  runs P m (λ r, Q (match r with Ok a => Ok a | Err e => Err (f e) end)) C → runs P (map_err f m) Q C.
Proof. intros Hm d Hr HP. specialize (Hm d Hr HP). unfold map_err. by destruct (m d) as [[a|e] d']. Qed.
Lemma runs_conseq {E A} (m : M Disk E A) P P' (Q Q' : result E A → gmap string File → Prop) C C' :
  runs P' m Q' C' → (∀ fs, P fs → P' fs) → (∀ r fs, Q' r fs → Q r fs) → (∀ fs, C' fs → C fs) → runs P m Q C.
Proof.
  intros Hm HP HQ HC d Hr Hd. destruct (Hm d Hr (HP _ Hd)) as [[? ?]|[? ?]]; [left|right]; eauto.
Qed.
Lemma runs_ask {E A} (m : M Disk E A) P P' Q C : (∀ fs, P fs → P' fs) → runs P' m Q C → runs P m Q C.
Proof. intros HP Hm. by eapply runs_conseq. Qed.
Lemma runs_found {E A} (m : M Disk E A) P Q C C' : (∀ fs, C fs → C' fs) → runs P m Q C → runs P m Q C'.
Proof. intros HC Hm. by eapply runs_conseq. Qed.

Lemma off_io {A} op torn : respects off (io op torn : FM A).
Proof. intros d Hd. unfold io. by rewrite Hd. Qed.
End logic.
#[export] Hint Resolve off_io : respects.

(** ** Operations on one file under crashes *)

Definition crash_only (a : Accident) : Prop := match a with Fails _ _ => False | _ => True end.
Definition any_accident (a : Accident) : Prop := True.
Definition holds (fs : gmap string File) (path : string) : option bytes := content <$> fs !! path.

Lemma off_write_durable path b : respects off (write_durable path b).
Proof. unfold write_durable. solve_respects. Qed.
Lemma off_write_private path b : respects off (write_private path b).
Proof. unfold write_private, create_file, restrict. unfold write_durable. solve_respects. Qed.
#[export] Hint Resolve off_write_durable off_write_private : respects.

(** Looking a file up after the others changed. *)
Ltac files_simpl :=
  unfold holds, put_content, torn_write, intact in *; simpl in *;
  repeat first
    [ rewrite lookup_insert_eq in * | rewrite lookup_delete_eq in *
    | rewrite lookup_insert_ne in * by congruence | rewrite lookup_delete_ne in * by congruence ].

Section files.
Context (K : Accident → Prop).
Implicit Types P C : gmap string File → Prop.

(** [P] does not look at the file at [path]. *)
Definition ignores (P : gmap string File → Prop) (path : string) : Prop :=
  ∀ fs fs', (∀ p, p ≠ path → fs' !! p = fs !! p) → P fs → P fs'.

Lemma ignores_insert P path fs f : ignores P path → P fs → P (<[path := f]> fs).
Proof. intros Hi. apply Hi. intros p Hp. by rewrite lookup_insert_ne. Qed.
Lemma ignores_delete P path fs : ignores P path → P fs → P (delete path fs).
Proof. intros Hi. apply Hi. intros p Hp. by rewrite lookup_delete_ne. Qed.

Lemma runs_read P path :
  runs K P (read_file path) (λ r fs, P fs ∧ match r with Ok b => holds fs path = Some b | Err NotFound => fs !! path = None
                                                     | Err (Other _) => ∃ e rest, K (Fails e rest) end) P.
Proof.
  apply runs_io; unfold intact; try (intros; assumption).
  - intros fs HP. unfold holds. simpl. by destruct (fs !! path).
  - intros fs e rest HK HP. eauto.
Qed.

Lemma runs_write_durable P path b :
  ignores P path →
  runs K P (write_durable path b) (λ r fs, P fs ∧ (r = Ok tt → holds fs path = Some b)) P.
Proof.
  intros Hi. apply runs_io; unfold put_content, torn_write.
  - intros fs HP. split; [by apply (ignores_insert P)|]. intros _. unfold holds. simpl. by rewrite lookup_insert_eq.
  - intros fs e [b'|] _ HP; cbn beta iota; (split; [|done]); [by apply (ignores_insert P)|done].
  - intros fs HP. by apply (ignores_insert P).
  - intros fs [b'|] HP; cbn beta iota; [by apply (ignores_insert P)|done].
Qed.

Lemma runs_write_private P path b :
  ignores P path →
  runs K P (write_private path b) (λ r fs, P fs ∧ (r = Ok tt → holds fs path = Some b)) P.
Proof.
  intros Hi. unfold write_private.
  apply (runs_bind _ _ _ _ (λ _, P)); [| |by intros e fs HP|intros; unfold restrict; solve_respects].
  { apply runs_io; unfold put_content, torn_write.
    - intros fs HP. by apply (ignores_insert P).
    - intros fs e [b'|] _ HP; simpl; [by apply (ignores_insert P)|done].
    - intros fs HP. by apply (ignores_insert P).
    - intros fs [b'|] HP; simpl; [by apply (ignores_insert P)|done]. }
  intros []. apply (runs_bind _ _ _ _ (λ _, P)); [| |by intros e fs HP|intros; solve_respects].
  { apply runs_io; unfold intact; try (intros; assumption); intros fs HP; destruct (fs !! path); simpl;
      try apply (ignores_insert P); done. }
  intros []. by apply runs_write_durable.
Qed.
End files.
