(* ===== verification/TimLogs.v ===== *)
(** * The log store of the card terminal's library

    [src/crates/devbridge-client/src/device_jobs/tim/logs.rs]: one file a day,
    past days gzipped, old archives deleted, on the disk of [Files].  A
    directory's file is the path [dir/name]; a date is the number of its day.
    The dates of chrono are the interface [LogDates], flate2 is [Gzip]. *)

From Stdlib Require Import ZArith String.
From stdpp Require Import gmap.
From S2P Require Import Prelude RustStd Text Files.
#[local] Open Scope Z_scope.

Class LogDates : Type := {
  format_day : Z → string;                  (* [%Y-%m-%d] *)
  parse_day : string → option Z;
  log_stamp : Z → string;                   (* local RFC 3339 with milliseconds *)
  local_day : Z → Z;
}.
Class Gzip : Type := { gzip : bytes → bytes; gunzip : bytes → option bytes }.
Class GzipLaws `{Gzip} : Prop := { gunzip_gzip : ∀ b, gunzip (gzip b) = Some b }.

Definition RETENTION_DAYS : Z := 100.
Definition SETTINGS_FILE : string := "tim-settings.cfg".
Definition in_dir (dir name : string) : string := dir +:+ "/" +:+ name.
Definition log_dir (data_dir : string) : string := in_dir (in_dir data_dir "logs") "tim".

(** [strip_prefix] and [strip_suffix] of a [str], byte by byte. *)
Fixpoint strip_str (p s : string) : option string :=
  match p, s with
  | EmptyString, _ => Some s
  | String a p', String c s' => if Ascii.eqb a c then strip_str p' s' else None
  | String _ _, EmptyString => None
  end.
Definition strip_end (suffix s : string) : option string :=
  let n := (String.length s - String.length suffix)%nat in
  let start := String.substring 0 n s in
  if (start +:+ suffix) =t? s then Some start else None.

Section logs.
Context `{LogDates} `{Gzip}.

Definition file_name (date : Z) : string := "tim-" +:+ format_day date +:+ ".log".
Definition parse_file_name (name : string) : option (Z * bool) :=
  match strip_str "tim-" name with
  | None => None
  | Some rest =>
    let found := match strip_end ".log.gz" rest with
                 | Some date => Some (date, true)
                 | None => match strip_end ".log" rest with Some date => Some (date, false) | None => None end
                 end in
    match found with
    | Some (date, gz) =>
      if (String.length date =? 10)%nat then
        match parse_day date with Some d => Some (d, gz) | None => None end
      else None
    | None => None
    end
  end.

Definition level_name (level : Z) : string :=
  match level with
  | 0 => "OFF" | 1 => "SEVERE" | 2 => "WARNING" | 3 => "INFO" | 4 => "FINE" | 5 => "FINEST" | _ => "LEVEL?"
  end.
Definition format_record (now level thread : Z) (method : option string) (message : string)
    (parameters : list string) : string :=
  log_stamp now +:+ " " +:+ level_name level +:+ " [" +:+ z_to_string thread +:+ "] " +:+ default "-" method +:+ ": "
    +:+ message
    +:+ match parameters with [] => "" | p => " params=[" +:+ String.concat ", " p +:+ "]" end
    +:+ of_chars [10].

(** ** Housekeeping *)

Record Housekeeping := mkDone { hk_compressed : list string; hk_deleted : list string }.

(** [read_dir]: the names in the directory, sorted. *)
Definition no_slash (name : string) : bool := negb (existsb (Z.eqb 47) (bytes_of name)).
Definition names_in (dir : string) (fs : gmap string File) : list string :=
  order_by (λ n, n)
    (List.filter no_slash (omap (strip_str (dir +:+ "/")) (map fst (map_to_list fs)))).
Definition read_dir (dir : string) : FM (list string) := io (λ fs, (Ok (names_in dir fs), fs)) intact.

Definition archive (name : string) : string := name +:+ ".gz".
(** [dst.with_extension("gz.tmp")] of a name that ends in [.gz]. *)
Definition unfinished (gz_name : string) : string := gz_name +:+ ".tmp".
Definition compress (dir name : string) : FM unit :=
  let tmp := in_dir dir (unfinished (archive name)) in
  input ← read_file (in_dir dir name);
  _ ← create_file tmp;
  _ ← write_durable tmp (gzip input);
  _ ← rename tmp (in_dir dir (archive name));
  remove_file (in_dir dir name).

Definition keep_one (dir : string) (today : Z) (name : string) (acc : Housekeeping) : FM Housekeeping :=
  match parse_file_name name with
  | None => mret acc
  | Some (date, gz) =>
    step ← (if gz then mret (Some (name, acc))
            else if date <? today then
              _ ← compress dir name;
              mret (Some (archive name, mkDone (hk_compressed acc ++ [name]) (hk_deleted acc)))
            else mret None);
    match step with
    | None => mret acc
    | Some (gz_name, acc) =>
      if date <? today - RETENTION_DAYS then
        _ ← remove_file (in_dir dir gz_name);
        mret (mkDone (hk_compressed acc) (hk_deleted acc ++ [gz_name]))
      else mret acc
    end
  end.
Definition housekeep (dir : string) (today : Z) : FM Housekeeping :=
  names ← read_dir dir;
  fold_m names (keep_one dir today) (mkDone [] []).

(** ** The daily file *)

(** The day whose file is open. *)
Record DailyLog := mkDaily { dl_dir : string; dl_open : option Z }.
(** A new day opens its file and starts the housekeeping of the days before;
    the result says whether it did. *)
Definition append_file (path : string) (b : bytes) : FM unit :=
  io (λ fs, (Ok tt, put_content path (match fs !! path with Some f => content f | None => [] end ++ b) fs))
    (λ rest fs, match rest with
                | Some r => put_content path (match fs !! path with Some f => content f | None => [] end ++ r) fs
                | None => fs
                end).
Definition write (l : DailyLog) (now : Z) (line : string) : FM (DailyLog * bool * result IoError unit) :=
  let today := local_day now in
  let path := in_dir (dl_dir l) (file_name today) in
  let stale := negb (bool_decide (dl_open l = Some today)) in
  opened ← attempt (if stale then append_file path [] else mret tt);
  match opened with
  | Err e => mret (mkDaily (dl_dir l) None, false, Err e)
  | Ok _ =>
    written ← attempt (append_file path (map as_u8 (bytes_of line)));
    mret (mkDaily (dl_dir l) (Some today), stale, written)
  end.

Definition write_settings_file (dir text : string) : FM string :=
  _ ← create_dir_all;
  _ ← write_file (in_dir dir SETTINGS_FILE) (map as_u8 (bytes_of text));
  mret (in_dir dir SETTINGS_FILE).
(** [set_global_sink]: the pass at the start; its failure is only logged. *)
Definition set_global_sink (dir : string) (today : Z) : FM DailyLog :=
  _ ← create_dir_all;
  _ ← ignore (housekeep dir today);
  mret (mkDaily dir None).

(** ** Names *)

Lemma strip_str_app p s : strip_str p (p +:+ s) = Some s.
Proof. induction p as [|c p IH]; simpl; [done|]. by rewrite Ascii.eqb_refl. Qed.
Lemma strip_str_Some p s t : strip_str p s = Some t → s = p +:+ t.
Proof.
  revert s. induction p as [|a p IH]; intros s; simpl; [by intros [= ->]|].
  destruct s as [|c s]; [done|]. destruct (Ascii.eqb_spec a c) as [->|]; [|done]. intros E. by rewrite (IH _ E).
Qed.
Lemma string_app_assoc (a b c : string) : (a +:+ b) +:+ c = a +:+ (b +:+ c).
Proof. induction a as [|x a IH]; [done|]. exact (f_equal (String x) IH). Qed.
Lemma string_app_nil_r (a : string) : a +:+ "" = a.
Proof. induction a as [|x a IH]; [done|]. exact (f_equal (String x) IH). Qed.
Lemma length_app_string (a b : string) : String.length (a +:+ b) = (String.length a + String.length b)%nat.
Proof. induction a as [|x a IH]; [done|]. exact (f_equal S IH). Qed.
Lemma substring_app (a b : string) : String.substring 0 (String.length a) (a +:+ b) = a.
Proof. induction a as [|x a IH]; [by destruct b|]. exact (f_equal (String x) IH). Qed.
Lemma strip_end_app suffix s : strip_end suffix (s +:+ suffix) = Some s.
Proof.
  unfold strip_end. rewrite length_app_string.
  replace (String.length s + String.length suffix - String.length suffix)%nat with (String.length s) by lia.
  rewrite substring_app. by rewrite (proj2 (String.eqb_eq _ _) eq_refl).
Qed.
Lemma strip_end_Some suffix s t : strip_end suffix s = Some t → s = t +:+ suffix.
Proof. unfold strip_end. destruct (_ =t? s) eqn:E; [|done]. intros [= <-]. symmetry. by apply String.eqb_eq. Qed.

(** The last character of a name tells the kinds of files apart. *)
Fixpoint last_char (s : string) (d : Ascii.ascii) : Ascii.ascii :=
  match s with EmptyString => d | String c s' => last_char s' c end.
Lemma last_char_app a c b d : last_char (a +:+ String c b) d = last_char b c.
Proof. revert d. induction a as [|x a IH]; intros d; [done|]. apply (IH x). Qed.
Ltac by_last_char :=
  let E := fresh in
  intros E; apply (f_equal (λ s, last_char s Ascii.zero)) in E; revert E;
  unfold archive, unfinished; rewrite ?last_char_app; discriminate.

Lemma parsed_log name d : parse_file_name name = Some (d, false) →
  ∃ date, name = "tim-" +:+ (date +:+ ".log") ∧ parse_file_name (archive name) = Some (d, true).
Proof.
  unfold parse_file_name at 1. destruct (strip_str "tim-" name) as [rest|] eqn:Ep; [|done].
  apply strip_str_Some in Ep as ->. cbv zeta. destruct (strip_end ".log.gz" rest); simpl.
  { destruct (_ =? 10)%nat; [|done]. by destruct (parse_day _). }
  destruct (strip_end ".log" rest) as [date|] eqn:Ee; [|done]. apply strip_end_Some in Ee as ->.
  destruct (String.length date =? 10)%nat eqn:El; [|done]. destruct (parse_day date) as [d'|] eqn:Ed; [|done].
  intros [= <-]. exists date. split; [done|]. unfold parse_file_name, archive.
  rewrite string_app_assoc, strip_str_app, string_app_assoc.
  change (".log" +:+ ".gz") with ".log.gz". by rewrite strip_end_app, El, Ed.
Qed.
Lemma parsed_archive name d : parse_file_name name = Some (d, true) → ∃ s, name = s +:+ ".log.gz".
Proof.
  unfold parse_file_name. destruct (strip_str "tim-" name) as [rest|] eqn:Ep; [|done].
  apply strip_str_Some in Ep as ->. destruct (strip_end ".log.gz" rest) as [date|] eqn:Ee; simpl.
  2: { destruct (strip_end ".log" rest); [|done]. destruct (_ =? 10)%nat; [|done]. by destruct (parse_day _). }
  apply strip_end_Some in Ee as ->. intros _. exists ("tim-" +:+ date). by rewrite string_app_assoc.
Qed.
Lemma in_dir_inj dir a b : in_dir dir a = in_dir dir b → a = b.
Proof.
  unfold in_dir. intros E. enough (∀ d a b, d +:+ a = d +:+ b → a = b) as Hi by (apply Hi in E; by injection E).
  clear. intros d a b. induction d as [|c d IH]; simpl; [done|]. intros [= E]. auto.
Qed.
Lemma archive_inj a b : archive a = archive b → a = b.
Proof.
  intros E. pose proof (strip_end_app ".gz" a) as Ha. unfold archive in E. rewrite E, strip_end_app in Ha. by injection Ha.
Qed.

(** ** No log is lost to the housekeeping

    Until its retention is over, the text of a past day is in its file or, when
    the file is gone, in its archive - at every moment of a pass, whatever fails
    and wherever the machine stops. *)

Section kept.
Context (K : Accident → Prop) (dir : string) (today : Z).

Lemma runs_removed P path : ignores P path → runs K P (remove_file path) (λ _, P) P.
Proof.
  intros Hi. apply runs_io; unfold intact; try done; intros fs HP; destruct (fs !! path); simpl; try done;
    by apply (ignores_delete P).
Qed.
Lemma runs_created P path : ignores P path → runs K P (create_file path) (λ _, P) P.
Proof.
  intros Hi. apply runs_io; unfold put_content, torn_write.
  - intros fs HP. by apply (ignores_insert P).
  - intros fs e [b|] _ HP; simpl; [by apply (ignores_insert P)|done].
  - intros fs HP. by apply (ignores_insert P).
  - intros fs [b|] HP; simpl; [by apply (ignores_insert P)|done].
Qed.
Lemma runs_renamed P from to : ignores P from → ignores P to → runs K P (rename from to) (λ _, P) P.
Proof.
  intros Hf Ht. apply runs_io; unfold intact; try done; intros fs HP; destruct (fs !! from); simpl; try done;
    by apply (ignores_insert P), (ignores_delete P).
Qed.
Lemma off_compress name : respects off (compress dir name).
Proof. unfold compress, read_file, create_file, rename, remove_file. solve_respects. Qed.

(** A pass over files an assertion does not look at. *)
Lemma runs_compress_other P name :
  ignores P (in_dir dir name) → ignores P (in_dir dir (archive name)) →
  ignores P (in_dir dir (unfinished (archive name))) → runs K P (compress dir name) (λ _, P) P.
Proof.
  intros Hn Ha Hu. unfold compress. apply runs_inv_bind; [| |intros; unfold create_file, rename, remove_file; solve_respects].
  { eapply runs_conseq; [apply (runs_read K P)|done| |done]. by intros r fs [? _]. }
  intros b. apply runs_inv_bind; [by apply runs_created| |intros; unfold rename, remove_file; solve_respects].
  intros []. apply runs_inv_bind; [| |intros; unfold rename, remove_file; solve_respects].
  { eapply runs_conseq; [by apply (runs_write_durable K P)|done| |done]. by intros r fs [? _]. }
  intros []. apply runs_inv_bind; [by apply runs_renamed| |intros; unfold remove_file; solve_respects].
  intros []. by apply runs_removed.
Qed.

Variables (name : string) (day : Z) (text : bytes).
Hypotheses (Hname : parse_file_name name = Some (day, false)) (Hkept : today - RETENTION_DAYS ≤ day).

Definition as_log (fs : gmap string File) : Prop := holds fs (in_dir dir name) = Some text.
Definition as_archive (fs : gmap string File) : Prop := holds fs (in_dir dir (archive name)) = Some (gzip text).
Definition log_kept (fs : gmap string File) : Prop :=
  as_log fs ∨ (fs !! in_dir dir name = None ∧ as_archive fs).

Lemma as_log_ignores path : path ≠ in_dir dir name → ignores as_log path.
Proof. intros Hp fs fs' Hsame. unfold as_log, holds. by rewrite Hsame. Qed.
Lemma log_kept_ignores path :
  path ≠ in_dir dir name → path ≠ in_dir dir (archive name) → ignores log_kept path.
Proof. intros Hn Ha fs fs' Hsame. unfold log_kept, as_log, as_archive, holds. by rewrite !Hsame. Qed.
Lemma archive_ne_name n : archive n ≠ name.
Proof. destruct (parsed_log _ _ Hname) as (date & -> & _). rewrite <- string_app_assoc. by_last_char. Qed.
Lemma unfinished_ne_name n : unfinished n ≠ name.
Proof. destruct (parsed_log _ _ Hname) as (date & -> & _). rewrite <- string_app_assoc. by_last_char. Qed.
Lemma unfinished_ne_archive n m : unfinished n ≠ archive m.
Proof. by_last_char. Qed.

Lemma runs_compress : runs K log_kept (compress dir name) (λ _, log_kept) log_kept.
Proof.
  assert (∀ fs, as_log fs → log_kept fs) as Hlog by by left.
  assert (in_dir dir (unfinished (archive name)) ≠ in_dir dir name) as Htn.
  { intros E. by apply in_dir_inj, unfinished_ne_name in E. }
  assert (in_dir dir (archive name) ≠ in_dir dir name) as Han.
  { intros E. by apply in_dir_inj, archive_ne_name in E. }
  unfold compress. apply (runs_bind _ _ _ _ (λ r fs, log_kept fs ∧ (∀ b, r = Ok b → as_log fs ∧ b = text)));
    [| |by intros e fs [? _]|intros; unfold create_file, rename, remove_file; solve_respects].
  { eapply runs_conseq; [apply (runs_read K log_kept)|done| |done]. intros r fs [HP Hr]. split; [done|].
    intros b ->. destruct HP as [HP|[Hn _]]; [|unfold holds in Hr; by rewrite Hn in Hr].
    unfold as_log in HP. rewrite HP in Hr. injection Hr as <-. done. }
  intros b. eapply (runs_ask _ _ _ (λ fs, as_log fs ∧ b = text)); [naive_solver|].
  intros d Hd [Hl ->]. revert d Hd Hl. change (runs K as_log
    (_ ← create_file (in_dir dir (unfinished (archive name)));
     _ ← write_durable (in_dir dir (unfinished (archive name))) (gzip text);
     _ ← rename (in_dir dir (unfinished (archive name))) (in_dir dir (archive name));
     remove_file (in_dir dir name)) (λ _, log_kept) log_kept).
  apply (runs_bind _ _ _ _ (λ _, as_log)); [| |done|intros; unfold rename, remove_file; solve_respects].
  { eapply runs_found; [exact Hlog|]. by apply runs_created, as_log_ignores. }
  intros []. apply (runs_bind _ _ _ _ (λ r fs, as_log fs ∧ (r = Ok tt →
    holds fs (in_dir dir (unfinished (archive name))) = Some (gzip text))));
    [| |by intros e fs [? _]; left|intros; unfold rename, remove_file; solve_respects].
  { eapply runs_found; [exact Hlog|]. by apply runs_write_durable, as_log_ignores. }
  intros []. apply (runs_bind _ _ _ _ (λ r fs, as_log fs ∧ (r = Ok tt → as_archive fs)));
    [| |by intros e fs [? _]; left|intros; unfold remove_file; solve_respects].
  { apply runs_io; unfold intact; [|by intros fs e rest _ [? _]| |by intros fs rest [? _]; left].
    all: intros fs [Hl Ht]; specialize (Ht eq_refl); unfold holds in Ht;
      destruct (fs !! in_dir dir (unfinished (archive name))) as [f|]; [|done]; simpl.
    - split; [|by intros _; unfold as_archive, holds; rewrite lookup_insert_eq].
      unfold as_log, holds. by rewrite lookup_insert_ne, lookup_delete_ne by done.
    - left. unfold as_log, holds. by rewrite lookup_insert_ne, lookup_delete_ne by done. }
  intros []. apply runs_io; unfold intact; [|by intros fs e rest _ [? _]; left| |by intros fs rest [? _]; left].
  all: intros fs [Hl Ha]; specialize (Ha eq_refl); destruct (fs !! in_dir dir name) as [f|] eqn:E; simpl;
    [|left; unfold as_log, holds in *; by rewrite E in *].
  all: right; split; [by rewrite lookup_delete_eq|]; unfold as_archive, holds; by rewrite lookup_delete_ne by done.
Qed.

Lemma runs_keep_one n acc : runs K log_kept (keep_one dir today n acc) (λ _, log_kept) log_kept.
Proof.
  unfold keep_one. destruct (parse_file_name n) as [[date gz]|] eqn:En; [|by apply runs_ret].
  assert (∀ m, m ≠ name → m ≠ archive name → ignores log_kept (in_dir dir m)) as Hother.
  { intros m Hm Ha. apply log_kept_ignores; intros E; apply in_dir_inj in E; done. }
  assert (∀ m acc', (date < today - RETENTION_DAYS → m ≠ name ∧ m ≠ archive name) → runs K log_kept
    (if date <? today - RETENTION_DAYS then
       _ ← remove_file (in_dir dir m); mret (mkDone (hk_compressed acc') (hk_deleted acc' ++ [m]))
     else mret acc') (λ _, log_kept) log_kept) as Hdelete.
  { intros m acc' Hm. destruct (Z.ltb_spec date (today - RETENTION_DAYS)); [|by apply runs_ret].
    apply runs_inv_bind; [|intros; by apply runs_ret|intros; solve_respects].
    destruct Hm as [? ?]; [done|]. by apply runs_removed, Hother. }
  destruct gz.
  - destruct (parsed_archive _ _ En) as (s & Hs). apply (Hdelete n acc). intros Hold. split.
    + intros ->. congruence.
    + intros ->. destruct (parsed_log _ _ Hname) as (? & _ & Ha). rewrite Ha in En. injection En as <-. lia.
  - destruct (date <? today); [|by apply runs_ret].
    apply (runs_bind _ _ _ _ (λ r fs, log_kept fs ∧ ∀ m acc', r = Ok (Some (m, acc')) → m = archive n));
      [| |by intros e fs [? _]|intros; unfold remove_file; solve_respects].
    + apply (runs_bind _ _ _ _ (λ _, log_kept)); [| |by intros e fs HP|intros; solve_respects].
      2: { intros []. apply runs_ret. intros fs HP. split; [done|]. by intros m acc' [= <- _]. }
      destruct (decide (n = name)) as [->|Hn]; [apply runs_compress|].
      destruct (parsed_log _ _ En) as (? & Hlog & _).
      apply runs_compress_other; apply Hother; try apply archive_ne_name; try apply unfinished_ne_name;
        try apply unfinished_ne_archive; [done| |].
      * rewrite Hlog, <- string_app_assoc. by_last_char.
      * intros E. by apply archive_inj in E.
    + intros [[m acc']|]; [|apply runs_ret; by intros fs [? _]].
      intros d Hd [HP Hm]. revert d Hd HP. rewrite (Hm _ _ eq_refl). apply (Hdelete (archive n) acc').
      intros Hold. split; [apply archive_ne_name|]. intros E. apply archive_inj in E as ->.
      rewrite Hname in En. injection En as <-. lia.
Qed.

(** A whole pass. *)
Lemma runs_housekeep : runs K log_kept (housekeep dir today) (λ _, log_kept) log_kept.
Proof.
  assert (∀ n acc, respects off (keep_one dir today n acc)) as Hoff.
  { intros n acc. unfold keep_one, remove_file. pose proof (off_compress n). solve_respects. }
  unfold housekeep. apply runs_inv_bind; [by apply runs_io| |intros; solve_respects].
  intros names. generalize (mkDone [] []). induction names as [|n names IH]; intros acc; [by apply runs_ret|].
  cbn [fold_m]. apply runs_inv_bind; [apply runs_keep_one|exact IH|intros; solve_respects].
Qed.
End kept.
End logs.

(** ** A few days *)

Module Days.
#[export] Instance dates : LogDates := {
  format_day := λ d, "2026-01-1" +:+ z_to_string d;
  parse_day := λ s, strip_str "2026-01-1" s ≫= λ r, parse_digits (chars r);
  log_stamp := z_to_string;
  local_day := λ t, t / 86400000;
}.
#[export] Instance plain_gzip : Gzip := { gzip := λ b, b ++ b; gunzip := λ b, Some (take (length b / 2) b) }.
Definition at_day (d ms : Z) : Z := d * 86400000 + ms.
(** A record, and the housekeeping when the day is a new one. *)
Definition record (l : DailyLog) (now : Z) (line : string) : FM DailyLog :=
  r ← write l now line;
  let '(l', fresh, _) := r in
  _ ← (if fresh : bool then ignore (housekeep (dl_dir l) (local_day now)) else mret tt);
  mret l'.
Definition text (s : string) : bytes := map as_u8 (bytes_of s).
Definition archived (s : string) : bytes := gzip (text s).
Definition running (lines : list (Z * string)) : FM unit :=
  _ ← fold_m lines (λ l log, record log (fst l) (snd l)) (mkDaily "tim" None); mret tt.
Definition disk_after (lines : list (Z * string)) : gmap string File := files (snd (running lines (mkDisk ∅ [] false))).
End Days.

Example names_parse : parse_file_name (H := Days.dates) "tim-2026-01-17.log.gz" = Some (7, true)
  ∧ parse_file_name (H := Days.dates) "tim-2026-01-17.log" = Some (7, false)
  ∧ parse_file_name (H := Days.dates) "tim-settings.cfg" = None.
Proof. vm_compute. auto. Qed.
Example a_day_is_archived :
  let fs := Days.disk_after [(Days.at_day 7 5, "first"); (Days.at_day 7 9, "second"); (Days.at_day 8 0, "third")] in
  holds fs "tim/tim-2026-01-17.log.gz" = Some (Days.archived "firstsecond")
  ∧ fs !! "tim/tim-2026-01-17.log" = None ∧ holds fs "tim/tim-2026-01-18.log" = Some (Days.text "third").
Proof. vm_compute. auto. Qed.
(** A clock set back over midnight: the day's archive is replaced by the one
    record that came late. *)
Example a_clock_set_back_loses_the_day :
  let fs := Days.disk_after [(Days.at_day 7 5, "first"); (Days.at_day 8 0, "second");
                             (Days.at_day 7 86399999, "late"); (Days.at_day 8 1, "third")] in
  holds fs "tim/tim-2026-01-17.log.gz" = Some (Days.archived "late")
  ∧ fs !! "tim/tim-2026-01-17.log" = None.
Proof. vm_compute. auto. Qed.
