(* ===== verification/ConfigFile.v ===== *)
(** * The configuration file

    [Config::load] and [update_target_printer] of
    [src/crates/devbridge-core/src/config.rs]: the client's dashboard rewrites
    the file it was started with to change the printer.  TOML is the [toml]
    package; what it promises is [TomlLaws]. *)

From Stdlib Require Import ZArith Ascii String.
From stdpp Require Import gmap.
From S2P Require Import Prelude RustStd Text Config Files.

(** A document: a table is its keys in order, any other value is opaque. *)
Inductive TValue :=
| TString (s : string)
| TTable (t : list (string * TValue))
| TScalar (text : string).
Class Toml : Type := {
  from_str : string → result string TValue;
  to_string_pretty : TValue → result string string;
  config_of : TValue → result string Config;      (* serde's reading of a document *)
}.
(** What is written is read back, and is text. *)
Class TomlLaws `{Toml} : Prop := {
  pretty_round_trip : ∀ v s, to_string_pretty v = Ok s → from_str s = Ok v;
  pretty_text : ∀ v s, to_string_pretty v = Ok s → is_text s;
}.

Inductive Error := Io (e : IoError) | ConfigError (text : string).

(** [table.get(key)] *)
Fixpoint table_get (k : string) (t : list (string * TValue)) : option TValue :=
  match t with
  | [] => None
  | (k', v) :: t' => if k =t? k' then Some v else table_get k t'
  end.
(** [table.insert(key, value)]: in its place, or before the first greater key. *)
Fixpoint table_insert (k : string) (v : TValue) (t : list (string * TValue)) : list (string * TValue) :=
  match t with
  | [] => [(k, v)]
  | (k', v') :: t' =>
    if k =t? k' then (k, v) :: t'
    else if String.ltb k k' then (k, v) :: (k', v') :: t' else (k', v') :: table_insert k v t'
  end.
(** A value changed where it stands in a table ([get_mut]). *)
Fixpoint table_set (k : string) (v : TValue) (t : list (string * TValue)) : list (string * TValue) :=
  match t with
  | [] => []
  | (k', v') :: t' => if k =t? k' then (k', v) :: t' else (k', v') :: table_set k v t'
  end.
Definition get_table (k : string) (doc : TValue) : option (list (string * TValue)) :=
  match doc with
  | TTable t => match table_get k t with Some (TTable c) => Some c | _ => None end
  | _ => None
  end.

Section file.
Context `{Toml}.

(** [std::fs::read_to_string] *)
Definition NOT_UTF8 : string := "stream did not contain valid UTF-8".
Definition read_to_string (path : string) : FM string :=
  b ← read_file path;
  match from_utf8 b with Some s => mret s | None => throw (Other NOT_UTF8) end.
Definition lift_toml {A} (r : result string A) : M Disk Error A :=
  match r with Ok a => mret a | Err e => throw (ConfigError e) end.

Definition load (path : string) : M Disk Error Config :=
  content ← map_err Io (read_to_string path);
  doc ← lift_toml (from_str content);
  lift_toml (config_of doc).

Definition with_target_printer (new_name : string) (doc : TValue) : option TValue :=
  match doc, get_table "client" doc with
  | TTable t, Some client =>
    Some (TTable (table_set "client" (TTable (table_insert "target_printer" (TString new_name) client)) t))
  | _, _ => None
  end.
Definition update_target_printer (path new_name : string) : M Disk Error unit :=
  content ← map_err Io (read_to_string path);
  doc ← lift_toml (from_str content);
  match with_target_printer new_name doc with
  | None => throw (ConfigError "missing [client] section")
  | Some doc' =>
    serialized ← lift_toml (to_string_pretty doc');
    map_err Io (write_file path (as_bytes serialized))
  end.
End file.

(** ** Tables *)

Lemma table_get_insert k v t : table_get k (table_insert k v t) = Some v.
Proof.
  induction t as [|[k' v'] t IH]; simpl; [by rewrite String.eqb_refl|].
  destruct (k =t? k') eqn:E; simpl; [by rewrite String.eqb_refl|].
  destruct (String.ltb k k'); simpl; [by rewrite String.eqb_refl|by rewrite E].
Qed.
Lemma table_get_insert_ne k k' v t : k' ≠ k → table_get k' (table_insert k v t) = table_get k' t.
Proof.
  intros Hne. apply String.eqb_neq in Hne as Hn. induction t as [|[k1 v1] t IH]; simpl; [by rewrite Hn|].
  destruct (String.eqb_spec k k1) as [->|]; simpl; [by rewrite Hn|].
  destruct (String.ltb k k1); simpl; [by rewrite Hn|by rewrite IH].
Qed.
Lemma table_get_set k v t : is_Some (table_get k t) → table_get k (table_set k v t) = Some v.
Proof.
  induction t as [|[k' v'] t IH]; simpl; [by intros []|]. destruct (k =t? k') eqn:E; simpl; rewrite E; [done|]. exact IH.
Qed.
Lemma table_get_set_ne k k' v t : k' ≠ k → table_get k' (table_set k v t) = table_get k' t.
Proof.
  intros Hne. apply String.eqb_neq in Hne as Hn. induction t as [|[k1 v1] t IH]; simpl; [done|].
  destruct (String.eqb_spec k k1) as [->|]; simpl; [by rewrite Hn|by rewrite IH].
Qed.

(** The document with the printer changed has every other entry. *)
Definition entry (section key : string) (doc : TValue) : option TValue := get_table section doc ≫= table_get key.
Definition top (key : string) (doc : TValue) : option TValue := match doc with TTable t => table_get key t | _ => None end.

Lemma get_table_Some k doc c : get_table k doc = Some c → ∃ t, doc = TTable t ∧ table_get k t = Some (TTable c).
Proof. destruct doc as [|t|]; simpl; try done. destruct (table_get k t) as [[]|] eqn:E; try done. intros [= ->]. eauto. Qed.

Lemma with_target_printer_entries new_name doc doc' :
  with_target_printer new_name doc = Some doc' →
  entry "client" "target_printer" doc' = Some (TString new_name)
  ∧ (∀ key, key ≠ "target_printer" → entry "client" key doc' = entry "client" key doc)
  ∧ (∀ key, key ≠ "client" → top key doc' = top key doc).
Proof.
  unfold with_target_printer. destruct doc as [|t|]; try done. destruct (get_table _ _) as [c|] eqn:E; [|done]. intros [= <-].
  apply get_table_Some in E as (t' & [= <-] & E).
  assert (get_table "client" (TTable (table_set "client" (TTable (table_insert "target_printer" (TString new_name) c)) t))
    = Some (table_insert "target_printer" (TString new_name) c)) as Hset.
  { simpl. by rewrite table_get_set by (by rewrite E). }
  assert (get_table "client" (TTable t) = Some c) as Hold by (simpl; by rewrite E).
  unfold entry. rewrite Hset, Hold. simpl. split_and!.
  - apply table_get_insert.
  - intros key Hk. by apply table_get_insert_ne.
  - intros key Hk. by apply table_get_set_ne.
Qed.

(** ** Properties *)

Section properties.
Context `{TomlLaws}.

Lemma read_to_string_ok path d s d' :
  read_to_string path d = (Ok s, d') →
  from_utf8 (default [] (content <$> files d !! path)) = Some s ∧ files d' = files d.
Proof.
  unfold read_to_string, mbind, M_bind, read_file. destruct (io _ intact d) as [[b|e] d1] eqn:E; [|done].
  intros Hb. assert (from_utf8 b = Some s ∧ d' = d1) as [Hu ->].
  { destruct (from_utf8 b); [|done]. by injection Hb as <- <-. }
  unfold io, next_accident in E. destruct (down d); [done|].
  destruct (accidents d) as [|[|e l|[] l] acc]; simpl in E; try done;
    destruct (files d !! path) as [f|]; simplify_eq; done.
Qed.

Lemma write_file_ok path b d d' :
  write_file path b d = (Ok tt, d') → files d' = put_content path b (files d).
Proof.
  unfold write_file, write_durable, io, next_accident. destruct (down d); [done|].
  destruct (accidents d) as [|[|e l|[] l] acc]; simpl; intros [= <-] || intros [=]; done.
Qed.

(** A change of the printer in the dashboard that reports success has
    rewritten the configuration file with that printer, and every other entry of
    the document - of the client's section and of the others - reads as before. *)
Theorem printer_change_keeps_the_configuration path new_name d d' doc :
  (∃ s, from_utf8 (default [] (content <$> files d !! path)) = Some s ∧ from_str s = Ok doc) →
  update_target_printer path new_name d = (Ok tt, d') →
  ∃ s' doc', from_utf8 (default [] (content <$> files d' !! path)) = Some s' ∧ from_str s' = Ok doc'
    ∧ entry "client" "target_printer" doc' = Some (TString new_name)
    ∧ (∀ key, key ≠ "target_printer" → entry "client" key doc' = entry "client" key doc)
    ∧ (∀ key, key ≠ "client" → top key doc' = top key doc)
    ∧ (∀ p, p ≠ path → files d' !! p = files d !! p).
Proof.
  intros (s & Hs & Hdoc). unfold update_target_printer. unfold mbind at 1, M_bind at 1, map_err.
  destruct (read_to_string path d) as [[s1|e] d1] eqn:E; [|done]. apply read_to_string_ok in E as [Hs1 Hf].
  rewrite Hs in Hs1. injection Hs1 as <-. unfold mbind at 1, M_bind at 1, lift_toml. rewrite Hdoc. simpl.
  destruct (with_target_printer new_name doc) as [doc'|] eqn:Hw; [|done].
  unfold mbind at 1, M_bind at 1. destruct (to_string_pretty doc') as [s'|e] eqn:Hp; [|done]. simpl.
  destruct (write_file path (as_bytes s') d1) as [[[]|e] d2] eqn:E; [|done]. intros [= <-].
  apply write_file_ok in E. apply with_target_printer_entries in Hw as (Ht & Hc & Ho).
  exists s', doc'. rewrite E. unfold put_content. rewrite lookup_insert_eq. simpl. split_and!; [|by eapply pretty_round_trip|done..|].
  - apply from_utf8_as_bytes. by eapply pretty_text.
  - intros p Hne. rewrite lookup_insert_ne by done. by rewrite Hf.
Qed.
End properties.

(** A document of one section with a port and a printer, written as the printer's
    name. *)
Module OneSection.
Definition doc (printer : string) : TValue :=
  TTable [("client", TTable [("dashboard_port", TScalar "9120"); ("target_printer", TString printer)])].
Definition pretty (v : TValue) : result string string :=
  match v with
  | TTable [(c, TTable [(p, TScalar port); (t, TString printer)])] =>
    if (c =t? "client") && (p =t? "dashboard_port") && (port =t? "9120") && (t =t? "target_printer")
       && valid_utf8 (map u8 (as_bytes printer))
    then Ok printer else Err "unsupported"
  | _ => Err "unsupported"
  end.
#[export] Instance toml : Toml := {|
  from_str := λ s, Ok (doc s); to_string_pretty := pretty; config_of := λ _, Err "not read here" |}.
Lemma pretty_doc v s : pretty v = Ok s → v = doc s ∧ is_text s.
Proof.
  unfold pretty. destruct v as [|[|[c [|[|[p [| |port]] [|[t [printer| |]] [|]]]|]] [|]]|]; try done.
  destruct (_ && _) eqn:E; [|done]. intros [= <-]. repeat (apply andb_true_iff in E as [E ?]).
  repeat match goal with H : (_ =t? _) = true |- _ => apply String.eqb_eq in H end. subst. done.
Qed.
#[export] Instance toml_laws : TomlLaws.
Proof. split; intros v s H; apply pretty_doc in H as [-> ?]; done. Qed.
Definition disk : Disk := mkDisk {[ "config.toml" := mkFile (as_bytes "Old") false ]} [] false.
End OneSection.

Section instances.
Import OneSection.
Lemma printer_change_keeps_the_configuration_witness :
  ∃ d' s' doc', update_target_printer "config.toml" "EPSON L3270" disk = (Ok tt, d')
    ∧ from_str s' = Ok doc' ∧ entry "client" "target_printer" doc' = Some (TString "EPSON L3270")
    ∧ entry "client" "dashboard_port" doc' = Some (TScalar "9120").
Proof.
  destruct (update_target_printer "config.toml" "EPSON L3270" disk) as [r d'] eqn:E.
  assert (r = Ok tt) as Hr by (vm_compute in E; injection E as <- _; reflexivity). rewrite Hr in E.
  destruct (printer_change_keeps_the_configuration "config.toml" "EPSON L3270" disk d' (doc "Old"))
    as (s' & doc' & _ & Hd & Ht & Hc & _).
  - exists "Old". split; vm_compute; reflexivity.
  - exact E.
  - exists d', s', doc'. rewrite Hr. split; [reflexivity|]. split; [exact Hd|]. split; [exact Ht|].
    rewrite Hc by discriminate. reflexivity.
Defined.
End instances.
