(* ===== verification/LanCert.v ===== *)
(** * The LAN API's certificate on the store PC

    [src/crates/devbridge-client/src/lan_api/cert.rs] and the TLS configuration
    of [lan_api/mod.rs]: the pair on disk and its replacement, the recovery of an
    interrupted one, the renewal at pz-server and the loop that keeps the pair
    valid.  Certificates are read by [x509_parser] and [rustls], keys made by
    [rcgen]: the classes [X509] and [StorePc].  Durations are in seconds. *)

From Stdlib Require Import ZArith Ascii String.
From stdpp Require Import gmap.
From S2P Require Import Prelude RustStd Text Core Json DeviceTasks Config Files.
#[local] Open Scope Z_scope.

(** ** Reading certificates *)

(** A name that is not a DNS name: how it is printed. *)
Inductive GeneralName := DNSName (dns : string) | OtherName (shown : string).
Record XCert := mkXCert {
  x_names : result string (option (list GeneralName));   (* its subjectAltName *)
  x_not_after : Z;
  x_public_key : bytes;
}.
Class X509 : Type := {
  first_pem : bytes → result string (string * bytes);     (* the label and content of the first block *)
  parse_x509 : bytes → result string XCert;
  pem_certs : bytes → result string (list bytes);
  pem_key : bytes → result string bytes;
  single_cert : list bytes → bytes → result string unit;  (* they belong together *)
}.

Definition io_text (e : IoError) : string := match e with NotFound => "not found" | Other t => t end.
(** [m.with_context(c)?] of a file operation *)
Definition with_context {A} (c : string) (m : FM A) : M Disk string A :=
  map_err (λ e, c +:+ ": " +:+ io_text e) m.

Section tls.
Context `{X509}.

Definition tls_config (chain_pem key_pem : bytes) : result string unit :=
  match context "the certificate file is not PEM" (pem_certs chain_pem) with
  | Err e => Err e
  | Ok [] => Err "the certificate file holds no certificate"
  | Ok chain =>
    match context "the key file holds no PEM key" (pem_key key_pem) with
    | Err e => Err e
    | Ok key => context "the certificate and the key do not belong together" (single_cert chain key)
    end
  end.

Record Leaf := mkLeaf { not_after : Z; dns_names : list string; public_key : bytes }.
Definition dns_of (n : GeneralName) : option string := match n with DNSName d => Some d | OtherName _ => None end.
Definition leaf_of (chain_pem : bytes) : result string Leaf :=
  match first_pem chain_pem with
  | Err e => Err ("no PEM certificate (" +:+ e +:+ ")")
  | Ok (label, der) =>
    if negb (label =t? "CERTIFICATE")
    then Err ("the first PEM block is a " +:+ label +:+ " (expected CERTIFICATE)")
    else match parse_x509 der with
         | Err e => Err ("unreadable certificate (" +:+ e +:+ ")")
         | Ok cert =>
           match x_names cert with
           | Err e => Err ("unreadable subjectAltName (" +:+ e +:+ ")")
           | Ok names => Ok (mkLeaf (x_not_after cert) (omap dns_of (default [] names)) (x_public_key cert))
           end
         end
  end.

Inductive CertStatus :=
| Missing
| Unusable (why : string)
| WrongName
| Valid (expires : Z).
Definition cert_status_to_string (s : CertStatus) : string :=
  match s with
  | Missing => "missing"
  | Unusable why => "unusable: " +:+ why
  | WrongName => "names another host"
  | Valid t => "valid until " +:+ z_to_string t +:+ " (unix)"
  end.
Definition status_of_pems (chain key : option bytes) (hostname : string) : CertStatus :=
  match chain, key with
  | Some chain, Some key =>
    match leaf_of chain with
    | Err e => Unusable e
    | Ok leaf =>
      match tls_config chain key with
      | Err e => Unusable e
      | Ok _ => if text_in hostname (dns_names leaf) then Valid (not_after leaf) else WrongName
      end
    end
  | _, _ => Missing
  end.

Definition RENEW_BEFORE : Z := 30 * 24 * 3600.
Definition CHECK_INTERVAL : Z := 12 * 3600.
Definition RETRY_BASE : Z := 5 * 60.
Definition RETRY_MAX : Z := 6 * 3600.
Definition REJECTED_RETRY : Z := 48 * 3600.
Definition NOT_CONNECTED_RETRY : Z := 30.
Definition renewal_due (status : CertStatus) (now : Z) : bool :=
  match status with Valid expires => expires - now <=? RENEW_BEFORE | _ => true end.

(** ** The pair on disk *)

Record CertPaths := mkPaths { dir : string; cert : string; key : string }.
Definition in_data_dir (data_dir : string) : CertPaths :=
  {| dir := data_dir +:+ "/lan-api"; cert := data_dir +:+ "/lan-api/cert.pem"; key := data_dir +:+ "/lan-api/key.pem" |}.
(** What stands before the last dot of the file name, if it has one. *)
Definition SLASH : ascii := "/".
Fixpoint stem (s : string) : option string :=
  match s with
  | EmptyString => None
  | String c s' =>
    match stem s' with
    | Some t => Some (String c t)
    | None =>
      if Ascii.eqb c "." && negb (existsb (Ascii.eqb SLASH) (list_ascii_of_string s')) then Some "" else None
    end
  end.
(** [path.with_extension("pem.new")] *)
Definition pending (path : string) : string := default path (stem path) +:+ ".pem.new".

Section pair.
Variable paths : CertPaths.
Definition key_new : string := pending (key paths).
Definition cert_new : string := pending (cert paths).

(** [read(path).ok()] *)
Definition read_if {E} (path : string) : M Disk E (option bytes) :=
  r ← attempt (read_file path); mret (match r with Ok b => Some b | Err _ => None end).
Definition status_of (hostname : string) : M Disk string CertStatus :=
  chain ← read_if (cert paths);
  key ← read_if (key paths);
  mret (status_of_pems chain key hostname).

Definition remove_if_present (path : string) : M Disk string unit :=
  r ← attempt (remove_file path);
  match r with
  | Ok _ | Err NotFound => mret tt
  | Err e => throw ("remove " +:+ path +:+ ": " +:+ io_text e)
  end.
Definition install (from to : string) : M Disk string unit := with_context ("install " +:+ to) (rename from to).

Definition store (key_pem chain_pem : bytes) : M Disk string unit :=
  _ ← with_context ("create " +:+ dir paths) create_dir_all;
  staged ← attempt (
    _ ← with_context ("write " +:+ key_new) (write_private key_new key_pem);
    _ ← with_context ("write " +:+ cert_new) (write_durable cert_new chain_pem);
    install key_new (key paths));
  match staged with
  | Err e =>
    _ ← (ignore (remove_if_present key_new) : M Disk string unit);
    _ ← (ignore (remove_if_present cert_new) : M Disk string unit);
    throw e
  | Ok _ => install cert_new (cert paths)
  end.

Definition drop_pending : M Disk string bool :=
  _ ← remove_if_present key_new;
  _ ← remove_if_present cert_new;
  mret false.
Definition finish_pending : M Disk string bool :=
  pending_chain ← read_if cert_new;
  match pending_chain with
  | None => _ ← remove_if_present key_new; mret false
  | Some chain =>
    new_key ← read_if key_new;
    match new_key with
    | Some new_key =>
      if is_ok (tls_config chain new_key) then
        _ ← install key_new (key paths);
        _ ← install cert_new (cert paths);
        mret true
      else drop_pending
    | None =>
      old_key ← read_if (key paths);
      match old_key with
      | Some k =>
        if is_ok (tls_config chain k) then _ ← install cert_new (cert paths); mret true else drop_pending
      | None => drop_pending
      end
    end
  end.
End pair.

(** ** The renewal *)

Record CertificateRequest := mkRequest { cr_client_id : string; cr_hostname : string; cr_csr_der : bytes }.
Record CertificateReply := mkReply {
  rp_ok : bool; rp_chain_pem : string; rp_error_code : string; rp_error : string }.
Definition CODE_NOT_CONNECTED : string := "not_connected".

Record KeyAndCsr := mkKeyAndCsr { key_pem : string; csr_der : bytes; kc_public_key : bytes }.
(** The store PC: the keys it makes, the answers of pz-server (after the requests
    before), the clock. *)
Class StorePc : Type := {
  new_key_and_csr : nat → string → result string KeyAndCsr;
  pz_server : list CertificateRequest → CertificateRequest → result string CertificateReply;
  unix_now : nat → Z;
}.
Context `{StorePc} `{DebugText}.

Definition debug_names (names : list string) : string :=
  "[" +:+ String.concat ", " (map (λ n, debug_str (chars n)) names) +:+ "]".
Definition check_issued (chain_pem hostname : string) (own_key : bytes) (now : Z) : result string Leaf :=
  match leaf_of (as_bytes chain_pem) with
  | Err e => Err e
  | Ok leaf =>
    if negb (text_in hostname (dns_names leaf)) then
      Err ("the issued certificate does not name " +:+ hostname +:+ " (it names " +:+ debug_names (dns_names leaf)
             +:+ ")")
    else if negb (bool_decide (public_key leaf = own_key)) then
      Err "the issued certificate is not for this PC's new key"
    else if negb (now <? not_after leaf) then Err "the issued certificate is already expired"
    else Ok leaf
  end.
Definition is_not_connected (reply : CertificateReply) : bool :=
  negb (rp_ok reply) && (rp_error_code reply =t? CODE_NOT_CONNECTED).
Definition reply_chain (reply : CertificateReply) : result string string :=
  if rp_ok reply && negb (is_blank (rp_chain_pem reply)) then Ok (rp_chain_pem reply)
  else Err ("pz-server did not issue the certificate (" +:+ rp_error_code reply +:+ "): " +:+ rp_error reply).

Inductive RenewFailure :=
| NotIssued (e : string)
| NotConnected (e : string)
| Rejected (e : string).
Definition renew_failure_to_string (f : RenewFailure) : string :=
  match f with
  | NotIssued e => "not issued: " +:+ e
  | NotConnected e => "no job stream seen by pz-server yet: " +:+ e
  | Rejected e => "issued but not usable here: " +:+ e
  end.
Definition retry_after (f : RenewFailure) (backoff : Backoff.t) : Z * Backoff.t :=
  match f with
  | NotIssued _ => Backoff.next_delay backoff
  | NotConnected _ => (NOT_CONNECTED_RETRY, backoff)
  | Rejected _ => (REJECTED_RETRY, backoff)
  end.
Definition reply_failure (reply : CertificateReply) : result RenewFailure string :=
  match reply_chain reply with
  | Ok chain => Ok chain
  | Err e => Err (if is_not_connected reply then NotConnected e else NotIssued e)
  end.

(** The disk, the requests sent, the reads of the clock, the listener's reload
    signals. *)
Record Keeper := mkKeeper { disk : Disk; requests : list CertificateRequest; reads : nat; reloads : nat }.
Record CertSource := mkSource { cs_client_id : string; cs_hostname : string }.
Definition KM (E A : Type) : Type := M Keeper E A.

Definition set_disk (d : Disk) (k : Keeper) : Keeper := mkKeeper d (requests k) (reads k) (reloads k).
Definition on_disk {A} (m : M Disk string A) : KM string A := zoom disk set_disk m.
Definition read_clock {E} : KM E Z := λ k, (Ok (unix_now (reads k)), mkKeeper (disk k) (requests k) (S (reads k)) (reloads k)).
Definition notify_reload {E} : KM E unit := modify (λ k, mkKeeper (disk k) (requests k) (reads k) (S (reloads k))).

Section keeper.
Variables (source : CertSource) (paths : CertPaths).

Definition request_chain (csr : bytes) : KM RenewFailure string := λ k,
  let req := mkRequest (cs_client_id source) (cs_hostname source) csr in
  let k' := mkKeeper (disk k) (requests k ++ [req]) (reads k) (reloads k) in
  (match pz_server (requests k) req with
   | Err e => Err (NotIssued e)
   | Ok reply => reply_failure reply
   end, k').
Definition lift_result {E A} (r : result E A) : KM E A := match r with Ok a => mret a | Err e => throw e end.
Definition rejected {A} (r : result string A) : result RenewFailure A :=
  match r with Ok a => Ok a | Err e => Err (Rejected e) end.
Definition fresh_key : KM RenewFailure KeyAndCsr := λ k,
  (match new_key_and_csr (List.length (requests k)) (cs_hostname source) with
   | Ok kc => Ok kc | Err e => Err (NotIssued e) end, k).
Definition renew : KM RenewFailure Leaf :=
  fresh ← fresh_key;
  chain ← request_chain (csr_der fresh);
  now ← read_clock;
  leaf ← lift_result (rejected (check_issued chain (cs_hostname source) (kc_public_key fresh) now));
  _ ← map_err Rejected (on_disk (store paths (as_bytes (key_pem fresh)) (as_bytes chain)));
  mret leaf.

(** An interrupted replacement is finished; an error is only logged. *)
Definition roll_forward {E} : KM E bool :=
  r ← attempt (on_disk (finish_pending paths));
  mret (match r with Ok installed => installed | Err _ => false end).

(** One round of the loop: the delay before the next, and the backoff. *)
Definition maintain_round (retry : Backoff.t) : KM string (Z * Backoff.t) :=
  installed ← roll_forward;
  _ ← (if installed : bool then notify_reload else mret tt);
  status ← on_disk (status_of paths (cs_hostname source));
  now ← read_clock;
  if renewal_due status now then
    r ← attempt renew;
    match r with
    | Ok leaf => _ ← notify_reload; mret (CHECK_INTERVAL, Backoff.reset retry)
    | Err failure =>
      let '(delay, retry') := retry_after failure retry in
      match failure with
      | Rejected _ =>
        rolled ← roll_forward;
        if rolled : bool then _ ← notify_reload; mret (CHECK_INTERVAL, Backoff.reset retry')
        else mret (delay, retry')
      | _ => mret (delay, retry')
      end
    end
  else mret (CHECK_INTERVAL, retry).
(** The loop, for [n] rounds: the delays it slept. *)
Fixpoint maintain (n : nat) (retry : Backoff.t) : KM string (list Z) :=
  match n with
  | O => mret []
  | S n' =>
    r ← maintain_round retry;
    delays ← maintain n' (snd r);
    mret (fst r :: delays)
  end.
Definition maintain_start : Backoff.t := Backoff.new RETRY_BASE RETRY_MAX.
End keeper.
End tls.
