(* ===== verification/LanCertTheory.v ===== *)
(** * The pair of certificate and key under crashes

    Runs of [LanCert.store] and [LanCert.finish_pending] in the logic of
    [Files]: what a crash may find on the disk, and what is there when they
    end. *)

From Stdlib Require Import ZArith Ascii String.
From stdpp Require Import gmap.
From S2P Require Import Prelude RustStd Text Core Json DeviceTasks Config Files LanCert.

(** ** Names *)

Lemma stem_app d s t : stem s = Some t → stem (d +:+ s) = Some (d +:+ t).
Proof. intros H. induction d as [|c d IH]; simpl; [done|]. by rewrite IH. Qed.
Lemma app_inj_l (d a b : string) : d +:+ a = d +:+ b → a = b.
Proof. induction d as [|c d IH]; simpl; [done|]. intros [= H]. auto. Qed.

Definition distinct_files (paths : CertPaths) : Prop :=
  NoDup [cert paths; key paths; cert_new paths; key_new paths].
Lemma pending_app d s t : stem s = Some t → pending (d +:+ s) = d +:+ (t +:+ ".pem.new").
Proof.
  intros H. unfold pending. rewrite (stem_app d s t H). change (default (d +:+ s) (Some (d +:+ t))) with (d +:+ t).
  clear. induction d as [|c d IH]; [done|]. exact (f_equal (String c) IH).
Qed.
Lemma NoDup_app_l d l : NoDup l → NoDup (map (String.append d) l).
Proof. intros H. apply NoDup_fmap_2; [|done]. intros a b. apply app_inj_l. Qed.
Lemma in_data_dir_distinct d : distinct_files (in_data_dir d).
Proof.
  unfold distinct_files, cert_new, key_new. simpl.
  rewrite (pending_app d "/lan-api/cert.pem" "/lan-api/cert"), (pending_app d "/lan-api/key.pem" "/lan-api/key") by done.
  apply (NoDup_app_l d ["/lan-api/cert.pem"; "/lan-api/key.pem"; "/lan-api/cert.pem.new"; "/lan-api/key.pem.new"]).
  apply (bool_decide_unpack _). vm_compute. exact I.
Qed.

(** ** A machine that is off *)

Lemma respects_off_with_context {A} c (m : FM A) : respects off m → respects off (with_context c m).
Proof. apply respects_map_err. Qed.
#[export] Hint Resolve respects_off_with_context : respects.
Lemma off_read_if {E} path : respects off (read_if path : M Disk E _).
Proof. unfold read_if, read_file. solve_respects. Qed.
Lemma off_remove_if_present path : respects off (remove_if_present path).
Proof. unfold remove_if_present, remove_file. solve_respects. Qed.
Lemma off_install from to : respects off (install from to).
Proof. unfold install, rename. solve_respects. Qed.
#[export] Hint Resolve off_read_if off_remove_if_present off_install : respects.

Section files.
Context (K : Accident → Prop).
Implicit Types P C : gmap string File → Prop.

Lemma runs_remove_if_present P path :
  ignores P path →
  runs K P (remove_if_present path)
    (λ r fs, P fs ∧ match r with Ok _ => fs !! path = None | Err _ => ∃ e rest, K (Fails e rest) end) P.
Proof.
  intros Hi. unfold remove_if_present.
  apply (runs_bind _ _ _ _ (λ r fs, match r with
    | Ok (Ok _) => P fs ∧ fs !! path = None | Ok (Err NotFound) => P fs ∧ fs !! path = None
    | Ok (Err (Other _)) => P fs ∧ ∃ e rest, K (Fails e rest) | Err _ => False end)).
  - eapply runs_conseq; [apply (runs_attempt (E' := string) _ (remove_file path) P
      (λ r fs, P fs ∧ match r with Err (Other _) => ∃ e rest, K (Fails e rest) | _ => fs !! path = None end) P)|done| |done].
    + apply runs_io; unfold intact; try (intros; assumption).
      * intros fs HP. destruct (fs !! path) eqn:E; simpl; [|done]. split; [by apply (ignores_delete P)|].
        by rewrite lookup_delete_eq.
      * intros fs e rest HK HP. eauto.
      * intros fs HP. destruct (fs !! path); simpl; [by apply (ignores_delete P)|done].
    + intros [[[]|[]]|[]] fs; naive_solver.
  - intros [[]|[|t]]; [apply runs_ret; done..|apply runs_throw; done].
  - done.
  - intros a. solve_respects.
Qed.
End files.

(** ** Replacing the pair *)

Section pair.
Context `{X509}.
Variable paths : CertPaths.
Hypothesis distinct : distinct_files paths.
Abbreviation CERT := (cert paths).
Abbreviation KEY := (key paths).
Abbreviation CERT_NEW := (cert_new paths).
Abbreviation KEY_NEW := (key_new paths).

Lemma distinct_names :
  CERT ≠ KEY ∧ CERT ≠ CERT_NEW ∧ CERT ≠ KEY_NEW ∧ KEY ≠ CERT_NEW ∧ KEY ≠ KEY_NEW ∧ CERT_NEW ≠ KEY_NEW.
Proof.
  unfold distinct_files in distinct. rewrite !NoDup_cons in distinct. rewrite !not_elem_of_cons in distinct. naive_solver.
Qed.
Ltac names := pose proof distinct_names as (? & ? & ? & ? & ? & ?).

(** The pair in place. *)
Definition pair_is (old : option File * option File) (fs : gmap string File) : Prop :=
  (fs !! CERT, fs !! KEY) = old.
Definition pair_holds (chain key : bytes) (fs : gmap string File) : Prop :=
  holds fs CERT = Some chain ∧ holds fs KEY = Some key.
(** Between the two renames: the new key, and its certificate still pending. *)
Definition half (chain key : bytes) (fs : gmap string File) : Prop :=
  holds fs KEY = Some key ∧ holds fs CERT_NEW = Some chain ∧ fs !! KEY_NEW = None.

Lemma pair_is_ignores old path : path ≠ CERT → path ≠ KEY → ignores (pair_is old) path.
Proof. intros H1 H2 fs fs' Hf. unfold pair_is. by rewrite !Hf by congruence. Qed.
Lemma key_new_ignores b path : path ≠ KEY_NEW → ignores (λ fs, holds fs KEY_NEW = Some b) path.
Proof. intros H1 fs fs' Hf. unfold holds. by rewrite Hf by congruence. Qed.
Lemma ignores_and (P Q : gmap string File → Prop) path :
  ignores P path → ignores Q path → ignores (λ fs, P fs ∧ Q fs) path.
Proof. intros HP HQ fs fs' Hf [? ?]. split; [by eapply HP|by eapply HQ]. Qed.

Lemma runs_staged K old key_pem chain :
  runs K (pair_is old)
    (_ ← with_context ("write " +:+ KEY_NEW) (write_private KEY_NEW key_pem);
     _ ← with_context ("write " +:+ CERT_NEW) (write_durable CERT_NEW chain);
     install KEY_NEW KEY)
    (λ r fs, match r with Ok _ => half chain key_pem fs | Err _ => pair_is old fs end)
    (λ fs, pair_is old fs ∨ half chain key_pem fs).
Proof.
  names. apply (runs_bind _ _ _ _ (λ r fs, pair_is old fs ∧ (r = Ok tt → holds fs KEY_NEW = Some key_pem)));
    [| |by intros e fs [? _]|intros; solve_respects].
  { apply runs_map_err. eapply runs_conseq; [apply (runs_write_private _ (pair_is old))|done| |by left].
    - by apply pair_is_ignores.
    - intros [[]|e] fs [? Hh]; (split; [done|]); [intros _; by apply Hh|done]. }
  intros [].
  apply (runs_bind _ _ _ _ (λ r fs, (pair_is old fs ∧ holds fs KEY_NEW = Some key_pem)
    ∧ (r = Ok tt → holds fs CERT_NEW = Some chain))); [| |by intros e fs [[? _] _]|intros; solve_respects].
  { apply runs_map_err.
    eapply runs_conseq; [apply (runs_write_durable _ (λ fs, pair_is old fs ∧ holds fs KEY_NEW = Some key_pem))| | |].
    - apply ignores_and; [by apply pair_is_ignores|by apply key_new_ignores].
    - intros fs [Hp Hk]. split; [done|]. by apply Hk.
    - intros [[]|e] fs [? Hh]; (split; [done|]); [intros _; by apply Hh|done].
    - intros fs [? _]. by left. }
  intros []. apply runs_map_err. apply runs_io.
  - intros fs [[Hp Hk] Hc]. specialize (Hc eq_refl). unfold holds, half in *. destruct (fs !! KEY_NEW) as [f|] eqn:E; [|done].
    simpl. files_simpl. done.
  - by intros fs e rest _ [[? _] _].
  - intros fs [[Hp Hk] Hc]. specialize (Hc eq_refl). unfold holds, half in *. destruct (fs !! KEY_NEW) as [f|] eqn:E; [|done].
    right. simpl. files_simpl. done.
  - intros fs rest [[? _] _]. by left.
Qed.

(** The replacement ends with the new pair, or with an error and the old pair or
    half of the new one; a crash finds one of the three. *)
Lemma runs_store K old key_pem chain :
  runs K (pair_is old) (store paths key_pem chain)
    (λ r fs, match r with
             | Ok _ => pair_holds chain key_pem fs
             | Err _ => pair_is old fs ∨ half chain key_pem fs
             end)
    (λ fs, pair_is old fs ∨ half chain key_pem fs ∨ pair_holds chain key_pem fs).
Proof.
  names. unfold store.
  apply (runs_bind _ _ _ _ (λ _, pair_is old)); [| |by left|intros; solve_respects].
  { apply runs_map_err. apply runs_io; unfold intact; auto. }
  intros [].
  apply (runs_bind _ _ _ _ (λ r fs, match r with Ok (Ok _) => half chain key_pem fs | _ => pair_is old fs end));
    [| |by left|intros; solve_respects].
  { eapply runs_conseq; [apply runs_attempt, runs_staged|done| |naive_solver]. intros [[]|[]] fs; simpl; done. }
  intros [_|e].
  - apply runs_map_err. apply runs_io.
    + intros fs (Hk & Hc & Hn). unfold holds, pair_holds in *. destruct (fs !! CERT_NEW) as [f|] eqn:E; [|done].
      simpl. files_simpl. done.
    + intros fs e rest _ Hh. by right.
    + intros fs (Hk & Hc & Hn). unfold holds, pair_holds in *. destruct (fs !! CERT_NEW) as [f|] eqn:E; [|done].
      right. right. simpl. files_simpl. done.
    + intros fs rest Hh. right. by left.
  - apply (runs_bind _ _ _ _ (λ r, pair_is old)); [| |by left|intros; solve_respects].
    { eapply runs_conseq; [apply runs_ignore|done|by intros r fs [_ Hq]|by intros fs; left].
      eapply runs_conseq; [apply runs_remove_if_present|done| |done]; [by apply pair_is_ignores|by intros r fs [? _]]. }
    intros _. apply (runs_bind _ _ _ _ (λ r, pair_is old)); [| |by left|intros; solve_respects].
    { eapply runs_conseq; [apply runs_ignore|done|by intros r fs [_ Hq]|by intros fs; left].
      eapply runs_conseq; [apply runs_remove_if_present|done| |done]; [by apply pair_is_ignores|by intros r fs [? _]]. }
    intros _. apply runs_throw. by left.
Qed.

(** ** Finishing an interrupted replacement *)

(** Either the old pair, or one the listener can serve. *)
Definition settled (old : option File * option File) (fs : gmap string File) : Prop :=
  pair_is old fs ∨ ∃ c k, is_ok (tls_config c k) = true ∧ pair_holds c k fs.
Definition safe (old : option File * option File) (fs : gmap string File) : Prop :=
  settled old fs ∨ ∃ c k, is_ok (tls_config c k) = true ∧ half c k fs.
Definition nothing_pending (fs : gmap string File) : Prop := fs !! CERT_NEW = None ∧ fs !! KEY_NEW = None.

Lemma settled_ignores old path : path ≠ CERT → path ≠ KEY → ignores (settled old) path.
Proof.
  intros H1 H2 fs fs' Hf. unfold settled, pair_is, pair_holds, holds. by rewrite !Hf by congruence.
Qed.

Lemma runs_read_if (P : gmap string File → Prop) path :
  runs crash_only P (read_if path : M Disk string _) (λ r fs, P fs ∧ r = Ok (holds fs path)) P.
Proof.
  unfold read_if. eapply runs_bind; [apply runs_attempt, runs_read| |done|intros; solve_respects].
  intros [b|e]; apply runs_ret; intros fs [HP Hr].
  - by rewrite Hr.
  - destruct e; [|by destruct Hr as (? & ? & [])]. unfold holds. by rewrite Hr.
Qed.

Lemma runs_drop_pending old :
  runs crash_only (settled old) (drop_pending paths)
    (λ r fs, (∃ b, r = Ok b) ∧ settled old fs ∧ nothing_pending fs) (safe old).
Proof.
  names. unfold drop_pending, nothing_pending.
  apply (runs_bind _ _ _ _ (λ r fs, r = Ok tt ∧ settled old fs ∧ fs !! KEY_NEW = None)); [| |naive_solver|intros; solve_respects].
  { eapply runs_conseq; [apply (runs_remove_if_present _ (settled old)); by apply settled_ignores|done| |by left].
    intros [[]|e] fs [? Hr]; [done|]. by destruct Hr as (? & ? & []). }
  intros [].
  eapply runs_bind;
    [eapply runs_ask, runs_found, (runs_remove_if_present _ (λ fs, settled old fs ∧ fs !! KEY_NEW = None))| | |].
  - by intros fs [_ ?].
  - intros fs [? _]. by left.
  - apply ignores_and; [by apply settled_ignores|]. intros fs fs' Hf. by rewrite Hf by congruence.
  - intros a. apply runs_ret. intros fs [[? ?] ?]. eauto.
  - intros e fs [_ (? & ? & [])].
  - intros. solve_respects.
Qed.

Lemma half_is_pending c k fs : half c k fs → holds fs CERT_NEW = Some c ∧ fs !! KEY_NEW = None.
Proof. by intros (_ & ? & ?). Qed.

Lemma runs_install_pair old chain k :
  is_ok (tls_config chain k) = true →
  runs crash_only (λ fs, half chain k fs)
    (_ ← install CERT_NEW CERT; mret true)
    (λ r fs, (∃ b, r = Ok b) ∧ settled old fs ∧ nothing_pending fs) (safe old).
Proof.
  names. intros Hok.
  assert (∀ fs f, half chain k fs → fs !! CERT_NEW = Some f →
    pair_holds chain k (<[CERT := f]> (delete CERT_NEW fs)) ∧ nothing_pending (<[CERT := f]> (delete CERT_NEW fs))) as Hinst.
  { intros fs f (Hk & Hc & Hn) Hf. unfold holds, pair_holds, nothing_pending in *. rewrite Hf in Hc. files_simpl. done. }
  eapply (runs_bind _ _ _ _ (λ r fs, match r with Ok _ => settled old fs ∧ nothing_pending fs | Err _ => False end));
    [| |done|intros; solve_respects].
  - apply runs_map_err, runs_io; unfold intact.
    + intros fs Hh. destruct (fs !! CERT_NEW) as [f|] eqn:E; simpl.
      * destruct (Hinst fs f Hh E) as [Hp Hn]. split; [|done]. right. eauto.
      * destruct Hh as (_ & Hc & _). unfold holds in Hc. by rewrite E in Hc.
    + intros fs e rest [].
    + intros fs Hh. destruct (fs !! CERT_NEW) as [f|] eqn:E; simpl; [|by right; eauto].
      left. right. exists chain, k. split; [done|]. by apply Hinst.
    + intros fs _ Hh. right. eauto.
  - intros a. apply runs_ret. intros fs [? ?]. eauto.
Qed.

Lemma runs_finish_pending old :
  runs crash_only (safe old) (finish_pending paths)
    (λ r fs, (∃ b, r = Ok b) ∧ settled old fs ∧ nothing_pending fs) (safe old).
Proof.
  names. unfold finish_pending.
  assert (∀ fs, holds fs CERT_NEW = None → safe old fs → settled old fs) as Hnone.
  { intros fs Hn [|(c & k & _ & _ & Hc & _)]; [done|congruence]. }
  eapply runs_bind; [apply runs_read_if| |naive_solver|intros; unfold drop_pending; solve_respects].
  intros [chain|].
  2:{ eapply runs_bind;
        [eapply runs_ask, runs_found, (runs_remove_if_present _ (λ fs, settled old fs ∧ fs !! CERT_NEW = None))| | |].
      - intros fs [Hs [= Hn]]. split; [by apply Hnone|]. unfold holds in Hn. by destruct (fs !! CERT_NEW).
      - intros fs [? _]. by left.
      - apply ignores_and; [by apply settled_ignores|]. intros fs fs' Hf. by rewrite Hf by congruence.
      - intros a. apply runs_ret. intros fs [[? ?] ?]. unfold nothing_pending. eauto.
      - intros e fs [_ (? & ? & [])].
      - intros. solve_respects. }
  eapply runs_bind; [eapply runs_found, runs_read_if; by intros fs [? _]| |naive_solver|intros; unfold drop_pending; solve_respects].
  intros [nk|].
  - assert (∀ fs, (safe old fs ∧ Ok (Some chain) = (Ok (holds fs CERT_NEW) : result string _))
                  ∧ Ok (Some nk) = (Ok (holds fs KEY_NEW) : result string _) → settled old fs) as Hset.
    { intros fs [[[Hs|(c & k & _ & _ & _ & Hk)] _] [= Hn]]; [done|]. unfold holds in Hn. by rewrite Hk in Hn. }
    destruct (is_ok (tls_config chain nk)) eqn:Hok; [|eapply runs_ask, runs_drop_pending; exact Hset].
    eapply (runs_bind _ _ _ _ (λ r fs, match r with Ok _ => half chain nk fs | Err _ => False end));
      [|intros; by apply runs_install_pair|done|intros; solve_respects].
    apply runs_map_err, runs_io; unfold intact.
    + intros fs [[_ [= Hc]] [= Hk]]. unfold holds, half in *. destruct (fs !! KEY_NEW) as [f|] eqn:E; simpl; [|done].
      files_simpl. done.
    + intros fs e rest [].
    + intros fs Hall. pose proof (Hset fs Hall) as Hs. destruct Hall as [[_ [= Hc]] [= Hk]].
      unfold holds in *. destruct (fs !! KEY_NEW) as [f|] eqn:E; simpl; [|by left].
      right. exists chain, nk. split; [done|]. unfold half. files_simpl. done.
    + intros fs _ Hall. left. by apply Hset.
  - eapply runs_bind; [eapply runs_found, runs_read_if; by intros fs [[? _] _]| |naive_solver|intros; unfold drop_pending; solve_respects].
    assert (∀ fs, ((safe old fs ∧ Ok (Some chain) = (Ok (holds fs CERT_NEW) : result string _))
                  ∧ Ok None = (Ok (holds fs KEY_NEW) : result string _)) →
              settled old fs ∨ ∃ k, is_ok (tls_config chain k) = true ∧ half chain k fs) as Hcase.
    { intros fs [[[Hs|(c & k & Hok & Hh)] [= Hc]] _]; [by left|]. right. exists k.
      destruct (half_is_pending _ _ _ Hh) as [Hc' _]. rewrite Hc' in Hc. injection Hc as ->. done. }
    intros [k|].
    + destruct (is_ok (tls_config chain k)) eqn:Hok.
      * eapply runs_ask, runs_install_pair; [|done]. intros fs [[[_ [= Hc]] [= Hn]] [= Hk]]. split_and!; [done..|].
        unfold holds in Hn. by destruct (fs !! KEY_NEW).
      * eapply runs_ask, runs_drop_pending. intros fs [Hall [= Hk]].
        destruct (Hcase fs Hall) as [?|(k' & Hok' & Hh)]; [done|]. destruct Hh as (Hk' & _). congruence.
    + eapply runs_ask, runs_drop_pending. intros fs [Hall [= Hk]].
      destruct (Hcase fs Hall) as [?|(k' & Hok' & Hh)]; [done|]. destruct Hh as (Hk' & _). congruence.
Qed.
End pair.

(** ** The private key *)

Section secrecy.
Context `{X509}.
Variable paths : CertPaths.
Hypothesis distinct : distinct_files paths.

(** A file is empty or restricted. *)
Definition guarded (fs : gmap string File) (path : string) : Prop :=
  ∀ f, fs !! path = Some f → content f = [] ∨ restricted f = true.
(** The key file and the one a new key is written to. *)
Definition private (fs : gmap string File) : Prop := guarded fs (key paths) ∧ guarded fs (key_new paths).

Ltac names := pose proof (distinct_names paths distinct) as (? & ? & ? & ? & ? & ?).
Lemma private_ignores path : path ≠ key paths → path ≠ key_new paths → ignores private path.
Proof. intros H1 H2 fs fs' Hf. unfold private, guarded. by rewrite !Hf by congruence. Qed.
Lemma private_delete path fs : private fs → private (delete path fs).
Proof. intros [Hk Hn]. split; intros f Hf; apply lookup_delete_Some in Hf as [_ Hf]; auto. Qed.
Lemma private_insert path f fs : private fs → content f = [] ∨ restricted f = true → private (<[path := f]> fs).
Proof.
  intros [Hk Hn] Hf. split; intros f' Hf'; apply lookup_insert_Some in Hf' as [[_ <-]|[_ Hf']]; auto.
Qed.
Lemma private_insert_other path f fs :
  path ≠ key paths → path ≠ key_new paths → private fs → private (<[path := f]> fs).
Proof. intros H1 H2. by apply (ignores_insert private), private_ignores. Qed.

Lemma runs_private_removal K path : runs K private (remove_if_present path) (λ _, private) private.
Proof.
  unfold remove_if_present. apply runs_inv_bind; [| |intros; solve_respects].
  - eapply runs_conseq; [apply (runs_attempt _ (remove_file path) private (λ _, private) private)|done| |done].
    + apply runs_io; unfold intact; try (intros; assumption); intros fs HP; destruct (fs !! path); simpl;
        try apply private_delete; done.
    + by intros [[]|] fs.
  - intros [[]|[|e]]; [apply runs_ret|apply runs_ret|apply runs_throw]; done.
Qed.

Lemma runs_private_install K from to :
  (from = key_new paths ∧ to = key paths) ∨ (from = cert_new paths ∧ to = cert paths) →
  runs K private (install from to) (λ _, private) private.
Proof.
  names. intros Hpaths. apply runs_map_err, runs_io; unfold intact; try (intros; assumption);
    intros fs HP; destruct (fs !! from) as [f|] eqn:E; simpl; try done;
    (destruct Hpaths as [[-> ->]|[-> ->]];
      [apply private_insert; [by apply private_delete|by apply HP]
      |apply private_insert_other; [done|done|by apply private_delete]]).
Qed.

Lemma runs_private_write K b : runs K private (write_private (key_new paths) b) (λ _, private) private.
Proof.
  names. unfold write_private.
  apply runs_inv_bind; [| |intros; unfold restrict; solve_respects].
  { apply runs_io; unfold put_content, torn_write; intros fs; intros; try (apply private_insert; [assumption|by left]).
    - match goal with |- context [const [] <$> ?o] => destruct o end; simpl; [apply private_insert; [assumption|by left]|done].
    - match goal with |- context [const [] <$> ?o] => destruct o end; simpl; [apply private_insert; [assumption|by left]|done]. }
  intros []. apply (runs_bind _ _ _ _ (λ r fs, private fs ∧ (r = Ok tt → is_restricted (key_new paths) fs = true)));
    [| |by intros e fs [? _]|intros; solve_respects].
  { apply runs_io; unfold intact.
    - intros fs HP. destruct (fs !! key_new paths) as [f|] eqn:E; simpl; [|done]. split.
      + apply private_insert; [done|by right].
      + intros _. unfold is_restricted. by rewrite lookup_insert_eq.
    - intros fs e rest _ HP. done.
    - intros fs HP. destruct (fs !! key_new paths) as [f|] eqn:E; simpl; [|done]. apply private_insert; [done|by right].
    - done. }
  intros []. apply runs_io; unfold put_content, torn_write.
  - intros fs [HP Hr]. apply private_insert; [done|]. right. by apply Hr.
  - intros fs e [b'|] _ [HP Hr]; simpl; [|done]. apply private_insert; [done|]. right. by apply Hr.
  - intros fs [HP Hr]. apply private_insert; [done|]. right. by apply Hr.
  - intros fs [b'|] [HP Hr]; simpl; [|done]. apply private_insert; [done|]. right. by apply Hr.
Qed.

Lemma runs_private_write_cert K b : runs K private (write_durable (cert_new paths) b) (λ _, private) private.
Proof.
  names. eapply runs_conseq; [apply (runs_write_durable K private); by apply private_ignores|done| |done]. by intros r fs [? _].
Qed.

Lemma runs_private_store K key_pem chain : runs K private (store paths key_pem chain) (λ _, private) private.
Proof.
  unfold store. apply runs_inv_bind; [| |intros; solve_respects].
  { apply runs_map_err, runs_io; unfold intact; auto. }
  intros []. apply runs_inv_bind; [| |intros; solve_respects].
  { eapply runs_conseq; [apply (runs_attempt _ _ private (λ _, private) private)|done| |done]; [|by intros [[]|] fs].
    apply runs_inv_bind; [apply runs_map_err, runs_private_write| |intros; solve_respects].
    intros []. apply runs_inv_bind; [apply runs_map_err, runs_private_write_cert| |intros; solve_respects].
    intros []. apply runs_private_install. auto. }
  intros [[]|e]; [apply runs_private_install; auto|].
  do 2 (apply runs_inv_bind; [eapply runs_conseq; [apply runs_ignore, runs_private_removal|done|by intros r fs [_ ?]|done]|
    intros _|intros; solve_respects]).
  by apply runs_throw.
Qed.

Lemma runs_private_read_if {E} K path : runs K private (read_if path : M Disk E _) (λ _, private) private.
Proof.
  unfold read_if. apply runs_inv_bind; [| |intros; solve_respects].
  - eapply runs_conseq; [apply runs_attempt, (runs_read _ private)|done| |done]. by intros [[]|] fs; [intros [? _]..|].
  - intros a. by apply runs_ret.
Qed.

Lemma runs_private_finish K : runs K private (finish_pending paths) (λ _, private) private.
Proof.
  assert (∀ from to, (from = key_new paths ∧ to = key paths) ∨ (from = cert_new paths ∧ to = cert paths) →
    ∀ m : M Disk string bool, runs K private m (λ _, private) private → respects off m →
    runs K private (_ ← install from to; m) (λ _, private) private) as Hinst.
  { intros from to Hp m Hm Hoff. apply runs_inv_bind; [by apply runs_private_install|by intros _|done]. }
  assert (runs K private (mret true : M Disk string bool) (λ _, private) private) as Htrue by by apply runs_ret.
  assert (runs K private (drop_pending paths) (λ _, private) private) as Hdrop.
  { unfold drop_pending. do 2 (apply runs_inv_bind; [apply runs_private_removal|intros _|intros; solve_respects]).
    by apply runs_ret. }
  unfold finish_pending.
  apply runs_inv_bind; [apply runs_private_read_if| |intros; unfold drop_pending; solve_respects].
  intros [chain|].
  2:{ apply runs_inv_bind; [apply runs_private_removal| |intros; solve_respects]. intros _. by apply runs_ret. }
  apply runs_inv_bind; [apply runs_private_read_if| |intros; unfold drop_pending; solve_respects].
  intros [nk|].
  - destruct (is_ok _); [|done]. apply Hinst; [auto|apply Hinst; [auto|done|solve_respects]|solve_respects].
  - apply runs_inv_bind; [apply runs_private_read_if| |intros; unfold drop_pending; solve_respects].
    intros [k|]; [|done]. destruct (is_ok _); [|done]. apply Hinst; [auto|done|solve_respects].
Qed.
End secrecy.
