(* ===== verification/LanApi.v ===== *)
(** * The LAN API of the tills

    [src/crates/devbridge-client/src/lan_api/auth.rs], [request.rs] and the
    handlers of [mod.rs]: a till's key, the reading of a request, the JSON of a
    job and the four routes over [DeviceTasks]'s door into the device jobs.
    SHA-256 is the class [Sha256]; the HTTP server hands over the
    [Authorization] header, when it is visible ASCII, and the body. *)

From Stdlib Require Import ZArith Ascii String Strings.Byte.
From stdpp Require Import gmap.
From S2P Require Import Prelude RustStd Text Core Sqlite Json DeviceApi JournalData JournalCard Journal DeviceTasks.
From S2P Require Import PortosPayload Config.
#[local] Open Scope Z_scope.

(** ** [auth.rs] *)

(** A digest is 32 bytes. *)
Class Sha256 : Type := {
  sha256 : bytes → bytes;
  sha256_length : ∀ b, length (sha256 b) = 32%nat;
}.

Definition KeyDigest : Type := bytes.
(** [x ^ y] and [acc | x] of bytes. *)
Definition ct_eq (a b : KeyDigest) : bool :=
  foldl (λ acc '(x, y), Z.lor acc (Z.lxor (u8 x) (u8 y))) 0 (zip a b) =? 0.

Definition SPACE : list Z := [32].
Definition eq_ignore_ascii_case (a b : list Z) : bool :=
  bool_decide (map to_ascii_lowercase a = map to_ascii_lowercase b).
Definition bearer_token (header : option string) : option string :=
  header ← header;
  '(scheme, token) ← split_once SPACE (chars header);
  let token := trim token in
  if eq_ignore_ascii_case scheme (chars "bearer") && negb (bool_decide (token = []))
  then Some (of_chars token) else None.

Section keys.
Context `{Sha256}.

Definition digest (key : string) : KeyDigest := sha256 (as_bytes key).
Record KeyTable := mkKeyTable { keys : list (Z * KeyDigest); bridge : option KeyDigest }.

(** A key without its surrounding blanks, unless nothing is left. *)
Definition trimmed_key (key : string) : option string := if is_blank key then None else Some (trimmed key).
Definition key_of (k : PokladnaKasaConfig) : option (Z * KeyDigest) :=
  key ← lan_key k; key ← trimmed_key key; Some (kasa_id k, digest key).
Definition KeyTable_new (kasy : list PokladnaKasaConfig) (bridge_key : string) : KeyTable :=
  {| keys := omap key_of kasy; bridge := digest <$> trimmed_key bridge_key |}.
Definition tills (t : KeyTable) : list Z := map fst (keys t).
Definition till_of (t : KeyTable) (token : option string) : option Z :=
  token ← token;
  let presented := digest token in
  let till := foldl (λ till '(id, key), if ct_eq key presented then Some id else till) None (keys t) in
  let is_bridge := match bridge t with Some b => ct_eq b presented | None => false end in
  if is_bridge then None else till.
End keys.

(** ** [request.rs] *)

Section requests.
Context `{JsonText}.

Definition positive_int (v : option Value) : option Z :=
  n ← v ≫= as_i64_value; if 0 <? n then Some n else None.
(** [.ok_or_else(..)?] *)
Definition ok_or {A} (o : option A) (text : string) (f : A → result string LanRequest) : result string LanRequest :=
  match o with Some a => f a | None => Err text end.
Definition KASA_TEXT : string := "kasa_id must be a positive integer (the till's pos.config id)".
Definition parse_request (body : bytes) : result string LanRequest :=
  ok_or (from_utf8 body ≫= json_from_str) "the body is not JSON" (λ v,
  ok_or (if is_object v then Some v else None) "the body must be a JSON object" (λ obj,
  ok_or (u ← get_field "client_uuid" obj ≫= as_str; if client_uuid_ok u then Some u else None)
    "client_uuid must be a string of [A-Za-z0-9_-]{1,64}" (λ client_uuid,
  ok_or (positive_int (get_field "kasa_id" obj)) KASA_TEXT (λ kasa_id,
  ok_or (t ← get_field "job_type" obj ≫= as_str; if is_blank t then None else Some t)
    "job_type must be a non-empty string" (λ job_type,
  ok_or (p ← get_field "payload" obj; if is_object p then Some p else None)
    "payload must be a JSON object" (λ payload,
  ok_or (match get_field "pos_order_id" obj with
         | None | Some VNull => Some None
         | some => Some <$> positive_int some
         end) "pos_order_id must be a positive integer or null" (λ pos_order_id,
  Ok {| lr_kasa_id := kasa_id; lr_client_uuid := client_uuid; lr_job_type := job_type;
        lr_payload := payload; lr_pos_order_id := pos_order_id |}))))))).

Definition parse_path (kasa_id client_uuid : string) : option Z :=
  match parse_i64 (chars kasa_id) with
  | Ok id => if (0 <? id) && client_uuid_ok client_uuid then Some id else None
  | Err _ => None
  end.

Definition error_fields (code text : string) : Value := VObject [("code", VString code); ("text", VString text)].
Definition error_json (code text : string) : Value := VObject [("error", error_fields code text)].
Definition opt_number (o : option Z) : Value := match o with Some n => VNumber (NInt n) | None => VNull end.
(** The error of a job that failed or whose outcome is unknown. *)
Definition entry_error (e : JournalEntry) : Value :=
  match je_state e with
  | JFailed => error_fields (default "bridge_error" (je_error_code e)) (default "" (je_error_text e))
  | SIndeterminate => error_fields "indeterminate" (default "" (je_error_text e))
  | _ => VNull
  end.
Definition job_error (job : LanJob) : Value := entry_error (lj_entry job).
(** An object's keys are in order. *)
Definition job_json (job : LanJob) (replay : bool) : Value :=
  let e := lj_entry job in
  VObject [("client_uuid", VString (dj_client_uuid (je_job e)));
           ("error", job_error job);
           ("job_type", VString (dj_job_type (je_job e)));
           ("kasa_id", opt_number (dj_kasa_id (je_job e)));
           ("odoo_job_id", opt_number (lj_odoo_job_id job));
           ("received_at", VString (je_received_at e));
           ("replay", VBool replay);
           ("reported", VBool (lj_reported job));
           ("result", match je_state e with SDone => default VNull (je_result e) | _ => VNull end);
           ("state", VString (jstate_as_str (je_state e)));
           ("updated_at", VString (je_updated_at e))].
Definition card_job_json (entry : JournalEntry) (card : option CardPayment) : Value :=
  let authorized := card ≫= cp_auth_result in
  let held := bool_decide (je_state entry = Executing) && bool_decide (is_Some authorized) in
  VObject [("client_uuid", VString (dj_client_uuid (je_job entry)));
           ("error", entry_error entry);
           ("job_id", VNumber (NInt (dj_id (je_job entry))));
           ("job_type", VString (dj_job_type (je_job entry)));
           ("kasa_id", opt_number (dj_kasa_id (je_job entry)));
           ("phase", if held then VString "authorized" else VNull);
           ("received_at", VString (je_received_at entry));
           ("result", match je_state entry with
                      | SDone => default VNull (je_result entry)
                      | _ => if held then default VNull authorized else VNull
                      end);
           ("state", VString (jstate_as_str (je_state entry)));
           ("updated_at", VString (je_updated_at entry))].
Definition job_status (st : JState) : Z := if is_final st then 200 else 202.
End requests.

(** ** The routes ([mod.rs]) *)

Record Reply := mkReply { rp_status : Z; rp_body : Value }.
Definition CODE_CLIENT_UUID_CONFLICT : string := "client_uuid_conflict".
Definition CODE_STATE_UNKNOWN : string := "state_unknown".
Definition UNAUTHORIZED_TEXT : string := "missing or unknown LAN key of a till".
Definition WRONG_KASA_TEXT : string := "this LAN key belongs to another till".
Definition BAD_PATH_TEXT : string := "kasa_id must be a positive integer and client_uuid [A-Za-z0-9_-]{1,64}".

Definition error_reply (status : Z) (code text : string) : Reply := mkReply status (error_json code text).
Definition unauthorized : Reply := error_reply 401 "unauthorized" UNAUTHORIZED_TEXT.
Definition wrong_kasa : Reply := error_reply 403 "wrong_kasa" WRONG_KASA_TEXT.

Definition conflict_text (job : LanJob) : string :=
  "this client_uuid already names another operation on this till (" +:+ dj_job_type (je_job (lj_entry job))
    +:+ ") - nothing ran".
Definition answer_reply (answer : LanAnswer) : Reply :=
  match answer with
  | LanAnswerJob job replay => mkReply (job_status (lj_state job)) (job_json job replay)
  | LanRefused code text => error_reply 422 code text
  | LanConflict job =>
    mkReply 409 (VObject [("error", error_fields CODE_CLIENT_UUID_CONFLICT (conflict_text job));
                          ("job", job_json job true)])
  | LanBridgeError text => error_reply 503 CODE_BRIDGE_ERROR text
  | LanStateUnknown text => error_reply 503 CODE_STATE_UNKNOWN text
  end.

Section routes.
Context `{Chrono} `{JsonText} `{Sha256}.
Variables (registry : ExecutorRegistry) (table : KeyTable).

(** [wait_settled]: it looks at the row, and again after every outcome of another
    task ([looks]: the moment, and what the other tasks did before it); the last
    look is at the deadline. *)
Fixpoint wait_settled (looks : list (Instant * (Client → Client))) (job_id : Z) (deadline : Instant) : CM LanJob :=
  match looks with
  | [] =>
    o ← wait_settled_turn job_id deadline deadline;
    match o with Some job => mret job | None => throw "no answer at the deadline" end
  | (now, others) :: looks' =>
    o ← wait_settled_turn job_id now deadline;
    match o with
    | Some job => mret job
    | None => _ ← modify others; wait_settled looks' job_id deadline
    end
  end.
(** [LanJobs::submit] *)
Definition submit (r : LanRequest) (now deadline : Instant) (looks : list (Instant * (Client → Client)))
    : CM LanAnswer :=
  a ← attempt (admit_lan registry r now);
  match submit_admitted a with
  | Err answer => mret answer
  | Ok (job_id, replay) =>
    settled ← attempt (wait_settled looks job_id deadline);
    mret (submit_settled replay settled)
  end.

Definition post_job (authorization : option string) (body : bytes) (now deadline : Instant)
    (looks : list (Instant * (Client → Client))) : CM Reply :=
  match till_of table (bearer_token authorization) with
  | None => mret unauthorized
  | Some till =>
    match parse_request body with
    | Err text => mret (error_reply 400 "bad_request" text)
    | Ok request =>
      if negb (lr_kasa_id request =? till) then mret wrong_kasa
      else answer ← submit request now deadline looks; mret (answer_reply answer)
    end
  end.

(** A GET of a till's job: its key, its path, then the read. *)
Definition get_of_till {A} (authorization : option string) (kasa client_uuid : string)
    (read : Z → JM (option A)) (not_found : string) (found : A → Reply) : CM Reply :=
  match till_of table (bearer_token authorization) with
  | None => mret unauthorized
  | Some till =>
    match parse_path kasa client_uuid with
    | None => mret (error_reply 400 "bad_request" BAD_PATH_TEXT)
    | Some kasa_id =>
      if negb (kasa_id =? till) then mret wrong_kasa
      else
        r ← attempt (on_journal (read kasa_id));
        mret (match r with
              | Ok (Some a) => found a
              | Ok None => error_reply 404 "not_found" not_found
              | Err e => error_reply 503 CODE_STATE_UNKNOWN e
              end)
    end
  end.
Definition get_job (authorization : option string) (kasa client_uuid : string) : CM Reply :=
  get_of_till authorization kasa client_uuid (λ kasa_id, lan_job kasa_id client_uuid)
    "no job with this client_uuid on this till"
    (λ job, mkReply (job_status (lj_state job)) (job_json job false)).
Definition get_card_job (authorization : option string) (kasa client_uuid : string) : CM Reply :=
  get_of_till authorization kasa client_uuid (λ kasa_id, card_job_by_uuid kasa_id client_uuid)
    "no card job with this client_uuid on this till"
    (λ '(entry, card), mkReply (job_status (je_state entry)) (card_job_json entry card)).

(** [LanJobs::health] and its route; [version] is the build's. *)
Definition portos_health : string := match registry Fiscal with Some ex => ex_status ex | None => "none" end.
Definition health (authorization : option string) (version : string) : CM Reply :=
  match till_of table (bearer_token authorization) with
  | None => mret unauthorized
  | Some _ =>
    r ← attempt (on_journal unreported_lan_jobs);
    mret (match r with
          | Ok unreported =>
            mkReply 200 (VObject [("portos", VString portos_health); ("status", VString "ok");
                                  ("unreported", VNumber (NInt unreported)); ("version", VString version)])
          | Err e => error_reply 503 CODE_BRIDGE_ERROR e
          end)
  end.
End routes.
