(* ===== verification/AcmeOrder.v ===== *)
(** * The ACME order of a store's certificate

    [src/crates/devbridge-server/src/cert/dns.rs] and [acme.rs]: the TXT
    records at Cloudflare, the account kept on disk, the order with its
    challenges, and the removal of the records.  The CA ([instant-acme]), the
    HTTP exchanges with Cloudflare and the time every wait takes are the class
    [AcmeWorld]: its answers are indexed by the number of the wait, so that two
    equal calls may be answered differently.  Durations are nanoseconds. *)

From Stdlib Require Import ZArith Ascii String.
From stdpp Require Import gmap.
From S2P Require Import Prelude RustStd Text Core Sqlite Json DeviceTasks Config Files.
#[local] Open Scope Z_scope.

(** ** [dns.rs] *)

Definition txt_record_name (hostname : string) : string := "_acme-challenge." +:+ hostname.
Definition TXT_TTL_SECS : Z := 60.

Section cloudflare.
Context `{JsonText}.

Definition cloudflare_error (e : Value) : string :=
  default "" (json_to_string <$> get_field "code" e) +:+ " "
    +:+ default "" (get_field "message" e ≫= as_str).
Definition success_status (status : Z) : bool := (200 <=? status) && (status <? 300).
Definition parse_cloudflare (status : Z) (body : string) : result string Value :=
  match json_from_str body with
  | None => Err ("Cloudflare HTTP " +:+ z_to_string status +:+ ": not JSON (" +:+ z_to_string (byte_len body)
                   +:+ " bytes)")
  | Some v =>
    if success_status status && bool_decide (get_field "success" v ≫= as_bool = Some true)
    then Ok (default VNull (get_field "result" v))
    else Err ("Cloudflare HTTP " +:+ z_to_string status +:+ ": "
                +:+ default "" ((λ es, String.concat "; " (map cloudflare_error es))
                                  <$> (get_field "errors" v ≫= as_array)))
  end.
(** An object's keys are in order. *)
Definition txt_record (name value : string) : Value :=
  VObject [("content", VString value); ("name", VString name); ("ttl", VNumber (NInt TXT_TTL_SECS));
           ("type", VString "TXT")].

Record CloudflareDns := mkCloudflareDns { cf_api_base : string; cf_zone_id : string; cf_token : string }.
Definition CloudflareDns_new (api_base zone_id token : string) : CloudflareDns :=
  {| cf_api_base := base_url api_base; cf_zone_id := trimmed zone_id; cf_token := token |}.
Definition cloudflare_debug (c : CloudflareDns) : list (string * string) :=
  [("api_base", cf_api_base c); ("zone_id", cf_zone_id c); ("token", redact_secret (cf_token c))].
Definition records_url (c : CloudflareDns) : string :=
  cf_api_base c +:+ "/zones/" +:+ cf_zone_id c +:+ "/dns_records".
Definition record_url (c : CloudflareDns) (id : string) : string := records_url c +:+ "/" +:+ id.

Inductive CfRequest :=
| Post (url token body : string)
| Delete (url token : string).
(** The id of the record an answer names. *)
Definition record_id (v : Value) : option string :=
  match get_field "id" v ≫= as_str with
  | Some id => if id =t? "" then None else Some id
  | None => None
  end.
End cloudflare.

(** ** The CA, Cloudflare and the time *)

Inductive AuthorizationStatus := AuthPending | AuthValid | AuthOther (shown : string).
Inductive OrderStatus := OrderReady | OrderOther (shown : string).
Definition order_status_debug (s : OrderStatus) : string :=
  match s with OrderReady => "Ready" | OrderOther shown => shown end.
Record Challenge := mkChallenge { challenge_url : string; dns_value : string }.
Record Authorization := mkAuthorization { auth_status : AuthorizationStatus; dns01 : option Challenge }.

Class AcmeWorld : Type := {
  Account : Type; Credentials : Type; Order : Type;
  took : nat → Duration;                                              (* how long the wait lasts *)
  http_client : option string → result string unit;           (* the CA root to trust *)
  parse_credentials : string → result string Credentials;
  credentials_text : Credentials → result string string;
  restore_account : nat → Credentials → result string Account;
  create_account : nat → option string → string → result string (Account * Credentials);
  new_order : nat → Account → string → result string Order;
  authorizations : Order → nat;
  authorization : nat → Order → nat → result string Authorization;
  set_ready : nat → Challenge → result string unit;
  poll_ready : nat → Duration → Order → result string OrderStatus;
  finalize_csr : nat → Order → bytes → result string unit;
  poll_certificate : nat → Duration → Order → result string string;
  cf_status : nat → CfRequest → result string Z;
  cf_body : nat → CfRequest → result string string;
}.

(** What an [AcmeCa] needs from [[server.acme]] ([cert/mod.rs]). *)
Record AcmeSettings := mkSettings {
  as_directory_url : string;
  as_contact : option string;
  as_ca_file : option string;
  as_account_file : string;
  as_propagation : Duration;
}.
Definition ACCOUNT_FILE : string := "acme-account.json".
Definition none_if_empty (s : string) : option string := if s =t? "" then None else Some s.
Definition AcmeSettings_from_config (cfg : AcmeServerConfig) (data_dir : string) : AcmeSettings :=
  {| as_directory_url := trimmed (directory_url cfg);
     as_contact := (λ e, "mailto:" +:+ e) <$> none_if_empty (trimmed (contact_email cfg));
     as_ca_file := none_if_empty (trimmed (acme_ca_file cfg));
     as_account_file := data_dir +:+ "/" +:+ ACCOUNT_FILE;
     as_propagation := from_secs (propagation_secs cfg) |}.

(** ** [acme.rs] *)

Definition READY_TIMEOUT : Duration := from_secs 90.
Definition CERTIFICATE_TIMEOUT : Duration := from_secs 30.
Module Acme.
Definition ORDER_LIMIT : Duration := from_secs 600.
End Acme.

(** Why an order ended without a chain: an error, or the whole order's limit. *)
Inductive OrderStop := Failed (e : string) | CutOff.

(** One exchange with Cloudflare: the request, and the answer if all of it came. *)
Record Exchange := mkExchange { ex_request : CfRequest; ex_answer : option (Z * string) }.

Section acme.
Context `{JsonText} `{AcmeWorld}.

Record AcmeCa := mkAcmeCa {
  ca_disk : Disk;
  cached : option Account;
  waits : nat;
  elapsed : Duration;                          (* since the order began *)
  records : list string;
  exchanges : list Exchange;
}.
Definition AM (A : Type) : Type := M AcmeCa OrderStop A.

Definition set_ca_disk (d : Disk) (c : AcmeCa) : AcmeCa :=
  mkAcmeCa d (cached c) (waits c) (elapsed c) (records c) (exchanges c).
Definition set_cached (a : option Account) (c : AcmeCa) : AcmeCa :=
  mkAcmeCa (ca_disk c) a (waits c) (elapsed c) (records c) (exchanges c).
Definition set_waited (n : nat) (t : Duration) (c : AcmeCa) : AcmeCa :=
  mkAcmeCa (ca_disk c) (cached c) n t (records c) (exchanges c).
Definition set_records (l : list string) (c : AcmeCa) : AcmeCa :=
  mkAcmeCa (ca_disk c) (cached c) (waits c) (elapsed c) l (exchanges c).
Definition add_exchange (x : Exchange) (c : AcmeCa) : AcmeCa :=
  mkAcmeCa (ca_disk c) (cached c) (waits c) (elapsed c) (records c) (exchanges c ++ [x]).

Definition fail_with {A} (r : result string A) : AM A :=
  match r with Ok a => mret a | Err e => throw (Failed e) end.
(** [.await]: it is cut off at [limit], when there is one. *)
Definition wait_for {A} (limit : option Duration) (how_long : Duration) (reply : nat → result string A) : AM A := λ c,
  let t := elapsed c + Z.max 0 how_long in
  match limit with
  | Some limit =>
    if limit <? t then (Err CutOff, set_waited (S (waits c)) limit c)
    else fail_with (reply (waits c)) (set_waited (S (waits c)) t c)
  | None => fail_with (reply (waits c)) (set_waited (S (waits c)) t c)
  end.
Definition await {A} (limit : option Duration) (reply : nat → result string A) : AM A := λ c,
  wait_for limit (took (waits c)) reply c.
Definition sleep (limit : option Duration) (d : Duration) : AM unit := wait_for limit d (λ _, Ok tt).
Definition on_ca_disk {A} (m : FM A) : AM (result IoError A) := attempt (zoom ca_disk set_ca_disk m).

Section order.
Variables (dns : CloudflareDns) (settings : AcmeSettings).

(** *** Cloudflare *)

Definition answered (req : CfRequest) (a : option (Z * string)) : AM unit := modify (add_exchange (mkExchange req a)).
(** A request is sent when its first wait begins; cut off, it may have arrived. *)
Definition send (limit : option Duration) (req : CfRequest) (what : string) : AM Value := λ c,
  match (status ← await limit (λ n, context ("Cloudflare: " +:+ what) (cf_status n req));
         body ← await limit (λ n, context ("Cloudflare: " +:+ what +:+ ": reading the answer") (cf_body n req));
         mret (status, body)) c with
  | (Ok (status, body), c') =>
    (_ ← answered req (Some (status, body));
     fail_with (context ("Cloudflare: " +:+ what) (parse_cloudflare status body))) c'
  | (Err e, c') => (_ ← answered req None; throw e) c'
  end.
Definition create_request (name value : string) : CfRequest :=
  Post (records_url dns) (cf_token dns) (json_to_string (txt_record name value)).
Definition remove_request (id : string) : CfRequest := Delete (record_url dns id) (cf_token dns).
Definition set_txt (limit : option Duration) (name value : string) : AM string :=
  result ← send limit (create_request name value) "create the TXT record";
  match record_id result with
  | Some id => mret id
  | None => throw (Failed "Cloudflare: the created record has no id")
  end.
Definition remove_txt (limit : option Duration) (id : string) : AM unit :=
  _ ← send limit (remove_request id) "remove the TXT record"; mret tt.

(** *** The account *)

Definition builder : AM unit :=
  fail_with (match as_ca_file settings with
             | Some root => context ("trust the ACME CA root " +:+ root) (http_client (Some root))
             | None => context "ACME HTTPS client" (http_client None)
             end).
Definition io_context {A} (what : string) (r : result IoError A) : AM A :=
  fail_with (match r with
             | Ok a => Ok a
             | Err NotFound => Err (what +:+ ": not found")
             | Err (Other t) => Err (what +:+ ": " +:+ t)
             end).
Definition account_file : string := as_account_file settings.
Definition READ_ACCOUNT : string := "read the ACME account ".
Definition SAVE_ACCOUNT : string := "save the ACME account ".
Definition read_account (text : bytes) (limit : option Duration) : AM Account :=
  credentials ← fail_with (match from_utf8 text with
                           | None => Err (READ_ACCOUNT +:+ account_file +:+ ": stream did not contain valid UTF-8")
                           | Some text => context (READ_ACCOUNT +:+ account_file) (parse_credentials text)
                           end);
  _ ← builder;
  await limit (λ n, context "restore the ACME account" (restore_account n credentials)).
Definition make_account (limit : option Duration) : AM Account :=
  _ ← builder;
  made ← await limit (λ n, context "create the ACME account"
                             (create_account n (as_contact settings) (as_directory_url settings)));
  text ← fail_with (context "serialize the ACME account" (credentials_text (snd made)));
  saved ← on_ca_disk (write_private account_file (as_bytes text));
  _ ← io_context (SAVE_ACCOUNT +:+ account_file) saved;
  mret (fst made).
Definition account (limit : option Duration) : AM Account :=
  known ← gets cached;
  match known with
  | Some account => mret account
  | None =>
    file ← on_ca_disk (read_file account_file);
    account ← match file with
              | Ok text => read_account text limit
              | Err NotFound => make_account limit
              | Err e => io_context (READ_ACCOUNT +:+ account_file) (Err e)
              end;
    _ ← modify (set_cached (Some account));
    mret account
  end.

(** *** The order *)

Definition push_record (id : string) : AM unit := modify (λ c, set_records (records c ++ [id]) c).
Definition answer_challenge (limit : option Duration) (hostname : string) (challenge : Challenge) : AM unit :=
  id ← set_txt limit (txt_record_name hostname) (dns_value challenge);
  _ ← push_record id;
  _ ← sleep limit (as_propagation settings);
  await limit (λ n, context "ACME challenge ready" (set_ready n challenge)).
Definition authorize (limit : option Duration) (order : Order) (hostname : string) (k : nat) : AM unit :=
  authz ← await limit (λ n, context "ACME authorization" (authorization n order k));
  match auth_status authz with
  | AuthPending =>
    match dns01 authz with
    | Some challenge => answer_challenge limit hostname challenge
    | None => throw (Failed "the CA offers no dns-01 challenge")
    end
  | AuthValid => mret tt
  | AuthOther shown => throw (Failed ("the ACME authorization of " +:+ hostname +:+ " is " +:+ shown))
  end.
Definition complete (limit : option Duration) (order : Order) (hostname : string) (csr : bytes) : AM string :=
  _ ← for_each (seq 0 (authorizations order)) (authorize limit order hostname);
  status ← await limit (λ n, context "ACME order validation" (poll_ready n READY_TIMEOUT order));
  match status with
  | OrderReady =>
    _ ← await limit (λ n, context "ACME finalize" (finalize_csr n order csr));
    await limit (λ n, context "ACME certificate download" (poll_certificate n CERTIFICATE_TIMEOUT order))
  | OrderOther _ =>
    throw (Failed ("the ACME order of " +:+ hostname +:+ " is " +:+ order_status_debug status +:+ " after validation"))
  end.
Definition order_for (limit : option Duration) (hostname : string) (csr : bytes) : AM string :=
  account ← account limit;
  order ← await limit (λ n, context "ACME new order" (new_order n account hostname));
  complete limit order hostname csr.

(** [issue]: the order within its limit, then the background task that removes
    the records. *)
Definition begin_order (c : AcmeCa) : AcmeCa := mkAcmeCa (ca_disk c) (cached c) (waits c) 0 [] (exchanges c).
Definition run_order (hostname : string) (csr : bytes) (c : AcmeCa) : result string string * AcmeCa :=
  match order_for (Some Acme.ORDER_LIMIT) hostname csr (begin_order c) with
  | (Ok chain, c') => (Ok chain, c')
  | (Err (Failed e), c') => (Err e, c')
  | (Err CutOff, c') =>
    (Err ("the ACME order of " +:+ hostname +:+ " took longer than " +:+ z_to_string (as_secs Acme.ORDER_LIMIT) +:+ " s"), c')
  end.
Definition remove_records (l : list string) : AM unit :=
  for_each l (λ id, ignore (remove_txt None id)).
Definition issue (hostname : string) (csr : bytes) (c : AcmeCa) : result string string * AcmeCa :=
  let '(issued, c') := run_order hostname csr c in
  (issued, snd (remove_records (records c') c')).
End order.
End acme.
