(* ===== verification/AcmeTheory.v ===== *)
(** * What an ACME order leaves behind

    The records an order made at Cloudflare are the ones its clean-up removes,
    the order keeps its limit, and a chain comes from the CA's own order. *)

From Stdlib Require Import ZArith Ascii String.
From stdpp Require Import gmap.
From S2P Require Import Prelude RustStd Text Core Sqlite Json DeviceTasks Config Files AcmeOrder.
#[local] Open Scope Z_scope.

Section acme.
Context `{JsonText} `{AcmeWorld}.
Implicit Types c : AcmeCa.

(** ** The records at Cloudflare *)

(** The id of the record an exchange made. *)
Definition made_by (x : Exchange) : option string :=
  match x with
  | mkExchange (Post _ _ _) (Some (status, body)) =>
    match parse_cloudflare status body with Ok v => record_id v | Err _ => None end
  | _ => None
  end.
(** The address of the record an exchange asked to remove. *)
Definition removed_by (x : Exchange) : option string :=
  match x with mkExchange (Delete url _) _ => Some url | _ => None end.
Definition created (xs : list Exchange) : list string := omap made_by xs.
Definition removals (xs : list Exchange) : list string := omap removed_by xs.

Lemma created_app xs ys : created (xs ++ ys) = created xs ++ created ys.
Proof. apply omap_app. Qed.
Lemma removals_app xs ys : removals (xs ++ ys) = removals xs ++ removals ys.
Proof. apply omap_app. Qed.

(** ** Waits *)

(** What a wait keeps: everything but the count and the time, which stay within the limit. *)
Definition waited (limit : option Duration) c c' : Prop :=
  ca_disk c' = ca_disk c ∧ cached c' = cached c ∧ records c' = records c ∧ exchanges c' = exchanges c
  ∧ ∀ l, limit = Some l → elapsed c ≤ l → elapsed c' ≤ l.
#[export] Instance waited_preorder limit : PreOrder (waited limit).
Proof.
  split; [by intros c|]. intros a b d (Ha & Hb & Hc & Hd & He) (Fa & Fb & Fc & Fd & Fe).
  repeat split; try congruence. eauto.
Qed.

Lemma waited_fail_with {A} limit (r : result string A) : respects (waited limit) (fail_with r).
Proof. intros c. by destruct r. Qed.
Lemma waited_wait_for {A} limit d (reply : nat → result string A) : respects (waited limit) (wait_for limit d reply).
Proof.
  intros c. unfold wait_for. destruct limit as [l|].
  - destruct (Z.ltb_spec l (elapsed c + Z.max 0 d)); [repeat split; simpl; intros ? [= <-]; lia|].
    etrans; [|apply waited_fail_with]. repeat split; simpl; intros ? [= <-]; lia.
  - etrans; [|apply waited_fail_with]. by repeat split.
Qed.
Lemma waited_await {A} limit (reply : nat → result string A) : respects (waited limit) (await limit reply).
Proof. intros c. apply waited_wait_for. Qed.

(** The bookkeeping of an order: the records it remembers are those it made
    since the exchanges [old], none is removed yet, the limit is kept. *)
Variable dns : CloudflareDns.
Definition tidy (old : list Exchange) (l : Duration) c : Prop :=
  elapsed c ≤ l
  ∧ ∃ new, exchanges c = old ++ new ∧ created new = records c ∧ removals new = [].
Lemma waited_tidy old l c c' : waited (Some l) c c' → tidy old l c → tidy old l c'.
Proof.
  intros (_ & _ & Hr & Hx & Hl) (He & new & Hn & Hc & Hd). split; [eauto|]. exists new. by rewrite Hx, Hr.
Qed.
Lemma tidy_waited {A} old l (m : AM A) : respects (waited (Some l)) m → respects (keeps (tidy old l)) m.
Proof. apply respects_weaken. intros c c' Hw Hc. by eapply waited_tidy. Qed.
Lemma tidy_await {A} old l (reply : nat → result string A) : respects (keeps (tidy old l)) (await (Some l) reply).
Proof. apply tidy_waited, waited_await. Qed.
Lemma tidy_fail_with {A} old l (r : result string A) : respects (keeps (tidy old l)) (fail_with r).
Proof. apply tidy_waited, waited_fail_with. Qed.
Lemma tidy_on_ca_disk {A} old l (m : FM A) : respects (keeps (tidy old l)) (on_ca_disk m).
Proof.
  intros c Hc. unfold on_ca_disk, attempt, zoom. by destruct (m (ca_disk c)).
Qed.
Hint Resolve tidy_await tidy_fail_with tidy_on_ca_disk : respects.

Lemma bind_run {A B} (m : AM A) (f : A → AM B) c :
  (m ≫= f) c = match m c with (Ok a, c') => f a c' | (Err e, c') => (Err e, c') end.
Proof. reflexivity. Qed.

(** An exchange is logged once, with the answer that [send] gives. *)
Lemma send_exchange limit req what c :
  let '(r, c') := send limit req what c in
  records c' = records c ∧ (∀ l, limit = Some l → elapsed c ≤ l → elapsed c' ≤ l)
  ∧ ∃ answer, exchanges c' = exchanges c ++ [mkExchange req answer]
    ∧ match r with
      | Ok v => ∃ status body, answer = Some (status, body) ∧ parse_cloudflare status body = Ok v
      | Err _ => ∀ status body v, answer = Some (status, body) → parse_cloudflare status body ≠ Ok v
      end.
Proof.
  unfold send.
  set (m := (status ← await limit _; body ← await limit _; mret (status, body)) : AM (Z * string)).
  assert (waited limit c (snd (m c))) as (_ & _ & Hr & Hx & Hl).
  { apply (respects_bind (waited limit)); [apply waited_await|]. intros status.
    apply (respects_bind (waited limit)); [apply waited_await|]. intros body. apply respects_ret, _. }
  destruct (m c) as [[[status body]|e] c1]; simpl in *; rewrite ?Hr, ?Hx.
  - destruct (parse_cloudflare status body) as [v|e] eqn:Hp; simpl; rewrite ?Hr, ?Hx.
    + repeat split; [done|]. exists (Some (status, body)). eauto.
    + repeat split; [done|]. exists (Some (status, body)). split; [done|]. intros s' b' v' [= <- <-]. by rewrite Hp.
  - repeat split; [done|]. by exists None.
Qed.

Lemma set_txt_exchange limit name value c :
  let '(r, c') := set_txt dns limit name value c in
  records c' = records c ∧ (∀ l, limit = Some l → elapsed c ≤ l → elapsed c' ≤ l)
  ∧ ∃ x, exchanges c' = exchanges c ++ [x] ∧ removed_by x = None
    ∧ made_by x = match r with Ok id => Some id | Err _ => None end.
Proof.
  unfold set_txt, mbind, M_bind.
  pose proof (send_exchange limit (create_request dns name value) "create the TXT record" c) as Hs.
  destruct (send _ _ _ c) as [[v|e] c1]; destruct Hs as (Hr & Hl & a & Hx & Ha).
  - destruct Ha as (status & body & -> & Hp).
    destruct (record_id v) as [id|] eqn:Hid; simpl; (do 2 (split; [done|])); eexists;
      (split; [exact Hx|]); simpl; by rewrite Hp, Hid.
  - do 2 (split; [done|]). eexists. split; [exact Hx|]. split; [done|]. simpl.
    destruct a as [[status body]|]; [|done].
    destruct (parse_cloudflare status body) as [v|] eqn:Hp; [by destruct (Ha status body v)|done].
Qed.

Lemma tidy_answer_challenge old l settings hostname challenge :
  respects (keeps (tidy old l)) (answer_challenge dns settings (Some l) hostname challenge).
Proof.
  assert (respects (keeps (tidy old l))
            (_ ← sleep (Some l) (as_propagation settings);
             await (Some l) (λ n, context "ACME challenge ready" (set_ready n challenge)))) as Hrest.
  { apply (respects_bind (keeps (tidy old l))); [by apply tidy_waited, waited_wait_for|]. intros []. apply tidy_await. }
  intros c (He & new & Hn & Hc & Hd). unfold answer_challenge.
  pose proof (set_txt_exchange (Some l) (txt_record_name hostname) (dns_value challenge) c) as Hs.
  rewrite bind_run. destruct (set_txt _ _ _ _ c) as [[id|e] c1]; destruct Hs as (Hr & Hl & x & Hx & Hno & Hm);
    rewrite Hn, <- app_assoc in Hx.
  - rewrite bind_run. apply Hrest. split; [by apply Hl|]. eexists. split; [exact Hx|].
    rewrite created_app, removals_app, Hc, Hd. simpl. rewrite Hm, Hno, Hr. split; reflexivity.
  - split; [by apply Hl|]. eexists. split; [exact Hx|].
    rewrite created_app, removals_app, Hc, Hd. simpl. rewrite Hm, Hno, app_nil_r, Hr. split; reflexivity.
Qed.
Hint Resolve tidy_answer_challenge : respects.

Lemma tidy_order_for old l settings hostname csr :
  respects (keeps (tidy old l)) (order_for dns settings (Some l) hostname csr).
Proof.
  assert (∀ a, respects (keeps (tidy old l)) (modify (set_cached a) : AM unit)) as Hset by (intros a c Hc; exact Hc).
  unfold order_for, account, read_account, make_account, builder, io_context, complete, authorize. solve_respects.
Qed.

(** ** The clean-up *)

Lemma remove_txt_removes id c :
  ∃ a, exchanges (snd (remove_txt dns None id c)) = exchanges c ++ [mkExchange (remove_request dns id) a].
Proof.
  unfold remove_txt, mbind, M_bind.
  pose proof (send_exchange None (remove_request dns id) "remove the TXT record" c) as Hs.
  destruct (send _ _ _ c) as [[v|e] c1]; destruct Hs as (_ & _ & a & Hx & _); by exists a.
Qed.
Lemma remove_records_removes l c :
  ∃ new, exchanges (snd (remove_records dns l c)) = exchanges c ++ new
    ∧ created new = [] ∧ removals new = map (record_url dns) l.
Proof.
  revert c. induction l as [|id l IH]; intros c; [exists []; by rewrite app_nil_r|].
  unfold remove_records. simpl. unfold mbind, M_bind, ignore at 1. simpl.
  destruct (IH (snd (remove_txt dns None id c))) as (new & Hx & Hc & Hr).
  destruct (remove_txt_removes id c) as [a Ha]. unfold remove_records in Hx. rewrite Hx, Ha, <- app_assoc.
  eexists. split; [done|]. simpl. by rewrite Hc, Hr.
Qed.

Lemma run_order_tidy settings hostname csr c :
  tidy (exchanges c) Acme.ORDER_LIMIT (snd (run_order dns settings hostname csr c)).
Proof.
  assert (tidy (exchanges c) Acme.ORDER_LIMIT (begin_order c)) as Hb.
  { split; [done|]. exists []. by rewrite app_nil_r. }
  apply (tidy_order_for _ _ settings hostname csr) in Hb. unfold run_order.
  by destruct (order_for _ _ _ _ _ _) as [[chain|[e|]] c'].
Qed.

(** ** Where a chain comes from *)

Lemma await_ok {A} limit (reply : nat → result string A) c a c' :
  await limit reply c = (Ok a, c') → reply (waits c) = Ok a.
Proof.
  unfold await, wait_for. destruct limit as [l|].
  - destruct (l <? _); [done|]. destruct (reply (waits c)); simpl; by intros [= -> _].
  - destruct (reply (waits c)); simpl; by intros [= -> _].
Qed.
Lemma context_ok {A} what (r : result string A) a : context what r = Ok a → r = Ok a.
Proof. destruct r; simpl; congruence. Qed.
Lemma await_context_ok {A} limit what (reply : nat → result string A) c a c' :
  await limit (λ n, context what (reply n)) c = (Ok a, c') → reply (waits c) = Ok a.
Proof. intros Ha. apply await_ok in Ha. by apply context_ok in Ha. Qed.

(** The CA's own order of the name, validated and finalized with this CSR. *)
Definition issued_by_ca (hostname : string) (csr : bytes) (chain : string) : Prop :=
  ∃ account order n1 n2 n3 n4,
    new_order n1 account hostname = Ok order ∧ poll_ready n2 READY_TIMEOUT order = Ok OrderReady
    ∧ finalize_csr n3 order csr = Ok tt ∧ poll_certificate n4 CERTIFICATE_TIMEOUT order = Ok chain.
Lemma order_for_issued settings limit hostname csr c chain c' :
  order_for dns settings limit hostname csr c = (Ok chain, c') → issued_by_ca hostname csr chain.
Proof.
  unfold order_for. intros (account & c1 & _ & (order & c2 & Ho & Hc)%bind_ok)%bind_ok.
  apply await_context_ok in Ho. unfold complete in Hc.
  apply bind_ok in Hc as (u & c3 & _ & (status & c4 & Hs & Hc)%bind_ok). apply await_context_ok in Hs.
  destruct status; [|done]. apply bind_ok in Hc as ([] & c5 & Hf & Hp).
  apply await_context_ok in Hf, Hp. unfold issued_by_ca. eauto 12.
Qed.

(** ** An account file cut short

    The account is written in place: a crash in the middle of the first save
    leaves a file that no order can read, and no order replaces it. *)

Lemma crash_leaves_a_torn_account settings text d :
  down d = false → accidents d = [Fine; Fine; Stops false (Some [])] →
  down (snd (write_private (account_file settings) text d)) = true
  ∧ ∃ f, files (snd (write_private (account_file settings) text d)) !! account_file settings = Some f ∧ content f = [].
Proof.
  intros Hd Ha. unfold write_private, create_file, restrict, write_durable.
  repeat (unfold mbind, M_bind; unfold io, next_accident; simpl; rewrite ?Hd, ?Ha; simpl).
  unfold put_content. rewrite lookup_insert, decide_True by done. simpl.
  split; [done|]. unfold put_content. rewrite lookup_insert, decide_True by done. eauto.
Qed.
Lemma torn_account_blocks_every_order settings limit hostname csr c f text e :
  cached c = None → sound (ca_disk c) → files (ca_disk c) !! account_file settings = Some f →
  from_utf8 (content f) = Some text → parse_credentials text = Err e →
  ∃ e' c', order_for dns settings limit hostname csr c = (Err (Failed e'), c')
    ∧ cached c' = None ∧ files (ca_disk c') = files (ca_disk c).
Proof.
  intros Hc Hs Hf Ht Hp. unfold order_for, account. rewrite bind_run, bind_run. simpl. rewrite Hc, bind_run.
  unfold on_ca_disk, attempt, zoom, read_file, io, next_accident. destruct Hs as [-> ->]. cbn [fst snd]. rewrite Hf. unfold read_account. rewrite bind_run. rewrite Ht, Hp. simpl. eauto.
Qed.
End acme.
