(* ===== verification/ServerCert.v ===== *)
(** * The stores' certificates at pz-server

    [src/crates/devbridge-server/src/cert/mod.rs] and the [RequestCertificate]
    RPC of [dispatch.rs]: who may ask for what, one order per name at a time and
    one certificate per interval, and the task of an order, which outlives the
    request.  [CertServer] runs any number of requests and orders beside the
    rest of the service: an order is given its length and its end when it
    starts, time passes between the steps.  Reading a CSR is [x509_parser]
    ([Csr]).  Instants and durations are nanoseconds. *)

From Stdlib Require Import ZArith Ascii String.
From stdpp Require Import gmap.
From S2P Require Import Prelude RustStd Text Core Sqlite Storage Queue Dispatch DispatchTheory.
From S2P Require Import Json DeviceTasks Config Files LanCert AcmeOrder.
#[local] Open Scope Z_scope.

Definition MIN_REISSUE_INTERVAL : Duration := from_secs 3600.
Definition ANSWER_TIMEOUT : Duration := from_secs 270.
Definition ORDER_LIMIT : Duration := from_secs 660.

Definition CODE_ACME_DISABLED : string := "acme_disabled".
Definition CODE_NOT_APPROVED : string := "not_approved".
Definition CODE_BAD_NAME : string := "bad_name".
Definition CODE_BAD_CSR : string := "bad_csr".
Definition CODE_BUSY : string := "busy".
Definition CODE_RATE_LIMITED : string := "rate_limited".
Definition CODE_ACME_FAILED : string := "acme_failed".

(** ** Who asks *)

Record Caller := mkCaller { approved : bool; on_its_stream : bool }.
Definition same_peer (stream request : option string) : bool :=
  match stream, request with Some s, Some r => s =t? r | _, _ => false end.

Definition refusal (code text : string) : CertificateReply :=
  {| rp_ok := false; rp_chain_pem := ""; rp_error_code := code; rp_error := text |}.
Definition disabled_reply : CertificateReply :=
  refusal CODE_ACME_DISABLED
    "this pz-server issues no LAN API certificates ([server.acme] is not enabled)".

(** ** The CSR *)

Inductive CsrExtension :=
| SubjectAlternativeName (general_names : list GeneralName)
| OtherExtension.
Class Csr : Type := { parse_csr : bytes → result string (list CsrExtension) }.

Fixpoint collect_names (l : list GeneralName) : result string (list string) :=
  match l with
  | [] => Ok []
  | DNSName dns :: l' => match collect_names l' with Ok names => Ok (dns :: names) | Err e => Err e end
  | OtherName shown :: _ => Err ("the CSR asks for a non-DNS name (" +:+ shown +:+ ")")
  end.
Definition names_of_extension (x : CsrExtension) : list GeneralName :=
  match x with SubjectAlternativeName names => names | OtherExtension => [] end.
Section csr.
Context `{Csr}.
Definition csr_dns_names (csr_der : bytes) : result string (list string) :=
  match parse_csr csr_der with
  | Err e => Err ("unreadable CSR (" +:+ e +:+ ")")
  | Ok extensions => collect_names (flat_map names_of_extension extensions)
  end.
End csr.

(** ** The slots of the names *)

Inductive Slot :=
| Busy
| Issued (at_ : Instant).
#[export] Instance Slot_eq_dec : EqDecision Slot.
Proof. solve_decision. Defined.
Definition slot_free (slot : option Slot) (now : Instant) (min_interval : Duration) : result string unit :=
  match slot with
  | None => Ok tt
  | Some Busy => Err CODE_BUSY
  | Some (Issued at_) =>
    if saturating_duration_since now at_ <? min_interval then Err CODE_RATE_LIMITED else Ok tt
  end.
(** [SlotGuard]'s drop *)
Definition settle (name : string) (issued : bool) (now : Instant) (slots : gmap string Slot) : gmap string Slot :=
  if issued then <[name := Issued now]> slots else delete name slots.

(** ** The issuer *)

Record CertificateIssuer := mkIssuer {
  ci_zone : string;
  min_interval : Duration;
  answer_timeout : Duration;
  order_limit : Duration;
}.
Definition CertificateIssuer_new (zone : string) : CertificateIssuer :=
  {| ci_zone := zone; min_interval := MIN_REISSUE_INTERVAL; answer_timeout := ANSWER_TIMEOUT;
     order_limit := ORDER_LIMIT |}.

(** How an order's task ends. *)
Inductive OrderEnd :=
| Returned (issued : result string string)
| Panicked (e : string).
Record RunningOrder := mkOrder {
  ro_name : string;
  ro_client : string;
  ro_csr : bytes;
  ro_started : Instant;
  ro_after : Duration;          (* what the CA takes *)
  ro_end : OrderEnd;
}.

Section issuer.
Context `{Csr} `{DebugText}.
Variable issuer : CertificateIssuer.

(** [to_ascii_lowercase] changes ASCII letters only, byte by byte. *)
Definition name_for (client_id : string) : option string :=
  let label := ascii_lowercase client_id in
  if valid_dns_label (bytes_of label) then Some (label +:+ "." +:+ ci_zone issuer) else None.

(** The checks before the slot: the caller's own name, or the refusal. *)
Definition check_request (request : CertificateRequest) (caller : Caller) : result CertificateReply string :=
  let client_id := cr_client_id request in
  let hostname := cr_hostname request in
  let who := "client '" +:+ client_id +:+ "'" in
  if negb (approved caller) then
    Err (refusal CODE_NOT_APPROVED (who +:+ " is not approved on this pz-server"))
  else if negb (on_its_stream caller) then
    Err (refusal CODE_NOT_CONNECTED
           (who +:+ " has no job stream from this address - a certificate is issued only to the connected client"))
  else
    match (own ← name_for client_id; if own =t? hostname then Some own else None) with
    | None =>
      Err (refusal CODE_BAD_NAME
             (who +:+ " may get only '<client_id>." +:+ ci_zone issuer +:+ "', not '" +:+ hostname +:+ "'"))
    | Some own_name =>
      match csr_dns_names (cr_csr_der request) with
      | Err e => Err (refusal CODE_BAD_CSR e)
      | Ok names =>
        if bool_decide (names = [own_name]) then Ok own_name
        else Err (refusal CODE_BAD_CSR
                    ("the CSR must name exactly " +:+ own_name +:+ " (it names " +:+ debug_names names +:+ ")"))
      end
    end.
(** Under the lock of the slots. *)
Definition take_slot (own_name : string) (now : Instant) (slots : gmap string Slot)
    : result CertificateReply (gmap string Slot) :=
  match slot_free (slots !! own_name) now (min_interval issuer) with
  | Err code =>
    Err (refusal code ("a certificate for " +:+ own_name +:+ " is being issued or was issued less than "
                         +:+ z_to_string (as_secs (min_interval issuer)) +:+ " s ago"))
  | Ok _ => Ok (<[own_name := Busy]> slots)
  end.

(** The order's task: when it ends, after its start, and how. *)
Definition order_took (o : RunningOrder) : Duration := Z.min (Z.max 0 (ro_after o)) (order_limit issuer).
Definition order_result (o : RunningOrder) : OrderEnd :=
  if order_limit issuer <? ro_after o
  then Returned (Err ("the certificate order took longer than " +:+ z_to_string (as_secs (order_limit issuer)) +:+ " s"))
  else ro_end o.
Definition order_issued (o : RunningOrder) : bool :=
  match order_result o with Returned r => is_ok r | Panicked _ => false end.
Definition ends_at (o : RunningOrder) : Instant := ro_started o + order_took o.

(** What the request is told: the order's end, unless its own wait ends first. *)
Definition answer_order (request : CertificateRequest) (o : RunningOrder) : CertificateReply :=
  if answer_timeout issuer <? order_took o then
    refusal CODE_BUSY
      ("the certificate order for " +:+ cr_hostname request +:+ " is still running after "
         +:+ z_to_string (as_secs (answer_timeout issuer)) +:+ " s - ask again later")
  else
    match order_result o with
    | Returned (Ok chain) => {| rp_ok := true; rp_chain_pem := chain; rp_error_code := ""; rp_error := "" |}
    | Returned (Err e) => refusal CODE_ACME_FAILED e
    | Panicked e => refusal CODE_ACME_FAILED ("the certificate order failed: " +:+ e)
    end.
Definition new_order_of (request : CertificateRequest) (own_name : string) (now : Instant)
    (ca : Duration * OrderEnd) : RunningOrder :=
  {| ro_name := own_name; ro_client := cr_client_id request; ro_csr := cr_csr_der request;
     ro_started := now; ro_after := fst ca; ro_end := snd ca |}.
(** [answer]: the reply, and the order it started with the slots. *)
Definition answer (request : CertificateRequest) (caller : Caller) (now : Instant) (ca : Duration * OrderEnd)
    (slots : gmap string Slot) : CertificateReply * option RunningOrder * gmap string Slot :=
  match check_request request caller with
  | Err reply => (reply, None, slots)
  | Ok own_name =>
    match take_slot own_name now slots with
    | Err reply => (reply, None, slots)
    | Ok slots' =>
      let o := new_order_of request own_name now ca in
      (answer_order request o, Some o, slots')
    end
  end.
End issuer.

(** ** The issuer of a configuration ([issuer_from_config], [runtime.rs]) *)

(** [http] is the building of the HTTP client. *)
Definition issuer_from_config (cfg : AcmeServerConfig) (data_dir : string) (env_token : option string)
    (http : result string unit) : result string (option (CertificateIssuer * CloudflareDns * AcmeSettings)) :=
  if negb (acme_enabled cfg) then Ok None
  else
    let token := api_token cfg env_token in
    match acme_problems cfg token with
    | [] =>
      match context "Cloudflare client" (context "HTTP client" http) with
      | Err e => Err e
      | Ok _ =>
        Ok (Some (CertificateIssuer_new (zone cfg),
                  CloudflareDns_new (api_base (cloudflare cfg)) (zone_id (cloudflare cfg)) token,
                  AcmeSettings_from_config cfg data_dir))
      end
    | problems => Err ("[server.acme] is enabled but invalid: " +:+ String.concat "; " problems)
    end.
(** [with_lan_api_certificates]: an invalid section disables the certificates only. *)
Definition with_lan_api_certificates (cfg : AcmeServerConfig) (data_dir : string) (env_token : option string)
    (http : result string unit) : option CertificateIssuer :=
  match issuer_from_config cfg data_dir env_token http with
  | Ok (Some (issuer, _, _)) => Some issuer
  | Ok None | Err _ => None
  end.

(** ** The RPC and the running server *)

Section server.
Context `{EventJson} `{Csr} `{DebugText}.

Definition approved_client (r : result string (option ClientRegistration)) : bool :=
  match r with Ok (Some client) => bool_decide (pairing_state client = Approved) | _ => false end.
(** Who the service takes the caller for. *)
Definition caller_of (peer : option string) (client_id : string) (s : Service) : Caller * Service :=
  let stream_peer := StreamPeers.peer_of client_id (stream_peers s) in
  let '(client, s') := zoom queue Dispatch.set_queue (Queue.get_client client_id) s in
  ({| approved := approved_client client; on_its_stream := same_peer stream_peer peer |}, s').

(** The request of an order, as the service saw it (no part of the program). *)
Record Asked := mkAsked { as_service : Service; as_peer : option string; as_request : CertificateRequest }.

Record CertServer := mkCertServer {
  cs_service : Service;
  cs_slots : gmap string Slot;
  cs_running : list RunningOrder;
  cs_now : Instant;
  cs_asked : list (Asked * RunningOrder);     (* every order started *)
  cs_issued : list (string * Instant);        (* every certificate issued, in order *)
}.

Definition request_certificate (certificates : option CertificateIssuer) (peer : option string)
    (request : CertificateRequest) (ca : Duration * OrderEnd) (s : CertServer) : CertificateReply * CertServer :=
  match certificates with
  | None => (disabled_reply, s)
  | Some issuer =>
    let '(caller, service) := caller_of peer (cr_client_id request) (cs_service s) in
    match answer issuer request caller (cs_now s) ca (cs_slots s) with
    | (reply, None, slots) =>
      (reply, mkCertServer service slots (cs_running s) (cs_now s) (cs_asked s) (cs_issued s))
    | (reply, Some o, slots) =>
      (reply, mkCertServer service slots (cs_running s ++ [o]) (cs_now s)
                (cs_asked s ++ [(mkAsked (cs_service s) peer request, o)]) (cs_issued s))
    end
  end.
(** The [n]th running order ends. *)
Definition end_order (issuer : CertificateIssuer) (n : nat) (s : CertServer) : CertServer :=
  match cs_running s !! n with
  | None => s
  | Some o =>
    mkCertServer (cs_service s) (settle (ro_name o) (order_issued issuer o) (cs_now s) (cs_slots s))
      (take n (cs_running s) ++ drop (S n) (cs_running s)) (cs_now s) (cs_asked s)
      (if order_issued issuer o then cs_issued s ++ [(ro_name o, cs_now s)] else cs_issued s)
  end.
Definition at_time (t : Instant) (s : CertServer) : CertServer :=
  mkCertServer (cs_service s) (cs_slots s) (cs_running s) t (cs_asked s) (cs_issued s).
Definition with_service (service : Service) (s : CertServer) : CertServer :=
  mkCertServer service (cs_slots s) (cs_running s) (cs_now s) (cs_asked s) (cs_issued s).

Inductive cert_step (issuer : CertificateIssuer) : CertServer → CertServer → Prop :=
| CS_service service s : server_step (cs_service s) service → cert_step issuer s (with_service service s)
| CS_request peer request ca s :
    cert_step issuer s (snd (request_certificate (Some issuer) peer request ca s))
| CS_time t s :
    cs_now s ≤ t → (∀ o, In o (cs_running s) → t ≤ ends_at issuer o) → cert_step issuer s (at_time t s)
| CS_end n o s :
    cs_running s !! n = Some o → ends_at issuer o = cs_now s → cert_step issuer s (end_order issuer n s).
(** The start of the program: no order, no slot. *)
Definition cert_start (service : Service) (now : Instant) : CertServer := mkCertServer service ∅ [] now [] [].
End server.
