(* ===== verification/ServerCertTheory.v ===== *)
(** * The certificate orders of a running pz-server

    What every request, every end of an order and the passing of time keep: one
    order per name, the slots in step with the orders, certificates of a name
    apart by the interval, and an order only for a caller entitled to it. *)

From Stdlib Require Import ZArith Ascii String Sorting.Sorted.
From stdpp Require Import gmap.
From S2P Require Import Prelude RustStd Text Core Sqlite Storage Queue Dispatch DispatchTheory.
From S2P Require Import Json DeviceTasks Config Files LanCert AcmeOrder ServerCert.
#[local] Open Scope Z_scope.

Section theory.
Context `{EventJson} `{Csr} `{DebugText}.
Context (issuer : CertificateIssuer) (limit_is_a_duration : 0 ≤ order_limit issuer)
  (interval_is_a_duration : 0 ≤ min_interval issuer).
Implicit Types (s : CertServer) (o : RunningOrder).

(** ** One request *)

(** Who may have an order: an approved client, asking from the address of its
    own job stream for its own name, with a CSR that names just that. *)
Definition entitled (a : Asked) o : Prop :=
  let q := as_request a in
  (∃ client, fst (Queue.get_client (cr_client_id q) (queue (as_service a))) = Ok (Some client)
             ∧ pairing_state client = Approved)
  ∧ (∃ ip, StreamPeers.peer_of (cr_client_id q) (stream_peers (as_service a)) = Some ip ∧ as_peer a = Some ip)
  ∧ valid_dns_label (bytes_of (ascii_lowercase (cr_client_id q))) = true
  ∧ ro_name o = ascii_lowercase (cr_client_id q) +:+ "." +:+ ci_zone issuer
  ∧ cr_hostname q = ro_name o
  ∧ csr_dns_names (cr_csr_der q) = Ok [ro_name o] ∧ ro_csr o = cr_csr_der q ∧ ro_client o = cr_client_id q.

Lemma same_peer_spec a b : same_peer a b = true ↔ ∃ ip, a = Some ip ∧ b = Some ip.
Proof.
  destruct a as [x|], b as [y|]; simpl; try (split; [done|by intros (? & ? & ?)]).
  split; [|by intros (ip & [= ->] & [= ->]); apply String.eqb_refl]. intros <-%String.eqb_eq. eauto.
Qed.
Lemma approved_client_spec r : approved_client r = true → ∃ c, r = Ok (Some c) ∧ pairing_state c = Approved.
Proof. destruct r as [[c|]|e]; simpl; [|done|done]. intros Hc%bool_decide_eq_true. eauto. Qed.

Lemma check_request_ok q caller own :
  check_request issuer q caller = Ok own →
  approved caller = true ∧ on_its_stream caller = true
  ∧ valid_dns_label (bytes_of (ascii_lowercase (cr_client_id q))) = true
  ∧ own = ascii_lowercase (cr_client_id q) +:+ "." +:+ ci_zone issuer ∧ cr_hostname q = own
  ∧ csr_dns_names (cr_csr_der q) = Ok [own].
Proof.
  unfold check_request, name_for. destruct (approved caller), (on_its_stream caller); simpl; try done.
  destruct (valid_dns_label _); simpl; [|done].
  destruct (String.eqb_spec (ascii_lowercase (cr_client_id q) +:+ "." +:+ ci_zone issuer) (cr_hostname q)) as [Ho|]; [|done].
  destruct (csr_dns_names (cr_csr_der q)) as [names|]; [|done]. case_bool_decide; [|done].
  intros [= <-]. subst names. repeat split; try done; try reflexivity.
Qed.
Lemma check_request_refused q caller reply :
  check_request issuer q caller = Err reply → rp_ok reply = false ∧ rp_chain_pem reply = "".
Proof.
  unfold check_request. destruct (approved caller), (on_its_stream caller); simpl; try (by intros [= <-]).
  destruct (own ← name_for issuer (cr_client_id q); _) as [own|]; [|by intros [= <-]].
  destruct (csr_dns_names (cr_csr_der q)) as [names|]; [|by intros [= <-]].
  case_bool_decide; [done|]. by intros [= <-].
Qed.

(** A slot taken: no order of the name runs, and the last certificate is old enough. *)
Lemma take_slot_ok own now slots slots' :
  take_slot issuer own now slots = Ok slots' →
  slots' = <[own := Busy]> slots
  ∧ match slots !! own with
    | None => True
    | Some Busy => False
    | Some (Issued t) => min_interval issuer ≤ Z.max 0 (now - t)
    end.
Proof.
  unfold take_slot, slot_free, saturating_duration_since.
  destruct (slots !! own) as [[|t]|]; [done| |by intros [= <-]].
  destruct (Z.ltb_spec (Z.max 0 (now - t)) (min_interval issuer)); [done|]. intros [= <-]. split; [done|lia].
Qed.
Lemma take_slot_refused own now slots reply :
  take_slot issuer own now slots = Err reply → rp_ok reply = false ∧ rp_chain_pem reply = "".
Proof. unfold take_slot. destruct (slot_free _ _ _); [done|]. by intros [= <-]. Qed.

(** What a request does to the server: nothing but a read of the client, or one
    more order, for a caller entitled to it. *)
Inductive asked_for peer q s : CertificateReply → CertServer → Prop :=
| AF_refused reply service :
    rp_ok reply = false → rp_chain_pem reply = "" →
    asked_for peer q s reply (with_service service s)
| AF_order o service :
    entitled (mkAsked (cs_service s) peer q) o → ro_started o = cs_now s →
    match cs_slots s !! ro_name o with
    | None => True
    | Some Busy => False
    | Some (Issued t) => min_interval issuer ≤ Z.max 0 (cs_now s - t)
    end →
    asked_for peer q s (answer_order issuer q o)
      (mkCertServer service (<[ro_name o := Busy]> (cs_slots s)) (cs_running s ++ [o]) (cs_now s)
         (cs_asked s ++ [(mkAsked (cs_service s) peer q, o)]) (cs_issued s)).
Lemma request_certificate_spec peer q ca s :
  asked_for peer q s (fst (request_certificate (Some issuer) peer q ca s))
    (snd (request_certificate (Some issuer) peer q ca s)).
Proof.
  unfold request_certificate, caller_of, zoom.
  destruct (Queue.get_client (cr_client_id q) (queue (cs_service s))) as [client service] eqn:Hclient.
  unfold answer. destruct (check_request issuer q _) as [own|reply] eqn:Hcheck.
  - destruct (take_slot issuer own (cs_now s) (cs_slots s)) as [slots|reply] eqn:Hslot; simpl.
    + apply check_request_ok in Hcheck as (Happ & Hstr & Hlab & -> & Hhost & Hcsr).
      apply take_slot_ok in Hslot as [-> Hfree]. simpl in Happ, Hstr.
      apply approved_client_spec in Happ as (row & -> & Hrow). apply same_peer_spec in Hstr as (ip & Hs & Hp).
      apply (AF_order peer q s (new_order_of q _ (cs_now s) ca)); [|done|done].
      unfold entitled. simpl. rewrite Hclient. simpl. split; [by exists row|]. split; [by exists ip|]. done.
    + apply take_slot_refused in Hslot as [Hok Hchain]. by apply (AF_refused peer q s).
  - apply check_request_refused in Hcheck as [Hok Hchain]. by apply (AF_refused peer q s).
Qed.

(** ** The invariant *)

Definition apart (a b : string * Instant) : Prop := a.1 = b.1 → a.2 + min_interval issuer ≤ b.2.
Record cert_inv s : Prop := {
  inv_names : NoDup (map ro_name (cs_running s));
  inv_busy : ∀ name, cs_slots s !! name = Some Busy ↔ In name (map ro_name (cs_running s));
  inv_past : ∀ name t, cs_slots s !! name = Some (Issued t) → t ≤ cs_now s;
  inv_last : ∀ name t, In (name, t) (cs_issued s) →
    match cs_slots s !! name with
    | Some (Issued t') => t ≤ t'
    | _ => t + min_interval issuer ≤ cs_now s
    end;
  inv_apart : StronglySorted apart (cs_issued s);
  inv_time : ∀ o, In o (cs_running s) → ro_started o ≤ cs_now s ≤ ends_at issuer o;
  inv_asked : ∀ o, In o (cs_running s) → ∃ a, In (a, o) (cs_asked s);
  inv_entitled : ∀ a o, In (a, o) (cs_asked s) → entitled a o;
  inv_source : ∀ name t, In (name, t) (cs_issued s) → ∃ a o chain, In (a, o) (cs_asked s) ∧ ro_name o = name
    ∧ order_result issuer o = Returned (Ok chain) ∧ t = ends_at issuer o;
}.

Lemma order_ends_later o : ro_started o ≤ ends_at issuer o ≤ ro_started o + order_limit issuer.
Proof. unfold ends_at, order_took. lia. Qed.

Lemma start_inv service now : cert_inv (cert_start service now).
Proof. by split; simpl; try constructor; intros. Qed.

Lemma request_inv peer q s reply s' : asked_for peer q s reply s' → cert_inv s → cert_inv s'.
Proof.
  intros [reply' service Hok Hchain|o service He Hst Hfree] I; [by destruct I|].
  assert (∀ t, In (ro_name o, t) (cs_issued s) → t + min_interval issuer ≤ cs_now s) as Hlast.
  { intros t Ht. apply (inv_last s I) in Ht.
    destruct (cs_slots s !! ro_name o) as [[|t']|] eqn:Hs; [done| |done].
    pose proof (inv_past s I _ _ Hs). lia. }
  split; simpl.
  - rewrite map_app. apply NoDup_app. split; [apply (inv_names s I)|]. split; [|by apply NoDup_singleton].
    intros name Hn Hin. apply list_elem_of_singleton in Hin as ->.
    apply list_elem_of_In, (inv_busy s I) in Hn. by rewrite Hn in Hfree.
  - intros name. rewrite map_app, in_app_iff, <- (inv_busy s I), lookup_insert. simpl.
    case_decide; [subst; tauto|]. split; [tauto|]. by intros [?|[?|[]]].
  - intros name t. rewrite lookup_insert. case_decide; [done|]. apply (inv_past s I).
  - intros name t Ht. rewrite lookup_insert. case_decide; [subst; by apply Hlast|]. by apply (inv_last s I).
  - apply (inv_apart s I).
  - intros o' [Ho'|[<-|[]]]%in_app_iff; [by apply (inv_time s I)|].
    pose proof (order_ends_later o). lia.
  - intros o' [Ho'|[<-|[]]]%in_app_iff.
    + destruct (inv_asked s I o' Ho') as [a Ha]. exists a. apply in_app_iff. by left.
    + eexists. apply in_app_iff. right. by left.
  - intros a o' [Ha|[[= <- <-]|[]]]%in_app_iff; [by apply (inv_entitled s I)|done].
  - intros name t Ht. destruct (inv_source s I name t Ht) as (a & o' & chain & Ha & Hr).
    exists a, o', chain. split; [|done]. apply in_app_iff. by left.
Qed.

Lemma time_inv t s :
  cs_now s ≤ t → (∀ o, In o (cs_running s) → t ≤ ends_at issuer o) → cert_inv s → cert_inv (at_time t s).
Proof.
  intros Hle Hends I. split; simpl; try apply I.
  - intros name t' Ht. pose proof (inv_past s I _ _ Ht). lia.
  - intros name t' Ht. pose proof (inv_last s I _ _ Ht) as Hl.
    destruct (cs_slots s !! name) as [[|t0]|]; [lia|done|lia].
  - intros o Ho. pose proof (inv_time s I o Ho). pose proof (Hends o Ho). lia.
Qed.

(** The running orders without the [n]th. *)
Lemma without_nth n o s :
  cs_running s !! n = Some o → cert_inv s →
  cs_running s ≡ₚ o :: (take n (cs_running s) ++ drop (S n) (cs_running s))
  ∧ ¬ In (ro_name o) (map ro_name (take n (cs_running s) ++ drop (S n) (cs_running s))).
Proof.
  intros Hn I. assert (cs_running s ≡ₚ o :: (take n (cs_running s) ++ drop (S n) (cs_running s))) as Hp.
  { rewrite <- (take_drop_middle _ _ _ Hn) at 1. by rewrite Permutation_middle. }
  split; [done|]. pose proof (inv_names s I) as Hnd. rewrite Hp in Hnd. simpl in Hnd.
  apply NoDup_cons in Hnd as [Hnin _]. by rewrite <- list_elem_of_In.
Qed.

Lemma settle_lookup name issued now slots name' :
  settle name issued now slots !! name' =
    if decide (name = name') then (if issued then Some (Issued now) else None) else slots !! name'.
Proof.
  unfold settle. destruct issued; [by rewrite lookup_insert|]. by rewrite lookup_delete.
Qed.

Lemma sorted_snoc {A} (R : A → A → Prop) l x :
  StronglySorted R l → Forall (λ y, R y x) l → StronglySorted R (l ++ [x]).
Proof.
  induction 1 as [|y l Hs IH Hf]; intros Hx; simpl; [by repeat constructor|].
  inversion Hx; subst. constructor; [by apply IH|]. apply Forall_app. split; [done|by constructor].
Qed.

Lemma end_inv n o s :
  cs_running s !! n = Some o → ends_at issuer o = cs_now s → cert_inv s → cert_inv (end_order issuer n s).
Proof.
  intros Hn Hnow I. destruct (without_nth n o s Hn I) as [Hp Hnin].
  assert (In o (cs_running s)) as Hin by (by apply list_elem_of_In; eapply list_elem_of_lookup_2).
  assert (∀ o', In o' (take n (cs_running s) ++ drop (S n) (cs_running s)) → In o' (cs_running s)) as Hsub.
  { intros o' Ho'. apply list_elem_of_In. rewrite Hp. right. by apply list_elem_of_In. }
  assert (cs_slots s !! ro_name o = Some Busy) as Hbusy by (by apply (inv_busy s I), in_map).
  assert (∀ t, In (ro_name o, t) (cs_issued s) → t + min_interval issuer ≤ cs_now s) as Hlast.
  { intros t Ht. apply (inv_last s I) in Ht. by rewrite Hbusy in Ht. }
  unfold end_order. rewrite Hn. remember (take n (cs_running s) ++ drop (S n) (cs_running s)) as rest eqn:Hrest.
  clear Hrest. split; cbn [cs_running cs_slots cs_now cs_asked cs_issued].
  - pose proof (inv_names s I) as Hnd. rewrite Hp in Hnd. by apply NoDup_cons in Hnd as [_ Hnd].
  - intros name. rewrite settle_lookup. case_decide as Hd.
    + subst name. by destruct (order_issued issuer o).
    + rewrite (inv_busy s I), <- !list_elem_of_In, Hp. simpl. rewrite elem_of_cons. split; [|by right].
      by intros [?|?].
  - intros name t. rewrite settle_lookup. case_decide; [|apply (inv_past s I)].
    destruct (order_issued issuer o); [|done]. by intros [= <-].
  - intros name t Ht. rewrite settle_lookup. case_decide as Hd.
    + subst name. destruct (order_issued issuer o); [|by apply Hlast].
      apply in_app_iff in Ht as [Ht|[[= <-]|[]]]; [|lia]. pose proof (Hlast t Ht). lia.
    + apply (inv_last s I). destruct (order_issued issuer o); [|done].
      apply in_app_iff in Ht as [Ht|[[= <- <-]|[]]]; [done|done].
  - destruct (order_issued issuer o); [|apply (inv_apart s I)].
    apply sorted_snoc; [apply (inv_apart s I)|]. apply Forall_forall. intros [name t] Ht. unfold apart. simpl.
    intros ->. apply Hlast. by apply list_elem_of_In.
  - intros o' Ho'. by apply (inv_time s I), Hsub.
  - intros o' Ho'. by apply (inv_asked s I), Hsub.
  - apply (inv_entitled s I).
  - intros name t Ht. destruct (order_issued issuer o) eqn:Hi; [|by apply (inv_source s I)].
    apply in_app_iff in Ht as [Ht|[[= <- <-]|[]]]; [by apply (inv_source s I)|].
    destruct (inv_asked s I o Hin) as [a Ha]. unfold order_issued in Hi.
    destruct (order_result issuer o) as [[chain|]|] eqn:Hr; [|done|done]. by exists a, o, chain.
Qed.

(** ** Every reachable state *)

Lemma step_inv s s' : cert_step issuer s s' → cert_inv s → cert_inv s'.
Proof.
  intros [service s0 Hs|peer q ca s0|t s0 Hle Hends|n o s0 Hn Hnow] I.
  - by destruct I.
  - eapply request_inv; [apply request_certificate_spec|done].
  - by apply time_inv.
  - by eapply end_inv.
Qed.
Lemma cert_reachable_inv service now s : rtc (cert_step issuer) (cert_start service now) s → cert_inv s.
Proof.
  intros Hr. pose proof (start_inv service now) as I. revert I.
  induction Hr as [|a b c Hab _ IH]; [done|]. intros I. apply IH. by eapply step_inv.
Qed.

(** An order's clock runs out at the latest at its limit, and then it ends. *)
Lemma earliest_order (l : list RunningOrder) : l ≠ [] →
  ∃ n o, l !! n = Some o ∧ ∀ o', In o' l → ends_at issuer o ≤ ends_at issuer o'.
Proof.
  induction l as [|a l IH]; [done|]. intros _. destruct l as [|b l].
  - exists 0%nat, a. split; [done|]. intros o' [<-|[]]. done.
  - destruct IH as (n & o & Hn & Hmin); [done|].
    destruct (Z.le_ge_cases (ends_at issuer a) (ends_at issuer o)).
    + exists 0%nat, a. split; [done|]. intros o' [<-|Ho']; [done|]. specialize (Hmin o' Ho'). lia.
    + exists (S n), o. split; [done|]. intros o' [<-|Ho']; [done|]. by apply Hmin.
Qed.

Lemma busy_name_ends k s name :
  List.length (cs_running s) = k → cert_inv s → cs_slots s !! name = Some Busy →
  ∃ o s', In o (cs_running s) ∧ ro_name o = name ∧ rtc (cert_step issuer) s s'
    ∧ cs_now s' = ends_at issuer o ∧ cs_slots s' !! name ≠ Some Busy.
Proof.
  revert s. induction k as [|k IH]; intros s Hk I Hb.
  - apply (inv_busy s I) in Hb. by destruct (cs_running s).
  - destruct (earliest_order (cs_running s)) as (n & e & Hn & Hmin); [by destruct (cs_running s)|].
    assert (In e (cs_running s)) as He by (by apply list_elem_of_In; eapply list_elem_of_lookup_2).
    pose proof (inv_time s I e He) as Ht.
    set (s1 := at_time (ends_at issuer e) s).
    assert (cert_step issuer s s1) as Hs1 by (apply CS_time; [lia|done]).
    assert (cert_step issuer s1 (end_order issuer n s1)) as Hs2 by (by eapply CS_end).
    assert (cert_inv s1) as I1 by (by eapply step_inv). assert (cert_inv (end_order issuer n s1)) as I2 by (by eapply step_inv).
    destruct (without_nth n e s1 Hn I1) as [Hp Hnin]. change (cs_running s1) with (cs_running s) in Hp, Hnin.
    assert (cs_slots (end_order issuer n s1) !! name = Some Busy → ro_name e ≠ name) as Hother.
    { intros Hb' <-. apply (inv_busy _ I2) in Hb'. unfold end_order in Hb'. simpl in Hb', Hnin. rewrite Hn in Hb'. done. }
    destruct (decide (cs_slots (end_order issuer n s1) !! name = Some Busy)) as [Hb'|Hfree].
    + destruct (IH (end_order issuer n s1)) as (o & s' & Ho & Hname & Hr & Hnow & Hf); [|done|done|].
      { unfold end_order. simpl. rewrite Hn. simpl. apply Permutation_length in Hp. simpl in Hp. lia. }
      exists o, s'. split.
      { unfold end_order in Ho. simpl in Ho. rewrite Hn in Ho. simpl in Ho. apply list_elem_of_In. rewrite Hp.
        right. by apply list_elem_of_In. }
      repeat split; try done. by eapply rtc_l; [exact Hs1|]; eapply rtc_l.
    + exists e, (end_order issuer n s1). split; [done|]. split.
      { destruct (decide (ro_name e = name)) as [|Hne]; [done|]. exfalso. apply Hfree. unfold end_order. simpl.
        rewrite Hn. simpl. by rewrite settle_lookup, decide_False. }
      split; [by eapply rtc_l; [exact Hs1|]; eapply rtc_l; [exact Hs2|constructor]|]. split; [|done].
      unfold end_order. simpl. by rewrite Hn.
Qed.
End theory.
