(* ===== verification/Capture.v ===== *)
(** * The capture of print jobs

    [src/crates/devbridge-server/src/ipp_service.rs] and [format_size] of
    [devbridge-core/src/lib.rs]: the virtual printers the IPP server routes to,
    what it reads from a job's attributes, and the handler that spools a document
    and queues it.  The IPP protocol itself is the [ippper] package, which hands
    over the attributes and the payload; its printer descriptions are the
    interface [IppLibrary].  [Front] is the server as its IPP clients and its
    dashboard see it: the service, the disk and the IPP server's routing table. *)

From Stdlib Require Import ZArith Ascii String.
From stdpp Require Import gmap.
From S2P Require Import Prelude RustStd Text Floats Core Sqlite Storage Queue Dispatch.
From S2P Require Import Config Files LanApi.
#[local] Open Scope Z_scope.

(** [format_size] *)
Definition format_size (bytes : Z) : string :=
  if bytes <? 1024 then z_to_string bytes +:+ "B"
  else if bytes <? 1024 * 1024 then fixed1 (f64_div (f64_of_Z bytes) (f64_of_Z 1024)) +:+ "KB"
  else fixed1 (f64_div (f64_of_Z bytes) (f64_mul (f64_of_Z 1024) (f64_of_Z 1024))) +:+ "MB".

(** [{:x}] of a digest *)
Definition hex_byte (b : Byte.byte) : string := hex_digit (u8 b / 16) +:+ hex_digit (u8 b mod 16).
Definition hex_bytes (bs : bytes) : string := String.concat "" (map hex_byte bs).

(** ** The virtual printers *)

Record IppService := mkIppService { is_display_name : string; is_ipp_name : string }.
Record IppServer := mkIppServer {
  printers : gmap string IppService;
  default_service : option IppService;        (* taken when the listener starts *)
}.
Class IppLibrary : Type := { printer_info : string → result string unit }.

Definition PRINTERS_PATH : string := "/printers/".
(** The service a request's path is for: a name that no printer has goes to the
    default one. *)
Definition trim_end_slashes (cs : list Z) : list Z := rev (drop_slashes (rev cs)).
Definition route (path : string) (srv : IppServer) (fallback : IppService) : IppService :=
  match strip_prefix (chars PRINTERS_PATH) (chars path) with
  | Some name => default fallback (printers srv !! of_chars (trim_end_slashes name))
  | None => fallback
  end.

Definition IPP_CONTENT_TYPE : string := "application/ipp".
(** The Content-Type handed to [ippper]. *)
Definition normalized_content_type (ct : option string) : option string :=
  match ct with
  | Some ct =>
    if starts_with IPP_CONTENT_TYPE (ascii_lowercase ct) && negb (ct =t? IPP_CONTENT_TYPE)
    then Some IPP_CONTENT_TYPE else Some ct
  | None => None
  end.

(** ** What a job's attributes say *)

Record SimpleIppJobAttributes := mkAttributes {
  a_document_name : option string;
  a_job_name : option string;
  a_copies : option Z;
  a_media : string;
  a_sides : string;
  a_print_color_mode : string;
  a_originating_user_name : string;
}.
Definition not_blank (o : option string) : option string :=
  match o with Some s => if is_blank s then None else Some (trimmed s) | None => None end.
Definition extract_document_name (a : SimpleIppJobAttributes) : string :=
  match not_blank (a_document_name a) with
  | Some name => name
  | None => default "" (not_blank (a_job_name a))
  end.
Definition extract_copies (a : SimpleIppJobAttributes) : Z :=
  match a_copies a with Some n => if 1 <=? n then n else 1 | None => 1 end.

(** ** The handler *)

(** A document: its attributes, and its payload or the error of reading it. *)
Record SimpleIppDocument := mkDocument {
  d_attributes : SimpleIppJobAttributes;
  d_payload : result string bytes;
}.

Section capture.
Context `{Chrono} `{Sha256} `{IppLibrary}.

Record Front := mkFront { fr_service : Service; fr_disk : Disk; fr_ipp : IppServer }.
Definition FRM (A : Type) : Type := M Front string A.
Definition set_service (s : Service) (f : Front) : Front := mkFront s (fr_disk f) (fr_ipp f).
Definition set_fr_disk (d : Disk) (f : Front) : Front := mkFront (fr_service f) d (fr_ipp f).
Definition set_ipp (i : IppServer) (f : Front) : Front := mkFront (fr_service f) (fr_disk f) i.
Definition front_queue (f : Front) : JobQueue := queue (fr_service f).
Definition set_front_queue (q : JobQueue) (f : Front) : Front := set_service (set_queue q (fr_service f)) f.
Definition on_q {A} (m : QM A) : FRM A := zoom front_queue set_front_queue m.
Definition io_error_text (e : IoError) : string := match e with Files.NotFound => "not found" | Other t => t end.
Definition on_d {A} (m : FM A) : FRM A := map_err io_error_text (zoom fr_disk set_fr_disk m).
Definition utc_now_q : FRM DateTime := on_q (on_storage utc_now).

(** [Path::exists]: an error reads as no file; [std::fs::copy] *)
Definition path_exists (path : string) : FRM bool :=
  r ← attempt (on_d (io (λ fs, (Ok (bool_decide (is_Some (fs !! path))), fs)) intact));
  mret (match r with Ok b => b | Err _ => false end).
Definition copy_file (from to : string) : FM unit :=
  io (λ fs, match fs !! from with
            | Some f => (Ok tt, put_content to (content f) fs)
            | None => (Err Files.NotFound, fs)
            end) (torn_write to).

(** [add_printer], [remove_printer]; [run] takes as its default a printer that
    the map happens to give first. *)
Definition add_printer (vp : VirtualPrinter) : FRM unit :=
  match printer_info (display_name vp) with
  | Err e => throw ("failed to build printer info: " +:+ e)
  | Ok _ =>
    modify (λ f, set_ipp (mkIppServer (<[ipp_name vp := mkIppService (display_name vp) (ipp_name vp)]> (printers (fr_ipp f)))
                            (default_service (fr_ipp f))) f)
  end.
Definition remove_printer (ipp_name : string) : FRM unit :=
  modify (λ f, set_ipp (mkIppServer (delete ipp_name (printers (fr_ipp f))) (default_service (fr_ipp f))) f).
Definition first_printer (first : string) (ps : gmap string IppService) : option IppService :=
  match ps !! first with Some s => Some s | None => snd <$> head (map_to_list ps) end.
Definition start_listener (first : string) : FRM unit :=
  _ ← on_d create_dir_all;
  ps ← gets (λ f, printers (fr_ipp f));
  match first_printer first ps with
  | Some s => modify (λ f, set_ipp (mkIppServer (printers (fr_ipp f)) (Some s)) f)
  | None => throw "no virtual printers configured"
  end.

Section handler.
Variables (spool_dir new_id : string) (d : SimpleIppDocument).

Definition spool_path : string := spool_dir +:+ "/" +:+ new_id +:+ ".pdf".
Definition captured_job (ipp_name : string) (payload : bytes) (now : DateTime) : JobMetadata :=
  let a := d_attributes d in
  {| job_id := new_id;
     document_name := extract_document_name a;
     Core.target_printer := ipp_name;
     target_client_id := None;
     copies := extract_copies a;
     paper_size := a_media a;
     duplex := negb (a_sides a =t? "one-sided");
     color := negb (a_print_color_mode a =t? "monochrome");
     payload_size := Z.of_nat (length payload);
     payload_sha256 := hex_bytes (sha256 payload);
     state := Queued;
     retry_count := 0;
     error_detail := "";
     requesting_user := none_if_empty (a_originating_user_name a);
     created_at := now;
     updated_at := now |}.
Definition received_detail (payload : bytes) : string :=
  "Print job received (" +:+ format_size (Z.of_nat (length payload)) +:+ ")".
Definition handle_document (ipp_name : string) : FRM unit :=
  match d_payload d with
  | Err e => throw e
  | Ok payload =>
    _ ← on_d (write_file spool_path payload);
    now ← utc_now_q;
    event_now ← utc_now_q;
    _ ← on_q (insert_job_event (event_ok event_now new_id SReceived (received_detail payload)));
    on_q (push (captured_job ipp_name payload now) spool_path)
  end.
(** A print request at [path], once the listener runs. *)
Definition ipp_request (path : string) : FRM unit :=
  srv ← gets fr_ipp;
  match default_service srv with
  | None => throw "not listening"
  | Some fallback => handle_document (is_ipp_name (route path srv fallback))
  end.
End handler.

(** [run_server]'s start: the clients are offline, a printer of the configuration
    stands in when the store has none, and every printer gets its route.
    [vp_id] is a fresh UUID. *)
Context `{UnicodeTables}.
Definition seed_printer (c : ServerConfig) (vp_id : string) : FRM unit :=
  now ← utc_now_q;
  on_q (insert_virtual_printer
          {| vp_id := vp_id; display_name := sr_printer_name c; ipp_name := slugify (sr_printer_name c);
             paired_client_id := None; driver := None; vp_created_at := now; vp_updated_at := now |}).
Definition start_server (c : ServerConfig) (vp_id : string) : FRM unit :=
  _ ← on_d create_dir_all;
  _ ← on_d create_dir_all;
  _ ← on_q Reads.set_all_clients_offline;
  existing ← on_q Reads.list_virtual_printers;
  _ ← (match existing with [] => seed_printer c vp_id | _ => mret tt end);
  vps ← on_q Reads.list_virtual_printers;
  for_each vps add_printer.
End capture.
