(* ===== verification/Dashboard.v ===== *)
(** * The dashboard

    [src/crates/devbridge-dashboard/src]: the state the routes share
    ([state.rs]) and the handlers of jobs, clients, virtual printers, the target
    printer, the status and the configuration ([api/]).  A handler runs on the
    server as [Capture.v] has it and answers with a status and a JSON body; the
    HTTP server and the JSON reader are the [axum] and [serde] packages. *)

From Stdlib Require Import ZArith Ascii String.
From stdpp Require Import gmap.
From S2P Require Import Prelude RustStd Text Floats Config Core Sqlite Storage Queue Dispatch Json.
From S2P Require Import Files ConfigFile Capture.
#[local] Open Scope Z_scope.

(** ** The shared state *)

Record AppState := mkAppState {
  app_mode : string;
  app_version : string;
  app_queue : bool;                       (* whether the service gave it a queue *)
  app_ipp_server : bool;
  app_config_path : option string;
  app_client_id : option string;
  app_printer_display_name : option string;
  app_printer_address : option string;
  app_print_backend : option string;
  app_server_address : option string;
  app_print_timeout_secs : option Z;
  app_serial_bridge : option SerialBridgeClientConfig;
}.
Definition AppState_new (mode version : string) : AppState :=
  mkAppState mode version false false None None None None None None None None.
Definition with_queue (a : AppState) : AppState :=
  mkAppState (app_mode a) (app_version a) true (app_ipp_server a) (app_config_path a) (app_client_id a)
    (app_printer_display_name a) (app_printer_address a) (app_print_backend a) (app_server_address a)
    (app_print_timeout_secs a) (app_serial_bridge a).
Definition with_ipp_server (a : AppState) : AppState :=
  mkAppState (app_mode a) (app_version a) (app_queue a) true (app_config_path a) (app_client_id a)
    (app_printer_display_name a) (app_printer_address a) (app_print_backend a) (app_server_address a)
    (app_print_timeout_secs a) (app_serial_bridge a).
Definition with_config_path (path : string) (a : AppState) : AppState :=
  mkAppState (app_mode a) (app_version a) (app_queue a) (app_ipp_server a) (Some path) (app_client_id a)
    (app_printer_display_name a) (app_printer_address a) (app_print_backend a) (app_server_address a)
    (app_print_timeout_secs a) (app_serial_bridge a).
Definition with_client_config (c : ClientConfig) (a : AppState) : AppState :=
  mkAppState (app_mode a) (app_version a) (app_queue a) (app_ipp_server a) (app_config_path a) (Config.client_id c)
    (Config.printer_display_name c) (Config.printer_address c) (Some (Config.print_backend c)) (Some (Config.server_address c))
    (app_print_timeout_secs a)
    (if sc_enabled (Config.serial_bridge c) then Some (Config.serial_bridge c) else None).
Definition with_jobs_config (c : JobsConfig) (a : AppState) : AppState :=
  mkAppState (app_mode a) (app_version a) (app_queue a) (app_ipp_server a) (app_config_path a) (app_client_id a)
    (app_printer_display_name a) (app_printer_address a) (app_print_backend a) (app_server_address a)
    (Some (print_timeout_secs c)) (app_serial_bridge a).

(** What the handlers change: the server, and the target printer every client of
    the state shares. *)
Record Dash `{Chrono} := mkDash { da_front : Front; da_target : string }.
Arguments mkDash {_} _ _.
(** A status without a body is an early return of [StatusCode]. *)
Record Answer := mkAnswer { an_status : Z; an_body : option Value }.
Definition ok_json (v : Value) : Answer := mkAnswer 200 (Some v).
Definition bare (status : Z) : Answer := mkAnswer status None.
Definition error_answer (status : Z) (text : string) : Answer :=
  mkAnswer status (Some (VObject [("error", VString text)])).

(** ** JSON *)

Definition opt_text (o : option string) : Value := match o with Some s => VString s | None => VNull end.
Definition number (z : Z) : Value := VNumber (NInt z).
(** [format!("{:?}", state)] in lower case *)
Definition state_debug (s : JobState) : string :=
  match s with
  | Queued => "Queued" | Downloading => "Downloading" | Printing => "Printing"
  | Completed => "Completed" | Failed => "Failed" | Cancelled => "Cancelled"
  | Unconfirmed => "Unconfirmed"
  end.
(** [{:?}] of a character a driver name may not have: a quote, a backslash or a
    control character *)
Definition char_hex (c : Z) : string := if c <? 16 then hex_digit c else hex_digit (c / 16) +:+ hex_digit (c mod 16).
Definition debug_char (c : Z) : string :=
  "'" +:+ (if c =? 92 then "\\" else if c =? 34 then QUOTE else if c =? 0 then "\0"
           else if c =? 9 then "\t" else if c =? 10 then "\n" else if c =? 13 then "\r"
           else "\u{" +:+ char_hex c +:+ "}") +:+ "'".
Definition driver_error_text (e : DriverNameError) : string :=
  match e with
  | DriverNameTooLong =>
    "driver name is longer than " +:+ z_to_string (Z.of_nat MAX_DRIVER_NAME_LEN) +:+ " characters"
  | DriverNameForbidden c =>
    "driver name contains a forbidden character " +:+ debug_char c
      +:+ " (no quotes, backslashes or control characters)"
  end.

Section json.
Context `{Chrono}.

Definition job_event_json (e : PrintJobEvent) : Value :=
  VObject [("detail", VString (ev_detail e));
           ("job_id", VString (ev_job_id e));
           ("stage", VString (stage_to_str (ev_stage e)));
           ("success", VBool (ev_success e));
           ("timestamp", VString (to_rfc3339 (ev_timestamp e)));
           ("verification_evidence", VString (ev_verification_evidence e));
           ("verification_method", VString (ev_verification_method e))].
Definition job_row_json (j : JobMetadata) : Value :=
  VObject [("color", VBool (color j));
           ("copies", number (copies j));
           ("created_at", VString (to_rfc3339 (created_at j)));
           ("duplex", VBool (duplex j));
           ("id", VString (job_id j));
           ("name", VString (document_name j));
           ("paper_size", VString (paper_size j));
           ("payload_sha256", VString (payload_sha256 j));
           ("payload_size", number (payload_size j));
           ("printer", VString (Core.target_printer j));
           ("requesting_user", opt_text (requesting_user j));
           ("retry_count", number (retry_count j));
           ("status", VString (ascii_lowercase (state_debug (state j))));
           ("target_client_id", opt_text (target_client_id j));
           ("updated_at", VString (to_rfc3339 (updated_at j)))].
Definition client_json (c : ClientRegistration) : Value :=
  VObject [("client_version", VString (client_version c));
           ("hostname", VString (hostname c));
           ("is_online", VBool (is_online c));
           ("last_seen", VString (to_rfc3339 (last_seen c)));
           ("machine_id", VString (machine_id c));
           ("pairing_state", VString (pairing_to_str (pairing_state c)));
           ("printer_names", VArray (map VString (printer_names c)));
           ("virtual_printer_driver", opt_text (Core.virtual_printer_driver c));
           ("virtual_printer_name", opt_text (Core.virtual_printer_name c))].
Definition vp_json (vp : VirtualPrinter) : Value :=
  VObject [("created_at", VString (to_rfc3339 (vp_created_at vp)));
           ("display_name", VString (display_name vp));
           ("driver", opt_text (driver vp));
           ("effective_driver", VString (effective_driver vp));
           ("id", VString (vp_id vp));
           ("ipp_name", VString (ipp_name vp));
           ("paired_client_id", opt_text (paired_client_id vp));
           ("updated_at", VString (to_rfc3339 (vp_updated_at vp)))].
End json.

(** ** The handlers *)

Section handlers.
Context `{Chrono} `{IppLibrary} `{UnicodeTables}.
Variable app : AppState.

Definition AM (A : Type) : Type := M Dash Answer A.
Definition set_front (f : Front) (d : Dash) : Dash := mkDash f (da_target d).
Definition set_target_name (t : string) (d : Dash) : Dash := mkDash (da_front d) t.
Definition on_front {A} (to : string → Answer) (m : FRM A) : AM A := zoom da_front set_front (map_err to m).
Definition front_queue_or {A} (to : string → Answer) (m : QM A) : AM A := on_front to (on_q m).
Definition or_answer {A} (o : option A) (a : Answer) : AM A :=
  match o with Some x => mret x | None => throw a end.
(** [m.is_err()], [m.ok()], [match m] *)
Definition looked {A} (m : FRM A) : AM (result string A) := zoom da_front set_front (attempt m).
Definition now_a : AM DateTime := on_front (error_answer 500) utc_now_q.
(** [let Some(queue) = &state.queue else] *)
Definition needs_queue (a : Answer) : AM unit := if app_queue app then mret tt else throw a.
(** [if let Some(ipp) = &state.ipp_server], with the result dropped *)
Definition with_ipp (m : FRM unit) : AM unit :=
  if app_ipp_server app then _ ← looked m; mret tt else mret tt.
(** What the router sends: early returns are answers too. *)
Definition answered (m : AM Answer) : Dash → Answer * Dash := λ d,
  match m d with (Ok a, d') => (a, d') | (Err a, d') => (a, d') end.

(** *** [api/jobs.rs] *)

Definition clear_jobs : AM Answer :=
  _ ← (if app_queue app then _ ← looked (on_q Queue.clear_jobs); mret tt else mret tt);
  mret (bare 204).
Definition get_job_events (job_id : string) : AM Answer :=
  _ ← needs_queue (ok_json (VArray []));
  r ← looked (on_q (Reads.get_job_events job_id));
  mret (ok_json (VArray (map job_event_json (match r with Ok es => es | Err _ => [] end)))).
Definition get_all_events_batch : AM Answer :=
  _ ← needs_queue (ok_json (VObject []));
  r ← looked (on_q Reads.get_all_job_events);
  mret (ok_json (VObject (match r with
    | Ok m => order_by fst ((λ e, (fst e, VArray (map job_event_json (snd e)))) <$> map_to_list m)
    | Err _ => []
    end))).

Definition LIMIT : Z := 100.
Definition limit_of (params : gmap string string) : Z :=
  match params !! "limit" with
  | Some v => match parse_u64 (chars v) with Ok n => n | Err _ => LIMIT end
  | None => LIMIT
  end.
Definition of_user (user : option string) (j : JobMetadata) : bool :=
  match user with Some u => bool_decide (requesting_user j = Some u) | None => true end.
Definition take_z {A} (n : Z) (l : list A) : list A := take (Z.to_nat (Z.min n (Z.of_nat (length l)))) l.
Definition get_jobs (params : gmap string string) : AM Answer :=
  _ ← needs_queue (ok_json (VArray []));
  r ← looked (on_q Reads.get_all_jobs);
  mret (ok_json (VArray (match r with
    | Ok js => map job_row_json
                 (take_z (limit_of params) (List.filter (of_user (params !! "requesting_user")) js))
    | Err _ => []
    end))).

Definition NANOS : Z := 1000000000.
Definition nanos (t : DateTime) : Z := timestamp t * NANOS + subsec_nanos t.
Definition age_nanos (now created : DateTime) : Z := nanos now - nanos created.
Definition HOUR : Z := 3600 * NANOS.
Definition REPRINT_HOURS : Z := 48.
Definition too_old_text (hours : Z) : string :=
  "This job is too old to reprint (" +:+ z_to_string hours
    +:+ " hours, limit is 48). The print file has been cleaned up.".
Definition NO_SPOOL_TEXT : string :=
  "Print file has been cleaned up and is no longer available for reprint. Re-send the print from the original application.".
Definition SPOOL_DELETED_TEXT : string :=
  "Print file was deleted from disk. Re-send the print from the original application.".
Definition reprint_of (original : JobMetadata) (new_id : string) (now : DateTime) : JobMetadata :=
  {| job_id := new_id;
     document_name := document_name original;
     Core.target_printer := Core.target_printer original;
     target_client_id := target_client_id original;
     copies := copies original;
     paper_size := paper_size original;
     duplex := duplex original;
     color := color original;
     payload_size := payload_size original;
     payload_sha256 := payload_sha256 original;
     state := Queued;
     retry_count := 0;
     error_detail := "";
     requesting_user := requesting_user original;
     created_at := now;
     updated_at := now |}.
Definition reprint_spool (spool_path new_id : string) : string := spool_path +:+ ".reprint-" +:+ new_id.
(** [new_id] is a fresh UUID. *)
Definition reprint_job (id new_id : string) : AM Answer :=
  _ ← needs_queue (error_answer 500 "no queue");
  found ← front_queue_or (error_answer 500) (Reads.get_job id);
  original ← or_answer found (error_answer 404 "job not found");
  now ← now_a;
  let age := age_nanos now (created_at original) in
  if REPRINT_HOURS * HOUR <? age then throw (error_answer 422 (too_old_text (Z.quot age HOUR)))
  else
    path ← front_queue_or (error_answer 500) (Reads.get_spool_path id);
    spool ← or_answer path (error_answer 410 NO_SPOOL_TEXT);
    there ← on_front (error_answer 500) (path_exists spool);
    if negb there then throw (error_answer 410 SPOOL_DELETED_TEXT)
    else
      now ← now_a;
      _ ← on_front (λ e, error_answer 500 ("failed to copy spool file: " +:+ e))
            (on_d (copy_file spool (reprint_spool spool new_id)));
      _ ← front_queue_or (error_answer 500) (push (reprint_of original new_id now) (reprint_spool spool new_id));
      mret (mkAnswer 201 (Some (VObject [("id", VString new_id);
                                         ("name", VString (document_name original));
                                         ("reprinted_from", VString id);
                                         ("status", VString "queued")]))).

(** *** [api/clients.rs] *)

Definition list_clients : AM Answer :=
  _ ← needs_queue (ok_json (VArray []));
  r ← looked (on_q Reads.list_clients);
  mret (ok_json (VArray (match r with Ok cs => map client_json cs | Err _ => [] end))).
Definition known_client (id : string) : AM ClientRegistration :=
  r ← looked (on_q (get_client id));
  match r with
  | Ok (Some c) => mret c
  | Ok None => throw (error_answer 404 "client not found")
  | Err _ => throw (error_answer 500 "database error")
  end.
Definition set_pairing (id : string) (p : PairingState) : AM unit :=
  front_queue_or (λ _, error_answer 500 "failed to update pairing state") (update_pairing_state id p).
(** What an approval has to say of the client's printer. *)
Record ApprovedPrinter := mkApproved { ap_info : Value; ap_error : Value }.
Definition no_printer : ApprovedPrinter := mkApproved VNull VNull.
Definition vp_info (vp : VirtualPrinter) : Value :=
  VObject [("display_name", VString (display_name vp)); ("driver", opt_text (driver vp));
           ("id", VString (vp_id vp)); ("ipp_name", VString (ipp_name vp))].
(** [vp_id] is a fresh UUID. *)
Definition approval_printer (id name vp_id : string) (client : ClientRegistration) : AM ApprovedPrinter :=
  match normalize_driver_name (Core.virtual_printer_driver client) with
  | Err reason =>
    mret (mkApproved VNull (VString ("invalid virtual_printer_driver: " +:+ driver_error_text reason)))
  | Ok drv =>
    now ← now_a;
    let vp := {| vp_id := vp_id; display_name := name; ipp_name := slugify name;
                 paired_client_id := Some id; driver := drv; vp_created_at := now; vp_updated_at := now |} in
    r ← looked (on_q (insert_virtual_printer vp));
    match r with
    | Err _ => mret no_printer
    | Ok _ => _ ← with_ipp (add_printer vp); mret (mkApproved (vp_info vp) VNull)
    end
  end.
Definition approve_client (id vp_id : string) : AM Answer :=
  _ ← needs_queue (error_answer 500 "no queue available");
  client ← known_client id;
  if decide (pairing_state client = Approved)
  then mret (ok_json (VObject [("status", VString "already_approved")]))
  else
    _ ← set_pairing id Approved;
    p ← (match Core.virtual_printer_name client with
         | Some name => approval_printer id name vp_id client
         | None => mret no_printer
         end);
    mret (ok_json (VObject [("client_id", VString id); ("status", VString "approved");
                            ("virtual_printer", ap_info p); ("virtual_printer_error", ap_error p)])).
Definition reject_client (id : string) : AM Answer :=
  _ ← needs_queue (error_answer 500 "no queue available");
  _ ← known_client id;
  _ ← set_pairing id Rejected;
  mret (ok_json (VObject [("client_id", VString id); ("status", VString "rejected")])).

(** *** [api/virtual_printers.rs] *)

Definition list_virtual_printers : AM Answer :=
  _ ← needs_queue (ok_json (VArray []));
  r ← looked (on_q Reads.list_virtual_printers);
  mret (ok_json (VArray (match r with Ok vps => map vp_json vps | Err _ => [] end))).

Record CreateRequest := mkCreate {
  cr_display_name : string; cr_paired_client_id : option string; cr_driver : option string }.
Record UpdateRequest := mkUpdate {
  ur_display_name : option string;
  ur_paired_client_id : option (option string);
  ur_driver : option (option string);
}.
(** serde's reading of the fields of an object: [None] refuses the body. *)
Definition required_text (key : string) (v : Value) : option string := get_field key v ≫= as_str.
Definition present_nullable (key : string) (v : Value) : option (option (option string)) :=
  match get_field key v with
  | None => Some None
  | Some VNull => Some (Some None)
  | Some (VString s) => Some (Some (Some s))
  | Some _ => None
  end.
Definition optional_text (key : string) (v : Value) : option (option string) :=
  match present_nullable key v with Some o => Some (default None o) | None => None end.
Definition create_request (v : Value) : option CreateRequest :=
  name ← required_text "display_name" v;
  client ← optional_text "paired_client_id" v;
  drv ← optional_text "driver" v;
  Some (mkCreate name client drv).
Definition update_request (v : Value) : option UpdateRequest :=
  if is_object v then
    name ← optional_text "display_name" v;
    client ← present_nullable "paired_client_id" v;
    drv ← present_nullable "driver" v;
    Some (mkUpdate name client drv)
  else None.

Definition create_virtual_printer (vp_id : string) (body : CreateRequest) : AM Answer :=
  _ ← needs_queue (bare 503);
  if is_blank (cr_display_name body) then throw (bare 400)
  else match normalize_driver_name (cr_driver body) with
  | Err _ => throw (bare 400)
  | Ok drv =>
    now ← now_a;
    let name := trimmed (cr_display_name body) in
    let vp := {| vp_id := vp_id; display_name := name; ipp_name := slugify name;
                 paired_client_id := cr_paired_client_id body; driver := drv;
                 vp_created_at := now; vp_updated_at := now |} in
    _ ← front_queue_or (λ _, bare 409) (insert_virtual_printer vp);
    _ ← with_ipp (add_printer vp);
    mret (ok_json (vp_json vp))
  end.

Definition renamed (name : option string) (vp : VirtualPrinter) : VirtualPrinter * bool :=
  match name with
  | Some n =>
    if n =t? display_name vp then (vp, false)
    else ({| vp_id := vp_id vp; display_name := n; ipp_name := slugify n;
             paired_client_id := paired_client_id vp; driver := driver vp;
             vp_created_at := vp_created_at vp; vp_updated_at := vp_updated_at vp |}, true)
  | None => (vp, false)
  end.
Definition repaired (client : option (option string)) (vp : VirtualPrinter) : VirtualPrinter :=
  {| vp_id := vp_id vp; display_name := display_name vp; ipp_name := ipp_name vp;
     paired_client_id := default (paired_client_id vp) client; driver := driver vp;
     vp_created_at := vp_created_at vp; vp_updated_at := vp_updated_at vp |}.
Definition with_driver (drv : option string) (vp : VirtualPrinter) : VirtualPrinter :=
  {| vp_id := vp_id vp; display_name := display_name vp; ipp_name := ipp_name vp;
     paired_client_id := paired_client_id vp; driver := drv;
     vp_created_at := vp_created_at vp; vp_updated_at := vp_updated_at vp |}.
Definition redriven (drv : option (option string)) (vp : VirtualPrinter) : result DriverNameError VirtualPrinter :=
  match drv with
  | None => Ok vp
  | Some d => match normalize_driver_name d with Ok d => Ok (with_driver d vp) | Err e => Err e end
  end.
Definition known_printer (id : string) : AM VirtualPrinter :=
  found ← front_queue_or (λ _, bare 500) (Reads.get_virtual_printer id);
  or_answer found (bare 404).
Definition update_virtual_printer (id : string) (body : UpdateRequest) : AM Answer :=
  _ ← needs_queue (bare 503);
  old ← known_printer id;
  let '(vp1, name_changed) := renamed (ur_display_name body) old in
  match redriven (ur_driver body) (repaired (ur_paired_client_id body) vp1) with
  | Err _ => throw (bare 400)
  | Ok vp =>
    _ ← front_queue_or (λ _, bare 500) (Queue.update_virtual_printer vp);
    _ ← (if (name_changed : bool)
         then _ ← with_ipp (remove_printer (ipp_name old)); with_ipp (add_printer vp)
         else mret tt);
    mret (ok_json (vp_json vp))
  end.
Definition delete_virtual_printer (id : string) : AM Answer :=
  _ ← needs_queue (bare 503);
  vp ← known_printer id;
  _ ← front_queue_or (λ _, bare 500) (Queue.delete_virtual_printer id);
  _ ← with_ipp (remove_printer (ipp_name vp));
  mret (bare 204).

(** *** [api/printers.rs] *)

Definition printer_json (p : PrinterInfo) : Value :=
  VObject [("driver", VString (pi_driver p)); ("is_target", VBool (pi_is_target p));
           ("jobs", number (pi_jobs p)); ("name", VString (pi_name p)); ("status", VString (pi_status p))].
Definition marked (target : string) (p : PrinterInfo) : PrinterInfo :=
  mkPrinterInfo (pi_name p) (pi_driver p) (pi_status p) (pi_jobs p) (pi_name p =t? target).
(** [listed] is what the machine's printer list gave. *)
Definition get_printers (listed : result string (list PrinterInfo)) : AM Answer :=
  target ← gets da_target;
  mret (ok_json (VArray (map printer_json
    (if app_mode app =t? "client" then map (marked target) (match listed with Ok l => l | Err _ => [] end)
     else if target =t? "" then [] else [mkPrinterInfo target "-" "unknown" 0 true])))).
Definition target_json (name : string) : Value := VObject [("name", VString name)].
Definition get_target : AM Answer := name ← gets da_target; mret (ok_json (target_json name)).
Context `{Toml}.
Definition set_target (name : string) : AM Answer :=
  if is_blank name then throw (bare 400)
  else
    let new_name := trimmed name in
    _ ← modify (set_target_name new_name);
    _ ← (match app_config_path app with
         | Some path =>
           ignore (zoom (λ d, fr_disk (da_front d)) (λ k d, set_front (set_fr_disk k (da_front d)) d)
                     (update_target_printer path new_name))
         | None => mret tt
         end);
    mret (ok_json (target_json new_name)).

(** *** [api/status.rs], [api/config.rs] *)

Definition field_if (key : string) (o : option Value) : list (string * Value) :=
  match o with Some v => [(key, v)] | None => [] end.
Definition counted_or_zero (m : QM Z) : AM Z :=
  if app_queue app then r ← looked (on_q m); mret (match r with Ok n => n | Err _ => 0 end) else mret 0.
Definition serial_bridge_json (s : SerialBridgeClientConfig) : Value :=
  VObject [("baud_rate", number (sc_baud_rate s)); ("enabled", VBool (sc_enabled s)); ("port", VString (sc_port s))].
Definition get_status (uptime_secs : Z) : AM Answer :=
  jobs_today ← counted_or_zero Reads.count_jobs_today;
  active ← counted_or_zero Reads.count_active_jobs;
  connected ← gets (λ d, connected_clients (fr_service (da_front d)));
  mret (ok_json (VObject (
    [("active_jobs", number active)]
    ++ field_if "client_id" (VString <$> app_client_id app)
    ++ [("connected_clients", number connected); ("jobs_today", number jobs_today); ("mode", VString (app_mode app))]
    ++ field_if "print_backend" (VString <$> app_print_backend app)
    ++ field_if "print_timeout_secs" (number <$> app_print_timeout_secs app)
    ++ field_if "printer_address" (VString <$> app_printer_address app)
    ++ field_if "printer_display_name" (VString <$> app_printer_display_name app)
    ++ (if app_mode app =t? "client"
        then [("serial_bridge", match app_serial_bridge app with Some s => serial_bridge_json s | None => VNull end)]
        else [])
    ++ field_if "server_address" (VString <$> app_server_address app)
    ++ [("status", VString "running"); ("uptime_secs", number uptime_secs); ("version", VString (app_version app))]))).
Definition get_config : AM Answer :=
  mret (ok_json (VObject [("mode", VString (app_mode app)); ("version", VString (app_version app))])).
End handlers.
