(* ===== verification/Tray.v ===== *)
(** * The tray of a user's session

    [src/crates/devbridge-app/src]: [job_tracker.rs] (which events of the server
    a session may see, the last jobs it shows and the colour of its icon) and
    the logic of [tray.rs] (who the session belongs to, the jobs fetched at the
    start, the events, the labels of the menu).  The initial jobs are what
    [Dashboard.get_jobs] answers. *)

From Stdlib Require Import ZArith String.
From stdpp Require Import gmap relations.
From S2P Require Import Prelude RustStd Text Core Sqlite Storage Queue Dispatch Json Files LanApi Capture Dashboard.
#[local] Open Scope Z_scope.

Definition MAX_RECENT_JOBS : nat := 5.
Inductive IconState := Green | Yellow | Red | Gray.
Inductive JobDisplayStatus := InProgress | DCompleted | DFailed | DUnconfirmed.
#[export] Instance IconState_eq_dec : EqDecision IconState.
Proof. solve_decision. Defined.

Record RecentJob `{Chrono} := mkRecent {
  rj_job_id : string; rj_target_printer : string; rj_status : JobDisplayStatus; rj_timestamp : DateTime }.

(** Who the session is: not known yet, the client's own PC, or a user of the
    server. *)
Inductive FilterState := FPending | FDisabled | FUser (name : string).

Record JobTracker `{Chrono} := mkTracker {
  recent_jobs : list RecentJob; icon_state : IconState; filter_state : FilterState }.

Section tracker.
Context `{Chrono}.

Definition tracker_new : JobTracker := mkTracker _ [] Gray FPending.
Definition set_filter_state (state : FilterState) (t : JobTracker) : JobTracker :=
  mkTracker _ (recent_jobs t) (icon_state t) state.
Definition eq_ignore_ascii_case (a b : string) : bool := ascii_lowercase a =t? ascii_lowercase b.
Definition should_process (requesting_user : option string) (t : JobTracker) : bool :=
  match filter_state t with
  | FPending => false
  | FDisabled => true
  | FUser filter =>
    match requesting_user with Some user => eq_ignore_ascii_case user filter | None => false end
  end.

Definition set_icon (i : IconState) (t : JobTracker) : JobTracker :=
  mkTracker _ (recent_jobs t) i (filter_state t).
(** [push_front], then at most one [pop_back]. *)
Definition add_job (job_id target_printer : string) (timestamp : DateTime) (status : JobDisplayStatus)
    (t : JobTracker) : JobTracker :=
  let jobs := mkRecent _ job_id target_printer status timestamp :: recent_jobs t in
  mkTracker _ (if (MAX_RECENT_JOBS <? length jobs)%nat then take (length jobs - 1) jobs else jobs)
    (icon_state t) (filter_state t).
Definition on_job_created (now : DateTime) (job_id target_printer : string) (t : JobTracker) : JobTracker :=
  set_icon Yellow (add_job job_id target_printer now InProgress t).

Definition is_job (job_id : string) (j : RecentJob) : bool := rj_job_id j =t? job_id.
Definition tracked (job_id : string) (t : JobTracker) : bool := existsb (is_job job_id) (recent_jobs t).
(** The first job of that id. *)
Fixpoint set_first (job_id : string) (status : JobDisplayStatus) (l : list RecentJob) : list RecentJob :=
  match l with
  | [] => []
  | j :: l' => if is_job job_id j then mkRecent _ (rj_job_id j) (rj_target_printer j) status (rj_timestamp j) :: l'
               else j :: set_first job_id status l'
  end.
Definition conclude (job_id : string) (status : JobDisplayStatus) (i : IconState) (t : JobTracker) : JobTracker :=
  mkTracker _ (set_first job_id status (recent_jobs t)) i (filter_state t).

Definition on_print_event (job_id : string) (stage : PrintStage) (success : bool) (t : JobTracker) : JobTracker :=
  if tracked job_id t then
    if bool_decide (stage = SCompleted) && success then conclude job_id DCompleted Green t
    else if bool_decide (stage = SUnconfirmed) then conclude job_id DUnconfirmed Green t
    else if bool_decide (stage = SFailed) || negb success then conclude job_id DFailed Red t
    else t
  else t.
Definition shown_as (state : JobState) : option (JobDisplayStatus * IconState) :=
  match state with
  | Completed => Some (DCompleted, Green)
  | Failed | Cancelled => Some (DFailed, Red)
  | Unconfirmed => Some (DUnconfirmed, Green)
  | _ => None
  end.
Definition on_state_changed (job_id : string) (state : JobState) (t : JobTracker)
    : option JobDisplayStatus * JobTracker :=
  match shown_as state with
  | Some (status, icon) => if tracked job_id t then (Some status, conclude job_id status icon t) else (None, t)
  | None => (None, t)
  end.
Definition set_online (online : bool) (t : JobTracker) : JobTracker :=
  if online then (if bool_decide (icon_state t = Gray) then set_icon Green t else t) else set_icon Gray t.

(** ** [tray.rs] *)

Inductive WsEvent := WsJob (e : JobEvent) | WsPrint (e : PrintJobEvent).
(** A notification: its title and its text. *)
Definition Notice : Type := string * string.
Definition arrow (printer : string) : string := "→ " +:+ printer.
Definition notice_title (s : JobDisplayStatus) : option string :=
  match s with
  | DCompleted => Some "Printed ✓"
  | DFailed => Some "Print Failed"
  | DUnconfirmed => Some "Možno vytlačené"
  | InProgress => None
  end.
Definition printer_of (job_id : string) (t : JobTracker) : string :=
  match List.find (is_job job_id) (recent_jobs t) with Some j => rj_target_printer j | None => "" end.
Definition on_event (now : DateTime) (e : WsEvent) (t : JobTracker) : list Notice * JobTracker :=
  match e with
  | WsJob (Created job_id _ user printer) =>
    if should_process user t then ([("Print Job Received", arrow printer)], on_job_created now job_id printer t)
    else ([], t)
  | WsJob (StateChanged job_id new_state user) =>
    if should_process user t then
      let printer := printer_of job_id t in
      let '(status, t') := on_state_changed job_id new_state t in
      (match status ≫= notice_title with Some title => [(title, arrow printer)] | None => [] end, t')
    else ([], t)
  | WsPrint e => ([], on_print_event (ev_job_id e) (ev_stage e) (ev_success e) t)
  end.

(** [detect_filter_loop]: one answer of [/api/status]; whether the loop ends. *)
Inductive FetchError := FetchHttp (text : string) | InvalidJson | MissingMode.
Definition fetch_mode (json : Value) : result FetchError string :=
  match get_field "mode" json ≫= as_str with Some m => Ok m | None => Err MissingMode end.
Definition detect (mode : result FetchError string) (username : option string) (t : JobTracker) : bool * JobTracker :=
  match mode with
  | Ok m =>
    if m =t? "client" then (true, set_filter_state FDisabled t)
    else if m =t? "server" then
      match username with Some u => (true, set_filter_state (FUser u) t) | None => (false, t) end
    else (false, t)
  | Err _ => (false, t)
  end.
Definition DETECT_INITIAL_BACKOFF : Z := 1.
Definition DETECT_MAX_BACKOFF : Z := 30.
Definition next_backoff (b : Z) : Z := Z.min (b * 2) DETECT_MAX_BACKOFF.

(** [fetch_initial_jobs]: its query, and the rows of the answer, oldest first. *)
Definition initial_params (f : FilterState) : option (gmap string string) :=
  match f with
  | FUser u => Some {["limit" := "5"; "requesting_user" := u]}
  | FDisabled => Some {["limit" := "5"]}
  | FPending => None
  end.
Definition text_field (key fallback : string) (job : Value) : string :=
  default fallback (get_field key job ≫= as_str).
Definition display_status (status : string) : JobDisplayStatus :=
  if status =t? "completed" then DCompleted
  else if (status =t? "failed") || (status =t? "cancelled") then DFailed
  else if status =t? "unconfirmed" then DUnconfirmed
  else InProgress.
Definition add_fetched (now : DateTime) (job : Value) (t : JobTracker) : JobTracker :=
  let id := text_field "id" "" job in
  if id =t? "" then t
  else add_job id (text_field "printer" "unknown printer" job)
         (default now (parse_rfc3339 (text_field "created_at" "" job)))
         (display_status (text_field "status" "queued" job)) t.
Definition fetch_initial_jobs (now : DateTime) (jobs : list Value) (t : JobTracker) : JobTracker :=
  foldr (add_fetched now) t jobs.

Definition status_mark (s : JobDisplayStatus) : string :=
  match s with DCompleted => "✓" | DFailed => "✗" | DUnconfirmed => "⚠" | InProgress => "⏳" end.
Definition format_age (secs : Z) : string :=
  let secs := Z.max secs 0 in
  if secs <? 60 then "just now"
  else if secs <? 3600 then z_to_string (secs / 60) +:+ "m ago"
  else if secs <? 86400 then z_to_string (secs / 3600) +:+ "h ago"
  else z_to_string (secs / 86400) +:+ "d ago".
Definition job_label (now : DateTime) (j : RecentJob) : string :=
  status_mark (rj_status j) +:+ " " +:+ format_age (seconds_between now (rj_timestamp j)) +:+ "  "
    +:+ arrow (rj_target_printer j).
Definition status_label (i : IconState) : string :=
  match i with
  | Green => "● Online" | Yellow => "◐ Printing..." | Red => "● Error" | Gray => "○ Offline"
  end.
Definition job_labels (now : DateTime) (t : JobTracker) : list string :=
  match recent_jobs t with [] => ["(no recent jobs)"] | l => map (job_label now) l end.

(** ** The tray over any events *)

Inductive tray_step : JobTracker → JobTracker → Prop :=
| tray_filter f t : tray_step t (set_filter_state f t)
| tray_created now id printer t : tray_step t (on_job_created now id printer t)
| tray_added id printer ts status t : tray_step t (add_job id printer ts status t)
| tray_print id stage ok t : tray_step t (on_print_event id stage ok t)
| tray_state id state t : tray_step t (snd (on_state_changed id state t))
| tray_online b t : tray_step t (set_online b t).

Lemma set_first_length id s l : length (set_first id s l) = length l.
Proof. induction l as [|j l IH]; [done|]. simpl. destruct (is_job id j); simpl; congruence. Qed.
Lemma set_first_find id s l :
  existsb (is_job id) l = true → rj_status <$> List.find (is_job id) (set_first id s l) = Some s.
Proof.
  induction l as [|j l IH]; [done|]. simpl. destruct (is_job id j) eqn:E; simpl.
  - intros _. unfold is_job in *. simpl. by rewrite E.
  - intros Hl. rewrite E. by apply IH.
Qed.

(** At most five jobs, the newest first. *)
Lemma tray_keeps_five t t' : rtc tray_step t t' →
  (length (recent_jobs t) ≤ MAX_RECENT_JOBS)%nat → (length (recent_jobs t') ≤ MAX_RECENT_JOBS)%nat.
Proof.
  induction 1 as [|t t1 t2 Hs _ IH]; [done|]. intros Hl. apply IH. clear IH. unfold MAX_RECENT_JOBS in *.
  destruct Hs; simpl; try done.
  1, 2: destruct (Nat.ltb_spec MAX_RECENT_JOBS (S (length (recent_jobs t)))); unfold MAX_RECENT_JOBS in *;
    simpl; rewrite ?length_take; simpl; lia.
  - unfold on_print_event. repeat case_match; simpl; rewrite ?set_first_length; done.
  - unfold on_state_changed. repeat case_match; simpl; rewrite ?set_first_length; done.
  - unfold set_online. repeat case_match; done.
Qed.

(** A change to a final state of a shown job is shown, and told once. *)
Lemma final_state_is_shown id state status icon t :
  shown_as state = Some (status, icon) → tracked id t = true →
  fst (on_state_changed id state t) = Some status
  ∧ rj_status <$> List.find (is_job id) (recent_jobs (snd (on_state_changed id state t))) = Some status
  ∧ icon_state (snd (on_state_changed id state t)) = icon.
Proof.
  intros Hs Ht. unfold on_state_changed. rewrite Hs, Ht. simpl. split_and!; [done| |done]. by apply set_first_find.
Qed.
Lemma final_states_are_shown state : is_Some (shown_as state) ↔ state ∈ [Completed; Failed; Cancelled; Unconfirmed].
Proof. split; [|set_solver]. destruct state; simpl; intros [? [=]]; set_solver. Qed.

(** Before the session is known nothing is shown; on the server only its own
    user's events are. *)
Lemma session_sees_its_own user t : should_process user t = true →
  filter_state t = FDisabled ∨ ∃ f u, filter_state t = FUser f ∧ user = Some u ∧ ascii_lowercase u = ascii_lowercase f.
Proof.
  unfold should_process, eq_ignore_ascii_case. destruct (filter_state t) as [| |f]; [done|by left|].
  destruct user as [u|]; [|done]. intros E. right. exists f, u. by apply String.eqb_eq in E.
Qed.

(** ** A session sees no other user's jobs

    The events of the dashboard, the answers of its status and the initial jobs
    it gives, in any order; [told] collects whose jobs the tray was told of. *)

Record Session := mkSession { tracker : JobTracker; told : list (string * option string) }.
Definition owner (e : WsEvent) : list (string * option string) :=
  match e with WsJob (Created job_id _ user _) => [(job_id, user)] | _ => [] end.
(** The jobs a stored row of which is told. *)
Definition rows_told (rows : list JobMetadata) : list (string * option string) :=
  map (λ j, (job_id j, requesting_user j)) rows.
Definition fetched_rows (params : gmap string string) (rows : list JobMetadata) : list JobMetadata :=
  take_z (limit_of params) (List.filter (of_user (params !! "requesting_user")) rows).

Inductive session_step : Session → Session → Prop :=
| session_event now e s : session_step s (mkSession (snd (on_event now e (tracker s))) (told s ++ owner e))
| session_detect mode username s : filter_state (tracker s) = FPending →
    session_step s (mkSession (snd (detect mode username (tracker s))) (told s))
| session_fetch now params rows s : initial_params (filter_state (tracker s)) = Some params →
    session_step s (mkSession (fetch_initial_jobs now (map job_row_json (fetched_rows params rows)) (tracker s))
                      (told s ++ rows_told (fetched_rows params rows)))
| session_online b s : session_step s (mkSession (set_online b (tracker s)) (told s)).

Definition own (u : string) (seen : list (string * option string)) (id : string) : Prop :=
  ∃ v, (id, Some v) ∈ seen ∧ ascii_lowercase v = ascii_lowercase u.
Definition discreet (s : Session) : Prop :=
  match filter_state (tracker s) with
  | FPending => recent_jobs (tracker s) = []
  | FDisabled => True
  | FUser u => ∀ j, j ∈ recent_jobs (tracker s) → own u (told s) (rj_job_id j)
  end.

Lemma own_more u seen more id : own u seen id → own u (seen ++ more) id.
Proof. intros (v & Hv & E). exists v. set_solver. Qed.
Lemma set_first_ids id s l : map rj_job_id (set_first id s l) = map rj_job_id l.
Proof. induction l as [|j l IH]; [done|]. simpl. destruct (is_job id j); simpl; congruence. Qed.
Lemma ids_of (l l' : list RecentJob) (P : string → Prop) :
  map rj_job_id l' = map rj_job_id l → (∀ j, j ∈ l → P (rj_job_id j)) → ∀ j, j ∈ l' → P (rj_job_id j).
Proof.
  intros E HP j Hj. apply (list_elem_of_fmap_2 rj_job_id) in Hj. change (rj_job_id <$> l') with (map rj_job_id l') in Hj.
  rewrite E in Hj. apply list_elem_of_fmap in Hj as (j' & -> & Hj'). auto.
Qed.
Lemma in_take {A} n (x : A) l : x ∈ take n l → x ∈ l.
Proof. intros Hx. rewrite <- (take_drop n l). set_solver. Qed.
Lemma add_job_recent id printer ts st t j :
  j ∈ recent_jobs (add_job id printer ts st t) → rj_job_id j = id ∨ j ∈ recent_jobs t.
Proof.
  unfold add_job. cbn [recent_jobs]. destruct (_ <? _)%nat; [intros Hj%in_take|intros Hj];
    apply elem_of_cons in Hj as [->|]; auto.
Qed.

Lemma event_keeps_ids now e t :
  (∃ id doc u p, e = WsJob (Created id doc u p) ∧ should_process u t = true
     ∧ snd (on_event now e t) = on_job_created now id p t)
  ∨ map rj_job_id (recent_jobs (snd (on_event now e t))) = map rj_job_id (recent_jobs t)
    ∧ filter_state (snd (on_event now e t)) = filter_state t.
Proof.
  destruct e as [[id doc u p|id st u]|e]; simpl.
  - destruct (should_process u t) eqn:E; [left|by right]. by exists id, doc, u, p.
  - right. destruct (should_process u t); [|done]. unfold on_state_changed.
    destruct (shown_as st) as [[]|]; [|done]. destruct (tracked id t); [|done]. simpl. by rewrite set_first_ids.
  - right. unfold on_print_event. repeat case_match; simpl; rewrite ?set_first_ids; done.
Qed.
Lemma event_discreet now e s : discreet s →
  discreet (mkSession (snd (on_event now e (tracker s))) (told s ++ owner e)).
Proof.
  intros Hd. destruct (event_keeps_ids now e (tracker s)) as [(id & doc & u & p & -> & Hp & ->)|[Hi Hf]];
    unfold discreet in *; cbn [tracker told].
  - unfold should_process in Hp. unfold on_job_created, set_icon, add_job. cbn [filter_state].
    destruct (filter_state (tracker s)) as [| |f]; [done|done|]. destruct u as [v|]; [|done].
    intros j Hj. apply (add_job_recent id p now InProgress (tracker s)) in Hj as [->|Hj].
    + exists v. split; [set_solver|]. by apply String.eqb_eq in Hp.
    + by apply own_more, Hd.
  - rewrite Hf. destruct (filter_state (tracker s)) as [| |f]; [|done|].
    + rewrite Hd in Hi. by apply map_eq_nil in Hi.
    + apply (ids_of (recent_jobs (tracker s)) _ _ Hi). intros j Hj. by apply own_more, Hd.
Qed.

Lemma fetched_filter now rows t : filter_state (fetch_initial_jobs now rows t) = filter_state t.
Proof. induction rows as [|r rows IH]; [done|]. simpl. unfold add_fetched at 1. by destruct (_ =t? ""). Qed.
Lemma fetched_recent now rows t j : j ∈ recent_jobs (fetch_initial_jobs now (map job_row_json rows) t) →
  j ∈ recent_jobs t ∨ rj_job_id j ∈ map job_id rows.
Proof.
  induction rows as [|r rows IH]; [by left|]. simpl. unfold add_fetched at 1.
  change (text_field "id" "" (job_row_json r)) with (job_id r).
  destruct (job_id r =t? "").
  - intros Hj. destruct (IH Hj); [by left|right; set_solver].
  - intros [->|Hj]%add_job_recent; [right; set_solver|]. destruct (IH Hj); [by left|right; set_solver].
Qed.
Lemma fetched_own u rows id :
  id ∈ map job_id (fetched_rows {["limit" := "5"; "requesting_user" := u]} rows) →
  (id, Some u) ∈ rows_told (fetched_rows {["limit" := "5"; "requesting_user" := u]} rows).
Proof.
  intros Hid. apply list_elem_of_fmap in Hid as (r & -> & Hr). apply list_elem_of_fmap. exists r. split; [|done].
  unfold fetched_rows, take_z in Hr. apply in_take in Hr.
  apply list_elem_of_In, filter_In in Hr as [_ Hr]. unfold of_user in Hr. simpl in Hr.
  apply bool_decide_eq_true in Hr. by rewrite Hr.
Qed.

(** Before the session is known the tray shows nothing; on the server it shows
    only jobs it was told belong to the session's user. *)
Theorem session_shows_only_its_own s s' : rtc session_step s s' → discreet s → discreet s'.
Proof.
  induction 1 as [|s s1 s2 Hs _ IH]; [done|]. intros Hd. apply IH. clear IH. destruct Hs as [now e s|mode name s Hp|now params rows s Hp|b s].
  - by apply event_discreet.
  - unfold discreet in Hd. rewrite Hp in Hd. unfold discreet, detect. cbn [tracker told].
    destruct mode as [m|e]; [|by simpl; rewrite Hp]. destruct (m =t? "client"); [done|].
    destruct (m =t? "server"); [|by simpl; rewrite Hp]. destruct name as [u|]; [|by simpl; rewrite Hp].
    simpl. rewrite Hd. intros j Hj. set_solver.
  - unfold discreet in *. cbn [tracker told]. rewrite fetched_filter.
    destruct (filter_state (tracker s)) as [| |u]; [done|done|]. injection Hp as <-.
    intros j [Hj|Hj]%fetched_recent; [by apply own_more, Hd|]. exists u. split; [|done].
    apply elem_of_app. right. by apply fetched_own.
  - unfold discreet in *. cbn [tracker told]. unfold set_online. destruct b; [case_bool_decide|]; exact Hd.
Qed.
End tracker.

(** ** A server session *)

Module Desktop.
#[export] Existing Instance TickChrono.tick_chrono.
Definition told_of (id user : string) : WsEvent := WsJob (Created id "doc" (Some user) "hp").
Definition done_of (id user : string) : WsEvent := WsJob (StateChanged id Completed (Some user)).
Definition after (mode : string) (events : list WsEvent) : list Notice * JobTracker :=
  foldl (λ r e, let '(n, t) := on_event 0%nat e (snd r) in (fst r ++ n, t))
    ([], snd (detect (Ok mode) (Some "Jana") tracker_new)) events.
End Desktop.

Example other_users_stay_out :
  let '(notices, t) := Desktop.after "server" [Desktop.told_of "1" "jana"; Desktop.told_of "2" "peter";
                                               Desktop.done_of "1" "JANA"; Desktop.done_of "2" "peter"] in
  notices = [("Print Job Received", arrow "hp"); ("Printed ✓", arrow "hp")]
  ∧ map rj_job_id (recent_jobs t) = ["1"] ∧ icon_state t = Green.
Proof. vm_compute. auto. Qed.
(** The dashboard compares the user's name with its case, the events do not: a
    job of [jana] is shown when it comes, and missing when the tray starts. *)
Example initial_jobs_heed_the_case :
  let job := mkJobMetadata TickChrono.tick_chrono "1" "doc" "hp" None 1 "A4" false false 1 "x" Queued 0 "" (Some "jana")
               0%nat 0%nat in
  should_process (Some "jana") (snd (Desktop.after "server" [])) = true
  ∧ fetched_rows {["limit" := "5"; "requesting_user" := "Jana"]} [job] = [].
Proof. vm_compute. auto. Qed.
