(* ===== verification/Reconciler.v ===== *)
(** * The printer reconciler

    [src/crates/devbridge-server/src/printer_reconciler.rs]: the task that keeps
    the Windows printers of the server in step with the virtual printers, and the
    invoker that hands them to a PowerShell script through a file.  A pass reads
    the list, then runs the invoker, and the rest of the server works on between
    the two; the process the script runs in is the interface [Spawner]. *)

From Stdlib Require Import ZArith Ascii String Sorting.Permutation.
From stdpp Require Import gmap relations.
From S2P Require Import Prelude RustStd Text Core Sqlite Storage StorageTheory Queue QueueTheory.
From S2P Require Import Dispatch DispatchTheory Files.
#[local] Open Scope Z_scope.

Definition DEBOUNCE_MILLIS : Z := 500.
Definition SPAWN_TIMEOUT_SECS : Z := 60.
Definition SIGNAL_CHANNEL_CAPACITY : nat := 32.

(** ** The loop *)

(** Where [reconciler_loop] stands: about to read the list, running the invoker
    on it, waiting for a signal, asleep after one, or gone with the channel. *)
Inductive Phase `{Chrono} :=
| Reading
| Invoking (printers : list VirtualPrinter)
| Waiting
| Debouncing
| Exited.

(** The task: its phase and the lists its invoker was given; [failed_read] is
    whether the last read of the list failed. *)
Record Task `{Chrono} := mkTask {
  phase : Phase;
  invoked : list (list VirtualPrinter);
  failed_read : bool;
}.
Arguments mkTask {_} _ _ _.
Record Reconciler `{Chrono} := mkReconciler { rc_queue : JobQueue; rc_task : Task }.
Arguments mkReconciler {_} _ _.

Section reconciler.
Context `{Chrono}.

Definition started : Task := mkTask Reading [] false.
Definition RM (A : Type) : Type := M Reconciler string A.
Definition set_rc_queue (q : JobQueue) (r : Reconciler) : Reconciler := mkReconciler q (rc_task r).
Definition set_task (t : Task) (r : Reconciler) : Reconciler := mkReconciler (rc_queue r) t.
Definition rc_on_queue {A} (m : QM A) : RM A := zoom rc_queue set_rc_queue m.

(** [rx.recv()] and [rx.try_recv()] on the signal channel of the queue: [None]
    when no sender is left. *)
Definition recv_signal (q : JobQueue) : option (option JobQueue) :=
  match reconciler_signal q with
  | None => Some None
  | Some (O, _) => None
  | Some (S n, cap) => Some (Some (set_signal (Some (n, cap)) q))
  end.
Definition drain_signals (q : JobQueue) : JobQueue :=
  match reconciler_signal q with
  | Some (_, cap) => set_signal (Some (O, cap)) q
  | None => q
  end.

(** [do_one_invoke] up to the invoker's call, and its return with any result *)
Definition read_printers : RM unit :=
  r ← attempt (rc_on_queue Reads.list_virtual_printers);
  t ← gets rc_task;
  match r with
  | Ok vps => modify (set_task (mkTask (Invoking vps) (invoked t ++ [vps]) false))
  | Err _ => modify (set_task (mkTask Waiting (invoked t) true))
  end.
(** One step of the loop: it does nothing while it waits for a signal. *)
Definition loop_step : RM unit :=
  r ← gets (λ r, r);
  let t := rc_task r in
  match phase t with
  | Reading => read_printers
  | Invoking _ => modify (set_task (mkTask Waiting (invoked t) (failed_read t)))
  | Waiting =>
    match recv_signal (rc_queue r) with
    | None => mret tt
    | Some None => modify (set_task (mkTask Exited (invoked t) (failed_read t)))
    | Some (Some q) => modify (λ r, mkReconciler q (mkTask Debouncing (invoked t) (failed_read t)))
    end
  | Debouncing => modify (λ r, mkReconciler (drain_signals (rc_queue r)) (mkTask Reading (invoked t) (failed_read t)))
  | Exited => mret tt
  end.
End reconciler.

(** ** The invoker *)

(** [powershell.exe] run with the script, the input file and the port; its exit
    and its output are only logged. *)
Class Spawner : Type := { spawn : string → string → Z → result string unit }.
(** [serde_json::to_vec_pretty] of the printers *)
Class PrintersJson `{Chrono} : Type := { printers_json : list VirtualPrinter → result string bytes }.

Record PowerShellInvoker := mkInvoker {
  script_candidates : list string;
  ps_data_dir : string;
  ps_ipp_port : Z;
}.
Definition join_path (dir name : string) : string := dir +:+ "/" +:+ name.
Definition SCRIPT : string := "register-virtual-printers.ps1".
Definition INPUT : string := "reconcile-input.json".
(** [exe_dir] is where the running program is, when that is known. *)
Definition build_default (data_dir : string) (exe_dir : option string) (ipp_port : Z) : PowerShellInvoker :=
  mkInvoker
    (join_path data_dir SCRIPT ::
     match exe_dir with
     | Some dir => [join_path (join_path (join_path (join_path dir "_up_") "_up_") "deploy") SCRIPT;
                    join_path (join_path dir "deploy") SCRIPT; join_path dir SCRIPT]
     | None => []
     end) data_dir ipp_port.

Section invoker.
Context `{Chrono} `{Spawner} `{!PrintersJson}.
Variable ps : PowerShellInvoker.

Definition input_path : string := join_path (ps_data_dir ps) INPUT.
(** The process id and the nanoseconds of the clock name the file that is written
    first. *)
Definition tmp_path (pid nanos : Z) : string :=
  join_path (ps_data_dir ps) (INPUT +:+ "." +:+ z_to_string pid +:+ "." +:+ z_to_string nanos +:+ ".tmp").
(** [iter().find(|p| p.exists())]: an error reads as no file. *)
Definition file_exists (path : string) : M Disk IoError bool :=
  r ← attempt (io (λ fs, (Ok (bool_decide (is_Some (fs !! path))), fs)) intact : FM bool);
  mret (match r with Ok b => b | Err _ => false end).
Fixpoint find_existing (paths : list string) : FM (option string) :=
  match paths with
  | [] => mret None
  | p :: ps => b ← file_exists p; if (b : bool) then mret (Some p) else find_existing ps
  end.
Definition find_script : FM (option string) := find_existing (script_candidates ps).
(** [f.sync_all()] *)
Definition sync_all : FM unit := io (λ fs, (Ok tt, fs)) intact.
Definition io_result {A} (r : result string A) : FM A :=
  match r with Ok a => mret a | Err e => throw (Other e) end.
Definition write_input (pid nanos : Z) (printers : list VirtualPrinter) : FM unit :=
  body ← io_result (printers_json printers);
  _ ← create_file (tmp_path pid nanos);
  _ ← write_file (tmp_path pid nanos) body;
  _ ← sync_all;
  rename (tmp_path pid nanos) input_path.
Definition invoke (pid nanos : Z) (printers : list VirtualPrinter) : FM unit :=
  script ← find_script;
  match script with
  | None => mret tt
  | Some script =>
    _ ← write_input pid nanos printers;
    io_result (spawn script input_path (ps_ipp_port ps))
  end.
End invoker.

(** * What the server may do to the list of printers without a signal

    Only remove from it ([announced]): every handler respects it, so the loop
    misses no printer. *)

(** ** Announced changes *)

Section announced.
Context `{Chrono}.

Definition vps_of (q : JobQueue) : list VpRow := virtual_printers (conn (storage q)).
Definition wired (q : JobQueue) : Prop := ∃ n cap, reconciler_signal q = Some (n, S cap).
Definition pending (q : JobQueue) : Prop := ∃ n cap, reconciler_signal q = Some (S n, cap).
Definition announced (q q' : JobQueue) : Prop :=
  wired q → wired q' ∧ (pending q → pending q') ∧ (pending q' ∨ vps_of q' ⊆ vps_of q).

#[export] Instance announced_preorder : PreOrder announced.
Proof.
  split; [intros q Hw; split_and!; auto|].
  intros a b c Hab Hbc Hw. destruct (Hab Hw) as (Hb & Hp1 & Hv1).
  destruct (Hbc Hb) as (Hc & Hp2 & Hv2). split_and!; [done|auto|].
  destruct Hv2 as [|Hv2]; [by left|]. destruct Hv1 as [Hv1|Hv1]; [left; auto|].
  right. by etrans.
Qed.

(** A change of the queue that keeps the channel and adds no printer. *)
Lemma announced_frame q q' :
  reconciler_signal q' = reconciler_signal q → vps_of q' ⊆ vps_of q → announced q q'.
Proof. unfold announced, wired, pending. intros -> Hv Hw. split_and!; auto. Qed.

Definition vps_le (t t' : Tables) : Prop := virtual_printers t' ⊆ virtual_printers t.
#[export] Instance vps_le_preorder : PreOrder vps_le.
Proof. split; [intros t r Hr; exact Hr|]. intros a b c Hab Hbc. unfold vps_le in *. by etrans. Qed.

Lemma announced_on_storage {A} (m : SM A) : respects (on_conn vps_le) m → respects announced (on_storage m).
Proof.
  intros Hm q. unfold on_storage, zoom. specialize (Hm (storage q)).
  destruct (m (storage q)) as [r st]. by apply announced_frame.
Qed.

Lemma announced_modify {E} (f : JobQueue → JobQueue) :
  (∀ q, reconciler_signal (f q) = reconciler_signal q) → (∀ q, storage (f q) = storage q) →
  respects announced (modify f : M JobQueue E unit).
Proof. intros Hr Hs q. apply announced_frame; simpl; [done|]. unfold vps_of. by rewrite Hs. Qed.

(** ** The statements *)

Lemma vps_execute ctx stmt :
  (∀ t, virtual_printers (fst (stmt t)) ⊆ virtual_printers t) → respects (on_conn vps_le) (execute ctx stmt).
Proof. intros Hs. by apply respects_execute; [apply _|]. Qed.

Lemma vps_upsert_client r : respects (on_conn vps_le) (Storage.upsert_client r).
Proof. unfold Storage.upsert_client. solve_respects. by apply vps_execute. Qed.
Lemma vps_set_client_online m b : respects (on_conn vps_le) (Storage.set_client_online m b).
Proof. unfold Storage.set_client_online. solve_respects. by apply vps_execute. Qed.
Lemma vps_touch_client m : respects (on_conn vps_le) (Storage.touch_client m).
Proof. unfold Storage.touch_client. solve_respects. by apply vps_execute. Qed.
Lemma vps_all_offline : respects (on_conn vps_le) Storage.set_all_clients_offline.
Proof. unfold Storage.set_all_clients_offline. solve_respects. by apply vps_execute. Qed.
Lemma vps_update_pairing m p : respects (on_conn vps_le) (Storage.update_pairing_state m p).
Proof. unfold Storage.update_pairing_state. solve_respects. by apply vps_execute. Qed.
Lemma vps_insert_event e : respects (on_conn vps_le) (Storage.insert_job_event e).
Proof. unfold Storage.insert_job_event. solve_respects. by apply vps_execute. Qed.
Lemma vps_insert_job m p : respects (on_conn vps_le) (Storage.insert_job m p).
Proof. unfold Storage.insert_job. solve_respects. by apply vps_execute. Qed.
Lemma vps_clear_jobs : respects (on_conn vps_le) Storage.clear_jobs.
Proof. unfold Storage.clear_jobs. solve_respects; by apply vps_execute. Qed.
Lemma vps_update_state j st : respects (on_conn vps_le) (Storage.update_job_state j st).
Proof. unfold Storage.update_job_state. solve_respects. by apply vps_execute. Qed.
Lemma vps_existing_state j : respects (on_conn vps_le) (existing_state_text j).
Proof. unfold existing_state_text. solve_respects. Qed.
#[local] Hint Resolve vps_existing_state : respects.
Lemma vps_unless_terminal j st : respects (on_conn vps_le) (update_job_state_unless_terminal j st).
Proof. unfold update_job_state_unless_terminal. solve_respects. by apply vps_execute. Qed.
Lemma vps_unconfirm j : respects (on_conn vps_le) (unconfirm_completed_job j).
Proof. unfold unconfirm_completed_job. solve_respects. by apply vps_execute. Qed.
Lemma vps_requeue j d : respects (on_conn vps_le) (Storage.requeue_job j d).
Proof. unfold Storage.requeue_job. solve_respects. by apply vps_execute. Qed.
Lemma vps_delete i : respects (on_conn vps_le) (Storage.delete_virtual_printer i).
Proof.
  unfold Storage.delete_virtual_printer. solve_respects. apply vps_execute. intros t. simpl.
  intros r Hr. apply list_elem_of_In, List.filter_In in Hr as [Hr _]. by apply list_elem_of_In.
Qed.
Lemma vps_get_by_ipp i : respects (on_conn vps_le) (get_virtual_printer_by_ipp_name i).
Proof. unfold get_virtual_printer_by_ipp_name. solve_respects. Qed.
Lemma vps_resolve m : respects (on_conn vps_le) (resolve_target m).
Proof. unfold resolve_target. solve_respects. apply vps_get_by_ipp. Qed.
End announced.
#[export] Hint Resolve announced_on_storage vps_upsert_client vps_set_client_online vps_touch_client
  vps_all_offline vps_update_pairing vps_insert_event vps_insert_job vps_clear_jobs vps_update_state
  vps_existing_state vps_unless_terminal vps_unconfirm vps_requeue vps_delete vps_get_by_ipp vps_resolve
  : respects.

(** ** The queue's operations *)

Section queue_operations.
Context `{Chrono}.

Lemma announced_run {E A} (m : M JobQueue E A) :
  (∀ q, reconciler_signal (snd (m q)) = reconciler_signal q) → (∀ q, storage (snd (m q)) = storage q) →
  respects announced m.
Proof. intros Hr Hs q. apply announced_frame; [done|]. unfold vps_of. by rewrite Hs. Qed.

Lemma channel_send_signal ch x (q : JobQueue) : reconciler_signal (channel_send ch x q) = reconciler_signal q.
Proof. unfold channel_send. by destruct (channels q !! ch). Qed.

Lemma announced_emit e : respects announced (emit_event e).
Proof. by apply announced_modify. Qed.
Lemma announced_register m c : respects announced (register_client m c).
Proof. by apply announced_run. Qed.
Lemma announced_unregister m c : respects announced (unregister_client m c).
Proof.
  apply announced_modify; intros q;
    (destruct (client_channels q !! m) as [[i ch]|]; [by destruct (i =t? c)|done]).
Qed.
Lemma announced_is_active m c : respects announced (is_active_connection m c).
Proof. apply respects_gets, _. Qed.
Lemma announced_try_recv ch : respects announced (channel_try_recv ch).
Proof.
  apply announced_run; intros q; unfold channel_try_recv; by destruct (channels q !! ch) as [[]|].
Qed.
Lemma announced_next_job : respects announced next_job.
Proof. apply announced_run; intros q; unfold next_job; by destruct (default_pending q). Qed.
Lemma announced_route c j : respects announced (route_to_client c j).
Proof.
  apply announced_modify; intros q; (destruct (client_channels q !! c) as [[i ch]|]; [|done]).
  - apply channel_send_signal.
  - apply channel_send_storage.
Qed.
Lemma announced_default j : respects announced (push_default j).
Proof. by apply announced_modify. Qed.
#[local] Hint Resolve announced_emit announced_route announced_default : respects.

Lemma announced_requesting_user j : respects announced (requesting_user_of j).
Proof. unfold requesting_user_of. solve_respects. Qed.
#[local] Hint Resolve announced_requesting_user : respects.
Lemma announced_drain c : respects announced (drain_pending_for_client c).
Proof.
  unfold drain_pending_for_client. solve_respects.
  apply announced_on_storage. unfold get_queued_jobs_for_client. solve_respects.
Qed.
Lemma announced_event e : respects announced (insert_job_event e).
Proof. unfold insert_job_event. solve_respects. Qed.
#[local] Hint Resolve announced_event : respects.
Lemma announced_push meta path : respects announced (push meta path).
Proof.
  unfold push. solve_respects. apply announced_on_storage. solve_respects.
Qed.
Lemma announced_update_state j st : respects announced (update_state j st).
Proof. unfold update_state. solve_respects. Qed.
Lemma announced_unless_terminal j st : respects announced (update_state_unless_terminal j st).
Proof. unfold update_state_unless_terminal. solve_respects. Qed.
Lemma announced_unconfirm j : respects announced (unconfirm_completed j).
Proof. unfold unconfirm_completed. solve_respects. Qed.
Lemma announced_requeue j d : respects announced (requeue_job j d).
Proof. unfold requeue_job. solve_respects. Qed.
Lemma announced_stale t : respects announced (get_stale_jobs t).
Proof.
  unfold get_stale_jobs. solve_respects. apply announced_on_storage. unfold Storage.get_stale_jobs. solve_respects.
Qed.
Lemma announced_clear : respects announced clear_jobs.
Proof. unfold clear_jobs. solve_respects. Qed.
Lemma announced_pairing m p : respects announced (update_pairing_state m p).
Proof. unfold update_pairing_state. solve_respects. Qed.
Lemma announced_delete i : respects announced (delete_virtual_printer i).
Proof. unfold delete_virtual_printer. solve_respects. Qed.

(** An insert or an update that was done sends a signal; the channel is not
    empty then, full or not. *)
Lemma signal_pending (q q' : JobQueue) u : wired q → signal_reconciler q = (Ok u, q') →
  wired q' ∧ pending q' ∧ vps_of q' = vps_of q.
Proof.
  intros (n & cap & Hw) [= _ <-]. unfold wired, pending. simpl. rewrite Hw. simpl.
  destruct (Nat.ltb_spec n (S cap)); split_and!; eauto.
  destruct n as [|n]; [lia|]. eauto.
Qed.
Lemma announced_change {A} (m : SM A) :
  (∀ s e s', m s = (Err e, s') → virtual_printers (conn s') ⊆ virtual_printers (conn s)) →
  respects announced (_ ← on_storage m; signal_reconciler : QM unit).
Proof.
  intros Herr q. unfold mbind, M_bind, on_storage, zoom.
  destruct (m (storage q)) as [[a|e] st] eqn:Em; simpl.
  - intros Hw. assert (wired (set_storage st q)) as Hw1 by exact Hw.
    destruct (signal_pending (set_storage st q) _ tt Hw1 eq_refl) as (? & ? & _). auto.
  - apply announced_frame; [done|]. exact (Herr _ _ _ Em).
Qed.
Lemma announced_insert vp : respects announced (insert_virtual_printer vp).
Proof.
  unfold insert_virtual_printer. apply announced_change. intros s e s'.
  unfold Storage.insert_virtual_printer, execute_checked, mbind, M_bind.
  destruct (engine_cases ("failed to insert virtual printer " +:+ vp_id vp) s) as [(s1 & -> & Hc & _)|(s1 & -> & Hc)]; simpl.
  - destruct (existsb _ _); [|done]. intros [= _ <-]. by rewrite Hc.
  - intros [= _ <-]. by rewrite Hc.
Qed.
Lemma sql_update_nothing (p : VpRow → bool) f rows : snd (sql_update p f rows) = 0 → fst (sql_update p f rows) = rows.
Proof.
  simpl. intros Hn. induction rows as [|r rows IH]; simpl in *; [done|].
  destruct (p r); simpl in *; [lia|]. f_equal. by apply IH.
Qed.
Lemma announced_update vp : respects announced (update_virtual_printer vp).
Proof.
  unfold update_virtual_printer. apply announced_change. intros s e s'.
  unfold Storage.update_virtual_printer, execute_checked, mbind, M_bind. rewrite utc_now_run.
  set (s0 := {| conn := conn s |}). change (conn s) with (conn s0).
  destruct (engine_cases ("failed to update virtual printer " +:+ vp_id vp) s0) as [(s1 & -> & Hc & _)|(s1 & -> & Hc)]; simpl.
  2: { intros [= _ <-]. by rewrite Hc. }
  destruct (_ && _); [intros [= _ <-]; by rewrite Hc|]. simpl.
  set (p := vp_by_id _). set (f := vp_set _ _).
  pose proof (sql_update_nothing p f (virtual_printers (conn s1))) as Hn. simpl in Hn.
  destruct (Z.eqb_spec (Z.of_nat (length (List.filter p (virtual_printers (conn s1))))) 0) as [E|E]; [|done].
  intros [= _ <-]. simpl. rewrite (Hn E). by rewrite Hc.
Qed.
End queue_operations.
#[export] Hint Resolve announced_emit announced_register announced_unregister announced_is_active
  announced_try_recv announced_next_job announced_route announced_default announced_requesting_user
  announced_drain announced_event announced_push announced_update_state announced_unless_terminal
  announced_unconfirm announced_requeue announced_stale announced_clear announced_pairing
  announced_delete announced_insert announced_update : respects.

(** ** The service's steps *)

Definition sannounced `{Chrono} (s s' : Service) : Prop := announced (queue s) (queue s').
#[export] Instance sannounced_preorder `{Chrono} : PreOrder sannounced.
Proof. split; [intros s; unfold sannounced; reflexivity|]. intros a b c. unfold sannounced. by etrans. Qed.

Section service_steps.
Context `{Chrono}.

Lemma sannounced_zoom {E A} (m : M JobQueue E A) :
  respects announced m → respects sannounced (zoom queue set_queue m).
Proof. intros Hm. by eapply respects_zoom; [|exact Hm]. Qed.
Lemma sannounced_on_queue {A} f (m : QM A) : respects announced m → respects sannounced (on_queue f m).
Proof. intros Hm. by apply sannounced_zoom, respects_map_err. Qed.
Lemma sannounced_try_queue {A} (m : QM A) : respects announced m → respects sannounced (try_queue m).
Proof. intros Hm. by apply respects_attempt, sannounced_zoom. Qed.
Lemma sannounced_ignore_queue {A} (m : QM A) : respects announced m → respects sannounced (ignore_queue m).
Proof. intros Hm. by apply respects_ignore, sannounced_zoom. Qed.
Lemma sannounced_now : respects sannounced now_.
Proof. apply sannounced_zoom, respects_map_err, announced_on_storage. eauto with respects typeclass_instances. Qed.
Lemma sannounced_modify {E} (f : Service → Service) :
  (∀ s, queue (f s) = queue s) → respects sannounced (modify f : M Service E unit).
Proof. intros Hf s. unfold sannounced. simpl. rewrite Hf. reflexivity. Qed.
Lemma sannounced_send cid j : respects sannounced (stream_send cid j).
Proof.
  intros s. unfold stream_send, sannounced. destruct (streams s !! cid) as [st|]; [|reflexivity].
  destruct (st_client_gone st); reflexivity.
Qed.
End service_steps.
#[export] Hint Resolve sannounced_on_queue sannounced_try_queue sannounced_ignore_queue sannounced_now
  sannounced_send : respects.

Ltac announced_steps :=
  solve_respects;
  repeat first [ apply sannounced_try_queue | apply sannounced_on_queue | apply sannounced_ignore_queue
               | by apply sannounced_modify
               | apply announced_on_storage; solve [unfold Storage.get_client; solve_respects]
               | progress solve_respects ].

Section server.
Context `{EventJson}.

Lemma sannounced_send_job cid j : respects sannounced (send_job cid j).
Proof. unfold send_job. announced_steps. Qed.
#[local] Hint Resolve sannounced_send_job : respects.

Lemma announced_get_client m : respects announced (get_client m).
Proof. unfold get_client. apply announced_on_storage. unfold Storage.get_client. solve_respects. Qed.
Lemma announced_upsert r : respects announced (upsert_client r).
Proof. unfold upsert_client. solve_respects. Qed.
Lemma announced_online m b : respects announced (set_client_online m b).
Proof. unfold set_client_online. solve_respects. Qed.
Lemma announced_touch m : respects announced (touch_client m).
Proof. unfold touch_client. solve_respects. Qed.
#[local] Hint Resolve announced_get_client announced_upsert announced_online announced_touch : respects.

Lemma sannounced_subscribe cid peer ident : respects sannounced (subscribe_jobs cid peer ident).
Proof. unfold subscribe_jobs. announced_steps. Qed.
Lemma sannounced_turn st : respects sannounced (delivery_turn st).
Proof. unfold delivery_turn. announced_steps. Qed.
Lemma sannounced_select st : respects sannounced (delivery_select_recv st).
Proof. unfold delivery_select_recv. announced_steps. Qed.
Lemma sannounced_disconnect st : respects sannounced (disconnect st).
Proof. unfold disconnect. announced_steps. Qed.
Lemma sannounced_status us : respects sannounced (report_status us).
Proof. unfold report_status, apply_status_update. announced_steps. Qed.
Lemma sannounced_complete c : respects sannounced (complete_job c).
Proof.
  unfold complete_job, record_mismatch, complete_success, complete_unconfirmed, complete_failed,
    late_failure, retry_or_give_up, schedule_retry. announced_steps.
Qed.
Lemma sannounced_retry n : respects sannounced (fire_retry n).
Proof. unfold fire_retry. announced_steps. Qed.
Lemma sannounced_reaper t : respects sannounced (reaper_tick t).
Proof. unfold reaper_tick. announced_steps. Qed.
Lemma sannounced_heartbeat m ts : respects sannounced (heartbeat_ping m ts).
Proof. unfold heartbeat_ping. announced_steps. Qed.

Lemma server_step_announced s s' : server_step s s' → sannounced s s'.
Proof.
  destruct 1.
  - by apply sannounced_ignore_queue, announced_push.
  - apply sannounced_subscribe.
  - apply sannounced_turn.
  - apply sannounced_select.
  - by apply announced_frame.
  - apply sannounced_disconnect.
  - apply sannounced_status.
  - apply sannounced_complete.
  - apply sannounced_retry.
  - apply sannounced_reaper.
  - apply sannounced_heartbeat.
  - by apply sannounced_ignore_queue, announced_pairing.
  - by apply sannounced_ignore_queue, announced_insert.
  - by apply sannounced_ignore_queue, announced_update.
  - by apply sannounced_ignore_queue, announced_delete.
Qed.
End server.
