(* ===== verification/FrontTheory.v ===== *)
(** * Theory of the capture and of the dashboard

    What the IPP handler and the dashboard's handlers do to the service they
    share with its streams.  An order of the service that a read of the store, an
    event, a change of the printers, of a pairing and a push of a fresh job respect
    ([QueueOrder], [ServiceOrder]) is respected by every handler but the clearing
    of the jobs; the safety order of [DispatchTheory.v] and the announced changes
    of [Reconciler.v] are two such orders. *)

From Stdlib Require Import ZArith String Sorting.Permutation.
From stdpp Require Import gmap relations.
From S2P Require Import Prelude RustStd Text Config Core Sqlite Storage StorageTheory Queue QueueTheory.
From S2P Require Import Dispatch DispatchTheory Json Files ConfigFile LanApi Capture Dashboard Reconciler.
#[local] Open Scope Z_scope.

(** ** The orders the handlers respect *)

Class QueueOrder `{Chrono} (R : relation JobQueue) : Prop := {
  qo_preorder :: PreOrder R;
  qo_read {A} (m : SM A) : respects (on_conn eq) m → respects R (on_storage m);
  qo_event e : respects R (insert_job_event e);
  qo_offline : respects R Reads.set_all_clients_offline;
  qo_insert vp : respects R (Queue.insert_virtual_printer vp);
  qo_update vp : respects R (Queue.update_virtual_printer vp);
  qo_delete i : respects R (Queue.delete_virtual_printer i);
  qo_pairing m p : respects R (Queue.update_pairing_state m p);
  qo_push meta path q : job_row (job_id meta) (conn (storage q)) = None → R q (snd (push meta path q));
}.
Class ServiceOrder `{Chrono} (R : relation JobQueue) (S : relation Service) : Prop := {
  so_preorder :: PreOrder S;
  so_queue s q : R (queue s) q → S s (set_queue q s);
}.

Lemma respects_reads `{Chrono} {Tables A} (R : relation Tables) `{!PreOrder R} (m : SqlM Tables A) :
  respects (on_conn eq) m → respects (on_conn R) m.
Proof. intros Hm s. unfold on_conn. rewrite (Hm s). reflexivity. Qed.
Lemma offline_le `{Chrono} : respects (on_conn (jobs_le row_le)) Storage.set_all_clients_offline.
Proof. unfold Storage.set_all_clients_offline. solve_respects. apply respects_other; [apply _|done]. Qed.

#[export] Instance qle_order `{Chrono} : QueueOrder (on_store (jobs_le row_le)).
Proof.
  split.
  - apply _.
  - intros A m Hm. apply respects_on_storage; try apply _. apply respects_reads; [apply _|done].
  - intros e. apply queue_insert_event_le.
  - apply respects_on_storage; try apply _. apply offline_le.
  - intros vp. unfold Queue.insert_virtual_printer. solve_respects.
  - intros vp. unfold Queue.update_virtual_printer. solve_respects.
  - intros i. unfold Queue.delete_virtual_printer. solve_respects.
  - intros m p. unfold Queue.update_pairing_state. solve_respects.
  - intros meta path q. apply push_le.
Qed.
#[export] Instance announced_order `{Chrono} : QueueOrder announced.
Proof.
  split.
  - apply _.
  - intros A m Hm. apply announced_on_storage. apply respects_reads; [apply _|done].
  - apply announced_event.
  - apply announced_on_storage, vps_all_offline.
  - apply announced_insert.
  - apply announced_update.
  - apply announced_delete.
  - apply announced_pairing.
  - intros meta path q _. apply announced_push.
Qed.
#[export] Instance server_order `{Chrono} : ServiceOrder (on_store (jobs_le row_le)) server_le.
Proof. split; [apply _|]. intros s q. apply set_queue_le. Qed.
#[export] Instance sannounced_order `{Chrono} : ServiceOrder announced sannounced.
Proof. by split; [apply _|]. Qed.

Definition on_front_service `{Chrono} (S : relation Service) : relation Front :=
  λ f f', S (fr_service f) (fr_service f').
Definition on_dash `{Chrono} (S : relation Service) : relation Dash :=
  λ d d', S (fr_service (da_front d)) (fr_service (da_front d')).
#[export] Instance on_front_preorder `{Chrono} (S : relation Service) `{!PreOrder S} : PreOrder (on_front_service S).
Proof. split; [intros f; unfold on_front_service; reflexivity|]. intros a b c. unfold on_front_service. by etrans. Qed.
#[export] Instance on_dash_preorder `{Chrono} (S : relation Service) `{!PreOrder S} : PreOrder (on_dash S).
Proof. split; [intros d; unfold on_dash; reflexivity|]. intros a b c. unfold on_dash. by etrans. Qed.

(** ** Reads *)

Section reads.
Context `{Chrono}.
Lemma reads_get_job j : respects (on_conn eq) (Storage.get_job j).
Proof. unfold Storage.get_job. solve_respects. Qed.
Lemma reads_all_jobs : respects (on_conn eq) Storage.get_all_jobs.
Proof. unfold Storage.get_all_jobs. solve_respects. Qed.
Lemma reads_today : respects (on_conn eq) Storage.count_jobs_today.
Proof. unfold Storage.count_jobs_today. solve_respects. Qed.
Lemma reads_active : respects (on_conn eq) Storage.count_active_jobs.
Proof. unfold Storage.count_active_jobs. solve_respects. Qed.
Lemma reads_spool j : respects (on_conn eq) (Storage.get_spool_path j).
Proof. unfold Storage.get_spool_path. solve_respects. Qed.
Lemma reads_vp i : respects (on_conn eq) (Storage.get_virtual_printer i).
Proof. unfold Storage.get_virtual_printer. solve_respects. Qed.
Lemma reads_vps : respects (on_conn eq) Storage.list_virtual_printers.
Proof. unfold Storage.list_virtual_printers. solve_respects. Qed.
Lemma reads_clients : respects (on_conn eq) Storage.list_clients.
Proof. unfold Storage.list_clients. solve_respects. Qed.
Lemma reads_client m : respects (on_conn eq) (Storage.get_client m).
Proof. unfold Storage.get_client. solve_respects. Qed.
Lemma reads_events j : respects (on_conn eq) (Storage.get_job_events j).
Proof. unfold Storage.get_job_events. solve_respects. Qed.
Lemma reads_all_events : respects (on_conn eq) Storage.get_all_job_events.
Proof. unfold Storage.get_all_job_events. solve_respects. Qed.
Lemma reads_now : respects (on_conn eq) (utc_now (Tables := Tables)).
Proof. apply respects_utc_now, _. Qed.
End reads.
#[export] Hint Resolve reads_get_job reads_all_jobs reads_today reads_active reads_spool reads_vp reads_vps
  reads_clients reads_client reads_events reads_all_events reads_now : respects.

(** ** Every handler respects the order *)

Section lift.
Context `{Chrono} `{IppLibrary}.
Context (R : relation JobQueue) (S : relation Service) `{!ServiceOrder R S}.
Hypothesis R_now : respects R (on_storage utc_now).

Lemma front_on_q {A} (m : QM A) : respects R m → respects (on_front_service S) (on_q m).
Proof.
  intros Hm. eapply respects_zoom; [|exact Hm]. intros f q Hq. by apply so_queue.
Qed.
Lemma front_on_d {A} (m : FM A) : respects (on_front_service S) (on_d m).
Proof.
  intros f. unfold on_d, map_err, zoom, on_front_service. by destruct (m (fr_disk f)) as [[]].
Qed.
Lemma front_modify_ipp {E} (g : Front → IppServer) :
  respects (on_front_service S) (modify (λ f, set_ipp (g f) f) : M Front E unit).
Proof. intros f. unfold on_front_service. simpl. reflexivity. Qed.
Lemma front_add_printer vp : respects (on_front_service S) (add_printer vp).
Proof. intros f. unfold add_printer, on_front_service. by destruct (printer_info _). Qed.
Lemma front_remove_printer i : respects (on_front_service S) (remove_printer i).
Proof. intros f. unfold on_front_service. simpl. reflexivity. Qed.
Lemma front_now : respects (on_front_service S) utc_now_q.
Proof. by apply front_on_q. Qed.
Lemma front_exists p : respects (on_front_service S) (path_exists p).
Proof. unfold path_exists. solve_respects. apply front_on_d. Qed.
Lemma front_listener n : respects (on_front_service S) (start_listener n).
Proof.
  unfold start_listener. solve_respects; [apply front_on_d|]. apply front_modify_ipp.
Qed.

Lemma dash_on_front {A} to (m : FRM A) : respects (on_front_service S) m → respects (on_dash S) (on_front to m).
Proof. intros Hm. eapply respects_zoom; [|by apply respects_map_err]. done. Qed.
Lemma dash_looked {A} (m : FRM A) : respects (on_front_service S) m → respects (on_dash S) (looked m).
Proof. intros Hm. eapply respects_zoom; [|by apply respects_attempt]. done. Qed.
Lemma dash_queue {A} to (m : QM A) : respects R m → respects (on_dash S) (front_queue_or to m).
Proof. intros Hm. by apply dash_on_front, front_on_q. Qed.
Lemma dash_now : respects (on_dash S) now_a.
Proof. apply dash_on_front, front_now. Qed.
End lift.

(** ** The handlers that push no job *)

Section handlers.
Context `{Chrono} `{IppLibrary} `{UnicodeTables} `{Toml}.
Context (R : relation JobQueue) (S : relation Service) `{!QueueOrder R} `{!ServiceOrder R S}.
Variable app : AppState.
Abbreviation RD := (respects (on_dash S)).

Lemma now_R : respects R (on_storage utc_now).
Proof. apply qo_read, reads_now. Qed.
Lemma dash_read {A} (m : SM A) : respects (on_conn eq) m → RD (looked (on_q (on_storage m))).
Proof. intros Hm. apply (dash_looked S), (front_on_q R S), qo_read, Hm. Qed.
Lemma dash_read_or {A} to (m : SM A) : respects (on_conn eq) m → RD (front_queue_or to (on_storage m)).
Proof. intros Hm. apply (dash_queue R S), qo_read, Hm. Qed.
Lemma dash_clock : RD now_a.
Proof. apply (dash_now R S), now_R. Qed.
Lemma dash_needs a : RD (needs_queue app a).
Proof. unfold needs_queue. destruct (app_queue app); solve_respects. Qed.
Lemma dash_or_answer {A} (o : option A) a : RD (or_answer o a).
Proof. unfold or_answer. destruct o; solve_respects. Qed.
Lemma dash_with_ipp m : respects (on_front_service S) m → RD (with_ipp app m).
Proof. intros Hm. unfold with_ipp. destruct (app_ipp_server app); solve_respects. by apply (dash_looked S). Qed.
Lemma dash_pairing i p : RD (set_pairing i p).
Proof. apply (dash_queue R S), qo_pairing. Qed.
Lemma dash_known_client i : RD (known_client i).
Proof. unfold known_client. solve_respects. apply dash_read, reads_client. Qed.
Lemma dash_known_printer i : RD (known_printer i).
Proof. unfold known_printer. solve_respects; [apply dash_read_or, reads_vp|apply dash_or_answer]. Qed.
#[local] Hint Resolve dash_read dash_read_or dash_clock dash_needs dash_or_answer dash_with_ipp dash_pairing
  dash_known_client dash_known_printer : respects.

Lemma approve_respects i v : RD (approve_client app i v).
Proof.
  unfold approve_client, approval_printer. solve_respects.
  - apply (dash_looked S), (front_on_q R S), qo_insert.
  - apply dash_with_ipp, (front_add_printer R S).
Qed.
Lemma reject_respects i : RD (reject_client app i).
Proof. unfold reject_client. solve_respects. Qed.
Lemma create_respects v body : RD (create_virtual_printer app v body).
Proof.
  unfold create_virtual_printer. solve_respects.
  - apply (dash_queue R S), qo_insert.
  - apply dash_with_ipp, (front_add_printer R S).
Qed.
Lemma update_respects i body : RD (update_virtual_printer app i body).
Proof.
  unfold update_virtual_printer. solve_respects.
  - apply (dash_queue R S), qo_update.
  - apply dash_with_ipp, (front_remove_printer R S).
  - apply dash_with_ipp, (front_add_printer R S).
Qed.
Lemma delete_respects i : RD (delete_virtual_printer app i).
Proof.
  unfold delete_virtual_printer. solve_respects.
  - apply (dash_queue R S), qo_delete.
  - apply dash_with_ipp, (front_remove_printer R S).
Qed.
Lemma set_target_respects n : RD (set_target app n).
Proof.
  unfold set_target. solve_respects.
  - intros d. unfold on_dash. simpl. reflexivity.
  - intros d. unfold zoom, on_dash. destruct (update_target_printer _ _ _) as [r k]. simpl. reflexivity.
Qed.
Lemma get_jobs_respects ps : RD (get_jobs app ps).
Proof. unfold get_jobs. solve_respects. Qed.
Lemma get_events_respects j : RD (get_job_events app j).
Proof. unfold get_job_events. solve_respects. Qed.
Lemma get_batch_respects : RD (get_all_events_batch app).
Proof. unfold get_all_events_batch. solve_respects. Qed.
Lemma list_clients_respects : RD (list_clients app).
Proof. unfold list_clients. solve_respects. Qed.
Lemma list_printers_respects : RD (list_virtual_printers app).
Proof. unfold list_virtual_printers. solve_respects. Qed.
Lemma status_respects u : RD (get_status app u).
Proof.
  unfold get_status, counted_or_zero. destruct (app_queue app); solve_respects.
Qed.
End handlers.

(** ** Captures and reprints: a push of a fresh job *)

Definition same_jobs `{Chrono} (s s' : Service) : Prop := jobs (tables s') = jobs (tables s).
Definition quiet_queue `{Chrono} (R : relation JobQueue) : relation JobQueue :=
  λ q q', R q q' ∧ jobs (conn (storage q')) = jobs (conn (storage q)).
Definition quiet_service `{Chrono} (S : relation Service) : relation Service := λ s s', S s s' ∧ same_jobs s s'.
#[export] Instance quiet_service_preorder `{Chrono} (S : relation Service) `{!PreOrder S} : PreOrder (quiet_service S).
Proof.
  split; [intros s; split; [reflexivity|done]|]. intros a b c [H1 H2] [H3 H4]. split; [by etrans|].
  unfold same_jobs in *. congruence.
Qed.
#[export] Instance quiet_order `{Chrono} (R : relation JobQueue) (S : relation Service) `{!ServiceOrder R S} :
  ServiceOrder (quiet_queue R) (quiet_service S).
Proof. split; [apply _|]. intros s q [Hq Hj]. split; [by apply so_queue|done]. Qed.

(** [fresh_le get S j]: the order holds when the job [j] is not in the store. *)
Definition fresh_le `{Chrono} {St} (get : St → Service) (S : relation Service) (j : string) : relation St :=
  λ x x', job_row j (tables (get x)) = None → S (get x) (get x').

Section fresh.
Context `{Chrono} {St : Type} (get : St → Service) (S : relation Service) `{!PreOrder S} (j : string).
Abbreviation FR := (respects (fresh_le get S j)).
Abbreviation QR := (respects (λ x x', quiet_service S (get x) (get x'))).

Lemma fresh_weaken {E A} (m : M St E A) : QR m → FR m.
Proof. intros Hm x _. apply Hm. Qed.
Lemma fresh_bind {E A B} (m : M St E A) (f : A → M St E B) : QR m → (∀ a, FR (f a)) → FR (m ≫= f).
Proof.
  intros Hm Hf x Hj. destruct (Hm x) as [Hs Hsame]. unfold mbind, M_bind.
  destruct (m x) as [[a|e] x1]; simpl in *; [|done]. etrans; [exact Hs|]. apply Hf.
  unfold job_row in *. unfold same_jobs in Hsame. by rewrite Hsame.
Qed.
Lemma fresh_then {E A B} (m : M St E A) (f : A → M St E B) :
  FR m → (∀ a, respects (λ x x', S (get x) (get x')) (f a)) → FR (m ≫= f).
Proof.
  intros Hm Hf x Hj. specialize (Hm x Hj). unfold mbind, M_bind.
  destruct (m x) as [[a|e] x1]; simpl in *; [|done]. etrans; [exact Hm|apply Hf].
Qed.
End fresh.

Section pushes.
Context `{Chrono} `{Sha256} `{IppLibrary} `{UnicodeTables}.
Context (R : relation JobQueue) (S : relation Service) `{!QueueOrder R} `{!ServiceOrder R S}.
Variable app : AppState.

Lemma quiet_read {A} (m : SM A) : respects (on_conn eq) m → respects (quiet_queue R) (on_storage m).
Proof.
  intros Hm q. split; [by apply qo_read|]. unfold on_storage, zoom. specialize (Hm (storage q)).
  unfold on_conn in Hm. destruct (m (storage q)) as [r st]. simpl in *. by rewrite Hm.
Qed.
Lemma quiet_event e : respects (quiet_queue R) (insert_job_event e).
Proof.
  intros q. split; [apply qo_event|]. unfold insert_job_event, on_storage, zoom.
  pose proof (insert_job_event_conn e (storage q)) as Hc.
  by destruct (Storage.insert_job_event e (storage q)) as [r st].
Qed.
Lemma front_push meta path :
  respects (fresh_le fr_service S (job_id meta)) (on_q (push meta path)).
Proof.
  intros f Hf. unfold on_q, zoom. pose proof (qo_push meta path (front_queue f) Hf) as Hp.
  destruct (push meta path (front_queue f)) as [r q]. by apply so_queue.
Qed.
Lemma quiet_now : respects (on_front_service (quiet_service S)) utc_now_q.
Proof. apply (front_now (quiet_queue R) (quiet_service S)), quiet_read, reads_now. Qed.

Lemma handle_respects spool id d printer :
  respects (fresh_le fr_service S id) (handle_document spool id d printer).
Proof.
  unfold handle_document. destruct (d_payload d) as [payload|e].
  2: { intros f _. unfold on_front_service. simpl. reflexivity. }
  apply fresh_bind; [apply _|apply (front_on_d (quiet_queue R) (quiet_service S))|intros _].
  apply fresh_bind; [apply _|apply quiet_now|intros now].
  apply fresh_bind; [apply _|apply quiet_now|intros event_now].
  apply fresh_bind; [apply _|apply (front_on_q (quiet_queue R) (quiet_service S)), quiet_event|intros _].
  apply (front_push (captured_job id d printer payload now)).
Qed.
Lemma ipp_respects spool id d path :
  respects (fresh_le fr_service S id) (ipp_request spool id d path).
Proof.
  unfold ipp_request. apply fresh_bind; [apply _| |intros srv].
  - intros f. simpl. reflexivity.
  - destruct (default_service srv); [apply handle_respects|]. intros f _. simpl. reflexivity.
Qed.

Definition dash_service (d : Dash) : Service := fr_service (da_front d).
Abbreviation QD := (respects (on_dash (quiet_service S))).
Lemma quiet_needs a : QD (needs_queue app a).
Proof. apply (dash_needs (quiet_queue R) (quiet_service S)). Qed.
Lemma quiet_read_or {A} to (m : SM A) : respects (on_conn eq) m → QD (front_queue_or to (on_storage m)).
Proof. intros Hm. apply (dash_queue (quiet_queue R) (quiet_service S)), quiet_read, Hm. Qed.
Lemma quiet_clock : QD now_a.
Proof. apply (dash_now (quiet_queue R) (quiet_service S)), quiet_read, reads_now. Qed.
Lemma quiet_disk {A} to (m : FM A) : QD (on_front to (on_d m)).
Proof. apply (dash_on_front (quiet_service S)), (front_on_d (quiet_queue R) (quiet_service S)). Qed.
Lemma dash_push to meta path :
  respects (fresh_le dash_service S (job_id meta)) (front_queue_or to (push meta path)).
Proof.
  intros d Hf. unfold front_queue_or, on_front, zoom, map_err. pose proof (front_push meta path (da_front d) Hf) as Hp.
  destruct (on_q (push meta path) (da_front d)) as [[a|e] f]; exact Hp.
Qed.
Lemma reprint_respects id new_id : respects (fresh_le dash_service S new_id) (reprint_job app id new_id).
Proof.
  unfold reprint_job. apply fresh_bind; [apply _|apply quiet_needs|intros _].
  apply fresh_bind; [apply _|apply quiet_read_or, reads_get_job|intros found].
  apply fresh_bind; [apply _|apply (dash_or_answer (quiet_queue R) (quiet_service S))|intros original].
  apply fresh_bind; [apply _|apply quiet_clock|intros now]. cbv zeta.
  destruct (_ <? _); [intros d _; simpl; reflexivity|].
  apply fresh_bind; [apply _|apply quiet_read_or, reads_spool|intros path].
  apply fresh_bind; [apply _|apply (dash_or_answer (quiet_queue R) (quiet_service S))|intros sp].
  apply fresh_bind; [apply _| |intros there].
  { apply (dash_on_front (quiet_service S)), (front_exists (quiet_queue R) (quiet_service S)). }
  destruct (negb there); [intros d _; simpl; reflexivity|].
  apply fresh_bind; [apply _|apply quiet_clock|intros now'].
  apply fresh_bind; [apply _|apply quiet_disk|intros _].
  apply fresh_then; [apply _|apply (dash_push _ (reprint_of original new_id now'))|].
  intros _ d. simpl. reflexivity.
Qed.
End pushes.

(** ** The server with its front: one step *)

Section system.
Context `{EventJson} `{Sha256} `{IppLibrary} `{UnicodeTables} `{Toml}.
Variable app : AppState.

Definition with_service (s : Service) (d : Dash) : Dash := set_front (set_service s (da_front d)) d.
Definition on_dash_front (m : FRM unit) (d : Dash) : Dash := set_front (snd (m (da_front d))) d.
(** A step of the service, a captured document, the start of the listener, or a
    request of the dashboard other than the clearing of the jobs. *)
Inductive front_step : Dash → Dash → Prop :=
| front_service s d : server_step (dash_service d) s → front_step d (with_service s d)
| front_capture spool id doc path d :
    job_row id (tables (dash_service d)) = None →
    front_step d (on_dash_front (ipp_request spool id doc path) d)
| front_listen first d : front_step d (on_dash_front (start_listener first) d)
| front_reprint id new_id d :
    job_row new_id (tables (dash_service d)) = None →
    front_step d (snd (answered (reprint_job app id new_id) d))
| front_approve id vp d : front_step d (snd (answered (approve_client app id vp) d))
| front_reject id d : front_step d (snd (answered (reject_client app id) d))
| front_create vp body d : front_step d (snd (answered (create_virtual_printer app vp body) d))
| front_update id body d : front_step d (snd (answered (update_virtual_printer app id body) d))
| front_delete id d : front_step d (snd (answered (delete_virtual_printer app id) d))
| front_target n d : front_step d (snd (answered (set_target app n) d))
| front_jobs ps d : front_step d (snd (answered (get_jobs app ps) d))
| front_events j d : front_step d (snd (answered (get_job_events app j) d))
| front_batch d : front_step d (snd (answered (get_all_events_batch app) d))
| front_clients d : front_step d (snd (answered (list_clients app) d))
| front_printers d : front_step d (snd (answered (list_virtual_printers app) d))
| front_status u d : front_step d (snd (answered (get_status app u) d)).

Lemma answered_snd m d : snd (answered m d) = snd (m d).
Proof. unfold answered. by destruct (m d) as [[]]. Qed.

(** Every step respects an order that every step of the service respects. *)
Lemma front_step_respects (R : relation JobQueue) (S : relation Service) `{!QueueOrder R} `{!ServiceOrder R S} d d' :
  (∀ s s', server_step s s' → S s s') → front_step d d' → S (dash_service d) (dash_service d').
Proof.
  intros HS. destruct 1; rewrite ?answered_snd.
  - by apply HS.
  - apply (ipp_respects R S spool id doc path). done.
  - apply (front_listener R S). 
  - apply (reprint_respects R S). done.
  - apply (approve_respects R S).
  - apply (reject_respects R S).
  - apply (create_respects R S).
  - apply (update_respects R S).
  - apply (delete_respects R S).
  - apply (set_target_respects R S).
  - apply (get_jobs_respects R S).
  - apply (get_events_respects R S).
  - apply (get_batch_respects R S).
  - apply (list_clients_respects R S).
  - apply (list_printers_respects R S).
  - apply (status_respects R S).
Qed.
Lemma front_step_le d d' : front_step d d' → server_le (dash_service d) (dash_service d').
Proof. apply (front_step_respects (on_store (jobs_le row_le)) server_le). apply server_step_le. Qed.
Lemma front_step_announced d d' : front_step d d' → sannounced (dash_service d) (dash_service d').
Proof. apply (front_step_respects announced sannounced). apply server_step_announced. Qed.
Lemma front_steps_le d d' : rtc front_step d d' → server_le (dash_service d) (dash_service d').
Proof. induction 1 as [|a b c Hab _ IH]; [reflexivity|]. etrans; [by apply front_step_le|done]. Qed.
End system.
