(* ===== verification/FrontOutcomes.v ===== *)
(** * Outcomes of the capture and of the dashboard's handlers

    What a capture, a reprint and an approval leave in the store, on the queues and
    on the disk. *)

From Stdlib Require Import ZArith String.
From stdpp Require Import gmap.
From S2P Require Import Prelude RustStd Text Config Core Sqlite Storage StorageTheory Queue QueueTheory.
From S2P Require Import Dispatch DispatchTheory Json Files ConfigFile LanApi Capture Dashboard.
#[local] Open Scope Z_scope.

(** ** What a push does, seen from a moment before it *)

Section calm.
Context `{Chrono}.

(** Nothing of the jobs, the printers or the queues changed; some calls into the
    store were made. *)
Definition calm (q q' : JobQueue) : Prop :=
  jobs (conn (storage q')) = jobs (conn (storage q))
  ∧ virtual_printers (conn (storage q')) = virtual_printers (conn (storage q))
  ∧ same_queues q q' ∧ spends (storage q) (storage q').
#[export] Instance calm_preorder : PreOrder calm.
Proof.
  split; [intros q; split_and!; [done|done|reflexivity|reflexivity]|].
  intros a b c (H1 & H2 & H3 & H4) (K1 & K2 & K3 & K4). split_and!; [congruence|congruence|by etrans|by etrans].
Qed.

(** A push that succeeded stored one row and put the job's id where its target
    says; the target is the client the job's printer is paired with, unless a call
    into the store failed on the way. *)
Definition pushed (meta : JobMetadata) (path : string) (q : JobQueue) {E} (res : result E unit) (q' : JobQueue) : Prop :=
  match res with
  | Ok _ => ∃ target,
      jobs (conn (storage q')) = jobs (conn (storage q)) ++ [job_to_row (with_target target meta) path]
      ∧ delivered target (job_id meta) q q'
      ∧ target_of meta (conn (storage q)) (failed_between (storage q) (storage q')) target
  | Err _ => jobs (conn (storage q')) = jobs (conn (storage q)) ∧ same_queues q q'
  end.
Lemma paired_target_ext meta t t' : virtual_printers t' = virtual_printers t → paired_target meta t' = paired_target meta t.
Proof. intros E. unfold paired_target. by rewrite E. Qed.
Lemma pushed_calm meta path q q1 {E} (res : result E unit) q' :
  calm q q1 → pushed meta path q1 res q' → pushed meta path q res q'.
Proof.
  intros (Hj & Hv & Hs & Hq). unfold pushed. destruct res as [u|e].
  - intros (target & Hr & Hd & Ht). exists target. split_and!.
    + by rewrite Hr, Hj.
    + by eapply delivered_same.
    + destruct Ht as [->|[-> Hf]]; [left; by apply paired_target_ext|].
      right. split; [done|]. by eapply failed_earlier.
  - intros [Hr Hd]. split; [congruence|by etrans].
Qed.
Lemma push_pushed meta path q :
  job_row (job_id meta) (conn (storage q)) = None → pushed meta path q (fst (push meta path q)) (snd (push meta path q)).
Proof.
  intros Hf. pose proof (push_outcome meta path q Hf) as Hp. destruct (push meta path q) as [[u|e] q']; simpl in *.
  - destruct Hp as (target & Hj & Hd & _ & Ht). by exists target.
  - by destruct Hp as (-> & Hs & _).
Qed.
Lemma calm_fresh j q q' : calm q q' → job_row j (conn (storage q)) = None → job_row j (conn (storage q')) = None.
Proof. intros (Hj & _). unfold job_row. by rewrite Hj. Qed.

(** Reads and events are calm. *)
Lemma calm_on_storage {A} (m : SM A) :
  (∀ s, jobs (conn (snd (m s))) = jobs (conn s) ∧ virtual_printers (conn (snd (m s))) = virtual_printers (conn s)) →
  respects spends m → respects calm (on_storage m).
Proof.
  intros Hm Hq q. pose proof (same_queues_on_storage m q) as Hs. unfold on_storage, zoom in *.
  specialize (Hm (storage q)). specialize (Hq (storage q)). destruct (m (storage q)) as [r st]. simpl in *.
  destruct Hm. by split; [|split; [|split]].
Qed.
Lemma calm_query {A} c1 c2 (g : Tables → A) : respects calm (on_storage (_ ← engine c1; query c2 g)).
Proof.
  apply calm_on_storage; [intros s; by rewrite prepared_query_conn|]. solve_respects.
Qed.
Lemma calm_now : respects calm (on_storage utc_now).
Proof. apply calm_on_storage; [done|apply spends_now]. Qed.
Lemma calm_event e : respects calm (insert_job_event e).
Proof.
  apply calm_on_storage; unfold Storage.insert_job_event; [intros s; unfold mbind, M_bind|solve_respects].
  destruct (execute_cases "insert into job_events" (λ t, (set_events (λ es, es ++ [event_to_row e]) t, 1)) s)
    as [(s1 & -> & Hc)|(s1 & -> & Hc)]; simpl; by rewrite Hc.
Qed.
End calm.

(** ** A captured document *)

Definition calm_front `{Chrono} (f f' : Front) : Prop := calm (front_queue f) (front_queue f').
#[export] Instance calm_front_preorder `{Chrono} : PreOrder calm_front.
Proof. split; [intros f; unfold calm_front; reflexivity|]. intros a b c. unfold calm_front. by etrans. Qed.
Definition file_is `{Chrono} (path : string) (b : bytes) (f : Front) : Prop :=
  ∃ k, files (fr_disk f) !! path = Some k ∧ content k = b.

Section capture.
Context `{Chrono} `{Sha256} `{IppLibrary}.

Lemma on_q_run {A} (m : QM A) f : on_q m f = (fst (m (front_queue f)), set_front_queue (snd (m (front_queue f))) f).
Proof. unfold on_q, zoom. by destruct (m (front_queue f)). Qed.
Lemma calm_on_q {A} (m : QM A) : respects calm m → respects calm_front (on_q m).
Proof. intros Hm f. rewrite on_q_run. apply Hm. Qed.
Lemma calm_on_d {A} (m : FM A) : respects calm_front (on_d m).
Proof.
  intros f. unfold on_d, map_err, zoom, calm_front. destruct (m (fr_disk f)) as [[]]; reflexivity.
Qed.
Lemma calm_now_q : respects calm_front utc_now_q.
Proof. apply calm_on_q, calm_now. Qed.

(** What runs before a push keeps the disk as the write left it. *)
Definition keeps_disk (f f' : Front) : Prop := calm_front f f' ∧ fr_disk f' = fr_disk f.
Lemma now_q_run f : ∃ now f', utc_now_q f = (Ok now, f') ∧ keeps_disk f f'.
Proof.
  unfold utc_now_q. rewrite on_q_run. eexists _, _. split; [done|]. split; [|done].
  pose proof (calm_now_q f) as Hc. unfold utc_now_q in Hc. by rewrite on_q_run in Hc.
Qed.
Lemma event_q_run e f : keeps_disk f (snd (on_q (insert_job_event e) f)).
Proof. rewrite on_q_run. split; [|done]. apply calm_event. Qed.

Definition handled (id spool printer : string) (d : SimpleIppDocument) (f : Front) (res : result string unit) (f' : Front) : Prop :=
  match res with
  | Ok _ => ∃ payload now,
      d_payload d = Ok payload ∧ file_is (spool_path spool id) payload f'
      ∧ pushed (captured_job id d printer payload now) (spool_path spool id) (front_queue f) res (front_queue f')
  | Err _ => jobs (conn (storage (front_queue f'))) = jobs (conn (storage (front_queue f)))
             ∧ same_queues (front_queue f) (front_queue f')
  end.
Lemma handled_err id spool printer d f e f' : calm_front f f' → handled id spool printer d f (Err e) f'.
Proof. intros (Hj & _ & Hs & _). done. Qed.

Lemma push_capture id spool printer d payload now f f4 :
  job_row id (conn (storage (front_queue f))) = None → d_payload d = Ok payload →
  file_is (spool_path spool id) payload f4 → calm_front f f4 →
  ends (on_q (push (captured_job id d printer payload now) (spool_path spool id))) f4 (handled id spool printer d f).
Proof.
  intros Hf Hp Hfile Hc. unfold ends. rewrite on_q_run. simpl.
  set (meta := captured_job id d printer payload now). set (path := spool_path spool id).
  assert (job_row (job_id meta) (conn (storage (front_queue f4))) = None) as Hf4 by by eapply calm_fresh.
  pose proof (push_pushed meta path _ Hf4) as Hpush. eapply pushed_calm in Hpush; [|exact Hc].
  destruct (push meta path (front_queue f4)) as [[u|e] q]; simpl in *; [|done].
  exists payload, now. split_and!; [done| |done]. destruct Hfile as (k & Hk & Hb). by exists k.
Qed.
Lemma write_file_run path b d : fst (write_file path b d) = Ok tt → ∃ k, files (snd (write_file path b d)) !! path = Some k ∧ content k = b.
Proof.
  unfold write_file, write_durable, io, next_accident. destruct (down d); [done|].
  destruct (accidents d) as [|[|e l|[] l] acc]; simpl; try done; intros _; unfold put_content;
    rewrite lookup_insert_eq; eexists; by split.
Qed.

Lemma ends_on_d {A} (m : FM A) f (Q : result string A → Front → Prop) :
  (∀ r k, m (fr_disk f) = (r, k) →
     Q (match r with Ok a => Ok a | Err e => Err (io_error_text e) end) (set_fr_disk k f)) → ends (on_d m) f Q.
Proof.
  intros HQ. unfold ends, on_d, map_err, zoom. destruct (m (fr_disk f)) as [[a|e] k]; exact (HQ _ _ eq_refl).
Qed.

Lemma handle_outcome spool id d printer f :
  job_row id (conn (storage (front_queue f))) = None →
  ends (handle_document spool id d printer) f (handled id spool printer d f).
Proof.
  intros Hf. unfold handle_document. destruct (d_payload d) as [payload|e] eqn:Hp; [|by apply handled_err].
  apply ends_bind, ends_on_d. intros r k Hw.
  pose proof (write_file_run (spool_path spool id) payload (fr_disk f)) as Hfile. rewrite Hw in Hfile.
  destruct r as [[]|e]; [|by apply handled_err]. specialize (Hfile eq_refl). set (f1 := set_fr_disk k f).
  assert (calm_front f f1) as Hc1 by (unfold calm_front; change (front_queue f1) with (front_queue f); reflexivity).
  apply ends_bind. destruct (now_q_run f1) as (now & f2 & E2 & Hc2 & Hd2). eapply ends_run; [exact E2|]. simpl.
  apply ends_bind. destruct (now_q_run f2) as (event_now & f3 & E3 & Hc3 & Hd3). eapply ends_run; [exact E3|]. simpl.
  apply ends_bind. set (e := event_ok _ _ _ _). pose proof (event_q_run e f3) as [Hc4 Hd4].
  destruct (on_q (insert_job_event e) f3) as [r f4] eqn:E4. eapply ends_run; [exact E4|]. simpl in *.
  assert (calm_front f f4) as Hc by (etrans; [|exact Hc4]; etrans; [|exact Hc3]; etrans; [exact Hc1|exact Hc2]).
  destruct r as [u|x]; [|by apply handled_err].
  apply push_capture; [done|done| |done]. unfold file_is. by rewrite Hd4, Hd3, Hd2.
Qed.

(** *** What a captured document is stored as *)

(** The client a printer is paired with *)
Definition printer_client (printer : string) (t : Tables) : option string :=
  if printer =t? "" then None else List.find (vp_by_ipp printer) (virtual_printers t) ≫= v_paired_client_id.
(** The title: the first of the document's and the job's name that is not blank *)
Definition title_of (a : SimpleIppJobAttributes) : string :=
  hd "" (map trimmed (List.filter (λ s, negb (is_blank s)) (option_list (a_document_name a) ++ option_list (a_job_name a)))).
(** The row of a document captured at [printer] as the job [id] for [target] *)
Record row_of_document (id path printer : string) (a : SimpleIppJobAttributes) (payload : bytes)
    (target : option string) (row : JobRow) : Prop := {
  rd_new : r_job_id row = id ∧ r_state row = "queued" ∧ r_retry_count row = 0 ∧ r_error_detail row = "";
  rd_place : r_target_printer row = printer ∧ r_target_client_id row = target;
  rd_payload : r_spool_path row = path ∧ r_payload_sha256 row = hex_bytes (sha256 payload)
               ∧ (Z.of_nat (length payload) < 2 ^ 63 → r_payload_size row = Z.of_nat (length payload));
  rd_title : r_document_name row = title_of a;
  rd_copies : r_copies row = Z.max 1 (default 1 (a_copies a));
  rd_paper : r_paper_size row = a_media a;
  rd_duplex : r_duplex row = 0 ↔ a_sides a = "one-sided";
  rd_color : r_color row = 0 ↔ a_print_color_mode a = "monochrome";
  rd_user : default "" (r_requesting_user row) = a_originating_user_name a ∧ r_requesting_user row ≠ Some "";
}.
Definition captured (id spool printer : string) (d : SimpleIppDocument) (f : Front) (res : result string unit) (f' : Front) : Prop :=
  let q := front_queue f in let q' := front_queue f' in
  match res with
  | Ok _ => ∃ payload row target,
      let path := spool +:+ "/" +:+ id +:+ ".pdf" in
      d_payload d = Ok payload ∧ file_is path payload f'
      ∧ jobs (conn (storage q')) = jobs (conn (storage q)) ++ [row]
      ∧ row_of_document id path printer (d_attributes d) payload target row
      ∧ delivered target id q q'
      ∧ (target = printer_client printer (conn (storage q)) ∨ target = None ∧ failed_between (storage q) (storage q'))
  | Err _ => jobs (conn (storage q')) = jobs (conn (storage q)) ∧ same_queues q q'
  end.

Lemma title_extracted a : extract_document_name a = title_of a.
Proof.
  unfold extract_document_name, title_of, not_blank.
  destruct (a_document_name a) as [n|], (a_job_name a) as [m|]; simpl; try done;
    try destruct (is_blank n); simpl; try done; by destruct (is_blank m).
Qed.
Lemma copies_extracted a : extract_copies a = Z.max 1 (default 1 (a_copies a)).
Proof. unfold extract_copies. destruct (a_copies a) as [n|]; simpl; [|done]. destruct (Z.leb_spec 1 n); lia. Qed.
Lemma flag_unless (x y : string) : b2i (negb (x =t? y)) = 0 ↔ x = y.
Proof. rewrite <- String.eqb_eq. by destruct (x =t? y). Qed.
Lemma captured_row id spool printer d payload now target :
  row_of_document id (spool_path spool id) printer (d_attributes d) payload target
    (job_to_row (with_target target (captured_job id d printer payload now)) (spool_path spool id)).
Proof.
  split; simpl; try done.
  - do 2 (split; [done|]). intros Hl. unfold as_i64. rewrite Z.mod_small by lia.
    destruct (Z.ltb_spec (Z.of_nat (length payload)) (2 ^ 63)); [done|lia].
  - apply title_extracted.
  - apply copies_extracted.
  - apply flag_unless.
  - apply flag_unless.
  - unfold none_if_empty. destruct (String.eqb_spec (a_originating_user_name (d_attributes d)) "") as [->|Hn]; simpl; [done|].
    split; [done|congruence].
Qed.
Lemma paired_captured id d printer payload now t :
  paired_target (captured_job id d printer payload now) t = printer_client printer t.
Proof.
  unfold paired_target, printer_client. simpl. destruct (printer =t? ""); [done|].
  destruct (List.find _ _) as [vp|]; simpl; [|done]. by destruct (v_paired_client_id vp).
Qed.
Lemma capture_outcome spool id d printer f :
  job_row id (conn (storage (front_queue f))) = None →
  ends (handle_document spool id d printer) f (captured id spool printer d f).
Proof.
  intros Hf. pose proof (handle_outcome spool id d printer f Hf) as Ho. unfold ends in *.
  destruct (handle_document spool id d printer f) as [[u|e] f']; [|exact Ho].
  destruct Ho as (payload & now & Hp & Hfile & target & Hj & Hd & Ht).
  eexists payload, _, target. split_and!; [done|exact Hfile|exact Hj|apply captured_row|exact Hd|].
  unfold target_of in Ht. by rewrite paired_captured in Ht.
Qed.
End capture.

(** ** A reprint *)

Definition dash_queue_of `{Chrono} (d : Dash) : JobQueue := front_queue (da_front d).
Definition dash_files `{Chrono} (d : Dash) : gmap string File := files (fr_disk (da_front d)).
(** Neither the queues nor the files changed. *)
Definition kept `{Chrono} (d d' : Dash) : Prop :=
  calm (dash_queue_of d) (dash_queue_of d') ∧ dash_files d' = dash_files d.
#[export] Instance kept_preorder `{Chrono} : PreOrder kept.
Proof.
  split; [intros d; split; [reflexivity|done]|]. intros a b c [K1 K2] [K3 K4]. split; [by etrans|congruence].
Qed.

Section reprint.
Context `{Chrono} `{IppLibrary} `{UnicodeTables}.
Variable app : AppState.
Implicit Types d : Dash.

Lemma ends_needs a d (Q : result Answer unit → Dash → Prop) :
  (app_queue app = true → Q (Ok tt) d) → (app_queue app = false → Q (Err a) d) → ends (needs_queue app a) d Q.
Proof. intros Hy Hn. unfold needs_queue. destruct (app_queue app); [by apply Hy|by apply Hn]. Qed.
Lemma ends_or_answer {A} (o : option A) a d Q :
  (∀ x, o = Some x → Q (Ok x) d) → (o = None → Q (Err a) d) → ends (or_answer o a) d Q.
Proof. intros Hy Hn. destruct o; [by apply Hy|by apply Hn]. Qed.
Lemma ends_read {A} to c1 c2 (g : Tables → A) d (Q : result Answer A → Dash → Prop) :
  (∀ d', kept d d' → Q (Ok (g (conn (storage (dash_queue_of d))))) d') →
  (∀ e d', kept d d' → Q (Err (to e)) d') →
  ends (front_queue_or to (on_storage (_ ← engine c1; query c2 g))) d Q.
Proof.
  intros Hok Herr. unfold ends, front_queue_or, on_front, zoom, map_err. rewrite on_q_run.
  pose proof (calm_query c1 c2 g (dash_queue_of d)) as Hc. unfold dash_queue_of in *.
  destruct (on_storage _ (front_queue (da_front d))) as [[a|e] q] eqn:E; simpl in *.
  - unfold on_storage, zoom in E. destruct ((_ ← engine c1; query c2 g) _) as [r st] eqn:Es.
    injection E as -> <-. apply prepared_query_ok in Es as [-> _]. apply Hok. by split.
  - apply Herr. by split.
Qed.
Lemma ends_disk {A} to (m : FM A) d (Q : result Answer A → Dash → Prop) :
  (∀ r k, m (fr_disk (da_front d)) = (r, k) →
     Q (match r with Ok a => Ok a | Err e => Err (to (io_error_text e)) end) (set_front (set_fr_disk k (da_front d)) d)) →
  ends (on_front to (on_d m)) d Q.
Proof.
  intros HQ. unfold ends, on_front, on_d, map_err, zoom.
  destruct (m (fr_disk (da_front d))) as [[a|e] k] eqn:E; exact (HQ _ _ eq_refl).
Qed.
Lemma ends_queue {A} to (m : QM A) d (Q : result Answer A → Dash → Prop) :
  (∀ r q, m (dash_queue_of d) = (r, q) →
     Q (match r with Ok a => Ok a | Err e => Err (to e) end) (set_front (set_front_queue q (da_front d)) d)) →
  ends (front_queue_or to m) d Q.
Proof.
  intros HQ. unfold ends, front_queue_or, on_front, map_err, zoom. rewrite on_q_run. unfold dash_queue_of in HQ.
  destruct (m (front_queue (da_front d))) as [[a|e] q]; exact (HQ _ _ eq_refl).
Qed.
Lemma ends_clock d (Q : result Answer DateTime → Dash → Prop) :
  (∀ now d', kept d d' → Q (Ok now) d') → ends now_a d Q.
Proof.
  intros HQ. unfold now_a, ends, on_front, zoom, map_err. destruct (now_q_run (da_front d)) as (now & f & -> & Hc & Hd).
  simpl. apply HQ. split; [exact Hc|]. unfold dash_files. simpl. by rewrite Hd.
Qed.
Lemma ends_exists to path d (Q : result Answer bool → Dash → Prop) :
  (∀ b d', kept d d' → Q (Ok b) d') → ends (on_front to (path_exists path)) d Q.
Proof.
  intros HQ. unfold ends, on_front, path_exists, zoom, map_err, attempt, on_d, mbind, M_bind. simpl.
  set (m := io _ _). assert (files (snd (m (fr_disk (da_front d)))) = files (fr_disk (da_front d))) as Hk.
  { unfold m, io, next_accident. destruct (down _); [done|]. by destruct (accidents _) as [|[|e l|[] l] acc]. }
  unfold map_err, zoom. destruct (m (fr_disk (da_front d))) as [[b|e] k]; simpl in *; apply HQ;
    (split; [unfold dash_queue_of; simpl; reflexivity|exact Hk]).
Qed.
Lemma copy_file_run from to k : fst (copy_file from to k) = Ok tt →
  ∃ f, files k !! from = Some f ∧ ∃ f', files (snd (copy_file from to k)) !! to = Some f' ∧ content f' = content f.
Proof.
  unfold copy_file, io, next_accident. destruct (down k); [done|].
  destruct (accidents k) as [|[|e l|[] l] acc]; simpl; try done;
    (destruct (files k !! from) as [f|]; [|done]); intros _; exists f; (split; [done|]);
    unfold put_content; simpl; rewrite lookup_insert_eq; by eexists.
Qed.

Definition same_work (d d' : Dash) : Prop :=
  jobs (conn (storage (dash_queue_of d'))) = jobs (conn (storage (dash_queue_of d)))
  ∧ same_queues (dash_queue_of d) (dash_queue_of d').
Lemma kept_same_work d d' : kept d d' → same_work d d'.
Proof. by intros [(Hj & _ & Hs & _) _]. Qed.
(** What a reprint of the job of row [r] leaves. *)
Definition reprinted (id new_id : string) (d d' : Dash) : Prop :=
  ∃ r now now' b,
    job_row id (conn (storage (dash_queue_of d))) = Some r
    ∧ age_nanos now (created_at (row_to_job r)) ≤ REPRINT_HOURS * HOUR
    ∧ file_is (r_spool_path r) b (da_front d)
    ∧ file_is (reprint_spool (r_spool_path r) new_id) b (da_front d')
    ∧ pushed (E := string) (reprint_of (row_to_job r) new_id now') (reprint_spool (r_spool_path r) new_id)
        (dash_queue_of d) (Ok tt) (dash_queue_of d').
Definition reprint_ends (id new_id : string) (d : Dash) (res : result Answer Answer) (d' : Dash) : Prop :=
  match res with
  | Ok a => an_status a = 201 ∧ reprinted id new_id d d'
  | Err a => an_status a ≠ 201 ∧ same_work d d'
  end.
Lemma reprint_refused id new_id d a d' : an_status a ≠ 201 → kept d d' → reprint_ends id new_id d (Err a) d'.
Proof. intros Ha Hk. split; [done|by apply kept_same_work]. Qed.

(** The copy and the push of a job whose row was found. *)
Lemma copy_and_push id new_id r now now' d d1 :
  job_row new_id (conn (storage (dash_queue_of d))) = None →
  job_row id (conn (storage (dash_queue_of d))) = Some r →
  age_nanos now (created_at (row_to_job r)) ≤ REPRINT_HOURS * HOUR → kept d d1 →
  ends (_ ← on_front (λ e, error_answer 500 ("failed to copy spool file: " +:+ e))
              (on_d (copy_file (r_spool_path r) (reprint_spool (r_spool_path r) new_id)));
        _ ← front_queue_or (error_answer 500)
              (push (reprint_of (row_to_job r) new_id now') (reprint_spool (r_spool_path r) new_id));
        mret (mkAnswer 201 (Some (VObject [("id", VString new_id);
                                           ("name", VString (document_name (row_to_job r)));
                                           ("reprinted_from", VString id);
                                           ("status", VString "queued")]))))
    d1 (reprint_ends id new_id d).
Proof.
  intros Hf Hr Ha Hk. set (spool := r_spool_path r). set (to := reprint_spool spool new_id).
  apply ends_bind, ends_disk. intros c k Ec.
  pose proof (copy_file_run spool to (fr_disk (da_front d1))) as Hcopy. rewrite Ec in Hcopy. clear Ec.
  destruct c as [[]|e]; [|split; [done|]; exact (kept_same_work _ _ Hk)].
  destruct (Hcopy eq_refl) as (f & Hfrom & f' & Hto & Hcont). clear Hcopy.
  set (d2 := set_front (set_fr_disk k (da_front d1)) d1).
  assert (calm (dash_queue_of d) (dash_queue_of d2)) as Hcalm by exact (proj1 Hk).
  set (meta := reprint_of (row_to_job r) new_id now').
  pose proof (calm_fresh new_id _ _ Hcalm Hf) as Hf2.
  pose proof (pushed_calm _ _ _ _ _ _ Hcalm (push_pushed meta to (dash_queue_of d2) Hf2)) as Hp.
  apply ends_bind, ends_queue. intros p q Ep. rewrite Ep in Hp. simpl in Hp.
  destruct p as [[]|e]; [|split; [done|exact Hp]].
  split; [done|]. exists r, now, now', (content f). destruct Hk as [_ Hfiles]. split_and!; try done.
  - exists f. split; [|done]. unfold dash_files in Hfiles. by rewrite <- Hfiles.
  - by exists f'.
Qed.

Lemma find_job_row id (t : Tables) j :
  row_to_job <$> List.find (by_id id) (jobs t) = Some j → ∃ r, job_row id t = Some r ∧ j = row_to_job r.
Proof. unfold job_row. destruct (List.find _ _) as [r|]; [|done]. intros [= <-]. by exists r. Qed.

Lemma reprint_outcome id new_id d :
  job_row new_id (conn (storage (dash_queue_of d))) = None →
  ends (reprint_job app id new_id) d (reprint_ends id new_id d).
Proof.
  intros Hf. unfold reprint_job.
  apply ends_bind, ends_needs; [intros _|intros _; by (apply reprint_refused; [done|]; try reflexivity)].
  apply ends_bind, ends_read; [intros d1 L1|intros e d1 L1; by apply reprint_refused].
  apply ends_bind, ends_or_answer; [intros original Ho|intros _; by (apply reprint_refused; [done|]; try reflexivity)].
  apply find_job_row in Ho as (r & Hr & ->).
  apply ends_bind, ends_clock. intros now d2 L2. cbv zeta. assert (kept d d2) as K2 by (etrans; [exact L1|exact L2]).
  destruct (_ <? _) eqn:Eage; [by apply reprint_refused|]. apply Z.ltb_ge in Eage.
  apply ends_bind, ends_read; [intros d3 L3|intros e d3 L3; apply reprint_refused; [done|etrans; [exact K2|exact L3]]].
  assert (kept d d3) as K3 by (etrans; [exact K2|exact L3]). rewrite (proj1 (proj1 K2)).
  apply ends_bind, ends_or_answer; [intros spool Hs|intros _; by (apply reprint_refused; [done|]; try reflexivity)].
  change (r_spool_path <$> job_row id (conn (storage (dash_queue_of d))) = Some spool) in Hs.
  rewrite Hr in Hs. injection Hs as <-.
  apply ends_bind, ends_exists. intros there d4 L4. assert (kept d d4) as K4 by (etrans; [exact K3|exact L4]).
  destruct (negb there); [by apply reprint_refused|].
  apply ends_bind, ends_clock. intros now' d5 L5. assert (kept d d5) as K5 by (etrans; [exact K4|exact L5]).
  by apply (copy_and_push id new_id r now now').
Qed.

(** With a store and a disk that do not fail the answer is the reference's. *)
Definition reprint_status (id : string) (now : DateTime) (t : Tables) (fs : gmap string File) : Z :=
  match job_row id t with
  | None => 404
  | Some r =>
    if REPRINT_HOURS * HOUR <? age_nanos now (created_at (row_to_job r)) then 422
    else if bool_decide (is_Some (fs !! r_spool_path r)) then 201 else 410
  end.
Definition working (d : Dash) : Prop := quiet (storage (dash_queue_of d)) ∧ sound (fr_disk (da_front d)).
Definition clock_of (d : Dash) : DateTime := clock (storage (dash_queue_of d)) (ticks (storage (dash_queue_of d))).

Lemma works_read {A} to c1 c2 (g : Tables → A) d (Q : result Answer A → Dash → Prop) :
  working d → Q (Ok (g (conn (storage (dash_queue_of d))))) d →
  ends (front_queue_or to (on_storage (_ ← engine c1; query c2 g))) d Q.
Proof.
  intros [Hq _] HQ. apply ends_queue. intros r q. unfold on_storage, zoom, mbind, M_bind.
  rewrite engine_quiet, query_quiet by done. intros [= <- <-].
  destruct d as [[[[] ? ? ? ? ? ?] ? ?] ?]. exact HQ.
Qed.
Lemma works_clock d (Q : result Answer DateTime → Dash → Prop) :
  working d → (∀ d', working d' → kept d d' → Q (Ok (clock_of d)) d') → ends now_a d Q.
Proof.
  intros [Hq Hs] HQ. apply (ends_queue (error_answer 500) (on_storage utc_now)). intros r q.
  unfold on_storage, zoom. rewrite utc_now_run. intros [= <- <-]. apply HQ; [by split|].
  split; [|done]. exact (calm_now (dash_queue_of d)).
Qed.
Lemma works_exists to path d (Q : result Answer bool → Dash → Prop) :
  working d → (∀ d', working d' → kept d d' → Q (Ok (bool_decide (is_Some (dash_files d !! path)))) d') →
  ends (on_front to (path_exists path)) d Q.
Proof.
  intros [Hq Hs] HQ. unfold ends, on_front, path_exists, zoom, map_err, attempt, on_d, mbind, M_bind. simpl.
  set (op := λ fs, (Ok (bool_decide (is_Some (fs !! path))), fs)).
  destruct (io_sound op intact (fr_disk (da_front d)) Hs) as [E Hs']. unfold map_err, zoom. rewrite E. simpl.
  apply HQ; [by split|]. split; [unfold dash_queue_of; simpl; reflexivity|done].
Qed.
Lemma works_copy from to (disk : Disk) k f :
  sound disk → files disk !! from = Some f → copy_file from to disk = k → fst k = Ok tt ∧ sound (snd k).
Proof.
  intros Hs Hf <-. unfold copy_file.
  destruct (io_sound (λ fs, match fs !! from with Some f => (Ok tt, put_content to (content f) fs)
                                             | None => (Err Files.NotFound, fs) end) (torn_write to) disk Hs) as [-> Hs'].
  rewrite Hf in *. by split.
Qed.

Definition status_is (n : Z) (r : result Answer Answer) (_ : Dash) : Prop :=
  match r with Ok a | Err a => an_status a = n end.
Lemma reprint_status_outcome id new_id d :
  app_queue app = true → working d → job_row new_id (conn (storage (dash_queue_of d))) = None →
  ends (reprint_job app id new_id) d
    (status_is (reprint_status id (clock_of d) (conn (storage (dash_queue_of d))) (dash_files d))).
Proof.
  intros Ha Hw Hf. unfold reprint_job, reprint_status, job_row.
  apply ends_bind, ends_needs; [intros _|congruence]. apply ends_bind, works_read; [done|].
  apply ends_bind, ends_or_answer; [intros original|intros Ho].
  2: { by destruct (List.find (by_id id) (jobs (conn (storage (dash_queue_of d))))). }
  intros (r & Hr & ->)%find_job_row. unfold job_row in Hr. rewrite Hr.
  apply ends_bind, works_clock; [done|]. intros d2 W2 K2. cbv zeta.
  destruct (_ <? _); [done|]. apply ends_bind, works_read; [done|]. rewrite (proj1 (proj1 K2)).
  apply ends_bind, ends_or_answer; rewrite Hr; [intros spool [= <-]|done].
  apply ends_bind, works_exists; [done|]. intros d4 W4 K4. rewrite (proj2 K2).
  case_bool_decide as Hfile; simpl; [|done].
  apply ends_bind, works_clock; [done|]. intros d5 W5 K5.
  assert (kept d d5) as K by (etrans; [exact K2|]; etrans; [exact K4|exact K5]).
  apply ends_bind, ends_disk. intros c k Ec. destruct Hfile as [f Hfile]. rewrite <- (proj2 K) in Hfile.
  destruct (works_copy _ _ _ _ f (proj2 W5) Hfile Ec) as [Hc Hs]. simpl in Hc. subst c.
  set (d6 := set_front _ d5). set (meta := reprint_of (row_to_job r) new_id (clock_of d4)).
  pose proof (calm_fresh new_id _ _ (proj1 K) Hf) as Hf6.
  apply ends_bind, ends_queue. intros p q Ep.
  pose proof (push_outcome meta (reprint_spool (r_spool_path r) new_id) (dash_queue_of d6) Hf6) as Hp.
  rewrite Ep in Hp. destruct p as [[]|e]; [done|]. destruct Hp as (_ & _ & Hn). destruct Hn. exact (proj1 W5).
Qed.
End reprint.

(** ** An approval and the printer it makes *)

Section approval.
Context `{Chrono} `{Sha256} `{IppLibrary} `{UnicodeTables}.
Variable app : AppState.
Implicit Types d : Dash.

Lemma ends_looked {A} (m : QM A) d (Q : result Answer (result string A) → Dash → Prop) :
  (∀ r q, m (dash_queue_of d) = (r, q) → Q (Ok r) (set_front (set_front_queue q (da_front d)) d)) →
  ends (looked (on_q m)) d Q.
Proof.
  intros HQ. unfold ends, looked, attempt, zoom. rewrite on_q_run. unfold dash_queue_of in HQ.
  destruct (m (front_queue (da_front d))) as [r q]. exact (HQ _ _ eq_refl).
Qed.
Lemma insert_vp_ok vp (q : JobQueue) u q' : Queue.insert_virtual_printer vp q = (Ok u, q') →
  let t := conn (storage q) in
  existsb (vp_by_ipp (ipp_name vp)) (virtual_printers t) = false
  ∧ virtual_printers (conn (storage q')) = virtual_printers t ++ [vp_to_row vp].
Proof.
  unfold Queue.insert_virtual_printer, on_storage, zoom. intros Hrun. set (t := conn (storage q)). apply bind_ok in Hrun as (v & q1 & E & Hsig).
  unfold signal_reconciler, modify in Hsig. injection Hsig as Hu <-. destruct (Storage.insert_virtual_printer vp (storage q)) as [r st] eqn:Es.
  injection E as -> <-. unfold Storage.insert_virtual_printer in Es. apply bind_ok in Es as (n & s1 & Ex & Hret).
  injection Hret as _ <-. simpl.
  apply execute_checked_ok in Ex as Hx. fold t in Hx. destruct (existsb _ (virtual_printers t)) eqn:Ee; [done|].
  injection Hx as Hc _. split; [|by rewrite <- Hc].
  apply not_true_is_false. intros Ht. apply existsb_exists in Ht as (r & Hin & Hr).
  assert (existsb (λ r, vp_by_id (vp_id vp) r || vp_by_ipp (ipp_name vp) r) (virtual_printers t) = true) as Hex; [|congruence].
  apply existsb_exists. exists r. split; [done|]. rewrite Hr. apply orb_true_r.
Qed.

Lemma find_last {A} (p : A → bool) old x : existsb p old = false → p x = true → List.find p (old ++ [x]) = Some x.
Proof.
  intros Hold Hx. induction old as [|a old IH]; simpl in *; [by rewrite Hx|].
  apply orb_false_iff in Hold as [-> Hold]. by apply IH.
Qed.

(** The stored printer of a name, and whether the IPP server has its address. *)
Definition printer_row (name : string) (d : Dash) : option VpRow :=
  List.find (vp_by_ipp name) (virtual_printers (conn (storage (dash_queue_of d)))).
Definition registered (name : string) (d : Dash) : Prop :=
  is_ipp_name <$> printers (fr_ipp (da_front d)) !! name = Some name.
(** The address of the printer was not registered: there is no IPP server, or its
    description of the printer failed. *)
Definition not_registered (name : string) (d d' : Dash) : Prop :=
  fr_ipp (da_front d') = fr_ipp (da_front d) ∧ (app_ipp_server app = false ∨ ∃ e, printer_info name = Err e).

(** The state after an approval that made the printer [vp]. *)
Definition made (id : string) (vp : VirtualPrinter) (d d' : Dash) : Prop :=
  paired_client_id vp = Some id ∧ printer_row (ipp_name vp) d' = Some (vp_to_row vp)
  ∧ (registered (ipp_name vp) d' ∨ not_registered (display_name vp) d d').
Definition approval_ends (id : string) (d : Dash) (r : result Answer Answer) (d' : Dash) : Prop :=
  match r with
  | Ok a => ∀ v info, an_body a = Some v → get_field "virtual_printer" v = Some info → info ≠ VNull →
            ∃ vp, info = vp_info vp ∧ made id vp d d'
  | Err a => an_status a ≠ 200
  end.
Lemma register_run vp d :
  ends (with_ipp app (add_printer vp)) d
    (λ r d', r = Ok tt ∧ dash_queue_of d' = dash_queue_of d
             ∧ (registered (ipp_name vp) d' ∨ not_registered (display_name vp) d d')).
Proof.
  unfold ends, with_ipp. destruct (app_ipp_server app) eqn:Ea; simpl.
  - unfold looked, attempt, zoom, mbind, M_bind, add_printer. destruct (printer_info (display_name vp)) as [u|e] eqn:Ei; simpl.
    + do 2 (split; [done|]). left. unfold registered. simpl. by rewrite lookup_insert_eq.
    + do 2 (split; [done|]). right. split; [done|]. right. by exists e.
  - do 2 (split; [done|]). right. split; [done|]. by left.
Qed.
Lemma approval_printer_outcome id name vp client d :
  ends (approval_printer app id name vp client) d
    (λ r d', match r with
             | Ok p => ap_info p ≠ VNull → ∃ v, ap_info p = vp_info v ∧ made id v d d'
             | Err a => an_status a ≠ 200
             end).
Proof.
  unfold approval_printer. destruct (normalize_driver_name _) as [drv|reason]; [|by intros Hn; destruct Hn].
  apply ends_bind. unfold now_a. apply (ends_queue (error_answer 500) (on_storage utc_now)). intros r q _.
  destruct r as [now|e]; [|done]. set (d1 := set_front _ d). set (v := {| vp_id := vp |}).
  apply ends_bind, ends_looked. intros [u|e] q1 Eq; [|by intros Hn; destruct Hn].
  apply insert_vp_ok in Eq as [Hnew Hrows]. set (d2 := set_front _ d1). apply ends_bind.
  pose proof (register_run v d2) as Hreg. unfold ends in *. destruct (with_ipp app (add_printer v) d2) as [r d3].
  destruct Hreg as (-> & Hq & Hreg). cbn [fst snd] in Hq, Hreg. simpl. intros _. exists v. split; [done|]. split; [done|]. split; [|exact Hreg].
  unfold printer_row. rewrite Hq. change (dash_queue_of d2) with q1. rewrite Hrows.
  apply find_last; [exact Hnew|]. unfold vp_by_ipp. apply String.eqb_refl.
Qed.
Lemma approve_outcome id vp d : ends (approve_client app id vp) d (approval_ends id d).
Proof.
  unfold approve_client. apply ends_bind, ends_needs; intros _; [|done].
  apply ends_bind. unfold known_client. apply ends_bind, ends_looked. intros [[client|]|e] q Eq; [|done..].
  simpl. unfold ends at 1. simpl. set (d1 := set_front _ d).
  destruct (decide _); [by intros v info [= <-]|].
  apply ends_bind, ends_queue. intros [u|e] q1 Eq1; [|done]. set (d2 := set_front _ d1).
  apply ends_bind. destruct (Core.virtual_printer_name client) as [name|].
  - pose proof (approval_printer_outcome id name vp client d2) as Hp. unfold ends in *.
    destruct (approval_printer app id name vp client d2) as [[p|a] d3]; simpl in *; [|done].
    intros v info [= <-] [= <-]. exact Hp.
  - intros v info [= <-] [= <-] Hn. by destruct Hn.
Qed.

(** A document printed at the printer goes to the client. *)
Definition at_printer (name path : string) : Prop :=
  ∃ rest, strip_prefix (chars PRINTERS_PATH) (chars path) = Some rest ∧ of_chars (trim_end_slashes rest) = name.
(** A document captured at the printer is for the paired client; when the printer
    has no name, or a call into the store failed, it is for nobody and goes to the
    default queue. *)
Definition for_client (id name job : string) (q q' : JobQueue) : Prop :=
  ∃ row, job_row job (conn (storage q')) = Some row ∧ delivered (r_target_client_id row) job q q'
         ∧ (r_target_client_id row = Some id
            ∨ r_target_client_id row = None ∧ (name = "" ∨ failed_between (storage q) (storage q'))).
Lemma printed_for_the_client id name row d spool job doc path f' :
  printer_row name d = Some row → v_paired_client_id row = Some id → registered name d → at_printer name path →
  job_row job (conn (storage (dash_queue_of d))) = None →
  ipp_request spool job doc path (da_front d) = (Ok tt, f') → for_client id name job (dash_queue_of d) (front_queue f').
Proof.
  intros Hrow Hpair Hsrv (rest & Hstrip & Hname) Hf.
  unfold ipp_request. intros Hrun. apply bind_ok in Hrun as (srv & f1 & [= <- <-] & Hrun).
  destruct (default_service (fr_ipp (da_front d))) as [fallback|]; [|done].
  unfold registered in Hsrv. unfold route in Hrun. rewrite Hstrip, Hname in Hrun.
  destruct (printers (fr_ipp (da_front d)) !! name) as [svc|]; [|done]. simpl in Hsrv, Hrun. injection Hsrv as Hsvc.
  rewrite Hsvc in Hrun.
  pose proof (capture_outcome spool job doc name (da_front d) Hf) as Ho. unfold ends in Ho. rewrite Hrun in Ho.
  cbn [fst snd] in Ho. destruct Ho as (payload & row' & target & _ & _ & Hjobs & [[Hid _] [_ Htarget] _ _ _ _ _ _ _] & Hdel & Ht).
  exists row'. rewrite Htarget. split_and!; [|exact Hdel|].
  - unfold job_row. rewrite Hjobs. apply find_last; [|by apply String.eqb_eq].
    apply not_true_is_false. intros (r & Hin & Hr)%existsb_exists.
    by eapply job_row_none; [exact Hf|exact Hin|apply by_id_true].
  - destruct Ht as [->|[-> Hfail]]; [|right; split; [done|by right]].
    unfold printer_client. destruct (name =t? "") eqn:En; [right; split; [done|left; by apply String.eqb_eq]|].
    left. change (List.find _ _) with (printer_row name d). by rewrite Hrow.
Qed.
End approval.
