(* ===== verification/ServerProps.v ===== *)
(** * Properties of the print server

    What the store, the queue and the dispatch service promise together, each
    with an instance on a concrete service (module [Demo], over the stroke
    clock of [Core.TickChrono]). *)

From Stdlib Require Import ZArith String Sorting.Sorted Sorting.Permutation.
From stdpp Require Import gmap relations.
From S2P Require Import Prelude RustStd Core Sqlite Storage StorageTheory Queue QueueTheory.
From S2P Require Import Dispatch DispatchTheory.
#[local] Open Scope Z_scope.

(** ** A concrete service *)

Module Demo.
Import TickChrono.

(** Two events are known by their text. *)
Definition demo_event (st : PrintStage) : PrintJobEvent := event_new (H := tick_chrono) 7%nat "a" st true "".
#[export] Instance demo_json : EventJson := {
  event_from_json := λ s, if s =t? "U" then Some (demo_event SUnconfirmed)
                          else if s =t? "S" then Some (demo_event SSending) else None
}.

Definition job (id st : string) (target : option string) (retries : Z) : JobRow :=
  {| r_job_id := id; r_document_name := "doc"; r_target_printer := "hp";
     r_target_client_id := target; r_copies := 1; r_paper_size := "A4"; r_duplex := 0;
     r_color := 1; r_payload_size := 3; r_payload_sha256 := "x"; r_state := st;
     r_retry_count := retries; r_error_detail := ""; r_requesting_user := None;
     r_spool_path := "/spool/" +:+ id; r_created_at := "I"; r_updated_at := "I" |}.
Definition client (id pairing : string) (driver : option string) : ClientRow :=
  {| c_machine_id := id; c_hostname := "pc"; c_printer_names := []; c_client_version := "1";
     c_last_seen := "I"; c_is_online := 1; c_pairing_state := pairing;
     c_virtual_printer_name := None; c_virtual_printer_driver := driver |}.
Definition hp : VpRow :=
  {| v_id := "v1"; v_display_name := "HP"; v_ipp_name := "hp"; v_paired_client_id := Some "m1";
     v_driver := None; v_created_at := "I"; v_updated_at := "I" |}.

Definition store (rows : list JobRow) (cls : list ClientRow) (fs : list bool) : Storage :=
  {| conn := {| jobs := rows; virtual_printers := [hp]; clients := cls; job_events := [] |};
     faults := fs; clock := λ n, (10 + n)%nat; ticks := 0 |}.
Definition mk_queue (st : Storage) (pending : list string) : JobQueue :=
  {| storage := st; client_channels := {["m1" := ("c1", 0%nat)]};
     channels := {[0%nat := []]}; next_channel := 1; default_pending := pending;
     job_events_tx := Some []; reconciler_signal := None |}.
Definition service (q : JobQueue) : Service :=
  {| queue := q; connected_clients := 1; stream_peers := {["m1" := ("c1", None)]};
     streams := {["c1" := {| st_machine_id := "m1"; st_connection_id := "c1"; st_rx := 0;
                             st_sent := []; st_client_gone := false |}]};
     scheduled := []; max_retries := 3; retry_delay_secs := 30 |}.

Definition completion (id : string) (ok unconfirmed : bool) : JobCompletion :=
  {| jc_job_id := id; jc_success := ok; jc_error_detail := "jam";
     jc_verification_method := ""; jc_verification_evidence := ""; jc_client_id := "m2";
     jc_unconfirmed := unconfirmed |}.

(** Jobs "a" (printing, for m1), "b" (completed), "c" (queued, unpaired). *)
Definition rows : list JobRow :=
  [job "a" "printing" (Some "m1") 0; job "b" "completed" (Some "m1") 0;
   job "c" "queued" None 0].
Definition st0 : Storage := store rows [client "m1" "approved" (Some "Vendor")] [].
Definition s0 : Service := service (mk_queue st0 ["c"]).
End Demo.
#[local] Existing Instance TickChrono.tick_chrono.
#[local] Existing Instance TickChrono.tick_chrono_laws.
#[local] Existing Instance Demo.demo_json.

(** ** A job's life on the server *)

Section life.
Context `{EventJson}.

(** Whatever the interleaving of captures, subscriptions, deliveries,
    status updates, completion reports, retries, reaper ticks, pairing and
    printer changes, and whichever database statements fail: a job whose
    stored state is finished stays finished, and it is never put on any job
    stream again. *)
Theorem finished_job_is_never_sent_again s s' j :
  rtc server_step s s' → finished j (tables s) →
  finished j (tables s') ∧ no_new_sends j s s'.
Proof.
  intros Hsteps Hf. destruct (server_steps_le _ _ Hsteps) as [Hle Hs].
  split; [by eapply jobs_le_finished|by apply Hs].
Qed.

(** Over the same steps and failures a captured job is never lost: its
    row stays, the document, the routing, the spool file and the payload hash
    in it are the captured ones, and its retry counter only grows. *)
Theorem captured_job_is_never_lost s s' j r :
  rtc server_step s s' → job_row j (tables s) = Some r →
  ∃ r', job_row j (tables s') = Some r' ∧ same_document r r' ∧
        r_retry_count r ≤ r_retry_count r'.
Proof.
  intros Hsteps Hr. destruct (server_steps_le _ _ Hsteps) as [Hle _].
  destruct (Hle j r Hr) as (r' & Hr' & Hd & Hn & _). eauto.
Qed.
End life.

Lemma finished_job_is_never_sent_again_witness :
  let s1 := snd (complete_job (Demo.completion "b" false false) Demo.s0) in
  let s2 := snd (reaper_tick 0 s1) in
  rtc server_step Demo.s0 s2 ∧ finished "b" (tables Demo.s0) ∧
  finished "b" (tables s2) ∧ no_new_sends "b" Demo.s0 s2.
Proof.
  intros s1 s2.
  assert (rtc server_step Demo.s0 s2) as Hsteps.
  { eapply rtc_l; [apply step_complete|]. eapply rtc_l; [apply step_reaper|]. apply rtc_refl. }
  assert (finished "b" (tables Demo.s0)) as Hf by (eexists; split; reflexivity).
  destruct (finished_job_is_never_sent_again _ _ _ Hsteps Hf). auto.
Defined.

Lemma captured_job_is_never_lost_witness :
  let s1 := snd (complete_job (Demo.completion "a" false false) Demo.s0) in
  let s2 := snd (fire_retry 0 s1) in
  ∃ r r', job_row "a" (tables Demo.s0) = Some r ∧ job_row "a" (tables s2) = Some r' ∧
    same_document r r' ∧ r_retry_count r ≤ r_retry_count r'.
Proof.
  intros s1 s2.
  assert (rtc server_step Demo.s0 s2) as Hsteps.
  { eapply rtc_l; [apply step_complete|]. eapply rtc_l; [apply step_retry|]. apply rtc_refl. }
  eexists.
  destruct (captured_job_is_never_lost _ _ "a" _ Hsteps eq_refl) as (r' & H1 & H2 & H3).
  exists r'. split; [reflexivity|]. auto.
Defined.

(** ** Completion reports, status updates, requeues *)

Section outcomes.
Context `{EventJson}.

(** C3: a completion report on a stored job: success completes it, an
    unconfirmed print makes it [unconfirmed] whatever it was, a failure fails
    an open job, turns a completed one into [unconfirmed] and leaves the other
    finished states alone; a retry - with its doubling, capped delay - is
    scheduled exactly for a failure of an open job that has retries left. *)
Theorem complete_job_table c st n target s :
  quiet (storage (queue s)) → job_is (jc_job_id c) st n target (tables s) →
  ∃ s', complete_job c s = (Ok tt, s') ∧
    job_is (jc_job_id c) (completion_state c st) n target (tables s') ∧
    scheduled s' = scheduled s
      ++ completion_retries c st n (max_retries s) (retry_delay_secs s).
Proof.
  intros Hq Hj.
  destruct (complete_job_total (scheduled s) (max_retries s) (retry_delay_secs s) c st n target s)
    as ([] & s' & E & [_ Hj'] & Hl & _); [done|]. eauto.
Qed.

(** A status report moves a job that is still open to the reported state
    and leaves a finished one alone, and it never changes the retry counter
    or the routing; an event of stage [unconfirmed] overrides the wire state. *)
Theorem status_report_outcome u st n target s :
  quiet (storage (queue s)) → job_is (su_job_id u) st n target (tables s) →
  let reported := status_update_state (proto_state_to_core (su_state u))
                    (ev_stage <$> update_event u) in
  ∃ s', report_status [u] s = (Ok tt, s') ∧
    job_is (su_job_id u) (if text_in st OPEN_STATES then state_to_str reported else st)
      n target (tables s').
Proof.
  intros Hq Hj reported.
  assert (hoare (qgood (job_is (su_job_id u) st n target)) (apply_status_update u)
    (λ _, qgood (job_is (su_job_id u)
            (if text_in st OPEN_STATES then state_to_str reported else st) n target)))
    as Hh.
  { unfold apply_status_update. eapply hoare_bind; [apply hoare_queue_unless_terminal|].
    intros b. apply hoare_pure. intros _. fold reported.
    destruct (update_event u) as [e|]; [|by apply hoare_ret].
    apply hoare_ignore. apply (hoare_queue_insert_event e (λ rows, NoDup (map r_job_id rows) ∧
      ∃ r, List.find (by_id (su_job_id u)) rows = Some r ∧ r_state r = _ ∧
           r_retry_count r = n ∧ r_target_client_id r = target)). }
  destruct (Hh (queue s) (conj Hq Hj)) as ([] & q' & E & _ & Hj').
  exists (set_queue q' s). split; [|done].
  unfold report_status, for_each, on_queue, zoom, map_err, mbind, M_bind. by rewrite E.
Qed.

(** Under every schedule of database failures the requeue of a job either
    reports success, and then exactly that row goes from a failed or in-flight
    state back to [queued] with one more retry and the reason, or it reports
    that the job is in another state, or it fails - and then nothing changed,
    and a job that exists makes it fail only when the engine did. *)
Theorem requeue_changes_one_failed_job j d s :
  jobs_pk (conn s) →
  let now := to_rfc3339 (clock s (ticks s)) in
  let '(res, s') := Storage.requeue_job j d s in
  match res with
  | Ok true => ∃ row, job_row j (conn s) = Some row ∧ text_in (r_state row) REQUEUEABLE = true ∧
      one_job_changed j (job_set "queued" (r_retry_count row + 1) d now row) (conn s) (conn s')
  | Ok false => ∃ row, job_row j (conn s) = Some row ∧
      text_in (r_state row) REQUEUEABLE = false ∧ conn s' = conn s
  | Err _ => conn s' = conn s ∧ (quiet s → job_row j (conn s) = None)
  end.
Proof.
  intros Hpk. apply (conditional_update_outcome ("failed to requeue job " +:+ j) j REQUEUEABLE
    (λ now r, job_set "queued" (r_retry_count r + 1) d now r)); done.
Qed.

(** The startup recovery of a client's queue is all or nothing: when it
    returns [n], the [n] in-flight jobs - and no other row - are failed with
    the reason, none is in flight any more, and each has its audit event; when
    any statement or the commit fails, the database is as it was. *)
Theorem fail_interrupted_jobs_all_or_nothing reason s :
  let '(res, s') := Storage.fail_interrupted_jobs reason s in
  match res with
  | Ok n =>
      n = Z.of_nat (List.length (List.filter in_flight (jobs (conn s)))) ∧
      List.filter in_flight (jobs (conn s')) = [] ∧
      (∃ upd, jobs (conn s') = map (λ r, if in_flight r
          then job_set "failed" (r_retry_count r) reason upd r else r) (jobs (conn s))) ∧
      ∃ new, job_events (conn s') = job_events (conn s) ++ new ∧
        Permutation (map e_job_id new) (map r_job_id (List.filter in_flight (jobs (conn s)))) ∧
        Forall (λ e, e_stage e = "failed" ∧ e_success e = 0 ∧ e_detail e = reason) new
  | Err _ => conn s' = conn s
  end.
Proof. apply fail_interrupted_outcome. Qed.
End outcomes.

Ltac demo_pk := apply (bool_decide_unpack _); vm_compute; exact I.
Ltac demo_job := split; [demo_pk|]; eexists; repeat split; reflexivity.

Lemma complete_job_table_witness :
  ∃ s', complete_job (Demo.completion "a" false false) Demo.s0 = (Ok tt, s') ∧
    job_is "a" "failed" 0 (Some "m1") (tables s') ∧
    scheduled s' = [{| sr_delay := 30; sr_job_id := "a"; sr_error_detail := "jam" |}].
Proof.
  apply (complete_job_table (Demo.completion "a" false false) "printing" 0 (Some "m1") Demo.s0);
    [reflexivity|]. demo_job.
Defined.

Lemma status_report_outcome_witness :
  ∃ s', report_status [{| su_job_id := "a"; su_state := PPrinting; su_message := "U" |}] Demo.s0
        = (Ok tt, s') ∧ job_is "a" "unconfirmed" 0 (Some "m1") (tables s').
Proof.
  pose (u := {| su_job_id := "a"; su_state := PPrinting; su_message := "U" |}).
  assert (job_is "a" "printing" 0 (Some "m1") (tables Demo.s0)) as Hj by demo_job.
  destruct (status_report_outcome u "printing" 0 (Some "m1") Demo.s0 eq_refl Hj)
    as (s' & E & Hj'). exists s'. split; [exact E|]. vm_compute in Hj'. exact Hj'.
Defined.

Lemma requeue_changes_one_failed_job_witness :
  jobs_pk (conn Demo.st0) ∧
  ∃ row, job_row "a" (conn Demo.st0) = Some row ∧ text_in (r_state row) REQUEUEABLE = true ∧
    one_job_changed "a" (job_set "queued" 1 "stale" "IIIIIIIIII" row)
      (conn Demo.st0) (conn (snd (Storage.requeue_job "a" "stale" Demo.st0))).
Proof.
  assert (jobs_pk (conn Demo.st0)) as Hpk by demo_pk.
  split; [exact Hpk|]. destruct (requeue_changes_one_failed_job "a" "stale" Demo.st0 Hpk)
    as (row & Hr & Ht & Hone). exists row. injection Hr as <-. auto.
Defined.

(** ** Payload download *)

Section download.
Context `{Chrono} (fs_read : string → result string (list Byte.byte)).

(** A download of a stored, readable payload from [offset] returns: its
    chunks, concatenated, are the payload from that offset, each non-empty
    chunk is the next [CHUNK_SIZE] bytes under its own offset, and exactly the
    last one is flagged last (past the end there is no chunk); nothing in the
    store changes, and an unknown job or an unreadable file is an error. *)
Theorem download_payload_complete j offset s :
  quiet (storage (queue s)) →
  match job_row j (tables s) with
  | None => download_payload fs_read j offset s = (Err (NotFound ("job " +:+ j +:+ " not found")), s)
  | Some row =>
    match fs_read (r_spool_path row) with
    | Err e => download_payload fs_read j offset s
               = (Err (Internal ("failed to read spool file: " +:+ e)), s)
    | Ok data => ∃ cs, download_payload fs_read j offset s = (Ok cs, s) ∧
        concat (map pc_data cs) = drop offset data ∧
        (∀ i c, cs !! i = Some c → chunk_at j data (offset + i * CHUNK_SIZE) c) ∧
        (∀ i c, cs !! i = Some c → pc_is_last c = true ↔ S i = length cs)
    end
  end.
Proof.
  intros Hq. unfold download_payload, on_queue, zoom, map_err, on_storage, get_spool_path.
  unfold mbind, M_bind, zoom. rewrite engine_quiet, query_quiet by done.
  assert (set_queue (set_storage (storage (queue s)) (queue s)) s = s) as Hs
    by (by destruct s as [[] ? ? ? ? ? ?]).
  rewrite Hs. unfold job_row, tables.
  destruct (List.find (by_id j) (jobs (conn (storage (queue s))))) as [row|]; simpl; [|done].
  destruct (fs_read (r_spool_path row)) as [data|e]; [|done].
  eexists; split; [done|]. apply (payload_chunks_spec j data (S (length data)) offset). lia.
Qed.
End download.

Lemma download_payload_complete_witness :
  let data := [Byte.x61; Byte.x62; Byte.x63] in
  ∃ cs, download_payload (λ _, Ok data) "a" 1 Demo.s0 = (Ok cs, Demo.s0) ∧
    concat (map pc_data cs) = [Byte.x62; Byte.x63].
Proof.
  intros data. destruct (download_payload_complete (λ _, Ok data) "a" 1 Demo.s0 eq_refl)
    as (cs & E & Hc & _). exists cs. split; [exact E|exact Hc].
Defined.

(** ** Routing *)

Section routing.
Context `{Chrono}.

(** Pushing a new job, under every schedule of database failures: it
    either fails with the store, the channels and the default queue untouched
    - which takes an engine failure - or the job is stored with some target
    and its id is delivered where that target says: to the connected client's
    channel, held in the store for a client that is away, or to the default
    queue when there is no target; the target is the pairing of the job's printer,
    or - when a call of the push into the engine failed - the job's own. *)
Theorem push_stores_and_routes meta path q :
  job_row (job_id meta) (conn (storage q)) = None →
  let '(res, q') := push meta path q in
  match res with
  | Ok _ => ∃ target,
      jobs (conn (storage q')) = jobs (conn (storage q))
        ++ [job_to_row (with_target target meta) path] ∧
      delivered target (job_id meta) q q' ∧ spends (storage q) (storage q') ∧
      target_of meta (conn (storage q)) (failed_between (storage q) (storage q')) target
  | Err _ => conn (storage q') = conn (storage q) ∧ same_queues q q' ∧ ¬ quiet (storage q)
  end.
Proof. apply push_outcome. Qed.

(** While the engine works, the requeue of a failed or in-flight job puts
    it back to [queued] with one more retry and delivers its id where the
    stored target says - a paired job never enters the default queue. *)
Theorem requeue_routes_by_stored_target j d q row :
  quiet (storage q) → jobs_pk (conn (storage q)) → job_row j (conn (storage q)) = Some row →
  text_in (r_state row) REQUEUEABLE = true →
  ∃ q', requeue_job j d q = (Ok true, q') ∧ delivered (r_target_client_id row) j q q' ∧
    job_is j "queued" (r_retry_count row + 1) (r_target_client_id row) (conn (storage q')).
Proof. apply requeue_job_outcome. Qed.

(** A fresh [JobQueue] starts its default queue with exactly the stored
    queued jobs that are paired to no client, oldest first, and with no
    channel; it fails only when the engine does. *)
Theorem new_queue_holds_unpaired_jobs st :
  match new st with
  | (Ok q, st') => conn st' = conn st ∧ storage q = st' ∧ client_channels q = ∅ ∧
      default_pending q
      = map r_job_id (List.filter (λ r, match r_target_client_id r with Some _ => false | None => true end)
          (order_by r_created_at (List.filter (λ r, r_state r =t? "queued") (jobs (conn st)))))
  | (Err _, st') => conn st' = conn st ∧ ¬ quiet st
  end.
Proof.
  unfold new. destruct (get_pending_jobs st) as [[js|e] st'] eqn:E.
  - apply prepared_query_ok in E as [-> Hc]. do 3 (split; [done|]). simpl.
    induction (order_by r_created_at _) as [|r l IH]; simpl; [done|].
    unfold unpaired at 1. simpl. destruct (r_target_client_id r); simpl; by rewrite IH.
  - pose proof (prepared_query_conn (A := list JobMetadata) "failed to prepare pending-jobs query"
      "failed to read pending jobs" (λ t, map row_to_job (order_by r_created_at
      (List.filter (λ r, r_state r =t? "queued") (jobs t)))) st) as Hc.
    fold get_pending_jobs in Hc. rewrite E in Hc. split; [done|]. intros Hq.
    unfold get_pending_jobs, mbind, M_bind in E.
    by rewrite engine_quiet, query_quiet in E.
Qed.
End routing.

Definition demo_meta : JobMetadata := with_target None (row_to_job (Demo.job "n" "queued" None 0)).

Lemma push_stores_and_routes_witness :
  let '(res, q') := push demo_meta "/spool/n" (queue Demo.s0) in
  res = Ok tt ∧ channels q' = {[0%nat := ["n"]]} ∧ default_pending q' = ["c"].
Proof.
  pose proof (push_stores_and_routes demo_meta "/spool/n" (queue Demo.s0) eq_refl) as H.
  destruct (push demo_meta "/spool/n" (queue Demo.s0)) as [[[]|e] q'];
    [|destruct H as (_ & _ & Hn); by destruct Hn].
  destruct H as (target & _ & Hd & _ & [Ht|[_ Hf]]); [|by apply failed_not_quiet in Hf; destruct Hf].
  vm_compute in Ht. subst target.
  destruct Hd as [Hd Hc]. split; [reflexivity|]. split; [rewrite Hc; reflexivity|exact Hd].
Defined.

Lemma requeue_routes_by_stored_target_witness :
  ∃ q', requeue_job "a" "stale" (queue Demo.s0) = (Ok true, q') ∧
    delivered (Some "m1") "a" (queue Demo.s0) q' ∧
    job_is "a" "queued" 1 (Some "m1") (conn (storage q')).
Proof.
  apply (requeue_routes_by_stored_target "a" "stale" (queue Demo.s0)
           (Demo.job "a" "printing" (Some "m1") 0)); [reflexivity| |reflexivity|reflexivity].
  demo_pk.
Defined.

(** The read-back of the requeued job may fail: a job paired to a client then
    enters the default queue, which any other client is served from. *)
Lemma requeue_leaks_a_paired_job :
  let q := Demo.mk_queue (Demo.store Demo.rows [] [false; true]) [] in
  let '(res, q') := requeue_job "a" "stale" q in
  res = Ok true ∧ default_pending q' = ["a"] ∧
  (r_target_client_id <$> job_row "a" (conn (storage q'))) = Some (Some "m1").
Proof. repeat split. Qed.

(** A failed printer lookup makes a job for a paired printer an unpaired one. *)
Lemma push_leaks_a_paired_job :
  let q := Demo.mk_queue (Demo.store Demo.rows [] [true]) [] in
  let '(res, q') := push demo_meta "/spool/n" q in
  res = Ok tt ∧ default_pending q' = ["n"].
Proof. repeat split. Qed.

(** ** Job streams *)

Section streams.
Context `{EventJson}.

(** C21: one turn of a job stream, under every schedule of failures: it
    leaves the store alone; it sends nothing or exactly one stored [queued]
    job, on its own stream; only a stored, approved registration gets past the
    pairing gate, and only one without a driver of its own draws from the
    default queue. *)
Theorem delivery_turn_gates st s :
  let '(res, s') := delivery_turn st s in
  tables s' = tables s ∧ one_send (st_connection_id st) s s' ∧
  (default_pending (queue s') ≠ default_pending (queue s) →
   ∃ r, client_row (st_machine_id st) (tables s) = Some r ∧ row_approved r = true ∧
        row_takes_default r = true) ∧
  ((∀ r, client_row (st_machine_id st) (tables s) = Some r → row_approved r = false) →
   res = Ok WaitPairing ∧ streams s' = streams s ∧ same_queues (queue s) (queue s')).
Proof.
  pose proof (delivery_turn_outcome st s) as Ho. pose proof (delivery_turn_waits st s) as Hw.
  destruct (delivery_turn st s) as [res s']. destruct Ho as (Ht & Hs & Hd).
  do 3 (split; [done|]). intros Hno. destruct (Hw Hno) as (-> & _ & Hstr & Hq). auto.
Qed.

(** A stream that ends after its client has already reconnected leaves
    the newer connection alone: its registration, its channel, its peer
    address, the client's online mark and every other row stay, and only the
    ended stream and its own channel go; the counter is one less. *)
Theorem stale_disconnect_keeps_newer_connection st s cid ch :
  client_channels (queue s) !! st_machine_id st = Some (cid, ch) →
  cid ≠ st_connection_id st → ch ≠ st_rx st →
  let '(res, s') := disconnect st s in
  res = Ok tt ∧ tables s' = tables s ∧
  client_channels (queue s') = client_channels (queue s) ∧
  channels (queue s') !! ch = channels (queue s) !! ch ∧
  channels (queue s') !! st_rx st = None ∧
  streams s' = delete (st_connection_id st) (streams s) ∧
  connected_clients s' = as_u64 (connected_clients s - 1) ∧
  (∀ peer, stream_peers s !! st_machine_id st = Some (cid, peer) →
           stream_peers s' !! st_machine_id st = Some (cid, peer)).
Proof.
  intros Hc Hne Hch. pose proof (disconnect_outcome st s) as Ho.
  destruct (disconnect st s) as [res s']. destruct Ho as (-> & Hn & Hs & Hp & Hcs & _ & Hl).
  unfold is_live in Hl. rewrite Hc, (proj2 (String.eqb_neq _ _) Hne) in Hl. destruct Hl as [Hcc Ht].
  do 3 (split; [done|]). rewrite Hcs. split; [by rewrite lookup_delete_ne|].
  split; [by rewrite lookup_delete_eq|]. do 2 (split; [done|]).
  intros peer Hpeer. rewrite Hp. unfold StreamPeers.disconnected.
  by rewrite Hpeer, (proj2 (String.eqb_neq _ _) Hne).
Qed.

(** Whatever the interleaving and the failures, the connected-clients
    counter (a 64-bit counter) stays the number of open job streams. *)
Theorem connected_clients_counts_streams s s' :
  rtc server_step s s' → streams_ok s →
  connected_clients s' = as_u64 (Z.of_nat (size (streams s'))).
Proof.
  intros Hsteps. induction Hsteps as [s|a b c Hab _ IH]; [by intros []|].
  intros Hok. apply IH. by eapply server_step_streams.
Qed.
End streams.

Lemma stale_disconnect_keeps_newer_connection_witness :
  let st := {| st_machine_id := "m1"; st_connection_id := "c0"; st_rx := 7; st_sent := [];
               st_client_gone := true |} in
  let '(res, s') := disconnect st Demo.s0 in
  tables s' = tables Demo.s0 ∧ client_channels (queue s') !! "m1" = Some ("c1", 0%nat).
Proof.
  intros st.
  pose proof (stale_disconnect_keeps_newer_connection st Demo.s0 "c1" 0%nat eq_refl) as H.
  destruct (disconnect st Demo.s0) as [res s'].
  destruct H as (_ & Ht & Hc & _); [done|done|]. split; [exact Ht|]. rewrite Hc. reflexivity.
Defined.

Lemma connected_clients_counts_streams_witness :
  let ident := {| ci_machine_id := "m2"; ci_hostname := "h"; ci_printer_names := [];
                  ci_client_version := "1"; ci_virtual_printer_name := "";
                  ci_virtual_printer_driver := "" |} in
  let s1 := snd (subscribe_jobs "c2" None ident Demo.s0) in
  connected_clients s1 = 2 ∧ size (streams s1) = 2%nat.
Proof.
  intros ident s1.
  assert (rtc server_step Demo.s0 s1) as Hsteps.
  { eapply rtc_l; [apply (step_subscribe "c2"); reflexivity|apply rtc_refl]. }
  assert (streams_ok Demo.s0) as Hok.
  { split; [reflexivity|]. intros cid i. intros Hi. apply lookup_fmap_Some in Hi as (st & <- & Hs).
    unfold Demo.s0, Demo.service in Hs. cbn [streams] in Hs.
    by apply lookup_singleton_Some in Hs as [<- <-]. }
  assert (size (streams s1) = 2%nat) as Hsz by (vm_compute; reflexivity).
  split; [|exact Hsz].
  rewrite (connected_clients_counts_streams _ _ Hsteps Hok), Hsz. reflexivity.
Defined.

(** The [select!] arm of the delivery loop does not read the registration
    again: a client rejected while it waited is sent one more job. *)
Lemma select_arm_serves_a_rejected_client :
  let q := Demo.mk_queue (Demo.store [Demo.job "a" "queued" (Some "m1") 0]
                            [Demo.client "m1" "rejected" None] []) [] in
  let s := Demo.service (set_channels {[0%nat := ["a"]]} 1 q) in
  let st := {| st_machine_id := "m1"; st_connection_id := "c1"; st_rx := 0; st_sent := [];
               st_client_gone := false |} in
  fst (delivery_turn st s) = Ok WaitPairing ∧
  map pj_job_id (sends "a" "c1" (snd (delivery_select_recv st s))) = ["a"].
Proof. split; reflexivity. Qed.

(** ** Registrations *)

Section registrations.
Context `{Chrono}.

(** While the engine works, a client whose stored pairing reads as
    rejected is refused: no stream, no channel, no peer, no count, and its
    pairing text stays what it was. *)
Theorem rejected_client_is_refused cid peer ident s row :
  quiet (storage (queue s)) → client_row (ci_machine_id ident) (tables s) = Some row →
  pairing_from_str_lossy (c_pairing_state row) = Rejected →
  let '(res, s') := subscribe_jobs cid peer ident s in
  res = Err (PermissionDenied "client has been rejected") ∧
  streams s' = streams s ∧ stream_peers s' = stream_peers s ∧
  connected_clients s' = connected_clients s ∧ same_queues (queue s) (queue s') ∧
  (c_pairing_state <$> client_row (ci_machine_id ident) (tables s')) = Some (c_pairing_state row).
Proof. apply subscribe_rejected. Qed.

(** The upsert of a job, under every schedule of failures, changes one
    row or nothing: a new job is stored as given, a stored one keeps all but
    its state, retry counter, error and update time. *)
Theorem insert_job_keeps_the_document meta path s :
  let '(res, s') := insert_job meta path s in
  match res with
  | Ok _ => one_job_changed (job_id meta)
      (upserted (job_to_row meta path) (job_row (job_id meta) (conn s))) (conn s) (conn s')
  | Err _ => conn s' = conn s ∧ ¬ quiet s
  end.
Proof. apply insert_job_outcome. Qed.
End registrations.

Section reading.
Context `{ChronoLaws}.

(** A new job reads back as it was written: every field in its Rust
    range survives the signed columns, the text dates and the state text. *)
Theorem stored_job_reads_back meta path s :
  quiet s → job_in_range meta → job_row (job_id meta) (conn s) = None →
  ∃ s', (_ ← insert_job meta path; get_job (job_id meta)) s = (Ok (Some meta), s').
Proof.
  intros Hq Hr Hf. pose proof (insert_job_outcome meta path s) as Hi.
  unfold mbind at 1, M_bind at 1.
  assert (quiet (snd (insert_job meta path s))) as Hq'.
  { unfold insert_job, mbind, M_bind. by rewrite execute_quiet by done. }
  destruct (insert_job meta path s) as [[u|e] s1]; [|by destruct Hi].
  destruct Hi as [Hj _]. rewrite Hf in Hj. simpl in *. exists s1.
  unfold get_job, mbind, M_bind. rewrite engine_quiet, query_quiet by done.
  unfold job_row in Hj. rewrite Hj. simpl. by rewrite job_roundtrip.
Qed.
End reading.

Section selection.
Context `{Chrono}.

(** The listings that drive delivery and recovery select exactly the
    jobs they name, each as often as it is stored, oldest first: the pending
    jobs are the queued ones, the stale ones are in flight and were last
    updated before the cutoff, a client's backlog is its own queued jobs. *)
Theorem job_listings_are_exact s :
  (∀ js s', get_pending_jobs s = (Ok js, s') →
     conn s' = conn s ∧ selected (λ r, r_state r =t? "queued") r_created_at (conn s) js) ∧
  (∀ cutoff js s', Storage.get_stale_jobs cutoff s = (Ok js, s') →
     conn s' = conn s ∧ selected (is_stale (to_rfc3339 cutoff)) r_updated_at (conn s) js) ∧
  (∀ c js s', get_queued_jobs_for_client c s = (Ok js, s') →
     conn s' = conn s ∧
     selected (λ r, null_eq (r_target_client_id r) c && (r_state r =t? "queued"))
       r_created_at (conn s) js).
Proof.
  split; [|split]; intros;
    match goal with E : _ = (Ok _, _) |- _ => apply prepared_query_ok in E as [-> ->] end;
    (split; [done|apply selected_order_by]).
Qed.

(** After a backend's run, whatever it emitted and in whatever order, the
    events were all sent in that order and [printer_accepted] says whether one
    of them was a successful [Acknowledged]. *)
Theorem printer_accepted_iff_acknowledged events :
  let em := EventEmitter.emit_all events EventEmitter.new in
  EventEmitter.sender em = events ∧
  (EventEmitter.printer_accepted em = true ↔
   ∃ e, In e events ∧ ev_stage e = SAcknowledged ∧ ev_success e = true).
Proof.
  simpl. split; [by rewrite EventEmitter.emit_all_sender|].
  rewrite EventEmitter.emit_all_accepted. simpl. rewrite existsb_exists.
  split; intros (e & Hin & He); exists e; (split; [done|]).
  - apply andb_prop in He as [Hs Hok]. by apply bool_decide_eq_true in Hs.
  - destruct He as [Hs ->]. by rewrite bool_decide_true.
Qed.
End selection.

Lemma rejected_client_is_refused_witness :
  let s := Demo.service (Demo.mk_queue
             (Demo.store Demo.rows [Demo.client "m2" "Rejected" None] []) []) in
  let ident := {| ci_machine_id := "m2"; ci_hostname := "h"; ci_printer_names := [];
                  ci_client_version := "1"; ci_virtual_printer_name := "";
                  ci_virtual_printer_driver := "" |} in
  fst (subscribe_jobs "c2" None ident s) = Err (PermissionDenied "client has been rejected").
Proof.
  intros s ident.
  pose proof (rejected_client_is_refused "c2" None ident s (Demo.client "m2" "Rejected" None)
    eq_refl eq_refl eq_refl) as H.
  destruct (subscribe_jobs "c2" None ident s) as [res s']. exact (proj1 H).
Defined.

Lemma stored_job_reads_back_witness :
  ∃ s', (_ ← insert_job demo_meta "/spool/n"; get_job "n") Demo.st0 = (Ok (Some demo_meta), s').
Proof.
  apply (stored_job_reads_back demo_meta "/spool/n" Demo.st0); [reflexivity| |reflexivity].
  repeat split; vm_compute; first [reflexivity|discriminate].
Defined.

Lemma job_listings_are_exact_witness :
  ∃ js, get_pending_jobs Demo.st0 = (Ok js, Demo.st0) ∧ map job_id js = ["c"] ∧
    selected (λ r, r_state r =t? "queued") r_created_at (conn Demo.st0) js.
Proof.
  eexists. split; [reflexivity|]. split; [reflexivity|].
  apply (proj1 (job_listings_are_exact Demo.st0) _ _ eq_refl).
Defined.
