(* ===== verification/DeviceProps.v ===== *)
(** * Properties of the device-job source

    What the journal, the workers, the acks and the LAN API promise together,
    each with an instance on a concrete client (module [Demo]). *)

From Stdlib Require Import ZArith String Sorting.Sorted.
From stdpp Require Import relations.
From S2P Require Import Prelude RustStd Core Sqlite Json DeviceApi JournalData JournalCard.
From S2P Require Import Journal DeviceTasks JournalTheory DeviceSystem DeviceTheory.
#[local] Open Scope Z_scope.

(** ** A concrete client: one fiscal device, no card terminal *)

Module Demo.
Import TickChrono.
#[export] Existing Instance tick_chrono.
#[export] Existing Instance BitsJson.bits_json.
#[export] Existing Instance BitsJson.bits_json_laws.

Definition portos : DeviceExecutor :=
  {| ex_name := "portos"; ex_check := λ _, None; ex_endpoints := ["p"]; ex_endpoint := λ _, "p";
     ex_status := "ok" |}.
Definition registry : ExecutorRegistry := λ k, match k with Fiscal => Some portos | Card => None end.
Definition fiscal : DeviceQueue := {| dq_kind := Fiscal; dq_endpoint := "p" |}.

Definition receipt (id : Z) : DeviceJob :=
  {| dj_id := id; dj_job_type := "fiscal.receipt"; dj_client_uuid := "u1"; dj_kasa_id := Some 3;
     dj_kasa_name := "till"; dj_pos_order := VNull; dj_payload := VObject [];
     dj_created_at := ""; dj_claimed_at := "" |}.
Definition client (d : JTables) (fs : list bool) : Client :=
  {| journal := {| conn := d; faults := fs; clock := λ n, (10 + n)%nat; ticks := 0 |};
     queues := λ _, None; reconciling := []; asked := [] |}.
Definition fresh : Client := client empty_tables [].
Definition started : Client := snd (restart registry fresh).
Definition with_job : Client := snd (accept_job registry (receipt 7) 0 started).
Definition running : Client := snd (worker_take Timing_default fiscal 0 0 with_job).
Definition done : Client :=
  snd (execute_finish fiscal 7 (Ok (Done (VObject [("receipt", VString "R1")]))) running).
Definition till_sale : LanRequest :=
  {| lr_kasa_id := 3; lr_client_uuid := "u9"; lr_job_type := "fiscal.receipt";
     lr_payload := VObject []; lr_pos_order_id := None |}.
Definition with_sale : Client := snd (admit_lan registry till_sale 0 done).
End Demo.
Import Demo.

(** ** The life of a device job *)

Section life.
Context `{Chrono} `{JsonText} (registry : ExecutorRegistry) (timing : Timing).

(** C35: in every state the client can reach - tasks interleaved in any order,
    any answers of Odoo and of the devices, any failing journal statements,
    any number of stops and starts - an executor was called for a job at most
    once since its row was last pruned, so at most once if it never was; for a
    LAN job at most once ever; and a job still waiting was not run since. *)
Theorem job_runs_at_most_once c pruned j :
  reachable registry timing c pruned →
  (executions j c ≤ 1 + pruned j)%nat
  ∧ (is_lan_job j = true → (executions j c ≤ 1)%nat)
  ∧ ((0 < waiting j (tables c))%nat → (executions j c ≤ pruned j)%nat).
Proof.
  intros [_ Hj]%reachable_at_most_once. destruct (Hj j) as (H1 & H2 & H3). split; [lia|]. split.
  - intros Hl. specialize (H3 Hl). unfold handed_out in H3. destruct (_ <=? _); lia.
  - lia.
Qed.

(** C36: over any interleaving of the tasks' steps, the first final outcome of
    a job stays: a row that is done or failed keeps its job, its state, its
    result, its error code and its error text. *)
Theorem final_outcome_never_changes c c' :
  rtc (step registry timing) c c' → outcome_kept (tables c) (tables c').
Proof.
  induction 1 as [|c c1 c' Hs _ IH]; [reflexivity|]. etrans; [|exact IH].
  apply (step_tables registry timing outcome_kept evolves_outcome_kept insert_outcome_kept
           insert_lan_outcome_kept _ _ Hs).
Qed.

(** What a start makes of the progress of a row, written out: [received] and
    [executing] mean that a device may have been asked, every other state is
    left alone. *)
Definition interrupted_state (p : Progress) : option JState :=
  if decide (p_state p = "received") then Some Received
  else if decide (p_state p = "executing") then Some Executing else None.
Definition interrupted_progress (ts : string) (p : Progress) : Progress :=
  match interrupted_state p with
  | None => p
  | Some _ =>
    {| p_state := "indeterminate"; p_result := p_result p; p_error_code := p_error_code p;
       p_error_text := Some ("devbridge restarted while the job was " +:+ p_state p);
       p_attempts := p_attempts p; p_received_at := p_received_at p; p_updated_at := ts;
       p_contact_at := p_contact_at p |}
  end.

Lemma in_flight_interrupted (t : Table) (r : t_row t) :
  in_flight t r = match interrupted_state (t_progress t r) with Some _ => true | None => false end.
Proof.
  unfold in_flight, interrupted_state, text_in. cbn -[String.eqb].
  destruct (decide (p_state (t_progress t r) = "received")) as [->|Hr%String.eqb_neq]; [done|].
  destruct (decide (p_state (t_progress t r) = "executing")) as [->|He%String.eqb_neq]; [done|].
  by rewrite Hr, He.
Qed.

Lemma recovered_interrupted (t : Table) (ts : string) (r : t_row t) :
  t_set t (t_progress t r) r = r →
  after_restart ts t r = t_set t (interrupted_progress ts (t_progress t r)) r.
Proof.
  intros Hid. unfold after_restart, interrupted_progress. rewrite in_flight_interrupted.
  destruct (interrupted_state (t_progress t r)); [done|by rewrite Hid].
Qed.

Lemma in_flight_of_interrupted (t : Table) (lan : bool) (d : JTables) :
  in_flight_of t lan d ≡ₚ
  omap (λ r, pair (if lan then - t_id t r else t_id t r) <$> interrupted_state (t_progress t r))
    (t_rows t d).
Proof.
  unfold in_flight_of.
  rewrite order_by_id_perm. induction (t_rows t d) as [|r l IH]; [done|]. simpl.
  rewrite in_flight_interrupted. unfold interrupted_state at 1 2.
  destruct (decide (p_state (t_progress t r) = "received")) as [E|_]; simpl;
    [rewrite E, IH; by destruct lan|].
  destruct (decide (p_state (t_progress t r) = "executing")) as [E|_]; simpl;
    [rewrite E, IH; by destruct lan|done].
Qed.

Lemma recover_table_quiet ts t lan s :
  quiet s → ∃ rows s', recover_table ts t lan s = (Ok rows, s') ∧ quiet s'.
Proof.
  intros Hq. unfold recover_table, mbind, M_bind. rewrite engine_quiet by done.
  rewrite query_quiet by done. rewrite execute_quiet by done. eauto.
Qed.

Lemma recover_after_restart_quiet s :
  quiet s → ∃ rows, fst (recover_after_restart s) = Ok rows.
Proof.
  intros Hq. unfold recover_after_restart, transaction, in_transaction, now_text, mbind, M_bind.
  rewrite engine_quiet by done. rewrite utc_now_run. simpl.
  edestruct (recover_table_quiet (to_rfc3339 (clock s (ticks s))) ODOO_TABLE false)
    as (odoo & s1 & -> & Hq1); [exact Hq|].
  edestruct (recover_table_quiet (to_rfc3339 (clock s (ticks s))) LAN_TABLE true)
    as (lan & s2 & -> & Hq2); [exact Hq1|].
  rewrite engine_quiet by done. simpl. eauto.
Qed.

(** C37: a start's recovery is all or nothing.  When it succeeds - it does when
    the engine works - it names exactly the jobs that were [received] or
    [executing], with that state, the LAN jobs by their negated row ids; each
    of these rows becomes [indeterminate], with a text that says which state it
    was in and the time of the recovery, and keeps every other column; and no
    other row and no other table changes.  When it fails the tables are as they
    were. *)
Theorem recovery_is_all_or_nothing s r s' :
  recover_after_restart s = (r, s') →
  (faults s = [] → is_ok r = true) ∧
  let ts := to_rfc3339 (clock s (ticks s)) in
  match r with
  | Ok rows =>
    rows ≡ₚ omap (λ row, pair (o_job_id row) <$> interrupted_state (o_progress row))
              (device_jobs (conn s))
            ++ omap (λ row, pair (- l_id row) <$> interrupted_state (l_progress row))
                 (lan_jobs (conn s))
    ∧ conn s' =
      {| device_jobs := map (λ row, set_odoo (interrupted_progress ts (o_progress row))
                               (o_acked row) (o_ack_note row) (o_report row) row)
                          (device_jobs (conn s));
         lan_jobs := map (λ row, set_lan (interrupted_progress ts (l_progress row))
                            (l_reported row) (l_report_note row) (l_odoo_job_id row) row)
                       (lan_jobs (conn s));
         lan_seq := lan_seq (conn s); card_payments := card_payments (conn s);
         card_balances := card_balances (conn s); balance_seq := balance_seq (conn s) |}
  | Err _ => conn s' = conn s
  end.
Proof.
  intros Hr. split.
  { intros Hq. destruct (recover_after_restart_quiet s Hq) as [rows E]. rewrite Hr in E.
    simpl in E. by subst. }
  destruct r as [rows|e]; [|by eapply recover_after_restart_err].
  apply recover_after_restart_ok in Hr as [-> Hc]. rewrite Hc. split.
  - by rewrite !in_flight_of_interrupted.
  - unfold put_lan_jobs, put_device_jobs. simpl. f_equal; apply map_ext; intros [].
    + by rewrite (recovered_interrupted ODOO_TABLE).
    + by rewrite (recovered_interrupted LAN_TABLE).
Qed.

(** The acks the journal says are owed are exactly those of its rows: the
    authorisations of held card payments, then for every readable row with an
    unacknowledged final outcome or an owed report its ack, oldest job first. *)
Theorem owed_acks_are_exact s acks s' :
  owed_acks s = (Ok acks, s') →
  conn s' = conn s ∧ ∃ cards jobs, acks = cards ++ jobs
  ∧ (∀ a, In a cards ↔ ∃ c, In c (card_payments (conn s)) ∧ owed_card_auth (conn s) c = true
       ∧ a = AckAuthorized (c_job_id c) (default VNull (c_auth_result c ≫= json_from_str)))
  ∧ (∀ a, In a jobs ↔ ∃ r e, In r (device_jobs (conn s)) ∧ row_to_entry r = Some e
       ∧ owed_ack e = Some a)
  ∧ StronglySorted (λ a b, ack_job_id a ≤ ack_job_id b) jobs.
Proof.
  intros (Hc & entries & Hm & ->)%owed_acks_ok. split; [done|]. eexists _, _. split; [done|].
  split; [|split].
  - intros a. rewrite in_map_iff. split.
    + intros (c & <- & Hin). apply in_sorted_page in Hin as [Hin Ho]. eauto.
    + intros (c & Hin & Ho & ->). exists c. split; [done|]. by apply in_sorted_page.
  - intros a. rewrite in_omap. split.
    + intros (e & He & Ha). apply (mapM_in _ _ _ Hm) in He as (r & Hr & Hre).
      apply in_sorted_page in Hr as [Hr _]. eauto.
    + intros (r & e & Hr & Hre & Ha). exists e. split; [|done]. apply (mapM_in _ _ _ Hm).
      exists r. split; [|done]. apply in_sorted_page. split; [done|].
      apply (owed_ack_row r e Hre). eauto.
  - apply (omap_sorted _ (λ e, dj_id (je_job e))); [apply owed_ack_id|].
    eapply (mapM_sorted row_to_entry o_job_id); [|exact Hm|apply order_by_id_sorted].
    intros r e He. by destruct (row_to_entry_reads _ _ He).
Qed.

(** What a device answered reaches Odoo's ack unchanged: once the outcome
    of an Odoo job was recorded as done, every later page of owed acks of that
    journal holds the ack with the same result. *)
Theorem done_result_reaches_the_ack `{!JsonTextLaws} j v s s1 s2 acks s3 :
  is_lan_job j = false → plain json_depth v = true →
  record_outcome j (Done v) s = (Ok true, s1) → conn s2 = conn s1 →
  owed_acks s2 = (Ok acks, s3) → In (AckDone j v) acks.
Proof.
  intros Hj Hv Hr Hs Ho. apply record_outcome_ok in Hr. revert Hr. unfold locate. rewrite Hj. simpl.
  intros [Hc Hn]. symmetry in Hn. apply Z.eqb_eq in Hn. unfold count in Hn.
  destruct (List.filter _ _) as [|r l] eqn:Ef in Hn; [done|].
  assert (In r (device_jobs (conn s)) ∧ row_in ODOO_TABLE j OPEN_JOB_STATES r = true) as [Hin Hrow].
  { apply filter_In. rewrite Ef. by left. }
  set (ts := to_rfc3339 (clock s (ticks s))) in *.
  set (r1 := set_odoo (set_outcome "done" (Some (json_to_string v)) None None ts (o_progress r))
               0 None (o_report r) r).
  assert (In r1 (device_jobs (conn s2))) as Hin1.
  { rewrite Hs, Hc. simpl. apply in_map_iff. exists r. by rewrite Hrow. }
  assert (o_job_id r = j) as Hid by (unfold row_in in Hrow; simpl in Hrow;
    by apply andb_true_iff in Hrow as [->%Z.eqb_eq _]).
  apply owed_acks_ok in Ho as (_ & entries & Hm & ->). apply in_or_app. right.
  assert (In r1 (order_by_id o_job_id (List.filter ack_owed_row (device_jobs (conn s2))))) as Hp
    by (by apply in_sorted_page).
  destruct (mapM_total _ _ _ _ Hm Hp) as [e He]. apply in_omap. exists e.
  split; [by apply (mapM_in _ _ _ Hm); eauto|].
  destruct (row_to_entry_reads _ _ He) as [Eid _ Est Eres _ _ Ea _]. simpl in Eid, Est, Eres, Ea.
  unfold owed_ack. rewrite Ea, Eid. rewrite json_from_to in Eres by done.
  destruct (je_state e); try done. injection Eres as <-. by rewrite <- Hid.
Qed.

(** C40: when the journal's engine works and Odoo answers every ack - accepts
    it or refuses it for good - one round of the ack sender leaves nothing
    owed. *)
Theorem round_settles_every_ack odoo acks c :
  quiet (journal c) → fst (owed_acks (journal c)) = Ok acks → (∀ a, settled (odoo a)) →
  ∃ c', flush_acks odoo c = (Ok tt, c') ∧ fst (owed_acks (journal c')) = Ok [].
Proof.
  intros Hq Hr Hodoo. unfold flush_acks, mbind, M_bind. rewrite on_journal_run.
  destruct (owed_acks (journal c)) as [[acks'|e] s1] eqn:E; simpl in Hr; simplify_eq.
  pose proof (owed_acks_outstanding _ _ _ E) as Hout.
  destruct (owed_acks_ok _ _ _ E) as [Hc _]. simpl.
  assert (quiet s1) as Hq1.
  { revert E. unfold owed_acks, owed_card_auth_acks, query_mapped, mbind, M_bind.
    rewrite engine_quiet by done. rewrite query_quiet by done. rewrite engine_quiet by done.
    rewrite query_quiet by done. destruct (mapM _ _); [|done]. by intros [= _ <-]. }
  set (c1 := mkClient _ s1 _ _ _).
  destruct (flush_ack_loop_settled odoo acks c1) as (c' & -> & Hq' & Hnone); [done..| |].
  - simpl. by rewrite Hc.
  - exists c'. split; [done|]. by apply outstanding_none.
Qed.
End life.

(** ** Jobs coming in *)

Section intake.
Context `{Chrono} `{JsonText} (registry : ExecutorRegistry) (timing : Timing).

(** The queue a valid job goes to, when its worker receives. *)
Definition open_queue (job : DeviceJob) (c : Client) : option (DeviceQueue * Queue) :=
  match queue_of registry job with
  | Some q => match queues c q with
              | Some v => if q_open v then Some (q, v) else None
              | None => None
              end
  | None => None
  end.

Lemma send_for_run job item c :
  send_for registry job item c =
  match open_queue job c with
  | Some (q, v) =>
    (Ok true, mkClient _ (journal c)
       (λ q', if bool_decide (q' = q) then Some (mkQueue (q_items v ++ [item]) true (q_call v))
              else queues c q') (reconciling c) (asked c))
  | None => (Ok false, c)
  end.
Proof.
  unfold send_for, queue_for, send, open_queue, mbind, M_bind, gets. simpl.
  unfold mbind, option_bind. destruct (queue_of registry job) as [q|]; [|done].
  destruct (queues c q) as [v|] eqn:Eq; [|done]. rewrite Eq.
  destruct (q_open v) eqn:Eo; [|done]. done.
Qed.

(** A job Odoo handed out for the first time is journaled in one row
    before anything else: refused without a device when it is not valid,
    received and put at the end of its device's queue when it is, and failed
    with nothing run when that queue's worker is gone.  No executor is
    called. *)
Theorem accepted_job_is_queued_or_refused job now c :
  quiet (journal c) → 0 < dj_id job →
  existsb (odoo_by_id (dj_id job)) (device_jobs (tables c)) = false →
  ∃ c' ts, accept_job registry job now c = (Ok tt, c')
  ∧ asked c' = asked c ∧ reconciling c' = reconciling c
  ∧ match validate job registry, open_queue job c with
    | Err rejection, _ =>
      device_jobs (tables c') = device_jobs (tables c)
        ++ [inserted_row job (Some (rj_code rejection, rj_text rejection)) ts]
      ∧ queues c' = queues c
    | Ok kind, Some (q, v) =>
      device_jobs (tables c') = device_jobs (tables c) ++ [inserted_row job None ts]
      ∧ queues c' q = Some (mkQueue (q_items v ++ [WExecute (dj_id job) now]) true (q_call v))
    | Ok kind, None =>
      (∃ ts', device_jobs (tables c') = device_jobs (tables c)
        ++ [outcome_row ODOO_TABLE (worker_gone kind) ts' (inserted_row job None ts)])
      ∧ queues c' = queues c
    end.
Proof.
  intros Hq Hid Hnew. unfold accept_job. unfold mbind at 1, M_bind at 1. rewrite on_journal_run.
  assert (is_lan_job (dj_id job) = false) as Hlan by (apply Z.ltb_ge; lia).
  destruct (validate job registry) as [kind|rejection] eqn:Ev.
  - destruct (insert_quiet job None (journal c) Hq Hnew) as (s1 & ts & E & Hq1 & Hc1).
    change (insert_received job (journal c)) with (insert job None (journal c)). rewrite E. simpl.
    set (c1 := mkClient _ s1 _ _ _). unfold mbind at 1, M_bind at 1. rewrite send_for_run.
    change (open_queue job c1) with (open_queue job c).
    destruct (open_queue job c) as [[q v]|] eqn:Eo; simpl.
    + eexists _, ts. split; [reflexivity|]. split; [done|split; [done|]]. unfold tables. simpl.
      rewrite Hc1. simpl. by rewrite bool_decide_eq_true_2 by done.
    + unfold mbind, M_bind. rewrite on_journal_run. simpl.
      destruct (record_outcome_quiet (dj_id job) (worker_gone kind) s1 Hq1) as (b & s2 & -> & _ & Hc2).
      simpl. eexists _, ts. split; [reflexivity|]. split; [done|split; [done|split; [|done]]].
      exists (to_rfc3339 (clock s1 (ticks s1))). unfold tables. simpl. rewrite Hc2.
      unfold locate. rewrite Hlan. simpl. rewrite Hc1. simpl.
      refine (update_only_last (row_in ODOO_TABLE (dj_id job) OPEN_JOB_STATES)
        (outcome_row ODOO_TABLE (worker_gone kind) _) _ _ _ _).
      * by apply (row_in_subset ODOO_TABLE).
      * unfold row_in. simpl. by rewrite Z.eqb_refl.
  - destruct (insert_quiet job (Some (rj_code rejection, rj_text rejection)) (journal c) Hq Hnew)
      as (s1 & ts & E & Hq1 & Hc1).
    unfold insert_refused. rewrite E. simpl. eexists _, ts. split; [reflexivity|].
    split; [done|split; [done|]]. unfold tables. simpl. by rewrite Hc1.
Qed.

(** C38: an operation of a till that is in the journal is never journaled or
    queued again, whatever the engine does: the call answers the stored job -
    as a replay when type and payload agree, as a conflict otherwise - and
    nothing of the client changes but its engine's schedule. *)
Theorem known_operation_is_never_queued_again r now c :
  existsb (same_key (lr_kasa_id r) (lr_client_uuid r)) (lan_jobs (tables c)) = true →
  let '(res, c') := admit_lan registry r now c in
  tables c' = tables c ∧ queues c' = queues c ∧ asked c' = asked c
  ∧ match res with
    | Ok a => ∃ row stored, In row (lan_jobs (tables c))
        ∧ same_key (lr_kasa_id r) (lr_client_uuid r) row = true
        ∧ row_to_lan row = Some stored
        ∧ a = if same_operation (je_job (lj_entry stored)) r
              then Journaled (lan_job_id (l_id row)) true else Answered (LanConflict stored)
    | Err _ => True
    end.
Proof.
  intros Hex. unfold admit_lan, mbind at 1, M_bind at 1. rewrite on_journal_run.
  pose proof (lan_job_evolves eq (lr_kasa_id r) (lr_client_uuid r) (journal c)) as Hsame.
  destruct (lan_job (lr_kasa_id r) (lr_client_uuid r) (journal c)) as [[o|e] s1] eqn:E; simpl in *.
  - apply query_mapped_ok in E as [E _]. unfold read_row in E.
    destruct (List.find _ _) as [row|] eqn:Ef; [|exfalso].
    + destruct (row_to_lan row) as [stored|] eqn:Er; [|done]. injection E as <-. simpl.
      split; [by unfold tables; simpl; rewrite <- Hsame|]. split; [done|]. split; [done|].
      apply List.find_some in Ef as [Hin Hk]. exists row, stored. split; [done|].
      split; [done|]. split; [done|]. unfold replayed. by rewrite (row_to_lan_id _ _ Er).
    + apply existsb_exists in Hex as (row & Hin & Hk). unfold tables in Hin.
      pose proof (List.find_none _ _ Ef row Hin) as Hf. unfold same_key in Hk. simpl in Hf.
      congruence.
  - split; [by unfold tables; simpl; rewrite <- Hsame|]. done.
Qed.

(** In every reachable state each till operation has one journal row. *)
Theorem till_operation_has_one_row c pruned r r' :
  reachable registry timing c pruned →
  In r (lan_jobs (tables c)) → In r' (lan_jobs (tables c)) → lan_key r = lan_key r' → r = r'.
Proof.
  intros [[_ Hn] _]%reachable_at_most_once. induction (lan_jobs (tables c)) as [|x l IH]; [done|].
  simpl in Hn. apply NoDup_cons in Hn as [Hx Hn].
  assert (∀ y, In y l → lan_key x ≠ lan_key y) as Hne.
  { intros y Hy E. apply Hx. rewrite E. apply list_elem_of_In. by apply in_map. }
  intros [<-|Hr] [<-|Hr'] Hk; [done|by destruct (Hne _ Hr' Hk)|by destruct (Hne _ Hr (eq_sym Hk))|].
  by apply IH.
Qed.

(** In a [pending] round [not_received] - "nothing ran" - is sent only for
    jobs that have no row in the journal: two runs of the same round, with any
    answers of Odoo that agree on the jobs without a row, do the same. *)
Theorem not_received_only_for_unknown_jobs pending odoo odoo' c :
  (∀ j, present j (tables c) = 0%nat → odoo (AckNotReceived j) = odoo' (AckNotReceived j)) →
  pending_pass pending odoo c = pending_pass pending odoo' c.
Proof.
  unfold pending_pass. destruct pending as [[jobs skipped]|e]; [|done].
  generalize false. revert c. induction jobs as [|p jobs IH]; intros c again Hodoo; [done|].
  cbn [pending_loop]. apply bind_ext. intros known c1 Hg. rewrite on_journal_run in Hg.
  pose proof (get_evolves eq (pd_id p) (journal c)) as Hsame. unfold on_conn in Hsame.
  destruct (get (pd_id p) (journal c)) as [r s1] eqn:E. simpl in *. injection Hg as -> <-.
  assert (∀ j, present j (conn s1) = 0%nat → odoo (AckNotReceived j) = odoo' (AckNotReceived j))
    as Hodoo1 by (rewrite <- Hsame; exact Hodoo).
  destruct known as [e|].
  - apply bind_ext. intros b c2 Hr. rewrite on_journal_run in Hr. simpl in Hr.
    pose proof (reopen_ack_evolves (pd_id p) s1) as Hev. unfold on_conn in Hev.
    destruct (reopen_ack (pd_id p) s1) as [r s2]. simpl in *. injection Hr as -> <-.
    apply IH. intros j. unfold tables. simpl. rewrite (proj1 (evolves_job_counts j _ _ Hev)).
    apply Hodoo1.
  - rewrite <- Hodoo by (by eapply get_none_present).
    apply bind_ext. intros b c2 Ha. revert Ha. unfold ack_not_received.
    repeat case_match; intros [= _ <-]; by apply IH.
Qed.
End intake.

(** ** Running a job *)

Section running.
Context `{Chrono} `{JsonText} (registry : ExecutorRegistry) (timing : Timing).

(** What a worker does with a job it takes, while the journal's engine
    works.  Queued longer than allowed: the executor is not called, and the
    job fails with [expired_local] if it was still received.  In time and
    received: it becomes executing and its executor is called, once.
    Otherwise nothing happens. *)
Theorem worker_runs_only_a_received_job_in_time q j queued_at now read_at c e s1 :
  quiet (journal c) → get j (journal c) = (Ok (Some e), s1) →
  let t := fst (locate j) in
  let mine := row_in t (snd (locate j)) ["received"] in
  let ts := to_rfc3339 (clock (journal c) (ticks (journal c))) in
  let '(res, c') := execute_begin timing q j queued_at now read_at c in
  res = Ok tt ∧
  if queue_wait_exceeded queued_at now (max_queue_wait timing) then
    asked c' = asked c
    ∧ ∃ text, t_rows t (tables c') = map (λ r, if mine r then t_owe_outcome t
        (on_progress t (λ p, set_outcome "failed" (p_result p) (Some CODE_EXPIRED_LOCAL)
           (Some text) ts p) r) else r) (t_rows t (tables c))
  else
    asked c' = asked c ++ (if (waiting j (tables c) =? 1)%nat then [Executed (je_job e)] else [])
    ∧ t_rows t (tables c') = map (λ r, if mine r then
        on_progress t (λ p, set_outcome "executing" (p_result p) (p_error_code p)
           (p_error_text p) ts p) r else r) (t_rows t (tables c)).
Proof.
  intros Hq Hget. cbv zeta. unfold execute_begin. unfold mbind at 1, M_bind at 1.
  rewrite on_journal_run, Hget. simpl.
  assert (s1 = journal c) as ->.
  { pose proof (get_quiet j (journal c) Hq) as Hs. by rewrite Hget in Hs. }
  destruct (queue_wait_exceeded _ _ _).
  - unfold mbind at 1, M_bind at 1. rewrite on_journal_run. simpl.
    unfold fail_unstarted. rewrite (surjective_pairing (locate j)).
    unfold now_text, mbind, M_bind. rewrite utc_now_run. simpl.
    set (s2 := mkDb _ _ _ _). assert (quiet s2) as Hq2 by done.
    match goal with |- context [update_row ?ctx ?t ?row ?states ?f s2] =>
      destruct (update_row_quiet ctx t row states f s2 Hq2) as [b ->] end.
    simpl. split; [done|split; [done|]]. eexists. unfold tables. simpl.
    by rewrite t_put_rows.
  - unfold mbind at 1, M_bind at 1. rewrite on_journal_run. cbn [journal queues reconciling asked].
    destruct (start_execution_quiet j (journal c) Hq) as (s2 & -> & _ & Hc2). simpl.
    unfold tables. destruct (waiting j (conn (journal c)) =? 1)%nat; simpl.
    + unfold set_call, mbind, M_bind, gets, log_asked, modify, set_queue. simpl.
      destruct (queues c q); simpl; rewrite Hc2;
        (split; [done|split; [done|exact (t_put_rows _ _)]]).
    + rewrite app_nil_r, Hc2. split; [done|split; [done|exact (t_put_rows _ _)]].
Qed.

(** A card payment is journaled before its terminal is asked, at most once
    per job: [true] is returned only when the job was executing and never
    contacted, and then the contact time of its row and its card row are both
    written; on any other answer neither is; after a [true] the same job is
    never told [true] again. *)
Theorem card_contact_is_journaled_once j ip amount baseline tx target s r s' :
  card_contact_of j ip amount baseline tx target s = (r, s') →
  (r ≠ Ok true → conn s' = conn s)
  ∧ (r = Ok true →
     existsb (card_by_job j) (card_payments (conn s)) = false
     ∧ (∃ row, In row (device_jobs (conn s)) ∧ o_job_id row = j
          ∧ p_state (o_progress row) = "executing" ∧ p_contact_at (o_progress row) = None)
     ∧ (∃ c, In c (card_payments (conn s')) ∧ c_job_id c = j ∧ c_terminal_ip c = ip
          ∧ c_amount_minor c = amount)
     ∧ ∀ s2 r2 s3 ip2 amount2 baseline2 tx2 target2,
         card_payments (conn s2) = card_payments (conn s') →
         card_contact_of j ip2 amount2 baseline2 tx2 target2 s2 = (r2, s3) → r2 ≠ Ok true).
Proof.
  intros Hr. destruct r as [[]|e].
  - apply card_contact_of_ok in Hr as (Hn & Hnone & _ & c & Hc & Hid & Hip & Ham).
    split; [done|]. intros _. split; [done|]. split; [|split].
    + unfold count in Hn. destruct (List.filter _ _) as [|row l] eqn:Ef in Hn; [done|].
      assert (In row (row :: l)) as Hin by (by left). rewrite <- Ef in Hin.
      apply filter_In in Hin as [Hin [[Hj Hct]%andb_true_iff Hst]%andb_true_iff].
      exists row. split; [done|]. apply Z.eqb_eq in Hj. apply String.eqb_eq in Hst.
      split; [done|split; [done|]]. by destruct (p_contact_at _).
    + exists c. split; [|done]. rewrite Hc. apply in_or_app. right. by left.
    + intros s2 r2 s3 ip2 amount2 baseline2 tx2 target2 Hs2 Hr2 ->.
      apply card_contact_of_ok in Hr2 as (_ & Hnone2 & _). rewrite Hs2, Hc in Hnone2.
      rewrite existsb_app in Hnone2. simpl in Hnone2. unfold card_by_job in Hnone2 at 2.
      rewrite Hid, Z.eqb_refl, orb_true_r in Hnone2. done.
  - apply card_contact_of_ok in Hr. done.
  - apply card_contact_of_err in Hr. done.
Qed.

(** Pruning drops exactly the final rows that Odoo settled more than 400
    days ago without refusing them, and a card row exactly when its job has no
    row left; it counts the job rows. *)
Theorem prune_drops_only_settled_old_rows s n s' :
  prune s = (Ok n, s') →
  let cutoff := to_rfc3339 (days_ago (clock s (ticks s)) PRUNE_AFTER_DAYS) in
  (∀ r, In r (device_jobs (conn s')) ↔ In r (device_jobs (conn s)) ∧
     ¬ (o_acked r = 1 ∧ final_state (o_progress r) = true
        ∧ (p_updated_at (o_progress r) <t? cutoff) = true
        ∧ (∀ note, o_ack_note r = Some note → like_prefix "refused:" note = false)))
  ∧ (∀ r, In r (lan_jobs (conn s')) ↔ In r (lan_jobs (conn s)) ∧
     ¬ (l_reported r = 1 ∧ final_state (l_progress r) = true
        ∧ (p_updated_at (l_progress r) <t? cutoff) = true
        ∧ (∀ note, l_report_note r = Some note → like_prefix "refused:" note = false)))
  ∧ (∀ c, In c (card_payments (conn s')) ↔ In c (card_payments (conn s))
     ∧ ∃ r, In r (device_jobs (conn s')) ∧ o_job_id r = c_job_id c)
  ∧ n = Z.of_nat (List.length (device_jobs (conn s)) + List.length (lan_jobs (conn s)))
        - Z.of_nat (List.length (device_jobs (conn s')) + List.length (lan_jobs (conn s'))).
Proof.
  intros Hp. apply prune_ok in Hp as (Ho & Hl & Hc & Hn). cbv zeta in *. split; [|split; [|split]].
  - intros r. rewrite Ho, filter_In, negb_true_iff, <- not_true_iff_false.
    unfold prunable_odoo, old_final. rewrite !andb_true_iff, Z.eqb_eq, not_refused_spec.
    unfold final_state. tauto.
  - intros r. rewrite Hl, filter_In, negb_true_iff, <- not_true_iff_false.
    unfold prunable_lan, old_final. rewrite !andb_true_iff, Z.eqb_eq, not_refused_spec.
    unfold final_state. tauto.
  - intros c. rewrite Hc, filter_In, existsb_exists.
    unfold odoo_by_id. by setoid_rewrite Z.eqb_eq.
  - rewrite Ho, Hl, Hn. set (cutoff := to_rfc3339 _).
    pose proof (count_negb (prunable_odoo cutoff) (device_jobs (conn s))).
    pose proof (count_negb (prunable_lan cutoff) (lan_jobs (conn s))). lia.
Qed.

(** A start keeps every final outcome: the row of a job that is done or
    failed is still there as it was, or Odoo had settled it and did not refuse
    it - whichever statements of the start fail. *)
Theorem restart_keeps_final_outcomes c :
  let c' := snd (restart registry c) in
  (∀ r, In r (device_jobs (tables c)) → final_state (o_progress r) = true →
     In r (device_jobs (tables c')) ∨ (o_acked r = 1 ∧ not_refused (o_ack_note r) = true))
  ∧ (∀ r, In r (lan_jobs (tables c)) → final_state (l_progress r) = true →
     In r (lan_jobs (tables c')) ∨ (l_reported r = 1 ∧ not_refused (l_report_note r) = true)).
Proof.
  unfold restart, mbind, M_bind, modify. rewrite on_journal_run. simpl.
  destruct (recover_after_restart (journal c)) as [[rows|err] s1] eqn:Er; simpl.
  - apply recover_after_restart_ok in Er as [_ Hc]. unfold ignore. rewrite on_journal_run. simpl.
    pose proof (prune_only_settled s1) as [Ho Hl]. unfold tables. simpl.
    split; intros r Hin Hf.
    + apply Ho. rewrite Hc. simpl. apply in_map_iff. exists r. split; [|done].
      by apply (after_restart_final _ ODOO_TABLE).
    + apply Hl. rewrite Hc. simpl. apply in_map_iff. exists r. split; [|done].
      by apply (after_restart_final _ LAN_TABLE).
  - apply recover_after_restart_err in Er. unfold tables. simpl. rewrite Er. auto.
Qed.
End running.

(** ** The control loop and the retries *)

Section control.
Context `{Chrono} `{JsonText} (registry : ExecutorRegistry) (timing : Timing).

(** [pending] stands between a call of [next] that failed, or a job that
    could not be journaled, and the next call of [next]: from then on the
    round is due, a due turn goes on to [next] only when its [pending] round
    succeeded, and a failed round stays due. *)
Theorem next_waits_for_pending l e reply job now elapsed later done_at pending odoo c c2 :
  now ≤ later →
  (∃ l' delay, next_turn registry timing l (Err e) now elapsed c = (Ok (l', delay), c)
     ∧ pending_round_due (lp_pending_due l') later = true)
  ∧ (nr_job reply = Some job → is_ok (fst (accept_job registry job now c)) = false →
     ∃ l' delay c', next_turn registry timing l (Ok reply) now elapsed c = (Ok (l', delay), c')
     ∧ pending_round_due (lp_pending_due l') later = true)
  ∧ (pending_round_due (lp_pending_due l) later = true →
     ∃ go l' c3, pending_turn timing l later done_at pending odoo c2 = (Ok (go, l'), c3)
     ∧ is_ok go = is_ok (fst (pending_pass pending odoo c2))
     ∧ (is_ok go = false → pending_round_due (lp_pending_due l') later = true)).
Proof.
  intros Hle. split; [|split].
  - eexists _, _. split; [reflexivity|]. simpl. by apply Z.leb_le.
  - intros Hj Hacc. unfold next_turn. rewrite Hj. unfold mbind, M_bind, attempt.
    destruct (accept_job registry job now c) as [[u|err] c']; [done|].
    eexists _, _, c'. split; [reflexivity|]. simpl. by apply Z.leb_le.
  - intros Hdue. unfold pending_turn. rewrite Hdue. unfold mbind, M_bind, attempt.
    destruct (pending_pass pending odoo c2) as [[again|err] c3]; simpl;
      eexists _, _, c3; (split; [reflexivity|]); done.
Qed.

(** The delays of a retry loop double from its base up to its cap, and
    start at the base again after a reset. *)
Theorem backoff_doubles_up_to_its_cap base max b n i :
  0 ≤ base → 0 ≤ max → (i < n)%nat → Backoff.base b = base → Backoff.max b = max →
  Backoff.delays n (Backoff.new base max) !! i = Some (Z.min (base * 2 ^ Z.of_nat i) max)
  ∧ Backoff.delays n (Backoff.reset b) = Backoff.delays n (Backoff.new base max).
Proof.
  intros Hb Hm Hi Eb Em. rewrite !next_delay_nth by (simpl; lia). simpl. rewrite Eb, Em.
  split; [|done]. rewrite list_lookup_fmap. unfold seq. rewrite lookup_seq_lt by done. done.
Qed.
End control.

(** ** Acks: codes and texts *)

(** A failed outcome is told to Odoo as a plain code - one to 64
    characters of [a-z], [0-9], [_], [.] and [-] - that is never one of the
    channel's own codes, so a device's code cannot read as "unknown" or "not
    received"; the text goes out without NUL characters and with at most 2000
    of its first characters. *)
Theorem failed_ack_is_plain j code text :
  ∃ ecode etext,
    ack_params (AckFailed j code text)
      = VObject [("job_id", VNumber (NInt j)); ("error", VString etext);
                 ("error_code", VString ecode)]
    ∧ ecode ≠ CODE_INDETERMINATE ∧ ecode ≠ CODE_NOT_RECEIVED
    ∧ (1 ≤ List.length (chars ecode) ≤ 64)%nat
    ∧ Forall (λ c, plain_code_char c = true) (chars ecode)
    ∧ chars etext = take 2000 (List.filter (λ c, negb (c =? 0)) (chars text)).
Proof.
  exists (sanitize_error_code code), (truncate_error text). split; [done|].
  assert (chars (truncate_error text) = take 2000 (List.filter (λ c, negb (c =? 0)) (chars text)))
    as Ht by apply truncate_error_chars.
  destruct (cleaned_code_facts code) as (Hp & Hlen & Hc). unfold sanitize_error_code.
  set (cleaned := of_chars (cleaned_code code)) in *.
  destruct (String.eqb_spec cleaned "") as [E0|H0].
  { split; [done|split; [done|split; [simpl; lia|split; [|done]]]]. by repeat constructor. }
  destruct (String.eqb_spec cleaned CODE_INDETERMINATE) as [->|H1]; simpl.
  { split; [done|split; [done|split; [simpl; lia|split; [|done]]]]. by repeat constructor. }
  destruct (String.eqb_spec cleaned CODE_NOT_RECEIVED) as [->|H2].
  { split; [done|split; [done|split; [simpl; lia|split; [|done]]]]. by repeat constructor. }
  split; [done|split; [done|]]. rewrite Hc. split; [|by split].
  split; [|exact Hlen]. destruct (cleaned_code code) eqn:E; [|simpl; lia].
  destruct H0. reflexivity.
Qed.

(** The jobs, tills and pending entries the bridge reads from Odoo's
    answers all carry a positive id of 64 bits, so none of them is ever a LAN
    job. *)
Theorem jobs_read_from_odoo_have_positive_ids `{JsonText} res reply jobs skipped :
  (parse_next res = Ok reply → ∀ job, nr_job reply = Some job → 0 < dj_id job < 2 ^ 63)
  ∧ (parse_pending res = Ok (jobs, skipped) → Forall (λ p, 0 < pd_id p < 2 ^ 63) jobs).
Proof.
  assert (∀ v id, positive_id v = Some id → 0 < id < 2 ^ 63) as Hpos.
  { intros v id. unfold positive_id. destruct (v ≫= as_i64_value) as [z|] eqn:E; [|done].
    destruct (Z.ltb_spec 0 z); [|done]. intros [= <-]. split; [done|].
    destruct v as [v|]; [|done]. simpl in E. unfold as_i64_value in E.
    destruct v as [|b|[z'|m x]|s|l|es]; try done.
    destruct ((- 2 ^ 63 <=? z') && (z' <? 2 ^ 63)) eqn:Er; [|done]. injection E as <-.
    apply andb_true_iff in Er as [_ Er%Z.ltb_lt]. done. }
  split.
  - unfold parse_next. destruct (require_ok res) as [r|e]; [|done].
    destruct (get_field "job" r) as [v|]; [|by intros [= <-]].
    assert (∀ d, parse_job v = Ok d → 0 < dj_id d < 2 ^ 63) as Hjob.
    { intros d. unfold parse_job. destruct (negb (is_object v)); [done|].
      destruct (positive_id _) as [id|] eqn:Ei; [|done]. intros [= <-]. simpl. by eapply Hpos. }
    intros Hr job Hj.
    destruct v; try (destruct (parse_job _) as [d|e] eqn:Ed in Hr; [|done]);
      injection Hr as <-; simpl in Hj; simplify_eq; by apply Hjob.
  - unfold parse_pending. destruct (require_ok res) as [r|e]; [|done].
    destruct (get_field "jobs" r ≫= as_array) as [l|]; [|done].
    intros [= E]. revert jobs skipped E. induction l as [|v l IH]; intros jobs skipped; simpl.
    + by intros [= <- <-].
    + destruct (parse_pending_list l) as [js sk]. specialize (IH js sk eq_refl).
      destruct (positive_id _) as [id|] eqn:Ei; intros [= <- <-]; [|done].
      constructor; [simpl; by eapply Hpos|done].
Qed.

(** ** Instances on the concrete client *)

Lemma started_reachable : ∃ pruned, reachable Demo.registry Timing_default started pruned.
Proof. eexists. refine (R_restart _ _ fresh _ (R_first _ _ fresh _)). by split. Qed.

Lemma step_accepted : step Demo.registry Timing_default started with_job.
Proof. exact (S_accept _ _ (receipt 7) 0 started). Qed.
Lemma step_running : step Demo.registry Timing_default with_job running.
Proof. exact (S_worker _ _ fiscal 0 0 with_job). Qed.
Lemma step_done : step Demo.registry Timing_default running Demo.done.
Proof.
  refine (S_finish _ _ fiscal (receipt 7) false
            (Ok (Done (VObject [("receipt", VString "R1")]))) running _).
  vm_compute. reflexivity.
Qed.
Lemma step_sale : step Demo.registry Timing_default Demo.done with_sale.
Proof. exact (S_admit _ _ till_sale 0 Demo.done). Qed.

Lemma demo_steps :
  rtc (step Demo.registry Timing_default) started Demo.done
  ∧ rtc (step Demo.registry Timing_default) Demo.done with_sale.
Proof.
  split; [|exact (rtc_once _ _ step_sale)].
  exact (rtc_l _ _ _ _ step_accepted (rtc_l _ _ _ _ step_running (rtc_once _ _ step_done))).
Qed.

Lemma reachable_steps `{Chrono} `{JsonText} registry timing c c' pruned :
  reachable registry timing c pruned → rtc (step registry timing) c c' →
  reachable registry timing c' pruned.
Proof. intros Hc Hs. induction Hs as [|c c1 c' Hs _ IH]; [done|]. apply IH. by eapply R_step. Qed.

Lemma job_runs_at_most_once_witness :
  ∃ pruned, reachable Demo.registry Timing_default Demo.done pruned
  ∧ executions 7 Demo.done = 1%nat ∧ (executions 7%Z Demo.done ≤ 1 + pruned 7%Z)%nat.
Proof.
  destruct started_reachable as [pruned Hs]. exists pruned.
  assert (reachable Demo.registry Timing_default Demo.done pruned) as Hd.
  { exact (reachable_steps _ _ started Demo.done pruned Hs (proj1 demo_steps)). }
  split; [done|]. split; [vm_compute; reflexivity|].
  exact (proj1 (job_runs_at_most_once Demo.registry Timing_default _ _ 7 Hd)).
Defined.

Definition done_row : OdooRow := Eval vm_compute in
  nth 0 (device_jobs (tables Demo.done)) (job_to_row (receipt 0) (new_progress "" None None "")).

Lemma final_outcome_never_changes_witness :
  p_state (o_progress done_row) = "done" ∧ In done_row (device_jobs (tables Demo.done)) ∧
  ∃ r', In r' (device_jobs (tables with_sale)) ∧ o_job_id r' = 7
    ∧ outcome_cols (o_progress r') = outcome_cols (o_progress done_row).
Proof.
  split; [reflexivity|]. assert (In done_row (device_jobs (tables Demo.done))) as Hin0.
  { vm_compute. left. reflexivity. }
  split; [done|].
  destruct (final_outcome_never_changes Demo.registry Timing_default Demo.done with_sale)
    as [Ho _]; [apply demo_steps|].
  destruct (Ho done_row) as (r' & Hin & Hid & _ & Hout); [exact Hin0|reflexivity|].
  exists r'. split; [exact Hin|]. split; [exact Hid|exact Hout].
Defined.

Lemma recovery_is_all_or_nothing_witness :
  let s := journal running in
  fst (recover_after_restart s) = Ok [(7, Executing)] ∧
  map (λ r, p_state (o_progress r)) (device_jobs (conn s)) = ["executing"] ∧
  map (λ r, p_state (o_progress r)) (device_jobs (conn (snd (recover_after_restart s))))
    = ["indeterminate"].
Proof.
  intros s. split; [vm_compute; reflexivity|]. split; [vm_compute; reflexivity|].
  destruct (recover_after_restart s) as [[rows|e] s'] eqn:Er.
  - destruct (recovery_is_all_or_nothing s (Ok rows) s' Er) as (_ & _ & Hc). simpl. rewrite Hc.
    vm_compute. reflexivity.
  - exfalso. assert (is_ok (fst (recover_after_restart s)) = true) as E by (vm_compute; reflexivity).
    rewrite Er in E. discriminate E.
Defined.

Lemma owed_acks_are_exact_witness :
  let v := VObject [("receipt", VString "R1")] in
  fst (owed_acks (journal Demo.done)) = Ok [AckDone 7 v] ∧
  ∃ r e, In r (device_jobs (conn (journal Demo.done))) ∧ row_to_entry r = Some e
    ∧ owed_ack e = Some (AckDone 7 v).
Proof.
  intros v. assert (fst (owed_acks (journal Demo.done)) = Ok [AckDone 7 v]) as E
    by (vm_compute; reflexivity).
  split; [done|]. destruct (owed_acks (journal Demo.done)) as [r s'] eqn:Er. simpl in E. subst r.
  destruct (owed_acks_are_exact _ _ _ Er) as (_ & cards & jobs & Ea & Hcards & Hjobs & _).
  assert (In (AckDone 7 v) (cards ++ jobs)) as Hin by (rewrite <- Ea; by left).
  apply in_app_or in Hin as [Hin|Hin]; [|by apply Hjobs].
  apply Hcards in Hin as (c & Hin & _).
  assert (card_payments (conn (journal Demo.done)) = []) as Enone by (vm_compute; reflexivity).
  rewrite Enone in Hin. destruct Hin.
Defined.

Lemma done_result_reaches_the_ack_witness :
  let v := VObject [("receipt", VString "R1")] in
  let s := journal running in
  ∃ acks, fst (record_outcome 7 (Done v) s) = Ok true
    ∧ fst (owed_acks (snd (record_outcome 7 (Done v) s))) = Ok acks ∧ In (AckDone 7 v) acks.
Proof.
  intros v s. assert (fst (record_outcome 7 (Done v) s) = Ok true) as E by (vm_compute; reflexivity).
  destruct (record_outcome 7 (Done v) s) as [r s1] eqn:Er. simpl in E. subst r.
  assert (s1 = snd (record_outcome 7 (Done v) s)) as Es by (by rewrite Er).
  assert (fst (owed_acks s1) = Ok [AckDone 7 v]) as E2 by (rewrite Es; vm_compute; reflexivity).
  exists [AckDone 7 v]. split; [done|]. simpl. split; [done|].
  destruct (owed_acks s1) as [r s3] eqn:E3. simpl in E2. subst r.
  refine (done_result_reaches_the_ack 7 v s s1 s1 _ s3 _ _ Er eq_refl E3).
  - reflexivity.
  - vm_compute. reflexivity.
Defined.

Lemma round_settles_every_ack_witness :
  let odoo := λ _ : AckRequest, Ok {| ar_duplicate := false; ar_state := "done" |} : result RpcError AckReply in
  fst (owed_acks (journal Demo.done)) ≠ Ok [] ∧
  ∃ c', flush_acks odoo Demo.done = (Ok tt, c') ∧ fst (owed_acks (journal c')) = Ok [].
Proof.
  intros odoo. split; [vm_compute; discriminate|].
  apply (round_settles_every_ack odoo [AckDone 7 (VObject [("receipt", VString "R1")])]).
  - reflexivity.
  - vm_compute. reflexivity.
  - done.
Defined.

Lemma accepted_job_is_queued_or_refused_witness :
  ∃ c' ts, accept_job Demo.registry (receipt 7) 0 started = (Ok tt, c')
  ∧ device_jobs (tables c') = [inserted_row (receipt 7) None ts]
  ∧ queues c' fiscal = Some (mkQueue [WExecute 7 0] true None).
Proof.
  assert (quiet (journal started)) as Hq by (vm_compute; reflexivity).
  assert (device_jobs (tables started) = []) as E0 by (vm_compute; reflexivity).
  assert (validate (receipt 7) Demo.registry = Ok Fiscal) as Ev by (vm_compute; reflexivity).
  assert (open_queue Demo.registry (receipt 7) started = Some (fiscal, mkQueue [] true None)) as Eo
    by (vm_compute; reflexivity).
  destruct (accepted_job_is_queued_or_refused Demo.registry (receipt 7) 0 started Hq)
    as (c' & ts & E & _ & _ & Hm).
  - reflexivity.
  - by rewrite E0.
  - exists c', ts. split; [exact E|]. rewrite Ev, Eo, E0 in Hm. exact Hm.
Defined.

Lemma known_operation_is_never_queued_again_witness :
  fst (admit_lan Demo.registry till_sale 5 with_sale) = Ok (Journaled (-1) true)
  ∧ queues (snd (admit_lan Demo.registry till_sale 5 with_sale)) = queues with_sale
  ∧ tables (snd (admit_lan Demo.registry till_sale 5 with_sale)) = tables with_sale.
Proof.
  assert (existsb (same_key (lr_kasa_id till_sale) (lr_client_uuid till_sale))
            (lan_jobs (tables with_sale)) = true) as Hk by (vm_compute; reflexivity).
  pose proof (known_operation_is_never_queued_again Demo.registry till_sale 5 with_sale Hk) as Hr.
  split; [vm_compute; reflexivity|].
  destruct (admit_lan Demo.registry till_sale 5 with_sale) as [res c'].
  destruct Hr as (Ht & Hqs & _). split; [exact Hqs|exact Ht].
Defined.

Lemma till_operation_has_one_row_witness :
  ∃ r, In r (lan_jobs (tables with_sale)) ∧ lan_key r = (3, "u9")
  ∧ ∀ r', In r' (lan_jobs (tables with_sale)) → lan_key r' = (3, "u9") → r = r'.
Proof.
  destruct started_reachable as [pruned Hs].
  assert (reachable Demo.registry Timing_default with_sale pruned) as Hd.
  { exact (reachable_steps _ _ Demo.done with_sale pruned
             (reachable_steps _ _ started Demo.done pruned Hs (proj1 demo_steps)) (proj2 demo_steps)). }
  assert (List.map lan_key (lan_jobs (tables with_sale)) = [(3, "u9")]) as E by (vm_compute; reflexivity).
  destruct (lan_jobs (tables with_sale)) as [|r l] eqn:El; [discriminate|].
  injection E as E1 E2 _. exists r. split; [by left|].
  assert (lan_key r = (3, "u9")) as Hk by (unfold lan_key; congruence). split; [exact Hk|].
  intros r' Hin Hk'. refine (till_operation_has_one_row Demo.registry Timing_default with_sale pruned r r' Hd _ _ _).
  - rewrite El. by left.
  - rewrite El. exact Hin.
  - congruence.
Defined.

Lemma not_received_only_for_unknown_jobs_witness :
  let pending := Ok ([mkPendingJob 7 "" "" "" ""; mkPendingJob 8 "" "" "" ""], []) in
  let refuse := Err (Refused "too_early" "") : result RpcError AckReply in
  let odoo := λ _ : AckRequest, refuse in
  let odoo' := λ a, match a with AckNotReceived 7 => Ok (mkAckReply false "") | _ => refuse end in
  fst (pending_pass pending odoo Demo.done) = Ok true
  ∧ pending_pass pending odoo Demo.done = pending_pass pending odoo' Demo.done.
Proof.
  intros pending refuse odoo odoo'. split; [vm_compute; reflexivity|].
  assert (present 7 (tables Demo.done) = 1%nat) as E7 by (vm_compute; reflexivity).
  refine (not_received_only_for_unknown_jobs pending odoo odoo' Demo.done _).
  intros j Hj. destruct (Z.eqb_spec j 7) as [->|Hne]; [rewrite E7 in Hj; discriminate Hj|].
  clear Hj E7. unfold odoo, odoo'. destruct j as [|p|p]; [reflexivity| |reflexivity].
  do 3 (destruct p as [p|p|]; try reflexivity). congruence.
Defined.

Lemma worker_runs_only_a_received_job_in_time_witness :
  executions 7 (snd (execute_begin Timing_default fiscal 7 0 0 0 with_job)) = 1%nat
  ∧ executions 7 (snd (execute_begin Timing_default fiscal 7 0 (from_secs 121) 0 with_job)) = 0%nat.
Proof.
  assert (quiet (journal with_job)) as Hq by (vm_compute; reflexivity).
  destruct (get 7 (journal with_job)) as [r s1] eqn:Eg.
  assert (∃ e, r = Ok (Some e) ∧ dj_id (je_job e) = 7) as (e & -> & Hid).
  { assert (r = fst (get 7 (journal with_job))) as -> by (by rewrite Eg).
    eexists. split; vm_compute; reflexivity. }
  assert (asked with_job = []) as E0 by (vm_compute; reflexivity).
  assert (waiting 7 (tables with_job) = 1%nat) as Ew by (vm_compute; reflexivity).
  pose proof (worker_runs_only_a_received_job_in_time Timing_default fiscal 7 0 0 0 with_job e s1 Hq Eg) as H1.
  pose proof (worker_runs_only_a_received_job_in_time Timing_default fiscal 7 0 (from_secs 121) 0
                with_job e s1 Hq Eg) as H2.
  cbv zeta in H1, H2. unfold executions.
  destruct (execute_begin Timing_default fiscal 7 0 0 0 with_job) as [r1 c1].
  destruct (execute_begin Timing_default fiscal 7 0 (from_secs 121) 0 with_job) as [r2 c2]. simpl.
  assert (queue_wait_exceeded 0 0 (max_queue_wait Timing_default) = false) as W1 by reflexivity.
  assert (queue_wait_exceeded 0 (from_secs 121) (max_queue_wait Timing_default) = true) as W2 by reflexivity.
  rewrite W1 in H1. rewrite W2 in H2. destruct H1 as (_ & Ha1 & _). destruct H2 as (_ & Ha2 & _).
  rewrite Ha1, Ha2, E0, Ew. split; [|reflexivity]. unfold count. simpl. by rewrite Hid.
Defined.

(** A card purchase the terminal is about to be asked for. *)
Definition card_rows : JTables :=
  {| device_jobs := [job_to_row (receipt 7) (new_progress "executing" None None "I")];
     lan_jobs := []; lan_seq := 0; card_payments := []; card_balances := []; balance_seq := 0 |}.
Lemma card_contact_is_journaled_once_witness :
  let s := journal (client card_rows []) in
  fst (card_contact_of 7 "ip" 500 None 1 None s) = Ok true
  ∧ fst (card_contact_of 7 "ip" 500 None 1 None (snd (card_contact_of 7 "ip" 500 None 1 None s))) ≠ Ok true.
Proof.
  intros s. assert (fst (card_contact_of 7 "ip" 500 None 1 None s) = Ok true) as E by reflexivity.
  split; [done|]. destruct (card_contact_of 7 "ip" 500 None 1 None s) as [r s'] eqn:Er.
  simpl in E. subst r. simpl.
  destruct (card_contact_is_journaled_once 7 "ip" 500 None 1 None s (Ok true) s' Er) as [_ Hok].
  destruct (Hok eq_refl) as (_ & _ & _ & Hagain).
  destruct (card_contact_of 7 "ip" 500 None 1 None s') as [r2 s3] eqn:E2. simpl.
  exact (Hagain s' r2 s3 "ip" 500 None 1 None eq_refl E2).
Defined.

(** Two acknowledged failures of an early stroke, one of them refused. *)
Definition old_rows : JTables :=
  {| device_jobs :=
       [set_odoo (new_progress "failed" (Some "x") (Some "y") "") 1 (Some "ok") 0
          (job_to_row (receipt 5) (new_progress "received" None None "I"));
        set_odoo (new_progress "failed" (Some "x") (Some "y") "") 1 (Some "refused: no") 0
          (job_to_row (receipt 6) (new_progress "received" None None "I"))];
     lan_jobs := []; lan_seq := 0; card_payments := []; card_balances := []; balance_seq := 0 |}.
Definition late_journal : Journal :=
  {| conn := old_rows; faults := []; clock := λ n, Z.to_nat (400 * 86400 + 1); ticks := 0 |}.
Lemma prune_drops_only_settled_old_rows_witness :
  fst (prune late_journal) = Ok 1
  ∧ (∃ r, In r (device_jobs (conn (snd (prune late_journal)))) ∧ o_job_id r = 6)
  ∧ ¬ (∃ r, In r (device_jobs (conn (snd (prune late_journal)))) ∧ o_job_id r = 5).
Proof.
  assert (fst (prune late_journal) = Ok 1) as E by (vm_compute; reflexivity).
  split; [done|]. destruct (prune late_journal) as [r s'] eqn:Ep. simpl in E. subst r.
  destruct (prune_drops_only_settled_old_rows late_journal 1 s' Ep) as [Ho _]. simpl.
  split.
  - eexists. split; [apply Ho; split; [right; left; reflexivity|]|reflexivity].
    intros (_ & _ & _ & Hn). specialize (Hn "refused: no" eq_refl). discriminate.
  - intros (r & Hin & Hid). apply Ho in Hin as [[<-|[<-|[]]] Hn]; [|discriminate].
    apply Hn. split; [reflexivity|]. split; [reflexivity|]. split; [vm_compute; reflexivity|].
    intros note [= <-]. reflexivity.
Defined.

Lemma next_waits_for_pending_witness :
  let l := loop_start Timing_default 0 in
  let refused := Err (Transport "down") in
  ∃ l' delay, next_turn Demo.registry Timing_default l refused 10 0 started = (Ok (l', delay), started)
    ∧ pending_round_due (lp_pending_due l') 10 = true.
Proof.
  intros l refused.
  exact (proj1 (next_waits_for_pending Demo.registry Timing_default l (Transport "down")
    {| nr_job := None; nr_wait_s := 0; nr_kasy := [] |} (receipt 7) 10 0 10 10 (Err (Transport "x"))
    (λ _, Err (Transport "x")) started started (Z.le_refl 10))).
Defined.

Lemma backoff_doubles_up_to_its_cap_witness :
  Backoff.delays 6 (Backoff.new (backoff_base Timing_default) (backoff_max Timing_default))
    = map from_secs [1; 2; 4; 8; 16; 30]
  ∧ Backoff.delays 6 (Backoff.new (backoff_base Timing_default) (backoff_max Timing_default)) !! 5%nat
    = Some (Z.min (backoff_base Timing_default * 2 ^ 5) (backoff_max Timing_default)).
Proof.
  split; [reflexivity|].
  refine (proj1 (backoff_doubles_up_to_its_cap (backoff_base Timing_default) (backoff_max Timing_default)
    (Backoff.new (backoff_base Timing_default) (backoff_max Timing_default)) 6 5 _ _ _ eq_refl eq_refl));
    [done|done|lia].
Defined.

Lemma jobs_read_from_odoo_have_positive_ids_witness :
  let res := VObject [("ok", VBool true); ("job", VObject [("id", VNumber (NInt 7))])] in
  ∃ reply job, parse_next res = Ok reply ∧ nr_job reply = Some job ∧ 0 < dj_id job < 2 ^ 63.
Proof.
  intros res. eexists _, _. split; [reflexivity|]. split; [reflexivity|].
  refine (proj1 (jobs_read_from_odoo_have_positive_ids res _ [] []) _ _ _);
    [reflexivity|reflexivity].
Defined.

(** ** A defect of the guard

    The write of the guard fails: the executor's call still runs, but the
    worker is free and takes the next job of the same device. *)
Definition guard_fails : Client :=
  let c := snd (accept_job Demo.registry (receipt 8) 0 running) in
  {| journal := {| conn := tables c; faults := [true]; clock := λ n, n; ticks := 0 |};
     queues := queues c; reconciling := []; asked := asked c |}.
Lemma failed_guard_write_frees_the_worker :
  call_of guard_fails fiscal = Some (Executing_ (receipt 7) false)
  ∧ let c := snd (execute_guard Timing_default fiscal (receipt 7) guard_fails) in
    call_of c fiscal = None
    ∧ call_of (snd (worker_take Timing_default fiscal 0 0 c)) fiscal
      = Some (Executing_ (receipt 8) false).
Proof. vm_compute. repeat split; reflexivity. Qed.
