(* ===== verification/PrintProps.v ===== *)
(** * Properties of printing

    What the direct IPP back end, the receiver above it and the server that
    hears of the outcome promise together. *)

From Stdlib Require Import ZArith Ascii String.
From stdpp Require Import gmap.
From S2P Require Import Prelude RustStd Text Core Sqlite Storage StorageTheory Queue QueueTheory.
From S2P Require Import Dispatch DispatchTheory ServerProps.
From S2P Require Import IppCodec PrintBackend Ghostscript DirectIpp DirectIppTheory Receiver.
#[local] Open Scope Z_scope.

(** ** A concrete printer *)

Module Printer.
Import TickChrono.

Definition int_attr (name : string) (v : Z) : IppAttribute :=
  {| attr_name := name; attr_tag := INTEGER_TAG; attr_value := to_be_bytes 4 v |}.
(** The answers "accepted as job 7", "in state [s]", "refused". *)
Definition accept : result (list string) bytes :=
  Ok (encode_message 0 1 [(JOB_ATTRIBUTES_TAG, [int_attr "job-id" 7; int_attr "job-state" 3])]).
Definition in_state (s : Z) : result (list string) bytes :=
  Ok (encode_message 0 101 [(JOB_ATTRIBUTES_TAG, [int_attr "job-state" s])]).
Definition refuse : result (list string) bytes := Ok (encode_message 1286 1 []).

#[export] Instance debug_text : DebugText := { debug_str := of_chars }.
(** Ghostscript renders for 120 ms into [/s/a.pwg]; the printer gives [answers],
    each after 10 ms. *)
Definition outside (answers : list (result (list string) bytes)) : Outside := {|
  utc := Z.to_nat;
  http := λ n, mkAnswer 10 (nth n answers (Err ["connection refused"]));
  http_client := λ _, Ok tt;
  ghostscript := Some "gs";
  run_program := λ _ _, Ok (120, {| p_success := true; p_code := Some 0; p_stdout := "Page 1"; p_stderr := "";
                                    p_files := <["/s/a.pwg" := [as_u8 1]]>; p_killed := id |});
  fs_read_error := λ p, "not found";
  fs_create_error := λ _, None;
|}.
Lemma outside_timely answers : timely (H0 := outside answers).
Proof. intros n. simpl. lia. Qed.

Definition w0 : World := mkWorld _ 0 [] None ∅ [] 0 [].
Definition printer : DirectIpp := DirectIpp_new "10.0.0.5" "pdfwrite" 300 false.
Definition the_job : PrintJobInfo :=
  {| ji_job_id := "a"; ji_document_name := "doc"; ji_copies := 1; ji_duplex := false; ji_color := true;
     ji_printer_name := "hp"; ji_printer_display_name := None |}.

#[export] Instance link : Link := {
  fetch := λ _ _, ([[as_u8 9]], None);
  sha256_hex := λ _, "x";
  from_timestamp := λ _ _, None;
  event_to_json := λ _, "";
}.
Definition receiver : Receiver :=
  {| machine_id := "m1"; print_backend := "direct_ipp"; printer_address := Some "10.0.0.5";
     ghostscript_device := "pdfwrite"; ghostscript_resolution := 300; printer_tls := false;
     printer_display_name := None; print_proxy_url := None; print_timeout_secs := 120 |}.
Definition wire_job : PrintJob :=
  {| Dispatch.pj_job_id := "a"; pj_target_printer := "hp"; Dispatch.pj_document_name := "doc";
     Dispatch.pj_copies := 1; pj_paper_size := "A4"; Dispatch.pj_duplex := false; Dispatch.pj_color := true;
     pj_payload_size := 1; pj_payload_sha256 := "x"; pj_created_at := (0, 0); pj_retry_count := 0 |}.
Definition client : Client := mkReceiverState _ w0 0 [] None [] [].
Definition backends (o : Outside) (b : BackendChoice) : Backend :=
  match b with
  | ChooseDirectIpp a g n t => direct_ipp (DirectIpp_new a g n t)
  | _ => {| backend_name := ""; print := λ _ _, bail "not this one" |}
  end.

(** Printed, after two polls; refused; given up after acceptance. *)
Example printed :
  let '(r, w) := print_ipp (H0 := outside [accept; in_state 5; in_state 9]) printer the_job "/s/a.pdf" w0 in
  pr_local_state (report_of r) = Completed ∧ length (requests w) = 3%nat ∧ now w = 2180 ∧ files w = ∅.
Proof. vm_compute. auto. Qed.
Example refused :
  let '(r, w) := print_ipp (H0 := outside [refuse]) printer the_job "/s/a.pdf" w0 in
  pr_error_detail (report_of r) = "IPP error status: 0x0506" ∧ length (requests w) = 1%nat.
Proof. vm_compute. auto. Qed.
Example lost :
  let '(r, w) := print_ipp (H0 := outside [accept; in_state 5]) printer the_job "/s/a.pdf" w0 in
  pr_local_state (report_of r) = Unconfirmed.
Proof. vm_compute. auto. Qed.
End Printer.

Section receiver.
Context `{Outside} `{!Link} `{DebugText}.
Variable backends : BackendChoice → Backend.

Lemma on_world_ok {A B} (m : PM A) (f : A → CM B) c a w :
  m (world c) = (Ok a, w) → (on_world m ≫= f) c = f a (set_world w c).
Proof. intros E. unfold mbind, M_bind, on_world, zoom. by rewrite E. Qed.
Lemma with_queue_ok {A B} (m : QM A) (f : unit → CM B) c :
  ∃ q, (with_queue m ≫= f) c = f tt (set_local_queue q c).
Proof.
  unfold with_queue, mbind, M_bind, modify. destruct (local_queue c) as [q|] eqn:E.
  - by exists (Some (snd (m q))).
  - exists None. f_equal. destruct c. simpl in *. by subst.
Qed.

Lemma bind_world {B} (f : World → CM B) c : (gets world ≫= f) c = f (world c) c.
Proof. done. Qed.

(** The print task of [print_and_report] from the state [c]: what the receiver
    saw and the world then. *)
Definition dispatched (r : Receiver) (job : PrintJob) (printer dest : string) (c : Client)
    (seen : PrintDispatch) (w : World) : Prop :=
  ∃ c1 c2, tasks c1 = tasks c ∧ lock_free c1 = lock_free c ∧ completions c1 = completions c ∧
    now (world c1) = now (world c) ∧ requests (world c1) = requests (world c) ∧
    run_print_task_with_timeout (print_timeout_secs r * 1000) (Dispatch.pj_job_id job)
      (make_print backends r job printer dest) c1 = (Ok seen, c2) ∧ w = world c2.

Lemma print_task_run timeout id m c :
  ∃ seen c1, run_print_task_with_timeout timeout id m c = (Ok seen, c1) ∧ completions c1 = completions c ∧
    match seen with
    | DispatchCompleted res =>
      ∃ w0 w1, requests w0 = requests (world c) ∧ m w0 = (res, w1) ∧ requests (world c1) = requests w1
    | DuplicateSuppressed =>
      InFlightJobs.contains id (registry (now (world c)) (tasks c)) = true
    | TimedOut => now (world c1) = now (world c) + timeout
    end.
Proof.
  unfold run_print_task_with_timeout. cbv [mbind M_bind gets modify mret M_ret]. simpl.
  unfold InFlightJobs.try_begin. destruct (InFlightJobs.contains _ _) eqn:Ei; [by eexists _, c|].
  unfold run_task. set (w0 := set_cancelled (Some _) _). destruct (m w0) as [r w1] eqn:E. simpl.
  do 2 eexists. split; [reflexivity|]. split; [done|].
  destruct (Z.leb_spec (now w1) (now (world c) + timeout)); [by exists w0, w1|]. simpl. lia.
Qed.

Lemma bind_state {E A B} (m : M Client E A) (f : A → M Client E B) c a c1 :
  m c = (Ok a, c1) → (m ≫= f) c = f a c1.
Proof. apply run_bind. Qed.

Lemma print_and_report_run r job printer dest c x c' :
  print_and_report backends r job printer dest c = (x, c') →
  ∃ seen w ver, dispatched r job printer dest c seen w ∧ completions c' = completions c ++
      [completion_of r job (report_of (print_result (print_timeout_secs r) w seen)) ver].
Proof.
  unfold print_and_report. cbv zeta.
  rewrite (on_world_ok (fs_len dest) _ c _ _ eq_refl).
  erewrite (on_world_ok (emit_ok _ _ _)) by reflexivity.
  match goal with |- context [(with_queue ?m ≫= ?f) ?c0] =>
    destruct (with_queue_ok m f c0) as (q & ->); set (c1 := set_local_queue q c0) end.
  destruct (print_task_run (print_timeout_secs r * 1000) (Dispatch.pj_job_id job)
    (make_print backends r job printer dest) c1) as (seen & c2 & E2 & Hc2 & _).
  rewrite (bind_state _ _ _ _ _ E2). cbv beta. rewrite bind_world.
  unfold wait_persist_task. erewrite (on_world_ok (sleep 5000)) by reflexivity.
  match goal with |- context [(with_queue ?m ≫= ?f) ?c0] =>
    destruct (with_queue_ok m f c0) as (q' & ->); set (c3 := set_local_queue q' c0) end. cbv beta.
  rewrite bind_world. intros [= _ <-]. exists seen, (world c2). eexists. split.
  - exists c1, c2. by repeat split.
  - unfold c3. cbn [completions set_completions set_local_queue set_world]. rewrite Hc2. reflexivity.
Qed.

(** The receiver's back end is the direct IPP one of its address. *)
Definition prints_directly (r : Receiver) : Prop :=
  print_backend r = "direct_ipp" ∧ ∃ a, printer_address r = Some a ∧
    backends (ChooseDirectIpp a (ghostscript_device r) (ghostscript_resolution r) (printer_tls r))
    = direct_ipp (DirectIpp_new a (ghostscript_device r) (ghostscript_resolution r) (printer_tls r)).

Lemma make_print_direct r job printer dest :
  prints_directly r →
  ∃ a, make_print backends r job printer dest
       = print_ipp (DirectIpp_new a (ghostscript_device r) (ghostscript_resolution r) (printer_tls r))
           (job_info r job printer) dest.
Proof.
  intros (Hb & a & Ha & Hd). exists a. unfold make_print, create_backend. rewrite Hb, Ha. simpl.
  by rewrite Hd.
Qed.

(** How a job that is reported as a plain failure ended at the printer. *)
Inductive harmless (n : nat) : list (string * bytes) → Prop :=
| harmless_unsent : harmless n []
| harmless_refused req : accepted n = false → harmless n [req]
| harmless_rejected d req polls s : accepted n = true → decided d (S n) polls s → s = 7 ∨ s = 8 →
    harmless n (req :: polls).

(** The one way left: the printer took the job, and the client for the polls
    of its state could not be built, so that nobody saw what became of it. *)
Definition untracked (n : nat) (reqs : list (string * bytes)) : Prop :=
  ∃ req k, reqs = [req] ∧ accepted n = true ∧ is_ok (http_client k) = false.

Lemma failed_run_explained d job f n files_ ends reqs :
  pages_run d job f n files_ ends reqs → job_end ends = Failed → harmless n reqs ∨ untracked n reqs.
Proof.
  intros Hr He. destruct (pages_run_failed _ _ _ _ _ _ _ Hr He) as (file & files' & end_ & _ & _ & Hn & Hs).
  destruct Hs as [|bs Hd Ha|bs c Hd Ha Hk|bs polls s Hd Ha Hdec Hs|bs polls Hd Ha Hu].
  - left. constructor.
  - left. by constructor.
  - right. by eexists _, c.
  - left. by econstructor.
  - done.
Qed.

Lemma failed_run_harmless d job f n files_ ends reqs :
  (∀ k, is_ok (http_client k) = true) →
  pages_run d job f n files_ ends reqs → job_end ends = Failed → harmless n reqs.
Proof.
  intros Hc Hr He. destruct (failed_run_explained _ _ _ _ _ _ _ Hr He) as [|(? & k & _ & _ & Hk)]; [done|].
  by rewrite Hc in Hk.
Qed.

(** A print that fails plainly - the outcome the server retries - left the
    printer nothing it will print: no request was sent, or one Print-Job that
    was not accepted, or one whose polls ended with the printer's own
    "canceled" or "aborted". *)
Theorem plain_failure_printed_nothing d job pdf w r w' :
  timely → (∀ k, is_ok (http_client k) = true) → 0 ≤ poll_timeout d →
  print_ipp d job pdf w = (r, w') → pr_local_state (report_of r) = Failed →
  ∃ reqs, requests w' = requests w ++ reqs ∧ harmless (length (requests w)) reqs.
Proof.
  intros Ht Hc Hp E Hf.
  destruct (print_ipp_run _ _ _ _ _ _ Ht Hp E) as [[_ Hr]|(f & files_ & ends & reqs & Hr & Hrun & He)].
  - exists []. rewrite app_nil_r. split; [done|constructor].
  - exists reqs. split; [done|]. eapply failed_run_harmless; [done|exact Hrun|by rewrite <- He].
Qed.

(** Why the receiver reported a plain failure. *)
Definition retry_reason (r : Receiver) (job : PrintJob) (printer dest : string) (c : Client) : Prop :=
  ∃ seen w, dispatched r job printer dest c seen w ∧
    match seen with
    | DuplicateSuppressed =>
      InFlightJobs.contains (Dispatch.pj_job_id job) (registry (now (world c)) (tasks c)) = true
    | TimedOut =>
      now w = now (world c) + print_timeout_secs r * 1000 ∧
      EventEmitter.printer_accepted (emitter_of (events_until (now w) w)) = false
    | DispatchCompleted _ =>
      ∃ reqs, requests w = requests (world c) ++ reqs ∧
        (harmless (length (requests (world c))) reqs ∨ untracked (length (requests (world c))) reqs)
    end.

Lemma new_poll_timeout a g n t : 0 ≤ poll_timeout (DirectIpp_new a g n t).
Proof. done. Qed.

Lemma plain_report_reason r job printer dest c seen w ver :
  prints_directly r → timely →
  dispatched r job printer dest c seen w →
  let cp := completion_of r job (report_of (print_result (print_timeout_secs r) w seen)) ver in
  jc_success (cp_body cp) = false → jc_unconfirmed (cp_body cp) = false →
  retry_reason r job printer dest c.
Proof.
  intros Hd Ht Hdis cp Hs Hu. exists seen, w. split; [done|].
  destruct Hdis as (c1 & c2 & Htk & _ & _ & Hnow & Hrq & E & ->).
  destruct (print_task_run (print_timeout_secs r * 1000) (Dispatch.pj_job_id job)
    (make_print backends r job printer dest) c1) as (seen' & c2' & E' & _ & Hx).
  rewrite E in E'. injection E' as <- <-. destruct seen as [res| |].
  - destruct Hx as (w0 & w1 & Hq & Hm & Hw).
    destruct (make_print_direct r job printer dest Hd) as (a & Ha). rewrite Ha in Hm.
    assert (pr_local_state (report_of res) = Failed) as Hf.
    { destruct res as [[]|e]; [done|]. rewrite report_state.
      simpl in Hu. destruct (marker e); done. }
    destruct (print_ipp_run _ _ _ _ _ _ Ht (new_poll_timeout _ _ _ _) Hm) as [[_ Hr]|(f & files_ & ends & reqs & Hr & Hrun & He)].
    + exists []. rewrite app_nil_r. split; [congruence|]. left. constructor.
    + exists reqs. split; [congruence|]. rewrite <- Hrq, <- Hq.
      eapply failed_run_explained; [exact Hrun|by rewrite <- He].
  - split; [lia|]. destruct (EventEmitter.printer_accepted _) eqn:Ea; [|done].
    unfold cp, print_result in Hu. by rewrite Ea in Hu.
  - by rewrite <- Hnow, <- Htk.
Qed.

(** A report schedules another print only when it is a plain failure, whatever
    the store does. *)
Definition same_scheduled : relation Service := λ s s', scheduled s' = scheduled s.
#[local] Instance same_scheduled_preorder : PreOrder same_scheduled.
Proof. split; [done|]. unfold same_scheduled. intros a b d Hab Hbd. congruence. Qed.

Lemma respects_scheduled {E A} (m : M JobQueue E A) :
  respects same_scheduled (zoom queue set_queue m).
Proof. by eapply (respects_zoom _ _ _ _ (λ _ _, True)). Qed.

Lemma plain_failures_are_retried cp s :
  scheduled (snd (complete_job cp s)) ≠ scheduled s → jc_success cp = false ∧ jc_unconfirmed cp = false.
Proof.
  assert (∀ A f (m : QM A), respects same_scheduled (on_queue f m)) as Ho
    by (intros; apply respects_scheduled).
  assert (∀ A (m : QM A), respects same_scheduled (try_queue m)) as Ht
    by (intros; apply respects_attempt, respects_scheduled).
  assert (∀ A (m : QM A), respects same_scheduled (ignore_queue m)) as Hi
    by (intros; apply respects_ignore, respects_scheduled).
  assert (respects same_scheduled now_) as Hn by apply respects_scheduled.
  intros Hne. destruct (jc_success cp) eqn:Es; [|destruct (jc_unconfirmed cp) eqn:Eu; [|done]]; destruct Hne.
  - assert (respects same_scheduled (complete_job cp)) as Hr; [|apply Hr].
    unfold complete_job, record_mismatch, complete_success. rewrite Es. solve_respects.
  - assert (respects same_scheduled (complete_job cp)) as Hr; [|apply Hr].
    unfold complete_job, record_mismatch, complete_unconfirmed. rewrite Es, Eu. solve_respects.
Qed.

(** C4: a printer driven directly over IPP.  Whatever its answers, the clock and
    the store, one completion is reported for a job that is printed, and the
    server schedules another print of it on that report only when it is
    explained: the task of an earlier attempt was still running and none was
    started; or the print timed out before an acceptance was recorded; or it
    ended in time and the printer was left nothing it will print - no Print-Job
    sent, one that was not accepted, or one it canceled or aborted itself - with
    one exception: it accepted the job, and the client for the polls of its
    state could not be built. *)
Theorem direct_ipp_retry_is_explained r job printer dest c x c' :
  prints_directly r → timely →
  print_and_report backends r job printer dest c = (x, c') →
  ∃ cp, completions c' = completions c ++ [cp] ∧ jc_job_id (cp_body cp) = Dispatch.pj_job_id job ∧
    ∀ s, scheduled (snd (complete_job (cp_body cp) s)) ≠ scheduled s →
      retry_reason r job printer dest c.
Proof.
  intros Hd Ht E.
  destruct (print_and_report_run _ _ _ _ _ _ _ E) as (seen & w & ver & Hdis & Hcs).
  eexists. split; [exact Hcs|]. split; [done|].
  intros s [Hs Hu]%plain_failures_are_retried. by eapply plain_report_reason.
Qed.

(** C5: sending a document's page files follows the protocol of the printer's
    side: the pages are sent in order, each as one Print-Job with its own data
    followed by its polls, up to the first that is not printed; and the job's
    outcome is what the ends of its pages call for - completed when all are
    printed, a failure only when the first page's end was no acceptance or the
    printer's own rejection, unconfirmed otherwise. *)
Theorem send_pages_follows_the_protocol d job page_files display w r w' :
  timely → 0 ≤ poll_timeout d → send_pages d job page_files display w = (r, w') →
  ∃ ends reqs, requests w' = requests w ++ reqs ∧
    pages_run d job (files w) (length (requests w)) page_files ends reqs ∧
    pr_local_state (report_of r) = job_end ends.
Proof.
  intros Ht Hp E.
  destruct (send_from_run _ _ _ _ 0 _ _ _ _ Ht Hp (Z.le_refl 0) eq_refl E)
    as (ends & reqs & st & Hx & Hrun & Hend & _).
  exists ends, reqs. split; [apply (ext_requests _ _ _ _ Hx)|done].
Qed.

(** The audit events of a sent document agree with its outcome: "completed"
    is recorded once for a completed job and never otherwise, "unconfirmed"
    once for an unconfirmed one and never otherwise, "failed" at most once and
    only for a failed one. *)
Theorem job_events_match_the_outcome d job page_files display w r w' :
  timely → 0 ≤ poll_timeout d → send_pages d job page_files display w = (r, w') →
  ∃ st, map (λ e, ev_stage (snd e)) (emitted w') = map (λ e, ev_stage (snd e)) (emitted w) ++ st ∧
    events_agree r (length page_files) st.
Proof.
  intros Ht Hp E.
  destruct (send_from_run _ _ _ _ 0 _ _ _ _ Ht Hp (Z.le_refl 0) eq_refl E)
    as (ends & reqs & st & Hx & _ & _ & Hev).
  exists st. split; [apply (ext_stages _ _ _ _ Hx)|done].
Qed.

(** A Ghostscript child that would run for [d] is waited for until the first
    50 ms tick at which it has ended or the print is cancelled; cancelled, it
    is killed there, so no render outlives its cancellation by more than a
    tick, and none is reported as done. *)
Theorem ghostscript_child_obeys_the_cancel call args input w d out r w' :
  run_program (gs_path call :: args ++ [input]) (length (programs w)) = Ok (d, out) → 0 ≤ d →
  run_gs call args input w = (r, w') →
  now w' < Z.max (now w) (now w + d) + 50 ∧
  (∀ c, cancelled_at w = Some c → now w' < Z.max (now w) c + 50) ∧
  (is_ok r = true ↔ cancelled_by (now w') w = false) ∧
  files w' = (if cancelled_by (now w') w then p_killed out else p_files out) (files w).
Proof.
  intros Hrun Hd E. destruct (run_gs_run _ _ _ _ _ _ _ _ Hrun Hd E) as ((Ht & Hc & Hf) & -> & Hfi).
  split; [|split; [|split; [|done]]].
  - destruct Hf as [-> |[Hl _]]; lia.
  - intros c Hcc. destruct Hf as [-> |[_ Hn]]; [lia|]. unfold cancelled_by in Hn. rewrite Hcc in Hn. lia.
  - unfold child_result. by destruct (cancelled_by _ _).
Qed.
End receiver.

(** ** On the concrete printer *)

Import TickChrono Printer.

(** A run of [print_ipp], and of [send_pages], in the world of [answers]. *)
Definition demo_print (answers : list (result (list string) bytes)) : result AnyError unit * World :=
  print_ipp (H0 := outside answers) printer the_job "/s/a.pdf" w0.
Definition two_files : World := set_files {["p1" := [as_u8 1]; "p2" := [as_u8 2]]} w0.
Definition demo_send (answers : list (result (list string) bytes)) : result AnyError unit * World :=
  send_pages (H0 := outside answers) printer the_job ["p1"; "p2"] "hp" two_files.

Lemma plain_failure_printed_nothing_witness :
  pr_local_state (report_of (fst (demo_print [accept; in_state 8]))) = Failed ∧
  ∃ reqs, requests (snd (demo_print [accept; in_state 8])) = [] ++ reqs ∧
    harmless (H0 := outside [accept; in_state 8]) 0 reqs.
Proof.
  assert (pr_local_state (report_of (fst (demo_print [accept; in_state 8]))) = Failed) as Hf
    by (vm_compute; reflexivity).
  split; [exact Hf|].
  exact (plain_failure_printed_nothing (H0 := outside [accept; in_state 8]) printer the_job "/s/a.pdf" w0 _ _
    (outside_timely _) (λ _, eq_refl) (new_poll_timeout _ _ _ _) (surjective_pairing _) Hf).
Defined.

Lemma send_pages_follows_the_protocol_witness :
  pr_local_state (report_of (fst (demo_send [accept; in_state 9; refuse]))) = Unconfirmed ∧
  ∃ ends reqs, requests (snd (demo_send [accept; in_state 9; refuse])) = [] ++ reqs ∧
    pages_run (H0 := outside [accept; in_state 9; refuse]) printer the_job (files two_files) 0
      ["p1"; "p2"] ends reqs ∧
    pr_local_state (report_of (fst (demo_send [accept; in_state 9; refuse]))) = job_end ends.
Proof.
  split; [vm_compute; reflexivity|].
  exact (send_pages_follows_the_protocol (H0 := outside [accept; in_state 9; refuse]) printer the_job
    ["p1"; "p2"] "hp" two_files _ _ (outside_timely _) (new_poll_timeout _ _ _ _) (surjective_pairing _)).
Defined.

Lemma job_events_match_the_outcome_witness :
  ∃ st, map (λ e, ev_stage (snd e)) (emitted (snd (demo_send [accept; in_state 9; refuse]))) = [] ++ st ∧
    events_agree (fst (demo_send [accept; in_state 9; refuse])) 2 st.
Proof.
  exact (job_events_match_the_outcome (H0 := outside [accept; in_state 9; refuse]) printer the_job
    ["p1"; "p2"] "hp" two_files _ _ (outside_timely _) (new_poll_timeout _ _ _ _) (surjective_pairing _)).
Defined.

(** Killed: cancelled at 70 ms, a child of 120 ms ends at the tick of 100. *)
Definition demo_gs : result AnyError GsOutput * World :=
  run_gs (H0 := outside []) (mkGsCall "gs" "a" "pdfwrite") ["-q"] "/s/a.pdf" (set_cancelled (Some 70) w0).
Lemma ghostscript_child_obeys_the_cancel_witness :
  now (snd demo_gs) = 100 ∧ is_ok (fst demo_gs) = false ∧ now (snd demo_gs) < Z.max 0 70 + 50.
Proof.
  destruct (ghostscript_child_obeys_the_cancel (H0 := outside []) (mkGsCall "gs" "a" "pdfwrite") ["-q"] "/s/a.pdf"
    (set_cancelled (Some 70) w0) 120 _ _ _ eq_refl ltac:(lia) (surjective_pairing _)) as (_ & Hc & _).
  split; [vm_compute; reflexivity|]. split; [vm_compute; reflexivity|]. exact (Hc 70 eq_refl).
Defined.

(** A rejected print of the server's job "a", which has retries left: the
    server schedules one, and the reason is that nothing was printed. *)
Definition demo_report : result AnyError unit * Client :=
  print_and_report (H0 := outside [accept; in_state 8]) (backends (outside [accept; in_state 8]))
    receiver wire_job "hp" "/s/a.pdf" client.
Lemma direct_ipp_retry_is_explained_witness :
  retry_reason (H0 := outside [accept; in_state 8]) (backends (outside [accept; in_state 8]))
    receiver wire_job "hp" "/s/a.pdf" client.
Proof.
  assert (prints_directly (H0 := outside [accept; in_state 8]) (backends (outside [accept; in_state 8])) receiver)
    as Hd by (split; [reflexivity|]; exists "10.0.0.5"; split; reflexivity).
  destruct (direct_ipp_retry_is_explained (H0 := outside [accept; in_state 8])
    (backends (outside [accept; in_state 8])) receiver wire_job "hp" "/s/a.pdf" client
    _ _ Hd (outside_timely _) (surjective_pairing _)) as (cp & Hcp & _ & Hr).
  apply (Hr Demo.s0). change (completions client ++ [cp]) with [cp] in Hcp.
  assert (cp = List.hd cp (completions (snd demo_report))) as -> by (unfold demo_report; by rewrite Hcp).
  vm_compute. discriminate.
Defined.
