(* ===== verification/SpoolerProps.v ===== *)
(** * Properties of the RAW label printing

    The RAW document of [backend_windows_spooler_raw], on a spooler that takes
    two bytes at a time; examples of the other back ends. *)

From Stdlib Require Import ZArith String.
From stdpp Require Import gmap.
From S2P Require Import Prelude RustStd Text Core Json Config Ghostscript PrintBackend Spooler SpoolerRaw.
#[local] Open Scope Z_scope.

Section raw.
Context `{Outside} `{StampText} `{WinspoolLaws}.

(** C39: a RAW print starts at most one spooler document, on its printer; the
    document is ended only when it holds the payload once per copy, and a
    document that a failed write or the cancellation cut short is aborted, never
    left to print.  The print succeeds only on an ended document for whose
    spooler job the print service's log counts exactly those bytes; otherwise it
    fails, and no event tells of a delivery. *)
Theorem raw_document_is_whole_or_aborted target job path data w r w' :
  files w !! path = Some data → print (windows_spooler_raw Windows target) job path w = (r, w') →
  let printer := if ji_printer_name job =t? "" then target else ji_printer_name job in
  let copies := Z.max (ji_copies job) 1 in
  ∃ fate pieces st,
    requests w' = requests w ++ document_log printer fate pieces ∧ stages w' = stages w ++ st
    ∧ document_of fate pieces (whole data copies)
    ∧ (SSent ∈ st → fate = Ended)
    ∧ match r with
      | Ok _ => st = [SSending; SSent; SVerified; SCompleted] ∧ fate = Ended
                ∧ ∃ id doc_name n t, start_doc printer doc_name n = (t, Ok id)
                  ∧ confirmed printer id (expected_spooled_bytes (Z.of_nat (length data)) copies)
      | Err e => marker e = None ∧ SCompleted ∉ st ∧ SVerified ∉ st
      end.
Proof.
  intros Hfile E printer copies. assert (raw_printed printer data copies w r w') as (fate & ps & st & [] & Hrest);
    [|by exists fate, ps, st].
  assert (ends (raw_print Windows target job path) w (raw_printed printer data copies w)) as He;
    [|unfold ends in He; cbn in E; by rewrite E in He].
  apply ends_bind, ends_bail_if_cancelled; [|intros; by apply raw_cancelled].
  apply ends_bind, (ends_fs_read data); [done|]. lazy zeta.
  apply ends_bind, ends_emit_ok. intros w1 Ha _.
  by apply print_and_verify_ends.
Qed.

(** The bytes an event has to count are those of the document. *)
Lemma expected_bytes_of_document data copies :
  Z.of_nat (length (whole data (Z.max copies 1))) < 2 ^ 64 →
  expected_spooled_bytes (Z.of_nat (length data)) (Z.max copies 1) = Z.of_nat (length (whole data (Z.max copies 1))).
Proof.
  unfold whole, expected_spooled_bytes. intros Hl. rewrite (Z.max_l (Z.max copies 1) 1) by lia.
  assert (∀ n, length (concat (replicate n data)) = n * length data)%nat as Hlen.
  { intros n. induction n as [|n IH]; [done|]. cbn [replicate concat]. rewrite length_app, IH. lia. }
  rewrite Hlen in *. rewrite Z.mod_small; nia.
Qed.
End raw.

(** A stream that ends without an error took everything. *)
Definition complete_streams `{RawSocket} : Prop :=
  ∀ address data n, se_error (raw_stream address data n) = None → (length data ≤ se_sent (raw_stream address data n))%nat.

Section sockets.
Context `{Outside} `{RawSocket}.

(** Raw copies: all of them on a success, else whole ones and a part of one. *)
Lemma raw_copies_sent (Hc : complete_streams) address job_id data l w :
  ends (for_each l (raw_copy address job_id data)) w (λ r w', ∃ n part st,
    adds (replicate n (address, data) ++ map (pair address) part) st w w'
    ∧ Forall (λ p, p `prefix_of` data) part
    ∧ match r with
      | Ok _ => n = length l ∧ part = [] ∧ st = []
      | Err e => marker e = None ∧ (n < length l)%nat ∧ (length part ≤ 1)%nat
      end).
Proof.
  revert w. induction l as [|i l IH]; intros w; [by exists 0%nat, [], []; split; [apply adds_refl|]|].
  cbn [for_each]. apply ends_bind, ends_bind, ends_bail_if_cancelled.
  2: { intros w' msg Ha. exists 0%nat, [], [SFailed]. split; [exact Ha|]. simpl. split; [done|]. split_and!; [done|lia|lia]. }
  unfold ends at 1, send_copy, mbind, M_bind. cbn [gets id fst snd].
  set (s := raw_stream address data (length (requests w))). cbn [modify fst snd].
  set (w1 := set_requests _ _).
  assert (adds [(address, take (se_sent s) data)] [] w w1) as Ha1
    by (split; simpl; rewrite ?app_nil_r; done || lia).
  destruct (se_error s) as [e|] eqn:Ee; cbn [bail throw mret M_ret fst snd].
  - exists 0%nat, [take (se_sent s) data], []. split; [exact Ha1|]. split; [by constructor; [apply prefix_take|]|].
    simpl. split_and!; [done|lia|lia].
  - specialize (Hc _ _ _ Ee). rewrite take_ge in Ha1 by exact Hc.
    eapply ends_mono; [apply IH|]. intros r w' (n & part & st & Ha & Hp & Hr). exists (S n), part, st.
    split; [exact (adds_trans _ _ _ _ _ _ _ Ha1 Ha)|]. split; [done|]. destruct r; simpl; naive_solver lia.
Qed.
End sockets.

(** ** A label printer on a store's PC *)

Module Label.
#[export] Existing Instance TickChrono.tick_chrono.
(** Every program ends after 100 ms; [says] is what a query of the log, or any
    other program, prints. *)
Definition finished (text : string) : ProcessRun :=
  Ok (100, {| p_success := true; p_code := Some 0; p_stdout := text; p_stderr := ""; p_files := id; p_killed := id |}).
Definition outside (says : nat → string) : Outside := {|
  utc := Z.to_nat;
  http := λ _, mkAnswer 0 (Err ["no network"]);
  http_client := λ _, Ok tt;
  ghostscript := None;
  run_program := λ _ n, finished (says n);
  fs_read_error := λ p, "not found";
  fs_create_error := λ _, None;
|}.
#[export] Instance stamps : StampText := { utc_stamp := z_to_string; local_stamp := z_to_string }.
(** The spooler takes two bytes a call, and stops at the call [stops]. *)
Definition spooler (stops : nat) : Winspool := {|
  open_printer := λ _ _, (0, Ok tt);
  start_doc := λ _ _ _, (0, Ok 41);
  write_printer := λ data n, (10, if (n =? stops)%nat then Err "disk full" else Ok (Z.min 2 (Z.of_nat (length data))));
  end_doc := λ _, (0, Ok tt);
|}.
#[export] Instance spooler_laws stops : WinspoolLaws (H := spooler stops).
Proof. split. intros data n t k. simpl. destruct (n =? stops)%nat; [done|]. intros [= _ <-]. lia. Qed.
Definition label : bytes := map as_u8 [1; 2; 3].
Definition world : World := mkWorld TickChrono.tick_chrono 10000 [] None {["/s/a.pdf" := label]} [] 0 [].
Definition two_copies : PrintJobInfo :=
  {| ji_job_id := "a"; ji_document_name := " price tags "; ji_copies := 2; ji_duplex := false; ji_color := false;
     ji_printer_name := "TSC"; ji_printer_display_name := None |}.
Definition run (says : nat → string) (stops : nat) : result AnyError unit * World :=
  print (windows_spooler_raw (H0 := outside says) (H2 := spooler stops) Windows "other") two_copies "/s/a.pdf" world.
(** The event is there at the second query. *)
Definition printed (n : nat) : string := if (n =? 2)%nat then "307|6|USB001" else "".
End Label.

Example label_is_printed :
  let '(r, w) := Label.run Label.printed 9 in
  r = Ok tt ∧ concat (map snd (requests w)) = Label.label ++ Label.label ∧ length (requests w) = 6%nat
  ∧ now w = 10000 + 100 + 4 * 10 + 100 + 2000 + 100.
Proof. vm_compute. auto. Qed.
Example label_is_aborted :
  let '(r, w) := Label.run Label.printed 2 in
  pr_error_detail (report_of r) = "RAW job 41 on " +:+ quoted "TSC" +:+ " aborted: WritePrinter failed: disk full"
  ∧ map fst (requests w) = ["StartDocPrinterW TSC"; "WritePrinter"; "AbortPrinter"].
Proof. vm_compute. auto. Qed.
(** A label that was spooled whole and never confirmed in time is a plain
    failure, which the server retries. *)
Example unconfirmed_label_is_retried :
  let '(r, w) := Label.run (λ _, "") 9 in
  pr_unconfirmed (report_of r) = false
  ∧ pr_error_detail (report_of r) = "No EventID 307 within 60s for RAW job 41 on TSC (spooler status: job gone)"
  ∧ map fst (requests w)
    = ["StartDocPrinterW TSC"; "WritePrinter"; "WritePrinter"; "WritePrinter"; "WritePrinter"; "EndDocPrinter"]
  ∧ length (programs w) = 32%nat.
Proof. vm_compute. auto. Qed.

Lemma raw_document_is_whole_or_aborted_witness :
  files Label.world !! "/s/a.pdf" = Some Label.label ∧
  ∃ fate pieces st, requests (snd (Label.run Label.printed 9)) = document_log "TSC" fate pieces
    ∧ document_of fate pieces (whole Label.label 2) ∧ fate = Ended
    ∧ stages (snd (Label.run Label.printed 9)) = st ∧ st = [SSending; SSent; SVerified; SCompleted].
Proof.
  split; [reflexivity|]. destruct (Label.run Label.printed 9) as [r w'] eqn:E.
  assert (r = Ok tt) as -> by (change r with (fst (r, w')); rewrite <- E; vm_compute; reflexivity).
  destruct (raw_document_is_whole_or_aborted (H0 := Label.outside Label.printed) (H2 := Label.spooler 9)
    (H3 := Label.spooler_laws 9) "other" Label.two_copies "/s/a.pdf" Label.label Label.world (Ok tt) w'
    eq_refl E) as (fate & ps & st & Hq & Hs & Hd & _ & Hst & Hf & _).
  exists fate, ps, st. split; [exact Hq|]. split; [exact Hd|]. split; [exact Hf|]. split; [exact Hs|exact Hst].
Defined.

(** ** The other back ends *)

Module Desk.
Import Label BitsJson.
#[export] Instance ascii_tables : UnicodeTables := {|
  str_to_lowercase := map to_ascii_lowercase;
  is_alphanumeric := λ c, is_ascii_digit c || is_ascii_lowercase (to_ascii_lowercase c);
|}.
#[export] Instance debug : DebugText := {| debug_str := of_chars |}.
(** A raw printer that takes everything but the copy [fails], of which one byte. *)
Definition printer (fails : nat) : RawSocket :=
  {| raw_stream := λ _ data n, if (n =? fails)%nat then mkStream 5 1 (Some "connection reset")
                               else mkStream 5 (length data) None |}.
Definition office (says : nat → string) : Outside := {|
  utc := Z.to_nat;
  http := λ _, mkAnswer 0 (Err ["no network"]);
  http_client := λ _, Ok tt;
  ghostscript := Some "gs";
  run_program := λ command n,
    Ok (100, {| p_success := true; p_code := Some 0; p_stdout := says n; p_stderr := "";
                p_files := if existsb (String.eqb "gs") command then <["/s/a.raw" := label]> else id;
                p_killed := id |});
  fs_read_error := λ p, "not found";
  fs_create_error := λ _, None;
|}.
Definition send_raw_copies (fails : nat) : result AnyError unit * World :=
  print (direct_raw (H0 := office (λ _, "Page 1")) (H5 := printer fails) "10.0.0.5:9100" "pcl" 300) two_copies
    "/s/a.pdf" world.
Definition spool (says : nat → string) (name : string) : result AnyError unit * World :=
  print (windows_spooler (H0 := office says) Windows)
    (mkJobInfo "a" "doc" 2 false true name None) "/s/a.pdf" world.
Definition print_over (says : nat → string) : result AnyError unit * World :=
  print (print_proxy (H0 := office says) "http://proxy/print") two_copies "/s/a.pdf" world.
Definition cups_job (says : nat → string) : result AnyError unit * World :=
  print (cups (H0 := office says) Unix "desk") two_copies "/s/a.pdf" world.
End Desk.

Example raw_copies : let '(r, w) := Desk.send_raw_copies 9 in
  r = Ok tt ∧ requests w = [("10.0.0.5:9100", Label.label); ("10.0.0.5:9100", Label.label)]
  ∧ dom (files w) = {["/s/a.pdf"]}.
Proof. vm_compute. auto. Qed.
Example raw_copy_cut : let '(r, w) := Desk.send_raw_copies 1 in
  pr_error_detail (report_of r) = "connection reset" ∧ map (λ q, length (snd q)) (requests w) = [3; 1]%nat.
Proof. vm_compute. auto. Qed.
Example virtual_printer : let '(r, w) := Desk.spool (λ _, "") "Microsoft Print to PDF" in
  r = Ok tt ∧ stages w = [SSending; SSent; SVerified; SCompleted] ∧ length (programs w) = 2%nat.
Proof. vm_compute. auto. Qed.
Example spooler_confirmed : let '(r, w) := Desk.spool (λ n, if (n =? 4)%nat then " Document 7 printed" else "") "hp" in
  r = Ok tt ∧ length (programs w) = 5%nat ∧ now w = 10000 + 500 + 500 + 100 + 100 + 2000 + 100.
Proof. vm_compute. auto. Qed.
Example proxy_accepts : fst (Desk.print_over (λ _, of_chars (chars "queued" ++ [10] ++ chars "200"))) = Ok tt.
Proof. vm_compute. auto. Qed.
Example proxy_refuses :
  pr_error_detail (report_of (fst (Desk.print_over (λ _, of_chars (chars "no paper" ++ [10] ++ chars "503")))))
  = "print proxy returned 503: no paper".
Proof. vm_compute. auto. Qed.
Example cups_waits : let '(r, w) := Desk.cups_job (λ n, if (n =? 2)%nat then "desk-7 me 1024" else "") in
  r = Ok tt ∧ length (programs w) = 4%nat.
Proof. vm_compute. auto. Qed.
