(* ===== verification/DocumentProps.v ===== *)
(** * Properties of documents

    The bytes the client makes for its printers: IPP requests, rendered raster
    documents and TSPL labels. *)

From Stdlib Require Import ZArith Ascii String.
From S2P Require Import Prelude RustStd Text Floats Label LabelTheory RasterMerge PdfPages.
From S2P Require Import IppCodec.
#[local] Open Scope Z_scope.

(** ** Rendered documents *)

Section rendering.
(** The page record Ghostscript writes for a page on a medium. *)
Variable page_record : RunMedia → PageGeometry → bytes.

(** The page count Ghostscript writes in the header of a run's URF document: 0
    when it does not count (10.04 never does). *)
Variable page_count : RenderRun → Z.
Hypothesis page_count_u32 : ∀ run, 0 ≤ page_count run < 2 ^ 32.

(** The document of one run. *)
Definition run_document (k : RasterKind) (pages : list PageGeometry) (run : RenderRun) : bytes :=
  document k (page_count run, concat (map (page_record (media run)) (run_pages pages run))).

Lemma merged_page_count_spec counts :
  Forall (λ c, 0 ≤ c) counts →
  merged_page_count counts
  = (if existsb (Z.eqb 0) counts then Some 0
     else if foldr Z.add 0 counts <? 2 ^ 32 then Some (foldr Z.add 0 counts) else None).
Proof.
  intros Hc. unfold merged_page_count. destruct (existsb _ _); [done|].
  by rewrite checked_sum_spec.
Qed.

Lemma counts_add_up gs pages :
  map (run_pages pages) (map run_of gs) = map group_pages gs →
  (∀ run, In run (map run_of gs) → page_count run = Z.of_nat (length (run_pages pages run))) →
  foldr Z.add 0 (map page_count (map run_of gs)) = Z.of_nat (length (concat (map group_pages gs))).
Proof.
  induction gs as [|g gs IH]; intros Hr Hn; [done|]. cbn [map concat foldr] in Hr |- *.
  injection Hr as Hg Hr. rewrite length_app, (Hn (run_of g)), Hg, IH; [lia|done| |by left].
  intros run Hin. apply Hn. by right.
Qed.

(** C17: merging the documents of the planned runs gives the one document of all
    pages in order, each page on a medium that serves it: splitting the render
    at the landscape pages loses, repeats and reorders nothing.  Its page count
    is 0 ("not counted") as soon as one run's count is, otherwise the sum of the
    runs' counts - the number of pages, when each run counted its own - and a
    sum that does not fit the header is an error. *)
Theorem merged_runs_are_the_document k pages :
  pages ≠ [] → numbered pages →
  ∃ ms, Forall2 serves ms pages ∧
    let records := concat (zip_with page_record ms pages) in
    let counts := map page_count (plan_runs pages) in
    let total := foldr Z.add 0 counts in
    merge k (map (run_document k pages) (plan_runs pages))
    = match k with
      | Pwg => Ok (as_bytes "RaS2" ++ records)
      | Urf =>
        if existsb (Z.eqb 0) counts then
          Ok (as_bytes "UNIRAST" ++ [as_u8 0] ++ to_be_bytes 4 0 ++ records)
        else if total <? 2 ^ 32 then
          Ok (as_bytes "UNIRAST" ++ [as_u8 0] ++ to_be_bytes 4 total ++ records)
        else Err ["URF page count overflows u32"]
      end
    ∧ ((∀ run, In run (plan_runs pages) → page_count run = Z.of_nat (length (run_pages pages run)))
       → total = Z.of_nat (length pages)).
Proof.
  intros Hne Hn. destruct (plan_runs_grouping pages) as (gs & -> & Hc & Ha & _).
  exists (page_media gs). split; [rewrite <- Hc; by apply page_media_serves|]. cbv zeta.
  assert (gs ≠ []) as Hgs by (intros ->; simpl in Hc; congruence).
  assert (map (run_pages pages) (map run_of gs) = map group_pages gs) as Hr.
  { apply (run_pages_groups gs pages [] []); [|done]. by rewrite app_nil_r. }
  split; [|intros Hcount; rewrite (counts_add_up gs pages Hr Hcount); by rewrite Hc].
  assert (map (run_document k pages) (map run_of gs)
          = map (document k) (map (λ g, (page_count (run_of g),
              concat (map (page_record (for_page (fst g))) (group_pages g)))) gs)) as ->.
  { rewrite !map_map in Hr |- *. clear -Hr. induction gs as [|g gs IH]; [done|].
    cbn [map] in Hr |- *. injection Hr as Hg Hr. rewrite IH by done. unfold run_document at 1.
    by rewrite Hg. }
  rewrite merge_documents; [|by destruct gs|].
  2: { apply Forall_forall. intros x (g & -> & Hg)%list_elem_of_fmap. apply page_count_u32. }
  rewrite (map_map _ snd). cbn [snd].
  pose proof (zip_with_page_media page_record gs) as Hz. rewrite Hc in Hz. unfold bytes, Group in *. rewrite Hz.
  destruct k; unfold counted; [|done]. rewrite (map_map _ fst). cbn [fst]. rewrite map_map.
  rewrite merged_page_count_spec.
  - by destruct (existsb _ _); [|destruct (_ <? _)].
  - apply Forall_forall. intros c (g & -> & _)%list_elem_of_fmap. apply page_count_u32.
Qed.
End rendering.

(** The runs planned for a document are those of the one way to cut it into
    groups that each share a medium and end only where the next page's medium
    differs; a document without landscape pages is rendered by the plain call,
    with no extra argument. *)
Theorem planned_runs_are_the_grouping pages :
  (∃ gs, plan_runs pages = map run_of gs ∧ grouping pages gs ∧ ∀ gs', grouping pages gs' → gs' = gs) ∧
  (Forall (λ p, is_landscape p = false) pages → ∀ k s, calls (Planned k (plan_runs pages) s) = Single []).
Proof.
  destruct (plan_runs_grouping pages) as (gs & E & Hg). split.
  { exists gs. split; [done|]. split; [done|]. intros gs' Hg'. by eapply grouping_unique. }
  intros Hp k s. rewrite E. clear E. destruct Hg as (Hc & Ha & Hb).
  assert (∀ g, g ∈ gs → for_page (fst g) = AsIs) as Hm.
  { intros g Hg. unfold for_page. rewrite Forall_forall in Hp. rewrite (Hp (fst g)); [done|].
    rewrite <- Hc. apply list_elem_of_In, in_concat. exists (group_pages g). split; [|by left].
    by apply in_map, list_elem_of_In. }
  destruct gs as [|g [|g' gs]]; [done| |].
  - simpl. unfold run_args. simpl. by rewrite Hm by (by apply list_elem_of_In; left).
  - destruct Hb as [Hb _]. rewrite !Hm in Hb; [done| |]; apply list_elem_of_In; simpl; auto.
Qed.

(** Whatever Ghostscript prints for [-dPDFINFO], pages that are read out of
    it are numbered 1, 2, ... without a gap, have a media box of finite,
    positive size and a rotation of 0, 90, 180 or 270 degrees. *)
Theorem pdfinfo_pages_are_well_formed `{DebugText} out pages :
  parse_pdfinfo out = Ok pages → Z.of_nat (length pages) < 2 ^ 32 →
  pages ≠ [] ∧ numbered pages ∧ Forall page_ok pages.
Proof. apply parse_pdfinfo_ok. Qed.

(** ** Labels *)

(** One axis of a label as it is read: a picture of [size] dots with [margin]
    dots before it lies in the middle of [canvas] dots.  The margins on its two
    sides differ by one dot at most, the odd one on the side the printer comes
    to last (its right and bottom; on a turned label the reader's left and top);
    a picture larger than the canvas begins at its edge on the other side. *)
Definition in_the_middle (canvas size margin : Z) (turned : bool) : Prop :=
  let rest := canvas - size - margin in
  let '(first, last) := if turned then (rest, margin) else (margin, rest) in
  if canvas <? size then first = 0 else 0 ≤ first ∧ first ≤ last ≤ first + 1.

Lemma reading_corner_middle canvas size offset turned :
  in_the_middle canvas size (reading_corner canvas size offset turned - offset) turned.
Proof.
  unfold in_the_middle, reading_corner. rewrite Z.quot_div_nonneg by lia.
  destruct turned, (Z.ltb_spec canvas size); cbv beta iota zeta;
    Z.to_euclidean_division_equations; lia.
Qed.

Lemma placed_on_canvas b g :
  wf_bitmap b →
  let '(x, y) := bitmap_at (layout (place_label b g)) in
  0 ≤ x ∧ x + width (bitmap (place_label b g)) ≤ fst (max_dots g) ∧
  0 ≤ y ∧ y + height (bitmap (place_label b g)) ≤ snd (max_dots g).
Proof.
  intros Hwf. destruct (place_at b g Hwf) as (-> & -> & -> & H1 & H2 & H3 & H4 & H5 & H6).
  destruct (rotate_180 g); cbv beta iota; lia.
Qed.

(** C18: a placed label prints as it is meant to be read.  With the margins
    that put the picture in the middle of the label, the dot at a place of the
    label is black exactly when the picture, moved from there by the offsets
    (to the right and down as it is read), is black at that place - the place
    being the opposite one on the canvas when the label is turned by 180
    degrees - and the printed bitmap lies on the canvas whole. *)
Theorem placed_label_reads_as_the_picture b g :
  wf_bitmap b →
  let '(cw, ch) := max_dots g in
  let printed := bitmap (place_label b g) in
  let '(px, py) := bitmap_at (layout (place_label b g)) in
  ∃ left top,
    in_the_middle cw (width b) left (rotate_180 g) ∧
    in_the_middle ch (height b) top (rotate_180 g) ∧
    (∀ X Y, 0 ≤ X < cw → 0 ≤ Y < ch →
       let '(x, y) := if rotate_180 g then (cw - 1 - X, ch - 1 - Y) else (X, Y) in
       dot printed (x - px) (y - py)
       = dot b (X - (left + x_offset_dots g)) (Y - (top + y_offset_dots g))) ∧
    0 ≤ px ∧ px + width printed ≤ cw ∧ 0 ≤ py ∧ py + height printed ≤ ch.
Proof.
  intros Hwf. destruct (max_dots g) as [cw ch] eqn:Em.
  destruct (bitmap_at (layout (place_label b g))) as [px py] eqn:Ep.
  exists (reading_corner cw (width b) (x_offset_dots g) (rotate_180 g) - x_offset_dots g),
    (reading_corner ch (height b) (y_offset_dots g) (rotate_180 g) - y_offset_dots g).
  split; [apply reading_corner_middle|]. split; [apply reading_corner_middle|]. split.
  - intros X Y HX HY. pose proof (place_dot b g Hwf X Y) as Hd.
    unfold on_canvas, printed_dot, to_printer, read_dot, corner in Hd. rewrite Em, Ep in Hd.
    rewrite !Z.sub_add. specialize (Hd (conj HX HY)). by destruct (rotate_180 g).
  - pose proof (placed_on_canvas b g Hwf) as Hon. rewrite Em, Ep in Hon. exact Hon.
Qed.

(** The logged layout tells the truth: the ink box is the smallest box
    around the black dots a reader sees on the label, and "cut off" is said
    exactly when a black dot of the picture falls off the label. *)
Theorem layout_tells_the_ink b g :
  wf_bitmap b →
  least_box (ink (layout (place_label b g))) (λ X Y, on_canvas g X Y ∧ read_dot b g X Y = true) ∧
  (ink_cropped (layout (place_label b g)) = true ↔
   ∃ x y, dot b x y = true ∧ ¬ on_canvas g (x + fst (corner b g)) (y + snd (corner b g))).
Proof. intros Hwf. split; [by apply place_ink|by apply place_cropped]. Qed.

(** A decoded PNG is the picture by its threshold: it fits the label, is
    well formed, and each dot is black exactly when the pixel's luma over white
    is below one half. *)
Theorem decoded_picture_is_the_threshold `{ImageCodecs} file max_size b :
  (∀ w h, png_read_info file = Ok (w, h) → 0 ≤ w ∧ 0 ≤ h) →
  decode_png file max_size = Ok b →
  wf_bitmap b ∧ width b ≤ fst max_size ∧ height b ≤ snd max_size ∧
  ∃ frame ch, png_next_frame file = Ok frame ∧ channels (color_type frame) = Some ch ∧
    ∀ x y, 0 ≤ x < width b → 0 ≤ y < height b →
      dot b x y = pixel_is_black (pixel (width b) (line_size frame) ch (buf frame) (x, y)).
Proof.
  intros Hinfo. destruct max_size as [mw mh]. unfold decode_png.
  destruct (png_read_info file) as [[w h]|]; [|done]. destruct (Hinfo w h eq_refl) as [Hw Hh].
  destruct (_ || _) eqn:Hs; [done|]. apply orb_false_iff in Hs as [H1%Z.ltb_ge H2%Z.ltb_ge].
  destruct (png_next_frame file) as [frame|]; [|done].
  destruct (channels (color_type frame)) as [ch|] eqn:Hch; [|done].
  destruct (negb (eight_bit frame)); [done|]. intros [= <-].
  destruct (threshold_shape w h (line_size frame) ch (buf frame)) as [-> ->]. simpl.
  split; [by apply threshold_wf|]. split; [lia|]. split; [lia|].
  exists frame, ch. split; [done|]. split; [done|]. intros x y Hx Hy. by apply threshold_dot.
Qed.

(** ** IPP requests *)

Definition text_attribute (tag : Z) (name value : string) : IppAttribute :=
  mkAttribute name tag (as_bytes value).
Definition request_attributes (printer_uri : string) : list IppAttribute :=
  [text_attribute CHARSET_TAG "attributes-charset" "utf-8";
   text_attribute NATURAL_LANGUAGE_TAG "attributes-natural-language" "en-us";
   text_attribute URI_TAG "printer-uri" printer_uri].
Definition print_job_attributes (printer_uri document_format job_name : string) : list IppAttribute :=
  request_attributes printer_uri
  ++ [text_attribute MIME_MEDIA_TYPE_TAG "document-format" document_format;
      text_attribute NAME_WITHOUT_LANGUAGE_TAG "job-name" job_name].
Definition copies_attribute (copies : Z) : IppAttribute :=
  mkAttribute "copies" INTEGER_TAG (to_be_bytes 4 copies).

Lemma write_encoded buf tag name value :
  write_attribute buf tag name value = buf ++ encode_attribute (mkAttribute name tag value).
Proof. done. Qed.

Lemma print_job_message uri format name rid copies :
  build_print_job_request uri format name rid copies
  = encode_message PRINT_JOB rid
      ((OPERATION_ATTRIBUTES_TAG, print_job_attributes uri format name)
       :: (if 1 <? copies then [(JOB_ATTRIBUTES_TAG, [copies_attribute copies])] else [])).
Proof.
  unfold build_print_job_request, encode_message, write_integer_attribute. cbv zeta.
  rewrite !write_encoded. unfold encode_group, print_job_attributes, request_attributes, text_attribute,
    copies_attribute.
  destruct (Z.ltb_spec 1 copies).
  - rewrite Z.max_l, (proj2 (Z.ltb_lt _ _)) by lia. cbn [map concat app fst snd].
    rewrite ?app_nil_r, <- ?app_assoc. cbn [app]. by rewrite <- ?app_assoc.
  - replace (1 <? Z.max copies 1) with false by (symmetry; apply Z.ltb_ge; lia).
    cbn [map concat app fst snd]. rewrite ?app_nil_r, <- ?app_assoc. cbn [app]. by rewrite <- ?app_assoc.
Qed.

Lemma get_job_message uri job_id rid :
  build_get_job_attributes_request uri job_id rid
  = encode_message GET_JOB_ATTRIBUTES rid
      [(OPERATION_ATTRIBUTES_TAG,
        request_attributes uri ++ [mkAttribute "job-id" INTEGER_TAG (to_be_bytes 4 job_id)])].
Proof.
  unfold build_get_job_attributes_request, encode_message, write_integer_attribute. cbv zeta.
  rewrite !write_encoded. unfold encode_group, request_attributes, text_attribute.
  cbn [map concat app fst snd]. rewrite ?app_nil_r, <- ?app_assoc. cbn [app]. by rewrite <- ?app_assoc.
Qed.

Definition short_text (s : string) : Prop := short (length (as_bytes s)).
Lemma text_encodable tag name value :
  15 < tag < 256 → name ≠ "" → is_text name → short_text name → short_text value →
  encodable (text_attribute tag name value).
Proof. intros [? ?] ? ? ? ?. by repeat split. Qed.
Lemma request_attributes_encodable uri : short_text uri → Forall encodable (request_attributes uri).
Proof.
  intros Hu. repeat constructor; try done.
Qed.
Lemma print_job_groups uri format name copies :
  short_text uri → short_text format → short_text name →
  Forall group_ok ((OPERATION_ATTRIBUTES_TAG, print_job_attributes uri format name)
       :: (if 1 <? copies then [(JOB_ATTRIBUTES_TAG, [copies_attribute copies])] else [])).
Proof.
  intros Hu Hf Hn. constructor.
  - split; [done|]. split; [done|]. apply Forall_app. split; [by apply request_attributes_encodable|].
    repeat constructor; done.
  - destruct (1 <? copies); [|constructor]. repeat constructor; done.
Qed.

(** C19: a printer that reads the head of a Print-Job finds what the client meant
    - the operation, the request id, the five attributes in order and, when
    more than one copy is asked for, the number of copies - whatever document
    follows it; and a Get-Job-Attributes request asks for the job it names. *)
Theorem requests_parse_back uri format name rid copies job_id document :
  short_text uri → short_text format → short_text name → 0 ≤ rid < 2 ^ 32 → 0 ≤ copies < 2 ^ 31 →
  - 2 ^ 31 ≤ job_id < 2 ^ 31 →
  (∃ r, parse_response (build_print_job_request uri format name rid copies ++ document) = Ok r ∧
     status_code r = PRINT_JOB ∧ request_id r = rid ∧
     attributes r = print_job_attributes uri format name ++ (if 1 <? copies then [copies_attribute copies] else []) ∧
     (1 < copies → as_i32 (copies_attribute copies) = Some copies)) ∧
  (∃ r, parse_response (build_get_job_attributes_request uri job_id rid) = Ok r ∧
     status_code r = GET_JOB_ATTRIBUTES ∧ request_id r = rid ∧
     (a ← get r "job-id"; as_i32 a) = Some job_id).
Proof.
  intros Hu Hf Hn Hr Hc Hj. split.
  - rewrite print_job_message.
    rewrite parse_encode_message by (done || by apply print_job_groups).
    eexists. split; [reflexivity|]. split; [done|]. split; [done|]. split.
    + simpl. by destruct (1 <? copies); rewrite ?app_nil_r.
    + intros _. apply integer_round_trip. lia.
  - rewrite get_job_message. rewrite <- (app_nil_r (encode_message _ _ _)).
    rewrite parse_encode_message; [|done|done|].
    + eexists. split; [reflexivity|]. split; [done|]. split; [done|].
      simpl. by apply integer_round_trip.
    + constructor; [|constructor]. split; [done|]. split; [done|]. apply Forall_app.
      split; [by apply request_attributes_encodable|]. repeat constructor; done.
Qed.

(** ** On concrete documents *)

Module Samples.
Definition page (n : Z) (w h : Z) : PageGeometry :=
  {| pg_number := n; media_width := f64_of_Z w; media_height := f64_of_Z h; pg_rotate := 0 |}.
(** Two portrait pages, two landscape ones, a portrait one. *)
Definition pages : list PageGeometry :=
  [page 1 595 842; page 2 595 842; page 3 842 595; page 4 842 595; page 5 595 842].
Definition page_record (m : RunMedia) (p : PageGeometry) : bytes :=
  [as_u8 (pg_number p); as_u8 match m with AsIs => 0 | Portrait _ _ => 1 end].

Example three_runs :
  map (λ r, (first_page r, last_page r)) (plan_runs pages) = [(1, 2); (3, 4); (5, 5)].
Proof. vm_compute. reflexivity. Qed.

#[export] Instance debug_text : DebugText := { debug_str := of_chars }.
Definition pdfinfo : list Z :=
  chars "File has 2 pages." ++ [10]
  ++ chars "Page 1 MediaBox: [0 0 595.32 841.92]" ++ [10]
  ++ chars "Page 2 MediaBox: [0 0 595.32 841.92] Rotate = -90".

(** A label of 10 by 5 mm at 203 dpi, turned, and a picture of 3 by 2 dots. *)
Definition geometry : LabelGeometry :=
  {| width_mm := f64_of_Z 10; height_mm := f64_of_Z 5; dpi := 203; rotate_180 := true;
     x_offset_dots := 2; y_offset_dots := 0 |}.
Definition picture : MonoBitmap := set_black (set_black (blank 3 2) 0 0) 2 1.
Example canvas_dots : max_dots geometry = (80, 40).
Proof. vm_compute. reflexivity. Qed.

#[export] Instance codecs : ImageCodecs := {
  base64_decode := λ s, Ok (as_bytes s);
  png_read_info := λ _, Ok (2, 1);
  png_next_frame := λ _, Ok {| color_type := Grayscale; eight_bit := true; bit_depth_text := "8";
                               line_size := 2; buf := [as_u8 10; as_u8 200] |};
}.
End Samples.

#[local] Existing Instances Samples.debug_text Samples.codecs.

Lemma merged_runs_are_the_document_witness :
  let merged count :=
    merge Urf (map (run_document Samples.page_record count Urf Samples.pages)
                 (plan_runs Samples.pages)) in
  let count run := Z.of_nat (length (run_pages Samples.pages run)) in
  (∃ ms, Forall2 serves ms Samples.pages ∧
    merged count = Ok (as_bytes "UNIRAST" ++ [as_u8 0] ++ to_be_bytes 4 5
                         ++ concat (zip_with Samples.page_record ms Samples.pages))) ∧
  (∃ ms, Forall2 serves ms Samples.pages ∧
    merged (λ _, 0) = Ok (as_bytes "UNIRAST" ++ [as_u8 0] ++ to_be_bytes 4 0
                            ++ concat (zip_with Samples.page_record ms Samples.pages))).
Proof.
  intros merged count.
  assert (∀ run, 0 ≤ Z.min (count run) 5 < 2 ^ 32) as Hb.
  { intros run. unfold count. lia. }
  split.
  - destruct (merged_runs_are_the_document Samples.page_record (λ run, Z.min (count run) 5) Hb Urf
      Samples.pages ltac:(discriminate) ltac:(vm_compute; reflexivity)) as (ms & Hs & Hm & _).
    exists ms. split; [exact Hs|]. etransitivity; [|exact Hm]. vm_compute. reflexivity.
  - destruct (merged_runs_are_the_document Samples.page_record (λ _, 0) ltac:(lia) Urf
      Samples.pages ltac:(discriminate) ltac:(vm_compute; reflexivity)) as (ms & Hs & Hm & _).
    exists ms. split; [exact Hs|exact Hm].
Defined.

Lemma planned_runs_are_the_grouping_witness :
  calls (Planned Urf (plan_runs [Samples.page 1 595 842]) (summarize [Samples.page 1 595 842])) = Single [].
Proof.
  apply (proj2 (planned_runs_are_the_grouping [Samples.page 1 595 842])).
  repeat constructor.
Defined.

Lemma pdfinfo_pages_are_well_formed_witness :
  ∃ pages, parse_pdfinfo Samples.pdfinfo = Ok pages ∧ map pg_rotate pages = [0; 270] ∧
    pages ≠ [] ∧ numbered pages ∧ Forall page_ok pages.
Proof.
  destruct (parse_pdfinfo Samples.pdfinfo) as [pages|e] eqn:E; [|vm_compute in E; discriminate].
  exists pages. split; [reflexivity|].
  assert (map pg_rotate pages = [0; 270] ∧ Z.of_nat (length pages) < 2 ^ 32) as [Hr Hl].
  { vm_compute in E. injection E as <-. split; reflexivity. }
  split; [exact Hr|]. exact (pdfinfo_pages_are_well_formed Samples.pdfinfo pages E Hl).
Defined.

Lemma placed_label_reads_as_the_picture_witness :
  let b := Samples.picture in
  let p := place_label b Samples.geometry in
  wf_bitmap b ∧ max_dots Samples.geometry = (80, 40) ∧ bitmap_at (layout p) = (36, 19) ∧
  ∃ left top, in_the_middle 80 3 left true ∧ in_the_middle 40 2 top true ∧
    dot (bitmap p) (38 - 36) (20 - 19) = dot b (41 - (left + 2)) (19 - (top + 0)) ∧
    dot (bitmap p) (38 - 36) (20 - 19) = true.
Proof.
  intros b p. assert (wf_bitmap b) as Hwf by (split; vm_compute; congruence).
  assert (max_dots Samples.geometry = (80, 40)) as Em by (vm_compute; reflexivity).
  assert (bitmap_at (layout p) = (36, 19)) as Ep by (vm_compute; reflexivity).
  split; [exact Hwf|]. split; [exact Em|]. split; [exact Ep|].
  pose proof (placed_label_reads_as_the_picture b Samples.geometry Hwf) as Hl.
  rewrite Em in Hl. fold p in Hl. rewrite Ep in Hl. destruct Hl as (left & top & Hx & Hy & Hd & _).
  exists left, top. split; [exact Hx|]. split; [exact Hy|].
  split; [exact (Hd 41 19 ltac:(lia) ltac:(lia))|vm_compute; reflexivity].
Defined.

Lemma layout_tells_the_ink_witness :
  let p := place_label Samples.picture Samples.geometry in
  ink (layout p) = Some (mkRect 41 19 44 21) ∧
  least_box (ink (layout p))
    (λ X Y, on_canvas Samples.geometry X Y ∧ read_dot Samples.picture Samples.geometry X Y = true).
Proof.
  intros p. split; [vm_compute; reflexivity|].
  assert (wf_bitmap Samples.picture) as Hwf by (split; vm_compute; congruence).
  exact (proj1 (layout_tells_the_ink Samples.picture Samples.geometry Hwf)).
Defined.

Lemma decoded_picture_is_the_threshold_witness :
  ∃ b, decode_png [] (80, 40) = Ok b ∧ wf_bitmap b ∧ width b ≤ 80.
Proof.
  destruct (decode_png [] (80, 40)) as [b|e] eqn:E; [|vm_compute in E; discriminate].
  exists b. split; [reflexivity|].
  assert (∀ w h, png_read_info [] = Ok (w, h) → 0 ≤ w ∧ 0 ≤ h) as Hi by (intros w h [= <- <-]; split; discriminate).
  destruct (decoded_picture_is_the_threshold [] (80, 40) b Hi E) as (H1 & H2 & _). split; [exact H1|exact H2].
Defined.

Lemma requests_parse_back_witness :
  ∃ r, parse_response (build_print_job_request "ipp://10.0.0.5:631/ipp/print" "image/urf" "doc" 1 3 ++ [as_u8 7]) = Ok r
       ∧ status_code r = PRINT_JOB.
Proof.
  destruct (requests_parse_back "ipp://10.0.0.5:631/ipp/print" "image/urf" "doc" 1 3 7 [as_u8 7]
    eq_refl eq_refl eq_refl ltac:(lia) ltac:(lia) ltac:(lia)) as ((r & E & Hs & _) & _).
  exists r. split; [exact E|exact Hs].
Defined.
