(* ===== verification/OdooProps.v ===== *)
(** * Properties of the Odoo print source

    Over every order of polls, restarts, failures of the ledger and answers of
    Odoo: a line is spooled once and what Odoo is told of it is true.  While
    the ledger works: a poll leaves no line without a verdict that Odoo has
    heard, and a batch prints what its reference says. *)

From Stdlib Require Import ZArith String.
From stdpp Require Import gmap.
From S2P Require Import PrinterStatus.
From S2P Require Import Prelude RustStd Text Floats Core Sqlite Json Label PrintBackend Receiver.
From S2P Require Import OdooPrint OdooLedger OdooSource OdooTheory OdooPoll DocumentProps PrintProps DeviceProps.
#[local] Open Scope Z_scope.

(** ** A concrete shop *)

Module Shop.
#[export] Existing Instances Core.TickChrono.tick_chrono BitsJson.bits_json Samples.codecs Printer.link.

Definition line (id qty : Z) : Value :=
  VObject [("line_id", VNumber (NInt id)); ("print_qty", VNumber (NInt qty));
           ("label_png_base64", VString "iVBO")].
(** Two labels to print, a line with a negative quantity, one without any; the
    first line twice. *)
Definition batch_value : Value :=
  VObject [("batch_id", VNumber (NInt 5));
           ("lines", VArray [line 11 2; line 12 (-1); VObject [("line_id", VNumber (NInt 13))]; line 14 1; line 11 3])].
(** Odoo offers the same batch for ever and takes every ack. *)
#[export] Instance odoo : OdooServer := {
  reply := λ _ c, if fst c =t? "/food/print/next" then Ok batch_value else Ok (VObject [("ok", VBool true)]);
}.
#[export] Instance serde : SerdeText := { line_error := λ _, "missing field"; batch_error := λ _, "no batch" }.
#[export] Instance outside : Outside := Printer.outside [].
#[export] Instance spool : SpoolDir := {
  spool_dir := "/spool"; join_path := λ a b, a +:+ "/" +:+ b; create_dir_error := λ _, None;
  new_uuid := λ _, "0123456789abcdef";
}.
Definition config : OdooClientConfig :=
  {| printer_name := "TSC"; config_geometry := Samples.geometry; poll_interval_secs := 5 |}.
Definition backend : Backend :=
  {| backend_name := "windows_spooler_raw";
     print := λ job _, emit_verified (ji_job_id job) "event_307" "307: 500 bytes" |}.
(** A source on an empty ledger whose engine fails as [faults] says. *)
Definition source (faults : list bool) : Source :=
  mkSource _ (mkDb [] faults (λ n, n) 0) Printer.client (roll_of Samples.geometry) (mkStatus None "") "tsc" [] [].
Definition poll (s : Source) : Source := snd (poll_once config backend 60 s).

Example first_poll :
  map sp_lines (documents (poll (source []))) = [[(11, 2); (14, 1)]]
  ∧ map (λ r, (l_line_id r, l_printed_qty r, l_acked r)) (conn (ledger (poll (source []))))
    = [(13, 0, 1); (12, 0, 1); (11, 2, 1); (14, 1, 1)].
Proof. vm_compute. auto. Qed.
(** Offered again, the printed lines are acked again and not printed. *)
Example second_poll :
  length (documents (poll (poll (source [])))) = 1%nat
  ∧ last_result (status (poll (poll (source [])))) = "nothing printable (2 lines rejected)".
Proof. vm_compute. auto. Qed.
End Shop.

(** ** Once to the spooler *)

Section source.
Context `{Outside} `{!Link} `{JsonText} `{SerdeText} `{ImageCodecs} `{OdooServer} `{SpoolDir}.
Variables (cfg : OdooClientConfig) (backend : Backend) (print_timeout : Z).

(** C6: over any order of polls, heartbeats, restarts and other work of the
    client, any answers of Odoo and any failures of the ledger's engine - so
    also when the process stops anywhere - a line is handed to the spooler at
    most once since the row that records it was last pruned. *)
Theorem line_is_spooled_at_most_once s pruned l :
  reachable cfg backend print_timeout s pruned →
  (spooled_in (documents s) l ≤ 1 + pruned l)%nat.
Proof.
  intros [K S _ _]%reachable_inv. specialize (S l). pose proof (sent_at_most_one l _ K). lia.
Qed.

(** [q] labels of the line [l] were printed, read off the bytes the spooler got:
    a document whose print was confirmed is the set-up of a roll followed by one
    block per line, and one of these lines is [l], which Odoo offered with the
    quantity [q] and the picture in the block; the block asks for [q] copies, or
    for the largest number a [u32] holds. *)
Definition printed (s : Source) (l q : Z) : Prop :=
  ∃ d g items it, In d (documents s) ∧ is_ok (sp_result d) = true ∧
    sp_document d = written g items ∧ Forall (label_of_line cfg (calls s) g) items ∧
    In it items ∧ line_id (fst it) = l ∧ print_qty (fst it) = q.

Lemma confirmed_printed s l q :
  documents_ok cfg s → confirmed (documents s) l q → printed s l q.
Proof.
  intros Hd (d & Hin & Hok & Hl). unfold documents_ok in Hd. rewrite Forall_forall in Hd.
  destruct (Hd d) as (g & items & Hdoc & Hls & Hi); [by apply list_elem_of_In|].
  rewrite Hls in Hl. apply in_map_iff in Hl as (it & [= <- <-] & Hit). by exists d, g, items, it.
Qed.

(** C9: in the same states, an ack that tells Odoo of printed labels, and the
    ledger's row behind it, are true: a document whose print was confirmed
    asked, in its bytes, for that many copies - a quantity of 2^32 or more,
    which a document cannot ask for, is acked whole and printed 2^32 - 1 times -
    of the picture Odoo had sent with this line and this quantity, placed on
    the roll of its batch. *)
Theorem acked_labels_were_printed s pruned :
  reachable cfg backend print_timeout s pruned →
  (∀ l q, q ≠ 0 → In (ack_call l q None) (calls s) → printed s l q) ∧
  ∀ r, In r (conn (ledger s)) → l_state r = "done" → l_error r = None → l_printed_qty r ≠ 0 →
    printed s (l_line_id r) (l_printed_qty r).
Proof.
  intros Hr. pose proof (reachable_documents _ _ _ _ _ Hr) as Hd.
  destruct (reachable_inv _ _ _ _ _ Hr) as [_ _ T A]. rewrite Forall_forall in T.
  split; [intros l q Hq Hin|intros r Hin Hs He Hq]; apply confirmed_printed; auto.
  by apply T; [apply list_elem_of_In|..].
Qed.

(** C7: while the ledger works, Odoo answers [/next] with a batch and gives
    every ack a final answer, a poll returns; every line of the batch that has
    an id, the malformed ones too, then has a verdict that Odoo has heard, and
    no verdict at all is owed. *)
Theorem poll_settles_every_line s v batch :
  quiet (ledger s) → wf (conn (ledger s)) →
  settling → answers_next v → parse_next v = Ok batch →
  ∃ o s', poll_once cfg backend print_timeout s = (Ok o, s') ∧
    quiet (ledger s') ∧ wf (conn (ledger s')) ∧ owes_nothing (conn (ledger s')) ∧
    (∀ l, offered batch l → settled l (conn (ledger s'))) ∧
    ∃ new, documents s' = documents s ++ new.
Proof.
  intros Hq W Hset Hans Hv.
  destruct (hoare_poll cfg backend print_timeout (documents s) v batch _ Hset Hans Hv W s)
    as (o & s' & E & D' & [[Hq' (W' & Ho & Hl)] HD]); [done|].
  exists o, s'. eauto 10.
Qed.

(** C8: while the ledger works, a batch prints one document or none: the
    lines of the reference [printed_lines] - in Odoo's order, each at its first
    offer, fresh, with labels to print, encodable on the batch's roll - with
    their quantities; every offered line has its verdict and the ledger's
    other lines keep their rows. *)
Theorem batch_prints_the_fresh_lines s b batch :
  quiet (ledger s) → wf (conn (ledger s)) →
  ∃ o s' r, handle_batch cfg backend print_timeout b batch s = (Ok o, s') ∧
    documents s' = documents s ++ batch_documents cfg b batch (conn (ledger s)) r ∧
    (∀ l, offered batch l → row_done l (conn (ledger s'))) ∧
    ∀ l, ¬ offered batch l → rows l (conn (ledger s')) = rows l (conn (ledger s)).
Proof.
  intros Hq W.
  destruct (hoare_batch cfg backend print_timeout (documents s) b batch _ W s)
    as (o & s' & E & r & [[Hq' (W' & Hd & Hr)] HD]); [done|].
  exists o, s', r. auto.
Qed.

(** ** The roll of a batch *)

(** The size a batch names: both sides in range and a resolution it may name. *)
Definition sized (config g : LabelGeometry) (size : BatchLabelSize) : Prop :=
  bs_width_mm size = ANumber (width_mm g) ∧ bs_height_mm size = ANumber (height_mm g) ∧
  f64_leb (f64_of_Z 10) (width_mm g) = true ∧ f64_leb (width_mm g) (f64_of_Z 108) = true ∧
  f64_leb (f64_of_Z 10) (height_mm g) = true ∧ f64_leb (height_mm g) (f64_of_Z 300) = true ∧
  match bs_dpi size with
  | Absent => dpi g = dpi config
  | ANumber d => In (dpi g) [203; 300] ∧ f64_eqb (f64_of_Z (dpi g)) d = true
  | NotANumber _ => False
  end.

Lemma supported_dpi_ok d z : supported_dpi d = Ok z → In z [203; 300] ∧ f64_eqb (f64_of_Z z) d = true.
Proof.
  unfold supported_dpi. destruct (List.find _ _) as [x|] eqn:E; [|done]. intros [= <-].
  by apply find_some in E.
Qed.
Lemma within_ok name mm range : within name mm range = Ok tt → in_range range mm = true.
Proof. unfold within. by destruct (in_range range mm). Qed.

(** A batch prints on the configured roll exactly when it names no size,
    and otherwise on the roll it names, its sides and resolution checked, with
    the configured rotation and offsets; with any other size the batch prints
    nothing. *)
Theorem batch_roll_is_checked batch t :
  match batch_geometry cfg batch with
  | Ok g =>
    (g = config_geometry cfg ∧ label_size batch = mkLabelSize Absent Absent Absent ∨
     sized (config_geometry cfg) g (label_size batch)) ∧
    rotate_180 g = rotate_180 (config_geometry cfg) ∧
    x_offset_dots g = x_offset_dots (config_geometry cfg) ∧ y_offset_dots g = y_offset_dots (config_geometry cfg)
  | Err e => ∀ b r, batch_documents cfg b batch t r = []
  end.
Proof.
  destruct (batch_geometry cfg batch) as [g|e] eqn:E.
  2:{ intros b r. unfold batch_documents. by rewrite E. }
  unfold batch_geometry in E. destruct (geometry_for _ _) as [bg|] eqn:Eg; [|done]. injection E as <-.
  unfold geometry_for in Eg. destruct (label_size batch) as [w h d]. simpl in Eg.
  destruct w as [|w|w], h as [|h|h], d as [|d|d]; simpl in Eg; try done;
    try (injection Eg as <-; simpl; by auto 6);
    unfold geometry_of_size in Eg;
    destruct (within "label_width_mm" w WIDTH_MM) as [[]|] eqn:Ew; try done;
    destruct (within "label_height_mm" h HEIGHT_MM) as [[]|] eqn:Eh; try done;
    apply within_ok, andb_true_iff in Ew as [W1 W2]; apply within_ok, andb_true_iff in Eh as [V1 V2].
  - injection Eg as <-. simpl. split; [right|done]. by repeat split.
  - destruct (supported_dpi d) as [z|] eqn:Ed; [|done]. injection Eg as <-. apply supported_dpi_ok in Ed as [D1 D2].
    simpl. split; [right|done]. by repeat split.
Qed.
End source.

(** ** Instances on the concrete shop *)

#[local] Existing Instances Core.TickChrono.tick_chrono BitsJson.bits_json Samples.codecs Printer.link
  Shop.odoo Shop.serde Shop.outside Shop.spool.
Abbreviation shop_reachable := (reachable Shop.config Shop.backend 60).

(** The engine stops right after the document was spooled; the process starts
    again and Odoo still offers the lines. *)
Definition crashed : Source := Shop.poll (Shop.source (repeat false 12 ++ [true])).
Definition restarted : Source := Shop.poll (snd (start Shop.config crashed)).

Lemma shop_restarted : ∃ pruned, shop_reachable restarted pruned ∧ pruned 11 = 0%nat.
Proof.
  eexists. split.
  - apply R_poll, R_restart, R_poll. by apply R_first.
  - vm_compute. reflexivity.
Qed.

Lemma line_is_spooled_at_most_once_witness :
  map (λ r, (l_line_id r, l_state r)) (conn (ledger crashed))
    = [(13, "done"); (12, "done"); (11, "sending"); (14, "sending")] ∧
  ∃ pruned, shop_reachable restarted pruned ∧ pruned 11 = 0%nat ∧
    spooled_in (documents restarted) 11 = 1%nat ∧ (spooled_in (documents restarted) 11 ≤ 1 + pruned 11%Z)%nat.
Proof.
  split; [vm_compute; reflexivity|]. destruct shop_restarted as (pruned & Hr & Hp). exists pruned.
  split; [exact Hr|]. split; [exact Hp|]. split; [vm_compute; reflexivity|].
  exact (line_is_spooled_at_most_once Shop.config Shop.backend 60 _ _ 11 Hr).
Defined.

Lemma acked_labels_were_printed_witness :
  let s := Shop.poll (Shop.source []) in
  In (ack_call 11 2 None) (calls s) ∧
  (∃ d, documents s = [d] ∧ let b := as_bytes ("PRINT 1,2" +:+ line_end +:+ "CLS") in
     existsb (λ n, bool_decide (take (length b) (drop n (sp_document d)) = b))
       (seq 0 (length (sp_document d))) = true) ∧
  printed Shop.config s 11 2.
Proof.
  intros s. assert (In (ack_call 11 2 None) (calls s)) as Hin.
  { vm_compute. right. left. reflexivity. }
  split; [exact Hin|]. split; [eexists; split; [vm_compute; reflexivity|vm_compute; reflexivity]|].
  refine (proj1 (acked_labels_were_printed Shop.config Shop.backend 60 s (λ _, 0%nat) _) 11 2 _ Hin).
  - apply R_poll. by apply R_first.
  - discriminate.
Defined.

Definition shop_batch : NextBatch := Eval vm_compute in
  match parse_next Shop.batch_value with
  | Ok b => b
  | Err _ => mkBatch None "" [] [] (mkLabelSize Absent Absent Absent)
  end.

Lemma empty_wf : wf [].
Proof. split; constructor. Qed.

Lemma poll_settles_every_line_witness :
  offered shop_batch 13 ∧ offered shop_batch 14 ∧
  ∃ o s', poll_once Shop.config Shop.backend 60 (Shop.source []) = (Ok o, s') ∧
    (∀ l, offered shop_batch l → settled l (conn (ledger s'))).
Proof.
  split; [left; vm_compute; left|]. split; [right; vm_compute; do 2 right; left|].
  destruct (poll_settles_every_line Shop.config Shop.backend 60 (Shop.source []) Shop.batch_value shop_batch)
    as (o & s' & E & _ & _ & _ & Hl & _).
  - reflexivity.
  - exact empty_wf.
  - intros past l q e. reflexivity.
  - intros past. reflexivity.
  - vm_compute. reflexivity.
  - exists o, s'. split; [exact E|exact Hl].
Defined.

Lemma batch_prints_the_fresh_lines_witness :
  map line_and_qty (printed_lines Shop.config shop_batch []) = [(11, 2); (14, 1)] ∧
  ∃ o s' r, handle_batch Shop.config Shop.backend 60 5 shop_batch (Shop.source []) = (Ok o, s') ∧
    documents s' = batch_documents Shop.config 5 shop_batch [] r.
Proof.
  split; [vm_compute; reflexivity|].
  destruct (batch_prints_the_fresh_lines Shop.config Shop.backend 60 (Shop.source []) 5 shop_batch)
    as (o & s' & r & E & Hd & _).
  - reflexivity.
  - exact empty_wf.
  - exists o, s', r. split; [exact E|exact Hd].
Defined.

(** ** The heartbeat's printer state *)

(** The heartbeat says [ok] of the printer exactly when Windows reports no
    status bit at all and the queue is not taken offline: no bit is dropped,
    documented or not. *)
Theorem printer_is_ok_iff_no_condition status attributes :
  0 ≤ status →
  snd (map_status_bits status attributes) = "ok" ↔
  status = 0 ∧ Z.land attributes ATTRIBUTE_WORK_OFFLINE = 0.
Proof.
  intros Hs. unfold map_status_bits. cbn [snd]. rewrite join_ok by apply conditions_long.
  assert (0 ≤ effective_bits status attributes) as Hb.
  { unfold effective_bits. destruct (negb _); [|done]. by apply Z.lor_nonneg. }
  rewrite conditions_nil by done. unfold effective_bits.
  destruct (Z.eqb_spec (Z.land attributes ATTRIBUTE_WORK_OFFLINE) 0) as [E|E]; simpl; [tauto|].
  rewrite Z.lor_eq_0_iff. split; [|tauto]. by intros [_ ?].
Qed.

(** Over any reads and waits, a blocking read of the spooler starts only
    after every earlier one has ended, and the heartbeat waits for its printer
    state at most [QUERY_GUARD], however long the spooler hangs. *)
Theorem status_reads_never_pile_up `{Winspool} r printer :
  forward → reader_reachable r →
  one_at_a_time (reads r) ∧
  clock_ms r ≤ clock_ms (snd (read printer r)) ≤ clock_ms r + QUERY_GUARD.
Proof.
  intros Hf Hr. split; [|rewrite (proj1 (read_clock printer r)); by apply read_state_bounded].
  induction Hr as [t|r p Hr IH|r ms Hr IH Hms]; [by intros i j a b ? ?| |done].
  rewrite (proj2 (read_clock p r)). by apply read_state_one.
Qed.

(** A spooler that hangs for 12 s once. *)
#[local] Instance hanging : Winspool := {
  query := λ n _, (if (n =? 1)%nat then 12000 else 3, Some (Ok (mkQueueState 0x10 0)));
}.
Definition after_three : PrinterStatusReader :=
  snd (read "tsc" (wait 5000 (snd (read "tsc" (snd (read "tsc" (PrinterStatusReader_new 0))))))).

Lemma printer_is_ok_iff_no_condition_witness :
  snd (map_status_bits 0x8000010 0) = "paper_out,status_0x8000000" ∧
  snd (map_status_bits 0 0) = "ok".
Proof.
  split; [vm_compute; reflexivity|]. apply printer_is_ok_iff_no_condition; [lia|].
  by split.
Defined.

Lemma status_reads_never_pile_up_witness :
  log after_three = [Changed; Unreadable; Quiet] ∧ length (reads after_three) = 2%nat ∧
  clock_ms (snd (read "tsc" after_three)) ≤ clock_ms after_three + QUERY_GUARD.
Proof.
  split; [vm_compute; reflexivity|]. split; [vm_compute; reflexivity|].
  refine (proj2 (proj2 (status_reads_never_pile_up after_three "tsc" _ _))).
  - intros n p. simpl. by destruct n as [|[|]].
  - apply RR_read, RR_wait; [|lia]. apply RR_read, RR_read, RR_new.
Defined.
