(* ===== verification/PortosProps.v ===== *)
(** * Properties of fiscal receipts

    What the Portos executor promises of the receipts it registers, each with
    an instance on a concrete Portos (module [Till]). *)

From Stdlib Require Import ZArith Ascii String.
From stdpp Require Import gmap relations.
From S2P Require Import Prelude RustStd Text Core Sqlite Json DeviceApi JournalData JournalCard Journal.
From S2P Require Import JournalTheory DeviceSystem DeviceTheory PortosPayload Portos PortosTheory.
#[local] Open Scope Z_scope.

(** ** A concrete till *)

Module Till.
#[export] Existing Instances Core.TickChrono.tick_chrono BitsJson.bits_json.

(** A digest that keeps its text apart from any other of its length. *)
#[export] Instance keys : ReceiptKeys := {
  sha256_text := λ s, s +:+ "00000000000000000000000000000000";
  parse_from_rfc3339 := λ _, None;
}.
Definition UP : string := "http://till3:3010".
Definition DOWN : string := "http://till4:3010".
Definition config : PortosConfig := from_pokladna [(3, Some "http://till3:3010/"); (4, Some DOWN)].

Definition receipt (ext : string) : Value :=
  VObject [("isSuccessful", VBool true);
           ("request", VObject [("data", VObject [("okp", VString "a1-b2"); ("receiptNumber", VNumber (NInt 42))]);
                                ("externalId", VString ext)])].
Definition query_key (c : PortosCall) : option (string * string * string) :=
  match pc_query c with
  | [(_, code); (_, ext)] => Some (pc_base c, code, ext)
  | _ => None
  end.
Definition has_key (k : string * string * string) (c : PortosCall) : bool :=
  bool_decide (call_key c = Some k).
(** One Portos registers what it is asked to, the other is not running. *)
#[export] Instance server : PortosServer := {
  portos_reply := λ cs c,
    if pc_base c =t? DOWN then Unreachable "connection refused"
    else match call_key c with
         | Some (_, _, ext) => Answer 200 (receipt ext)
         | None =>
           match query_key c with
           | Some k => if existsb (has_key k) cs then Answer 200 (receipt (snd k)) else Answer 204 VNull
           | None => Answer 200 (VObject [("printed", VBool true)])
           end
         end;
}.
Definition held (cs : list PortosCall) (k : string * string * string) : nat :=
  if fst (fst k) =t? DOWN then 0%nat else length (List.filter (has_key k) cs).
Lemma held_app cs c k :
  held (cs ++ [c]) k = (held cs k + if (fst (fst k) =t? DOWN)%string then 0 else if has_key k c then 1 else 0)%nat.
Proof.
  unfold held. destruct (_ =t? DOWN); [done|]. rewrite List.filter_app, length_app. simpl.
  by destruct (has_key k c).
Qed.
#[export] Instance store : PortosStore.
Proof.
  refine {| stored := held |}.
  - intros cs c k Hk. rewrite held_app. unfold has_key. rewrite bool_decide_false by done.
    destruct (_ =t? DOWN); lia.
  - intros cs c k _. rewrite held_app. destruct (_ =t? DOWN); [lia|]. destruct (has_key k c); lia.
  - intros cs c [[base code] ext] Hr. rewrite held_app. simpl in *.
    destruct (base =t? DOWN) eqn:Hb; [lia|]. unfold has_key. case_bool_decide as Hk; [|lia].
    pose proof (call_key_base _ _ _ _ Hk) as ->. by rewrite Hb, Hk in Hr.
Defined.

Definition num (z : Z) : Value := VNumber (NInt z).
Definition sale_payload : Value :=
  VObject [("data", VObject
    [("cashRegisterCode", VString "88812345678900001");
     ("items", VArray [VObject
       [("name", VString "Tea"); ("price", VNumber (NFloat 5 (-1))); ("quantity", VObject [("amount", num 1)]);
        ("type", VString "positive"); ("unitPrice", VNumber (NFloat 5 (-1))); ("vatRate", num 23)]]);
     ("payments", VArray [VObject [("amount", VNumber (NFloat 5 (-1))); ("name", VString "Cash")]])])].
Definition job (id kasa : Z) (uuid job_type : string) (payload : Value) : DeviceJob :=
  {| dj_id := id; dj_job_type := job_type; dj_client_uuid := uuid; dj_kasa_id := Some kasa;
     dj_kasa_name := "till"; dj_pos_order := VNull; dj_payload := payload;
     dj_created_at := ""; dj_claimed_at := "" |}.
Definition sale : DeviceJob := job 7 3 "u1" "fiscal.cash_register" sale_payload.
Definition unsent : DeviceJob := job 8 3 "u2" "fiscal.cash_register" sale_payload.
Definition sale_down : DeviceJob := job 9 4 "u3" "fiscal.cash_register" sale_payload.
Definition slip : DeviceJob :=
  job 10 3 "u4" "fiscal.print_text"
    (VObject [("cut", VBool true); ("lines", VArray [VString "Total 2.50"; VString ""]); ("title", VString "Slip")]).

Definition journaled : Journal :=
  snd ((_ ← insert_received sale; _ ← insert_received unsent; insert_received sale_down)
         {| conn := empty_tables; faults := []; clock := λ n, (10 + n)%nat; ticks := 0 |}).
Definition idle : PortosExecutor := PortosExecutor_new config journaled.
Definition sold : PortosExecutor := snd (execute config sale idle).
Definition sold_again : PortosExecutor := snd (execute config sale sold).
Definition sale_key : string * string * string :=
  (UP, "88812345678900001", external_id 3 "u1").

Example sale_runs :
  map pc_method (calls sold) = [GET; POST] ∧ map pc_method (calls sold_again) = [GET; POST; GET]
  ∧ map (λ c, call_key c) (calls sold) = [None; Some sale_key].
Proof. vm_compute. auto. Qed.
End Till.

Section receipts.
Context `{Chrono} `{JsonText} `{ReceiptKeys} `{PortosServer}.
Variable config : PortosConfig.

Lemma execute_register job kind x :
  op_for_job_type (dj_job_type job) = Some (Register kind) →
  ∃ o, fst (execute config job x) = Ok o ∧ registers config job kind x o (snd (execute config job x)).
Proof. intros Hop. unfold execute. rewrite Hop. apply register_registers. Qed.

Lemma execute_control job op x r x' :
  op_for_job_type (dj_job_type job) = Some op → (∀ k, op ≠ Register k) →
  execute config job x = (r, x') → sends eq registers_nothing x x'.
Proof.
  intros Hop Hno He. pose proof (control_at_sends config (dj_kasa_id job) op (dj_payload job) Hno x) as Hs.
  replace (snd _) with x' in Hs; [done|]. unfold execute in He. rewrite Hop in He.
  unfold control in He. destruct op as [k| | |]; [by destruct (Hno k)|..]; by rewrite He.
Qed.


(** A job the executor ends as failed - by the answer of Portos, for want
    of a connection, a key or a journal - has registered nothing. *)
Theorem failed_job_registered_nothing `{!PortosStore} job x code text x' k :
  execute config job x = (Ok (OFailed code text), x') → stored (calls x') k = stored (calls x) k.
Proof.
  intros He. destruct (op_for_job_type (dj_job_type job)) as [[kind| | |]|] eqn:Hop.
  - destruct (execute_register job kind x Hop) as (o & Ho & Hr). rewrite He in Ho, Hr.
    injection Ho as <-. by eapply registers_failed.
  - apply (sends_stored eq). eapply execute_control; [exact Hop|done|exact He].
  - apply (sends_stored eq). eapply execute_control; [exact Hop|done|exact He].
  - apply (sends_stored eq). eapply execute_control; [exact Hop|done|exact He].
  - unfold execute in He. rewrite Hop in He. by injection He as _ _ <-.
Qed.

(** C11: a receipt is reported as never executed only when no register request
    with its externalId has left this PC since the log of calls began, given
    that no other job of the journal has that externalId. *)
Theorem not_executed_was_never_sent x0 x j entry kasa s text x' base code ext c :
  calls x0 = [] → portos_steps config x0 x →
  get j (journal x) = (Ok (Some entry), s) → dj_kasa_id (je_job entry) = Some kasa →
  (∀ j' kasa' uuid, job_row (conn (journal x)) j' kasa' uuid true →
     external_id kasa' uuid = external_id kasa (dj_client_uuid (je_job entry)) → j' = j) →
  reconcile config entry x = (Ok (RFailed CODE_NOT_EXECUTED text), x') →
  In c (calls x') → call_key c = Some (base, code, ext) →
  ext ≠ external_id kasa (dj_client_uuid (je_job entry)).
Proof.
  intros Hnil Hs Hg Hkasa Huniq Hr Hc Hk ->.
  pose proof (not_executed_unmarked config _ _ _ _ Hr) as Hun.
  pose proof (reconcile_reads config entry x) as [_ (cs & E & HF)]. rewrite Hr in E. simpl in E.
  rewrite E in Hc. apply in_app_or in Hc as [Hc|Hc].
  - assert (posts_are_marked x0) as Hx0 by (intros ? ? ? ? Hin; by rewrite Hnil in Hin).
    destruct (steps_marked config x0 x Hs Hx0 c _ _ _ Hc Hk) as (j' & kasa' & uuid & Hrow & He).
    specialize (Huniq j' kasa' uuid Hrow (eq_sym He)). subst j'.
    by apply (get_contact _ _ _ _ _ _ Hg Hrow).
  - rewrite Forall_forall in HF. apply list_elem_of_In, HF, call_key_get in Hc. congruence.
Qed.

(** The result of a registered receipt is its own receipt: the last call
    was answered with a receipt whose number and OKP the result carries, which
    names this job's externalId - or, to the job's own register request, none -
    and the result names it too. *)
Theorem done_receipt_is_its_own job kind x res x' :
  op_for_job_type (dj_job_type job) = Some (Register kind) →
  execute config job x = (Ok (Done res), x') →
  ∃ kasa cs c status body,
    dj_kasa_id job = Some kasa ∧ calls x' = cs ++ [c]
    ∧ portos_reply cs c = Answer status body
    ∧ let ext := external_id kasa (dj_client_uuid job) in
      get_field "external_id" res = Some (VString ext)
      ∧ get_field "receipt_number" res = pointer ["request"; "data"; "receiptNumber"] body
      ∧ get_field "okp" res = pointer ["request"; "data"; "okp"] body
      ∧ match pointer ["request"; "externalId"] body ≫= as_str with
        | Some theirs => theirs = ext
        | None => pc_method c = POST
        end.
Proof.
  intros Hop He. destruct (execute_register job kind x Hop) as (o & Ho & Hr). rewrite He in Ho, Hr.
  injection Ho as <-. simpl in Hr.
  inversion Hr as [t Hk|base ext code o j' Hk key Hev Hres|base ext code marked j' Hk key Hl Hm Ho]; subst;
    destruct (receipt_key_spec _ _ _ _ _ _ Hk) as (kasa & Hkasa & -> & _ & _).
  - destruct (Hres res eq_refl) as (v & Hf & Hrr).
    destruct (found_answer _ _ Hf) as [status Ha].
    apply receipt_result_names in Hrr as (E1 & E2 & E3 & Hm).
    exists kasa, (calls x), (lookup_call key), status, v. cbv zeta. split_and!; [done..|].
    unfold external_id_matches in Hm. destruct (_ ≫= as_str); [by apply String.eqb_eq|done].
  - destruct (register_outcome_done _ _ _ _ Ho) as (status & body & Ha & Hrr).
    apply receipt_result_names in Hrr as (E1 & E2 & E3 & Hm').
    exists kasa, (calls x ++ [lookup_call key]), (post_call job kind base (external_id kasa (dj_client_uuid job))),
      status, body.
    cbv zeta. split_and!; [done|by rewrite post_app|done..|].
    unfold external_id_matches in Hm'. destruct (_ ≫= as_str); [by apply String.eqb_eq|done].
Qed.

(** A fiscal job that passes the source's validation is a serial job of its
    till's Portos, and when it is a receipt the executor first asks that
    Portos, by the job's externalId and its 16-17 digit cash register code,
    and sends at most one request, one that registers this key - and sends it
    only after the answer "not found". *)
Theorem validated_receipt_asks_first registry job kind now x r x' :
  registry Fiscal = Some (portos_executor config x now) →
  validate job registry = Ok Fiscal →
  op_for_job_type (dj_job_type job) = Some (Register kind) →
  execute config job x = (r, x') →
  ∃ kasa code,
    dj_kasa_id job = Some kasa ∧ client_uuid_ok (dj_client_uuid job) = true
    ∧ cash_register_code_ok code = true
    ∧ let base := url_for config (Some kasa) in
      let key := (base, code, external_id kasa (dj_client_uuid job)) in
      queue_of registry job = Some (mkDeviceQueue Fiscal base)
      ∧ ∃ posts, calls x' = calls x ++ lookup_call key :: posts
        ∧ (posts = [] ∨ ∃ c, posts = [c] ∧ call_key c = Some key
                        ∧ classify_lookup (portos_reply (calls x) (lookup_call key)) = NotFound).
Proof.
  intros Hreg Hv Hop He. destruct (validate_executor _ _ _ Hv) as (ex & Hkind & Hex & Hcheck).
  rewrite Hreg in Hex. injection Hex as <-. simpl in Hcheck.
  destruct (check job now) as [[]|] eqn:Hc; [|done]. clear Hcheck.
  destruct (check_register_job job kind now Hop Hc) as (kasa & Hkasa & Huuid & code & Hcode & Hok).
  exists kasa, code. split_and!; [done..|]. intros base key. split.
  { unfold queue_of. rewrite Hkind. simpl. rewrite Hreg. simpl. by rewrite Hkasa. }
  assert (receipt_key config job (Register kind)
          = Some (base, external_id kasa (dj_client_uuid job), code)) as Hkey.
  { unfold receipt_key. rewrite Hkasa, Hcode. done. }
  destruct (execute_register job kind x Hop) as (o & _ & Hr). rewrite He in Hr. simpl in Hr.
  inversion Hr as [t Hk|b ext cd o' j' Hk key' Hev Hres|b ext cd marked j' Hk key' Hl Hm Ho]; subst; simpl;
    rewrite Hkey in Hk; [done|injection Hk as <- <- <-..].
  - exists []. auto.
  - eexists. split; [done|]. right. eexists. split; [done|]. split; [|done].
    by apply (post_call_key config).
Qed.

(** A text that passes validation is printed as checked: one request to
    [printers/print], whose text is the title and the lines, a row each - every
    row at most 40 characters, none of them a control or format character, so
    no Portos token - then the cutter's token when [cut] is set. *)
Theorem validated_text_is_printed_clean registry job now x :
  registry Fiscal = Some (portos_executor config x now) →
  validate job registry = Ok Fiscal →
  op_for_job_type (dj_job_type job) = Some PrintText →
  ∃ title rows cut,
    text_payload (dj_payload job) title rows cut
    ∧ calls (snd (execute config job x))
      = calls x ++ [mkCall POST (url_for config (dj_kasa_id job)) PRINT_TEXT_PATH []
          (Some (VObject [("contentFlags", VArray []);
                          ("text", VString (String.concat newline (title :: rows)
                                              +:+ (if cut then PAGE_BREAK_TOKEN else "")))]))]
    ∧ journal (snd (execute config job x)) = journal x.
Proof.
  intros Hreg Hv Hop. destruct (validate_executor _ _ _ Hv) as (ex & _ & Hex & Hcheck).
  rewrite Hreg in Hex. injection Hex as <-. simpl in Hcheck.
  destruct (check job now) as [[]|] eqn:Hc; [|done].
  destruct (check_payload_of job PrintText now Hop Hc) as (_ & Hp).
  destruct (checked_text _ _ Hp) as (title & rows & cut & Ht). exists title, rows, cut. split; [done|].
  unfold execute. rewrite Hop. rewrite <- (print_text_rows _ _ _ _ Ht). done.
Qed.
End receipts.

(** ** Instances on the concrete till *)

Section instances.
Import Till.

Definition registry : ExecutorRegistry :=
  λ k, match k with Fiscal => Some (portos_executor config idle 0) | Card => None end.

Lemma sale_row : job_row (conn journaled) 7 3 "u1" false.
Proof. eexists. split; [vm_compute; reflexivity|]. split; [done|]. by split. Qed.
Lemma sale_steps : portos_steps config idle sold.
Proof. apply rtc_once. exact (P_execute config sale 3 idle eq_refl sale_row). Qed.


Lemma failed_job_registered_nothing_witness :
  outcome_label (Indeterminate "") = "indeterminate" ∧
  stored (calls (snd (execute config sale_down idle))) sale_key = stored (calls idle) sale_key.
Proof.
  split; [reflexivity|].
  eapply (failed_job_registered_nothing config sale_down idle). vm_compute. reflexivity.
Defined.

(** The till's other receipt is the only register request. *)
Definition sale_call : PortosCall := Eval vm_compute in nth 1 (calls sold) (lookup_call sale_key).

Lemma marked_is_sale j kasa uuid : job_row (conn (journal sold)) j kasa uuid true → j = 7 ∧ kasa = 3 ∧ uuid = "u1".
Proof.
  assert (Forall (λ r, p_contact_at (o_progress r) = None
                       ∨ o_job_id r = 7 ∧ o_kasa_id r = Some 3 ∧ o_client_uuid r = "u1")
            (device_jobs (conn (journal sold)))) as HF by (vm_compute; repeat constructor; auto).
  assert (lan_jobs (conn (journal sold)) = []) as Hl by (vm_compute; reflexivity).
  unfold job_row. rewrite Hl. destruct (is_lan_job j); [by intros (r & Hf & _)|].
  intros (r & [Hin Hid]%find_some & Hk & Hu & Hm). rewrite Forall_forall in HF.
  apply list_elem_of_In, HF in Hin as [Hn|(H7 & H3 & H1)]; [by destruct (Hm eq_refl)|].
  apply Z.eqb_eq in Hid. split; [congruence|]. split; congruence.
Qed.

Lemma not_executed_was_never_sent_witness :
  call_key sale_call = Some sale_key ∧ In sale_call (calls sold) ∧ external_id 3 "u1" ≠ external_id 3 "u2".
Proof.
  split; [vm_compute; reflexivity|]. assert (In sale_call (calls sold)) as Hin by (vm_compute; auto).
  split; [exact Hin|].
  destruct (get 8 (journal sold)) as [r s] eqn:Hg.
  assert (r = fst (get 8 (journal sold))) as Hr by (by rewrite Hg). vm_compute in Hr. subst r.
  match type of Hg with _ = (Ok (Some ?e), _) => set (entry := e) in Hg end.
  destruct (reconcile config entry sold) as [o x'] eqn:Ho.
  assert (o = fst (reconcile config entry sold)) as Ho' by (by rewrite Ho). vm_compute in Ho'. subst o.
  eapply (not_executed_was_never_sent config idle sold 8 entry 3 s _ x' _ _ _ sale_call);
    [vm_compute; reflexivity|exact sale_steps|exact Hg|reflexivity| |exact Ho| |vm_compute; reflexivity].
  - intros j' kasa' uuid (-> & -> & ->)%marked_is_sale He. vm_compute in He. discriminate He.
  - replace x' with (snd (reconcile config entry sold)) by (by rewrite Ho). vm_compute. right. left. reflexivity.
Defined.

Lemma done_receipt_is_its_own_witness :
  ∃ kasa cs c status body,
    dj_kasa_id sale = Some kasa ∧ calls sold = cs ++ [c] ∧ portos_reply cs c = Answer status body.
Proof.
  destruct (execute config sale idle) as [r x'] eqn:He.
  assert (r = fst (execute config sale idle)) as Hr by (by rewrite He). vm_compute in Hr. subst r.
  destruct (done_receipt_is_its_own config sale KCashRegister idle _ x' eq_refl He)
    as (kasa & cs & c & status & body & Hk & Hc & Ha & _).
  exists kasa, cs, c, status, body. split; [exact Hk|]. split; [|exact Ha].
  rewrite <- Hc. unfold sold. by rewrite He.
Defined.

Lemma validated_receipt_asks_first_witness :
  validate sale registry = Ok Fiscal ∧
  ∃ code posts, calls sold = calls idle ++ lookup_call (UP, code, external_id 3 "u1") :: posts.
Proof.
  assert (validate sale registry = Ok Fiscal) as Hv by (vm_compute; reflexivity).
  split; [exact Hv|].
  destruct (validated_receipt_asks_first config registry sale KCashRegister 0 idle (fst (execute config sale idle)) sold)
    as (kasa & code & Hk & _ & _ & _ & posts & Hc & _); [reflexivity|exact Hv|reflexivity|apply surjective_pairing|].
  exists code, posts. injection Hk as <-. exact Hc.
Defined.

Lemma validated_text_is_printed_clean_witness :
  validate slip registry = Ok Fiscal ∧
  ∃ title rows cut, text_payload (dj_payload slip) title rows cut.
Proof.
  assert (validate slip registry = Ok Fiscal) as Hv by (vm_compute; reflexivity).
  split; [exact Hv|].
  destruct (validated_text_is_printed_clean config registry slip 0 idle)
    as (title & rows & cut & Ht & _); [reflexivity|exact Hv|reflexivity|].
  by exists title, rows, cut.
Defined.
End instances.
