(* ===== verification/TimSlips.v ===== *)
(** * What is shown of a card

    The masked card number of a result and the slips for the till's receipt
    printer: what they show, and that Portos prints them. *)

From Stdlib Require Import ZArith Ascii String.
From S2P Require Import Prelude RustStd Text Json DeviceApi PortosPayload Portos PortosTheory TimCard.
#[local] Open Scope Z_scope.

(** ** The mask *)

#[local] Arguments digits_of : simpl never.

Lemma digits_cons c cs : digits_of (c :: cs) = if is_ascii_digit c then c :: digits_of cs else digits_of cs.
Proof. done. Qed.
Lemma mask_from_lookup digits seen cs i c :
  digits = seen + Z.of_nat (length (digits_of cs)) →
  cs !! i = Some c →
  mask_from digits seen cs !! i
  = Some (if is_ascii_digit c && (4 <=? Z.of_nat (length (digits_of (drop (S i) cs)))) then 88 else c).
Proof.
  revert seen i. induction cs as [|c' cs IH]; intros seen i Hd Hi; [done|]. rewrite digits_cons in Hd.
  destruct i as [|i]; simpl in *.
  - injection Hi as ->. rewrite drop_0. destruct (is_ascii_digit c); simpl in *; [|done].
    destruct (Z.ltb_spec digits (seen + 1 + 4)), (Z.leb_spec 4 (Z.of_nat (length (digits_of cs)))); try done; lia.
  - destruct (is_ascii_digit c'); simpl in *; apply IH; (done || lia).
Qed.
Lemma mask_from_shown digits seen cs :
  digits = seen + Z.of_nat (length (digits_of cs)) →
  digits_of (mask_from digits seen cs) = drop (length (digits_of cs) - 4) (digits_of cs).
Proof.
  revert seen. induction cs as [|c cs IH]; intros seen Hd; [done|]. rewrite digits_cons in *. simpl.
  destruct (is_ascii_digit c) eqn:Hc.
  - simpl in Hd. destruct (Z.ltb_spec digits (seen + 1 + 4)).
    + rewrite digits_cons, Hc, (IH (seen + 1)) by lia. simpl length.
      replace (S (length (digits_of cs)) - 4)%nat with 0%nat by lia.
      by replace (length (digits_of cs) - 4)%nat with 0%nat by lia.
    + rewrite digits_cons, (IH (seen + 1)) by lia. simpl length.
      by replace (S (length (digits_of cs)) - 4)%nat with (S (length (digits_of cs) - 4)) by lia.
  - rewrite digits_cons, Hc. by apply IH.
Qed.
Lemma mask_from_length digits seen cs : length (mask_from digits seen cs) = length cs.
Proof.
  revert seen. induction cs as [|c cs IH]; intros seen; [done|]. simpl.
  destruct (is_ascii_digit c); simpl; by rewrite IH.
Qed.
Lemma mask_from_scalar digits seen cs : Forall scalar cs → Forall scalar (mask_from digits seen cs).
Proof.
  intros HF. revert seen. induction HF as [|c cs Hc HF IH]; intros seen; [constructor|]. simpl.
  destruct (is_ascii_digit c); [|by constructor]. constructor; [|done]. destruct (_ <? _); [done|]. unfold scalar. lia.
Qed.
Lemma chars_mask s : chars (mask_card_number s) = mask_chars (chars s).
Proof. apply chars_of_chars, mask_from_scalar, chars_scalar. Qed.

(** ** The rows of a slip *)

(** Every character of a slip is a space or a character of the text, cleaned. *)
Definition from_text (cs : list Z) (c : Z) : Prop := ∃ c0, In c0 cs ∧ c = slip_char c0.

Lemma trim_end_sub cs c : In c (trim_end cs) → In c cs.
Proof. unfold trim_end. by intros Hc%in_rev%trim_start_sub%in_rev. Qed.
Lemma trim_end_length cs : (length (trim_end cs) ≤ length cs)%nat.
Proof.
  unfold trim_end. rewrite length_rev. destruct (trim_start_suffix (rev cs)) as [pre E].
  apply (f_equal length) in E. rewrite length_rev, length_app in E. lia.
Qed.
Lemma strip_cr_sub acc c : In c (strip_cr acc) → In c acc.
Proof. destruct acc as [|a acc]; [done|]. simpl. destruct (a =? 13); auto. Qed.
Lemma lines_from_sub acc cs l c : In l (lines_from acc cs) → In c l → In c acc ∨ In c cs.
Proof.
  revert acc. induction cs as [|a cs IH]; intros acc Hl Hc; simpl in Hl.
  - destruct acc as [|b acc]; [done|]. destruct Hl as [<-|[]]. left. by apply in_rev.
  - destruct (a =? 10).
    + destruct Hl as [<-|Hl]; [left; by apply strip_cr_sub, in_rev|].
      destruct (IH [] Hl Hc) as [[]|?]. right. by right.
    + destruct (IH _ Hl Hc) as [[->|?]|?]; [right; by left|by left|right; by right].
Qed.
Lemma chunks_from_ok fuel n cs row :
  In row (chunks_from fuel n cs) → (length row ≤ n)%nat ∧ ∀ c, In c row → In c cs.
Proof.
  revert cs. induction fuel as [|fuel IH]; intros cs Hr; [done|]. destruct cs as [|a cs]; [done|].
  destruct Hr as [<-|Hr].
  - split; [rewrite length_take; lia|]. intros c Hc. rewrite <- (take_drop n (a :: cs)). apply in_or_app. by left.
  - destruct (IH _ Hr) as [Hlen Hin]. split; [done|]. intros c Hc. rewrite <- (take_drop n (a :: cs)).
    apply in_or_app. right. auto.
Qed.
Lemma wrap_line_ok raw row :
  In row (wrap_line raw) → (length row ≤ SLIP_WIDTH)%nat ∧ ∀ c, In c row → from_text raw c.
Proof.
  unfold wrap_line. destruct (map slip_char (trim_end raw)) as [|a clean] eqn:E.
  - intros [<-|[]]. split; [simpl; unfold SLIP_WIDTH; lia|done].
  - rewrite <- E. intros (chunk & <- & Hc)%in_map_iff. apply chunks_from_ok in Hc as [Hlen Hin].
    pose proof (trim_end_length chunk). split; [lia|]. intros c Hcc%trim_end_sub%Hin.
    apply in_map_iff in Hcc as (c0 & <- & Hc0%trim_end_sub). by exists c0.
Qed.
Lemma drop_blank_sub ls row : In row (drop_blank ls) → In row ls.
Proof. induction ls as [|[|a l] ls IH]; simpl; auto. Qed.
Lemma slip_row_ok text row :
  In row (slip_rows text) → (length row ≤ SLIP_WIDTH)%nat ∧ ∀ c, In c row → from_text (chars text) c.
Proof.
  unfold slip_rows. intros Hr. assert (In row (concat (map wrap_line (lines (chars text))))) as Hin.
  { apply in_rev, drop_blank_sub, in_rev. rewrite <- (take_drop SLIP_MAX_LINES). apply in_or_app. by left. }
  apply in_concat in Hin as (rows & (raw & <- & Hraw)%in_map_iff & Hrow).
  apply wrap_line_ok in Hrow as [Hlen Hc]. split; [done|]. intros c Hin. destruct (Hc c Hin) as (c0 & Hc0 & ->).
  exists c0. split; [|done]. by destruct (lines_from_sub [] (chars text) raw c0 Hraw Hc0).
Qed.
Lemma slip_rows_length text : (length (slip_rows text) ≤ SLIP_MAX_LINES)%nat.
Proof. unfold slip_rows. rewrite length_take. lia. Qed.
Lemma slip_char_scalar c : scalar c → scalar (slip_char c).
Proof. intros Hc. unfold slip_char. destruct (_ || _); [unfold scalar; lia|done]. Qed.
Lemma slip_char_plain c : is_format_char (slip_char c) = true → is_format c = false ∧ is_format_char c = true.
Proof. unfold slip_char. destruct (is_control c) eqn:?; simpl; [done|]. by destruct (is_format c). Qed.
Lemma slip_char_no_control c : is_control (slip_char c) = false.
Proof. unfold slip_char. destruct (is_control c) eqn:?; simpl; [done|]. by destruct (is_format c). Qed.

(** Every format character of the text is one [slip_lines] blanks. *)
Definition known_formats (text : string) : Prop :=
  ∀ c, In c (chars text) → is_format_char c = true → is_format c = true.
Lemma slip_lines_printable text : known_formats text → Forall printable_row (slip_lines text).
Proof.
  intros Hk. apply Forall_forall. intros s Hs%list_elem_of_In. apply in_map_iff in Hs as (row & <- & Hr).
  apply slip_row_ok in Hr as [Hlen Hc]. unfold printable_row. rewrite chars_of_chars.
  2: { apply Forall_forall. intros c Hin%list_elem_of_In. destruct (Hc c Hin) as (c0 & Hc0 & ->).
       apply slip_char_scalar. pose proof (chars_scalar text) as HF. rewrite Forall_forall in HF.
       by apply HF, list_elem_of_In. }
  split; [unfold PRINT_TEXT_WIDTH, SLIP_WIDTH in *; lia|].
  apply Forall_forall. intros c Hin%list_elem_of_In. destruct (Hc c Hin) as (c0 & Hc0 & ->).
  split; [apply slip_char_no_control|]. destruct (is_format_char (slip_char c0)) eqn:E; [|done].
  apply slip_char_plain in E as [E1 E2]. rewrite (Hk c0 Hc0 E2) in E1. done.
Qed.

(** ** The printer's check *)

Lemma printable_row_ok field row : printable_row row → line_problems field row = [].
Proof.
  intros [Hlen HF]. unfold line_problems, print_line_problem. destruct (Z.ltb_spec PRINT_TEXT_WIDTH (Z.of_nat (length (chars row)))); [lia|].
  destruct (existsb _ _) eqn:He; [|done]. apply existsb_exists in He as (c & Hc & Ho).
  rewrite Forall_forall in HF. destruct (HF c) as [E1 E2]; [by apply list_elem_of_In|]. by rewrite E1, E2 in Ho.
Qed.
Lemma check_each_nil (check : string → Value → Problems) field l :
  (∀ f v, In v l → check f v = []) → check_each check field l = [].
Proof.
  unfold check_each. generalize (at_index field). intros at_i Hl. revert at_i.
  induction l as [|v l IH]; intros at_i; [done|]. simpl. rewrite Hl by (by left). apply (IH (λ f w Hw, Hl f w (or_intror Hw)) (at_i ∘ S)).
Qed.
Lemma slip_payload_ok `{ReceiptKeys} title rows now :
  Forall printable_row (title :: rows) → is_blank title = false →
  (1 ≤ length rows ≤ 80)%nat →
  check_payload_at PrintText (slip_payload title rows) now = Ok tt.
Proof.
  intros HF Hb Hn. inversion HF as [|x l Ht Hrows]; subst.
  unfold check_payload_at, object, check_print_text. simpl. rewrite Hb, (printable_row_ok _ title) by done. simpl.
  destruct rows as [|r rows]; [simpl in Hn; lia|]. simpl map. cbv iota.
  destruct (Z.ltb_spec PRINT_TEXT_MAX_LINES (Z.of_nat (length (VString r :: map VString rows)))) as [Hl|Hl].
  { simpl in Hl, Hn. rewrite length_map in Hl. unfold PRINT_TEXT_MAX_LINES in Hl. lia. }
  rewrite check_each_nil; [done|]. intros f v Hv. change (In v (map VString (r :: rows))) in Hv.
  apply in_map_iff in Hv as (row & <- & Hr). unfold check_text_line. simpl. apply printable_row_ok.
  rewrite Forall_forall in Hrows. by apply Hrows, list_elem_of_In.
Qed.

(** ** Properties *)

(** A card number leaves the executor masked: the same characters at the same
    places, every digit with four or more digits after it an X, so that exactly
    the last four digits (or all, when there are fewer) are shown. *)
Theorem masked_number_shows_its_last_four printable :
  let cs := chars printable in
  let masked := chars (mask_card_number printable) in
  length masked = length cs
  ∧ (∀ i c, cs !! i = Some c → masked !! i
      = Some (if is_ascii_digit c && (4 <=? Z.of_nat (length (digits_of (drop (S i) cs)))) then 88 else c))
  ∧ digits_of masked = drop (length (digits_of cs) - 4) (digits_of cs)
  ∧ (length (digits_of masked) ≤ 4)%nat.
Proof.
  cbv zeta. rewrite chars_mask. unfold mask_chars. split; [apply mask_from_length|].
  split; [intros i c; by apply mask_from_lookup|]. rewrite mask_from_shown by lia. split; [done|].
  rewrite length_drop. lia.
Qed.

(** A slip of the card terminal is printed by the till's Portos: whatever the
    text, a slip with a line, under a title Portos takes, passes the check of a
    [fiscal.print_text] payload - unless the text has one of the format
    characters the two lists of the sources do not share. *)
Theorem slip_passes_the_printer_check `{ReceiptKeys} title text now :
  printable_row title → is_blank title = false →
  known_formats text → slip_lines text ≠ [] →
  check_payload_at PrintText (slip_payload title (slip_lines text)) now = Ok tt.
Proof.
  intros Ht Hb Hk Hne. apply slip_payload_ok; [|done|].
  - constructor; [done|]. by apply slip_lines_printable.
  - pose proof (slip_rows_length text) as Hl. unfold slip_lines in *. rewrite length_map in *.
    destruct (slip_rows text); [done|]. unfold SLIP_MAX_LINES in Hl. simpl in *. lia.
Qed.

(** The format characters of payload.rs that card.rs leaves in a slip: Portos
    refuses it. *)
Lemma unshared_format_is_refused `{ReceiptKeys} now :
  check_payload_at PrintText (slip_payload CARDHOLDER_SLIP_TITLE (slip_lines (of_chars [65; 0x600]))) now
  = Err "payload.lines[0] must not contain control or format characters".
Proof. vm_compute. reflexivity. Qed.

(** ** Instances *)

Definition no_keys : ReceiptKeys := {| sha256_text := λ s, s; parse_from_rfc3339 := λ _, None |}.
Definition slip_text : string := "CARD XXXXXXXXXXXX1234" +:+ of_chars [13; 10; 9; 10; 0xAD] +:+ "AMOUNT 5.00" +:+ of_chars [10; 10].
Lemma slip_passes_the_printer_check_witness :
  slip_lines slip_text = ["CARD XXXXXXXXXXXX1234"; ""; " AMOUNT 5.00"] ∧
  @check_payload_at no_keys PrintText (slip_payload CARDHOLDER_SLIP_TITLE (slip_lines slip_text)) 0 = Ok tt.
Proof.
  split; [vm_compute; reflexivity|]. apply (@slip_passes_the_printer_check no_keys).
  - apply (line_problems_ok "title"). vm_compute. reflexivity.
  - vm_compute. reflexivity.
  - intros c Hc Hf.
    assert (forallb (λ c, negb (is_format_char c) || is_format c) (chars slip_text) = true) as Hk by (vm_compute; reflexivity).
    rewrite forallb_forall in Hk. specialize (Hk c Hc). rewrite Hf in Hk. exact Hk.
  - vm_compute. discriminate.
Defined.
