(* ===== verification/TimProps.v ===== *)
(** * Properties of card payments

    What the card executor promises of the money on a terminal, each with an
    instance on a concrete terminal (module [Terminal]). *)

From Stdlib Require Import ZArith Ascii String Floats.SpecFloat.
From stdpp Require Import gmap relations.
From S2P Require Import Prelude RustStd Text Floats Core Sqlite Json DeviceApi JournalData JournalCard Journal.
From S2P Require Import JournalTheory DeviceSystem DeviceTheory TimCard TimSession TimExec TimTheory TimCharge.
#[local] Open Scope Z_scope.

Section payments.
Context `{Chrono} `{JsonText} `{!Rfc3339} `{TL : TimLibrary} `{!TimWorld} `{SlipPrinter}.
Variable config : TimConfig.
(** A call or a wait never ends before its time. *)
Hypothesis lag_nonneg : ∀ n, 0 ≤ lag n.

(** C14: a payment job asks nothing of the terminal and fails, or its calls are
    one session of the till's terminal in the order of the protocol
    [purchase_session]: connect, login, a checked terminal id, the last
    transaction, at most one transaction of the job's amount, then one commit -
    only when a [card.commit] came and the authorisation is the one asked for -
    or one rollback, then the logout and disconnect.  When the session's end is
    unknown, so that the terminal may still wait for a commit, rollbacks come
    before the logout until one is answered, and the logout without such an
    answer only when the terminal's own commit timeout has passed since the
    payment's last call was sent. *)
Theorem payment_follows_the_session job kind channel t :
  ∃ o t', two_phase config job kind channel t = (Ok o, t') ∧
    ((∃ code text, o = OFailed code text) ∧ tim_asked t' = tim_asked t
     ∨ ∃ spec amount stored ended cs times,
         let req := payment_request config job kind spec amount stored in
         job_spec config job = Some spec ∧ amount_minor job = Some amount ∧ outcome_of ended o
         ∧ tim_asked t' = tim_asked t ++ map (mine spec req) cs
         ∧ call_times t' = call_times t ++ times ∧ length times = length cs
         ∧ purchase_session spec req times (tim_asked t) (requests channel) ended cs).
Proof. by apply two_phase_session. Qed.

(** C12: the outcome of a payment tells what the terminal's answers amount to: a
    payment reported done took exactly the job's amount, one reported failed
    took nothing - whatever the terminal answered, and only an indeterminate
    one may be in doubt. *)
Theorem payment_outcome_matches_the_books job kind channel t o t' :
  two_phase config job kind channel t = (Ok o, t') →
  ∃ l, tim_asked t' = tim_asked t ++ l ∧
    let b := books (tim_asked t) NothingTaken l in
    match o with
    | Done _ => ∃ amount, amount_minor job = Some amount ∧ b = Taken (Some amount)
    | OFailed _ _ => b = NothingTaken
    | Indeterminate _ => True
    end.
Proof.
  intros E. destruct (two_phase_session lag_nonneg config job kind channel t) as (o' & t'' & E' & Hs).
  rewrite E in E'. simplify_eq. destruct Hs as [[(code & text & ->) Hl]|Hs].
  - exists []. by rewrite app_nil_r.
  - destruct Hs as (spec & amount & stored & ended & cs & times & _ & Ham & Ho & Hl & _ & _ & Hs).
    apply session_books in Hs. eexists. split; [exact Hl|]. cbv zeta.
    destruct ended; simpl in *; subst; eauto.
Qed.

(** A held authorisation is decided in time: the wait ends, by one commit
    that a [card.commit] asked for or one rollback, and no later than the
    deadline after the authorisation and two of the longest delays of a call
    or a wait. *)
Theorem held_payment_is_decided_in_time spec req most facts tid t :
  (∀ n, lag n ≤ most) →
  0 ≤ most → 0 ≤ pr_deadline req →
  authorisation_problem facts (pr_amount_minor req) = None →
  ∃ ended c t', hold spec req (now_ms t) facts tid t = (Ok ended, t')
    ∧ settled spec req (tim_asked t) (requests (settle_channel t)) facts ended c
    ∧ tim_asked t' = tim_asked t ++ [mine spec req c]
    ∧ now_ms t' ≤ now_ms t + pr_deadline req + 2 * most.
Proof.
  intros Hmost Hm Hd Hp.
  destruct (hoare_hold lag_nonneg spec req (now_ms t) facts tid (tim_asked t) (requests (settle_channel t)) (now_ms t)
    Hp t) as (ended & t' & E & c & Hs & Ht').
  { split; [|done]. split; [done|apply incl_refl|lia]. }
  exists ended, c, t'. split; [done|]. split; [done|]. split; [apply Ht'|].
  pose proof (hold_loop_in_time lag_nonneg most Hmost spec req (hold_fuel req) (now_ms t + pr_deadline req) facts tid t
    ltac:(lia)) as Hb.
  unfold hold, mbind, M_bind in E. destruct (hold_loop _ _ _ _ _ _ _) as [[e|[]] t1]. simpl in Hb. injection E as _ <-. lia.
Qed.


(** C16: a reversal whose payload names the terminal of the charge is sent to no
    other (one that names none is not checked), and a reversal is sent only
    when, in the journal just before its contact is written, every other
    reversal of the same [trans_seq] on this terminal belongs to a job that has
    failed or that the journal no longer has.  It is done only by the terminal's
    answer; refused, after it was sent, only by one of the terminal's codes that
    mean nothing was reversed - for code 67 as a closed period only when the
    journal shows a balance of the terminal since the payment - and unknown for
    every other code. *)
Theorem sale_is_not_reversed_twice run tid t :
  let last := mkAsked (rr_ip run) (Some (rr_job run)) TLastTransaction in
  let rev := mkAsked (rr_ip run) (Some (rr_job run)) (TReversal (rr_seq run)) in
  let answer := tim_facts (tim_asked t ++ [last]) rev in
  let tables := conn (meanwhile (steps t) (journal t)) in
  ∃ e t', reversal_session run tid t = (Ok e, t') ∧
    (tim_asked t' = tim_asked t ++ [last; rev]
       ∧ (∀ wanted, rr_tid run = Some wanted → tid = Some wanted)
       ∧ (∀ c job, In c (card_payments tables) → c_terminal_ip c = rr_ip run → c_tx_type c = 3 →
            c_target_seq c = Some (rr_seq run) → c_job_id c ≠ rr_job run →
            List.find (λ j, o_job_id j =? c_job_id c) (device_jobs tables) = Some job →
            p_state (o_progress job) = "failed")
       ∧ match e with
         | RevDone facts _ => answer = Ok facts
         | RevRefused code _ => ∃ err, answer = Err err ∧
             (te_code err = 67 ∧ (code = "unknown_reference" ∨
                code = "period_closed" ∧ balanced_since (rr_ip run) (rr_seq run) (conn (journal t')))
              ∨ te_code err ≠ 67 ∧ refusal_of (te_code err) = Some code)
         | RevUnknown _ => ∃ err, answer = Err err ∧ te_code err ≠ 67 ∧ refusal_of (te_code err) = None
         end
     ∨ (tim_asked t' = tim_asked t ∨ tim_asked t' = tim_asked t ++ [last]) ∧ ∀ facts tid, e ≠ RevDone facts tid).
Proof.
  cbv zeta. unfold reversal_session. destruct (wrong_charge_terminal run tid) as [wanted|] eqn:Hw.
  { eexists _, t. split; [reflexivity|]. right. split; [by left|done]. }
  set (rev := mkAsked _ _ (TReversal _)). unfold mbind at 1, M_bind at 1.
  destruct (ask_run tim_last (mkAsked (rr_ip run) (Some (rr_job run)) TLastTransaction) t) as (t1 & E1 & Hl1 & Hj1).
  rewrite E1. set (base := baseline _ _). unfold mbind at 1, M_bind at 1.
  destruct (never_fails (refuse_other_reversal run) t1) as (o & t2 & E2). rewrite E2.
  pose proof (refuse_other_reversal_quiet run t1) as (Hl2 & _ & _). rewrite E2 in Hl2. simpl in Hl2.
  destruct o as [e|].
  { exists e, t2. split; [done|]. right. split; [right; congruence|].
    intros facts tid' ->. by apply refused_is_no_reversal in E2. }
  apply no_other_reversal in E2. rewrite Hj1 in E2.
  set (m := card_contact_of _ _ _ _ _ _). unfold mbind at 1, M_bind at 1.
  destruct (never_fails (journaled m) t2) as (c & t3 & E3). rewrite E3.
  pose proof (journaled_quiet m t2) as (Hl3 & _ & _). rewrite E3 in Hl3. simpl in Hl3.
  assert (tim_asked t3 = tim_asked t ++ [mkAsked (rr_ip run) (Some (rr_job run)) TLastTransaction]) as Hl by congruence.
  destruct c as [[]|e]; [|by eexists _, t3; (split; [reflexivity|]); right; split; [right|]..].
  destruct (send_reversal_run run tid t3) as (e & t4 & E4 & Hl4 & He). rewrite Hl in Hl4, He.
  exists e, t4. split; [done|]. left. split; [by rewrite Hl4, <- app_assoc|]. split; [|split; [|exact He]].
  - intros wanted Hwanted. unfold wrong_charge_terminal in Hw. rewrite Hwanted in Hw.
    by case_bool_decide.
  - intros c job. by apply no_other_reversal_failed.
Qed.

(** C15: a reconcile of a payment or reversal ends it only by proof: as not
    executed when no contact was ever journaled, without asking; else by one
    read-only session in which the terminal reports, as its last transaction,
    one of the row's type and amount whose sequence number is the authorised
    one or lies after the baseline - successful for done, failed for failed.
    In every other case the job stays unknown. *)
Theorem reconcile_is_proven_by_the_terminal entry t r t' :
  is_payment (dj_job_type (je_job entry)) || (dj_job_type (je_job entry) =t? JOB_REVERSAL) = true →
  reconcile_card config entry t = (Ok r, t') →
  (∃ why, r = StillUnknown why)
  ∨ je_contact_at entry = None ∧ (∃ text, r = RFailed CODE_NOT_EXECUTED text) ∧ t' = t
  ∨ ∃ spec card last,
      let call c := mkAsked (ts_ip spec) (Some (cp_job_id card)) c in
      job_spec config (je_job entry) = Some spec
      ∧ row_to_card <$> List.find (card_by_job (dj_id (je_job entry))) (card_payments (conn (journal t))) = Some card
      ∧ cp_person_reason card = None
      ∧ tim_asked t' = tim_asked t ++ map call [TConnect; TLogin; TTerminalId; TLastTransaction; TLogout; TDisconnect]
      ∧ tim_last (tim_asked t ++ map call [TConnect; TLogin; TTerminalId]) (call TLastTransaction) = Ok last
      ∧ verdict_of card last r.
Proof.
  intros Hk. unfold reconcile_card. rewrite Hk. unfold reconcile_transaction. intros Hr.
  destruct (je_contact_at entry) as [at_|]; simpl in Hr; [|injection Hr as <- <-; eauto 6].
  apply bind_ok in Hr as (c & t1 & E1 & Hr).
  destruct c as [[card|]|e]; [|injection Hr as <- <-; eauto..].
  pose proof (journaled_query _ _ _ _ _ E1) as Hcard.
  pose proof (journaled_quiet (card_payment (dj_id (je_job entry))) t) as (Hl1 & _). rewrite E1 in Hl1. simpl in Hl1.
  destruct (cp_person_reason card) eqn:Hp; [injection Hr as <- <-; eauto|].
  apply bind_ok in Hr as (now & t2 & E2 & Hr). pose proof (journaled_quiet utc_now t1) as (Hl2 & _).
  rewrite E2 in Hl2. simpl in Hl2. destruct now as [now|e]; [|injection Hr as <- <-; eauto].
  unfold ask_terminal in Hr. destruct (settle_pending now _); [injection Hr as <- <-; eauto|].
  destruct (job_spec config (je_job entry)) as [spec|] eqn:Hspec; [|injection Hr as <- <-; eauto].
  apply bind_ok in Hr as (read & t3 & E3 & Hr).
  pose proof (on_terminal_run config spec (read_last spec (Some (cp_job_id card))) t2) as Hrun.
  destruct (library_loaded config); [|rewrite Hrun in E3; injection E3 as <- <-; injection Hr as <- <-; eauto].
  destruct Hrun as (a & t4 & t5 & t6 & Hl4 & _ & Hw & Hrun & [Hl6 _] & _). rewrite Hrun in E3. injection E3 as <- <-.
  destruct a as [[tid last]|e]; [|apply bind_ok in Hr as (u & t7 & _ & Hr); injection Hr as <- <-; eauto].
  apply read_last_ok in Hw as [Hlast Hl5]. apply bind_ok in Hr as (u & t7 & E7 & Hr).
  injection E7 as _ <-. apply reconcile_verdict_proves in Hr as [Hv Hl]. right. right.
  exists spec, card, last. cbv zeta. rewrite Hl4, Hl2, Hl1 in Hlast, Hl5. split_and!; [done|by rewrite Hcard|done| |done|done].
  rewrite Hl, <- Hl5. exact Hl6.
Qed.
End payments.

(** ** A concrete terminal *)

Module Terminal.
#[export] Existing Instances Core.TickChrono.tick_chrono BitsJson.bits_json.
#[export] Instance dates : Rfc3339 := {| parse_from_rfc3339 := Core.TickChrono.count_strokes |}.

Definition facts : TxFacts := {|
  transaction_type := Some 1; tx_amount_minor := Some 500; currency_eur := Some true; trans_seq := Some 41;
  trans_ref := Some 9; trm_trans_ref := None; auth_code := Some "A1"; pos_entry_mode := Some 7; cvm := Some 5;
  brand_name := Some "VISA"; card_number_printable := Some "479273******1234"; merchant_receipt := None;
  cardholder_receipt := Some "VISA 5.00" |}.
Definition committed (l : list Asked) : bool :=
  existsb (λ a, match a_call a with TCommit => true | _ => false end) l.
(** It authorises five euros; its last transaction is the committed one. *)
#[export] Instance library : TimLibrary := {|
  tim_terminal := λ _, Ok tt;
  tim_unit := λ _ _, Ok tt;
  tim_id := λ _ _, Ok (Some "T1");
  tim_last := λ l _, Ok (if committed l then mkLast 1 1 (Some facts) else mkLast 0 0 None);
  tim_facts := λ _ _, Ok facts;
  tim_shift := λ _ _, Err (mkTimError "ta_terminal_activate" 5);
  tim_balance := λ _ _, Err (mkTimError "ta_terminal_balance" 5);
  tim_reprint := λ _ _, Err (mkTimError "ta_terminal_receipt_request" 5);
|}.
#[export] Instance world : TimWorld := {| lag := λ _, 5; meanwhile := λ _ j, j |}.
#[export] Instance no_printer : SlipPrinter := {| print_slip := λ _ _, Err "no printer" |}.

Definition terminal : TerminalSpec := mkSpec 3 "10.0.0.9" (Some "T1") 60.
Definition config : TimConfig := mkTimConfig _ [terminal] true false 45000 0%nat.
Definition purchase : DeviceJob :=
  {| dj_id := 7; dj_job_type := JOB_PURCHASE; dj_client_uuid := "u1"; dj_kasa_id := Some 3;
     dj_kasa_name := "till"; dj_pos_order := VNull; dj_payload := VObject [("amount", VNumber (NInt 5))];
     dj_created_at := ""; dj_claimed_at := "" |}.
Definition received : Journal :=
  snd ((_ ← insert_received purchase; start_execution 7)
         {| conn := empty_tables; faults := []; clock := λ n, (10 + n)%nat; ticks := 0 |}).
Definition start : Tim := mkTim _ received [] 0 0 no_requests [] [] [] ∅ ∅ [].
(** Odoo commits a second after the payment began. *)
Definition channel : SettleChannel := mkChannel [(1000, Commit)] None.
Abbreviation paid := (two_phase config purchase Purchase channel start).
Definition session_calls : list TimCall :=
  [TConnect; TLogin; TTerminalId; TLastTransaction; TTransaction Purchase 500; TCommit; TLogout; TDisconnect].
Example purchase_amount : amount_minor purchase = Some 500.
Proof. vm_compute. reflexivity. Qed.
Example payment_runs :
  fst paid = Ok (Done (card_result "committed" (Some "T1") facts))
  ∧ map a_call (tim_asked (snd paid)) = session_calls
  ∧ replies (snd paid) = [(Commit, Committed_)].
Proof. vm_compute. done. Qed.
(** The bridge stops while the payment runs: its row waits for a reconcile. *)
Definition interrupted : Tim :=
  mkTim _ (snd (record_outcome 7 (Indeterminate "stopped") (journal (snd paid)))) (tim_asked (snd paid)) 100000 20
    no_requests [] [] [] ∅ ∅ (call_times (snd paid)).
Definition entry : option JournalEntry :=
  match fst (get 7 (journal interrupted)) with Ok o => o | Err _ => None end.
(** The same bridge after it is asked again, for the same job. *)
Abbreviation run_again := (snd (execute_card config purchase "" channel None interrupted)).
Example interrupted_reconciles :
  ∃ e, entry = Some e ∧ is_payment (dj_job_type (je_job e)) || (dj_job_type (je_job e) =t? JOB_REVERSAL) = true
    ∧ fst (reconcile_card config e interrupted)
      = Ok (RDone (reconciled (card_result "successful" (Some "T1") facts))).
Proof. eexists. split; [vm_compute; reflexivity|]. split; vm_compute; reflexivity. Qed.
End Terminal.

Section instances.
Import Terminal.

Lemma terminal_lags : ∀ n, 0 ≤ lag (TimWorld := world) n.
Proof. intros n. vm_compute. discriminate. Qed.

Lemma payment_follows_the_session_witness :
  ∃ spec amount stored ended cs times,
    let req := payment_request config purchase Purchase spec amount stored in
    spec = terminal ∧ amount = 500 ∧ cs = session_calls ∧ length times = 8%nat
    ∧ purchase_session spec req times [] (requests channel) ended cs.
Proof.
  destruct (payment_follows_the_session config terminal_lags purchase Purchase channel start)
    as (o & t' & E & [[(code & text & ->) _]|(spec & amount & stored & ended & cs & times & Hs & Ha & _ & Hl & _ & Hlen & Hp)]).
  - exfalso. destruct payment_runs as [Hd _]. rewrite E in Hd. discriminate Hd.
  - assert (Some spec = Some terminal) as Es by (rewrite <- Hs; vm_compute; reflexivity).
    rewrite purchase_amount in Ha. injection Es as ->. injection Ha as <-.
    assert (cs = session_calls) as Ecs.
    { destruct payment_runs as (_ & Hc & _). rewrite E in Hc. cbn [snd] in Hc. rewrite Hl, map_app, map_map in Hc.
      rewrite <- Hc. symmetry. apply map_id. }
    exists terminal, 500, stored, ended, cs, times. split; [reflexivity|]. split; [reflexivity|].
    split; [exact Ecs|]. split; [rewrite Hlen, Ecs; reflexivity|exact Hp].
Defined.

Lemma payment_outcome_matches_the_books_witness :
  fst paid = Ok (Done (card_result "committed" (Some "T1") facts)) ∧
  ∃ l, tim_asked (snd paid) = l ∧ books [] NothingTaken l = Taken (Some 500).
Proof.
  destruct payment_runs as (Ho & _). split; [exact Ho|]. destruct paid as [r t'] eqn:E. cbn [fst snd] in *. subst r.
  destruct (payment_outcome_matches_the_books config terminal_lags purchase Purchase channel start _ t' E)
    as (l & Hl & amount & Ha & Hb).
  exists l. split; [exact Hl|]. rewrite purchase_amount in Ha. injection Ha as <-. exact Hb.
Defined.

Lemma held_payment_is_decided_in_time_witness :
  let req := payment_request config purchase Purchase terminal 500 None in
  ∃ ended c t', hold terminal req 0 facts (Some "T1") start = (Ok ended, t') ∧ c = TRollback ∧ now_ms t' ≤ 45010.
Proof.
  cbv zeta. set (req := payment_request config purchase Purchase terminal 500 None).
  destruct (held_payment_is_decided_in_time terminal_lags terminal req 5 facts (Some "T1") start)
    as (ended & c & t' & E & Hs & Hl & Ht).
  - intros n. vm_compute. discriminate.
  - lia.
  - vm_compute. discriminate.
  - vm_compute. reflexivity.
  - exists ended, c, t'. split; [exact E|]. split; [|exact Ht].
    destruct Hs; try reflexivity; match goal with Hin : In _ _ |- _ => destruct Hin end.
Defined.


Lemma reconcile_is_proven_by_the_terminal_witness :
  ∃ e r t' spec card last, entry = Some e ∧ reconcile_card config e interrupted = (Ok r, t')
    ∧ job_spec config (je_job e) = Some spec ∧ verdict_of card last r
    ∧ r = RDone (reconciled (card_result "successful" (Some "T1") facts)).
Proof.
  destruct interrupted_reconciles as (e & He & Hk & Hr).
  destruct (reconcile_card config e interrupted) as [[r|[]] t'] eqn:E. cbn [fst] in Hr. injection Hr as Hr.
  destruct (reconcile_is_proven_by_the_terminal config e interrupted r t' Hk E)
    as [[why Hw]|[(_ & [text Hf] & _)|(spec & card & last & Hs & _ & _ & _ & _ & Hv)]].
  - rewrite Hr in Hw. discriminate Hw.
  - rewrite Hr in Hf. discriminate Hf.
  - exists e, r, t', spec, card, last. split; [exact He|]. split; [exact E|]. split; [exact Hs|]. split; [exact Hv|].
    exact Hr.
Defined.
End instances.
