(* ===== verification/StartupProps.v ===== *)
(** * What a configuration that starts the client guarantees *)

From Stdlib Require Import ZArith Ascii String Strings.Byte.
From stdpp Require Import gmap.
From S2P Require Import Prelude RustStd Text Floats Core Sqlite Json DeviceApi JournalData JournalCard Journal.
From S2P Require Import TimCard TimSession TimExec TimTheory TimProps Config Startup.
#[local] Open Scope Z_scope.

(** ** Checks without a problem *)

Lemma problem_nil b text : problem b text = [] ↔ b = false.
Proof. by destruct b. Qed.
Lemma option_list_nil {A} (o : option A) : option_list o = [] → o = None.
Proof. by destruct o. Qed.

(** Splits a list of problems that is empty into the checks that passed. *)
Ltac no_problems H :=
  lazymatch type of H with
  | _ ++ _ = [] => let Ha := fresh H in apply app_eq_nil in H as [Ha H]; no_problems Ha; no_problems H
  | problem _ _ = [] => apply problem_nil in H
  | option_list _ = [] => apply option_list_nil in H
  | _ => idtac
  end.

Lemma between_spec lo hi b : between lo hi b = true ↔ lo ≤ b ≤ hi.
Proof. unfold between. rewrite andb_true_iff, !Z.leb_le. lia. Qed.

(** ** Addresses *)

Lemma join_split d cs : join_with d (split_on d cs) = cs.
Proof.
  induction cs as [|c cs IH]; [done|]. simpl. destruct (Z.eqb_spec c d) as [->|Hc].
  - destruct (split_on d cs) as [|w ws] eqn:E; [destruct cs; simpl in E; repeat case_match; congruence|].
    simpl. f_equal. exact IH.
  - destruct (split_on d cs) as [|w ws] eqn:E; [by rewrite <- IH|]. destruct ws; simpl in *; by rewrite <- IH.
Qed.

Lemma bytes_of_inj a b : bytes_of a = bytes_of b → a = b.
Proof.
  unfold bytes_of. revert b. induction a as [|c a IH]; intros [|c' b]; simpl; intros [=]; [done|].
  f_equal; [|by apply IH]. rewrite <- (ascii_N_embedding c), <- (ascii_N_embedding c'). f_equal. unfold byte_of in *. lia.
Qed.

(** The digits a number of at most three digits is written with. *)
Definition octet_digits (n : Z) : list Z :=
  if n <? 10 then [48 + n] else if n <? 100 then [48 + n / 10; 48 + n mod 10]
  else [48 + n / 100; 48 + n / 10 mod 10; 48 + n mod 10].

Lemma parse_octet_digits g n : parse_octet g = Some n → g = octet_digits n.
Proof.
  unfold parse_octet, octet_digits. destruct g as [|c1 [|c2 [|c3 [|c4 g]]]]; simpl; try done;
    unfold is_ascii_digit; intros H;
    repeat match type of H with
      | context [c1 =? 48] => destruct (Z.eqb_spec c1 48); simpl in H
      | context [if ?b then _ else _] => destruct b eqn:?; simpl in H
      end; try discriminate H; injection H as <-;
    repeat match goal with Hb : _ && _ = true |- _ => apply andb_true_iff in Hb as [? ?] end;
    rewrite ?Z.leb_le, ?Z.ltb_lt, ?Z.ltb_ge in *;
    repeat (case_match; rewrite ?Z.ltb_lt, ?Z.ltb_ge in * ); try lia;
    repeat (f_equal; try (Z.to_euclidean_division_equations; lia)).
Qed.

Lemma mapM_parse_octet_inj gs gs' ns :
  mapM parse_octet gs = Some ns → mapM parse_octet gs' = Some ns → gs = gs'.
Proof.
  rewrite !mapM_Some. intros H. revert gs'. induction H as [|g n gs ns Hg _ IH]; intros gs' H'; inversion H'; subst; [done|].
  f_equal; [|by apply IH]. erewrite (parse_octet_digits g), (parse_octet_digits x) by eassumption. done.
Qed.

(** An address is written in one way only. *)
Lemma parse_ipv4_inj a b ns : parse_ipv4 a = Some ns → parse_ipv4 b = Some ns → a = b.
Proof.
  unfold parse_ipv4. do 2 (case_match; [|done]). intros Ha Hb.
  apply bytes_of_inj. rewrite <- (join_split DOT (bytes_of a)), <- (join_split DOT (bytes_of b)). f_equal.
  by eapply mapM_parse_octet_inj.
Qed.

(** ** The tills *)

(** A till without a problem. *)
Definition till_ok (k : PokladnaKasaConfig) : Prop :=
  0 < kasa_id k
  ∧ (∀ url, portos_url k = Some url → base_url_problem url = None)
  ∧ (∀ ip, terminal_ip k = Some ip → is_Some (parse_ipv4 ip) ∧ kasa_id k ≤ TIM_MAX_POS_ID)
  ∧ (∀ tid, terminal_tid k = Some tid → valid_terminal_tid tid = true).

Lemma kasa_problems_nil k : 0 < kasa_id k → kasa_problems k = [] → till_ok k.
Proof.
  unfold kasa_problems. intros Hid H. no_problems H. split_and!; [done| | |].
  - intros url Hu. rewrite Hu in H0. simpl in H0. by destruct (base_url_problem url).
  - intros ip Hip. rewrite Hip in *. no_problems H1. rewrite bool_decide_true in H2 by done. simpl in H2.
    apply negb_false_iff, bool_decide_eq_true_1 in H1. split; [done|lia].
  - intros tid Ht. rewrite Ht in H. no_problems H. by apply negb_false_iff in H.
Qed.

Lemma kasy_problems_nil seen ks :
  kasy_problems seen ks = [] →
  NoDup (map kasa_id ks) ∧ (∀ k, In k ks → till_ok k ∧ kasa_id k ∉ seen).
Proof.
  revert seen. induction ks as [|k ks IH]; intros seen; simpl; [split; [constructor|done]|].
  destruct (Z.leb_spec (kasa_id k) 0); [done|]. case_bool_decide as Hs; [done|]. intros Hp. simpl in Hp.
  apply app_eq_nil in Hp as [Hk Hp]. apply IH in Hp as [Hn Hall].
  split.
  - constructor; [|done]. intros Hin. apply list_elem_of_In, in_map_iff in Hin as (k' & Heq & Hin).
    apply Hall in Hin as [_ Hin]. apply Hin. rewrite Heq. set_solver.
  - intros k' [<-|Hin]; [split; [by apply kasa_problems_nil|done]|].
    apply Hall in Hin as [? ?]. split; [done|]. set_solver.
Qed.

Lemma repeated_nil before l : repeated String.eqb before l = [] → NoDup l ∧ ∀ x, In x l → ¬ In x before.
Proof.
  revert before. induction l as [|x l IH]; intros before; simpl; [split; [constructor|done]|].
  destruct (existsb (String.eqb x) before) eqn:E; [done|]. intros H. apply IH in H as [Hn Hall].
  split.
  - constructor; [|done]. intros Hin. apply list_elem_of_In in Hin. apply (Hall x Hin), in_or_app. right. by left.
  - intros y [<-|Hin] Hb.
    + rewrite (proj2 (text_in_spec x before) Hb : existsb _ _ = true) in E. done.
    + apply (Hall y Hin), in_or_app. by left.
Qed.

Lemma key_problems_nil bridge before keys :
  key_problems bridge before keys = [] →
  NoDup (map snd keys)
  ∧ (∀ id key, In (id, key) keys → lan_key_ok key = true ∧ key ≠ bridge ∧ ¬ In key before).
Proof.
  revert before. induction keys as [|[id key] keys IH]; intros before; simpl; [split; [constructor|done]|].
  intros H. no_problems H. apply IH in H as [Hn Hall]. split.
  - constructor; [|done]. intros Hin. apply list_elem_of_In, in_map_iff in Hin as ([id' k'] & Heq & Hin).
    simpl in Heq. subst k'. apply Hall in Hin as (_ & _ & Hin). apply Hin, in_or_app. right. by left.
  - intros id' key' [[= <- <-]|Hin].
    + apply negb_false_iff in H0. apply String.eqb_neq in H1. split_and!; [done..|].
      intros Hb. by rewrite (proj2 (text_in_spec _ _) Hb) in H2.
    + apply Hall in Hin as (? & ? & Hb). split_and!; [done..|]. intros Hb'. apply Hb, in_or_app. by left.
Qed.

Section started.
Context `{UnicodeTables}.
Variables (c : ClientConfig) (listed : result string (list string)).
Let p := pokladna c.

(** The checks of the client's tills, of a client that starts with them. *)
Lemma started_pokladna :
  validate_client_config c listed = Ok tt → pk_enabled p = true → pokladna_problems c = [].
Proof.
  unfold validate_client_config, validate_client_config_against, validate_pokladna_config. fold p. intros Hv He.
  rewrite He in Hv. simpl in Hv. destruct (validate_odoo_config c); [|done]. by destruct (pokladna_problems c).
Qed.

Lemma started_tills :
  pokladna_problems c = [] →
  NoDup (map kasa_id (pk_kasy p)) ∧ (∀ k, In k (pk_kasy p) → till_ok k) ∧ NoDup (terminal_ips (pk_kasy p)).
Proof.
  unfold pokladna_problems. fold p. intros Hp. no_problems Hp.
  apply kasy_problems_nil in Hp4 as [Hn Hall]. apply map_eq_nil, repeated_nil in Hp5 as [Hips _].
  split_and!; [done| |done]. intros k Hk. by apply Hall.
Qed.

Lemma started_tim t :
  pokladna_problems c = [] → pk_tim p = Some t →
  TIM_MIN_COMMIT_TIMEOUT_S ≤ commit_timeout_s t ≤ TIM_MAX_COMMIT_TIMEOUT_S
  ∧ TIM_MIN_ROLLBACK_DEADLINE_S ≤ rollback_deadline_s t ≤ TIM_MAX_ROLLBACK_DEADLINE_S
  ∧ rollback_deadline_s t + TIM_ROLLBACK_BEFORE_COMMIT_TIMEOUT_S ≤ commit_timeout_s t.
Proof.
  unfold pokladna_problems. fold p. intros Hp Ht. no_problems Hp. rewrite Ht in Hp6. unfold tim_problems in Hp6.
  no_problems Hp6.
  repeat match goal with H : negb (between _ _ _) = false |- _ => apply negb_false_iff, between_spec in H end.
  unfold max_rollback_deadline, TIM_MIN_COMMIT_TIMEOUT_S, TIM_ROLLBACK_BEFORE_COMMIT_TIMEOUT_S in *. lia.
Qed.

Lemma started_lan :
  pokladna_problems c = [] → lan_enabled (pk_lan_api p) = true →
  valid_dns_name (lan_hostname (pk_lan_api p)) = true
  ∧ (lan_acme (pk_lan_api p) = true → own_hostname c (lan_hostname (pk_lan_api p)) = true)
  ∧ lan_keys (pk_kasy p) ≠ []
  ∧ NoDup (map snd (lan_keys (pk_kasy p)))
  ∧ (∀ id key, In (id, key) (lan_keys (pk_kasy p)) → lan_key_ok key = true ∧ key ≠ pk_api_key p).
Proof.
  unfold pokladna_problems, lan_api_problems. fold p. intros Hp He. no_problems Hp. rewrite He in Hp. simpl in Hp.
  no_problems Hp. apply key_problems_nil in Hp as [Hn Hall].
  apply negb_false_iff in Hp8. apply bool_decide_eq_false_1 in Hp10. split_and!; [done| |done|done|].
  - intros Ha. rewrite Ha in Hp9. by apply negb_false_iff in Hp9.
  - intros id key Hk. by apply Hall in Hk as (? & ? & _).
Qed.
End started.

(** ** The terminals *)

Lemma omap_inj {A B} (f : A → option B) l a b x :
  NoDup (omap f l) → In a l → In b l → f a = Some x → f b = Some x → a = b.
Proof.
  assert (∀ l c, In c l → f c = Some x → x ∈ omap f l) as Hin.
  { intros l' c Hc Hf. apply list_elem_of_omap. exists c. by rewrite list_elem_of_In. }
  induction l as [|c l IH]; intros Hn Ha Hb Hfa Hfb; simpl in *; [done|].
  destruct (f c) as [y|] eqn:Hc.
  - apply NoDup_cons in Hn as [Hy Hn]. destruct Ha as [<-|Ha], Hb as [<-|Hb]; [done| | |by apply IH].
    + rewrite Hfa in Hc. injection Hc as <-. by destruct Hy; eapply Hin.
    + rewrite Hfb in Hc. injection Hc as <-. by destruct Hy; eapply Hin.
  - destruct Ha as [<-|Ha]; [congruence|]. destruct Hb as [<-|Hb]; [congruence|]. by apply IH.
Qed.

Lemma terminals_by_ip_lookup specs ip s :
  NoDup (map ts_ip specs) → terminals_by_ip specs !! ip = Some s ↔ In s specs ∧ ts_ip s = ip.
Proof.
  assert (∀ m : gmap string TerminalSpec, NoDup (map ts_ip specs) →
    foldl (λ m s, <[ts_ip s := s]> m) m specs !! ip = Some s
    ↔ (In s specs ∧ ts_ip s = ip) ∨ (m !! ip = Some s ∧ ip ∉ map ts_ip specs)) as Hg.
  { induction specs as [|s0 specs IH]; intros m Hn; simpl; [set_solver|].
    apply NoDup_cons in Hn as [H0 Hn]. rewrite IH by done. destruct (decide (ts_ip s0 = ip)) as [He|He].
    - rewrite He, lookup_insert_eq. split.
      + intros [[? ?]|[[= <-] ?]]; auto.
      + intros [[[<-|Hs] ?]|[_ Hx]]; [right; split; [done|by rewrite <- He]|by left|set_solver].
    - rewrite lookup_insert_ne by done. split.
      + intros [[? ?]|[? ?]]; [auto|]. right. split; [done|]. set_solver.
      + intros [[[<-|Hs] ?]|[? Hx]]; [done|auto|]. right. split; [done|]. set_solver. }
  intros Hn. unfold terminals_by_ip. rewrite Hg by done. rewrite lookup_empty. naive_solver.
Qed.

Section terminals.
Context `{UnicodeTables} `{Chrono}.
Variables (p : PokladnaClientConfig) (loaded printer : bool) (now : DateTime).
Hypothesis distinct_ids : NoDup (map kasa_id (pk_kasy p)).
Hypothesis distinct_ips : NoDup (terminal_ips (pk_kasy p)).
Hypothesis tills_ok : ∀ k, In k (pk_kasy p) → till_ok k.

Lemma in_terminal_specs s :
  In s (terminal_specs p) ↔
  ∃ t k, pk_tim p = Some t ∧ In k (pk_kasy p) ∧ terminal_ip k = Some (ts_ip s)
    ∧ s = mkSpec (kasa_id k) (ts_ip s) (terminal_tid k) (commit_timeout_s t).
Proof.
  unfold terminal_specs. destruct (pk_tim p) as [t|]; [|naive_solver].
  rewrite <- list_elem_of_In, list_elem_of_omap. setoid_rewrite list_elem_of_In. unfold terminal_spec. split.
  - intros (k & Hk & Hs). destruct (terminal_ip k) as [ip|] eqn:E; [|done]. injection Hs as <-. exists t, k. done.
  - intros (t' & k & [= <-] & Hk & Hip & ->). exists k. split; [done|]. by rewrite Hip.
Qed.

Lemma specs_ips : NoDup (map ts_ip (terminal_specs p)).
Proof.
  unfold terminal_specs. destruct (pk_tim p) as [t|]; [|constructor].
  enough (map ts_ip (omap (terminal_spec t) (pk_kasy p)) = terminal_ips (pk_kasy p)) as -> by done.
  unfold terminal_ips, terminal_spec. clear. induction (pk_kasy p) as [|k ks IH]; [done|]. simpl.
  destruct (terminal_ip k); simpl; [f_equal|]; exact IH.
Qed.

Lemma in_terminals s : In s (terminals (start_tim p loaded printer now)) ↔ In s (terminal_specs p).
Proof.
  simpl. rewrite in_order_by, in_map_iff. split.
  - intros ([ip s'] & <- & Hs). apply list_elem_of_In, elem_of_map_to_list in Hs.
    apply (terminals_by_ip_lookup _ _ _ specs_ips) in Hs. apply Hs.
  - intros Hs. exists (ts_ip s, s). split; [done|]. apply list_elem_of_In, elem_of_map_to_list.
    by apply (terminals_by_ip_lookup _ _ _ specs_ips).
Qed.

(** Two tills are one when their ids are. *)
Lemma kasa_by_id k k' : In k (pk_kasy p) → In k' (pk_kasy p) → kasa_id k = kasa_id k' → k = k'.
Proof.
  intros Hk Hk' He. eapply (omap_inj (λ k, Some (kasa_id k)) (pk_kasy p)); [|done|done|done|by f_equal].
  enough (omap (λ k, Some (kasa_id k)) (pk_kasy p) = map kasa_id (pk_kasy p)) as -> by done.
  clear. induction (pk_kasy p) as [|k ks IH]; [done|]. simpl. by f_equal.
Qed.

Lemma spec_of_till k t ip :
  In k (pk_kasy p) → pk_tim p = Some t → terminal_ip k = Some ip →
  spec_of (start_tim p loaded printer now) (kasa_id k)
  = Some (mkSpec (kasa_id k) ip (terminal_tid k) (commit_timeout_s t)).
Proof.
  intros Hk Ht Hip. unfold spec_of. destruct (List.find _ _) as [s|] eqn:E.
  - apply find_some in E as [Hs E]. apply in_terminals, in_terminal_specs in Hs as (t' & k' & Ht' & Hk' & Hip' & Hs).
    rewrite Hs in E. apply Z.eqb_eq in E. simpl in E. pose proof (kasa_by_id k' k Hk' Hk E) as ->. congruence.
  - exfalso. pose proof (find_none _ _ E (mkSpec (kasa_id k) ip (terminal_tid k) (commit_timeout_s t))) as Hno.
    rewrite in_terminals, in_terminal_specs in Hno. simpl in Hno. rewrite Z.eqb_refl in Hno.
    discriminate Hno. exists t, k. done.
Qed.

Lemma spec_of_inv i s :
  spec_of (start_tim p loaded printer now) i = Some s →
  ∃ k, In k (pk_kasy p) ∧ kasa_id k = i ∧ terminal_ip k = Some (ts_ip s).
Proof.
  unfold spec_of. intros E. apply find_some in E as [Hs E]. apply Z.eqb_eq in E.
  apply in_terminals, in_terminal_specs in Hs as (t & k & _ & Hk & Hip & Hs). exists k. split_and!; [done| |done].
  rewrite Hs in E. done.
Qed.

Lemma spec_of_inj i j si sj :
  spec_of (start_tim p loaded printer now) i = Some si → spec_of (start_tim p loaded printer now) j = Some sj →
  parse_ipv4 (ts_ip si) = parse_ipv4 (ts_ip sj) → i = j.
Proof.
  intros (k & Hk & <- & Hip)%spec_of_inv (k' & Hk' & <- & Hip')%spec_of_inv He.
  destruct (tills_ok k Hk) as (_ & _ & Hv & _). destruct (Hv _ Hip) as [[ns Hns] _].
  f_equal. eapply (omap_inj terminal_ip); [exact distinct_ips|done|done|exact Hip|]. rewrite Hip'. f_equal.
  eapply parse_ipv4_inj; [by rewrite <- He|done].
Qed.
End terminals.

(** ** The properties *)

Section properties.
Context `{UnicodeTables}.

(** C26: a client starts its card terminals only with one terminal per till: a
    job of a till runs on the terminal configured for it, the till's number fits
    the terminal's six digits, and two tills never share a terminal - not even
    under two spellings of one address. *)
Theorem tills_have_their_own_terminal `{Chrono} c listed loaded printer now :
  validate_client_config c listed = Ok tt → pk_enabled (pokladna c) = true →
  let executor := start_tim (pokladna c) loaded printer now in
  (∀ k t ip, In k (pk_kasy (pokladna c)) → pk_tim (pokladna c) = Some t → terminal_ip k = Some ip →
     0 < kasa_id k ≤ 999999
     ∧ spec_of executor (kasa_id k) = Some (mkSpec (kasa_id k) ip (terminal_tid k) (commit_timeout_s t)))
  ∧ (∀ i j si sj, spec_of executor i = Some si → spec_of executor j = Some sj →
     parse_ipv4 (ts_ip si) = parse_ipv4 (ts_ip sj) → i = j).
Proof.
  intros Hv He executor. pose proof (started_pokladna c listed Hv He) as Hp.
  destruct (started_tills c Hp) as (Hids & Hok & Hips). split.
  - intros k t ip Hk Ht Hip. destruct (Hok k Hk) as (Hpos & _ & Hterm & _). destruct (Hterm ip Hip) as [_ Hmax].
    split; [done|]. by apply spec_of_till.
  - intros i j si sj. by apply spec_of_inj.
Qed.

Lemma no_problem_amount facts amount :
  authorisation_problem facts amount = None → tx_amount_minor facts = Some amount.
Proof.
  unfold authorisation_problem. destruct (is_none _); [done|]. destruct (negb _) eqn:Hb; [done|].
  by apply negb_false_iff, bool_decide_eq_true in Hb.
Qed.

(** C25: with a configuration that starts the client, an authorisation is decided
    before the terminal reverses it by itself: from the terminal's answer on
    there is one call, a commit - only of the amount asked for, and only when a
    [card.commit] of Odoo had come before it - or a rollback, and it is answered
    within the terminal's commit timeout counted from the moment the terminal
    authorised; as long as the answer of the authorisation, every later call and
    every wait are late by no more than a third of the five seconds between the
    two deadlines. *)
Theorem payment_is_decided_before_the_terminal_reverses
    `{Chrono} `{!TimLibrary} `{!TimWorld} `{!JsonText} `{!SlipPrinter}
    c listed loaded printer now k tim ip job kind amount stored most authorised facts tid t :
  validate_client_config c listed = Ok tt → pk_enabled (pokladna c) = true →
  In k (pk_kasy (pokladna c)) → pk_tim (pokladna c) = Some tim → terminal_ip k = Some ip →
  (∀ n, 0 ≤ lag n ≤ most) → 3 * most ≤ 5000 →
  authorised ≤ now_ms t ≤ authorised + most →
  let executor := start_tim (pokladna c) loaded printer now in
  let spec := mkSpec (kasa_id k) ip (terminal_tid k) (commit_timeout_s tim) in
  let req := payment_request executor job kind spec amount stored in
  spec_of executor (kasa_id k) = Some spec
  ∧ ∃ ended call sent t', after_transaction spec req facts tid t = (Ok ended, t')
    ∧ tim_asked t' = tim_asked t ++ [mine spec req call] ∧ call_times t' = call_times t ++ [sent]
    ∧ (call = TRollback
       ∨ call = TCommit ∧ tx_amount_minor facts = Some amount
         ∧ ∃ at_ms, In (at_ms, Commit) (requests (settle_channel t)) ∧ at_ms ≤ sent)
    ∧ now_ms t' ≤ authorised + 1000 * commit_timeout_s tim.
Proof.
  intros Hv He Hk Ht Hip Hlag Hmost Hat executor spec req. pose proof (started_pokladna c listed Hv He) as Hp.
  destruct (started_tills c Hp) as (Hids & Hok & Hips). destruct (started_tim c tim Hp Ht) as (_ & [Hlow _] & Hd).
  split; [by apply spec_of_till|].
  destruct (after_transaction_decides (λ n, proj1 (Hlag n)) spec req facts tid t)
    as (ended & t' & E & (call & sent & (A & B & _) & Hcall) & Hback).
  exists ended, call, sent, t'. split; [done|]. split; [done|]. split; [done|]. split.
  - destruct Hcall as [->|(-> & Hc)]; [by left|right]. split; [done|]. split; [|done].
    destruct (authorisation_problem facts (pr_amount_minor req)) eqn:Hpr.
    + rewrite A in Hback. specialize (Hback ltac:(done)). apply app_inv_head in Hback. done.
    + apply no_problem_amount in Hpr. exact Hpr.
  - pose proof (after_transaction_in_time (λ n, proj1 (Hlag n)) most (λ n, proj2 (Hlag n)) spec req facts tid t) as Hn.
    rewrite E in Hn. simpl in Hn. unfold tim_deadline_s in Hn. rewrite Ht in Hn.
    unfold TIM_ROLLBACK_BEFORE_COMMIT_TIMEOUT_S in Hd. unfold TIM_MIN_ROLLBACK_DEADLINE_S in Hlow.
    specialize (Hn ltac:(lia)). lia.
Qed.

(** Every secret of a configuration replaced by [f]. *)
Definition map_kasa (f : string → string) (k : PokladnaKasaConfig) : PokladnaKasaConfig :=
  {| kasa_id := kasa_id k; portos_url := portos_url k; terminal_ip := terminal_ip k;
     terminal_tid := terminal_tid k; lan_key := f <$> lan_key k |}.
Definition map_pokladna (f : string → string) (p : PokladnaClientConfig) : PokladnaClientConfig :=
  {| pk_enabled := pk_enabled p; pk_url := pk_url p; pk_api_key := f (pk_api_key p); pk_wait_s := pk_wait_s p;
     pk_heartbeat_interval_secs := pk_heartbeat_interval_secs p; pk_kasy := map (map_kasa f) (pk_kasy p);
     pk_test_executor := pk_test_executor p; pk_lan_api := pk_lan_api p; pk_tim := pk_tim p |}.
Definition map_odoo (f : string → string) (o : OdooClientConfig) : OdooClientConfig :=
  {| od_enabled := od_enabled o; od_url := od_url o; od_api_key := f (od_api_key o);
     od_poll_interval_secs := od_poll_interval_secs o; od_heartbeat_interval_secs := od_heartbeat_interval_secs o;
     od_printer_name := od_printer_name o; label_width_mm := label_width_mm o;
     label_height_mm := label_height_mm o; dpi := dpi o; rotate_180 := rotate_180 o;
     x_offset_dots := x_offset_dots o; y_offset_dots := y_offset_dots o |}.
Definition map_secrets (f : string → string) (c : ClientConfig) : ClientConfig :=
  {| server_address := server_address c; target_printer := target_printer c; dashboard_port := dashboard_port c;
     reconnect_interval_secs := reconnect_interval_secs c;
     max_reconnect_interval_secs := max_reconnect_interval_secs c; client_id := client_id c;
     print_backend := print_backend c; printer_address := printer_address c;
     ghostscript_device := ghostscript_device c; ghostscript_resolution := ghostscript_resolution c;
     printer_tls := printer_tls c; printer_display_name := printer_display_name c;
     print_proxy_url := print_proxy_url c; virtual_printer_name := virtual_printer_name c;
     virtual_printer_driver := virtual_printer_driver c; cl_tls := cl_tls c; serial_bridge := serial_bridge c;
     odoo := map_odoo f (odoo c); pokladna := map_pokladna f (pokladna c) |}.

Section secrets.
Variable f : string → string.
Hypothesis f_inj : ∀ a b, f a = f b → a = b.
Hypothesis f_blank : ∀ s, is_blank (f s) = is_blank s.
Hypothesis f_ok : ∀ s, lan_key_ok (f s) = lan_key_ok s.

Lemma f_eqb a b : (f a =t? f b) = (a =t? b).
Proof.
  destruct (String.eqb_spec a b) as [->|Hn]; [by rewrite String.eqb_refl|]. apply String.eqb_neq.
  intros Hf. by apply Hn, f_inj.
Qed.
Lemma text_in_map s l : text_in (f s) (map f l) = text_in s l.
Proof. unfold text_in. induction l as [|x l IH]; [done|]. simpl. by rewrite f_eqb, IH. Qed.

Lemma kasy_problems_map seen ks : kasy_problems seen (map (map_kasa f) ks) = kasy_problems seen ks.
Proof. revert seen. induction ks as [|k ks IH]; intros seen; [done|]. simpl. case_match. by rewrite IH. Qed.
Lemma terminal_ips_map ks : terminal_ips (map (map_kasa f) ks) = terminal_ips ks.
Proof.
  unfold terminal_ips. induction ks as [|k ks IH]; [done|]. simpl. destruct (terminal_ip k); [f_equal|]; exact IH.
Qed.
Lemma lan_keys_map ks : lan_keys (map (map_kasa f) ks) = map (λ '(id, key), (id, f key)) (lan_keys ks).
Proof.
  unfold lan_keys. induction ks as [|k ks IH]; [done|]. simpl. destruct (lan_key k); simpl; [f_equal|]; exact IH.
Qed.
Lemma key_problems_map bridge before keys :
  key_problems (f bridge) (map f before) (map (λ '(id, key), (id, f key)) keys) = key_problems bridge before keys.
Proof.
  revert before. induction keys as [|[id key] keys IH]; intros before; [done|]. simpl.
  rewrite f_ok, f_eqb, text_in_map. by rewrite <- (IH (before ++ [key])), map_app.
Qed.
Lemma lan_api_problems_map c : lan_api_problems (map_secrets f c) = lan_api_problems c.
Proof.
  unfold lan_api_problems. simpl. case_match; [done|]. rewrite lan_keys_map.
  pose proof (key_problems_map (pk_api_key (pokladna c)) [] (lan_keys (pk_kasy (pokladna c)))) as E.
  change (map f []) with (@nil string) in E. rewrite E.
  by destruct (lan_keys (pk_kasy (pokladna c))).
Qed.
End secrets.

(** C34: no answer of the start-up check depends on the value of a key - only on
    whether it is blank, well formed and different from the others: whatever
    key is put in its place, the error shown is the same. *)
Theorem startup_error_tells_no_secret f c listed :
  (∀ a b, f a = f b → a = b) → (∀ s, is_blank (f s) = is_blank s) → (∀ s, lan_key_ok (f s) = lan_key_ok s) →
  validate_client_config (map_secrets f c) listed = validate_client_config c listed.
Proof.
  intros Hinj Hb Hok. unfold validate_client_config, validate_client_config_against.
  assert (validate_odoo_config (map_secrets f c) = validate_odoo_config c) as ->.
  { unfold validate_odoo_config, odoo_problems. simpl. by rewrite Hb. }
  assert (validate_pokladna_config (map_secrets f c) = validate_pokladna_config c) as ->; [|done].
  unfold validate_pokladna_config, pokladna_problems. rewrite (lan_api_problems_map f Hinj Hok). simpl.
  unfold shared_terminal_problems. by rewrite Hb, kasy_problems_map, terminal_ips_map.
Qed.
End properties.

(** ** A concrete store *)

Module Store.
#[export] Existing Instances Core.TickChrono.tick_chrono Json.BitsJson.bits_json
  Terminal.dates Terminal.library Terminal.world Terminal.no_printer.
(** The tables of the ASCII characters. *)
#[export] Instance ascii_tables : UnicodeTables := {|
  str_to_lowercase := map to_ascii_lowercase;
  is_alphanumeric := λ c, is_ascii_alphanumeric c;
|}.
Definition KEY_1 : string := "aaaaaaaaaaaaaaaaaaaaaaaaaaaaaaaa".
Definition KEY_2 : string := "bbbbbbbbbbbbbbbbbbbbbbbbbbbbbbbb".
Definition tim : TimConfig := mkTim "timapi.dll" TIM_DEFAULT_INTEGRATOR_ID 60 45.
Definition till_1 : PokladnaKasaConfig := mkKasa 3 None (Some "10.0.0.9") (Some "T1") (Some KEY_1).
Definition till_2 : PokladnaKasaConfig := mkKasa 4 (Some "http://10.0.0.5:3010") (Some "10.0.0.10") None (Some KEY_2).
Definition kasy (tills : list PokladnaKasaConfig) : PokladnaClientConfig :=
  {| pk_enabled := true; pk_url := "https://erp.example.sk"; pk_api_key := "bridge key"; pk_wait_s := 25;
     pk_heartbeat_interval_secs := 30; pk_kasy := tills; pk_test_executor := false;
     pk_lan_api := mkLanApi true LAN_API_DEFAULT_PORT "store.pos.example.sk" true; pk_tim := Some tim |}.
Definition client (tills : list PokladnaKasaConfig) : ClientConfig :=
  let c := ClientConfig_of_required "10.88.1.100:50051" "TSC ML241P" 9120 5 60 in
  {| server_address := server_address c; target_printer := target_printer c; dashboard_port := dashboard_port c;
     reconnect_interval_secs := reconnect_interval_secs c;
     max_reconnect_interval_secs := max_reconnect_interval_secs c; client_id := Some "STORE";
     print_backend := print_backend c; printer_address := printer_address c;
     ghostscript_device := ghostscript_device c; ghostscript_resolution := ghostscript_resolution c;
     printer_tls := printer_tls c; printer_display_name := printer_display_name c;
     print_proxy_url := print_proxy_url c; virtual_printer_name := virtual_printer_name c;
     virtual_printer_driver := virtual_printer_driver c; cl_tls := cl_tls c; serial_bridge := serial_bridge c;
     odoo := odoo c; pokladna := kasy tills |}.
Definition listed : result string (list string) := Ok ["Microsoft Print to PDF"; "tsc ml241p"].

Example store_starts : validate_client_config (client [till_1; till_2]) listed = Ok tt.
Proof. vm_compute. reflexivity. Qed.
Example twin_terminals_do_not_start :
  shared_terminal_problems [till_1; mkKasa 5 None (Some "10.0.0.9") None None]
  = ["kasy: terminal_ip " +:+ quoted "10.0.0.9" +:+ " is listed for two tills (a terminal belongs to one till)"]
  ∧ valid_terminal_ip "10.0.0.09" = false.
Proof. split; vm_compute; reflexivity. Qed.

(** The two keys exchanged. *)
Definition exchange (s : string) : string :=
  if s =t? KEY_1 then KEY_2 else if s =t? KEY_2 then KEY_1 else s.
End Store.

Section instances.
Import Store.

Lemma tills_have_their_own_terminal_witness :
  let executor := start_tim (kasy [till_1; till_2]) true false 0%nat in
  spec_of executor 3 = Some (mkSpec 3 "10.0.0.9" (Some "T1") 60)
  ∧ spec_of executor 4 = Some (mkSpec 4 "10.0.0.10" None 60)
  ∧ ∀ s, spec_of executor 4 = Some s → parse_ipv4 (ts_ip s) ≠ parse_ipv4 "10.0.0.9".
Proof.
  destruct (tills_have_their_own_terminal (H0 := TickChrono.tick_chrono) (client [till_1; till_2]) listed true false 0%nat store_starts eq_refl)
    as [Hs Hd].
  pose proof (Hs till_1 tim "10.0.0.9" (or_introl eq_refl) eq_refl eq_refl) as [_ H1].
  pose proof (Hs till_2 tim "10.0.0.10" (or_intror (or_introl eq_refl)) eq_refl eq_refl) as [_ H2].
  split_and!; [exact H1|exact H2|]. intros s Hspec Heq. discriminate (Hd 4 3 s _ Hspec H1 Heq).
Defined.

Lemma payment_is_decided_before_the_terminal_reverses_witness :
  let executor := start_tim (kasy [till_1; till_2]) true false 0%nat in
  let spec := mkSpec 3 "10.0.0.9" (Some "T1") 60 in
  let req := payment_request executor Terminal.purchase Purchase spec 500 None in
  ∃ ended call sent t', after_transaction spec req Terminal.facts (Some "T1") Terminal.start = (Ok ended, t')
    ∧ tim_asked t' = [mine spec req call] ∧ call_times t' = [sent] ∧ call = TRollback ∧ now_ms t' ≤ 59997.
Proof.
  cbv zeta.
  destruct (payment_is_decided_before_the_terminal_reverses (H0 := TickChrono.tick_chrono)
    (client [till_1; till_2]) listed true false 0%nat till_1
    tim "10.0.0.9" Terminal.purchase Purchase 500 None 5 (-3) Terminal.facts (Some "T1") Terminal.start store_starts eq_refl
    (or_introl eq_refl) eq_refl eq_refl) as (_ & ended & call & sent & t' & E & Hl & Hs & Hc & Hn).
  - intros n. vm_compute. split; discriminate.
  - lia.
  - vm_compute. split; discriminate.
  - exists ended, call, sent, t'. split; [exact E|]. split; [exact Hl|]. split; [exact Hs|]. split; [|exact Hn].
    destruct Hc as [Hc|(_ & _ & at_ms & [] & _)]. exact Hc.
Defined.

Lemma startup_error_tells_no_secret_witness :
  validate_client_config (client [till_2; mkKasa 3 None None None (Some KEY_1)]) listed = Ok tt
  ∧ validate_client_config (map_secrets exchange (client [till_1; till_1])) listed
    = validate_client_config (client [till_1; till_1]) listed.
Proof.
  split; [vm_compute; reflexivity|]. apply startup_error_tells_no_secret.
  - intros a b. unfold exchange.
    repeat match goal with |- context [?x =t? ?y] => destruct (String.eqb_spec x y); subst end; try congruence; done.
  - intros s. unfold exchange.
    repeat match goal with |- context [?x =t? ?y] => destruct (String.eqb_spec x y); subst end; reflexivity.
  - intros s. unfold exchange.
    repeat match goal with |- context [?x =t? ?y] => destruct (String.eqb_spec x y); subst end; reflexivity.
Defined.
End instances.
