(* ===== verification/LanCertProps.v ===== *)
(** * The LAN API's certificate: recovery, secrecy and renewal *)

From Stdlib Require Import ZArith Ascii String Strings.Byte.
From stdpp Require Import gmap.
From S2P Require Import Prelude RustStd Text Core Json DeviceTasks Config Files LanCert LanCertTheory.
#[local] Open Scope Z_scope.

Section recovery.
Context `{X509}.
Variable data_dir : string.
Let paths := in_data_dir data_dir.

(** The service starts again after a crash, and is cut again. *)
Definition restart (d : Disk) : Disk := snd (finish_pending paths (power_on d)).

Lemma runs_always {E A} P (m : M Disk E A) Q C d :
  runs crash_only P m Q C → ready crash_only d → P (files d) →
  (∀ r fs, Q r fs → C fs) →
  Forall crash_only (accidents (snd (m d))) ∧ C (files (snd (m d))).
Proof. intros Hm Hr HP HC. destruct (Hm d Hr HP) as [[[_ Hk] HQ]|[[_ Hk] ?]]; split; eauto. Qed.

Lemma restart_safe old d :
  Forall crash_only (accidents d) → safe paths old (files d) →
  Forall crash_only (accidents (restart d)) ∧ safe paths old (files (restart d)).
Proof.
  intros Ha Hs. eapply (runs_always _ _ _ _ (power_on d) (runs_finish_pending paths (in_data_dir_distinct _) old));
    [by split|done|]. intros r fs (_ & ? & _). by left.
Qed.

(** C23: a replacement of the pair can be cut by a crash anywhere, and so can every
    recovery after it: the first recovery that runs to its end leaves nothing
    pending and either the old pair as it was, or a certificate and key that
    belong together. *)
Theorem interrupted_replacement_is_recovered key_pem chain d n r d' :
  is_ok (tls_config chain key_pem) = true →
  down d = false → Forall crash_only (accidents d) →
  let cut := snd (store paths key_pem chain d) in
  finish_pending paths (power_on (Nat.iter n restart cut)) = (r, d') → down d' = false →
  (∃ installed, r = Ok installed) ∧ nothing_pending paths (files d')
  ∧ (pair_is paths (files d !! cert paths, files d !! key paths) (files d')
     ∨ ∃ c k, is_ok (tls_config c k) = true ∧ pair_holds paths c k (files d')).
Proof.
  intros Hok Hd Ha cut E Hup. set (old := (files d !! cert paths, files d !! key paths)).
  assert (∀ n, Forall crash_only (accidents (Nat.iter n restart cut)) ∧ safe paths old (files (Nat.iter n restart cut)))
    as Hall.
  { clear E n. induction n as [|n [IHa IHs]]; [|by apply restart_safe].
    eapply (runs_always (pair_is paths old)); [eapply runs_found, runs_store; [|apply in_data_dir_distinct]|by split|done|].
    - intros fs [?|[?|?]]; [by left; left|right; eauto|left; right; eauto].
    - intros [[]|e] fs; [intros ?; left; right; eauto|intros [?|?]; [by left; left|right; eauto]]. }
  destruct (Hall n) as [Hk Hs].
  destruct (runs_finish_pending paths (in_data_dir_distinct _) old (power_on (Nat.iter n restart cut)))
    as [[_ (Hr & Hset & Hn)]|[[Hoff _] _]]; [by split|done| |]; rewrite E in *; simpl in *; [|congruence].
  split_and!; [done|done|]. destruct Hset; auto.
Qed.

(** Whatever fails on the way, and wherever a crash cuts it: a replacement
    that reports success left exactly the new pair, one that reports an error
    the old pair or the new key with its certificate pending, and no moment in
    between shows anything else. *)
Theorem replacement_is_old_or_new key_pem chain d r d' :
  down d = false → store paths key_pem chain d = (r, d') →
  let old := pair_is paths (files d !! cert paths, files d !! key paths) (files d') in
  if down d' then old ∨ half paths chain key_pem (files d') ∨ pair_holds paths chain key_pem (files d')
  else match r with
       | Ok _ => pair_holds paths chain key_pem (files d')
       | Err _ => old ∨ half paths chain key_pem (files d')
       end.
Proof.
  intros Hd E old. assert (Forall any_accident (accidents d)) as Ha by (by apply Forall_true).
  destruct (runs_store paths (in_data_dir_distinct _) any_accident (files d !! cert paths, files d !! key paths) key_pem
    chain d (conj Hd Ha) eq_refl) as [[[Hup _] HQ]|[[Hoff _] HC]]; rewrite E in *; simpl in *.
  - by rewrite Hup.
  - by rewrite Hoff.
Qed.

(** C28: the new private key is never in a file other accounts can read: whatever
    fails and wherever a crash cuts them, a replacement and a recovery leave the
    key's file and the one it is written to empty or restricted to the service. *)
Theorem private_key_is_never_exposed key_pem chain d :
  down d = false → private paths (files d) →
  private paths (files (snd (store paths key_pem chain d))) ∧ private paths (files (snd (finish_pending paths d))).
Proof.
  intros Hd Hp. assert (ready any_accident d) as Hr by (split; [done|by apply Forall_true]). split.
  - by destruct (runs_private_store paths (in_data_dir_distinct _) _ key_pem chain d Hr Hp) as [[_ ?]|[_ ?]].
  - by destruct (runs_private_finish paths (in_data_dir_distinct _) _ d Hr Hp) as [[_ ?]|[_ ?]].
Qed.
End recovery.

(** ** The renewal *)

Section renewal.
Context `{X509} `{!StorePc} `{!DebugText}.
Variables (source : CertSource) (paths : CertPaths).

Definition request_of (csr : bytes) : CertificateRequest :=
  mkRequest (cs_client_id source) (cs_hostname source) csr.

(** What a renewal did, by pz-server's answer. *)
Lemma renew_cases k r k' :
  renew source paths k = (r, k') →
  (requests k' = requests k ∧ ∃ e, r = Err (NotIssued e))
  ∨ ∃ fresh, new_key_and_csr (List.length (requests k)) (cs_hostname source) = Ok fresh ∧
      let req := request_of (csr_der fresh) in
      requests k' = requests k ++ [req] ∧
      match pz_server (requests k) req with
      | Err e => r = Err (NotIssued e)
      | Ok reply =>
        match reply_chain reply with
        | Err e => r = Err (if is_not_connected reply then NotConnected e else NotIssued e)
        | Ok chain =>
          (∃ e, r = Err (Rejected e))
          ∨ ∃ leaf d, r = Ok leaf
            ∧ check_issued chain (cs_hostname source) (kc_public_key fresh) (unix_now (reads k)) = Ok leaf
            ∧ store paths (as_bytes (key_pem fresh)) (as_bytes chain) (disk k) = (Ok tt, d) ∧ disk k' = d
        end
      end.
Proof.
  unfold renew, fresh_key. unfold mbind at 1, M_bind at 1.
  destruct (new_key_and_csr _ _) as [fresh|e] eqn:Hf; [|intros [= <- <-]; left; eauto].
  unfold mbind at 1, M_bind at 1, request_chain. fold (request_of (csr_der fresh)).
  destruct (pz_server (requests k) (request_of (csr_der fresh))) as [reply|e] eqn:Hp;
    [|intros [= <- <-]; right; exists fresh; simpl; rewrite Hp; done].
  unfold reply_failure. destruct (reply_chain reply) as [chain|e] eqn:Hc;
    [|intros [= <- <-]; right; exists fresh; simpl; rewrite Hp, Hc; done].
  intros E. right. exists fresh. split; [done|]. simpl. rewrite Hp, Hc.
  unfold mbind at 1, M_bind at 1, read_clock in E. simpl in E.
  destruct (check_issued chain (cs_hostname source) (kc_public_key fresh) (unix_now (reads k))) as [leaf|e] eqn:Hi; simpl in E;
    [|injection E as <- <-; split; [done|]; left; eauto].
  unfold mbind, M_bind, map_err, on_disk, zoom, mret, M_ret in E. simpl in E.
  destruct (store paths (as_bytes (key_pem fresh)) (as_bytes chain) (disk k)) as [[[]|e] d] eqn:Hs; simpl in E;
    injection E as <- <-; (split; [done|]); [|left; eauto]. right. exists leaf, d. done.
Qed.

(** C31: the certificate put in place is this PC's own: it was issued for a
    request that carries the CSR of a key made here, and its leaf names the
    configured host, is for that key and is not expired; when the replacement
    went through, exactly that chain and that key are the pair on disk. *)
Theorem installed_certificate_is_the_pcs_own k leaf k' :
  distinct_files paths → down (disk k) = false →
  renew source paths k = (Ok leaf, k') → down (disk k') = false →
  ∃ fresh reply chain,
    new_key_and_csr (List.length (requests k)) (cs_hostname source) = Ok fresh
    ∧ requests k' = requests k ++ [request_of (csr_der fresh)]
    ∧ pz_server (requests k) (request_of (csr_der fresh)) = Ok reply ∧ rp_ok reply = true ∧ rp_chain_pem reply = chain
    ∧ leaf_of (as_bytes chain) = Ok leaf
    ∧ In (cs_hostname source) (dns_names leaf) ∧ public_key leaf = kc_public_key fresh
    ∧ unix_now (reads k) < not_after leaf
    ∧ pair_holds paths (as_bytes chain) (as_bytes (key_pem fresh)) (files (disk k')).
Proof.
  intros Hdist Hd E Hup. destruct (renew_cases _ _ _ E) as [[_ [e He]]|(fresh & Hf & Hq & Hr)]; [done|].
  destruct (pz_server _ _) as [reply|e] eqn:Hp; [|done]. destruct (reply_chain reply) as [chain|e] eqn:Hc; [|done].
  destruct Hr as [[e He]|(leaf' & d & [= <-] & Hi & Hs & Hk)]; [done|].
  unfold reply_chain in Hc. destruct (rp_ok reply && _) eqn:Hb; [|done]. apply andb_true_iff in Hb as [Hb _]. injection Hc as Hc.
  unfold check_issued in Hi. destruct (leaf_of (as_bytes chain)) as [l|] eqn:Hl; [|done].
  destruct (text_in _ _) eqn:Ht; simpl in Hi; [|done]. case_bool_decide as Hpk; simpl in Hi; [|done].
  destruct (Z.ltb_spec (unix_now (reads k)) (not_after l)); simpl in Hi; [|done]. injection Hi as ->.
  exists fresh, reply, chain. split_and!; try done; [by apply text_in_spec|].
  destruct (runs_store paths Hdist any_accident _ (as_bytes (key_pem fresh)) (as_bytes chain) (disk k)
    (conj Hd (Forall_true _ _ (λ _, I))) eq_refl) as [[_ HQ]|[[Hoff _] _]]; rewrite Hs in *; simpl in *; subst; [done|congruence].
Qed.

(** The backoff between its first and its longest delay. *)
Definition paced (b : Backoff.t) : Prop :=
  Backoff.base b = RETRY_BASE ∧ Backoff.max b = RETRY_MAX ∧ RETRY_BASE ≤ Backoff.current b ≤ RETRY_MAX.
Lemma paced_next b : paced b → RETRY_BASE ≤ fst (Backoff.next_delay b) ≤ RETRY_MAX ∧ paced (snd (Backoff.next_delay b)).
Proof. unfold paced, Backoff.next_delay, RETRY_BASE, RETRY_MAX. simpl. intros (-> & -> & ?). lia. Qed.
Lemma paced_reset b : paced b → paced (Backoff.reset b).
Proof. unfold paced, Backoff.reset, RETRY_BASE, RETRY_MAX. simpl. intros (-> & -> & ?). lia. Qed.

(** pz-server answered a request with a chain: an order was made. *)
Definition ordered (asked : list CertificateRequest) (req : CertificateRequest) : bool :=
  match pz_server asked req with Ok reply => is_ok (reply_chain reply) | Err _ => false end.
Fixpoint orders (asked sent : list CertificateRequest) : Z :=
  match sent with
  | [] => 0
  | req :: sent' => (if ordered asked req then 1 else 0) + orders (asked ++ [req]) sent'
  end.
Definition least_delay (asked : list CertificateRequest) (req : CertificateRequest) : Z :=
  if ordered asked req then CHECK_INTERVAL else NOT_CONNECTED_RETRY.

Lemma roll_forward_run {E} k : ∃ b d, (roll_forward paths k : result E bool * _) = (Ok b, set_disk d k).
Proof.
  unfold roll_forward, mbind, M_bind, attempt, on_disk, zoom. destruct (finish_pending paths (disk k)) as [[b|e] d]; eauto.
Qed.
Lemma status_of_run h d : ∃ s d', status_of paths h d = (Ok s, d').
Proof.
  unfold status_of, read_if, mbind, M_bind, attempt, mret, M_ret. destruct (read_file (cert paths) d) as [r1 d1].
  destruct (read_file (key paths) d1) as [r2 d2]. eauto.
Qed.

(** The end of a round: the delay and the backoff by the renewal's result. *)
Lemma failed_round failure retry k :
  paced retry →
  ∃ delay retry' k',
    (let '(delay, retry') := retry_after failure retry in
     match failure with
     | Rejected _ =>
       rolled ← roll_forward paths;
       if rolled : bool then _ ← notify_reload; mret (CHECK_INTERVAL, Backoff.reset retry') else mret (delay, retry')
     | _ => mret (delay, retry')
     end : KM string (Z * Backoff.t)) k = (Ok (delay, retry'), k')
    ∧ paced retry' ∧ requests k' = requests k
    ∧ match failure with
      | NotIssued _ => RETRY_BASE ≤ delay
      | NotConnected _ => delay = NOT_CONNECTED_RETRY
      | Rejected _ => CHECK_INTERVAL ≤ delay
      end.
Proof.
  intros Hp. destruct failure as [e|e|e]; cbn [retry_after].
  - pose proof (paced_next retry Hp) as [? ?]. destruct (Backoff.next_delay retry) as [delay retry']. simpl in *.
    exists delay, retry', k. split_and!; [done|done|done|lia].
  - exists NOT_CONNECTED_RETRY, retry, k. done.
  - destruct (roll_forward_run (E := string) k) as (b & d & E). unfold mbind at 1, M_bind at 1. rewrite E. destruct b.
    + eexists CHECK_INTERVAL, (Backoff.reset retry), _. split; [reflexivity|]. split; [by apply paced_reset|]. done.
    + eexists REJECTED_RETRY, retry, _. split; [reflexivity|]. split_and!; [done|done|]. unfold CHECK_INTERVAL, REJECTED_RETRY. lia.
Qed.

Lemma round_paced retry k :
  paced retry →
  ∃ delay retry' k', maintain_round source paths retry k = (Ok (delay, retry'), k') ∧ paced retry'
    ∧ (requests k' = requests k ∧ NOT_CONNECTED_RETRY ≤ delay
       ∨ ∃ req, requests k' = requests k ++ [req] ∧ least_delay (requests k) req ≤ delay).
Proof.
  intros Hp. unfold maintain_round. destruct (roll_forward_run (E := string) k) as (b & d & E).
  unfold mbind at 1, M_bind at 1. rewrite E. clear E. set (k1 := set_disk d k).
  assert (∃ k2, ((if b then notify_reload else mret tt) : KM string unit) k1 = (Ok tt, k2) ∧ requests k2 = requests k)
    as (k2 & E & Hq2) by (destruct b; eexists; (split; [reflexivity|done])).
  unfold mbind at 1, M_bind at 1. rewrite E. clear E b k1 d.
  destruct (status_of_run (cs_hostname source) (disk k2)) as (st & d & E).
  unfold mbind at 1, M_bind at 1, on_disk, zoom. rewrite E. clear E.
  unfold mbind at 1, M_bind at 1, read_clock. set (k3 := mkKeeper _ _ _ _). assert (requests k3 = requests k) as Hq3 by done.
  destruct (renewal_due st _).
  2:{ exists CHECK_INTERVAL, retry, k3. split_and!; [done|done|]. left. split; [done|]. unfold NOT_CONNECTED_RETRY, CHECK_INTERVAL. lia. }
  unfold mbind at 1, M_bind at 1, attempt. destruct (renew source paths k3) as [r k4] eqn:E.
  pose proof (renew_cases _ _ _ E) as Hcases.
  destruct r as [leaf|failure].
  - exists CHECK_INTERVAL, (Backoff.reset retry). eexists. split; [reflexivity|]. split; [by apply paced_reset|]. right.
    destruct Hcases as [[_ [e He]]|(fresh & _ & Hq & _)]; [done|]. eexists. simpl. rewrite Hq, Hq3. split; [done|].
    unfold least_delay, CHECK_INTERVAL, NOT_CONNECTED_RETRY. destruct (ordered _ _); lia.
  - destruct (failed_round failure retry k4 Hp) as (delay & retry' & k' & E' & Hp' & Hq' & Hd).
    exists delay, retry', k'. split; [exact E'|]. split; [done|].
    destruct Hcases as [[Hq [e [= ->]]]|(fresh & _ & Hq & Hr)].
    + left. split; [congruence|]. unfold RETRY_BASE, NOT_CONNECTED_RETRY in *. lia.
    + right. eexists. rewrite Hq', Hq, Hq3. split; [done|]. rewrite Hq3 in Hr.
      unfold least_delay, ordered, NOT_CONNECTED_RETRY, CHECK_INTERVAL, RETRY_BASE in *.
      destruct (pz_server _ _) as [reply|e]; [|injection Hr as ->; lia].
      destruct (reply_chain reply) as [chain|e]; simpl.
      * destruct Hr as [[e [= ->]]|(leaf & ? & ? & _)]; [lia|done].
      * injection Hr as ->. destruct (is_not_connected reply); lia.
Qed.

(** The loop never stops and keeps the CA's limits: over any number of
    rounds, whatever pz-server answers and the disk does, a certificate is
    ordered at most once every twelve hours and asked for at most once every
    thirty seconds. *)
Theorem certificate_orders_are_paced n retry k :
  paced retry →
  ∃ delays k' sent, maintain source paths n retry k = (Ok delays, k') ∧ length delays = n
    ∧ requests k' = requests k ++ sent
    ∧ CHECK_INTERVAL * orders (requests k) sent ≤ foldr Z.add 0 delays
    ∧ NOT_CONNECTED_RETRY * Z.of_nat (length sent) ≤ foldr Z.add 0 delays.
Proof.
  revert retry k. induction n as [|n IH]; intros retry k Hp.
  { exists [], k, []. rewrite app_nil_r. simpl. split_and!; (done || lia). }
  destruct (round_paced retry k Hp) as (delay & retry' & k1 & E & Hp1 & Hreq). destruct (IH retry' k1 Hp1) as (delays & k' & sent & E' & Hlen & Hq & Ho & Hs).
  assert (maintain source paths (S n) retry k = (Ok (delay :: delays), k')) as Erun.
  { cbn [maintain]. unfold mbind, M_bind. rewrite E. simpl. by rewrite E'. }
  unfold CHECK_INTERVAL, NOT_CONNECTED_RETRY in *.
  destruct Hreq as [[Hq1 Hd]|(req & Hq1 & Hd)].
  - exists (delay :: delays), k', sent. split_and!; [done|simpl; lia|congruence| |simpl; lia].
    rewrite Hq1 in Ho. simpl. lia.
  - exists (delay :: delays), k', (req :: sent).
    assert (least_delay (requests k) req = (if ordered (requests k) req then 43200 else 30)) as Hl by done.
    rewrite Hl in Hd. rewrite Hq1 in Ho.
    split_and!; [done|simpl; lia|by rewrite Hq, Hq1, <- app_assoc| |]; simpl; destruct (ordered _ _); lia.
Qed.
End renewal.

(** ** A concrete store PC *)

Module StorePC.
(** A certificate belongs to a key when they begin with the same byte. *)
#[export] Instance x509 : X509 := {|
  first_pem := λ b, match b with [] => Err "empty" | _ => Ok ("CERTIFICATE", b) end;
  parse_x509 := λ b, Ok (mkXCert (Ok (Some [DNSName "store.pos.example.sk"])) 10000000 (take 1 b));
  pem_certs := λ b, match b with [] => Ok [] | _ => Ok [b] end;
  pem_key := λ b, match b with [] => Err "empty" | _ => Ok b end;
  single_cert := λ chain k, if bool_decide (take 1 (List.concat chain) = take 1 k) then Ok tt else Err "differ";
|}.
(** pz-server refuses the first request and answers the others. *)
#[export] Instance pc : StorePc := {|
  new_key_and_csr := λ n _, Ok (mkKeyAndCsr "b-key" (as_bytes "csr") (as_bytes "b"));
  pz_server := λ asked _,
    match asked with
    | [] => Ok (mkReply false "" CODE_NOT_CONNECTED "no stream")
    | _ => Ok (mkReply true "b-chain" "" "")
    end;
  unix_now := λ _, 1000;
|}.
#[export] Instance debug : DebugText := {| debug_str := of_chars |}.
Definition paths : CertPaths := in_data_dir "data".
Definition source : CertSource := mkSource "store" "store.pos.example.sk".
Definition old_pair : gmap string File :=
  <[cert paths := mkFile (as_bytes "a-chain") false]> {[ key paths := mkFile (as_bytes "a-key") true ]}.
(** The crash finds the new key in place, the certificate not yet. *)
Definition crash_between : list Accident := [Fine; Fine; Fine; Fine; Fine; Stops true None].
Definition disk_with (l : list Accident) : Disk := mkDisk old_pair l false.
Definition keeper : Keeper := mkKeeper (disk_with []) [] 0 0.
Abbreviation crashed := (snd (store paths (as_bytes "b-key") (as_bytes "b-chain") (disk_with crash_between))).
Abbreviation recovered := (finish_pending paths (power_on crashed)).
Definition pair_texts (d : Disk) : option string * option string :=
  (string_of_list_byte <$> holds (files d) (cert paths), string_of_list_byte <$> holds (files d) (key paths)).

Example crash_is_between : down crashed = true ∧ pair_texts crashed = (Some "a-chain", Some "b-key").
Proof. vm_compute. done. Qed.
Example recovery_runs : fst recovered = Ok true ∧ down (snd recovered) = false
  ∧ pair_texts (snd recovered) = (Some "b-chain", Some "b-key").
Proof. vm_compute. done. Qed.
Example two_rounds :
  fst (maintain source paths 2 maintain_start (mkKeeper (mkDisk ∅ [] false) [] 0 0)) = Ok [30; CHECK_INTERVAL].
Proof. vm_compute. reflexivity. Qed.

(** One failed read of the key, after the same crash, and the recovery deletes the
    only certificate of the key in place. *)
Definition unread_key (d : Disk) : Disk := mkDisk (files d) [Fine; Fine; Fails "sharing violation" None] false.
Lemma unreadable_key_loses_the_pair :
  half paths (as_bytes "b-chain") (as_bytes "b-key") (files crashed)
  ∧ let '(r, d) := finish_pending paths (unread_key crashed) in
    r = Ok false ∧ pair_texts d = (Some "a-chain", Some "b-key") ∧ holds (files d) (cert_new paths) = None
    ∧ fst (status_of paths "store.pos.example.sk" d)
      = Ok (Unusable "the certificate and the key do not belong together: differ").
Proof. split; [split_and!; vm_compute; reflexivity|]. vm_compute. done. Qed.

(** A certificate file the crash cut short is put in place when its first
    certificate is whole. *)
Definition torn_certificate : list Accident := [Fine; Fine; Fine; Fine; Stops false (Some (as_bytes "b"))].
Lemma cut_short_chain_is_installed :
  let d := snd (store paths (as_bytes "b-key") (as_bytes "b-chain") (disk_with torn_certificate)) in
  let '(r, d') := finish_pending paths (power_on d) in r = Ok true ∧ pair_texts d' = (Some "b", Some "b-key").
Proof. vm_compute. done. Qed.
End StorePC.

Section instances.
Import StorePC.

Lemma interrupted_replacement_is_recovered_witness :
  ∃ d', snd recovered = d' ∧ nothing_pending paths (files d')
    ∧ (pair_is paths (old_pair !! cert paths, old_pair !! key paths) (files d')
       ∨ ∃ c k, is_ok (tls_config c k) = true ∧ pair_holds paths c k (files d')).
Proof.
  pose proof recovery_runs as (_ & Hup & _). destruct recovered as [r d'] eqn:E.
  destruct (interrupted_replacement_is_recovered "data" (as_bytes "b-key") (as_bytes "b-chain") (disk_with crash_between) 0 r d')
    as (_ & Hn & Hp).
  - vm_compute. reflexivity.
  - reflexivity.
  - repeat constructor.
  - exact E.
  - exact Hup.
  - exists d'. split; [reflexivity|]. split; [exact Hn|exact Hp].
Defined.

Lemma replacement_is_old_or_new_witness :
  ∃ r d', store paths (as_bytes "b-key") (as_bytes "b-chain") (disk_with crash_between) = (r, d') ∧ down d' = true
    ∧ (pair_is paths (old_pair !! cert paths, old_pair !! key paths) (files d')
       ∨ half paths (as_bytes "b-chain") (as_bytes "b-key") (files d')
       ∨ pair_holds paths (as_bytes "b-chain") (as_bytes "b-key") (files d')).
Proof.
  pose proof crash_is_between as [Hoff _].
  destruct (store paths (as_bytes "b-key") (as_bytes "b-chain") (disk_with crash_between)) as [r d'] eqn:E.
  pose proof (replacement_is_old_or_new "data" (as_bytes "b-key") (as_bytes "b-chain") (disk_with crash_between) r d'
    eq_refl E) as Hs. cbn [snd] in Hoff. rewrite Hoff in Hs. exists r, d'. split; [reflexivity|]. split; [exact Hoff|exact Hs].
Defined.

Lemma private_key_is_never_exposed_witness : private paths (files crashed).
Proof.
  refine (proj1 (private_key_is_never_exposed "data" (as_bytes "b-key") (as_bytes "b-chain") (disk_with crash_between)
    eq_refl _)).
  split; intros f Hf; vm_compute in Hf; [|discriminate Hf]. injection Hf as <-. right. reflexivity.
Defined.

(** The second renewal: pz-server issues, the pair is put in place. *)
Abbreviation renewed := (renew source paths (mkKeeper (disk_with []) [request_of source (as_bytes "csr")] 0 0)).
Example renewal_runs : fst renewed = Ok (mkLeaf 10000000 ["store.pos.example.sk"] (as_bytes "b")) ∧ down (disk (snd renewed)) = false.
Proof. vm_compute. done. Qed.
Lemma installed_certificate_is_the_pcs_own_witness :
  ∃ leaf k' fresh, renewed = (Ok leaf, k') ∧ public_key leaf = kc_public_key fresh
    ∧ pair_holds paths (as_bytes "b-chain") (as_bytes (key_pem fresh)) (files (disk k')).
Proof.
  pose proof renewal_runs as [Hr Hup]. destruct renewed as [r k'] eqn:E. cbn [fst snd] in Hr, Hup. rewrite Hr in E.
  destruct (installed_certificate_is_the_pcs_own source paths
    (mkKeeper (disk_with []) [request_of source (as_bytes "csr")] 0 0) _ k' (in_data_dir_distinct "data") eq_refl E Hup)
    as (fresh & reply & chain & _ & _ & Hp & _ & Hc & _ & _ & Hk & _ & Hpair).
  assert (chain = "b-chain") as Hchain by (injection Hp as <-; rewrite <- Hc; reflexivity).
  rewrite Hchain in Hpair. eexists _, k', fresh. rewrite Hr. split; [reflexivity|]. split; [exact Hk|exact Hpair].
Defined.

Lemma certificate_orders_are_paced_witness :
  ∃ delays k' sent, maintain source paths 3 maintain_start keeper = (Ok delays, k') ∧ length delays = 3%nat
    ∧ CHECK_INTERVAL * orders [] sent ≤ foldr Z.add 0 delays.
Proof.
  destruct (certificate_orders_are_paced source paths 3 maintain_start keeper) as (delays & k' & sent & E & Hl & _ & Ho & _).
  - split_and!; reflexivity || (vm_compute; discriminate).
  - exists delays, k', sent. split; [exact E|]. split; [exact Hl|exact Ho].
Defined.
End instances.
