(* ===== verification/LanProps.v ===== *)
(** * Who may use the LAN API, and what it may do for him *)

From Stdlib Require Import ZArith Ascii String Strings.Byte.
From stdpp Require Import gmap.
From S2P Require Import Prelude RustStd Text Core Sqlite Json DeviceApi JournalData JournalCard Journal.
From S2P Require Import JournalTheory DeviceTasks DeviceSystem PortosPayload Config Startup StartupProps LanApi.
#[local] Open Scope Z_scope.

(** ** ASCII texts *)

Definition ascii_text (s : string) : Prop := forallb (between 0 127) (bytes_of s) = true.
Lemma ascii_chars s : ascii_text s → chars s = bytes_of s.
Proof.
  unfold ascii_text, bytes_of. induction s as [|c s IH]; [done|]. cbn [list_ascii_of_string map forallb chars].
  intros [Hc Hs]%andb_true_iff. apply between_spec in Hc. rewrite (proj2 (Z.ltb_lt _ _)) by lia. f_equal. by apply IH.
Qed.
Lemma ascii_of_chars s : ascii_text s → of_chars (bytes_of s) = s.
Proof.
  unfold ascii_text, bytes_of. induction s as [|c s IH]; [done|]. cbn [list_ascii_of_string map forallb].
  intros [Hc Hs]%andb_true_iff. apply between_spec in Hc.
  assert (of_chars (byte_of c :: map byte_of (list_ascii_of_string s))
          = encode_char (byte_of c) +:+ of_chars (map byte_of (list_ascii_of_string s))) as -> by apply concat_cons.
  rewrite IH by done. unfold encode_char. rewrite (proj2 (Z.ltb_lt _ _)) by lia.
  rewrite append_cons, append_nil. f_equal. unfold ascii_of, byte_of. rewrite N2Z.id.
  apply ascii_N_embedding.
Qed.

(** ** Digests *)

Lemma lor_zero a b : Z.lor a b = 0 ↔ a = 0 ∧ b = 0.
Proof. apply Z.lor_eq_0_iff. Qed.
Lemma ct_fold acc l :
  foldl (λ acc '(x, y), Z.lor acc (Z.lxor (u8 x) (u8 y))) acc l = 0 ↔ acc = 0 ∧ Forall (λ '(x, y), x = y) l.
Proof.
  revert acc. induction l as [|[x y] l IH]; intros acc; simpl; [rewrite Forall_nil; tauto|].
  rewrite IH, Forall_cons, lor_zero, Z.lxor_eq_0_iff. split.
  - intros [[-> Hxy] Hl]. split; [done|]. split; [|done]. rewrite <- (as_u8_u8 x), <- (as_u8_u8 y). by rewrite Hxy.
  - intros (-> & -> & Hl). done.
Qed.
Lemma zip_equal {A} (a b : list A) : length a = length b → Forall (λ '(x, y), x = y) (zip a b) ↔ a = b.
Proof.
  revert b. induction a as [|x a IH]; intros [|y b]; simpl; try done. intros [= Hl]. rewrite Forall_cons, (IH b Hl).
  split; [by intros [-> ->]|by intros [= -> ->]].
Qed.

Section keys.
Context `{Sha256}.

(** The constant-time comparison is equality. *)
Lemma ct_eq_digests a b : ct_eq (digest a) (digest b) = true ↔ digest a = digest b.
Proof.
  unfold ct_eq, digest. rewrite Z.eqb_eq, ct_fold, zip_equal by (by rewrite !sha256_length). tauto.
Qed.

(** The loop over the keys: unchanged when none matches, else a matching till. *)
Lemma till_fold presented keys start :
  let till := foldl (λ (till : option Z) '(id, key), if ct_eq key presented then Some id else till) start keys in
  (till = start ∧ ∀ id key, In (id, key) keys → ct_eq key presented = false)
  ∨ ∃ id key, In (id, key) keys ∧ ct_eq key presented = true ∧ till = Some id.
Proof.
  revert start. induction keys as [|[id key] keys IH]; intros start; simpl; [left; split; [done|by intros]|].
  destruct (ct_eq key presented) eqn:E.
  - right. destruct (IH (Some id)) as [[-> _]|(id' & key' & Hin & Hk & ->)]; [exists id, key|exists id', key']; auto.
  - destruct (IH start) as [[-> Hno]|(id' & key' & Hin & Hk & ->)]; [left|right; exists id', key'; auto].
    split; [done|]. intros id' key' [[= <- <-]|Hin]; [done|by apply (Hno id')].
Qed.

Lemma in_key_table kasy bridge_key id d :
  In (id, d) (keys (KeyTable_new kasy bridge_key)) ↔
  ∃ k key, In k kasy ∧ kasa_id k = id ∧ lan_key k = Some key ∧ is_blank key = false ∧ d = digest (trimmed key).
Proof.
  simpl. rewrite <- list_elem_of_In, list_elem_of_omap. setoid_rewrite list_elem_of_In. unfold key_of, trimmed_key. split.
  - intros (k & Hk & Hd). destruct (lan_key k) as [key|] eqn:E; [|done]. simpl in Hd.
    destruct (is_blank key) eqn:Hb; [done|]. injection Hd as <- <-. eauto 10.
  - intros (k & key & Hk & <- & Hkey & Hb & ->). exists k. split; [done|]. rewrite Hkey. simpl. by rewrite Hb.
Qed.

(** What [till_of] answers, in keys. *)
Lemma till_of_cases kasy bridge_key token :
  (∀ id, till_of (KeyTable_new kasy bridge_key) (Some token) = Some id →
     (∃ k key, In k kasy ∧ kasa_id k = id ∧ lan_key k = Some key ∧ digest (trimmed key) = digest token)
     ∧ (is_blank bridge_key = false → digest (trimmed bridge_key) ≠ digest token))
  ∧ (till_of (KeyTable_new kasy bridge_key) (Some token) = None →
     (is_blank bridge_key = false ∧ digest (trimmed bridge_key) = digest token)
     ∨ ∀ k key, In k kasy → lan_key k = Some key → is_blank key = false → digest (trimmed key) ≠ digest token).
Proof.
  unfold till_of. cbn [mbind option_bind]. cbv zeta.
  assert (∀ b, match bridge (KeyTable_new kasy bridge_key) with Some b => ct_eq b (digest token) | None => false end = b →
    b = true ↔ is_blank bridge_key = false ∧ digest (trimmed bridge_key) = digest token) as Hbridge.
  { intros b <-. simpl. unfold trimmed_key. destruct (is_blank bridge_key); simpl; [naive_solver|].
    rewrite ct_eq_digests. naive_solver. }
  destruct (till_fold (digest token) (keys (KeyTable_new kasy bridge_key)) None) as [[Ht Hno]|(id & d & Hin & Hk & Ht)];
    rewrite Ht; destruct (match bridge _ with Some _ => _ | None => _ end) eqn:Hb.
  - split; [done|]. intros _. left. by apply (Hbridge _ eq_refl).
  - split; [done|]. intros _. right. intros k key Hk Hkey Hbl He.
    assert (In (kasa_id k, digest (trimmed key)) (keys (KeyTable_new kasy bridge_key))) as Hin
      by (apply in_key_table; eauto 10).
    apply Hno in Hin. rewrite He in Hin. by rewrite (proj2 (ct_eq_digests token token)) in Hin.
  - split; [done|]. intros _. left. by apply (Hbridge _ eq_refl).
  - split; [|done]. intros id' [= <-]. apply in_key_table in Hin as (k & key & Hkin & Hid & Hkey & _ & ->). split.
    + exists k, key. split_and!; [done..|]. by apply ct_eq_digests.
    + intros Hbl He. assert (false = true) by (apply (Hbridge _ eq_refl); done). done.
Qed.
End keys.

(** ** A key in a header *)

Lemma key_text key : lan_key_ok key = true → ascii_text key ∧ key ≠ "" ∧ Forall (λ c, 33 ≤ c ≤ 126) (bytes_of key).
Proof.
  unfold lan_key_ok, ascii_text. intros [Hl Hf]%andb_true_iff.
  assert (Forall (λ c, 33 ≤ c ≤ 126) (bytes_of key)) as Hr.
  { rewrite forallb_forall in Hf. apply List.Forall_forall. intros c Hc. apply Hf in Hc. unfold key_byte in Hc.
    apply andb_true_iff in Hc as [[Hc _]%andb_true_iff _]. by apply between_spec. }
  split_and!; [|by intros ->|done]. apply forallb_forall. intros c Hc. rewrite List.Forall_forall in Hr.
  apply Hr in Hc. apply between_spec. lia.
Qed.
Lemma printable_not_blank c : 33 ≤ c ≤ 126 → is_whitespace c = false.
Proof. intros Hc. unfold is_whitespace. repeat case_match; lia || reflexivity || idtac. all: repeat (rewrite orb_false_iff || rewrite andb_false_iff); lia. Qed.

Lemma key_trimmed key : lan_key_ok key = true → trim (chars key) = chars key ∧ trimmed key = key ∧ is_blank key = false.
Proof.
  intros (Ha & Hne & Hr)%key_text. rewrite (ascii_chars key Ha).
  assert (trim (bytes_of key) = bytes_of key) as Ht.
  { apply trim_stable; intros c Hc; apply printable_not_blank; rewrite List.Forall_forall in Hr; apply Hr.
    - destruct (bytes_of key); simplify_eq/=. by left.
    - apply list_elem_of_In. by apply last_Some_elem_of. }
  split; [done|]. unfold trimmed, is_blank. rewrite (ascii_chars key Ha), Ht, ascii_of_chars by done. split; [done|].
  destruct key; [done|]. done.
Qed.

Lemma bearer_of_key key : lan_key_ok key = true → bearer_token (Some ("Bearer " +:+ key)) = Some key.
Proof.
  intros Hk. destruct (key_text key Hk) as (Ha & Hne & Hr). destruct (key_trimmed key Hk) as (Ht & _ & _).
  unfold bearer_token. cbn [mbind option_bind]. change (chars ("Bearer " +:+ key)) with (chars "Bearer" ++ 32 :: chars key).
  assert (split_once SPACE (chars "Bearer" ++ 32 :: chars key) = Some (chars "Bearer", chars key)) as -> by reflexivity.
  cbn [mbind option_bind]. cbv zeta. rewrite Ht, (ascii_chars key Ha), (ascii_of_chars key Ha).
  rewrite bool_decide_false by (by destruct key). reflexivity.
Qed.

(** ** The properties *)

Section properties.
Context `{UnicodeTables} `{!Sha256}.

(** The texts whose digests a call compares. *)
Definition compared (p : PokladnaClientConfig) (token : string) : list string :=
  token :: trimmed (pk_api_key p) :: map snd (lan_keys (pk_kasy p)).
Definition no_collision (p : PokladnaClientConfig) (token : string) : Prop :=
  ∀ a b, In a (compared p token) → In b (compared p token) → digest a = digest b → a = b.

Lemma in_lan_keys ks id key : In (id, key) (lan_keys ks) ↔ ∃ k, In k ks ∧ kasa_id k = id ∧ lan_key k = Some key.
Proof.
  unfold lan_keys. rewrite <- list_elem_of_In, list_elem_of_omap. setoid_rewrite list_elem_of_In. split.
  - intros (k & Hk & He). destruct (lan_key k) eqn:E; [|done]. injection He as <- <-. eauto.
  - intros (k & Hk & <- & He). exists k. by rewrite He.
Qed.
Lemma one_till_per_key (l : list (Z * string)) id id' key :
  NoDup (map snd l) → In (id, key) l → In (id', key) l → id = id'.
Proof.
  intros Hn H1 H2. induction l as [|[i k] l IH]; [done|]. simpl in *. apply NoDup_cons in Hn as [Hk Hn].
  rewrite list_elem_of_In, in_map_iff in Hk.
  destruct H1 as [H1|H1], H2 as [H2|H2]; simplify_eq; [done| | |by apply IH]; destruct Hk; eexists; (split; [|eassumption]); done.
Qed.

(** With a configuration that starts the client, a key sent in a call is
    its own till's and no other's: each till's key opens that till, unless it is
    the Odoo bridge key without its blanks; that key opens none; and whoever is
    let in as a till sent exactly that till's key. *)
Theorem a_key_opens_its_own_till c listed token :
  validate_client_config c listed = Ok tt → pk_enabled (pokladna c) = true →
  lan_enabled (pk_lan_api (pokladna c)) = true → no_collision (pokladna c) token →
  let p := pokladna c in
  let table := KeyTable_new (pk_kasy p) (pk_api_key p) in
  (∀ k key, In k (pk_kasy p) → lan_key k = Some key → token = key → trimmed (pk_api_key p) ≠ key →
     bearer_token (Some ("Bearer " +:+ key)) = Some key ∧ till_of table (Some key) = Some (kasa_id k))
  ∧ (token = trimmed (pk_api_key p) → till_of table (Some token) = None)
  ∧ (∀ id, till_of table (Some token) = Some id →
       ∃ k, In k (pk_kasy p) ∧ kasa_id k = id ∧ lan_key k = Some token).
Proof.
  intros Hv He Hl Hinj p table. pose proof (started_pokladna c listed Hv He) as Hp.
  destruct (started_lan c Hp Hl) as (_ & _ & _ & Hnd & Hkeys). fold p in Hnd, Hkeys.
  assert (is_blank (pk_api_key p) = false) as Hbridge.
  { unfold pokladna_problems in Hp. fold p in Hp. no_problems Hp. done. }
  destruct (till_of_cases (pk_kasy p) (pk_api_key p) token) as [Hsome Hnone]. fold table in Hsome, Hnone.
  assert (∀ id, till_of table (Some token) = Some id →
    (∃ k, In k (pk_kasy p) ∧ kasa_id k = id ∧ lan_key k = Some token) ∧ trimmed (pk_api_key p) ≠ token) as Hin.
  { intros id Ht. destruct (Hsome id Ht) as [(k & key & Hk & Hid & Hkey & Hd) Hb].
    assert (In (id, key) (lan_keys (pk_kasy p))) as Hlk by (apply in_lan_keys; eauto).
    destruct (Hkeys _ _ Hlk) as [Hok _]. destruct (key_trimmed key Hok) as (_ & Htr & _). rewrite Htr in Hd.
    split; [|intros Heq; apply (Hb Hbridge); by rewrite Heq].
    exists k. split_and!; [done|done|]. rewrite Hkey. f_equal. apply Hinj; [|by left|done].
    right. right. apply in_map_iff. by exists (id, key). }
  split_and!.
  - intros k key Hk Hkey Htok Hne. subst key.
    assert (In (kasa_id k, token) (lan_keys (pk_kasy p))) as Hlk by (apply in_lan_keys; eauto).
    destruct (Hkeys _ _ Hlk) as [Hok _]. split; [by apply bearer_of_key|].
    destruct (key_trimmed token Hok) as (_ & Htr & Hbl).
    destruct (till_of table (Some token)) as [id|] eqn:E.
    + destruct (Hin id eq_refl) as [(k' & Hk' & <- & Hkey') _]. f_equal.
      eapply one_till_per_key; [exact Hnd|apply in_lan_keys; eauto|apply in_lan_keys; eauto].
    + exfalso. destruct (Hnone eq_refl) as [[_ Hd]|Hno].
      * apply Hne. apply Hinj; [right; by left|by left|done].
      * apply (Hno k token Hk Hkey Hbl). by rewrite Htr.
  - intros Htok. destruct (till_of table (Some token)) as [id|] eqn:E; [|done]. by destruct (Hin id eq_refl) as [_ Hx]; destruct Hx.
  - intros id Ht. apply (Hin id Ht).
Qed.
End properties.

(** ** The routes *)

Section routes.
Context `{Chrono} `{JsonText} `{Sha256}.
Variables (registry : ExecutorRegistry) (table : KeyTable).

Lemma ok_or_inv {A} (o : option A) text f r : ok_or o text f = Ok r → ∃ a, o = Some a ∧ f a = Ok r.
Proof. destruct o; [eauto|done]. Qed.

(** What an accepted body says. *)
Lemma parse_request_inv body r :
  parse_request body = Ok r →
  0 < lr_kasa_id r ∧ client_uuid_ok (lr_client_uuid r) = true ∧ is_blank (lr_job_type r) = false
  ∧ is_object (lr_payload r) = true ∧ (∀ id, lr_pos_order_id r = Some id → 0 < id).
Proof.
  assert (∀ v n, positive_int v = Some n → 0 < n) as Hpos.
  { intros v n. unfold positive_int. destruct (v ≫= as_i64_value) as [m|]; simpl; [|done].
    destruct (Z.ltb_spec 0 m); [|done]. by intros [= <-]. }
  unfold parse_request. intros E.
  apply ok_or_inv in E as (v & _ & E). apply ok_or_inv in E as (obj & _ & E).
  apply ok_or_inv in E as (uuid & Hu & E). apply ok_or_inv in E as (kasa & Hk & E).
  apply ok_or_inv in E as (jt & Ht & E). apply ok_or_inv in E as (payload & Hp & E).
  apply ok_or_inv in E as (po & Ho & E). injection E as <-. simpl. split_and!.
  - by apply Hpos in Hk.
  - destruct (get_field "client_uuid" obj ≫= as_str) as [u|]; simpl in Hu; [|done].
    destruct (client_uuid_ok u) eqn:Hok; [|done]. by injection Hu as <-.
  - destruct (get_field "job_type" obj ≫= as_str) as [t|]; simpl in Ht; [|done].
    destruct (is_blank t) eqn:Hb; [done|]. by injection Ht as <-.
  - destruct (get_field "payload" obj) as [p|]; simpl in Hp; [|done].
    destruct (is_object p) eqn:Hb; [|done]. by injection Hp as <-.
  - intros id ->. destruct (get_field "pos_order_id" obj) as [[]|]; try done;
      (match type of Ho with context [positive_int ?x] => destruct (positive_int x) as [z|] eqn:Hz in Ho end; [|done];
        apply Hpos in Hz; by simplify_eq/=).
Qed.

Lemma submit_runs r now deadline looks c : ∃ answer c', submit registry r now deadline looks c = (Ok answer, c').
Proof.
  unfold submit, mbind at 1, M_bind at 1, attempt. destruct (admit_lan registry r now c) as [a c1].
  destruct (submit_admitted a) as [[job_id replay]|answer]; [|by exists answer, c1].
  unfold mbind, M_bind. destruct (wait_settled looks job_id deadline c1) as [s c2]. by exists (submit_settled replay s), c2.
Qed.
Lemma job_status_spec st : job_status st = 200 ∧ is_final st = true ∨ job_status st = 202 ∧ is_final st = false.
Proof. unfold job_status. destruct (is_final st); auto. Qed.

(** C24: a call to run a job acts for the till of its key only: without a valid
    key, with a body that is not a request, or with another till's number it is
    refused and nothing changes - not the journal, not a queue; otherwise the
    request is well formed, names the key's till, and is answered by what the
    device-job source did with it. *)
Theorem lan_call_acts_for_its_till_only authorization body now deadline looks c :
  ∃ reply c', post_job registry table authorization body now deadline looks c = (Ok reply, c')
  ∧ (rp_status reply ∈ [400; 401; 403] ∧ c' = c
     ∨ ∃ request answer,
         parse_request body = Ok request
         ∧ till_of table (bearer_token authorization) = Some (lr_kasa_id request)
         ∧ 0 < lr_kasa_id request ∧ client_uuid_ok (lr_client_uuid request) = true
         ∧ is_object (lr_payload request) = true
         ∧ submit registry request now deadline looks c = (Ok answer, c')
         ∧ reply = answer_reply answer ∧ rp_status reply ∈ [200; 202; 409; 422; 503]).
Proof.
  unfold post_job. destruct (till_of table (bearer_token authorization)) as [till|].
  2:{ exists unauthorized, c. split; [done|]. left. split; [set_solver|done]. }
  destruct (parse_request body) as [request|text] eqn:Hp.
  2:{ eexists _, c. split; [reflexivity|]. left. split; [simpl; set_solver|done]. }
  destruct (Z.eqb_spec (lr_kasa_id request) till) as [<-|Hne]; simpl.
  2:{ exists wrong_kasa, c. split; [done|]. left. split; [set_solver|done]. }
  destruct (submit_runs request now deadline looks c) as (answer & c' & E). unfold mbind, M_bind. rewrite E.
  exists (answer_reply answer), c'. split; [done|]. right. exists request, answer.
  pose proof (parse_request_inv _ _ Hp) as (? & ? & _ & ? & _). split_and!; try done.
  destruct answer as [job replay|code text|job|text|text]; simpl; try set_solver.
  destruct (job_status_spec (lj_state job)) as [[-> _]|[-> _]]; set_solver.
Qed.

(** A call that asks for a job only reads: the journal's tables, the queues
    and the calls to devices stay; a job is shown only to the key of its till,
    it is the journal's row of that till and client_uuid, and it is called
    finished (200) exactly when that row is final. *)
Theorem lan_read_shows_its_tills_job authorization kasa client_uuid c :
  ∃ reply c', get_job table authorization kasa client_uuid c = (Ok reply, c')
  ∧ conn (DeviceTasks.journal c') = conn (DeviceTasks.journal c)
  ∧ queues c' = queues c ∧ reconciling c' = reconciling c ∧ asked c' = asked c
  ∧ (rp_status reply ∈ [400; 401; 403; 404; 503]
     ∨ ∃ till row job,
         till_of table (bearer_token authorization) = Some till ∧ parse_path kasa client_uuid = Some till
         ∧ In row (lan_jobs (conn (DeviceTasks.journal c))) ∧ l_kasa_id row = till ∧ l_client_uuid row = client_uuid
         ∧ row_to_lan row = Some job ∧ rp_body reply = job_json job false
         ∧ (rp_status reply = 200 ∧ is_final (lj_state job) = true
            ∨ rp_status reply = 202 ∧ is_final (lj_state job) = false)).
Proof.
  unfold get_job, get_of_till. destruct (till_of table (bearer_token authorization)) as [till|].
  2:{ exists unauthorized, c. split_and!; try done. left. set_solver. }
  destruct (parse_path kasa client_uuid) as [kasa_id|].
  2:{ eexists _, c. split; [reflexivity|]. split_and!; try done. left. simpl. set_solver. }
  destruct (Z.eqb_spec kasa_id till) as [->|Hne]; simpl.
  2:{ exists wrong_kasa, c. split_and!; try done. left. set_solver. }
  unfold mbind, M_bind, attempt, on_journal, zoom. pose proof (lan_job_evolves eq till client_uuid (DeviceTasks.journal c)) as Hsame.
  destruct (lan_job till client_uuid (DeviceTasks.journal c)) as [r j] eqn:E. simpl in Hsame.
  eexists _, _. split; [reflexivity|]. split; [by rewrite Hsame|]. split_and!; try done.
  destruct r as [[job|]|e]; [|left; simpl; set_solver|left; simpl; set_solver]. right.
  apply query_mapped_ok in E as [E _]. unfold read_row in E. destruct (List.find _ _) as [row|] eqn:Ef; [|done].
  destruct (row_to_lan row) as [job'|] eqn:Er; [|done]. injection E as ->.
  apply List.find_some in Ef as [Hin Hk]. apply andb_true_iff in Hk as [Hk Hu]. apply Z.eqb_eq in Hk. apply String.eqb_eq in Hu.
  exists till, row, job. split_and!; try done. apply job_status_spec.
Qed.
End routes.

(** ** The keys of the concrete store *)

Module StoreKeys.
Import Store.
Definition padded (b : bytes) : bytes := take 32 (b ++ replicate 32 x00).
Lemma padded_length b : length (padded b) = 32%nat.
Proof. unfold padded. rewrite length_take, length_app, length_replicate. lia. Qed.
#[export] Instance padding : Sha256 := {| sha256 := padded; sha256_length := padded_length |}.

(** A key that is the bridge key but for a blank passes the start-up check, and
    its till is never let in. *)
Definition blank_before (key : string) (p : PokladnaClientConfig) : PokladnaClientConfig :=
  {| pk_enabled := pk_enabled p; pk_url := pk_url p; pk_api_key := " " +:+ key; pk_wait_s := pk_wait_s p;
     pk_heartbeat_interval_secs := pk_heartbeat_interval_secs p; pk_kasy := pk_kasy p;
     pk_test_executor := pk_test_executor p; pk_lan_api := pk_lan_api p; pk_tim := pk_tim p |}.
Definition with_pokladna (p : PokladnaClientConfig) (c : ClientConfig) : ClientConfig :=
  {| server_address := server_address c; target_printer := target_printer c; dashboard_port := dashboard_port c;
     reconnect_interval_secs := reconnect_interval_secs c;
     max_reconnect_interval_secs := max_reconnect_interval_secs c; client_id := client_id c;
     print_backend := print_backend c; printer_address := printer_address c;
     ghostscript_device := ghostscript_device c; ghostscript_resolution := ghostscript_resolution c;
     printer_tls := printer_tls c; printer_display_name := printer_display_name c;
     print_proxy_url := print_proxy_url c; virtual_printer_name := virtual_printer_name c;
     virtual_printer_driver := virtual_printer_driver c; cl_tls := cl_tls c; serial_bridge := serial_bridge c;
     odoo := odoo c; pokladna := p |}.
Lemma blank_bridge_key_locks_the_till_out :
  let p := blank_before KEY_1 (kasy [till_1]) in
  validate_client_config (with_pokladna p (client [till_1])) listed = Ok tt
  ∧ till_of (KeyTable_new (pk_kasy p) (pk_api_key p)) (Some KEY_1) = None.
Proof. split; vm_compute; reflexivity. Qed.
End StoreKeys.

Section instances.
Import Store StoreKeys.

Lemma a_key_opens_its_own_till_witness :
  let p := kasy [till_1; till_2] in
  bearer_token (Some ("Bearer " +:+ KEY_1)) = Some KEY_1
  ∧ till_of (KeyTable_new (pk_kasy p) (pk_api_key p)) (Some KEY_1) = Some 3.
Proof.
  destruct (a_key_opens_its_own_till (client [till_1; till_2]) listed KEY_1) as (Hown & _ & _).
  - exact store_starts.
  - reflexivity.
  - reflexivity.
  - intros a b Ha Hb Hd.
    repeat match goal with Hin : In _ (compared _ _) |- _ =>
      destruct Hin as [<-|[<-|[<-|[<-|[]]]]] end; try reflexivity; vm_compute in Hd; discriminate Hd.
  - apply (Hown till_1 KEY_1).
    + left. reflexivity.
    + reflexivity.
    + reflexivity.
    + vm_compute. discriminate.
Defined.
End instances.
