(* ===== verification/ServerCertProps.v ===== *)
(** * The stores' certificates: who gets one, how often, and what an order leaves *)

From Stdlib Require Import ZArith Ascii String Sorting.Sorted.
From stdpp Require Import gmap relations.
From S2P Require Import Prelude RustStd Text Core Sqlite Storage Queue Dispatch DispatchTheory.
From S2P Require Import Json DeviceTasks Config Files LanCert AcmeOrder AcmeTheory ServerCert ServerCertTheory ServerProps.
#[local] Open Scope Z_scope.

(** C22: a certificate is ordered only for the store itself: whatever a request
    says and whatever the server's state, it either starts one order - the
    client is approved on this server, the request comes from the address of
    that client's own job stream, the name is its id in the zone, and the CSR
    names exactly that - or it is answered without a certificate and changes
    neither the slots nor the orders. *)
Theorem certificate_is_ordered_only_by_its_owner `{EventJson} `{Csr} `{DebugText} issuer peer q ca s :
  let '(reply, s') := request_certificate (Some issuer) peer q ca s in
  (rp_ok reply = false ∧ cs_slots s' = cs_slots s ∧ cs_running s' = cs_running s ∧ cs_issued s' = cs_issued s)
  ∨ ∃ o, entitled issuer (mkAsked (cs_service s) peer q) o ∧ cs_running s' = cs_running s ++ [o]
      ∧ cs_slots s' = <[ro_name o := Busy]> (cs_slots s) ∧ cs_slots s !! ro_name o ≠ Some Busy
      ∧ (rp_ok reply = true → order_result issuer o = Returned (Ok (rp_chain_pem reply))).
Proof.
  pose proof (request_certificate_spec issuer peer q ca s) as Hs. destruct (request_certificate _ _ _ _ _) as [reply s'].
  simpl in Hs. destruct Hs as [reply service Hok _|o service He _ Hfree]; [by left|right]. exists o. split_and!; try done.
  - intros Hb. by rewrite Hb in Hfree.
  - unfold answer_order. destruct (_ <? _); [done|]. by destruct (order_result issuer o) as [[chain|]|].
Qed.

Section running.
Context `{EventJson} `{Csr} `{DebugText}.
Variables (zone : string) (service : Service) (now : Instant) (s : CertServer).
Let issuer := CertificateIssuer_new zone.

(** C27: over any requests, orders, failures and delays: one order of a name runs
    at a time, two certificates of a name are issued at least an hour apart, and
    each was issued by an order its owner asked for. *)
Theorem certificates_of_a_name_are_an_hour_apart :
  rtc (cert_step issuer) (cert_start service now) s →
  NoDup (map ro_name (cs_running s))
  ∧ StronglySorted (λ a b, a.1 = b.1 → a.2 + from_secs 3600 ≤ b.2) (cs_issued s)
  ∧ ∀ name t, In (name, t) (cs_issued s) → ∃ a o chain,
      In (a, o) (cs_asked s) ∧ entitled issuer a o ∧ ro_name o = name ∧ order_result issuer o = Returned (Ok chain).
Proof.
  intros Hr. pose proof (cert_reachable_inv issuer ltac:(done) ltac:(done) service now s Hr) as I. split_and!.
  - apply I.
  - apply (inv_apart issuer s I).
  - intros name t Ht. destruct (inv_source issuer s I name t Ht) as (a & o & chain & Ha & Hn & Ho & _).
    exists a, o, chain. split_and!; try done. by apply (inv_entitled issuer s I).
Qed.

(** A name is never left busy: it is busy exactly while an order of it runs,
    every running order is within its 660 s, and from every reachable state the
    order of a busy name ends by then, leaving the name free or issued. *)
Theorem busy_name_is_freed name :
  rtc (cert_step issuer) (cert_start service now) s →
  (cs_slots s !! name = Some Busy ↔ In name (map ro_name (cs_running s)))
  ∧ (cs_slots s !! name = Some Busy → ∃ o s', In o (cs_running s) ∧ ro_name o = name
      ∧ rtc (cert_step issuer) s s' ∧ cs_now s ≤ cs_now s' ≤ ro_started o + from_secs 660
      ∧ cs_slots s' !! name ≠ Some Busy).
Proof.
  intros Hr. pose proof (cert_reachable_inv issuer ltac:(done) ltac:(done) service now s Hr) as I.
  split; [apply (inv_busy issuer s I)|]. intros Hb.
  destruct (busy_name_ends issuer ltac:(done) ltac:(done) _ s name eq_refl I Hb) as (o & s' & Ho & Hn & Hs & Hnow & Hf).
  exists o, s'. split_and!; try done; rewrite Hnow.
  - by apply (inv_time issuer s I).
  - by apply (order_ends_later issuer).
Qed.
End running.

(** C29: an ACME order, whatever the CA, Cloudflare and the disk do and wherever
    the 600 s cut it: it ends within them - before the issuer's own limit, which
    would skip the clean-up -, its clean-up asks Cloudflare to remove exactly the
    records it was told of, in order, and the chain of a successful one is the
    CA's for an order of this name, validated and finalized with this CSR. *)
Theorem acme_order_is_bounded_and_cleaned_up `{JsonText} `{AcmeWorld} dns settings hostname csr c :
  let '(issued, c1) := run_order dns settings hostname csr c in
  elapsed c1 ≤ Acme.ORDER_LIMIT < ORDER_LIMIT
  ∧ (∃ new, exchanges (snd (issue dns settings hostname csr c)) = exchanges c ++ new
       ∧ removals new = map (record_url dns) (created new))
  ∧ fst (issue dns settings hostname csr c) = issued
  ∧ (∀ chain, issued = Ok chain → issued_by_ca hostname csr chain).
Proof.
  pose proof (run_order_tidy dns settings hostname csr c) as (He & new & Hn & Hc & Hd).
  unfold issue. destruct (run_order dns settings hostname csr c) as [issued c1] eqn:E. simpl in *. split_and!; [done|done| |done|].
  - destruct (remove_records_removes dns (records c1) c1) as (rest & Hr & Hrc & Hrr).
    exists (new ++ rest). rewrite Hr, Hn, app_assoc. split; [done|].
    by rewrite created_app, removals_app, Hd, Hrc, Hrr, Hc, app_nil_r.
  - intros chain ->. unfold run_order in E.
    destruct (order_for _ _ _ _ _ _) as [[chain'|[e|]] c'] eqn:Ho; [|done|done]. injection E as <- <-.
    by eapply order_for_issued.
Qed.

(** ** A server with one store *)

Module StoreServer.
Import TickChrono.
#[export] Existing Instances tick_chrono Demo.demo_json.
#[export] Instance debug : DebugText := { debug_str := of_chars }.
(** The CSR is the name it asks for. *)
#[export] Instance csr : Csr :=
  { parse_csr := λ der, Ok [OtherExtension; SubjectAlternativeName [DNSName (string_of_list_byte der)]] }.

Definition NAME : string := "pj.pos.example.sk".
Definition service : Service :=
  set_peers {["PJ" := ("c1", Some "10.0.0.5")]}
    (Demo.service (Demo.mk_queue (Demo.store Demo.rows [Demo.client "PJ" "approved" None] []) [])).
Definition issuer : CertificateIssuer := CertificateIssuer_new "pos.example.sk".
Definition request : CertificateRequest := mkRequest "PJ" NAME (as_bytes NAME).
Definition ask (peer : string) (took : Z) (r : OrderEnd) (s : CertServer) : CertificateReply * CertServer :=
  request_certificate (Some issuer) (Some peer) request (from_secs took, r) s.
Definition start : CertServer := cert_start service 0.
Definition s1 : CertServer := snd (ask "10.0.0.5" 45 (Returned (Ok "PEM")) start).
Definition s2 : CertServer := end_order issuer 0 (at_time (from_secs 45) s1).
Definition s3 : CertServer := at_time (from_secs 3645) s2.
(** A CA that hangs. *)
Definition s4 : CertServer := snd (ask "10.0.0.5" 100000 (Panicked "gone") s3).

Example answers : map (λ r, (rp_ok r, rp_error_code r))
  [fst (ask "10.0.0.5" 45 (Returned (Ok "PEM")) start); fst (ask "10.0.0.6" 45 (Returned (Ok "PEM")) start);
   fst (ask "10.0.0.5" 45 (Returned (Ok "PEM")) s1); fst (ask "10.0.0.5" 45 (Returned (Ok "PEM")) s2);
   fst (ask "10.0.0.5" 300 (Returned (Ok "PEM")) s3); fst (ask "10.0.0.5" 45 (Returned (Err "dns")) s3)]
  = [(true, ""); (false, "not_connected"); (false, "busy"); (false, "rate_limited"); (false, "busy");
     (false, "acme_failed")].
Proof. vm_compute. reflexivity. Qed.

Lemma to_s2 : rtc (cert_step issuer) start s2.
Proof.
  eapply rtc_l; [apply (CS_request issuer (Some "10.0.0.5") request (from_secs 45, Returned (Ok "PEM")))|].
  eapply rtc_l; [apply (CS_time issuer (from_secs 45)); [vm_compute; discriminate|]|].
  - intros o [<-|[]]. vm_compute. discriminate.
  - eapply rtc_l; [eapply (CS_end issuer 0); reflexivity|]. apply rtc_refl.
Qed.
Lemma to_s4 : rtc (cert_step issuer) start s4.
Proof.
  etrans; [apply to_s2|]. eapply rtc_l; [apply (CS_time issuer (from_secs 3645)); [vm_compute; discriminate|by intros o []]|].
  eapply rtc_l; [apply (CS_request issuer (Some "10.0.0.5") request (from_secs 100000, Panicked "gone"))|]. apply rtc_refl.
Qed.
End StoreServer.
Import StoreServer.

Lemma certificates_of_a_name_are_an_hour_apart_witness :
  let s5 := end_order issuer 0 (at_time (from_secs (3645 + 660)) s4) in
  cs_issued s4 = [(NAME, from_secs 45)] ∧ map ro_name (cs_running s4) = [NAME] ∧ cs_slots s5 !! NAME = None
  ∧ NoDup (map ro_name (cs_running s4))
  ∧ ∃ a o chain, In (a, o) (cs_asked s4) ∧ entitled issuer a o ∧ ro_name o = NAME
      ∧ order_result issuer o = Returned (Ok chain).
Proof.
  destruct (certificates_of_a_name_are_an_hour_apart "pos.example.sk" service 0 s4 to_s4) as (Hn & _ & Hi).
  split_and!; [vm_compute; reflexivity|vm_compute; reflexivity|vm_compute; reflexivity|exact Hn|].
  apply (Hi NAME (from_secs 45)). vm_compute. by left.
Defined.

Lemma busy_name_is_freed_witness :
  cs_slots s4 !! NAME = Some Busy ∧ ∃ o s', In o (cs_running s4) ∧ ro_name o = NAME
    ∧ rtc (cert_step issuer) s4 s' ∧ cs_now s4 ≤ cs_now s' ≤ ro_started o + from_secs 660
    ∧ cs_slots s' !! NAME ≠ Some Busy.
Proof.
  assert (cs_slots s4 !! NAME = Some Busy) as Hb by (vm_compute; reflexivity). split; [exact Hb|].
  exact (proj2 (busy_name_is_freed "pos.example.sk" service 0 s4 NAME to_s4) Hb).
Defined.
