(* ===== verification/FrontProps.v ===== *)
(** * Properties of the server as its users see it

    The safety of print jobs over the service, its IPP server and its dashboard
    together, the outcomes of a capture, a reprint and an approval, and the printer
    reconciler. *)

From Stdlib Require Import ZArith String Sorting.Permutation.
From stdpp Require Import gmap relations.
From S2P Require Import Prelude RustStd Text Config Core Sqlite Storage StorageTheory Queue QueueTheory.
From S2P Require Import Dispatch DispatchTheory Json Files ConfigFile LanApi Capture Dashboard.
From S2P Require Import Reconciler FrontTheory FrontOutcomes ServerProps LanProps.
#[local] Open Scope Z_scope.

(** ** A job's life, whoever acts on the server *)

Section life.
Context `{EventJson} `{Sha256} `{IppLibrary} `{UnicodeTables} `{Toml}.
Variable app : AppState.

(** C1: whatever the interleaving of the service's work (subscriptions,
    deliveries, reports, retries, the reaper), of captured documents and of the
    requests of the dashboard other than the clearing of the jobs, and whichever
    statements of the database, operations of the disk or descriptions of printers
    fail: a job whose stored state is finished stays finished, and it is never put
    on any job stream again. *)
Theorem finished_job_is_never_resent d d' j :
  rtc (front_step app) d d' → finished j (tables (dash_service d)) →
  finished j (tables (dash_service d')) ∧ no_new_sends j (dash_service d) (dash_service d').
Proof.
  intros Hsteps Hf. destruct (front_steps_le app _ _ Hsteps) as [Hle Hs].
  split; [by eapply jobs_le_finished|by apply Hs].
Qed.

(** C2: over the same steps and failures a captured job is never lost: its row
    stays, the document, the routing, the spool file and the payload hash in it are
    the captured ones, and its retry counter only grows. *)
Theorem captured_document_is_never_lost d d' j r :
  rtc (front_step app) d d' → job_row j (tables (dash_service d)) = Some r →
  ∃ r', job_row j (tables (dash_service d')) = Some r' ∧ same_document r r' ∧ r_retry_count r ≤ r_retry_count r'.
Proof.
  intros Hsteps Hr. destruct (front_steps_le app _ _ Hsteps) as [Hle _].
  destruct (Hle j r Hr) as (r' & Hr' & Hd & Hn & _). eauto.
Qed.
End life.

(** ** Outcomes *)

Section outcomes.
Context `{Chrono} `{Sha256} `{IppLibrary} `{UnicodeTables}.
Variable app : AppState.

(** C20: a document captured under a new id: when the handler succeeds the spool
    file holds the document's payload, one row was added - queued, with the
    attributes, the size and the digest of the payload, and a target - and the id is
    on the live channel of the target's client (a client that is away finds it in
    the store), or on the default queue when there is no target.  The target is the
    client its printer is paired with; it is none, whatever the pairing, only when
    the printer is not paired, or when a call into the store made by this capture
    failed: [push] takes a failed lookup of the pairing for no pairing.  When
    the handler fails no row was added and every queue is as it was. *)
Theorem captured_document_is_stored_and_routed spool id d printer f :
  job_row id (conn (storage (front_queue f))) = None →
  let '(res, f') := handle_document spool id d printer f in captured id spool printer d f res f'.
Proof.
  intros Hf. pose proof (capture_outcome spool id d printer f Hf) as Ho. unfold ends in Ho.
  by destruct (handle_document spool id d printer f).
Qed.


(** C32: an approval that reports a virtual printer has stored it, paired with the
    approved client, and has registered its address in the IPP server - unless there
    is no such server or it could not describe the printer, a failure the handler
    drops.  From then on, at any later moment at which that printer is as the
    approval stored it (nobody edited or deleted it) and its address is registered,
    a document captured at the address becomes a job of the approved client, on its
    live channel when it is connected; it becomes a job of nobody, on the default queue, only when the
    printer's name is empty or a call of that capture into the store failed. *)
Theorem approved_printer_prints_at_its_client id vp d a d1 v info name printer :
  answered (approve_client app id vp) d = (a, d1) → an_status a = 200 → an_body a = Some v →
  get_field "virtual_printer" v = Some info → get_field "display_name" info = Some (VString name) →
  get_field "ipp_name" info = Some (VString printer) →
  (∃ row, printer_row printer d1 = Some row ∧ v_paired_client_id row = Some id)
  ∧ (registered printer d1 ∨ not_registered app name d d1)
  ∧ (∀ d2 spool job doc path f',
       printer_row printer d2 = printer_row printer d1 → registered printer d2 → at_printer printer path →
       job_row job (conn (storage (dash_queue_of d2))) = None →
       ipp_request spool job doc path (da_front d2) = (Ok tt, f') →
       for_client id printer job (dash_queue_of d2) (front_queue f')).
Proof.
  intros Hans Hst Hbody Hinfo Hdisplay Hname.
  pose proof (approve_outcome app id vp d) as Ho. unfold ends, answered in *.
  destruct (approve_client app id vp d) as [[a'|a'] d']; injection Hans as -> ->; simpl in *; [|by destruct Ho].
  destruct (Ho v info Hbody Hinfo) as (p & -> & Hpair & Hrow & Hreg); [intros ->; done|].
  simpl in Hname, Hdisplay. injection Hname as <-. injection Hdisplay as <-.
  split; [by eexists|]. split; [exact Hreg|]. intros d2 spool job doc path f' Hd2. rewrite Hrow in Hd2.
  by apply printed_for_the_client with (row := vp_to_row p).
Qed.
End outcomes.

(** ** The reconciler beside the server *)

Section reconciler.
Context `{EventJson} `{Sha256} `{IppLibrary} `{UnicodeTables} `{Toml}.
Variable app : AppState.

(** The server and the reconciler's task work on the same queue; the dashboard may
    clear the jobs too. *)
Inductive whole_step : Dash * Task → Dash * Task → Prop :=
| whole_front d d' t : front_step app d d' → whole_step (d, t) (d', t)
| whole_clear d t : whole_step (d, t) (snd (answered (Dashboard.clear_jobs app) d), t)
| whole_loop d t r :
    snd (loop_step (mkReconciler (queue (dash_service d)) t)) = r →
    whole_step (d, t) (with_service (set_queue (rc_queue r) (dash_service d)) d, rc_task r).

Definition handed (q : JobQueue) (t : Task) : Prop :=
  ∃ L, last (invoked t) = Some L ∧ ∀ r, r ∈ vps_of q → row_to_virtual_printer r ∈ L.
(** The invariant: what is not yet handed to the invoker has a signal waiting, or
    the list is about to be read, or the last read of it failed. *)
Definition told (q : JobQueue) (t : Task) : Prop :=
  wired q ∧
  match phase t with
  | Reading | Debouncing => True
  | Invoking _ | Waiting => pending q ∨ failed_read t = true ∨ handed q t
  | Exited => False
  end.
Lemma told_announced q q' t : announced q q' → told q t → told q' t.
Proof.
  intros Ha [Hw Ht]. destruct (Ha Hw) as (Hw' & Hp & Hv). split; [done|].
  assert (pending q ∨ failed_read t = true ∨ handed q t → pending q' ∨ failed_read t = true ∨ handed q' t) as Hk.
  { intros [?|[?|(L & HL & Hin)]]; [left; auto|auto|]. destruct Hv as [|Hv]; [by left|]. right. right.
    exists L. split; [done|]. auto. }
  destruct (phase t); auto.
Qed.
Lemma clear_announced d : sannounced (dash_service d) (dash_service (snd (answered (Dashboard.clear_jobs app) d))).
Proof.
  rewrite answered_snd. unfold Dashboard.clear_jobs, mbind, M_bind. destruct (app_queue app); [|simpl; reflexivity].
  pose proof (dash_looked sannounced _ (front_on_q announced sannounced _ announced_clear) d) as Hl.
  destruct (looked (on_q Queue.clear_jobs) d) as [[a|e] d1]; exact Hl.
Qed.

(** The read of the list hands every printer over. *)
Lemma listed (q : JobQueue) r q' : Reads.list_virtual_printers q = (r, q') →
  reconciler_signal q' = reconciler_signal q ∧ vps_of q' = vps_of q
  ∧ (∀ L, r = Ok L → ∀ row, row ∈ vps_of q → row_to_virtual_printer row ∈ L) ∧ (quiet (storage q) → is_ok r = true).
Proof.
  unfold Reads.list_virtual_printers, on_storage, zoom, Storage.list_virtual_printers, vps_of.
  set (g := λ t, map row_to_virtual_printer (order_by v_created_at (virtual_printers t))).
  destruct ((_ ← engine _; query _ g) (storage q)) as [r0 st] eqn:E. intros [= <- <-].
  split_and!; [done|simpl; unfold vps_of; simpl..].
  - pose proof (prepared_query_conn "failed to prepare list-vp query" "failed to read virtual printers" g (storage q)) as Hc.
    rewrite E in Hc. simpl in Hc. by rewrite Hc.
  - intros L ->. apply prepared_query_ok in E as [-> _]. intros row Hrow. unfold g.
    apply list_elem_of_In, in_map. eapply Permutation_in; [symmetry; apply order_by_perm|]. by apply list_elem_of_In.
  - intros Hq. unfold mbind, M_bind in E. rewrite engine_quiet, query_quiet in E by done. by injection E as <- _.
Qed.
Lemma loop_run (q : JobQueue) t :
  snd (loop_step (mkReconciler q t)) =
  match phase t with
  | Reading =>
    mkReconciler (snd (Reads.list_virtual_printers q))
      (match fst (Reads.list_virtual_printers q) with
       | Ok L => mkTask (Invoking L) (invoked t ++ [L]) false
       | Err _ => mkTask Waiting (invoked t) true
       end)
  | Invoking _ => mkReconciler q (mkTask Waiting (invoked t) (failed_read t))
  | Waiting =>
    match recv_signal q with
    | None => mkReconciler q t
    | Some None => mkReconciler q (mkTask Exited (invoked t) (failed_read t))
    | Some (Some q') => mkReconciler q' (mkTask Debouncing (invoked t) (failed_read t))
    end
  | Debouncing => mkReconciler (drain_signals q) (mkTask Reading (invoked t) (failed_read t))
  | Exited => mkReconciler q t
  end.
Proof.
  destruct t as [[|L| | |] l b]; try done.
  - unfold loop_step, read_printers, attempt, rc_on_queue, zoom, mbind, M_bind, gets, modify. simpl.
    by destruct (Reads.list_virtual_printers q) as [[L|e] q'].
  - unfold loop_step, mbind, M_bind, gets. simpl. by destruct (recv_signal q) as [[q'|]|].
Qed.
Lemma read_step (q : JobQueue) t : phase t = Reading →
  let r := snd (loop_step (mkReconciler q t)) in
  reconciler_signal (rc_queue r) = reconciler_signal q ∧ vps_of (rc_queue r) = vps_of q
  ∧ ((∃ L, rc_task r = mkTask (Invoking L) (invoked t ++ [L]) false
           ∧ ∀ row, row ∈ vps_of q → row_to_virtual_printer row ∈ L)
     ∨ rc_task r = mkTask Waiting (invoked t) true ∧ ¬ quiet (storage q)).
Proof.
  intros Hp. rewrite loop_run, Hp.
  destruct (Reads.list_virtual_printers q) as [r q'] eqn:E. apply listed in E as (Hs & Hv & Hl & Hq). cbv zeta.
  simpl. split; [done|]. split; [done|]. destruct r as [L|e].
  - left. exists L. split; [done|]. by apply Hl.
  - right. split; [done|]. intros Hqq. by specialize (Hq Hqq).
Qed.

Lemma told_loop q t :
  told q t → let r := snd (loop_step (mkReconciler q t)) in told (rc_queue r) (rc_task r).
Proof.
  intros [Hw Ht]. destruct (phase t) eqn:Hp.
  - pose proof (read_step q t Hp) as (Hs & Hv & Hr). simpl. set (r := snd _) in *. clearbody r.
    split; [by unfold wired; rewrite Hs|].
    destruct Hr as [(L & -> & HL)|[-> _]]; simpl; right; [right|by left].
    exists L. split; [apply last_snoc|]. rewrite Hv. exact HL.
  - rewrite loop_run, Hp. by split.
  - rewrite loop_run, Hp. unfold recv_signal. destruct Hw as (n & cap & Hn). rewrite Hn. destruct n as [|n]; simpl.
    + split; [by exists 0%nat, cap|]. simpl. by rewrite Hp.
    + split; [|done]. by exists n, cap.
  - rewrite loop_run, Hp. unfold drain_signals. destruct Hw as (n & cap & Hn). rewrite Hn. split; [|done]. by exists 0%nat, cap.
  - done.
Qed.
Lemma told_step x y : whole_step x y → told (queue (dash_service x.1)) x.2 → told (queue (dash_service y.1)) y.2.
Proof.
  destruct 1 as [d d' t Hs|d t|d t r Hr]; simpl.
  - apply told_announced, (front_step_announced app), Hs.
  - apply told_announced, clear_announced.
  - intros Ht. subst r. by apply told_loop.
Qed.
Lemma told_steps x y : rtc whole_step x y → told (queue (dash_service x.1)) x.2 → told (queue (dash_service y.1)) y.2.
Proof. induction 1 as [|a b c Hab _ IH]; [done|]. intros Ht. by apply IH, (told_step _ _ Hab). Qed.

(** C33: from the start of a server whose queue has the reconciler's channel, over
    any interleaving of the server's steps, the dashboard's requests and the
    reconciler's: the loop never ends, and when it waits with no signal in the
    channel, the last list of printers was read and handed to the invoker, and every
    virtual printer now in the store is on it as it is stored.  While a signal waits
    the loop is not stuck: on a store that does not fail its next three steps read
    the list and hand it over. *)
Theorem reconciler_misses_no_printer d d' t :
  wired (queue (dash_service d)) → rtc whole_step (d, started) (d', t) →
  let q := queue (dash_service d') in
  phase t ≠ Exited
  ∧ (phase t = Waiting → ¬ pending q → failed_read t = false → handed q t)
  ∧ (phase t = Waiting → pending q → quiet (storage q) →
     let r1 := snd (loop_step (mkReconciler q t)) in
     let r3 := snd (loop_step (snd (loop_step r1))) in
     ¬ pending (rc_queue r3) ∧ failed_read (rc_task r3) = false ∧ handed (rc_queue r3) (rc_task r3)).
Proof.
  intros Hw Hsteps q. assert (told q t) as [Hw' Ht] by by apply (told_steps _ _ Hsteps).
  split_and!.
  - intros Hp. by rewrite Hp in Ht.
  - intros Hp Hn Hf. rewrite Hp in Ht. destruct Ht as [?|[Ht|?]]; [done|congruence|done].
  - intros Hp (n & cap & Hn) Hq r1 r3.
    assert (r1 = mkReconciler (set_signal (Some (n, cap)) q) (mkTask Debouncing (invoked t) (failed_read t))) as E1.
    { unfold r1. rewrite loop_run, Hp. unfold recv_signal. by rewrite Hn. }
    set (q2 := set_signal (Some (0%nat, cap)) (set_signal (Some (n, cap)) q)).
    set (t2 := mkTask Reading (invoked t) (failed_read t)).
    assert (snd (loop_step r1) = mkReconciler q2 t2) as E2 by by rewrite E1.
    destruct (read_step q2 t2 eq_refl) as (Hs & Hv & Hr). unfold r3. rewrite E2.
    set (r := snd (loop_step (mkReconciler q2 t2))) in *. clearbody r.
    destruct Hr as [(L & -> & HL)|[_ Hnq]]; [|by destruct Hnq]. simpl. split_and!; [|done|].
    + intros (m & cap' & Hm). rewrite Hs in Hm; discriminate Hm.
    + exists L. split; [apply last_snoc|]. by rewrite Hv.
Qed.
End reconciler.

(** ** A server with two printers *)

Module Front.
Import ServerProps.Demo.
#[export] Existing Instance TickChrono.tick_chrono.
#[export] Existing Instance demo_json.
#[export] Existing Instance StoreKeys.padding.
#[export] Existing Instance OneSection.toml.
#[export] Instance any_printer : IppLibrary := {| printer_info := λ _, Ok tt |}.
#[export] Instance ascii_tables : UnicodeTables := {|
  str_to_lowercase := map to_ascii_lowercase;
  is_alphanumeric := λ c, is_ascii_alphanumeric c |}.

Definition app : AppState := with_ipp_server (with_queue (AppState_new "server" "1.0")).
(** A client that asked for the printer "Lab 1" and waits for its approval. *)
Definition lab_client : ClientRow :=
  {| c_machine_id := "m2"; c_hostname := "lab"; c_printer_names := []; c_client_version := "1";
     c_last_seen := "I"; c_is_online := 1; c_pairing_state := "pending";
     c_virtual_printer_name := Some "Lab 1"; c_virtual_printer_driver := None |}.
Definition queue0 : JobQueue :=
  set_signal (Some (0%nat, SIGNAL_CHANNEL_CAPACITY))
    (mk_queue (store rows [client "m1" "approved" (Some "Vendor"); lab_client] []) ["c"]).
Definition hp_service : IppService := mkIppService "HP" "hp".
Definition disk : Disk := mkDisk {[ "/spool/b" := mkFile (as_bytes "page") false ]} [] false.
Definition dash : Dash :=
  mkDash (mkFront (service queue0) disk (mkIppServer {[ "hp" := hp_service ]} (Some hp_service))) "".
Definition document : SimpleIppDocument :=
  mkDocument (mkAttributes (Some " invoice.pdf ") None (Some 2) "iso_a4_210x297mm" "one-sided" "color" "eva")
    (Ok (as_bytes "data")).
Definition approval : Answer * Dash := answered (approve_client app "m2" "v2") dash.
Definition approved : Dash := snd approval.
Definition reprinted_d : Dash := snd (answered (reprint_job app "b" "r1") dash).
Definition captured_d : Dash := on_dash_front (ipp_request "/spool" "n" document "/printers/hp/") dash.
End Front.

Section instances.
Import Front.
Abbreviation lab_print := (ipp_request "/spool" "n" document "/printers/lab-1" (da_front approved)).

Lemma printed_ok {A B} (x : result A unit * B) : fst x = Ok tt → x = (Ok tt, snd x).
Proof. destruct x as [r b]. simpl. by intros ->. Qed.

Lemma finished_job_is_never_resent_witness :
  rtc (front_step app) dash reprinted_d ∧ finished "b" (tables (dash_service dash))
  ∧ finished "b" (tables (dash_service reprinted_d)) ∧ no_new_sends "b" (dash_service dash) (dash_service reprinted_d).
Proof.
  assert (rtc (front_step app) dash reprinted_d) as Hsteps by (apply rtc_once; by apply front_reprint).
  assert (finished "b" (tables (dash_service dash))) as Hf by (eexists; split; reflexivity).
  destruct (finished_job_is_never_resent app _ _ _ Hsteps Hf). auto.
Defined.

Lemma captured_document_is_never_lost_witness :
  ∃ r r', job_row "n" (tables (dash_service captured_d)) = Some r
    ∧ job_row "n" (tables (dash_service (snd (answered (approve_client app "m2" "v2") captured_d)))) = Some r'
    ∧ same_document r r' ∧ r_retry_count r ≤ r_retry_count r'.
Proof.
  eexists. edestruct (captured_document_is_never_lost app captured_d
    (snd (answered (approve_client app "m2" "v2") captured_d)) "n") as (r' & H1 & H2 & H3).
  - apply rtc_once. apply front_approve.
  - vm_compute. reflexivity.
  - exists r'. split; [vm_compute; reflexivity|]. auto.
Defined.

Lemma captured_document_is_stored_and_routed_witness :
  let '(res, f') := handle_document "/spool" "n" document "hp" (da_front dash) in
  res = Ok tt ∧ captured "n" "/spool" "hp" document (da_front dash) res f'.
Proof.
  pose proof (captured_document_is_stored_and_routed "/spool" "n" document "hp" (da_front dash) eq_refl) as Hc.
  assert (fst (handle_document "/spool" "n" document "hp" (da_front dash)) = Ok tt) as Hr by (vm_compute; reflexivity).
  destruct (handle_document "/spool" "n" document "hp" (da_front dash)) as [res f']. auto.
Defined.


Lemma approved_printer_prints_at_its_client_witness :
  (registered "lab-1" approved ∨ not_registered app "Lab 1" dash approved)
  ∧ for_client "m2" "lab-1" "n" (dash_queue_of approved) (front_queue (snd lab_print))
  ∧ (r_target_client_id <$> job_row "n" (conn (storage (front_queue (snd lab_print))))) = Some (Some "m2").
Proof.
  destruct (approved_printer_prints_at_its_client app "m2" "v2" dash (fst approval) approved
    (default VNull (an_body (fst approval)))
    (default VNull (get_field "virtual_printer" (default VNull (an_body (fst approval)))))
    "Lab 1" "lab-1") as (_ & Hreg & Hprint); [exact (surjective_pairing approval)|vm_compute; reflexivity..|].
  split; [exact Hreg|]. split; [|vm_compute; reflexivity].
  apply (Hprint approved "/spool" "n" document "/printers/lab-1" (snd lab_print)).
  - reflexivity.
  - vm_compute. reflexivity.
  - exists (chars "lab-1"). split; vm_compute; reflexivity.
  - vm_compute. reflexivity.
  - assert (fst lab_print = Ok tt) as Hok by (vm_compute; reflexivity). exact (printed_ok lab_print Hok).
Defined.

(** The loop starts, a printer is approved while it waits, and it takes the signal
    up. *)
Definition after_loop (x : Dash * Task) : Dash * Task :=
  let r := snd (loop_step (mkReconciler (queue (dash_service x.1)) x.2)) in
  (with_service (set_queue (rc_queue r) (dash_service x.1)) x.1, rc_task r).
Lemma loop_is_step x : whole_step app x (after_loop x).
Proof. destruct x as [d t]. by apply whole_loop. Qed.
Definition waiting : Dash * Task := after_loop (after_loop (dash, started)).
Definition signalled : Dash * Task := (snd (answered (approve_client app "m2" "v2") waiting.1), waiting.2).
Lemma signalled_steps : rtc (whole_step app) (dash, started) signalled.
Proof.
  eapply rtc_l; [apply loop_is_step|]. eapply rtc_l; [apply loop_is_step|].
  apply rtc_once. unfold signalled. rewrite (surjective_pairing waiting) at 1. apply whole_front, front_approve.
Qed.
Lemma reconciler_misses_no_printer_witness :
  handed (queue (dash_service waiting.1)) waiting.2 ∧ ¬ handed (queue (dash_service signalled.1)) signalled.2
  ∧ let r1 := snd (loop_step (mkReconciler (queue (dash_service signalled.1)) signalled.2)) in
    let r3 := snd (loop_step (snd (loop_step r1))) in handed (rc_queue r3) (rc_task r3).
Proof.
  assert (wired (queue (dash_service dash))) as Hw by (exists 0%nat, 31%nat; reflexivity).
  assert (rtc (whole_step app) (dash, started) (waiting.1, waiting.2)) as Hwait.
  { eapply rtc_l; [apply loop_is_step|]. rewrite <- surjective_pairing. apply rtc_once, loop_is_step. }
  split; [|split].
  - destruct (reconciler_misses_no_printer app dash waiting.1 waiting.2 Hw Hwait) as (_ & Hh & _).
    apply Hh; [vm_compute; reflexivity| |vm_compute; reflexivity].
    intros (n & cap & Hn). vm_compute in Hn. discriminate Hn.
  - intros (L & HL & Hall). vm_compute in HL. injection HL as <-.
    specialize (Hall (List.nth 1 (vps_of (queue (dash_service signalled.1))) ServerProps.Demo.hp)).
    assert (List.nth 1 (vps_of (queue (dash_service signalled.1))) ServerProps.Demo.hp ∈ vps_of (queue (dash_service signalled.1))) as Hin.
    { apply list_elem_of_In, nth_In. vm_compute. lia. }
    specialize (Hall Hin). apply list_elem_of_In in Hall. vm_compute in Hall. destruct Hall as [Hall|[]]. discriminate Hall.
  - destruct (reconciler_misses_no_printer app dash signalled.1 signalled.2 Hw) as (_ & _ & Hh).
    + apply signalled_steps.
    + apply Hh; [vm_compute; reflexivity| |vm_compute; reflexivity].
      exists 0%nat, SIGNAL_CHANNEL_CAPACITY. vm_compute. reflexivity.
Defined.
End instances.
